(* ===== verification/_CoqProject ===== *)
-Q . S2P
Prelude.v
GoBase.v
Schema.v
Sql.v
Evolution.v
Queries.v
PushRepo.v
Items.v
Blocks.v
Details.v
Exec.v
History.v
Labels.v
Locations.v
LocationTree.v
PushFields.v
PushHandlers.v
PushCommit.v
Accounts.v
ImportCommit.v
PushMerge.v
Demo.v
PushTheorems.v
SyncReader.v
System.v
Integrity.v
RepositoryProperties.v
LocationProperties.v
ImportProperties.v
AccountProperties.v
PushLimits.v
PullTheorems.v
PullProperties.v
Limiter.v
Escape.v
Strconv.v
Csv.v
Export.v
ImportParse.v
ImportDiff.v
Exchange.v
StagedRows.v
Reads.v
ImportFlow.v
ImportFlowProperties.v
Base64.v
Password.v
Services.v
ServiceProperties.v
Conflicts.v
DomainServices.v
HttpCore.v
HttpItems.v
HttpGroup.v
HttpSync.v
HttpAccounts.v
Api.v
ApiProperties.v
ApiAnswers.v
Calendar.v
Tree.v
Reports.v
ReportProperties.v
Paths.v
Disk.v
Attachments.v
Effects.v
Backup.v
Restore.v
AttachmentFiles.v
DiskTreeFacts.v
BackupDemo.v
RestoreSafety.v
ArchiveContents.v
BackupRoundTrip.v
AttachmentProperties.v
ItemFilter.v
ItemListProperties.v
Bom.v
