(* ===== verification/Prelude.v ===== *)
(** * HHO server: a verified model of the household inventory server

    The program (src/server) is a Go server that keeps the inventories of
    households in one SQLite database: items with their warranty, sale and
    purchase blocks, identifications, custom fields, labels, stock and
    attachments; a tree of locations; accounts with sessions, device tokens and
    invites.  Every household is a group (a tenant), and everything it owns
    carries its [group_id].  Clients work offline: they pull the changes of
    their group after a watermark and push mutations, which the server merges
    field by field.  Items can be exported to CSV and imported again.  Attached
    files lie beside the database in a data directory, which the commands
    backup and restore write to an archive and read back.

    A request goes from the HTTP handlers (src/server/internal/httpapi) through
    the services (items, labels, locations, customfields, groups, session,
    invite, devicetoken, reporting, importexport) and the repositories
    (storage) to the SQL statements (storage/internal/gen).  This development
    follows the same layers.

    ** How the code is written here

    The database is [Schema.DB], one finite map from ids to rows per table.
    Rows of the synced tables share the columns of [Schema.Row].  SQL
    statements are functions on the maps ([where_], [update_where],
    [insert_row] of [Sql]) that check the CHECK, UNIQUE, PRIMARY KEY and
    FOREIGN KEY constraints of the migrations, with SQLite's error for each.
    Code that reads and writes is in the monad [Sql.M]: it takes a [World], the
    database and the number of random draws so far, and returns a value or a
    Go error and the next world.  [Sql.Tx] is a transaction: an error brings
    the database back.  Requests are served one transaction after another,
    which is what the single writer connection of the server does; where the
    code runs several statements outside a transaction (pull, login, preview),
    the model either reads one snapshot per query or splits the function, so
    that other requests can come in between.  Code that works on files is in
    the monad [Prog Machine] of [Disk]: the world together with a disk, where
    every call to the operating system or the database may succeed, fail or be
    the last one of the process.  64-bit integers are [Z] with the
    wrap-around or the bounds written out; errors are values of [GoError].

    ** Files

    Foundation.
    - [GoBase]: Go's values, errors, null columns, 64-bit integers.
    - [Schema], [Sql], [Queries], [PushRepo]: the tables and the statements
      (storage/internal/gen, storage/internal/db, storage/storage.go,
      storage/push.go, storage/field_versions_record.go).
    - [Evolution], [Exec], [History]: how the database may change under one
      transaction and under many ([Evo], the judgement [evo], [history]).

    Storage: the repositories.
    - [Items], [Blocks], [Details], [Labels], [Locations], [Reads]: storage/
      items.go, stock_adjustments.go, warranty.go, sale.go, purchase.go,
      item_identifications.go, item_custom_fields.go, attachments.go,
      custom_field_defs.go, labels.go, item_labels.go, locations.go,
      locations_tree.go.
    - [LocationTree], [Tree]: the locations are a forest; the
      breadth-first search and the tree built from it are exact.
    - [PushFields], [PushHandlers], [PushCommit]: storage/push_commit.go, one
      handler per pushed entity, and sync/push.go; [PushMerge],
      [PushTheorems], [PushLimits] prove what a push does and where the merge
      falls short.
    - [SyncReader]: sync/reader.go, sync/horizon.go, storage/sync.go;
      [PullTheorems], [PullProperties] prove that
      pages are exact and that a client that follows them converges.
    - [Conflicts]: the conflict log and its cursor.
    - [ImportCommit], [ImportProperties]: storage/import_commit.go and
      import_sessions.go.
    - [Accounts], [AccountProperties]: groups, users, sessions, device tokens,
      invites, password reset.
    - [System], [Integrity]: every write of the server as one event; the
      invariants of every reachable state.  [RepositoryProperties] and
      [LocationProperties] hold the theorems on single operations, [Demo] a
      concrete database for the witnesses.

    Text and files.
    - [Strconv], [Csv], [Base64], [Calendar]: what the code uses of Go's
      strconv, strings, encoding/csv, encoding/base64 and time.
    - [Escape], [Export], [ImportParse], [ImportDiff]: importexport/*.go; with
      [Exchange] and [StagedRows] on the round trip and
      on what a staged row satisfies.
    - [ImportFlow], [ImportFlowProperties]: httpapi/export.go,
      import_preview.go, import_classify.go, import_commit.go.

    Services.
    - [Password]: auth/phc.go and auth/password.go; [Limiter]:
      ratelimit/limiter.go.
    - [Services], [ServiceProperties]: session, bearertoken, devicetoken,
      invite, groups.
    - [DomainServices]: items, labels, locations, customfields and groups, the
      validation in front of the repositories, one Module per package.
    - [Reports], [ReportProperties]: storage/reporting.go, reporting/*.go,
      httpapi/reports.go.
    - [ItemFilter], [ItemListProperties]: storage/items_filter.go and GET
      /items, the text of the query beside what it selects.
    - [Bom]: httpapi/bom.go.

    Files on the disk.
    - [Paths], [Disk]: what the code uses of path/filepath and os,
      on a machine whose calls can fail and whose process can stop.
    - [Effects]: three ways to follow a program through every outcome of its
      calls, the relation between the machine before and after ([does]), the
      files that stay as they are ([frame]), and pre- and postconditions with
      one for the error ([hoare]).
    - [Attachments]: attachments/*.go, datadir/datadir.go,
      httpapi/attachments.go; [AttachmentFiles], [AttachmentProperties] prove
      what a group can reach, what is read back and that every live row has
      its file.
    - [Backup]: backup/*.go and cmd/hho/backup.go; [Restore]:
      cmd/hho/restore.go and serverlock/serverlock.go; [DiskTreeFacts],
      [RestoreSafety], [ArchiveContents] prove what they keep and
      write, [BackupDemo] runs them.

    HTTP.
    - [HttpCore]: problem/problem.go and the shape of all handlers (run, look
      the error up in the table of the handler, answer); [HttpItems],
      [HttpGroup], [HttpSync], [HttpAccounts]: the handlers, from the decoded
      body and path parameters to the decoded response.
    - [Api]: the routes of httpapi/router.go with their middleware
      (authentication, owner only, client version); [ApiProperties],
      [ApiAnswers] prove what holds of whole requests.

    ** What is proved

    - Sync: a mutation is applied once; a push merges field by field against
      the field versions, and reports exactly the stale fields; a pull page is
      exact and ends; a client that follows the pages is in sync again; the
      conflict log can be read without gaps while it grows.
    - State: every reachable database satisfies the constraints of the schema,
      keeps the locations a forest and live labels named differently, and
      stamps rows with the change sequence; rows are never removed.
    - Isolation and errors: no request changes what belongs to another group;
      a request that is refused leaves the database as it was; settings are the
      owner's.
    - Operations: deletes cascade, moves are refused exactly when they would
      close a cycle, stock moves by its delta, an import is committed once and
      an unedited export changes nothing.
    - Accounts: logins, sessions, invites, password reset, back-off of guessed
      passwords, bounds on argon2.
    - Reports: valuations add up, the warranty report and the item counts are
      exact, and the recursions end.
    - Lists: GET /items is the filtered, sorted page, the text of its query
      holds no text of the client, and the bill of materials is exact.
    - Files: whatever fails and wherever the process stops, every live
      attachment has its bytes, a download is what was uploaded, and no request
      reaches the files of another group; an archive is whole or not there,
      the newest scheduled ones stay, and a restore loses nothing.
    - Where the code falls short of what it means to do, the theorem states
      what it does ([pull_misses_concurrent_write], [reassign_hides_move],
      [rehash_undoes_reset], [infinite_number_blocks_pull] and the lemmas of
      [PushLimits] and [ImportProperties]).

    ** Parameters

    Code that is not in the repository is an argument: [Entropy] (UUIDs and
    random bytes, which may fail), [Argon2], [Sha256], [FloatText]
    (FormatFloat and ParseFloat), [SortBy] (sort.Slice, with the law that it
    gives a sorted permutation), [FullText] (which items an FTS5 expression
    matches), [Imaging] and [DetectContentType] (decoding and scaling pictures,
    the type of a file), [Archives] (the bytes of tar, gzip and JSON), [Engine]
    (the bytes of a SQLite database), [Locks] (flock), the parsing of a UUID,
    Unicode's lower case, and every reading of the clock.  [IO] says what
    becomes of each call to the operating system: the theorems hold for every
    [IO].  The witnesses run them at concrete functions.

    ** Fuel

    Loops that are not structural carry fuel that a theorem shows to be enough:
    the digits of a 64-bit number (20), the walk up from a location and the
    search down, the tree and its totals (the number of locations), the pages
    of an export (one more than the number of items), trimming (the length of
    the text), the walk through a directory (the length of the longest path
    there is, since every step down makes the path longer).  The retries for a short code are the code's own bound (10).

    ** Not modelled

    Matching paths to routes and decoding and encoding bodies (a third-party
    router and encoding/json; the decoded values are the interface), logging,
    request ids, panics and body limits; QR codes and the label sheets; the
    staging files of an import and their upload; of the commands under cmd/
    what is not backup or restore, and their flags and messages; configuration,
    migrations, start and shutdown, the embedded web client.  Contexts are
    never cancelled.  SQLite's own failures (a full disk, a corrupted file)
    occur on the machine of [Disk] only; in [Sql.M] they do not.  A process
    stops, but the machine under it does not lose what was written. *)

From stdpp Require Export prelude gmap strings list sorting.
From Stdlib Require Export ZArith Lia.
From Stdlib Require Strings.String.

Abbreviation string_of_list_ascii := Stdlib.Strings.String.string_of_list_ascii.
Abbreviation list_ascii_of_string := Stdlib.Strings.String.list_ascii_of_string.

(** ** Notations *)

Declare Scope hho_scope.
Delimit Scope hho_scope with hho.

(** Boolean string equality, as Go's [==] on strings. *)
Notation "s =?s t" := (String.eqb s t) (at level 70) : hho_scope.

#[global] Open Scope hho_scope.

(** ** Tactics *)

(** Case analysis on the innermost [match] or [if] of the goal. *)
Ltac split_match :=
  match goal with
  | |- context [ match ?e with _ => _ end ] =>
      lazymatch e with
      | context [ match _ with _ => _ end ] => fail
      | _ => let E := fresh "E" in destruct e eqn:E
      end
  end.

(** The same in a hypothesis. *)
Ltac split_match_in H :=
  match type of H with
  | context [ match ?e with _ => _ end ] =>
      lazymatch e with
      | context [ match _ with _ => _ end ] => fail
      | _ => let E := fresh "E" in destruct e eqn:E
      end
  end.

(** ** Strings *)

Lemma string_eqb_refl (s : string) : (s =?s s) = true.
Proof. apply String.eqb_refl. Qed.

Lemma string_eqb_true (s t : string) : (s =?s t) = true <-> s = t.
Proof. apply String.eqb_eq. Qed.

Lemma string_eqb_false (s t : string) : (s =?s t) = false <-> s <> t.
Proof. apply String.eqb_neq. Qed.

Lemma string_cons_app c s t : (String c s ++ t)%string = String c (s ++ t)%string.
Proof. reflexivity. Qed.

Lemma string_app_assoc (s t u : string) : ((s ++ t) ++ u)%string = (s ++ t ++ u)%string.
Proof. induction s as [|c s IH]; [done|]. rewrite !string_cons_app. by rewrite IH. Qed.

Create HintDb hho discriminated.
#[export] Hint Rewrite string_eqb_refl : hho.

(** Turn boolean tests in the hypotheses into propositions. *)
Ltac bool_facts :=
  repeat match goal with
  | H : (_ =?s _) = true |- _ => apply string_eqb_true in H
  | H : (_ =?s _) = false |- _ => apply string_eqb_false in H
  | H : (_ =? _)%Z = true |- _ => apply Z.eqb_eq in H
  | H : (_ =? _)%Z = false |- _ => apply Z.eqb_neq in H
  | H : (_ <? _)%Z = true |- _ => apply Z.ltb_lt in H
  | H : (_ <? _)%Z = false |- _ => apply Z.ltb_ge in H
  | H : (_ <=? _)%Z = true |- _ => apply Z.leb_le in H
  | H : (_ <=? _)%Z = false |- _ => apply Z.leb_gt in H
  | H : (_ && _)%bool = true |- _ => apply andb_true_iff in H as [? ?]
  | H : (_ || _)%bool = false |- _ => apply orb_false_iff in H as [? ?]
  | H : negb _ = true |- _ => apply negb_true_iff in H
  | H : negb _ = false |- _ => apply negb_false_iff in H
  | H : bool_decide _ = true |- _ => apply bool_decide_eq_true in H
  | H : bool_decide _ = false |- _ => apply bool_decide_eq_false in H
  end.

(** ** Lists *)

Section lists.
Context {A : Type}.
Implicit Types (l : list A) (p : A -> bool).

Lemma existsb_false_iff p l :
  existsb p l = false <-> forall x, x ∈ l -> p x = false.
Proof.
  induction l as [|a l IH]; simpl; [set_solver|].
  rewrite orb_false_iff, IH. set_solver.
Qed.

Lemma existsb_true_iff p l :
  existsb p l = true <-> exists x, x ∈ l /\ p x = true.
Proof.
  rewrite existsb_exists. setoid_rewrite list_elem_of_In. done.
Qed.

Lemma forallb_true_iff p l :
  forallb p l = true <-> forall x, x ∈ l -> p x = true.
Proof.
  rewrite forallb_forall. setoid_rewrite list_elem_of_In. done.
Qed.

Lemma elem_of_filter_bool p l x :
  x ∈ List.filter p l <-> x ∈ l /\ p x = true.
Proof. rewrite !list_elem_of_In. apply filter_In. Qed.
End lists.

(** A map built by inserting the elements of a list one by one. *)
Section build_map.
Context {A K V : Type} `{Countable K} (key : A -> K) (val : A -> V).

Lemma foldl_insert_lookup (l : list A) i y :
  NoDup (key <$> l) ->
  foldl (fun (m : gmap K V) x => <[key x := val x]> m) ∅ l !! i = Some y <->
  exists x, x ∈ l /\ key x = i /\ val x = y.
Proof.
  induction l as [|x l IH] using rev_ind.
  { intros _. simpl. rewrite lookup_empty. set_solver. }
  rewrite fmap_app, NoDup_app. intros (Hnd & Hdis & _). specialize (IH Hnd).
  assert (He : forall x', x' ∈ l -> key x' <> key x).
  { intros x' Hx' Heq. apply (Hdis (key x')); [set_solver|]. rewrite Heq. set_solver. }
  rewrite foldl_app. simpl. setoid_rewrite elem_of_app. setoid_rewrite list_elem_of_singleton.
  destruct (decide (i = key x)) as [->|Hi].
  - rewrite lookup_insert_eq. naive_solver.
  - rewrite lookup_insert_ne by done. rewrite IH. naive_solver.
Qed.
End build_map.
