(* ===== verification/GoBase.v ===== *)
(** * Go values the server computes with

    The model of what the source uses of the Go language and its standard
    library: error values, [int64] arithmetic, [float64], the [sql.Null*]
    types, the JSON values of [encoding/json], and the state-and-error monad
    in which the code that runs inside a database transaction is written. *)

From S2P Require Import Prelude.
From Stdlib Require Import Floats.SpecFloat.

(** ** Errors

    A Go [error] is represented by what [errors.Is] and [errors.As] can find
    in it: the sentinel at the end of its [%w] chain (or the SQLite result
    code).  The text added by the wrappers is not kept, except for an error
    that has no sentinel, whose message is the argument of [ErrMessage]. *)

(** The extended result codes of SQLite the schema can raise. *)
Inductive SqliteCode :=
  | SQLITE_CONSTRAINT_CHECK        (* 275 *)
  | SQLITE_CONSTRAINT_FOREIGNKEY   (* 787 *)
  | SQLITE_CONSTRAINT_PRIMARYKEY   (* 1555 *)
  | SQLITE_CONSTRAINT_UNIQUE       (* 2067 *).

Inductive GoError :=
  | ErrNoRows                      (* sql.ErrNoRows *)
  | ErrSQLite (code : SqliteCode)
  | ErrGroupNotFound               (* db.ErrGroupNotFound *)
  | ErrNoGroup
  | ErrNotFound
  | ErrShortCodeTaken
  | ErrVersionMismatch
  | ErrWarrantyExists
  | ErrSaleExists
  | ErrPurchaseExists
  | ErrLabelNameConflict
  | ErrLocationParentNotFound
  | ErrLocationCycle
  | ErrLocationNotEmpty (childCount itemCount : Z)
  | ErrLocationReassignTarget
  | ErrMutationAlreadyRecorded
  | ErrInvalidConflictPage
  | ErrPushUnknownEntityType
  | ErrPushUnknownField
  | ErrPushMissingField
  | ErrPushInvalidFieldValue
  | ErrPushAttachmentRejected
  | ErrPushCreationOnly
  | ErrPushUnknownOp
  | ErrPushDeleteNotSupported
  | ErrSyncNoRepository
  | ErrInvalidLimit
  | ErrInvalidSince
  | ErrUserNotFound
  | ErrSessionNotFound
  | ErrDeviceTokenNotFound
  | ErrRegistrationClosed
  | ErrInviteNotRedeemable
  | ErrUsernameTaken
  | ErrImportSessionNotStaged
  | ErrMessage (msg : string).

#[global] Instance SqliteCode_eq_dec : EqDecision SqliteCode.
Proof. solve_decision. Defined.
#[global] Instance GoError_eq_dec : EqDecision GoError.
Proof. solve_decision. Defined.

(** A Go result [(value, error)]. *)
Inductive res (A : Type) := Ok (a : A) | Err (e : GoError).
Arguments Ok {A} a.
Arguments Err {A} e.

#[global] Instance res_ret : MRet res := fun A a => Ok a.
#[global] Instance res_bind : MBind res :=
  fun A B f m => match m with Ok a => f a | Err e => Err e end.

Definition is_ok {A} (r : res A) : bool := match r with Ok _ => true | Err _ => false end.

(** ** Machine integers *)

Definition int64_min : Z := -9223372036854775808.
Definition int64_max : Z := 9223372036854775807.

(** Two's complement wrap-around of [int64] arithmetic. *)
Definition wrap64 (z : Z) : Z := (z + 2^63) mod 2^64 - 2^63.

Definition in_int64 (z : Z) : bool := (int64_min <=? z)%Z && (z <=? int64_max)%Z.

Lemma wrap64_range z : (int64_min <= wrap64 z <= int64_max)%Z.
Proof.
  unfold wrap64, int64_min, int64_max.
  pose proof (Z.mod_pos_bound (z + 2^63) (2^64) ltac:(lia)). lia.
Qed.

Lemma wrap64_id z : (int64_min <= z <= int64_max)%Z -> wrap64 z = z.
Proof.
  unfold wrap64, int64_min, int64_max. intros H.
  rewrite Z.mod_small; lia.
Qed.

(** ** float64 *)

Notation float64 := spec_float.

(** Go's [==] on [float64]: IEEE comparison, so a NaN differs from itself. *)
Definition float64_eqb (x y : float64) : bool := SFeqb x y.

(** The [float64] nearest to an integer. *)
Definition float64_of_Z (z : Z) : float64 := binary_normalize 53 1024 z 0 false.

Definition float64_finite (x : float64) : bool :=
  match x with S754_infinity _ | S754_nan => false | _ => true end.

(** ** JSON

    A [json.RawMessage] is represented by the value it denotes.  A number
    literal without fraction and exponent is [NInt]; any other literal is
    [NFloat] of the nearest [float64], which is what [strconv.ParseFloat]
    gives for it (infinite when the literal is out of range). *)

Inductive number := NInt (z : Z) | NFloat (f : float64).

Inductive json :=
  | JNull
  | JBool (b : bool)
  | JNumber (n : number)
  | JString (s : string)
  | JArray (l : list json)
  | JObject (l : list (string * json)).

(** [string(raw) == "null"] *)
Definition json_is_null (j : json) : bool := match j with JNull => true | _ => false end.

(** [json.Unmarshal] into a [string], an [int64], a [bool] and a [float64].
    [null] leaves the zero value in place and is no error. *)
Definition Unmarshal_string (j : json) : option string :=
  match j with JString s => Some s | JNull => Some ""%string | _ => None end.

Definition Unmarshal_int64 (j : json) : option Z :=
  match j with
  | JNumber (NInt z) => if in_int64 z then Some z else None
  | JNull => Some 0%Z
  | _ => None
  end.

Definition Unmarshal_bool (j : json) : option bool :=
  match j with JBool b => Some b | JNull => Some false | _ => None end.

Definition Unmarshal_float64 (j : json) : option float64 :=
  match j with
  | JNumber (NInt z) =>
      let f := float64_of_Z z in if float64_finite f then Some f else None
  | JNumber (NFloat f) => if float64_finite f then Some f else None
  | JNull => Some (S754_zero false)
  | _ => None
  end.

(** ** The monad of database code

    A computation reads and writes the state and ends with a value or an
    error.  An error does not undo the writes made before it: that is what
    the rollback of the enclosing transaction is for. *)

Definition Prog (S A : Type) : Type := S -> res A * S.

#[global] Instance prog_ret {S} : MRet (Prog S) := fun A a s => (Ok a, s).
#[global] Instance prog_bind {S} : MBind (Prog S) :=
  fun A B f m s =>
    match m s with
    | (Ok a, s') => f a s'
    | (Err e, s') => (Err e, s')
    end.

Definition throw {S A} (e : GoError) : Prog S A := fun s => (Err e, s).

(** Run [m] and hand its error to the caller as a value: Go's
    [v, err := m(...)] before [err] is inspected. *)
Definition try {S A} (m : Prog S A) : Prog S (res A) :=
  fun s => let '(r, s') := m s in (Ok r, s').

(** Return a result computed without the database. *)
Definition lift {S A} (r : res A) : Prog S A := fun s => (r, s).

Definition get {S} : Prog S S := fun s => (Ok s, s).

(** [for _, x := range l { if err := f(x); err != nil { return err } }] *)
Fixpoint for_each {S A} (l : list A) (f : A -> Prog S unit) : Prog S unit :=
  match l with
  | [] => mret tt
  | x :: l => f x ≫= fun _ => for_each l f
  end.

Section prog_laws.
Context {S A B : Type}.
Implicit Types (m : Prog S A) (k : A -> Prog S B) (s : S).

Lemma prog_bind_ok m k s a s' : m s = (Ok a, s') -> (m ≫= k) s = k a s'.
Proof. intros E. unfold mbind, prog_bind. by rewrite E. Qed.

Lemma prog_bind_err m k s e s' : m s = (Err e, s') -> (m ≫= k) s = (Err e, s').
Proof. intros E. unfold mbind, prog_bind. by rewrite E. Qed.

Lemma prog_bind_inv_ok m k s b s'' :
  (m ≫= k) s = (Ok b, s'') -> exists a s', m s = (Ok a, s') /\ k a s' = (Ok b, s'').
Proof. unfold mbind, prog_bind. destruct (m s) as [[a|e] s']; naive_solver. Qed.
End prog_laws.
