(* ===== verification/Schema.v ===== *)
(** * The database: rows, tables and the SQL statements on them

    The tables of [migrations/0001_initial_schema.sql] (with migrations 0002
    to 0005) as finite maps from primary key to row, their CHECK, UNIQUE and
    FOREIGN KEY constraints, and the three kinds of SQL statement the queries
    are made of: SELECT, INSERT and UPDATE.  The columns that every entity
    table has (the structs of [internal/gen/models.go] repeat them) are
    factored into [Row]; the remaining columns of a table are its payload. *)

From S2P Require Import Prelude GoBase.

(** ** Rows *)

Record Row (D : Type) := mkRow {
  ID : string;
  GroupID : string;
  CreatedAt : Z;
  UpdatedAt : Z;
  Version : Z;
  DeletedAt : option Z;
  ChangeSeq : Z;
  Cols : D;
}.
Arguments mkRow {D}.
Arguments ID {D}. Arguments GroupID {D}. Arguments CreatedAt {D}.
Arguments UpdatedAt {D}. Arguments Version {D}. Arguments DeletedAt {D}.
Arguments ChangeSeq {D}. Arguments Cols {D}.

(** [deleted_at IS NULL] *)
Definition live {D} (r : Row D) : bool :=
  match DeletedAt r with None => true | Some _ => false end.

(** The row an INSERT makes: [created_at = updated_at = now, version = 1,
    deleted_at = NULL]. *)
Definition newRow {D} (id group : string) (now seq : Z) (d : D) : Row D :=
  mkRow id group now now 1 None seq d.

(** [SET ..., updated_at = now, version = version + 1, change_seq = seq] *)
Definition touch {D} (now seq : Z) (set : D -> D) (r : Row D) : Row D :=
  mkRow (ID r) (GroupID r) (CreatedAt r) now (Version r + 1) (DeletedAt r) seq (set (Cols r)).

(** [SET deleted_at = now, updated_at = now, version = version + 1, change_seq = seq] *)
Definition tombstone {D} (now seq : Z) (r : Row D) : Row D :=
  mkRow (ID r) (GroupID r) (CreatedAt r) now (Version r + 1) (Some now) seq (Cols r).

(** [SET deleted_at = NULL, updated_at = now, version = version + 1, change_seq = seq] *)
Definition revive {D} (now seq : Z) (r : Row D) : Row D :=
  mkRow (ID r) (GroupID r) (CreatedAt r) now (Version r + 1) None seq (Cols r).

Record ItemCols := mkItem {
  item_Name : string; item_Description : string; item_LocationID : option string;
  item_Quantity : Z; item_ShortCode : string; item_ExternalRef : option string }.
Record WarrantyCols := mkWarranty {
  war_ItemID : string; war_Holder : string; war_Provider : string;
  war_StartsOn : option string; war_ExpiresOn : option string;
  war_IsLifetime : Z; war_Notes : string }.
Record SaleCols := mkSale {
  sale_ItemID : string; sale_BuyerName : string; sale_SoldOn : option string;
  sale_PriceMinor : Z; sale_Notes : string }.
Record PurchaseCols := mkPurchase {
  pur_ItemID : string; pur_Vendor : string; pur_PurchasedOn : option string;
  pur_PriceMinor : Z; pur_OrderReference : string; pur_Notes : string }.
Record IdentificationCols := mkIdentification {
  idn_ItemID : string; idn_Kind : string; idn_Value : string }.
Record CustomFieldCols := mkCustomField {
  icf_ItemID : string; icf_FieldDefID : option string; icf_Name : string;
  icf_FieldType : string; icf_TextValue : option string;
  icf_NumberValue : option float64; icf_BoolValue : option Z;
  icf_DateValue : option string }.
Record StockCols := mkStock {
  stk_ItemID : string; stk_Delta : Z; stk_Reason : string; stk_Note : string;
  stk_ResultingQuantity : Z }.
Record LocationCols := mkLocation { loc_Name : string; loc_ParentID : option string }.
Record LabelCols := mkLabel { lbl_Name : string; lbl_Color : string }.
Record ItemLabelCols := mkItemLabel { il_ItemID : string; il_LabelID : string }.
Record AttachmentCols := mkAttachment {
  att_ItemID : string; att_Category : string; att_OriginalFilename : string;
  att_ContentType : string; att_SizeBytes : Z; att_StoragePath : string;
  att_ThumbnailPath : option string; att_Sha256 : string }.
Record CustomFieldDefCols := mkCustomFieldDef {
  cfd_Name : string; cfd_FieldType : string; cfd_DisplayOrder : Z }.

Record UserCols := mkUser { usr_Username : string; usr_PasswordHash : string; usr_Role : string }.
Record SessionCols := mkSession {
  ses_UserID : string; ses_TokenHash : string; ses_ExpiresAt : Z; ses_RevokedAt : option Z;
  ses_UserAgent : string; ses_CreatedFromIp : string }.
Record DeviceTokenCols := mkDeviceToken {
  dev_UserID : string; dev_TokenHash : string; dev_DeviceLabel : string; dev_RevokedAt : option Z }.
Record InviteCols := mkInvite {
  inv_TokenHash : string; inv_CreatedByUserID : string; inv_ExpiresAt : Z;
  inv_RedeemedAt : option Z; inv_RedeemedByUserID : option string }.

Abbreviation Item := (Row ItemCols).
Abbreviation Warranty := (Row WarrantyCols).
Abbreviation Sale := (Row SaleCols).
Abbreviation Purchase := (Row PurchaseCols).
Abbreviation Identification := (Row IdentificationCols).
Abbreviation ItemCustomField := (Row CustomFieldCols).
Abbreviation StockAdjustment := (Row StockCols).
Abbreviation Location := (Row LocationCols).
Abbreviation Label := (Row LabelCols).
Abbreviation ItemLabel := (Row ItemLabelCols).
Abbreviation Attachment := (Row AttachmentCols).
Abbreviation CustomFieldDef := (Row CustomFieldDefCols).
Abbreviation User := (Row UserCols).
Abbreviation Session := (Row SessionCols).
Abbreviation DeviceToken := (Row DeviceTokenCols).
Abbreviation Invite := (Row InviteCols).

Record Group := mkGroup {
  grp_Name : string; grp_CurrencyCode : string; grp_RegistrationEnabled : Z;
  grp_ChangeSeqCounter : Z; grp_CreatedAt : Z; grp_UpdatedAt : Z; grp_Version : Z;
  grp_DeletedAt : option Z; grp_ChangeSeq : Z;
  grp_WarrantyVisible : Z; grp_SaleVisible : Z; grp_PurchaseVisible : Z;
  grp_TombstoneLowWatermark : Z }.

(** A row of [mutations], keyed by its [id]. *)
Record Mutation := mkMutation {
  mut_GroupID : string; mut_MutationID : string; mut_EntityType : string;
  mut_EntityID : string; mut_AppliedAt : Z; mut_Outcome : string;
  mut_CreatedAt : Z; mut_UpdatedAt : Z }.

(** A row of [conflicts], keyed by its [id]; the two snapshot columns hold
    JSON text, represented by the value it denotes. *)
Record Conflict := mkConflict {
  con_GroupID : string; con_EntityType : string; con_EntityID : string;
  con_FieldName : string; con_ServerValueSnapshot : option json;
  con_LosingClientValueSnapshot : option json; con_DetectedAt : Z;
  con_MutationID : option string; con_CreatedAt : Z; con_UpdatedAt : Z }.

(** A row of [field_versions], keyed by its four-column primary key. *)
Record FieldVersion := mkFieldVersion { fv_Version : Z; fv_UpdatedAt : Z }.

Record fvKey := mkFvKey {
  fvk_group : string; fvk_entityType : string; fvk_entityID : string; fvk_field : string }.

#[global] Instance fvKey_eq_dec : EqDecision fvKey.
Proof. solve_decision. Defined.
#[global] Program Instance fvKey_countable : Countable fvKey :=
  inj_countable' (fun k => (fvk_group k, fvk_entityType k, fvk_entityID k, fvk_field k))
    (fun '(g, t, i, f) => mkFvKey g t i f) _.
Next Obligation. by intros []. Qed.

(** A row of [import_sessions], keyed by its [id]. *)
Record ImportSession := mkImportSession {
  imp_GroupID : string; imp_Source : string; imp_Status : string;
  imp_CreatedAt : Z; imp_ExpiresAt : Z }.

(** ** The database *)

Record DB := mkDB {
  groups : gmap string Group;
  items : gmap string Item;
  item_warranty : gmap string Warranty;
  item_sale : gmap string Sale;
  item_purchase : gmap string Purchase;
  item_identifications : gmap string Identification;
  item_custom_fields : gmap string ItemCustomField;
  stock_adjustments : gmap string StockAdjustment;
  locations : gmap string Location;
  labels : gmap string Label;
  item_labels : gmap string ItemLabel;
  attachments : gmap string Attachment;
  custom_field_defs : gmap string CustomFieldDef;
  users : gmap string User;
  sessions : gmap string Session;
  device_tokens : gmap string DeviceToken;
  invites : gmap string Invite;
  mutations : gmap string Mutation;
  conflicts : gmap string Conflict;
  field_versions : gmap fvKey FieldVersion;
  import_sessions : gmap string ImportSession;
}.

Definition emptyDB : DB := mkDB ∅ ∅ ∅ ∅ ∅ ∅ ∅ ∅ ∅ ∅ ∅ ∅ ∅ ∅ ∅ ∅ ∅ ∅ ∅ ∅ ∅.

(** [SELECT change_seq_counter FROM groups WHERE id = g] (0 without a row). *)
Definition counter (g : string) (db : DB) : Z :=
  match groups db !! g with Some G => grp_ChangeSeqCounter G | None => 0 end.

Definition set_groups t (db : DB) : DB :=
  mkDB t (items db) (item_warranty db) (item_sale db) (item_purchase db) (item_identifications db)
    (item_custom_fields db) (stock_adjustments db) (locations db) (labels db) (item_labels db)
    (attachments db) (custom_field_defs db) (users db) (sessions db) (device_tokens db) (invites db)
    (mutations db) (conflicts db) (field_versions db) (import_sessions db).
Definition set_items t (db : DB) : DB :=
  mkDB (groups db) t (item_warranty db) (item_sale db) (item_purchase db) (item_identifications db)
    (item_custom_fields db) (stock_adjustments db) (locations db) (labels db) (item_labels db)
    (attachments db) (custom_field_defs db) (users db) (sessions db) (device_tokens db) (invites db)
    (mutations db) (conflicts db) (field_versions db) (import_sessions db).
Definition set_item_warranty t (db : DB) : DB :=
  mkDB (groups db) (items db) t (item_sale db) (item_purchase db) (item_identifications db)
    (item_custom_fields db) (stock_adjustments db) (locations db) (labels db) (item_labels db)
    (attachments db) (custom_field_defs db) (users db) (sessions db) (device_tokens db) (invites db)
    (mutations db) (conflicts db) (field_versions db) (import_sessions db).
Definition set_item_sale t (db : DB) : DB :=
  mkDB (groups db) (items db) (item_warranty db) t (item_purchase db) (item_identifications db)
    (item_custom_fields db) (stock_adjustments db) (locations db) (labels db) (item_labels db)
    (attachments db) (custom_field_defs db) (users db) (sessions db) (device_tokens db) (invites db)
    (mutations db) (conflicts db) (field_versions db) (import_sessions db).
Definition set_item_purchase t (db : DB) : DB :=
  mkDB (groups db) (items db) (item_warranty db) (item_sale db) t (item_identifications db)
    (item_custom_fields db) (stock_adjustments db) (locations db) (labels db) (item_labels db)
    (attachments db) (custom_field_defs db) (users db) (sessions db) (device_tokens db) (invites db)
    (mutations db) (conflicts db) (field_versions db) (import_sessions db).
Definition set_item_identifications t (db : DB) : DB :=
  mkDB (groups db) (items db) (item_warranty db) (item_sale db) (item_purchase db) t
    (item_custom_fields db) (stock_adjustments db) (locations db) (labels db) (item_labels db)
    (attachments db) (custom_field_defs db) (users db) (sessions db) (device_tokens db) (invites db)
    (mutations db) (conflicts db) (field_versions db) (import_sessions db).
Definition set_item_custom_fields t (db : DB) : DB :=
  mkDB (groups db) (items db) (item_warranty db) (item_sale db) (item_purchase db)
    (item_identifications db) t (stock_adjustments db) (locations db) (labels db) (item_labels db)
    (attachments db) (custom_field_defs db) (users db) (sessions db) (device_tokens db) (invites db)
    (mutations db) (conflicts db) (field_versions db) (import_sessions db).
Definition set_stock_adjustments t (db : DB) : DB :=
  mkDB (groups db) (items db) (item_warranty db) (item_sale db) (item_purchase db)
    (item_identifications db) (item_custom_fields db) t (locations db) (labels db) (item_labels db)
    (attachments db) (custom_field_defs db) (users db) (sessions db) (device_tokens db) (invites db)
    (mutations db) (conflicts db) (field_versions db) (import_sessions db).
Definition set_locations t (db : DB) : DB :=
  mkDB (groups db) (items db) (item_warranty db) (item_sale db) (item_purchase db)
    (item_identifications db) (item_custom_fields db) (stock_adjustments db) t (labels db)
    (item_labels db) (attachments db) (custom_field_defs db) (users db) (sessions db) (device_tokens db)
    (invites db) (mutations db) (conflicts db) (field_versions db) (import_sessions db).
Definition set_labels t (db : DB) : DB :=
  mkDB (groups db) (items db) (item_warranty db) (item_sale db) (item_purchase db)
    (item_identifications db) (item_custom_fields db) (stock_adjustments db) (locations db) t
    (item_labels db) (attachments db) (custom_field_defs db) (users db) (sessions db) (device_tokens db)
    (invites db) (mutations db) (conflicts db) (field_versions db) (import_sessions db).
Definition set_item_labels t (db : DB) : DB :=
  mkDB (groups db) (items db) (item_warranty db) (item_sale db) (item_purchase db)
    (item_identifications db) (item_custom_fields db) (stock_adjustments db) (locations db) (labels db) t
    (attachments db) (custom_field_defs db) (users db) (sessions db) (device_tokens db) (invites db)
    (mutations db) (conflicts db) (field_versions db) (import_sessions db).
Definition set_attachments t (db : DB) : DB :=
  mkDB (groups db) (items db) (item_warranty db) (item_sale db) (item_purchase db)
    (item_identifications db) (item_custom_fields db) (stock_adjustments db) (locations db) (labels db)
    (item_labels db) t (custom_field_defs db) (users db) (sessions db) (device_tokens db) (invites db)
    (mutations db) (conflicts db) (field_versions db) (import_sessions db).
Definition set_custom_field_defs t (db : DB) : DB :=
  mkDB (groups db) (items db) (item_warranty db) (item_sale db) (item_purchase db)
    (item_identifications db) (item_custom_fields db) (stock_adjustments db) (locations db) (labels db)
    (item_labels db) (attachments db) t (users db) (sessions db) (device_tokens db) (invites db)
    (mutations db) (conflicts db) (field_versions db) (import_sessions db).
Definition set_users t (db : DB) : DB :=
  mkDB (groups db) (items db) (item_warranty db) (item_sale db) (item_purchase db)
    (item_identifications db) (item_custom_fields db) (stock_adjustments db) (locations db) (labels db)
    (item_labels db) (attachments db) (custom_field_defs db) t (sessions db) (device_tokens db)
    (invites db) (mutations db) (conflicts db) (field_versions db) (import_sessions db).
Definition set_sessions t (db : DB) : DB :=
  mkDB (groups db) (items db) (item_warranty db) (item_sale db) (item_purchase db)
    (item_identifications db) (item_custom_fields db) (stock_adjustments db) (locations db) (labels db)
    (item_labels db) (attachments db) (custom_field_defs db) (users db) t (device_tokens db) (invites db)
    (mutations db) (conflicts db) (field_versions db) (import_sessions db).
Definition set_device_tokens t (db : DB) : DB :=
  mkDB (groups db) (items db) (item_warranty db) (item_sale db) (item_purchase db)
    (item_identifications db) (item_custom_fields db) (stock_adjustments db) (locations db) (labels db)
    (item_labels db) (attachments db) (custom_field_defs db) (users db) (sessions db) t (invites db)
    (mutations db) (conflicts db) (field_versions db) (import_sessions db).
Definition set_invites t (db : DB) : DB :=
  mkDB (groups db) (items db) (item_warranty db) (item_sale db) (item_purchase db)
    (item_identifications db) (item_custom_fields db) (stock_adjustments db) (locations db) (labels db)
    (item_labels db) (attachments db) (custom_field_defs db) (users db) (sessions db) (device_tokens db)
    t (mutations db) (conflicts db) (field_versions db) (import_sessions db).
Definition set_mutations t (db : DB) : DB :=
  mkDB (groups db) (items db) (item_warranty db) (item_sale db) (item_purchase db)
    (item_identifications db) (item_custom_fields db) (stock_adjustments db) (locations db) (labels db)
    (item_labels db) (attachments db) (custom_field_defs db) (users db) (sessions db) (device_tokens db)
    (invites db) t (conflicts db) (field_versions db) (import_sessions db).
Definition set_conflicts t (db : DB) : DB :=
  mkDB (groups db) (items db) (item_warranty db) (item_sale db) (item_purchase db)
    (item_identifications db) (item_custom_fields db) (stock_adjustments db) (locations db) (labels db)
    (item_labels db) (attachments db) (custom_field_defs db) (users db) (sessions db) (device_tokens db)
    (invites db) (mutations db) t (field_versions db) (import_sessions db).
Definition set_field_versions t (db : DB) : DB :=
  mkDB (groups db) (items db) (item_warranty db) (item_sale db) (item_purchase db)
    (item_identifications db) (item_custom_fields db) (stock_adjustments db) (locations db) (labels db)
    (item_labels db) (attachments db) (custom_field_defs db) (users db) (sessions db) (device_tokens db)
    (invites db) (mutations db) (conflicts db) t (import_sessions db).
Definition set_import_sessions t (db : DB) : DB :=
  mkDB (groups db) (items db) (item_warranty db) (item_sale db) (item_purchase db)
    (item_identifications db) (item_custom_fields db) (stock_adjustments db) (locations db) (labels db)
    (item_labels db) (attachments db) (custom_field_defs db) (users db) (sessions db) (device_tokens db)
    (invites db) (mutations db) (conflicts db) (field_versions db) t.

(** ** Tables and their constraints *)

(** What the statements below need to know of the table of payload [D].  A
    UNIQUE index is the key it gives to a row, [None] for a row outside a
    partial index. *)
Class Table (D : Type) := {
  tbl : DB -> gmap string (Row D);
  set_tbl : gmap string (Row D) -> DB -> DB;
  check_constraints : D -> bool;
  unique_indexes : list (Row D -> option (list string));
  foreign_keys : DB -> Row D -> bool;
}.

(** A parent row [(group_id, id)] is there; FOREIGN KEYs do not look at
    [deleted_at]. *)
Definition parent_exists {D} (t : gmap string (Row D)) (g id : string) : bool :=
  match t !! id with Some r => GroupID r =?s g | None => false end.

Definition nullable_parent_exists {D} (t : gmap string (Row D)) (g : string) (id : option string) : bool :=
  match id with None => true | Some id => parent_exists t g id end.

Definition group_exists (db : DB) (g : string) : bool :=
  match groups db !! g with Some _ => true | None => false end.

(** [UNIQUE (group_id, id)] *)
Definition ux_group_id {D} (r : Row D) : option (list string) := Some [GroupID r; ID r].

(** [UNIQUE (group_id, item_id) WHERE deleted_at IS NULL] *)
Definition ux_group_item_live {D} (item : D -> string) (r : Row D) : option (list string) :=
  if live r then Some [GroupID r; item (Cols r)] else None.

Definition bool01 (z : Z) : bool := (z =? 0)%Z || (z =? 1)%Z.

Definition identificationKinds : list string := ["serial"; "model"; "asset_tag"; "barcode"; "other"]%string.
Definition customFieldTypes : list string := ["text"; "number"; "boolean"; "date"]%string.
Definition attachmentCategories : list string := ["image"; "manual"; "warranty"; "receipt"; "general"]%string.

#[global] Instance items_table : Table ItemCols := {
  tbl := items; set_tbl := set_items;
  check_constraints _ := true;
  unique_indexes := [
    (fun r => match item_ExternalRef (Cols r) with Some x => Some [GroupID r; x] | None => None end);
    (fun r => if live r then Some [GroupID r; item_ShortCode (Cols r)] else None);
    ux_group_id ];
  foreign_keys db r :=
    group_exists db (GroupID r)
    && nullable_parent_exists (locations db) (GroupID r) (item_LocationID (Cols r)) }.

#[global] Instance warranty_table : Table WarrantyCols := {
  tbl := item_warranty; set_tbl := set_item_warranty;
  check_constraints w := bool01 (war_IsLifetime w);
  unique_indexes := [ux_group_item_live war_ItemID];
  foreign_keys db r :=
    group_exists db (GroupID r) && parent_exists (items db) (GroupID r) (war_ItemID (Cols r)) }.

#[global] Instance sale_table : Table SaleCols := {
  tbl := item_sale; set_tbl := set_item_sale;
  check_constraints _ := true;
  unique_indexes := [ux_group_item_live sale_ItemID];
  foreign_keys db r :=
    group_exists db (GroupID r) && parent_exists (items db) (GroupID r) (sale_ItemID (Cols r)) }.

#[global] Instance purchase_table : Table PurchaseCols := {
  tbl := item_purchase; set_tbl := set_item_purchase;
  check_constraints _ := true;
  unique_indexes := [ux_group_item_live pur_ItemID];
  foreign_keys db r :=
    group_exists db (GroupID r) && parent_exists (items db) (GroupID r) (pur_ItemID (Cols r)) }.

#[global] Instance identification_table : Table IdentificationCols := {
  tbl := item_identifications; set_tbl := set_item_identifications;
  check_constraints i := bool_decide (idn_Kind i ∈ identificationKinds);
  unique_indexes := [];
  foreign_keys db r :=
    group_exists db (GroupID r) && parent_exists (items db) (GroupID r) (idn_ItemID (Cols r)) }.

#[global] Instance custom_field_table : Table CustomFieldCols := {
  tbl := item_custom_fields; set_tbl := set_item_custom_fields;
  check_constraints c :=
    bool_decide (icf_FieldType c ∈ customFieldTypes)
    && match icf_BoolValue c with None => true | Some b => bool01 b end;
  unique_indexes := [];
  foreign_keys db r :=
    group_exists db (GroupID r) && parent_exists (items db) (GroupID r) (icf_ItemID (Cols r))
    && nullable_parent_exists (custom_field_defs db) (GroupID r) (icf_FieldDefID (Cols r)) }.

#[global] Instance stock_table : Table StockCols := {
  tbl := stock_adjustments; set_tbl := set_stock_adjustments;
  check_constraints _ := true;
  unique_indexes := [];
  foreign_keys db r :=
    group_exists db (GroupID r) && parent_exists (items db) (GroupID r) (stk_ItemID (Cols r)) }.

#[global] Instance location_table : Table LocationCols := {
  tbl := locations; set_tbl := set_locations;
  check_constraints _ := true;
  unique_indexes := [ux_group_id];
  foreign_keys db r :=
    group_exists db (GroupID r)
    && nullable_parent_exists (locations db) (GroupID r) (loc_ParentID (Cols r)) }.

#[global] Instance label_table : Table LabelCols := {
  tbl := labels; set_tbl := set_labels;
  check_constraints _ := true;
  unique_indexes := [ux_group_id];
  foreign_keys db r := group_exists db (GroupID r) }.

#[global] Instance item_label_table : Table ItemLabelCols := {
  tbl := item_labels; set_tbl := set_item_labels;
  check_constraints _ := true;
  unique_indexes := [
    (fun r => if live r then Some [GroupID r; il_ItemID (Cols r); il_LabelID (Cols r)] else None) ];
  foreign_keys db r :=
    group_exists db (GroupID r) && parent_exists (items db) (GroupID r) (il_ItemID (Cols r))
    && parent_exists (labels db) (GroupID r) (il_LabelID (Cols r)) }.

#[global] Instance attachment_table : Table AttachmentCols := {
  tbl := attachments; set_tbl := set_attachments;
  check_constraints a := bool_decide (att_Category a ∈ attachmentCategories);
  unique_indexes := [(fun r => Some [att_StoragePath (Cols r)])];
  foreign_keys db r :=
    group_exists db (GroupID r) && parent_exists (items db) (GroupID r) (att_ItemID (Cols r)) }.

#[global] Instance custom_field_def_table : Table CustomFieldDefCols := {
  tbl := custom_field_defs; set_tbl := set_custom_field_defs;
  check_constraints c := bool_decide (cfd_FieldType c ∈ customFieldTypes);
  unique_indexes := [ux_group_id];
  foreign_keys db r := group_exists db (GroupID r) }.

(** [username TEXT COLLATE NOCASE]: ASCII letters compare without case. *)
Definition nocase_byte (c : Ascii.ascii) : Ascii.ascii :=
  let n := Ascii.N_of_ascii c in
  if (65 <=? n)%N && (n <=? 90)%N then Ascii.ascii_of_N (n + 32) else c.

Fixpoint nocase (s : string) : string :=
  match s with
  | EmptyString => EmptyString
  | String c s => String (nocase_byte c) (nocase s)
  end.

(** The users' names and the token hashes are unique over all groups. *)
#[global] Instance user_table : Table UserCols := {
  tbl := users; set_tbl := set_users;
  check_constraints _ := true;
  unique_indexes := [ux_group_id; (fun r => Some [nocase (usr_Username (Cols r))])];
  foreign_keys db r := group_exists db (GroupID r) }.

#[global] Instance session_table : Table SessionCols := {
  tbl := sessions; set_tbl := set_sessions;
  check_constraints _ := true;
  unique_indexes := [(fun r => Some [ses_TokenHash (Cols r)])];
  foreign_keys db r :=
    group_exists db (GroupID r) && parent_exists (users db) (GroupID r) (ses_UserID (Cols r)) }.

#[global] Instance device_token_table : Table DeviceTokenCols := {
  tbl := device_tokens; set_tbl := set_device_tokens;
  check_constraints _ := true;
  unique_indexes := [(fun r => Some [dev_TokenHash (Cols r)])];
  foreign_keys db r :=
    group_exists db (GroupID r) && parent_exists (users db) (GroupID r) (dev_UserID (Cols r)) }.

#[global] Instance invite_table : Table InviteCols := {
  tbl := invites; set_tbl := set_invites;
  check_constraints _ := true;
  unique_indexes := [(fun r => Some [inv_TokenHash (Cols r)])];
  foreign_keys db r :=
    group_exists db (GroupID r) && parent_exists (users db) (GroupID r) (inv_CreatedByUserID (Cols r))
    && nullable_parent_exists (users db) (GroupID r) (inv_RedeemedByUserID (Cols r)) }.
