(* ===== verification/Sql.v ===== *)
(** * SQL statements and transactions

    SELECT, INSERT and UPDATE on the tables of [Schema], as SQLite runs them;
    the state a transaction works on; [db.Store.Tx] and [db.AllocChangeSeq]. *)

From S2P Require Import Prelude GoBase Schema.

(** ** The state

    The database, and the number of values drawn so far from the sources of
    fresh data ([uuid.NewV7] and [crypto/rand.Read]).  What those sources give
    is a parameter of the model. *)

Class Entropy := {
  uuid_NewV7 : nat -> option string;
  rand_Read : nat -> nat -> option (list Z);   (* draw number, length *)
}.

Record World := mkWorld { wdb : DB; draws : nat }.

Abbreviation M := (Prog World).

Definition put_db (db : DB) : M unit := fun w => (Ok tt, mkWorld db (draws w)).

Definition get_db : M DB := fun w => (Ok (wdb w), w).

Definition draw {A} (source : nat -> option A) : M (option A) :=
  fun w => (Ok (source (draws w)), mkWorld (wdb w) (S (draws w))).

(** ** Statements *)

Section statements.
Context {D : Type} `{Table D}.
Implicit Types (P : Row D -> bool) (t : gmap string (Row D)) (r : Row D).

Definition rows_of t : list (Row D) := (map_to_list t).*2.

(** The rows a WHERE clause selects.  SQLite gives no order to the result
    of a query without ORDER BY; the order here is the one of the map. *)
Definition where_ P t : list (Row D) := List.filter P (rows_of t).

(** A [:one] query: the first row, or [sql.ErrNoRows]. *)
Definition select_one P : M (Row D) :=
  fun w => match where_ P (tbl (wdb w)) with
           | r :: _ => (Ok r, w)
           | [] => (Err ErrNoRows, w)
           end.

(** A [:many] query. *)
Definition select_many P : M (list (Row D)) := fun w => (Ok (where_ P (tbl (wdb w))), w).

Definition select_count P : M Z := fun w => (Ok (Z.of_nat (length (where_ P (tbl (wdb w))))), w).

Definition opt_key_eqb (k1 k2 : option (list string)) : bool :=
  match k1, k2 with Some a, Some b => bool_decide (a = b) | _, _ => false end.

(** Some UNIQUE index has the key of [r] already among [others]. *)
Definition unique_clash (others : list (Row D)) r : bool :=
  existsb (fun ix => existsb (fun r' => opt_key_eqb (ix r) (ix r')) others) unique_indexes.

(** INSERT.  SQLite checks the CHECK constraints, then the UNIQUE indexes
    (the ones created after the table come before the automatic index of
    the primary key), then the primary key; FOREIGN KEYs at the end of the
    statement, when the new row is already there.  A statement that fails
    leaves no trace. *)
Definition insert_row r : M unit := fun w =>
  let db := wdb w in
  let t := tbl db in
  let db' := set_tbl (<[ID r := r]> t) db in
  if negb (check_constraints (Cols r)) then (Err (ErrSQLite SQLITE_CONSTRAINT_CHECK), w)
  else if unique_clash (rows_of t) r then (Err (ErrSQLite SQLITE_CONSTRAINT_UNIQUE), w)
  else if match t !! ID r with Some _ => true | None => false end
    then (Err (ErrSQLite SQLITE_CONSTRAINT_PRIMARYKEY), w)
  else if negb (foreign_keys db' r) then (Err (ErrSQLite SQLITE_CONSTRAINT_FOREIGNKEY), w)
  else (Ok tt, mkWorld db' (draws w)).

Definition update_where P (f : Row D -> Row D) t : gmap string (Row D) :=
  (fun r => if P r then f r else r) <$> t.

(** UPDATE, an [:execrows] query: the number of rows matched.  No statement
    of the server changes [id] or [group_id]. *)
Definition update_rows P (f : Row D -> Row D) : M Z := fun w =>
  let db := wdb w in
  let t := tbl db in
  let changed := f <$> where_ P t in
  let t' := update_where P f t in
  let db' := set_tbl t' db in
  let others r := List.filter (fun r' => negb (ID r' =?s ID r)) (rows_of t') in
  if existsb (fun r => negb (check_constraints (Cols r))) changed
    then (Err (ErrSQLite SQLITE_CONSTRAINT_CHECK), w)
  else if existsb (fun r => unique_clash (others r) r) changed
    then (Err (ErrSQLite SQLITE_CONSTRAINT_UNIQUE), w)
  else if existsb (fun r => negb (foreign_keys db' r)) changed
    then (Err (ErrSQLite SQLITE_CONSTRAINT_FOREIGNKEY), w)
  else (Ok (Z.of_nat (length changed)), mkWorld db' (draws w)).
End statements.

(** [isUniqueConstraintViolation] and [isForeignKeyConstraintViolation] *)
Definition isUniqueConstraintViolation (err : GoError) : bool :=
  match err with ErrSQLite SQLITE_CONSTRAINT_UNIQUE => true | _ => false end.

Definition isForeignKeyConstraintViolation (err : GoError) : bool :=
  match err with ErrSQLite SQLITE_CONSTRAINT_FOREIGNKEY => true | _ => false end.

Definition is_no_rows (err : GoError) : bool :=
  match err with ErrNoRows => true | _ => false end.

(** ORDER BY, for a clause whose keys are unique: the sorted list is then the
    only one.  [leb] compares the key columns; SQLite's BINARY collation and
    [String.leb] both compare bytes. *)
Definition order_by {A} (leb : A -> A -> bool) (l : list A) : list A := merge_sort leb l.

(** [ORDER BY a ASC, b ASC] on two text columns. *)
Definition asc2_leb (k1 k2 : string * string) : bool :=
  String.ltb k1.1 k2.1 || ((k1.1 =?s k2.1) && String.leb k1.2 k2.2).

(** ** Transactions *)

(** [Store.Tx]: the writes of [fn] are kept when it returns no error and
    rolled back when it does.  Drawn values are not given back. *)
Definition Tx {A} (fn : M A) : M A := fun w =>
  match fn w with
  | (Ok a, w') => (Ok a, w')
  | (Err e, w') => (Err e, mkWorld (wdb w) (draws w'))
  end.

Definition with_counter (G : Group) (n : Z) : Group :=
  mkGroup (grp_Name G) (grp_CurrencyCode G) (grp_RegistrationEnabled G) n
    (grp_CreatedAt G) (grp_UpdatedAt G) (grp_Version G) (grp_DeletedAt G) (grp_ChangeSeq G)
    (grp_WarrantyVisible G) (grp_SaleVisible G) (grp_PurchaseVisible G)
    (grp_TombstoneLowWatermark G).

(** [UPDATE groups SET change_seq_counter = change_seq_counter + 1
    WHERE id = ? RETURNING change_seq_counter] *)
Definition AllocChangeSeq (groupID : string) : M Z := fun w =>
  match groups (wdb w) !! groupID with
  | None => (Err ErrGroupNotFound, w)
  | Some G =>
      let seq := (grp_ChangeSeqCounter G + 1)%Z in
      (Ok seq, mkWorld (set_groups (<[groupID := with_counter G seq]> (groups (wdb w))) (wdb w)) (draws w))
  end.

(** [nullString]: the empty string is stored as NULL. *)
Definition nullString (s : string) : option string :=
  if s =?s "" then None else Some s.

(** [stringFromNull] *)
Definition stringFromNull (v : option string) : string :=
  match v with None => ""%string | Some s => s end.

(** [boolToInt] and [boolFromInt] *)
Definition boolToInt (b : bool) : Z := if b then 1 else 0.
Definition boolFromInt (v : Z) : bool := negb (v =? 0)%Z.

(** ** Facts about statements *)

Lemma order_by_Permutation {A} (leb : A -> A -> bool) l : order_by leb l ≡ₚ l.
Proof. apply merge_sort_Permutation. Qed.

Lemma elem_of_order_by {A} (leb : A -> A -> bool) l x : x ∈ order_by leb l <-> x ∈ l.
Proof. by rewrite order_by_Permutation. Qed.

Section facts.
Context {D : Type} `{Table D}.
Implicit Types (P : Row D -> bool) (t : gmap string (Row D)) (r : Row D).

Lemma elem_of_rows t r : r ∈ rows_of t <-> exists k, t !! k = Some r.
Proof.
  unfold rows_of. rewrite list_elem_of_fmap. split.
  - intros ([k r'] & -> & Hin). apply elem_of_map_to_list in Hin. eauto.
  - intros [k Hk]. exists (k, r). split; [done|]. by apply elem_of_map_to_list.
Qed.

Lemma elem_of_where P t r : r ∈ where_ P t <-> (exists k, t !! k = Some r) /\ P r = true.
Proof. unfold where_. rewrite elem_of_filter_bool, elem_of_rows. done. Qed.

(** A table stores every row under its id. *)
Definition keyed t : Prop := forall k r, t !! k = Some r -> ID r = k.

Lemma elem_of_where_keyed P t r :
  keyed t -> r ∈ where_ P t <-> t !! ID r = Some r /\ P r = true.
Proof.
  intros Hk. rewrite elem_of_where. split; [|naive_solver].
  intros [[k Hr] HP]. by rewrite (Hk k r Hr).
Qed.

Lemma NoDup_where_ids P t : keyed t -> NoDup (ID <$> where_ P t).
Proof.
  intros Hk.
  assert (Hids : ID <$> rows_of t = (map_to_list t).*1).
  { unfold rows_of. rewrite <- list_fmap_compose. apply list_fmap_ext; simpl.
    intros i [k r] Hi. apply list_elem_of_lookup_2, elem_of_map_to_list in Hi. simpl. by apply Hk. }
  assert (Hs : (ID <$> where_ P t) `sublist_of` (ID <$> rows_of t)).
  { clear Hids. unfold where_. induction (rows_of t) as [|r l IH]; simpl; [done|].
    destruct (P r); [by apply sublist_skip|by apply sublist_cons]. }
  eapply sublist_NoDup; [|exact Hs]. rewrite Hids. apply NoDup_fst_map_to_list.
Qed.

Lemma update_where_lookup P f t k :
  update_where P f t !! k = (fun r => if P r then f r else r) <$> t !! k.
Proof. unfold update_where. by rewrite lookup_fmap. Qed.

(** An UPDATE that selects one row changes that row. *)
Lemma update_where_one P f t k r :
  keyed t -> t !! k = Some r -> P r = true -> (forall r', P r' = true -> ID r' = ID r) ->
  update_where P f t = <[k := f r]> t.
Proof.
  intros Hk Hr HP Huniq. apply map_eq. intros k'. rewrite update_where_lookup.
  destruct (decide (k' = k)) as [->|Hne].
  - rewrite Hr, lookup_insert_eq. simpl. by rewrite HP.
  - rewrite lookup_insert_ne by done. destruct (t !! k') as [r'|] eqn:E; simpl; [|done].
    destruct (P r') eqn:HP'; [|done]. destruct Hne.
    rewrite <- (Hk _ _ E), <- (Hk _ _ Hr). auto.
Qed.

(** An UPDATE that reports one row, of those with the id [k]. *)
Lemma update_where_count_one P f t k :
  keyed t -> 1%Z = Z.of_nat (length (where_ P t)) -> (forall r, P r = true -> ID r = k) ->
  exists r, t !! k = Some r /\ P r = true /\ update_where P f t = <[k := f r]> t.
Proof.
  intros Hk Hn Hid. destruct (where_ P t) as [|r l] eqn:E; [done|].
  assert (Hin : r ∈ where_ P t) by (rewrite E; by left).
  apply elem_of_where in Hin as [[k' Hr] HP].
  assert (k' = k) as -> by (rewrite <- (Hk _ _ Hr); by apply Hid).
  exists r. split_and!; [done|done|]. apply update_where_one; try done.
  intros r' HP'. by rewrite !Hid.
Qed.

Lemma select_one_state P w : (select_one P w).2 = w.
Proof. unfold select_one. by destruct (where_ P _). Qed.

Lemma select_one_ok P w r w' :
  select_one P w = (Ok r, w') -> w' = w /\ P r = true /\ exists k, tbl (wdb w) !! k = Some r.
Proof.
  unfold select_one. destruct (where_ P _) as [|r' l] eqn:E; intros [= -> ->].
  assert (Hin : r ∈ where_ P (tbl (wdb w'))) by (rewrite E; set_solver).
  apply elem_of_where in Hin as [??]. done.
Qed.

Lemma select_one_err P w e w' :
  select_one P w = (Err e, w') ->
  w' = w /\ e = ErrNoRows /\ forall k r, tbl (wdb w) !! k = Some r -> P r = false.
Proof.
  unfold select_one. destruct (where_ P _) as [|r' l] eqn:E; intros [= <- <-].
  split_and!; [done..|]. intros k r Hk. destruct (P r) eqn:HP; [|done].
  assert (Hin : r ∈ where_ P (tbl (wdb w))) by (apply elem_of_where; eauto).
  rewrite E in Hin. set_solver.
Qed.

(** The query finds [r] when [r] satisfies it and it fixes the id. *)
Lemma select_one_hit P w k r :
  keyed (tbl (wdb w)) -> tbl (wdb w) !! k = Some r -> P r = true ->
  (forall r', P r' = true -> ID r' = ID r) ->
  select_one P w = (Ok r, w).
Proof.
  intros Hk Hr HP Huniq. destruct (select_one P w) as [[r'|e] w'] eqn:E.
  - apply select_one_ok in E as (-> & HP' & k' & Hr').
    assert (k' = k) as -> by (rewrite <- (Hk _ _ Hr'), <- (Hk _ _ Hr); by apply Huniq). congruence.
  - apply select_one_err in E as (_ & _ & Hno). rewrite (Hno k r Hr) in HP. done.
Qed.

(** ... and finds nothing when no row satisfies it. *)
Lemma select_one_miss P w :
  (forall k r, tbl (wdb w) !! k = Some r -> P r = false) -> select_one P w = (Err ErrNoRows, w).
Proof.
  intros Hno. destruct (select_one P w) as [[r'|e] w'] eqn:E.
  - apply select_one_ok in E as (-> & HP' & k' & Hr'). rewrite (Hno _ _ Hr') in HP'. done.
  - by apply select_one_err in E as (-> & -> & _).
Qed.
End facts.

(** ** Idioms of the repositories *)

(** [if c { return errors.New(msg) }] *)
Definition reject (c : bool) (msg : string) : res unit :=
  if c then Err (ErrMessage msg) else Ok tt.

(** [if errors.Is(err, sql.ErrNoRows) { return e }; if err != nil { return err }] *)
Definition no_rows_as {A} (e : GoError) (m : M A) : M A :=
  r ← try m;
  match r with
  | Err e' => throw (if is_no_rows e' then e else e')
  | Ok a => mret a
  end.

(** [if rows != 1 { return fmt.Errorf(...) }] *)
Definition want_one_row (rows : Z) (msg : string) : M unit :=
  if (rows =? 1)%Z then mret tt else throw (ErrMessage msg).

(** [if rows == 0 { return ErrNotFound }] *)
Definition some_rows (rows : Z) : M unit :=
  if (rows =? 0)%Z then throw ErrNotFound else mret tt.

(** [binding.writeTx] of a repository method with validated parameters. *)
Definition writeTx {A} (validate : res unit) (fn : M A) : M A :=
  lift validate ≫= fun _ => Tx fn.
