(* ===== verification/Evolution.v ===== *)
(** * How the database evolves under the writes of one group

    [Evo g c0 a b] is the promise every write path makes: going from [a] to
    [b], only group [g] was written to; its [change_seq] counter did not go
    back; no row was removed; and every row that was inserted or changed has a
    higher [version] and a [change_seq] above [c0].  It is a preorder, and the
    judgement [evo] lifts it to monadic code with one rule per construct, so
    that the proof for a handler follows the handler's text. *)

From S2P Require Import Prelude GoBase Schema Sql.

(** ** The relation *)

Section row_evo.
Context {D : Type}.
Implicit Types (r : Row D) (t : gmap string (Row D)).

Definition row_evo (g : string) (c0 c1 : Z) (k : string) (o o' : option (Row D)) : Prop :=
  match o, o' with
  | None, None => True
  | None, Some r' =>
      ID r' = k /\ GroupID r' = g /\ (1 <= Version r')%Z /\ (c0 < ChangeSeq r' <= c1)%Z
  | Some r, Some r' =>
      r' = r \/
      (GroupID r = g /\ ID r' = ID r /\ GroupID r' = GroupID r /\
       (Version r < Version r')%Z /\ (c0 < ChangeSeq r' <= c1)%Z)
  | Some _, None => False
  end.

Definition table_evo (g : string) (c0 c1 : Z) (t t' : gmap string (Row D)) : Prop :=
  forall k, row_evo g c0 c1 k (t !! k) (t' !! k).

Lemma table_evo_refl g c0 c1 t : table_evo g c0 c1 t t.
Proof. intros k. unfold row_evo. destruct (t !! k); auto. Qed.

Lemma table_evo_trans g c0 c1 c2 t1 t2 t3 :
  (c1 <= c2)%Z -> table_evo g c0 c1 t1 t2 -> table_evo g c0 c2 t2 t3 -> table_evo g c0 c2 t1 t3.
Proof.
  intros Hc H12 H23 k. specialize (H12 k). specialize (H23 k). unfold row_evo in *.
  destruct (t1 !! k) as [r1|], (t2 !! k) as [r2|], (t3 !! k) as [r3|]; try done.
  - destruct H12 as [->|(?&?&?&?&?)]; [done|].
    destruct H23 as [->|(?&?&?&?&?)]; [naive_solver lia|].
    right. split_and!; try done; try congruence; lia.
  - destruct H12 as (?&?&?&?). destruct H23 as [->|(?&?&?&?&?)]; [naive_solver lia|].
    split_and!; try congruence; lia.
Qed.

Lemma table_evo_insert g c0 c1 t r :
  t !! ID r = None -> GroupID r = g -> (1 <= Version r)%Z -> (c0 < ChangeSeq r <= c1)%Z ->
  table_evo g c0 c1 t (<[ID r := r]> t).
Proof.
  intros Hn Hg Hv Hs k. destruct (decide (k = ID r)) as [->|Hk].
  - rewrite Hn, lookup_insert_eq. simpl. auto.
  - rewrite lookup_insert_ne by done. apply table_evo_refl.
Qed.

(** An UPDATE that touches only rows of [g] and stamps them. *)
Definition good_update (g : string) (c0 c1 : Z) (P : Row D -> bool) (f : Row D -> Row D) : Prop :=
  forall r, P r = true ->
    GroupID r = g /\ ID (f r) = ID r /\ GroupID (f r) = GroupID r /\
    (Version r < Version (f r))%Z /\ (c0 < ChangeSeq (f r) <= c1)%Z.

Lemma table_evo_update g c0 c1 P f t :
  good_update g c0 c1 P f -> table_evo g c0 c1 t (update_where P f t).
Proof.
  intros Hf k. rewrite update_where_lookup. destruct (t !! k) as [r|]; simpl; [|done].
  destruct (P r) eqn:HP; [|auto]. right. by apply Hf.
Qed.
End row_evo.

Record Evo (g : string) (c0 : Z) (a b : DB) : Prop := mkEvo {
  evo_counter : (counter g a <= counter g b)%Z;
  evo_groups : forall h, h <> g -> groups b !! h = groups a !! h;
  evo_items : table_evo g c0 (counter g b) (items a) (items b);
  evo_warranty : table_evo g c0 (counter g b) (item_warranty a) (item_warranty b);
  evo_sale : table_evo g c0 (counter g b) (item_sale a) (item_sale b);
  evo_purchase : table_evo g c0 (counter g b) (item_purchase a) (item_purchase b);
  evo_identifications : table_evo g c0 (counter g b) (item_identifications a) (item_identifications b);
  evo_custom_fields : table_evo g c0 (counter g b) (item_custom_fields a) (item_custom_fields b);
  evo_stock : table_evo g c0 (counter g b) (stock_adjustments a) (stock_adjustments b);
  evo_locations : table_evo g c0 (counter g b) (locations a) (locations b);
  evo_labels : table_evo g c0 (counter g b) (labels a) (labels b);
  evo_item_labels : table_evo g c0 (counter g b) (item_labels a) (item_labels b);
  evo_attachments : table_evo g c0 (counter g b) (attachments a) (attachments b);
  evo_custom_field_defs : table_evo g c0 (counter g b) (custom_field_defs a) (custom_field_defs b);
  evo_users : table_evo g c0 (counter g b) (users a) (users b);
  evo_sessions : table_evo g c0 (counter g b) (sessions a) (sessions b);
  evo_device_tokens : table_evo g c0 (counter g b) (device_tokens a) (device_tokens b);
  evo_invites : table_evo g c0 (counter g b) (invites a) (invites b);
  evo_mutations : forall k, match mutations a !! k with
    | Some m => mutations b !! k = Some m
    | None => forall m, mutations b !! k = Some m -> mut_GroupID m = g
    end;
  evo_conflicts : forall k, match conflicts a !! k with
    | Some m => conflicts b !! k = Some m
    | None => forall m, conflicts b !! k = Some m -> con_GroupID m = g
    end;
  evo_field_versions : forall k, fvk_group k <> g -> field_versions b !! k = field_versions a !! k;
  evo_import_sessions : forall k s, imp_GroupID s <> g ->
    import_sessions b !! k = Some s <-> import_sessions a !! k = Some s;
}.

Lemma Evo_refl g c0 a : Evo g c0 a a.
Proof.
  split; auto using table_evo_refl; try lia.
  - intros k. destruct (mutations a !! k); naive_solver.
  - intros k. destruct (conflicts a !! k); naive_solver.
Qed.

Lemma Evo_trans g c0 a b c : Evo g c0 a b -> Evo g c0 b c -> Evo g c0 a c.
Proof.
  intros Hab Hbc. destruct Hab, Hbc.
  split; eauto 2 using table_evo_trans; try lia.
  - intros h Hh. rewrite <- evo_groups0 by done. auto.
  - intros k. specialize (evo_mutations0 k). specialize (evo_mutations1 k).
    destruct (mutations a !! k), (mutations b !! k); naive_solver.
  - intros k. specialize (evo_conflicts0 k). specialize (evo_conflicts1 k).
    destruct (conflicts a !! k), (conflicts b !! k); naive_solver.
  - intros k Hk. rewrite <- evo_field_versions0 by done. auto.
  - intros k s Hs. rewrite evo_import_sessions1, evo_import_sessions0 by done. done.
Qed.

#[global] Instance Evo_preorder g c0 : PreOrder (Evo g c0).
Proof. split; [intros a; apply Evo_refl | intros a b c; apply Evo_trans]. Qed.

(** ** Tables *)

(** What [Schema]'s tables owe to the proofs: [set_tbl] and [tbl] are a lens
    on one field of the database, and [Evo] speaks of that field. *)
Class TableLaws (D : Type) `{Table D} := {
  tbl_set_tbl t db : tbl (set_tbl t db) = t;
  groups_set_tbl t db : groups (set_tbl t db) = groups db;
  Evo_tbl g c0 a b : Evo g c0 a b -> table_evo g c0 (counter g b) (tbl a) (tbl b);
  Evo_set_tbl g c0 db t :
    table_evo g c0 (counter g db) (tbl db) t -> Evo g c0 db (set_tbl t db);
}.

Ltac solve_table_laws :=
  split;
  [ by intros ? [] | by intros ? [] | by intros ? ? ? ? []
  | let H := fresh in
    intros ? ? [] ? H; pose proof Evo_refl as Hr;
    split; simpl; try apply table_evo_refl; try apply H; try done; try (unfold counter; simpl; lia);
    intros k; repeat split_match; naive_solver ].

#[global] Instance items_laws : TableLaws ItemCols. Proof. solve_table_laws. Qed.
#[global] Instance warranty_laws : TableLaws WarrantyCols. Proof. solve_table_laws. Qed.
#[global] Instance sale_laws : TableLaws SaleCols. Proof. solve_table_laws. Qed.
#[global] Instance purchase_laws : TableLaws PurchaseCols. Proof. solve_table_laws. Qed.
#[global] Instance identification_laws : TableLaws IdentificationCols. Proof. solve_table_laws. Qed.
#[global] Instance custom_field_laws : TableLaws CustomFieldCols. Proof. solve_table_laws. Qed.
#[global] Instance stock_laws : TableLaws StockCols. Proof. solve_table_laws. Qed.
#[global] Instance location_laws : TableLaws LocationCols. Proof. solve_table_laws. Qed.
#[global] Instance label_laws : TableLaws LabelCols. Proof. solve_table_laws. Qed.
#[global] Instance item_label_laws : TableLaws ItemLabelCols. Proof. solve_table_laws. Qed.
#[global] Instance attachment_laws : TableLaws AttachmentCols. Proof. solve_table_laws. Qed.
#[global] Instance custom_field_def_laws : TableLaws CustomFieldDefCols. Proof. solve_table_laws. Qed.
#[global] Instance user_laws : TableLaws UserCols. Proof. solve_table_laws. Qed.
#[global] Instance session_laws : TableLaws SessionCols. Proof. solve_table_laws. Qed.
#[global] Instance device_token_laws : TableLaws DeviceTokenCols. Proof. solve_table_laws. Qed.
#[global] Instance invite_laws : TableLaws InviteCols. Proof. solve_table_laws. Qed.

(** ** The judgement for code *)

(** [m], started when the counter of [g] is at least [lb >= c0], evolves the
    database; [lb] is the last sequence number known to be allocated. *)
Definition evo (g : string) (c0 lb : Z) {A} (m : M A) : Prop :=
  forall w, (c0 <= lb)%Z -> (lb <= counter g (wdb w))%Z -> Evo g c0 (wdb w) (wdb (m w).2).

(** Code that does not write the database. *)
Definition readonly {A} (m : M A) : Prop := forall w, wdb (m w).2 = wdb w.

Section rules.
Context (g : string) (c0 lb : Z).
Context {A B : Type}.
Implicit Types (m : M A) (k : A -> M B).

Lemma evo_readonly m : readonly m -> evo g c0 lb m.
Proof. intros Hm w _ _. rewrite Hm. reflexivity. Qed.

Lemma evo_bind m k : evo g c0 lb m -> (forall a, evo g c0 lb (k a)) -> evo g c0 lb (m ≫= k).
Proof.
  intros Hm Hk w Hlb Hw. specialize (Hm w Hlb Hw). unfold mbind, prog_bind.
  destruct (m w) as [[a|e] w'] eqn:E; simpl in *; [|done].
  etrans; [exact Hm|]. apply Hk; [done|]. pose proof (evo_counter _ _ _ _ Hm). lia.
Qed.

Lemma evo_try m : evo g c0 lb m -> evo g c0 lb (try m).
Proof. intros Hm w ??. specialize (Hm w). unfold try. destruct (m w). auto. Qed.

Lemma readonly_bind m k : readonly m -> (forall a, readonly (k a)) -> readonly (m ≫= k).
Proof.
  intros Hm Hk w. specialize (Hm w). unfold mbind, prog_bind.
  destruct (m w) as [[a|e] w'] eqn:E; simpl in *; [|done]. by rewrite Hk.
Qed.

Lemma readonly_try m : readonly m -> readonly (try m).
Proof. intros Hm w. specialize (Hm w). unfold try. by destruct (m w). Qed.
End rules.

Section primitives.
Context (g : string) (c0 lb : Z).

Lemma readonly_ret {A} (a : A) : readonly (mret a). Proof. done. Qed.
Lemma readonly_throw {A} e : readonly (throw (A := A) e). Proof. done. Qed.
Lemma readonly_lift {A} (r : res A) : readonly (lift r). Proof. done. Qed.
Lemma readonly_get_db : readonly get_db. Proof. done. Qed.
Lemma readonly_draw {A} (f : nat -> option A) : readonly (draw f). Proof. done. Qed.

Context {D : Type} `{TableLaws D}.

Lemma readonly_select_one (P : Row D -> bool) : readonly (select_one P).
Proof. intros w. by rewrite select_one_state. Qed.
Lemma readonly_select_many (P : Row D -> bool) : readonly (select_many P). Proof. done. Qed.
Lemma readonly_select_count (P : Row D -> bool) : readonly (select_count P). Proof. done. Qed.

Lemma counter_set_tbl h (t : gmap string (Row D)) db : counter h (set_tbl t db) = counter h db.
Proof. unfold counter. by rewrite groups_set_tbl. Qed.

Lemma evo_insert_row (r : Row D) :
  GroupID r = g -> (1 <= Version r)%Z -> (c0 < ChangeSeq r <= lb)%Z -> evo g c0 lb (insert_row r).
Proof.
  intros Hg Hv Hs w _ Hw. unfold insert_row.
  repeat (split_match; simpl; try reflexivity).
  apply Evo_set_tbl, table_evo_insert; auto; lia.
Qed.

Lemma evo_update_rows (P : Row D -> bool) f :
  good_update g c0 lb P f -> evo g c0 lb (update_rows P f).
Proof.
  intros Hf w _ Hw. unfold update_rows.
  repeat (split_match; simpl; try reflexivity).
  apply Evo_set_tbl, table_evo_update. intros r Hr. specialize (Hf r Hr). naive_solver lia.
Qed.

Lemma evo_for_each {A} (l : list A) (f : A -> M unit) :
  (forall x, evo g c0 lb (f x)) -> evo g c0 lb (for_each l f).
Proof.
  intros Hf. induction l as [|x l IH]; simpl; [by apply evo_readonly|].
  apply evo_bind; auto.
Qed.

(** The rule for a fresh sequence number: the rest of the code may stamp
    rows with it. *)
Lemma evo_alloc_bind {A} (k : Z -> M A) :
  (forall seq, (c0 < seq)%Z -> (lb < seq)%Z -> evo g c0 seq (k seq)) ->
  evo g c0 lb (AllocChangeSeq g ≫= k).
Proof.
  intros Hk w Hlb Hw. unfold mbind, prog_bind, AllocChangeSeq.
  destruct (groups (wdb w) !! g) as [G|] eqn:EG; simpl; [|reflexivity].
  set (seq := (grp_ChangeSeqCounter G + 1)%Z).
  set (w' := mkWorld _ _).
  assert (Hc : counter g (wdb w) = (seq - 1)%Z) by (unfold counter; rewrite EG; lia).
  assert (Hc' : counter g (wdb w') = seq).
  { unfold counter, w'. simpl. destruct (wdb w); simpl. by rewrite lookup_insert_eq. }
  assert (HE : Evo g c0 (wdb w) (wdb w')).
  { unfold w'; simpl. clear -Hc Hc'. subst w'. simpl in Hc'.
    destruct (wdb w); simpl in *.
    split; simpl; try apply table_evo_refl; try done; [by unfold counter in *; simpl in *; lia|..].
    - intros h Hh. by rewrite lookup_insert_ne.
    - intros k; repeat split_match; naive_solver.
    - intros k; repeat split_match; naive_solver. }
  etrans; [exact HE|]. apply Hk; lia.
Qed.
End primitives.

Create HintDb evo discriminated.
#[export] Hint Resolve readonly_ret readonly_throw readonly_lift readonly_get_db readonly_draw
  readonly_select_one readonly_select_many readonly_select_count readonly_try : evo.

(** The side condition of an UPDATE: its WHERE clause tests the group. *)
Ltac solve_good_update :=
  let r := fresh "r" in
  let HP := fresh "HP" in
  intros r HP; simpl in *; bool_facts; subst; simpl; repeat split; (done || lia).

(** Walk through monadic code, one rule per construct. *)
Ltac evo_step :=
  match goal with
  | |- evo _ _ _ (AllocChangeSeq _ ≫= _) => apply evo_alloc_bind; intros ? ? ?
  | |- evo _ _ _ (_ ≫= _) => apply evo_bind; [|intros ?]
  | |- evo _ _ _ (match ?x with _ => _ end) => destruct x eqn:?
  | |- evo _ _ _ (let '_ := ?x in _) => destruct x eqn:?
  | |- evo _ _ _ (let x := _ in _) => cbv zeta
  | |- evo _ _ _ (insert_row _) => apply evo_insert_row; simpl; [apply _ | done | lia | lia]
  | |- evo _ _ _ (update_rows _ _) => apply evo_update_rows; [apply _ | solve_good_update]
  | |- evo _ _ _ (for_each _ _) => apply evo_for_each; intros ?
  | |- evo _ _ _ (try _) => apply evo_try
  | |- evo _ _ _ _ => solve [eauto with evo]
  | |- evo _ _ _ _ => apply evo_readonly; solve [eauto with evo]
  end.
Ltac solve_evo := repeat evo_step.

(** [Tx] around evolving code evolves the database from its own start. *)
Lemma evo_Tx g {A} (m : M A) w :
  (forall c, evo g c c m) -> Evo g (counter g (wdb w)) (wdb w) (wdb (Tx m w).2).
Proof.
  intros Hm. specialize (Hm _ w (Z.le_refl _) (Z.le_refl _)). unfold Tx.
  destruct (m w) as [[a|e] w']; simpl in *; [done|reflexivity].
Qed.

Lemma readonly_no_rows_as {A} e (m : M A) : readonly m -> readonly (no_rows_as e m).
Proof.
  intros Hm. unfold no_rows_as. apply readonly_bind; [by apply readonly_try|].
  intros []; eauto with evo.
Qed.

Lemma readonly_want_one_row rows msg : readonly (want_one_row rows msg).
Proof. unfold want_one_row. destruct (rows =? 1)%Z; eauto with evo. Qed.

Lemma readonly_some_rows rows : readonly (some_rows rows).
Proof. unfold some_rows. destruct (rows =? 0)%Z; eauto with evo. Qed.

#[export] Hint Resolve readonly_no_rows_as readonly_want_one_row readonly_some_rows : evo.

(** A repository method: one transaction of the group. *)
Definition method (g : string) {A} (m : M A) : Prop :=
  forall w, Evo g (counter g (wdb w)) (wdb w) (wdb (m w).2).

Lemma method_writeTx g {A} v (m : M A) : (forall c, evo g c c m) -> method g (writeTx v m).
Proof.
  intros Hm w. unfold writeTx, lift. destruct v; [|reflexivity].
  unfold mbind, prog_bind. by apply evo_Tx.
Qed.

Lemma method_Tx g {A} (m : M A) : (forall c, evo g c c m) -> method g (Tx m).
Proof. intros Hm w. by apply evo_Tx. Qed.

Ltac solve_method := intros; apply method_writeTx; intros ?; solve_evo.
