(* ===== verification/Queries.v ===== *)
(** * The queries of [internal/storage/internal/gen]

    One definition per SQL statement the modelled code runs (the text is in
    [queries/*.sql] and, compiled by sqlc, in [internal/gen/*.sql.go]): its
    WHERE clause as a boolean test on a row and its SET clause as a function
    on the row.  The parameters are those of the generated [...Params]
    struct; a [DeletedAt] parameter is always [now] and is not repeated. *)

From S2P Require Import Prelude GoBase Schema Sql Evolution.

(** ** items.sql *)

Definition GetItem (group item_id : string) : M Item :=
  select_one (fun r => (GroupID r =?s group) && (ID r =?s item_id) && live r).

Definition GetItemByShortCode (group short_code : string) : M Item :=
  select_one (fun r => (GroupID r =?s group) && (item_ShortCode (Cols r) =?s short_code) && live r).

Definition CreateItem (id group name description : string) (location_id : option string)
    (quantity : Z) (short_code : string) (now change_seq : Z) : M unit :=
  insert_row (newRow id group now change_seq
    (mkItem name description location_id quantity short_code None)).

Definition UpdateItem (name description : string) (location_id : option string) (quantity now change_seq : Z)
    (group item_id : string) (expected_version : Z) : M Z :=
  update_rows
    (fun r => (GroupID r =?s group) && (ID r =?s item_id) && (Version r =? expected_version)%Z && live r)
    (touch now change_seq (fun i =>
       mkItem name description location_id quantity (item_ShortCode i) (item_ExternalRef i))).

Definition DeleteItem (now change_seq : Z) (group item_id : string) : M Z :=
  update_rows (fun r : Item => (GroupID r =?s group) && (ID r =?s item_id) && live r)
    (tombstone now change_seq).

(** stock_adjustments.sql *)
Definition AdjustItemQuantity (quantity now change_seq : Z) (group item_id : string) : M Z :=
  update_rows (fun r => (GroupID r =?s group) && (ID r =?s item_id) && live r)
    (touch now change_seq (fun i =>
       mkItem (item_Name i) (item_Description i) (item_LocationID i) quantity
         (item_ShortCode i) (item_ExternalRef i))).

(** locations.sql *)
Definition in_location (location_id : string) (i : ItemCols) : bool :=
  match item_LocationID i with Some l => l =?s location_id | None => false end.

Definition CountLiveItemsInLocation (group location_id : string) : M Z :=
  select_count (fun r => (GroupID r =?s group) && in_location location_id (Cols r) && live r).

Definition MoveLiveItemsToLocation (new_location_id : option string) (now change_seq : Z)
    (group old_location_id : string) : M Z :=
  update_rows (fun r => (GroupID r =?s group) && in_location old_location_id (Cols r) && live r)
    (touch now change_seq (fun i =>
       mkItem (item_Name i) (item_Description i) new_location_id (item_Quantity i)
         (item_ShortCode i) (item_ExternalRef i))).

(** ** item_warranty.sql *)

Definition GetItemWarranty (group item_id : string) : M Warranty :=
  select_one (fun r => (GroupID r =?s group) && (war_ItemID (Cols r) =?s item_id) && live r).

Definition CreateItemWarranty (id group item_id holder provider : string)
    (starts_on expires_on : option string) (is_lifetime : Z) (notes : string) (now change_seq : Z) : M unit :=
  insert_row (newRow id group now change_seq
    (mkWarranty item_id holder provider starts_on expires_on is_lifetime notes)).

Definition UpdateItemWarranty (holder provider : string) (starts_on expires_on : option string)
    (is_lifetime : Z) (notes : string) (now change_seq : Z) (group item_id : string)
    (expected_version : Z) : M Z :=
  update_rows
    (fun r => (GroupID r =?s group) && (war_ItemID (Cols r) =?s item_id)
              && (Version r =? expected_version)%Z && live r)
    (touch now change_seq (fun w =>
       mkWarranty (war_ItemID w) holder provider starts_on expires_on is_lifetime notes)).

Definition DeleteItemWarranty (now change_seq : Z) (group item_id : string) : M Z :=
  update_rows (fun r => (GroupID r =?s group) && (war_ItemID (Cols r) =?s item_id) && live r)
    (tombstone now change_seq).

(** ** item_sale.sql *)

Definition GetItemSale (group item_id : string) : M Sale :=
  select_one (fun r => (GroupID r =?s group) && (sale_ItemID (Cols r) =?s item_id) && live r).

Definition CreateItemSale (id group item_id buyer_name : string) (sold_on : option string)
    (sale_price_minor : Z) (notes : string) (now change_seq : Z) : M unit :=
  insert_row (newRow id group now change_seq
    (mkSale item_id buyer_name sold_on sale_price_minor notes)).

Definition UpdateItemSale (buyer_name : string) (sold_on : option string) (sale_price_minor : Z)
    (notes : string) (now change_seq : Z) (group item_id : string) (expected_version : Z) : M Z :=
  update_rows
    (fun r => (GroupID r =?s group) && (sale_ItemID (Cols r) =?s item_id)
              && (Version r =? expected_version)%Z && live r)
    (touch now change_seq (fun s => mkSale (sale_ItemID s) buyer_name sold_on sale_price_minor notes)).

Definition DeleteItemSale (now change_seq : Z) (group item_id : string) : M Z :=
  update_rows (fun r => (GroupID r =?s group) && (sale_ItemID (Cols r) =?s item_id) && live r)
    (tombstone now change_seq).

(** ** item_purchase.sql *)

Definition GetItemPurchase (group item_id : string) : M Purchase :=
  select_one (fun r => (GroupID r =?s group) && (pur_ItemID (Cols r) =?s item_id) && live r).

Definition CreateItemPurchase (id group item_id vendor : string) (purchased_on : option string)
    (purchase_price_minor : Z) (order_reference notes : string) (now change_seq : Z) : M unit :=
  insert_row (newRow id group now change_seq
    (mkPurchase item_id vendor purchased_on purchase_price_minor order_reference notes)).

Definition UpdateItemPurchase (vendor : string) (purchased_on : option string) (purchase_price_minor : Z)
    (order_reference notes : string) (now change_seq : Z) (group item_id : string)
    (expected_version : Z) : M Z :=
  update_rows
    (fun r => (GroupID r =?s group) && (pur_ItemID (Cols r) =?s item_id)
              && (Version r =? expected_version)%Z && live r)
    (touch now change_seq (fun p =>
       mkPurchase (pur_ItemID p) vendor purchased_on purchase_price_minor order_reference notes)).

Definition DeleteItemPurchase (now change_seq : Z) (group item_id : string) : M Z :=
  update_rows (fun r => (GroupID r =?s group) && (pur_ItemID (Cols r) =?s item_id) && live r)
    (tombstone now change_seq).

(** ** item_identifications.sql *)

Definition GetItemIdentification (group item_id id : string) : M Identification :=
  select_one (fun r => (GroupID r =?s group) && (idn_ItemID (Cols r) =?s item_id)
                       && (ID r =?s id) && live r).

Definition CreateItemIdentification (id group item_id kind value : string) (now change_seq : Z) : M unit :=
  insert_row (newRow id group now change_seq (mkIdentification item_id kind value)).

Definition UpdateItemIdentification (kind value : string) (now change_seq : Z)
    (group item_id id : string) (expected_version : Z) : M Z :=
  update_rows
    (fun r => (GroupID r =?s group) && (idn_ItemID (Cols r) =?s item_id) && (ID r =?s id)
              && (Version r =? expected_version)%Z && live r)
    (touch now change_seq (fun i => mkIdentification (idn_ItemID i) kind value)).

Definition DeleteItemIdentification (now change_seq : Z) (group item_id id : string) : M Z :=
  update_rows (fun r => (GroupID r =?s group) && (idn_ItemID (Cols r) =?s item_id)
                        && (ID r =?s id) && live r)
    (tombstone now change_seq).

Definition CascadeDeleteItemIdentifications (now change_seq : Z) (group item_id : string) : M Z :=
  update_rows (fun r => (GroupID r =?s group) && (idn_ItemID (Cols r) =?s item_id) && live r)
    (tombstone now change_seq).

(** ** item_custom_fields.sql *)

(** SQLite has no NaN: one bound to a REAL column is stored as NULL. *)
Definition sqlite_real (x : option float64) : option float64 :=
  match x with Some SpecFloat.S754_nan => None | _ => x end.

Definition GetItemCustomField (group item_id id : string) : M ItemCustomField :=
  select_one (fun r => (GroupID r =?s group) && (icf_ItemID (Cols r) =?s item_id)
                       && (ID r =?s id) && live r).

Definition CreateItemCustomField (id group item_id : string) (field_def_id : option string)
    (name field_type : string) (text_value : option string) (number_value : option float64)
    (bool_value : option Z) (date_value : option string) (now change_seq : Z) : M unit :=
  insert_row (newRow id group now change_seq
    (mkCustomField item_id field_def_id name field_type text_value (sqlite_real number_value)
       bool_value date_value)).

Definition UpdateItemCustomField (field_def_id : option string) (name field_type : string)
    (text_value : option string) (number_value : option float64) (bool_value : option Z)
    (date_value : option string) (now change_seq : Z) (group item_id id : string)
    (expected_version : Z) : M Z :=
  update_rows
    (fun r => (GroupID r =?s group) && (icf_ItemID (Cols r) =?s item_id) && (ID r =?s id)
              && (Version r =? expected_version)%Z && live r)
    (touch now change_seq (fun c =>
       mkCustomField (icf_ItemID c) field_def_id name field_type text_value
         (sqlite_real number_value) bool_value date_value)).

Definition DeleteItemCustomField (now change_seq : Z) (group item_id id : string) : M Z :=
  update_rows (fun r => (GroupID r =?s group) && (icf_ItemID (Cols r) =?s item_id)
                        && (ID r =?s id) && live r)
    (tombstone now change_seq).

Definition CascadeDeleteItemCustomFields (now change_seq : Z) (group item_id : string) : M Z :=
  update_rows (fun r => (GroupID r =?s group) && (icf_ItemID (Cols r) =?s item_id) && live r)
    (tombstone now change_seq).

(** ** stock_adjustments.sql *)

Definition GetStockAdjustment (group item_id id : string) : M StockAdjustment :=
  select_one (fun r => (GroupID r =?s group) && (stk_ItemID (Cols r) =?s item_id)
                       && (ID r =?s id) && live r).

Definition CreateStockAdjustment (id group item_id : string) (delta : Z) (reason note : string)
    (resulting_quantity now change_seq : Z) : M unit :=
  insert_row (newRow id group now change_seq (mkStock item_id delta reason note resulting_quantity)).

(** ** locations.sql *)

Definition GetLocation (group location_id : string) : M Location :=
  select_one (fun r => (GroupID r =?s group) && (ID r =?s location_id) && live r).

Definition ListLocations (group : string) : M (list Location) :=
  rows ← select_many (fun r => (GroupID r =?s group) && live r);
  mret (order_by (fun a b => asc2_leb (loc_Name (Cols a), ID a) (loc_Name (Cols b), ID b)) rows).

(** [SELECT location_id, COUNT( * ) ... WHERE location_id IS NOT NULL GROUP BY location_id] *)
Definition CountLiveItemsPerLocation (group : string) : M (list (string * Z)) :=
  rows ← select_many (fun r : Item => (GroupID r =?s group) && live r);
  let ls := omap (fun r => item_LocationID (Cols r)) rows in
  mret ((fun l => (l, Z.of_nat (length (List.filter (String.eqb l) ls)))) <$> remove_dups ls).

Definition CreateLocation (id group name : string) (parent_id : option string) (now change_seq : Z) : M unit :=
  insert_row (newRow id group now change_seq (mkLocation name parent_id)).

Definition UpdateLocation (name : string) (parent_id : option string) (now change_seq : Z)
    (group location_id : string) (expected_version : Z) : M Z :=
  update_rows
    (fun r => (GroupID r =?s group) && (ID r =?s location_id)
              && (Version r =? expected_version)%Z && live r)
    (touch now change_seq (fun _ => mkLocation name parent_id)).

Definition DeleteLocation (now change_seq : Z) (group location_id : string) : M Z :=
  update_rows (fun r : Location => (GroupID r =?s group) && (ID r =?s location_id) && live r)
    (tombstone now change_seq).

(** All the rows of the group, live or not. *)
Definition ListLocationParentEdges (group : string) : M (list Location) :=
  select_many (fun r => GroupID r =?s group).

Definition child_of (parent_id : string) (l : LocationCols) : bool :=
  match loc_ParentID l with Some p => p =?s parent_id | None => false end.

Definition CountLiveChildLocations (group parent_id : string) : M Z :=
  select_count (fun r => (GroupID r =?s group) && child_of parent_id (Cols r) && live r).

Definition ReparentLiveChildren (new_parent_id : option string) (now change_seq : Z)
    (group old_parent_id : string) : M Z :=
  update_rows (fun r => (GroupID r =?s group) && child_of old_parent_id (Cols r) && live r)
    (touch now change_seq (fun l => mkLocation (loc_Name l) new_parent_id)).

(** ** labels.sql *)

Definition GetLabel (group id : string) : M Label :=
  select_one (fun r => (GroupID r =?s group) && (ID r =?s id) && live r).

Definition GetLabelByName (group name : string) : M Label :=
  select_one (fun r => (GroupID r =?s group) && (lbl_Name (Cols r) =?s name) && live r).

Definition ListLabels (group : string) : M (list Label) :=
  rows ← select_many (fun r => (GroupID r =?s group) && live r);
  mret (order_by (fun a b => asc2_leb (lbl_Name (Cols a), ID a) (lbl_Name (Cols b), ID b)) rows).

Definition CreateLabel (id group name color : string) (now change_seq : Z) : M unit :=
  insert_row (newRow id group now change_seq (mkLabel name color)).

Definition UpdateLabel (name color : string) (now change_seq : Z) (group id : string)
    (expected_version : Z) : M Z :=
  update_rows
    (fun r => (GroupID r =?s group) && (ID r =?s id) && (Version r =? expected_version)%Z && live r)
    (touch now change_seq (fun _ => mkLabel name color)).

Definition DeleteLabel (now change_seq : Z) (group id : string) : M Z :=
  update_rows (fun r : Label => (GroupID r =?s group) && (ID r =?s id) && live r)
    (tombstone now change_seq).

(** ** item_labels.sql *)

Definition edge (item_id label_id : string) (e : ItemLabelCols) : bool :=
  (il_ItemID e =?s item_id) && (il_LabelID e =?s label_id).

Definition GetItemLabel (group item_id label_id : string) : M ItemLabel :=
  select_one (fun r => (GroupID r =?s group) && edge item_id label_id (Cols r) && live r).

(** A JOIN: for every live edge of the item, the live labels with its label id. *)
Definition ListItemLabels (group item_id : string) : M (list Label) :=
  edges ← select_many (fun il => (GroupID il =?s group) && (il_ItemID (Cols il) =?s item_id) && live il);
  ls ← select_many (fun l : Label => (GroupID l =?s group) && live l);
  mret (order_by (fun a b => asc2_leb (lbl_Name (Cols a), ID a) (lbl_Name (Cols b), ID b))
    (edges ≫= fun il => List.filter (fun l => ID l =?s il_LabelID (Cols il)) ls)).

Definition ListItemIDsByLabel (group label_id : string) : M (list string) :=
  edges ← select_many (fun il => (GroupID il =?s group) && (il_LabelID (Cols il) =?s label_id) && live il);
  its ← select_many (fun i : Item => (GroupID i =?s group) && live i);
  mret (order_by String.leb
    (edges ≫= fun il => (fun _ => il_ItemID (Cols il)) <$> List.filter (fun i => ID i =?s il_ItemID (Cols il)) its)).

Definition CreateItemLabel (id group item_id label_id : string) (now change_seq : Z) : M unit :=
  insert_row (newRow id group now change_seq (mkItemLabel item_id label_id)).

Definition ReviveItemLabel (now change_seq : Z) (group item_id label_id : string) : M Z :=
  update_rows (fun r => (GroupID r =?s group) && edge item_id label_id (Cols r) && negb (live r))
    (revive now change_seq).

Definition DeleteItemLabel (now change_seq : Z) (group item_id label_id : string) : M Z :=
  update_rows (fun r => (GroupID r =?s group) && edge item_id label_id (Cols r) && live r)
    (tombstone now change_seq).

Definition CascadeDeleteItemLabels (now change_seq : Z) (group item_id : string) : M Z :=
  update_rows (fun r => (GroupID r =?s group) && (il_ItemID (Cols r) =?s item_id) && live r)
    (tombstone now change_seq).

(** ** attachments.sql *)

Definition GetAttachment (group item_id id : string) : M Attachment :=
  select_one (fun r => (GroupID r =?s group) && (att_ItemID (Cols r) =?s item_id)
                       && (ID r =?s id) && live r).

Definition CreateAttachment (id group item_id category original_filename content_type : string)
    (size_bytes : Z) (storage_path sha256 : string) (now change_seq : Z) : M unit :=
  insert_row (newRow id group now change_seq
    (mkAttachment item_id category original_filename content_type size_bytes storage_path None sha256)).

Definition set_thumbnail (path : option string) (a : AttachmentCols) : AttachmentCols :=
  mkAttachment (att_ItemID a) (att_Category a) (att_OriginalFilename a) (att_ContentType a)
    (att_SizeBytes a) (att_StoragePath a) path (att_Sha256 a).

Definition SetAttachmentThumbnailPath (thumbnail_path : string) (now change_seq : Z)
    (group item_id id : string) : M Z :=
  update_rows (fun r => (GroupID r =?s group) && (att_ItemID (Cols r) =?s item_id)
                        && (ID r =?s id) && live r)
    (touch now change_seq (set_thumbnail (Some thumbnail_path))).

Definition has_thumbnail (a : AttachmentCols) : bool :=
  match att_ThumbnailPath a with Some _ => true | None => false end.

Definition ClearAttachmentThumbnailPath (now change_seq : Z) (group item_id id : string) : M Z :=
  update_rows (fun r => (GroupID r =?s group) && (att_ItemID (Cols r) =?s item_id)
                        && (ID r =?s id) && live r && has_thumbnail (Cols r))
    (touch now change_seq (set_thumbnail None)).

Definition DeleteAttachment (now change_seq : Z) (group item_id id : string) : M Z :=
  update_rows (fun r => (GroupID r =?s group) && (att_ItemID (Cols r) =?s item_id)
                        && (ID r =?s id) && live r)
    (tombstone now change_seq).

(** ** custom_field_defs.sql *)

Definition GetCustomFieldDef (group id : string) : M CustomFieldDef :=
  select_one (fun r => (GroupID r =?s group) && (ID r =?s id) && live r).

Definition CreateCustomFieldDef (id group name field_type : string) (display_order now change_seq : Z) : M unit :=
  insert_row (newRow id group now change_seq (mkCustomFieldDef name field_type display_order)).

Definition UpdateCustomFieldDef (name field_type : string) (display_order now change_seq : Z)
    (group id : string) (expected_version : Z) : M Z :=
  update_rows
    (fun r => (GroupID r =?s group) && (ID r =?s id) && (Version r =? expected_version)%Z && live r)
    (touch now change_seq (fun _ => mkCustomFieldDef name field_type display_order)).

Definition DeleteCustomFieldDef (now change_seq : Z) (group id : string) : M Z :=
  update_rows (fun r : CustomFieldDef => (GroupID r =?s group) && (ID r =?s id) && live r)
    (tombstone now change_seq).

(** ** Every query runs inside its group

    A SELECT reads; an INSERT or UPDATE evolves the database when the sequence
    number it is given is allocated.  Each of the queries above is one of
    [select_one], [select_many], [select_count], [insert_row] and
    [update_rows], so its proof is the rule of that statement. *)

Ltac head_of t := lazymatch t with ?f _ => head_of f | _ => t end.

Ltac readonly_query :=
  match goal with
  | |- readonly ?m =>
      let h := head_of m in
      unfold h;
      first [apply readonly_select_one | apply readonly_select_many | apply readonly_select_count]
  end.

Ltac evo_query :=
  match goal with
  | |- evo _ _ _ ?m =>
      let h := head_of m in
      unfold h;
      first [ apply evo_insert_row; simpl; [apply _ | done | lia | lia]
            | apply evo_update_rows; [apply _ | solve_good_update] ]
  end.

Lemma readonly_ListLabels g : readonly (ListLabels g).
Proof. unfold ListLabels. apply readonly_bind; eauto with evo. Qed.
Lemma readonly_ListItemLabels g i : readonly (ListItemLabels g i).
Proof. unfold ListItemLabels. apply readonly_bind; [|intros; apply readonly_bind]; eauto with evo. Qed.
Lemma readonly_ListItemIDsByLabel g l : readonly (ListItemIDsByLabel g l).
Proof. unfold ListItemIDsByLabel. apply readonly_bind; [|intros; apply readonly_bind]; eauto with evo. Qed.
Lemma readonly_ListLocations g : readonly (ListLocations g).
Proof. unfold ListLocations. apply readonly_bind; eauto with evo. Qed.
Lemma readonly_CountLiveItemsPerLocation g : readonly (CountLiveItemsPerLocation g).
Proof. unfold CountLiveItemsPerLocation. apply readonly_bind; eauto with evo. Qed.
#[export] Hint Resolve readonly_ListLabels readonly_ListItemLabels readonly_ListItemIDsByLabel
  readonly_ListLocations readonly_CountLiveItemsPerLocation : evo.

#[export] Hint Extern 2 (readonly _) => solve [readonly_query] : evo.
#[export] Hint Extern 3 (evo _ _ _ _) => solve [evo_query] : evo.

(** The write queries of one table, as an interface to the repositories. *)
Lemma evo_item_queries g c0 lb seq now :
  (c0 < seq <= lb)%Z ->
  (forall id n d l q s, evo g c0 lb (CreateItem id g n d l q s now seq)) /\
  (forall n d l q i v, evo g c0 lb (UpdateItem n d l q now seq g i v)) /\
  (forall i, evo g c0 lb (DeleteItem now seq g i)) /\
  (forall q i, evo g c0 lb (AdjustItemQuantity q now seq g i)) /\
  (forall n o, evo g c0 lb (MoveLiveItemsToLocation n now seq g o)).
Proof. intros H. split_and!; intros; eauto with evo. Qed.
