(* ===== verification/PushRepo.v ===== *)
(** * The push tables: mutation ledger, conflict log, field versions

    [storage/push.go] and [storage/field_versions_record.go]: the ledger that
    makes a mutation apply once, the conflict rows, and the version at which
    each field of an entity last changed. *)

From S2P Require Import Prelude GoBase Schema Sql Evolution Queries.

(** ** Queries: mutations.sql, conflicts.sql, field_versions.sql *)

Definition is_mutation (group mutation_id : string) (m : Mutation) : bool :=
  (mut_GroupID m =?s group) && (mut_MutationID m =?s mutation_id).

Definition GetMutationByMutationID (group mutation_id : string) : M (string * Mutation) := fun w =>
  match List.filter (fun km => is_mutation group mutation_id km.2) (map_to_list (mutations (wdb w))) with
  | km :: _ => (Ok km, w)
  | [] => (Err ErrNoRows, w)
  end.

Definition outcomes : list string := ["applied"; "skipped_duplicate"; "conflict"]%string.

Definition CreateMutation (id group mutation_id entity_type entity_id : string) (now : Z)
    (outcome : string) : M unit := fun w =>
  let db := wdb w in
  let row := mkMutation group mutation_id entity_type entity_id now outcome now now in
  if negb (bool_decide (outcome ∈ outcomes)) then (Err (ErrSQLite SQLITE_CONSTRAINT_CHECK), w)
  else if existsb (fun km => is_mutation group mutation_id km.2
                             || ((mut_GroupID km.2 =?s group) && (km.1 =?s id)))
            (map_to_list (mutations db))
    then (Err (ErrSQLite SQLITE_CONSTRAINT_UNIQUE), w)
  else if match mutations db !! id with Some _ => true | None => false end
    then (Err (ErrSQLite SQLITE_CONSTRAINT_PRIMARYKEY), w)
  else if negb (group_exists db group) then (Err (ErrSQLite SQLITE_CONSTRAINT_FOREIGNKEY), w)
  else (Ok tt, mkWorld (set_mutations (<[id := row]> (mutations db)) db) (draws w)).

(** [FOREIGN KEY (group_id, mutation_id) REFERENCES mutations (group_id, id)] *)
Definition mutation_exists (db : DB) (group : string) (id : option string) : bool :=
  match id with
  | None => true
  | Some id => match mutations db !! id with Some m => mut_GroupID m =?s group | None => false end
  end.

Definition CreateConflict (id : string) (row : Conflict) : M unit := fun w =>
  let db := wdb w in
  if match conflicts db !! id with Some _ => true | None => false end
    then (Err (ErrSQLite SQLITE_CONSTRAINT_PRIMARYKEY), w)
  else if negb (group_exists db (con_GroupID row) && mutation_exists db (con_GroupID row) (con_MutationID row))
    then (Err (ErrSQLite SQLITE_CONSTRAINT_FOREIGNKEY), w)
  else (Ok tt, mkWorld (set_conflicts (<[id := row]> (conflicts db)) db) (draws w)).

(** [INSERT ... ON CONFLICT DO UPDATE SET version = excluded.version] *)
Definition UpsertFieldVersion (group entity_type entity_id field_name : string) (version now : Z) : M unit := fun w =>
  let db := wdb w in
  let key := mkFvKey group entity_type entity_id field_name in
  if negb (group_exists db group) then (Err (ErrSQLite SQLITE_CONSTRAINT_FOREIGNKEY), w)
  else (Ok tt, mkWorld (set_field_versions (<[key := mkFieldVersion version now]> (field_versions db)) db) (draws w)).

Definition ListFieldVersionsByEntity (group entity_type entity_id : string) : M (list (fvKey * FieldVersion)) := fun w =>
  (Ok (List.filter (fun kv => (fvk_group kv.1 =?s group) && (fvk_entityType kv.1 =?s entity_type)
                              && (fvk_entityID kv.1 =?s entity_id))
         (map_to_list (field_versions (wdb w)))), w).

(** ** push.go *)

Definition lookupMutationLedgerEntryTx (group mutationID : string) : M (string * Mutation) :=
  r ← try (GetMutationByMutationID group mutationID);
  match r with
  | Err e => throw (if is_no_rows e then ErrNotFound else e)
  | Ok row => mret row
  end.

Definition insertMutationLedgerEntryTx (group id mutationID entityType entityID outcome : string)
    (now : Z) : M (string * Mutation) :=
  r ← try (CreateMutation id group mutationID entityType entityID now outcome);
  match r with
  | Err e => throw (if isUniqueConstraintViolation e then ErrMutationAlreadyRecorded else e)
  | Ok _ => GetMutationByMutationID group mutationID
  end.

Definition lookupFieldVersionsTx (group entityType entityID : string) : M (list (fvKey * FieldVersion)) :=
  ListFieldVersionsByEntity group entityType entityID.

Definition upsertFieldVersionTx (group entityType entityID fieldName : string) (version now : Z) : M unit :=
  UpsertFieldVersion group entityType entityID fieldName version now.

(** The snapshot parameters are JSON texts; [""] becomes NULL. *)
Definition insertConflictTx (group id entityType entityID fieldName : string)
    (serverValueSnapshot losingClientValueSnapshot : option json) (detectedAt : Z)
    (mutationID : string) (now : Z) : M Conflict :=
  let row := mkConflict group entityType entityID fieldName serverValueSnapshot
               losingClientValueSnapshot detectedAt (nullString mutationID) now now in
  CreateConflict id row ≫= fun _ => mret row.

(** ** field_versions_record.go *)

Definition recordFieldVersionsTx (group entityType entityID : string) (version now : Z)
    (changedFields : list string) : M unit :=
  for_each changedFields (fun field =>
    upsertFieldVersionTx group entityType entityID field version now).

(** [if before.F != after.F { changed = append(changed, "f") }] *)
Definition diff {A} `{EqDecision A} (before after : A) (name : string) : list string :=
  if decide (before = after) then [] else [name].

(** [sql.NullFloat64] compared with [!=]: Go compares the floats, so NaN
    differs from NaN and [-0] equals [+0]. *)
Definition null_float_eqb (a b : option float64) : bool :=
  match a, b with
  | None, None => true
  | Some x, Some y => float64_eqb x y
  | _, _ => false
  end.

Definition diffItemFieldVersions (before after : ItemCols) : list string :=
  diff (item_Name before) (item_Name after) "name"
  ++ diff (item_Description before) (item_Description after) "description"
  ++ diff (item_LocationID before) (item_LocationID after) "location_id"
  ++ diff (item_Quantity before) (item_Quantity after) "quantity".

Definition diffWarrantyFieldVersions (before after : WarrantyCols) : list string :=
  diff (war_Holder before) (war_Holder after) "holder"
  ++ diff (war_Provider before) (war_Provider after) "provider"
  ++ diff (war_StartsOn before) (war_StartsOn after) "starts_on"
  ++ diff (war_ExpiresOn before) (war_ExpiresOn after) "expires_on"
  ++ diff (war_IsLifetime before) (war_IsLifetime after) "is_lifetime"
  ++ diff (war_Notes before) (war_Notes after) "notes".

Definition diffSaleFieldVersions (before after : SaleCols) : list string :=
  diff (sale_BuyerName before) (sale_BuyerName after) "buyer_name"
  ++ diff (sale_SoldOn before) (sale_SoldOn after) "sold_on"
  ++ diff (sale_PriceMinor before) (sale_PriceMinor after) "sale_price_minor"
  ++ diff (sale_Notes before) (sale_Notes after) "notes".

Definition diffPurchaseFieldVersions (before after : PurchaseCols) : list string :=
  diff (pur_Vendor before) (pur_Vendor after) "vendor"
  ++ diff (pur_PurchasedOn before) (pur_PurchasedOn after) "purchased_on"
  ++ diff (pur_PriceMinor before) (pur_PriceMinor after) "purchase_price_minor"
  ++ diff (pur_OrderReference before) (pur_OrderReference after) "order_reference"
  ++ diff (pur_Notes before) (pur_Notes after) "notes".

Definition diffIdentificationFieldVersions (before after : IdentificationCols) : list string :=
  diff (idn_Kind before) (idn_Kind after) "kind"
  ++ diff (idn_Value before) (idn_Value after) "value".

Definition diffItemCustomFieldFieldVersions (before after : CustomFieldCols) : list string :=
  diff (icf_FieldDefID before) (icf_FieldDefID after) "field_def_id"
  ++ diff (icf_Name before) (icf_Name after) "name"
  ++ diff (icf_FieldType before) (icf_FieldType after) "field_type"
  ++ diff (icf_TextValue before) (icf_TextValue after) "text_value"
  ++ (if null_float_eqb (icf_NumberValue before) (icf_NumberValue after) then [] else ["number_value"])
  ++ diff (icf_BoolValue before) (icf_BoolValue after) "bool_value"
  ++ diff (icf_DateValue before) (icf_DateValue after) "date_value".

Definition diffLocationFieldVersions (before after : LocationCols) : list string :=
  diff (loc_Name before) (loc_Name after) "name"
  ++ diff (loc_ParentID before) (loc_ParentID after) "parent_id".

Definition diffLabelFieldVersions (before after : LabelCols) : list string :=
  diff (lbl_Name before) (lbl_Name after) "name"
  ++ diff (lbl_Color before) (lbl_Color after) "color".

(** ** Evolution *)

Section evolution.
Context (g : string) (c0 lb : Z).

(** Writes to the three push tables leave the entity tables and the counters alone. *)
Ltac solve_push_table :=
  intros w Hlb Hw;
  repeat (split_match; simpl; try reflexivity);
  destruct w as [[] ?]; simpl in *;
  split; simpl; try apply table_evo_refl; try done; try (unfold counter; simpl; lia).

Lemma evo_CreateMutation id mid et eid now o : evo g c0 lb (CreateMutation id g mid et eid now o).
Proof.
  unfold CreateMutation. solve_push_table.
  - intros k. destruct (decide (k = id)) as [->|].
    + destruct (mutations !! id); [done|]. rewrite lookup_insert_eq. naive_solver.
    + rewrite lookup_insert_ne by done. destruct (mutations !! k); naive_solver.
  - intros k; split_match; naive_solver.
Qed.

Lemma evo_CreateConflict id row : con_GroupID row = g -> evo g c0 lb (CreateConflict id row).
Proof.
  intros Hg. unfold CreateConflict. solve_push_table.
  - intros k; split_match; naive_solver.
  - intros k. destruct (decide (k = id)) as [->|].
    + destruct (conflicts !! id); [done|]. rewrite lookup_insert_eq. naive_solver.
    + rewrite lookup_insert_ne by done. destruct (conflicts !! k); naive_solver.
Qed.

Lemma evo_UpsertFieldVersion et eid f v now : evo g c0 lb (UpsertFieldVersion g et eid f v now).
Proof.
  unfold UpsertFieldVersion. solve_push_table.
  - intros k; split_match; naive_solver.
  - intros k; split_match; naive_solver.
  - intros k Hk. rewrite lookup_insert_ne; [done|]. by intros <-.
Qed.
End evolution.

Lemma readonly_GetMutationByMutationID g mid : readonly (GetMutationByMutationID g mid).
Proof. intros w. unfold GetMutationByMutationID. by destruct (List.filter _ _). Qed.
Lemma readonly_ListFieldVersionsByEntity g et eid : readonly (ListFieldVersionsByEntity g et eid).
Proof. done. Qed.

#[export] Hint Resolve evo_CreateMutation evo_UpsertFieldVersion
  readonly_GetMutationByMutationID readonly_ListFieldVersionsByEntity : evo.

Lemma readonly_lookupMutationLedgerEntryTx g mid : readonly (lookupMutationLedgerEntryTx g mid).
Proof.
  unfold lookupMutationLedgerEntryTx.
  apply readonly_bind; [eauto with evo|]. intros [|]; eauto with evo.
Qed.

Lemma evo_insertMutationLedgerEntryTx g c0 lb id mid et eid o now :
  evo g c0 lb (insertMutationLedgerEntryTx g id mid et eid o now).
Proof. unfold insertMutationLedgerEntryTx. solve_evo. Qed.

Lemma evo_insertConflictTx g c0 lb id et eid f s l d mid now :
  evo g c0 lb (insertConflictTx g id et eid f s l d mid now).
Proof.
  unfold insertConflictTx. apply evo_bind; [by apply evo_CreateConflict|]. intros ?. solve_evo.
Qed.

Lemma readonly_lookupFieldVersionsTx g et eid : readonly (lookupFieldVersionsTx g et eid).
Proof. done. Qed.

Lemma evo_recordFieldVersionsTx g c0 lb et eid v now fs :
  evo g c0 lb (recordFieldVersionsTx g et eid v now fs).
Proof. unfold recordFieldVersionsTx, upsertFieldVersionTx. solve_evo. Qed.

#[export] Hint Resolve readonly_lookupMutationLedgerEntryTx evo_insertMutationLedgerEntryTx
  evo_insertConflictTx readonly_lookupFieldVersionsTx evo_recordFieldVersionsTx : evo.
