(* ===== verification/Items.v ===== *)
(** * Items and stock adjustments

    [storage/items.go] and [storage/stock_adjustments.go]. *)

From S2P Require Import Prelude GoBase Schema Sql Evolution Queries PushRepo.

(** ** Items *)

Record CreateItemParams := mkCreateItem {
  ci_ID : string; ci_Name : string; ci_Description : string; ci_LocationID : string;
  ci_Quantity : Z; ci_ShortCode : string; ci_Now : Z }.

Definition CreateItemParams_validate (p : CreateItemParams) : res unit :=
  reject (ci_ID p =?s "") "storage: CreateItemParams: ID is empty";;
  reject (ci_Name p =?s "") "storage: CreateItemParams: Name is empty";;
  reject (ci_ShortCode p =?s "") "storage: CreateItemParams: ShortCode is empty";;
  reject (ci_Now p <=? 0)%Z "storage: CreateItemParams: Now must be a positive Unix-millisecond timestamp".

Record UpdateItemParams := mkUpdateItem {
  ui_ItemID : string; ui_Name : string; ui_Description : string; ui_LocationID : string;
  ui_Quantity : Z; ui_ExpectedVersion : Z; ui_Now : Z }.

Definition UpdateItemParams_validate (p : UpdateItemParams) : res unit :=
  reject (ui_ItemID p =?s "") "storage: UpdateItemParams: ItemID is empty";;
  reject (ui_Name p =?s "") "storage: UpdateItemParams: Name is empty";;
  reject (ui_ExpectedVersion p <=? 0)%Z "storage: UpdateItemParams: ExpectedVersion must be positive";;
  reject (ui_Now p <=? 0)%Z "storage: UpdateItemParams: Now must be a positive Unix-millisecond timestamp".

Definition Items_Get (group itemID : string) : M Item :=
  no_rows_as ErrNotFound (GetItem group itemID).

Definition Items_GetByShortCode (group shortCode : string) : M Item :=
  no_rows_as ErrNotFound (GetItemByShortCode group shortCode).

Definition createItemTx (group : string) (p : CreateItemParams) : M Item :=
  seq ← AllocChangeSeq group;
  r ← try (CreateItem (ci_ID p) group (ci_Name p) (ci_Description p) (nullString (ci_LocationID p))
             (ci_Quantity p) (ci_ShortCode p) (ci_Now p) seq);
  match r with
  | Err e => throw (if isUniqueConstraintViolation e then ErrShortCodeTaken else e)
  | Ok _ => GetItem group (ci_ID p)
  end.

Definition Items_Create (group : string) (p : CreateItemParams) : M Item :=
  writeTx (CreateItemParams_validate p) (createItemTx group p).

Definition updateItemTx (group : string) (p : UpdateItemParams) : M Item :=
  current ← no_rows_as ErrNotFound (GetItem group (ui_ItemID p));
  if negb (Version current =? ui_ExpectedVersion p)%Z then throw ErrVersionMismatch else
  seq ← AllocChangeSeq group;
  rows ← UpdateItem (ui_Name p) (ui_Description p) (nullString (ui_LocationID p)) (ui_Quantity p)
           (ui_Now p) seq group (ui_ItemID p) (ui_ExpectedVersion p);
  want_one_row rows "storage: update item: matched rows, want 1";;
  GetItem group (ui_ItemID p).

Definition Items_Update (group : string) (p : UpdateItemParams) : M Item :=
  writeTx (UpdateItemParams_validate p) (
    before ← try (GetItem group (ui_ItemID p));
    row ← updateItemTx group p;
    match before with
    | Err e => throw e
    | Ok before =>
        recordFieldVersionsTx group "item" (ID row) (Version row) (ui_Now p)
          (diffItemFieldVersions (Cols before) (Cols row));;
        mret row
    end).

Definition Delete_validate (itemID : string) (now : Z) : res unit :=
  reject (itemID =?s "") "storage: Delete item: itemID is empty";;
  reject (now <=? 0)%Z "storage: Delete item: now must be a positive Unix-millisecond timestamp".

Definition Items_Delete (group itemID : string) (now : Z) : M unit :=
  writeTx (Delete_validate itemID now) (
    seq ← AllocChangeSeq group;
    rows ← DeleteItem now seq group itemID;
    some_rows rows;;
    want_one_row rows "storage: delete item: matched rows, want 1";;
    _ ← DeleteItemWarranty now seq group itemID;
    _ ← DeleteItemSale now seq group itemID;
    _ ← DeleteItemPurchase now seq group itemID;
    _ ← CascadeDeleteItemIdentifications now seq group itemID;
    _ ← CascadeDeleteItemCustomFields now seq group itemID;
    _ ← CascadeDeleteItemLabels now seq group itemID;
    mret tt).

(** ** Stock adjustments *)

Record CreateStockAdjustmentParams := mkCreateStock {
  csa_ID : string; csa_ItemID : string; csa_Delta : Z; csa_Reason : string; csa_Note : string; csa_Now : Z }.

Definition CreateStockAdjustmentParams_validate (p : CreateStockAdjustmentParams) : res unit :=
  reject (csa_ID p =?s "") "storage: CreateStockAdjustmentParams: ID is empty";;
  reject (csa_ItemID p =?s "") "storage: CreateStockAdjustmentParams: ItemID is empty";;
  reject (csa_Now p <=? 0)%Z "storage: CreateStockAdjustmentParams: Now must be a positive Unix-millisecond timestamp".

(** [resultingQuantity := item.Quantity + p.Delta] wraps around in [int64]. *)
Definition createStockAdjustmentTx (group : string) (p : CreateStockAdjustmentParams) : M StockAdjustment :=
  item ← no_rows_as ErrNotFound (GetItem group (csa_ItemID p));
  let resultingQuantity := wrap64 (item_Quantity (Cols item) + csa_Delta p) in
  seq ← AllocChangeSeq group;
  CreateStockAdjustment (csa_ID p) group (csa_ItemID p) (csa_Delta p) (csa_Reason p) (csa_Note p)
    resultingQuantity (csa_Now p) seq;;
  rows ← AdjustItemQuantity resultingQuantity (csa_Now p) seq group (csa_ItemID p);
  want_one_row rows "storage: apply stock adjustment: matched rows, want 1";;
  GetStockAdjustment group (csa_ItemID p) (csa_ID p).

Definition StockAdjustments_Create (group : string) (p : CreateStockAdjustmentParams) : M StockAdjustment :=
  writeTx (CreateStockAdjustmentParams_validate p) (
    before ← try (GetItem group (csa_ItemID p));
    row ← createStockAdjustmentTx group p;
    match before with
    | Err e => throw e
    | Ok before =>
        after ← GetItem group (csa_ItemID p);
        recordFieldVersionsTx group "item" (ID after) (Version after) (csa_Now p)
          (diffItemFieldVersions (Cols before) (Cols after));;
        mret row
    end).

(** ** Evolution *)

Lemma evo_createItemTx g c0 lb p : evo g c0 lb (createItemTx g p).
Proof. unfold createItemTx. solve_evo. Qed.
Lemma evo_updateItemTx g c0 lb p : evo g c0 lb (updateItemTx g p).
Proof. unfold updateItemTx. solve_evo. Qed.
Lemma evo_createStockAdjustmentTx g c0 lb p : evo g c0 lb (createStockAdjustmentTx g p).
Proof. unfold createStockAdjustmentTx. solve_evo. Qed.
#[export] Hint Resolve evo_createItemTx evo_updateItemTx evo_createStockAdjustmentTx : evo.

Lemma method_Items_Create g p : method g (Items_Create g p).
Proof. solve_method. Qed.
Lemma method_Items_Update g p : method g (Items_Update g p).
Proof. solve_method. Qed.
Lemma method_Items_Delete g i now : method g (Items_Delete g i now).
Proof. solve_method. Qed.
Lemma method_StockAdjustments_Create g p : method g (StockAdjustments_Create g p).
Proof. solve_method. Qed.
