(* ===== verification/Blocks.v ===== *)
(** * The one-per-item blocks: warranty, sale and purchase

    [storage/warranty.go], [storage/sale.go] and [storage/purchase.go]. *)

From S2P Require Import Prelude GoBase Schema Sql Evolution Queries PushRepo.

(** ** Warranty *)

Record CreateWarrantyParams := mkCreateWarrantyP {
  cw_ID : string; cw_ItemID : string; cw_Holder : string; cw_Provider : string; cw_StartsOn : string; cw_ExpiresOn : string; cw_IsLifetime : bool; cw_Notes : string; cw_Now : Z }.

Definition CreateWarrantyParams_validate (p : CreateWarrantyParams) : res unit :=
  reject (cw_ID p =?s "") "storage: CreateWarrantyParams: ID is empty";;
  reject (cw_ItemID p =?s "") "storage: CreateWarrantyParams: ItemID is empty";;
  reject (cw_Now p <=? 0)%Z "storage: CreateWarrantyParams: Now must be a positive Unix-millisecond timestamp".

Record UpdateWarrantyParams := mkUpdateWarrantyP {
  uw_ItemID : string; uw_Holder : string; uw_Provider : string; uw_StartsOn : string; uw_ExpiresOn : string; uw_IsLifetime : bool; uw_Notes : string; uw_ExpectedVersion : Z; uw_Now : Z }.

Definition UpdateWarrantyParams_validate (p : UpdateWarrantyParams) : res unit :=
  reject (uw_ItemID p =?s "") "storage: UpdateWarrantyParams: ItemID is empty";;
  reject (uw_ExpectedVersion p <=? 0)%Z "storage: UpdateWarrantyParams: ExpectedVersion must be positive";;
  reject (uw_Now p <=? 0)%Z "storage: UpdateWarrantyParams: Now must be a positive Unix-millisecond timestamp".

Definition Warranty_Get (group itemID : string) : M Warranty :=
  no_rows_as ErrNotFound (GetItemWarranty group itemID).

Definition createWarrantyTx (group : string) (p : CreateWarrantyParams) : M Warranty :=
  _ ← no_rows_as ErrNotFound (GetItem group (cw_ItemID p));
  existing ← try (GetItemWarranty group (cw_ItemID p));
  match existing with
  | Ok _ => throw ErrWarrantyExists
  | Err e => if is_no_rows e then mret tt else throw e
  end;;
  seq ← AllocChangeSeq group;
  r ← try (CreateItemWarranty (cw_ID p) group (cw_ItemID p) (cw_Holder p) (cw_Provider p) (nullString (cw_StartsOn p)) (nullString (cw_ExpiresOn p)) (boolToInt (cw_IsLifetime p)) (cw_Notes p) (cw_Now p) seq);
  match r with
  | Err e => throw (if isUniqueConstraintViolation e then ErrWarrantyExists else e)
  | Ok _ => GetItemWarranty group (cw_ItemID p)
  end.

Definition Warranty_Create (group : string) (p : CreateWarrantyParams) : M Warranty :=
  writeTx (CreateWarrantyParams_validate p) (createWarrantyTx group p).

Definition updateWarrantyTx (group : string) (p : UpdateWarrantyParams) : M Warranty :=
  current ← no_rows_as ErrNotFound (GetItemWarranty group (uw_ItemID p));
  if negb (Version current =? uw_ExpectedVersion p)%Z then throw ErrVersionMismatch else
  seq ← AllocChangeSeq group;
  rows ← UpdateItemWarranty (uw_Holder p) (uw_Provider p) (nullString (uw_StartsOn p)) (nullString (uw_ExpiresOn p)) (boolToInt (uw_IsLifetime p)) (uw_Notes p) (uw_Now p) seq group (uw_ItemID p) (uw_ExpectedVersion p);
  want_one_row rows "storage: update warranty: matched rows, want 1";;
  GetItemWarranty group (uw_ItemID p).

Definition Warranty_Update (group : string) (p : UpdateWarrantyParams) : M Warranty :=
  writeTx (UpdateWarrantyParams_validate p) (
    before ← try (GetItemWarranty group (uw_ItemID p));
    row ← updateWarrantyTx group p;
    match before with
    | Err e => throw e
    | Ok before =>
        recordFieldVersionsTx group "warranty_block" (ID row) (Version row) (uw_Now p)
          (diffWarrantyFieldVersions (Cols before) (Cols row));;
        mret row
    end).

Definition Warranty_Delete_validate (itemID : string) (now : Z) : res unit :=
  reject (itemID =?s "") "storage: Delete warranty: itemID is empty";;
  reject (now <=? 0)%Z "storage: Delete warranty: now must be a positive Unix-millisecond timestamp".

Definition Warranty_Delete (group itemID : string) (now : Z) : M unit :=
  writeTx (Warranty_Delete_validate itemID now) (
    seq ← AllocChangeSeq group;
    rows ← DeleteItemWarranty now seq group itemID;
    some_rows rows).

Lemma evo_createWarrantyTx g c0 lb p : evo g c0 lb (createWarrantyTx g p).
Proof. unfold createWarrantyTx. solve_evo. Qed.
Lemma evo_updateWarrantyTx g c0 lb p : evo g c0 lb (updateWarrantyTx g p).
Proof. unfold updateWarrantyTx. solve_evo. Qed.
#[export] Hint Resolve evo_createWarrantyTx evo_updateWarrantyTx : evo.

Lemma method_Warranty_Create g p : method g (Warranty_Create g p).
Proof. solve_method. Qed.
Lemma method_Warranty_Update g p : method g (Warranty_Update g p).
Proof. solve_method. Qed.
Lemma method_Warranty_Delete g i now : method g (Warranty_Delete g i now).
Proof. solve_method. Qed.

(** ** Sale *)

Record CreateSaleParams := mkCreateSaleP {
  cs_ID : string; cs_ItemID : string; cs_BuyerName : string; cs_SoldOn : string; cs_SalePriceMinor : Z; cs_Notes : string; cs_Now : Z }.

Definition CreateSaleParams_validate (p : CreateSaleParams) : res unit :=
  reject (cs_ID p =?s "") "storage: CreateSaleParams: ID is empty";;
  reject (cs_ItemID p =?s "") "storage: CreateSaleParams: ItemID is empty";;
  reject (cs_SalePriceMinor p <? 0)%Z "storage: CreateSaleParams: SalePriceMinor must not be negative";;
  reject (cs_Now p <=? 0)%Z "storage: CreateSaleParams: Now must be a positive Unix-millisecond timestamp".

Record UpdateSaleParams := mkUpdateSaleP {
  us_ItemID : string; us_BuyerName : string; us_SoldOn : string; us_SalePriceMinor : Z; us_Notes : string; us_ExpectedVersion : Z; us_Now : Z }.

Definition UpdateSaleParams_validate (p : UpdateSaleParams) : res unit :=
  reject (us_ItemID p =?s "") "storage: UpdateSaleParams: ItemID is empty";;
  reject (us_SalePriceMinor p <? 0)%Z "storage: UpdateSaleParams: SalePriceMinor must not be negative";;
  reject (us_ExpectedVersion p <=? 0)%Z "storage: UpdateSaleParams: ExpectedVersion must be positive";;
  reject (us_Now p <=? 0)%Z "storage: UpdateSaleParams: Now must be a positive Unix-millisecond timestamp".

Definition Sale_Get (group itemID : string) : M Sale :=
  no_rows_as ErrNotFound (GetItemSale group itemID).

Definition createSaleTx (group : string) (p : CreateSaleParams) : M Sale :=
  _ ← no_rows_as ErrNotFound (GetItem group (cs_ItemID p));
  existing ← try (GetItemSale group (cs_ItemID p));
  match existing with
  | Ok _ => throw ErrSaleExists
  | Err e => if is_no_rows e then mret tt else throw e
  end;;
  seq ← AllocChangeSeq group;
  r ← try (CreateItemSale (cs_ID p) group (cs_ItemID p) (cs_BuyerName p) (nullString (cs_SoldOn p)) (cs_SalePriceMinor p) (cs_Notes p) (cs_Now p) seq);
  match r with
  | Err e => throw (if isUniqueConstraintViolation e then ErrSaleExists else e)
  | Ok _ => GetItemSale group (cs_ItemID p)
  end.

Definition Sale_Create (group : string) (p : CreateSaleParams) : M Sale :=
  writeTx (CreateSaleParams_validate p) (createSaleTx group p).

Definition updateSaleTx (group : string) (p : UpdateSaleParams) : M Sale :=
  current ← no_rows_as ErrNotFound (GetItemSale group (us_ItemID p));
  if negb (Version current =? us_ExpectedVersion p)%Z then throw ErrVersionMismatch else
  seq ← AllocChangeSeq group;
  rows ← UpdateItemSale (us_BuyerName p) (nullString (us_SoldOn p)) (us_SalePriceMinor p) (us_Notes p) (us_Now p) seq group (us_ItemID p) (us_ExpectedVersion p);
  want_one_row rows "storage: update sale: matched rows, want 1";;
  GetItemSale group (us_ItemID p).

Definition Sale_Update (group : string) (p : UpdateSaleParams) : M Sale :=
  writeTx (UpdateSaleParams_validate p) (
    before ← try (GetItemSale group (us_ItemID p));
    row ← updateSaleTx group p;
    match before with
    | Err e => throw e
    | Ok before =>
        recordFieldVersionsTx group "sold_to_block" (ID row) (Version row) (us_Now p)
          (diffSaleFieldVersions (Cols before) (Cols row));;
        mret row
    end).

Definition Sale_Delete_validate (itemID : string) (now : Z) : res unit :=
  reject (itemID =?s "") "storage: Delete sale: itemID is empty";;
  reject (now <=? 0)%Z "storage: Delete sale: now must be a positive Unix-millisecond timestamp".

Definition Sale_Delete (group itemID : string) (now : Z) : M unit :=
  writeTx (Sale_Delete_validate itemID now) (
    seq ← AllocChangeSeq group;
    rows ← DeleteItemSale now seq group itemID;
    some_rows rows).

Lemma evo_createSaleTx g c0 lb p : evo g c0 lb (createSaleTx g p).
Proof. unfold createSaleTx. solve_evo. Qed.
Lemma evo_updateSaleTx g c0 lb p : evo g c0 lb (updateSaleTx g p).
Proof. unfold updateSaleTx. solve_evo. Qed.
#[export] Hint Resolve evo_createSaleTx evo_updateSaleTx : evo.

Lemma method_Sale_Create g p : method g (Sale_Create g p).
Proof. solve_method. Qed.
Lemma method_Sale_Update g p : method g (Sale_Update g p).
Proof. solve_method. Qed.
Lemma method_Sale_Delete g i now : method g (Sale_Delete g i now).
Proof. solve_method. Qed.

(** ** Purchase *)

Record CreatePurchaseParams := mkCreatePurchaseP {
  cp_ID : string; cp_ItemID : string; cp_Vendor : string; cp_PurchasedOn : string; cp_PurchasePriceMinor : Z; cp_OrderReference : string; cp_Notes : string; cp_Now : Z }.

Definition CreatePurchaseParams_validate (p : CreatePurchaseParams) : res unit :=
  reject (cp_ID p =?s "") "storage: CreatePurchaseParams: ID is empty";;
  reject (cp_ItemID p =?s "") "storage: CreatePurchaseParams: ItemID is empty";;
  reject (cp_PurchasePriceMinor p <? 0)%Z "storage: CreatePurchaseParams: PurchasePriceMinor must not be negative";;
  reject (cp_Now p <=? 0)%Z "storage: CreatePurchaseParams: Now must be a positive Unix-millisecond timestamp".

Record UpdatePurchaseParams := mkUpdatePurchaseP {
  up_ItemID : string; up_Vendor : string; up_PurchasedOn : string; up_PurchasePriceMinor : Z; up_OrderReference : string; up_Notes : string; up_ExpectedVersion : Z; up_Now : Z }.

Definition UpdatePurchaseParams_validate (p : UpdatePurchaseParams) : res unit :=
  reject (up_ItemID p =?s "") "storage: UpdatePurchaseParams: ItemID is empty";;
  reject (up_PurchasePriceMinor p <? 0)%Z "storage: UpdatePurchaseParams: PurchasePriceMinor must not be negative";;
  reject (up_ExpectedVersion p <=? 0)%Z "storage: UpdatePurchaseParams: ExpectedVersion must be positive";;
  reject (up_Now p <=? 0)%Z "storage: UpdatePurchaseParams: Now must be a positive Unix-millisecond timestamp".

Definition Purchase_Get (group itemID : string) : M Purchase :=
  no_rows_as ErrNotFound (GetItemPurchase group itemID).

Definition createPurchaseTx (group : string) (p : CreatePurchaseParams) : M Purchase :=
  _ ← no_rows_as ErrNotFound (GetItem group (cp_ItemID p));
  existing ← try (GetItemPurchase group (cp_ItemID p));
  match existing with
  | Ok _ => throw ErrPurchaseExists
  | Err e => if is_no_rows e then mret tt else throw e
  end;;
  seq ← AllocChangeSeq group;
  r ← try (CreateItemPurchase (cp_ID p) group (cp_ItemID p) (cp_Vendor p) (nullString (cp_PurchasedOn p)) (cp_PurchasePriceMinor p) (cp_OrderReference p) (cp_Notes p) (cp_Now p) seq);
  match r with
  | Err e => throw (if isUniqueConstraintViolation e then ErrPurchaseExists else e)
  | Ok _ => GetItemPurchase group (cp_ItemID p)
  end.

Definition Purchase_Create (group : string) (p : CreatePurchaseParams) : M Purchase :=
  writeTx (CreatePurchaseParams_validate p) (createPurchaseTx group p).

Definition updatePurchaseTx (group : string) (p : UpdatePurchaseParams) : M Purchase :=
  current ← no_rows_as ErrNotFound (GetItemPurchase group (up_ItemID p));
  if negb (Version current =? up_ExpectedVersion p)%Z then throw ErrVersionMismatch else
  seq ← AllocChangeSeq group;
  rows ← UpdateItemPurchase (up_Vendor p) (nullString (up_PurchasedOn p)) (up_PurchasePriceMinor p) (up_OrderReference p) (up_Notes p) (up_Now p) seq group (up_ItemID p) (up_ExpectedVersion p);
  want_one_row rows "storage: update purchase: matched rows, want 1";;
  GetItemPurchase group (up_ItemID p).

Definition Purchase_Update (group : string) (p : UpdatePurchaseParams) : M Purchase :=
  writeTx (UpdatePurchaseParams_validate p) (
    before ← try (GetItemPurchase group (up_ItemID p));
    row ← updatePurchaseTx group p;
    match before with
    | Err e => throw e
    | Ok before =>
        recordFieldVersionsTx group "purchased_from_block" (ID row) (Version row) (up_Now p)
          (diffPurchaseFieldVersions (Cols before) (Cols row));;
        mret row
    end).

Definition Purchase_Delete_validate (itemID : string) (now : Z) : res unit :=
  reject (itemID =?s "") "storage: Delete purchase: itemID is empty";;
  reject (now <=? 0)%Z "storage: Delete purchase: now must be a positive Unix-millisecond timestamp".

Definition Purchase_Delete (group itemID : string) (now : Z) : M unit :=
  writeTx (Purchase_Delete_validate itemID now) (
    seq ← AllocChangeSeq group;
    rows ← DeleteItemPurchase now seq group itemID;
    some_rows rows).

Lemma evo_createPurchaseTx g c0 lb p : evo g c0 lb (createPurchaseTx g p).
Proof. unfold createPurchaseTx. solve_evo. Qed.
Lemma evo_updatePurchaseTx g c0 lb p : evo g c0 lb (updatePurchaseTx g p).
Proof. unfold updatePurchaseTx. solve_evo. Qed.
#[export] Hint Resolve evo_createPurchaseTx evo_updatePurchaseTx : evo.

Lemma method_Purchase_Create g p : method g (Purchase_Create g p).
Proof. solve_method. Qed.
Lemma method_Purchase_Update g p : method g (Purchase_Update g p).
Proof. solve_method. Qed.
Lemma method_Purchase_Delete g i now : method g (Purchase_Delete g i now).
Proof. solve_method. Qed.
