(* ===== verification/Details.v ===== *)
(** * Identifications, custom fields, attachments and field definitions

    [storage/item_identifications.go], [storage/item_custom_fields.go],
    [storage/attachments.go] (the rows; the files are not modelled) and
    [storage/custom_field_defs.go]. *)

From S2P Require Import Prelude GoBase Schema Sql Evolution Queries PushRepo.

(** ** Identifications *)

Record CreateIdentificationParams := mkCreateIdentification {
  cid_ID : string; cid_ItemID : string; cid_Kind : string; cid_Value : string; cid_Now : Z }.

Definition CreateIdentificationParams_validate (p : CreateIdentificationParams) : res unit :=
  reject (cid_ID p =?s "") "storage: CreateIdentificationParams: ID is empty";;
  reject (cid_ItemID p =?s "") "storage: CreateIdentificationParams: ItemID is empty";;
  reject (cid_Kind p =?s "") "storage: CreateIdentificationParams: Kind is empty";;
  reject (cid_Value p =?s "") "storage: CreateIdentificationParams: Value is empty";;
  reject (cid_Now p <=? 0)%Z "storage: CreateIdentificationParams: Now must be a positive Unix-millisecond timestamp".

Record UpdateIdentificationParams := mkUpdateIdentification {
  uid_ItemID : string; uid_ID : string; uid_Kind : string; uid_Value : string;
  uid_ExpectedVersion : Z; uid_Now : Z }.

Definition UpdateIdentificationParams_validate (p : UpdateIdentificationParams) : res unit :=
  reject (uid_ItemID p =?s "") "storage: UpdateIdentificationParams: ItemID is empty";;
  reject (uid_ID p =?s "") "storage: UpdateIdentificationParams: ID is empty";;
  reject (uid_Kind p =?s "") "storage: UpdateIdentificationParams: Kind is empty";;
  reject (uid_Value p =?s "") "storage: UpdateIdentificationParams: Value is empty";;
  reject (uid_ExpectedVersion p <=? 0)%Z "storage: UpdateIdentificationParams: ExpectedVersion must be positive";;
  reject (uid_Now p <=? 0)%Z "storage: UpdateIdentificationParams: Now must be a positive Unix-millisecond timestamp".

Definition createIdentificationTx (group : string) (p : CreateIdentificationParams) : M Identification :=
  _ ← no_rows_as ErrNotFound (GetItem group (cid_ItemID p));
  seq ← AllocChangeSeq group;
  CreateItemIdentification (cid_ID p) group (cid_ItemID p) (cid_Kind p) (cid_Value p) (cid_Now p) seq;;
  GetItemIdentification group (cid_ItemID p) (cid_ID p).

Definition Identifications_Create (group : string) (p : CreateIdentificationParams) : M Identification :=
  writeTx (CreateIdentificationParams_validate p) (createIdentificationTx group p).

Definition updateIdentificationTx (group : string) (p : UpdateIdentificationParams) : M Identification :=
  current ← no_rows_as ErrNotFound (GetItemIdentification group (uid_ItemID p) (uid_ID p));
  if negb (Version current =? uid_ExpectedVersion p)%Z then throw ErrVersionMismatch else
  seq ← AllocChangeSeq group;
  rows ← UpdateItemIdentification (uid_Kind p) (uid_Value p) (uid_Now p) seq group
           (uid_ItemID p) (uid_ID p) (uid_ExpectedVersion p);
  want_one_row rows "storage: update identification: matched rows, want 1";;
  GetItemIdentification group (uid_ItemID p) (uid_ID p).

Definition Identifications_Update (group : string) (p : UpdateIdentificationParams) : M Identification :=
  writeTx (UpdateIdentificationParams_validate p) (
    before ← try (GetItemIdentification group (uid_ItemID p) (uid_ID p));
    row ← updateIdentificationTx group p;
    match before with
    | Err e => throw e
    | Ok before =>
        recordFieldVersionsTx group "item_identification" (ID row) (Version row) (uid_Now p)
          (diffIdentificationFieldVersions (Cols before) (Cols row));;
        mret row
    end).

(** [itemID == ""], [id == ""], [now <= 0] *)
Definition item_part_validate (what itemID id : string) (now : Z) : res unit :=
  reject (itemID =?s "") (what +:+ ": itemID is empty");;
  reject (id =?s "") (what +:+ ": id is empty");;
  reject (now <=? 0)%Z (what +:+ ": now must be a positive Unix-millisecond timestamp").

Definition Identifications_Delete (group itemID id : string) (now : Z) : M unit :=
  writeTx (item_part_validate "storage: Delete identification" itemID id now) (
    seq ← AllocChangeSeq group;
    rows ← DeleteItemIdentification now seq group itemID id;
    some_rows rows).

(** ** Custom fields of an item *)

Record CreateItemCustomFieldParams := mkCreateItemCustomField {
  ccf_ID : string; ccf_ItemID : string; ccf_FieldDefID : string; ccf_Name : string;
  ccf_FieldType : string; ccf_TextValue : option string; ccf_NumberValue : option float64;
  ccf_BoolValue : option bool; ccf_DateValue : option string; ccf_Now : Z }.

Definition CreateItemCustomFieldParams_validate (p : CreateItemCustomFieldParams) : res unit :=
  reject (ccf_ID p =?s "") "storage: CreateItemCustomFieldParams: ID is empty";;
  reject (ccf_ItemID p =?s "") "storage: CreateItemCustomFieldParams: ItemID is empty";;
  reject (ccf_Name p =?s "") "storage: CreateItemCustomFieldParams: Name is empty";;
  reject (ccf_FieldType p =?s "") "storage: CreateItemCustomFieldParams: FieldType is empty";;
  reject (ccf_Now p <=? 0)%Z "storage: CreateItemCustomFieldParams: Now must be a positive Unix-millisecond timestamp".

Record UpdateItemCustomFieldParams := mkUpdateItemCustomField {
  ucf_ItemID : string; ucf_ID : string; ucf_FieldDefID : string; ucf_Name : string;
  ucf_FieldType : string; ucf_TextValue : option string; ucf_NumberValue : option float64;
  ucf_BoolValue : option bool; ucf_DateValue : option string;
  ucf_ExpectedVersion : Z; ucf_Now : Z }.

Definition UpdateItemCustomFieldParams_validate (p : UpdateItemCustomFieldParams) : res unit :=
  reject (ucf_ItemID p =?s "") "storage: UpdateItemCustomFieldParams: ItemID is empty";;
  reject (ucf_ID p =?s "") "storage: UpdateItemCustomFieldParams: ID is empty";;
  reject (ucf_Name p =?s "") "storage: UpdateItemCustomFieldParams: Name is empty";;
  reject (ucf_FieldType p =?s "") "storage: UpdateItemCustomFieldParams: FieldType is empty";;
  reject (ucf_ExpectedVersion p <=? 0)%Z "storage: UpdateItemCustomFieldParams: ExpectedVersion must be positive";;
  reject (ucf_Now p <=? 0)%Z "storage: UpdateItemCustomFieldParams: Now must be a positive Unix-millisecond timestamp".

(** [nullStringPtr] and [nullFloat64Ptr] keep a pointer's value as it is. *)
Definition nullBoolPtr (b : option bool) : option Z := boolToInt <$> b.

Definition createItemCustomFieldTx (group : string) (p : CreateItemCustomFieldParams) : M ItemCustomField :=
  _ ← no_rows_as ErrNotFound (GetItem group (ccf_ItemID p));
  seq ← AllocChangeSeq group;
  CreateItemCustomField (ccf_ID p) group (ccf_ItemID p) (nullString (ccf_FieldDefID p)) (ccf_Name p)
    (ccf_FieldType p) (ccf_TextValue p) (ccf_NumberValue p) (nullBoolPtr (ccf_BoolValue p))
    (ccf_DateValue p) (ccf_Now p) seq;;
  GetItemCustomField group (ccf_ItemID p) (ccf_ID p).

Definition ItemCustomFields_Create (group : string) (p : CreateItemCustomFieldParams) : M ItemCustomField :=
  writeTx (CreateItemCustomFieldParams_validate p) (createItemCustomFieldTx group p).

Definition updateItemCustomFieldTx (group : string) (p : UpdateItemCustomFieldParams) : M ItemCustomField :=
  current ← no_rows_as ErrNotFound (GetItemCustomField group (ucf_ItemID p) (ucf_ID p));
  if negb (Version current =? ucf_ExpectedVersion p)%Z then throw ErrVersionMismatch else
  seq ← AllocChangeSeq group;
  rows ← UpdateItemCustomField (nullString (ucf_FieldDefID p)) (ucf_Name p) (ucf_FieldType p)
           (ucf_TextValue p) (ucf_NumberValue p) (nullBoolPtr (ucf_BoolValue p)) (ucf_DateValue p)
           (ucf_Now p) seq group (ucf_ItemID p) (ucf_ID p) (ucf_ExpectedVersion p);
  want_one_row rows "storage: update custom field: matched rows, want 1";;
  GetItemCustomField group (ucf_ItemID p) (ucf_ID p).

Definition ItemCustomFields_Update (group : string) (p : UpdateItemCustomFieldParams) : M ItemCustomField :=
  writeTx (UpdateItemCustomFieldParams_validate p) (
    before ← try (GetItemCustomField group (ucf_ItemID p) (ucf_ID p));
    row ← updateItemCustomFieldTx group p;
    match before with
    | Err e => throw e
    | Ok before =>
        recordFieldVersionsTx group "item_custom_field" (ID row) (Version row) (ucf_Now p)
          (diffItemCustomFieldFieldVersions (Cols before) (Cols row));;
        mret row
    end).

Definition ItemCustomFields_Delete (group itemID id : string) (now : Z) : M unit :=
  writeTx (item_part_validate "storage: Delete custom field" itemID id now) (
    seq ← AllocChangeSeq group;
    rows ← DeleteItemCustomField now seq group itemID id;
    some_rows rows).

(** ** Attachments *)

Record CreateAttachmentParams := mkCreateAttachment {
  ca_ID : string; ca_ItemID : string; ca_Category : string; ca_OriginalFilename : string;
  ca_ContentType : string; ca_SizeBytes : Z; ca_StoragePath : string; ca_SHA256 : string; ca_Now : Z }.

Definition CreateAttachmentParams_validate (p : CreateAttachmentParams) : res unit :=
  reject (ca_ID p =?s "") "storage: CreateAttachmentParams: ID is empty";;
  reject (ca_ItemID p =?s "") "storage: CreateAttachmentParams: ItemID is empty";;
  reject (ca_OriginalFilename p =?s "") "storage: CreateAttachmentParams: OriginalFilename is empty";;
  reject (ca_ContentType p =?s "") "storage: CreateAttachmentParams: ContentType is empty";;
  reject (ca_StoragePath p =?s "") "storage: CreateAttachmentParams: StoragePath is empty";;
  reject (ca_SHA256 p =?s "") "storage: CreateAttachmentParams: SHA256 is empty";;
  reject (ca_SizeBytes p <? 0)%Z "storage: CreateAttachmentParams: SizeBytes is negative";;
  reject (ca_Now p <=? 0)%Z "storage: CreateAttachmentParams: Now must be a positive Unix-millisecond timestamp";;
  reject (negb (bool_decide (ca_Category p ∈ attachmentCategories)))
    "storage: category must be one of image, manual, warranty, receipt, general".

Definition Attachments_Create (group : string) (p : CreateAttachmentParams) : M Attachment :=
  writeTx (CreateAttachmentParams_validate p) (
    _ ← no_rows_as ErrNotFound (GetItem group (ca_ItemID p));
    seq ← AllocChangeSeq group;
    CreateAttachment (ca_ID p) group (ca_ItemID p) (ca_Category p) (ca_OriginalFilename p)
      (ca_ContentType p) (ca_SizeBytes p) (ca_StoragePath p) (ca_SHA256 p) (ca_Now p) seq;;
    GetAttachment group (ca_ItemID p) (ca_ID p)).

Definition SetThumbnailPath_validate (itemID id thumbnailPath : string) (now : Z) : res unit :=
  reject (itemID =?s "") "storage: SetThumbnailPath: itemID is empty";;
  reject (id =?s "") "storage: SetThumbnailPath: id is empty";;
  reject (thumbnailPath =?s "") "storage: SetThumbnailPath: thumbnailPath is empty";;
  reject (now <=? 0)%Z "storage: SetThumbnailPath: now must be a positive Unix-millisecond timestamp".

Definition Attachments_SetThumbnailPath (group itemID id thumbnailPath : string) (now : Z) : M Attachment :=
  writeTx (SetThumbnailPath_validate itemID id thumbnailPath now) (
    seq ← AllocChangeSeq group;
    rows ← SetAttachmentThumbnailPath thumbnailPath now seq group itemID id;
    some_rows rows;;
    GetAttachment group itemID id).

Definition Attachments_Delete (group itemID id : string) (now : Z) : M unit :=
  writeTx (item_part_validate "storage: Delete attachment" itemID id now) (
    seq ← AllocChangeSeq group;
    rows ← DeleteAttachment now seq group itemID id;
    some_rows rows).

Definition Attachments_ClearThumbnailPath (group itemID id : string) (now : Z) : M unit :=
  writeTx (item_part_validate "storage: ClearThumbnailPath" itemID id now) (
    seq ← AllocChangeSeq group;
    rows ← ClearAttachmentThumbnailPath now seq group itemID id;
    some_rows rows).

(** ** Custom field definitions *)

Record CreateCustomFieldDefParams := mkCreateCustomFieldDef {
  ccd_ID : string; ccd_Name : string; ccd_FieldType : string; ccd_DisplayOrder : Z; ccd_Now : Z }.

Definition CreateCustomFieldDefParams_validate (p : CreateCustomFieldDefParams) : res unit :=
  reject (ccd_ID p =?s "") "storage: CreateCustomFieldDefParams: ID is empty";;
  reject (ccd_Name p =?s "") "storage: CreateCustomFieldDefParams: Name is empty";;
  reject (ccd_FieldType p =?s "") "storage: CreateCustomFieldDefParams: FieldType is empty";;
  reject (ccd_Now p <=? 0)%Z "storage: CreateCustomFieldDefParams: Now must be a positive Unix-millisecond timestamp".

Record UpdateCustomFieldDefParams := mkUpdateCustomFieldDef {
  ucd_ID : string; ucd_Name : string; ucd_FieldType : string; ucd_DisplayOrder : Z;
  ucd_ExpectedVersion : Z; ucd_Now : Z }.

Definition UpdateCustomFieldDefParams_validate (p : UpdateCustomFieldDefParams) : res unit :=
  reject (ucd_ID p =?s "") "storage: UpdateCustomFieldDefParams: ID is empty";;
  reject (ucd_Name p =?s "") "storage: UpdateCustomFieldDefParams: Name is empty";;
  reject (ucd_FieldType p =?s "") "storage: UpdateCustomFieldDefParams: FieldType is empty";;
  reject (ucd_ExpectedVersion p <=? 0)%Z "storage: UpdateCustomFieldDefParams: ExpectedVersion must be positive";;
  reject (ucd_Now p <=? 0)%Z "storage: UpdateCustomFieldDefParams: Now must be a positive Unix-millisecond timestamp".

Definition CustomFieldDefs_Create (group : string) (p : CreateCustomFieldDefParams) : M CustomFieldDef :=
  writeTx (CreateCustomFieldDefParams_validate p) (
    seq ← AllocChangeSeq group;
    CreateCustomFieldDef (ccd_ID p) group (ccd_Name p) (ccd_FieldType p) (ccd_DisplayOrder p) (ccd_Now p) seq;;
    GetCustomFieldDef group (ccd_ID p)).

Definition CustomFieldDefs_Update (group : string) (p : UpdateCustomFieldDefParams) : M CustomFieldDef :=
  writeTx (UpdateCustomFieldDefParams_validate p) (
    current ← no_rows_as ErrNotFound (GetCustomFieldDef group (ucd_ID p));
    if negb (Version current =? ucd_ExpectedVersion p)%Z then throw ErrVersionMismatch else
    seq ← AllocChangeSeq group;
    rows ← UpdateCustomFieldDef (ucd_Name p) (ucd_FieldType p) (ucd_DisplayOrder p) (ucd_Now p) seq group
             (ucd_ID p) (ucd_ExpectedVersion p);
    want_one_row rows "storage: update custom field def: matched rows, want 1";;
    GetCustomFieldDef group (ucd_ID p)).

Definition CustomFieldDefs_Delete_validate (id : string) (now : Z) : res unit :=
  reject (id =?s "") "storage: Delete custom field def: id is empty";;
  reject (now <=? 0)%Z "storage: Delete custom field def: now must be a positive Unix-millisecond timestamp".

Definition CustomFieldDefs_Delete (group id : string) (now : Z) : M unit :=
  writeTx (CustomFieldDefs_Delete_validate id now) (
    seq ← AllocChangeSeq group;
    rows ← DeleteCustomFieldDef now seq group id;
    some_rows rows;;
    want_one_row rows "storage: delete custom field def: matched rows, want 1").

(** ** Evolution *)

Lemma evo_createIdentificationTx g c0 lb p : evo g c0 lb (createIdentificationTx g p).
Proof. unfold createIdentificationTx. solve_evo. Qed.
Lemma evo_updateIdentificationTx g c0 lb p : evo g c0 lb (updateIdentificationTx g p).
Proof. unfold updateIdentificationTx. solve_evo. Qed.
Lemma evo_createItemCustomFieldTx g c0 lb p : evo g c0 lb (createItemCustomFieldTx g p).
Proof. unfold createItemCustomFieldTx. solve_evo. Qed.
Lemma evo_updateItemCustomFieldTx g c0 lb p : evo g c0 lb (updateItemCustomFieldTx g p).
Proof. unfold updateItemCustomFieldTx. solve_evo. Qed.
#[export] Hint Resolve evo_createIdentificationTx evo_updateIdentificationTx
  evo_createItemCustomFieldTx evo_updateItemCustomFieldTx : evo.

Lemma method_Identifications_Create g p : method g (Identifications_Create g p).
Proof. solve_method. Qed.
Lemma method_Identifications_Update g p : method g (Identifications_Update g p).
Proof. solve_method. Qed.
Lemma method_Identifications_Delete g i id now : method g (Identifications_Delete g i id now).
Proof. solve_method. Qed.
Lemma method_ItemCustomFields_Create g p : method g (ItemCustomFields_Create g p).
Proof. solve_method. Qed.
Lemma method_ItemCustomFields_Update g p : method g (ItemCustomFields_Update g p).
Proof. solve_method. Qed.
Lemma method_ItemCustomFields_Delete g i id now : method g (ItemCustomFields_Delete g i id now).
Proof. solve_method. Qed.
Lemma method_Attachments_Create g p : method g (Attachments_Create g p).
Proof. solve_method. Qed.
Lemma method_Attachments_SetThumbnailPath g i id t now : method g (Attachments_SetThumbnailPath g i id t now).
Proof. solve_method. Qed.
Lemma method_Attachments_Delete g i id now : method g (Attachments_Delete g i id now).
Proof. solve_method. Qed.
Lemma method_Attachments_ClearThumbnailPath g i id now : method g (Attachments_ClearThumbnailPath g i id now).
Proof. solve_method. Qed.
Lemma method_CustomFieldDefs_Create g p : method g (CustomFieldDefs_Create g p).
Proof. solve_method. Qed.
Lemma method_CustomFieldDefs_Update g p : method g (CustomFieldDefs_Update g p).
Proof. solve_method. Qed.
Lemma method_CustomFieldDefs_Delete g id now : method g (CustomFieldDefs_Delete g id now).
Proof. solve_method. Qed.
