(* ===== verification/Exec.v ===== *)
(** * Reasoning about a run of database code

    Two ways to reason about a computation of the monad [M].  [run_inv] takes
    a successful run apart, statement by statement, and leaves what each
    statement found and wrote.  The judgement [steps R m] says that [m] takes
    the database along the preorder [R], with one rule per construct; it is
    what the invariants of single tables are proved with. *)

From S2P Require Import Prelude GoBase Schema Sql Evolution Queries.
From S2P Require Import PushRepo.

(** ** Successful runs *)

Section run.
Context {A B : Type}.
Implicit Types (w : World).

Lemma ret_ok (a b : A) w w' : mret (M := M) a w = (Ok b, w') -> b = a /\ w' = w.
Proof. by intros [= -> ->]. Qed.

Lemma throw_ok e (b : A) w w' : throw e w = (Ok b, w') -> False.
Proof. done. Qed.

Lemma lift_ok (r : res A) (b : A) w w' : lift r w = (Ok b, w') -> r = Ok b /\ w' = w.
Proof. by intros [= -> ->]. Qed.

Lemma try_ok (m : M A) r w w' : try m w = (Ok r, w') -> m w = (r, w').
Proof. unfold try. destruct (m w) as [r' w'']. by intros [= -> ->]. Qed.

Lemma Tx_ok (m : M A) a w w' : Tx m w = (Ok a, w') <-> m w = (Ok a, w').
Proof. unfold Tx. destruct (m w) as [[?|?] ?]; split; intros [=]; subst; done. Qed.

Lemma Tx_err (m : M A) e w w' : Tx m w = (Err e, w') -> wdb w' = wdb w.
Proof. unfold Tx. destruct (m w) as [[?|?] ?]; intros [=]; subst; done. Qed.

Lemma writeTx_ok v (m : M A) a w w' :
  writeTx v m w = (Ok a, w') <-> v = Ok tt /\ m w = (Ok a, w').
Proof.
  unfold writeTx, lift, mbind, prog_bind. destruct v as [[]|e].
  - rewrite Tx_ok. naive_solver.
  - naive_solver.
Qed.

(** A repository method that fails leaves the database as it was. *)
Lemma writeTx_err v (m : M A) e w w' : writeTx v m w = (Err e, w') -> wdb w' = wdb w.
Proof.
  unfold writeTx, lift, mbind, prog_bind. destruct v as [[]|e']; [apply Tx_err|naive_solver].
Qed.

Lemma no_rows_as_ok e (m : M A) a w w' : no_rows_as e m w = (Ok a, w') -> m w = (Ok a, w').
Proof. unfold no_rows_as, mbind, prog_bind, try. destruct (m w) as [[?|?] ?]; naive_solver. Qed.

Lemma want_one_row_ok n msg u w w' : want_one_row n msg w = (Ok u, w') -> n = 1%Z /\ w' = w.
Proof. unfold want_one_row. destruct (Z.eqb_spec n 1); intros [=]; subst; done. Qed.

Lemma some_rows_ok n u w w' : some_rows n w = (Ok u, w') -> n <> 0%Z /\ w' = w.
Proof. unfold some_rows. destruct (Z.eqb_spec n 0); intros [=]; subst; done. Qed.

Lemma reject_ok c msg u : reject c msg = Ok u -> c = false.
Proof. unfold reject. by destruct c. Qed.
End run.

Lemma AllocChangeSeq_ok g seq w w' :
  AllocChangeSeq g w = (Ok seq, w') ->
  exists G, groups (wdb w) !! g = Some G /\ seq = (grp_ChangeSeqCounter G + 1)%Z /\
    w' = mkWorld (set_groups (<[g := with_counter G seq]> (groups (wdb w))) (wdb w)) (draws w).
Proof. unfold AllocChangeSeq. destruct (groups (wdb w) !! g) as [G|]; naive_solver. Qed.

Section run_statements.
Context {D : Type} `{Table D}.
Implicit Types (P : Row D -> bool) (r : Row D) (w : World).

Lemma insert_row_ok r u w w' :
  insert_row r w = (Ok u, w') ->
  check_constraints (Cols r) = true /\ unique_clash (rows_of (tbl (wdb w))) r = false /\
  tbl (wdb w) !! ID r = None /\
  foreign_keys (set_tbl (<[ID r := r]> (tbl (wdb w))) (wdb w)) r = true /\
  w' = mkWorld (set_tbl (<[ID r := r]> (tbl (wdb w))) (wdb w)) (draws w).
Proof.
  unfold insert_row. repeat (split_match; try done). intros [=]; subst.
  bool_facts. done.
Qed.

Lemma update_rows_ok P f n w w' :
  update_rows P f w = (Ok n, w') ->
  n = Z.of_nat (length (where_ P (tbl (wdb w)))) /\
  (forall r, r ∈ where_ P (tbl (wdb w)) ->
     check_constraints (Cols (f r)) = true /\
     unique_clash (List.filter (fun r' => negb (ID r' =?s ID (f r)))
       (rows_of (update_where P f (tbl (wdb w))))) (f r) = false /\
     foreign_keys (set_tbl (update_where P f (tbl (wdb w))) (wdb w)) (f r) = true) /\
  w' = mkWorld (set_tbl (update_where P f (tbl (wdb w))) (wdb w)) (draws w).
Proof.
  unfold update_rows. repeat (split_match; try done). intros [=]; subst.
  rewrite length_fmap. rewrite existsb_false_iff in E, E0, E1.
  split_and!; [done| |done]. intros r Hr.
  apply (list_elem_of_fmap_2 f) in Hr.
  split_and!; [apply negb_false_iff, E, Hr | apply E0, Hr | apply negb_false_iff, E1, Hr].
Qed.

Lemma select_many_ok P l w w' :
  select_many P w = (Ok l, w') -> l = where_ P (tbl (wdb w)) /\ w' = w.
Proof. by intros [= -> ->]. Qed.

Lemma select_count_ok P n w w' :
  select_count P w = (Ok n, w') -> n = Z.of_nat (length (where_ P (tbl (wdb w)))) /\ w' = w.
Proof. by intros [= -> ->]. Qed.
End run_statements.

(** Take the run [H : m w = (Ok a, w')] apart as far as the text of [m] goes. *)
Ltac run_inv1 :=
  match goal with
  | H : (_ ≫= _) _ = (Ok _, _) |- _ =>
      apply prog_bind_inv_ok in H as (? & ? & ? & ?)
  | H : mret _ _ = (Ok _, _) |- _ => apply ret_ok in H as [? ?]; subst
  | H : throw _ _ = (Ok _, _) |- _ => by apply throw_ok in H
  | H : lift _ _ = (Ok _, _) |- _ => apply lift_ok in H as [? ?]; subst
  | H : try _ _ = (Ok _, _) |- _ => apply try_ok in H
  | H : no_rows_as _ _ _ = (Ok _, _) |- _ => apply no_rows_as_ok in H
  | H : want_one_row _ _ _ = (Ok _, _) |- _ => apply want_one_row_ok in H as [? ?]; subst
  | H : some_rows _ _ = (Ok _, _) |- _ => apply some_rows_ok in H as [? ?]; subst
  | H : AllocChangeSeq _ _ = (Ok _, _) |- _ => apply AllocChangeSeq_ok in H as (? & ? & ? & ?); subst
  | H : insert_row _ _ = (Ok _, _) |- _ => apply insert_row_ok in H as (? & ? & ? & ? & ?); subst
  | H : update_rows _ _ _ = (Ok _, _) |- _ => apply update_rows_ok in H as (? & ? & ?); subst
  | H : select_many _ _ = (Ok _, _) |- _ => apply select_many_ok in H as [? ?]; subst
  | H : select_count _ _ = (Ok _, _) |- _ => apply select_count_ok in H as [? ?]; subst
  | H : select_one _ _ = (Ok _, _) |- _ => apply select_one_ok in H as (? & ? & ? & ?); subst
  | H : select_one _ _ = (Err _, _) |- _ => apply select_one_err in H as (? & ? & ?); subst
  | H : reject _ _ = Ok _ |- _ => apply reject_ok in H
  | H : (Ok _, _) = (Ok _, _) |- _ => injection H as; subst
  | H : (Err _, _) = (Ok _, _) |- _ => discriminate H
  | H : Ok _ = Ok _ |- _ => injection H as; subst
  | H : Err _ = Ok _ |- _ => discriminate H
  end.

(** [run_inv] also splits on the conditions and matches it meets. *)
Ltac run_inv :=
  repeat first
    [ run_inv1
    | match goal with
      | H : (match ?x with _ => _ end) _ = (Ok _, _) |- _ => destruct x eqn:?
      end ].

(** ** Failing runs *)

Section fail.
Context {A B : Type}.

Lemma prog_bind_inv_err (m : M A) (k : A -> M B) e w w' :
  (m ≫= k) w = (Err e, w') ->
  m w = (Err e, w') \/ exists a w1, m w = (Ok a, w1) /\ k a w1 = (Err e, w').
Proof. unfold mbind, prog_bind. destruct (m w) as [[a|e0] w1]; naive_solver. Qed.

Lemma no_rows_as_err e0 (m : M A) e w w' :
  no_rows_as e0 m w = (Err e, w') -> exists e', m w = (Err e', w').
Proof.
  unfold no_rows_as, mbind, prog_bind, try. destruct (m w) as [[a|e1] w1]; intros H; [discriminate H|].
  injection H as _ <-. by exists e1.
Qed.

Lemma want_one_row_err n msg e w w' : want_one_row n msg w = (Err e, w') -> w' = w.
Proof. unfold want_one_row. destruct (n =? 1)%Z; [done|intros H; by (discriminate H || injection H as _ <-)]. Qed.

Lemma throw_err e0 e w w' : throw (S := World) (A := A) e0 w = (Err e, w') -> w' = w.
Proof. intros H; by (discriminate H || injection H as _ <-). Qed.

Lemma AllocChangeSeq_err g e w w' : AllocChangeSeq g w = (Err e, w') -> w' = w.
Proof. unfold AllocChangeSeq. destruct (groups (wdb w) !! g); intros H; by (discriminate H || injection H as _ <-). Qed.

Lemma try_err (m : M A) e w w' : try m w = (Err e, w') -> False.
Proof. unfold try. by destruct (m w). Qed.

Lemma insert_row_err {D} `{Table D} (r : Row D) e w w' : insert_row r w = (Err e, w') -> w' = w.
Proof. unfold insert_row. repeat (split_match; try done); intros Hr; by (discriminate Hr || injection Hr as _ <-). Qed.

Lemma update_rows_err {D} `{Table D} (P : Row D -> bool) f e w w' : update_rows P f w = (Err e, w') -> w' = w.
Proof. unfold update_rows. repeat (split_match; try done); intros Hr; by (discriminate Hr || injection Hr as _ <-). Qed.
End fail.

(** Like [run_inv], also for runs that fail; each place that can fail is a
    case of its own. *)
Ltac run_inv_err :=
  repeat first
    [ run_inv1
    | match goal with
      | H : (_ ≫= _) _ = (Err _, _) |- _ => apply prog_bind_inv_err in H as [H|(? & ? & ? & H)]
      | H : mret _ _ = (Err _, _) |- _ => discriminate H
      | H : throw _ _ = (Err _, _) |- _ => apply throw_err in H; subst
      | H : try _ _ = (Err _, _) |- _ => by apply try_err in H
      | H : no_rows_as _ _ _ = (Err _, _) |- _ => apply no_rows_as_err in H as [? H]
      | H : want_one_row _ _ _ = (Err _, _) |- _ => apply want_one_row_err in H; subst
      | H : AllocChangeSeq _ _ = (Err _, _) |- _ => apply AllocChangeSeq_err in H; subst
      | H : insert_row _ _ = (Err _, _) |- _ => apply insert_row_err in H; subst
      | H : update_rows _ _ _ = (Err _, _) |- _ => apply update_rows_err in H; subst
      | H : select_many _ _ = (Err _, _) |- _ => discriminate H
      | H : (match ?x with _ => _ end) _ = (_, _) |- _ => destruct x eqn:?
      end ].

(** ** Preorders and invariants *)

Definition steps (R : relation DB) {A} (m : M A) : Prop := forall w, R (wdb w) (wdb (m w).2).

(** [m] keeps the invariant [I]. *)
Abbreviation keeps I m := (steps (fun a b => I a -> I b) m).

#[global] Instance keeps_preorder (I : DB -> Prop) : PreOrder (fun a b => I a -> I b).
Proof. split; [by intros a|]. intros a b c Hab Hbc ?. auto. Qed.

Section steps_rules.
Context (R : relation DB) `{!PreOrder R}.
Context {A B : Type}.
Implicit Types (m : M A) (k : A -> M B).

Lemma steps_readonly m : readonly m -> steps R m.
Proof. intros Hm w. rewrite Hm. reflexivity. Qed.

Lemma steps_bind m k : steps R m -> (forall a, steps R (k a)) -> steps R (m ≫= k).
Proof.
  intros Hm Hk w. specialize (Hm w). unfold mbind, prog_bind.
  destruct (m w) as [[a|e] w'] eqn:E; simpl in *; [|done].
  etrans; [exact Hm|]. apply Hk.
Qed.

Lemma steps_try m : steps R m -> steps R (try m).
Proof. intros Hm w. specialize (Hm w). unfold try. by destruct (m w). Qed.

Lemma steps_Tx m : steps R m -> steps R (Tx m).
Proof. intros Hm w. specialize (Hm w). unfold Tx. by destruct (m w) as [[] ?]. Qed.

(** Only the successful runs of a transaction count. *)
Lemma steps_Tx_ok m : (forall w a w', m w = (Ok a, w') -> R (wdb w) (wdb w')) -> steps R (Tx m).
Proof.
  intros Hm w. unfold Tx. destruct (m w) as [[a|e] w'] eqn:E; simpl; [eauto|reflexivity].
Qed.

Lemma steps_writeTx v m : steps R m -> steps R (writeTx v m).
Proof.
  intros Hm. unfold writeTx. intros w. unfold lift, mbind, prog_bind.
  destruct v as [[]|]; [by apply steps_Tx|simpl; reflexivity].
Qed.

Lemma steps_for_each {X} (l : list X) (f : X -> M unit) :
  (forall x, steps R (f x)) -> steps R (for_each l f).
Proof.
  intros Hf. induction l as [|x l IH]; simpl; [intros w; reflexivity|].
  intros w. unfold mbind, prog_bind. specialize (Hf x w).
  destruct (f x w) as [[[]|e] w'] eqn:E; simpl in *; [|done].
  etrans; [exact Hf|]. apply IH.
Qed.
End steps_rules.

Section steps_primitives.
Context (R : relation DB) `{!PreOrder R}.

Lemma steps_AllocChangeSeq g :
  (forall db t, R db (set_groups t db)) -> steps R (AllocChangeSeq g).
Proof.
  intros HR w. unfold AllocChangeSeq. destruct (groups (wdb w) !! g); simpl; [apply HR|reflexivity].
Qed.

Lemma steps_CreateMutation id g mid et eid now o :
  (forall db t, R db (set_mutations t db)) -> steps R (CreateMutation id g mid et eid now o).
Proof.
  intros HR w. unfold CreateMutation. repeat (split_match; simpl; try reflexivity). apply HR.
Qed.

Lemma steps_CreateConflict id row :
  (forall db t, R db (set_conflicts t db)) -> steps R (CreateConflict id row).
Proof.
  intros HR w. unfold CreateConflict. repeat (split_match; simpl; try reflexivity). apply HR.
Qed.

Lemma steps_UpsertFieldVersion g et eid f v now :
  (forall db t, R db (set_field_versions t db)) -> steps R (UpsertFieldVersion g et eid f v now).
Proof.
  intros HR w. unfold UpsertFieldVersion. repeat (split_match; simpl; try reflexivity). apply HR.
Qed.

Context {D : Type} `{Table D}.

Lemma steps_insert_row (r : Row D) :
  (forall db, tbl db !! ID r = None ->
     unique_clash (rows_of (tbl db)) r = false ->
     foreign_keys (set_tbl (<[ID r := r]> (tbl db)) db) r = true ->
     R db (set_tbl (<[ID r := r]> (tbl db)) db)) ->
  steps R (insert_row r).
Proof.
  intros HR w. destruct (insert_row r w) as [[u|e] w'] eqn:E; simpl.
  - apply insert_row_ok in E as (?&?&?&?&->). simpl. auto.
  - revert E. unfold insert_row. repeat (split_match; try done); intros [=]; subst; reflexivity.
Qed.

Lemma steps_update_rows (P : Row D -> bool) f :
  (forall db,
     (forall r, r ∈ where_ P (tbl db) ->
        foreign_keys (set_tbl (update_where P f (tbl db)) db) (f r) = true) ->
     R db (set_tbl (update_where P f (tbl db)) db)) ->
  steps R (update_rows P f).
Proof.
  intros HR w. destruct (update_rows P f w) as [[n|e] w'] eqn:E; simpl.
  - apply update_rows_ok in E as (?&Hc&->). simpl. apply HR. intros r Hr. by apply Hc.
  - revert E. unfold update_rows. repeat (split_match; try done); intros [=]; subst; reflexivity.
Qed.
End steps_primitives.

(** The relation does not look at the table that is written. *)
Ltac solve_frame := intros; simpl in *; solve [auto | done].

(** Like [evo_step], for [steps]. *)
Ltac steps_step :=
  match goal with
  | |- steps _ (_ ≫= _) => apply steps_bind; [apply _| |intros ?]
  | |- steps _ (match ?x with _ => _ end) => destruct x eqn:?
  | |- steps _ (let '_ := ?x in _) => destruct x eqn:?
  | |- steps _ (let x := _ in _) => cbv zeta
  | |- steps _ (for_each _ _) => apply steps_for_each; [apply _|intros ?]
  | |- steps _ (try _) => apply steps_try
  | |- steps _ (writeTx _ _) => apply steps_writeTx; [apply _|]
  | |- steps _ (Tx _) => apply steps_Tx; [apply _|]
  | |- steps _ (AllocChangeSeq _) => apply steps_AllocChangeSeq; [apply _|solve_frame]
  | |- steps _ (CreateMutation _ _ _ _ _ _ _) => apply steps_CreateMutation; [apply _|solve_frame]
  | |- steps _ (CreateConflict _ _) => apply steps_CreateConflict; [apply _|solve_frame]
  | |- steps _ (UpsertFieldVersion _ _ _ _ _ _) => apply steps_UpsertFieldVersion; [apply _|solve_frame]
  | |- steps _ (insert_row _) => apply steps_insert_row; [apply _|solve_frame]
  | |- steps _ (update_rows _ _) => apply steps_update_rows; [apply _|solve_frame]
  | |- steps _ ?m =>
      first [ apply steps_readonly; [apply _|solve [eauto with evo]]
            | solve [eauto with steps]
            | progress (let h := head_of m in unfold h) ]
  end.
Create HintDb steps discriminated.
Ltac solve_steps := repeat steps_step.
