(* ===== verification/History.v ===== *)
(** * Histories: the writes of any number of transactions

    [history a b]: the database went from [a] to [b] by transactions of any
    groups, one after the other (the writer pool has one connection, so writes
    do not interleave; [storage/internal/db/tx.go]).  [db_ok] is what every
    database reached in this way satisfies: rows are stored under their id and
    no row is stamped above its group's counter. *)

From S2P Require Import Prelude GoBase Schema Sql Evolution.

Inductive history : DB -> DB -> Prop :=
  | history_refl a : history a a
  | history_step g a b d : history a b -> Evo g (counter g b) b d -> history a d.

Lemma history_trans a b c : history a b -> history b c -> history a c.
Proof. intros Hab Hbc. induction Hbc; [done|]. eapply history_step; [by apply IHHbc|done]. Qed.

Lemma history_method g {A} (m : M A) w : method g m -> history (wdb w) (wdb (m w).2).
Proof. intros Hm. eapply history_step; [apply history_refl|apply Hm]. Qed.

Lemma counter_evo g c0 a b h : Evo g c0 a b -> (counter h a <= counter h b)%Z.
Proof.
  intros HE. destruct (decide (h = g)) as [->|]; [apply (evo_counter _ _ _ _ HE)|].
  unfold counter. rewrite (evo_groups _ _ _ _ HE) by done. lia.
Qed.

Lemma counter_history g a b : history a b -> (counter g a <= counter g b)%Z.
Proof. induction 1 as [|h a b d _ IH HE]; [lia|]. pose proof (counter_evo _ _ _ _ g HE). lia. Qed.

(** ** One table *)

(** What becomes of a row: it is the same, or a later version of it stamped
    after [c0]. *)
Definition newer {D} (c0 : Z) (r r' : Row D) : Prop :=
  r' = r \/ (ID r' = ID r /\ GroupID r' = GroupID r /\ (Version r < Version r')%Z /\ (c0 < ChangeSeq r')%Z).

Section table.
Context (D : Type) `{TableLaws D}.

Definition table_ok (db : DB) : Prop :=
  forall k r, tbl db !! k = Some r -> ID r = k /\ (ChangeSeq r <= counter (GroupID r) db)%Z.

Lemma table_ok_keyed db : table_ok db -> keyed (tbl db).
Proof. intros Ht k r Hr. by apply (Ht k r). Qed.

Lemma table_ok_evo g a b : Evo g (counter g a) a b -> table_ok a -> table_ok b.
Proof.
  intros HE Ha k r Hr. pose proof (Evo_tbl _ _ _ _ HE k) as Hrow. rewrite Hr in Hrow. unfold row_evo in Hrow.
  destruct (tbl a !! k) as [r0|] eqn:E.
  - destruct (Ha k r0 E) as [Hid Hseq]. destruct Hrow as [->|(Hg & Hid' & Hg' & _ & Hs)].
    + split; [done|]. pose proof (counter_evo _ _ _ _ (GroupID r0) HE). lia.
    + split; [congruence|]. rewrite Hg', Hg. lia.
  - destruct Hrow as (Hid & Hg & _ & Hs). split; [done|]. rewrite Hg. lia.
Qed.

(** Rows are never removed, and a row of [g] that changed was stamped above
    the counter [g] had before. *)
Lemma row_kept g h a b k r :
  Evo h (counter h a) a b -> tbl a !! k = Some r -> GroupID r = g ->
  exists r', tbl b !! k = Some r' /\ newer (counter g a) r r'.
Proof.
  intros HE Hr Hg. pose proof (Evo_tbl _ _ _ _ HE k) as Hrow. rewrite Hr in Hrow. unfold row_evo in Hrow.
  destruct (tbl b !! k) as [r'|]; [|done]. exists r'. split; [done|].
  destruct Hrow as [->|(Hh & ? & ? & ? & ?)]; [by left|]. right. replace g with h by congruence. split_and!; (done || lia).
Qed.

Lemma row_kept_history g a b k r :
  history a b -> tbl a !! k = Some r -> GroupID r = g ->
  exists r', tbl b !! k = Some r' /\ newer (counter g a) r r'.
Proof.
  intros Hh Hr Hg. induction Hh as [a|h a b d Hh IH HE]; [exists r; split; [done|by left]|].
  destruct (IH Hr) as (r1 & Hr1 & Hn1).
  assert (Hg1 : GroupID r1 = g) by (destruct Hn1 as [->|(_ & -> & _)]; done).
  destruct (row_kept g _ _ _ _ _ HE Hr1 Hg1) as (r2 & Hr2 & Hn2). exists r2. split; [done|].
  pose proof (counter_history g _ _ Hh).
  destruct Hn1 as [->|(?&?&?&?)], Hn2 as [->|(?&?&?&?)];
    [by left|right|right|right]; split_and!; (congruence || lia).
Qed.

(** Where a row of [g] comes from: it was there, or is stamped later. *)
Lemma row_origin g h a b k r :
  Evo h (counter h a) a b -> tbl b !! k = Some r -> GroupID r = g ->
  tbl a !! k = Some r \/ (counter g a < ChangeSeq r)%Z.
Proof.
  intros HE Hr Hg. pose proof (Evo_tbl _ _ _ _ HE k) as Hrow. rewrite Hr in Hrow. unfold row_evo in Hrow.
  destruct (tbl a !! k) as [r0|].
  - destruct Hrow as [->|(Hh & _ & Hg' & _ & ?)]; [by left|right]. replace g with h by congruence. lia.
  - destruct Hrow as (_ & Hh & _ & ?). right. replace g with h by congruence. lia.
Qed.

Lemma row_origin_history g a b k r :
  history a b -> tbl b !! k = Some r -> GroupID r = g ->
  tbl a !! k = Some r \/ (counter g a < ChangeSeq r)%Z.
Proof.
  intros Hh. induction Hh as [a|h a b d Hh IH HE]; intros Hr Hg; [by left|].
  destruct (row_origin g _ _ _ _ _ HE Hr Hg) as [Hb|Hs]; [by apply IH|right].
  pose proof (counter_history g _ _ Hh). lia.
Qed.
End table.

(** ** The database *)

Record db_ok (db : DB) : Prop := mkDbOk {
  ok_items : table_ok ItemCols db;
  ok_warranty : table_ok WarrantyCols db;
  ok_sale : table_ok SaleCols db;
  ok_purchase : table_ok PurchaseCols db;
  ok_identifications : table_ok IdentificationCols db;
  ok_custom_fields : table_ok CustomFieldCols db;
  ok_stock : table_ok StockCols db;
  ok_locations : table_ok LocationCols db;
  ok_labels : table_ok LabelCols db;
  ok_item_labels : table_ok ItemLabelCols db;
  ok_attachments : table_ok AttachmentCols db;
  ok_custom_field_defs : table_ok CustomFieldDefCols db;
  ok_users : table_ok UserCols db;
  ok_sessions : table_ok SessionCols db;
  ok_device_tokens : table_ok DeviceTokenCols db;
  ok_invites : table_ok InviteCols db;
}.

Lemma db_ok_evo g a b : Evo g (counter g a) a b -> db_ok a -> db_ok b.
Proof. intros HE []. split; eapply table_ok_evo; (apply _ || done). Qed.

Lemma db_ok_history a b : history a b -> db_ok a -> db_ok b.
Proof. induction 1; eauto using db_ok_evo. Qed.

Lemma items_keyed db : db_ok db -> keyed (items db).
Proof. intros []. exact (table_ok_keyed ItemCols db ok_items0). Qed.
Lemma labels_keyed db : db_ok db -> keyed (labels db).
Proof. intros []. exact (table_ok_keyed LabelCols db ok_labels0). Qed.
Lemma stock_keyed db : db_ok db -> keyed (stock_adjustments db).
Proof. intros []. exact (table_ok_keyed StockCols db ok_stock0). Qed.
