(* ===== verification/Labels.v ===== *)
(** * Labels and the item-label edges

    [storage/labels.go] and [storage/item_labels.go]. *)

From S2P Require Import Prelude GoBase Schema Sql Evolution Queries.
From S2P Require Import PushRepo.

(** ** Labels *)

Record CreateLabelParams := mkCreateLabel {
  cl_ID : string; cl_Name : string; cl_Color : string; cl_Now : Z }.

Definition CreateLabelParams_validate (p : CreateLabelParams) : res unit :=
  reject (cl_ID p =?s "") "storage: CreateLabelParams: ID is empty";;
  reject (cl_Name p =?s "") "storage: CreateLabelParams: Name is empty";;
  reject (cl_Color p =?s "") "storage: CreateLabelParams: Color is empty";;
  reject (cl_Now p <=? 0)%Z "storage: CreateLabelParams: Now must be a positive Unix-millisecond timestamp".

Record UpdateLabelParams := mkUpdateLabel {
  ul_ID : string; ul_Name : string; ul_Color : string; ul_ExpectedVersion : Z; ul_Now : Z }.

Definition UpdateLabelParams_validate (p : UpdateLabelParams) : res unit :=
  reject (ul_ID p =?s "") "storage: UpdateLabelParams: ID is empty";;
  reject (ul_Name p =?s "") "storage: UpdateLabelParams: Name is empty";;
  reject (ul_Color p =?s "") "storage: UpdateLabelParams: Color is empty";;
  reject (ul_ExpectedVersion p <=? 0)%Z "storage: UpdateLabelParams: ExpectedVersion must be positive";;
  reject (ul_Now p <=? 0)%Z "storage: UpdateLabelParams: Now must be a positive Unix-millisecond timestamp".

Definition Labels_Get (group id : string) : M Label :=
  no_rows_as ErrNotFound (GetLabel group id).

Definition Labels_List (group : string) : M (list Label) := ListLabels group.

Definition createLabelTx (group : string) (p : CreateLabelParams) : M Label :=
  existing ← try (GetLabelByName group (cl_Name p));
  match existing with
  | Ok _ => throw ErrLabelNameConflict
  | Err e => if is_no_rows e then mret tt else throw e
  end;;
  seq ← AllocChangeSeq group;
  CreateLabel (cl_ID p) group (cl_Name p) (cl_Color p) (cl_Now p) seq;;
  GetLabel group (cl_ID p).

Definition Labels_Create (group : string) (p : CreateLabelParams) : M Label :=
  writeTx (CreateLabelParams_validate p) (createLabelTx group p).

Definition updateLabelTx (group : string) (p : UpdateLabelParams) : M Label :=
  current ← no_rows_as ErrNotFound (GetLabel group (ul_ID p));
  if negb (Version current =? ul_ExpectedVersion p)%Z then throw ErrVersionMismatch else
  conflict ← try (GetLabelByName group (ul_Name p));
  match conflict with
  | Ok conflict => if negb (ID conflict =?s ul_ID p) then throw ErrLabelNameConflict else mret tt
  | Err e => if negb (is_no_rows e) then throw e else mret tt
  end;;
  seq ← AllocChangeSeq group;
  rows ← UpdateLabel (ul_Name p) (ul_Color p) (ul_Now p) seq group (ul_ID p) (ul_ExpectedVersion p);
  want_one_row rows "storage: update label: matched rows, want 1";;
  GetLabel group (ul_ID p).

Definition Labels_Update (group : string) (p : UpdateLabelParams) : M Label :=
  writeTx (UpdateLabelParams_validate p) (
    before ← try (GetLabel group (ul_ID p));
    row ← updateLabelTx group p;
    match before with
    | Err e => throw e
    | Ok before =>
        recordFieldVersionsTx group "label" (ID row) (Version row) (ul_Now p)
          (diffLabelFieldVersions (Cols before) (Cols row));;
        mret row
    end).

Definition Labels_Delete_validate (id : string) (now : Z) : res unit :=
  reject (id =?s "") "storage: Delete label: id is empty";;
  reject (now <=? 0)%Z "storage: Delete label: now must be a positive Unix-millisecond timestamp".

Definition Labels_Delete (group id : string) (now : Z) : M unit :=
  writeTx (Labels_Delete_validate id now) (
    seq ← AllocChangeSeq group;
    rows ← DeleteLabel now seq group id;
    some_rows rows;;
    want_one_row rows "storage: delete label: matched rows, want 1").

(** ** The edges between items and labels *)

Record AttachLabelParams := mkAttachLabel {
  al_ID : string; al_ItemID : string; al_LabelID : string; al_Now : Z }.

Definition AttachLabelParams_validate (p : AttachLabelParams) : res unit :=
  reject (al_ID p =?s "") "storage: AttachLabelParams: ID is empty";;
  reject (al_ItemID p =?s "") "storage: AttachLabelParams: ItemID is empty";;
  reject (al_LabelID p =?s "") "storage: AttachLabelParams: LabelID is empty";;
  reject (al_Now p <=? 0)%Z "storage: AttachLabelParams: Now must be a positive Unix-millisecond timestamp".

Definition ItemLabels_ListForItem (group itemID : string) : M (list Label) :=
  lift (reject (itemID =?s "") "storage: ListForItem: itemID is empty");;
  _ ← no_rows_as ErrNotFound (GetItem group itemID);
  ListItemLabels group itemID.

Definition ItemLabels_ItemIDsForLabel (group labelID : string) : M (list string) :=
  lift (reject (labelID =?s "") "storage: ItemIDsForLabel: labelID is empty");;
  _ ← no_rows_as ErrNotFound (GetLabel group labelID);
  ListItemIDsByLabel group labelID.

(** A live edge is returned as it is; a tombstoned one is revived; otherwise
    an edge is inserted. *)
Definition attachItemLabelTx (group : string) (p : AttachLabelParams) : M ItemLabel :=
  _ ← no_rows_as ErrNotFound (GetItem group (al_ItemID p));
  _ ← no_rows_as ErrNotFound (GetLabel group (al_LabelID p));
  existing ← try (GetItemLabel group (al_ItemID p) (al_LabelID p));
  match existing with
  | Ok existing => mret existing
  | Err e =>
      if negb (is_no_rows e) then throw e else
      seq ← AllocChangeSeq group;
      revived ← ReviveItemLabel (al_Now p) seq group (al_ItemID p) (al_LabelID p);
      (if (revived =? 0)%Z
       then CreateItemLabel (al_ID p) group (al_ItemID p) (al_LabelID p) (al_Now p) seq
       else mret tt);;
      GetItemLabel group (al_ItemID p) (al_LabelID p)
  end.

Definition ItemLabels_Attach (group : string) (p : AttachLabelParams) : M unit :=
  writeTx (AttachLabelParams_validate p) (_ ← attachItemLabelTx group p; mret tt).

Definition detachItemLabelTx (group itemID labelID : string) (now : Z) : M unit :=
  seq ← AllocChangeSeq group;
  rows ← DeleteItemLabel now seq group itemID labelID;
  some_rows rows;;
  want_one_row rows "storage: detach label: matched rows, want 1".

Definition Detach_validate (itemID labelID : string) (now : Z) : res unit :=
  reject (itemID =?s "") "storage: Detach: itemID is empty";;
  reject (labelID =?s "") "storage: Detach: labelID is empty";;
  reject (now <=? 0)%Z "storage: Detach: now must be a positive Unix-millisecond timestamp".

Definition ItemLabels_Detach (group itemID labelID : string) (now : Z) : M unit :=
  writeTx (Detach_validate itemID labelID now) (detachItemLabelTx group itemID labelID now).

(** ** Evolution *)

Lemma evo_createLabelTx g c0 lb p : evo g c0 lb (createLabelTx g p).
Proof. unfold createLabelTx. solve_evo. Qed.
Lemma evo_updateLabelTx g c0 lb p : evo g c0 lb (updateLabelTx g p).
Proof. unfold updateLabelTx. solve_evo. Qed.
Lemma evo_attachItemLabelTx g c0 lb p : evo g c0 lb (attachItemLabelTx g p).
Proof. unfold attachItemLabelTx. solve_evo. Qed.
Lemma evo_detachItemLabelTx g c0 lb i l now : evo g c0 lb (detachItemLabelTx g i l now).
Proof. unfold detachItemLabelTx. solve_evo. Qed.
#[export] Hint Resolve evo_createLabelTx evo_updateLabelTx evo_attachItemLabelTx
  evo_detachItemLabelTx : evo.

Lemma method_Labels_Create g p : method g (Labels_Create g p).
Proof. solve_method. Qed.
Lemma method_Labels_Update g p : method g (Labels_Update g p).
Proof. solve_method. Qed.
Lemma method_Labels_Delete g id now : method g (Labels_Delete g id now).
Proof. solve_method. Qed.
Lemma method_ItemLabels_Attach g p : method g (ItemLabels_Attach g p).
Proof. solve_method. Qed.
Lemma method_ItemLabels_Detach g i l now : method g (ItemLabels_Detach g i l now).
Proof. solve_method. Qed.
