(* ===== verification/Locations.v ===== *)
(** * Locations

    [storage/locations.go] and [storage/locations_tree.go]: the location tree
    of a group, kept acyclic by a walk over the stored parent edges. *)

From S2P Require Import Prelude GoBase Schema Sql Evolution Queries.
From S2P Require Import PushRepo Exec.
From stdpp Require Import relations.

(** ** Parameters *)

Record CreateLocationParams := mkCreateLocation {
  cloc_ID : string; cloc_Name : string; cloc_ParentID : string; cloc_Now : Z }.

Definition CreateLocationParams_validate (p : CreateLocationParams) : res unit :=
  reject (cloc_ID p =?s "") "storage: CreateLocationParams: ID is empty";;
  reject (cloc_Name p =?s "") "storage: CreateLocationParams: Name is empty";;
  reject (cloc_Now p <=? 0)%Z "storage: CreateLocationParams: Now must be a positive Unix-millisecond timestamp".

Record UpdateLocationParams := mkUpdateLocation {
  uloc_LocationID : string; uloc_Name : string; uloc_ParentID : string;
  uloc_ExpectedVersion : Z; uloc_Now : Z }.

Definition UpdateLocationParams_validate (p : UpdateLocationParams) : res unit :=
  reject (uloc_LocationID p =?s "") "storage: UpdateLocationParams: LocationID is empty";;
  reject (uloc_Name p =?s "") "storage: UpdateLocationParams: Name is empty";;
  reject (uloc_ExpectedVersion p <=? 0)%Z "storage: UpdateLocationParams: ExpectedVersion must be positive";;
  reject (uloc_Now p <=? 0)%Z "storage: UpdateLocationParams: Now must be a positive Unix-millisecond timestamp".

Record DeleteLocationParams := mkDeleteLocation {
  dloc_LocationID : string; dloc_Reassign : bool; dloc_ReassignTo : string; dloc_Now : Z }.

Definition DeleteLocationParams_validate (p : DeleteLocationParams) : res unit :=
  reject (dloc_LocationID p =?s "") "storage: DeleteLocationParams: LocationID is empty";;
  reject (dloc_Now p <=? 0)%Z "storage: DeleteLocationParams: Now must be a positive Unix-millisecond timestamp";;
  reject (negb (dloc_Reassign p) && negb (dloc_ReassignTo p =?s ""))
    "storage: DeleteLocationParams: ReassignTo is set but Reassign is false; set Reassign to use it".

(** ** Operations *)

Definition Locations_Get (group locationID : string) : M Location :=
  no_rows_as ErrNotFound (GetLocation group locationID).

Definition Locations_List (group : string) : M (list Location) := ListLocations group.

(** [parentOf[e.ID] = e.ParentID.String] for every edge with a parent. *)
Definition build_parentOf (edges : list Location) : gmap string string :=
  foldl (fun m e => match loc_ParentID (Cols e) with
                    | Some p => <[ID e := p]> m
                    | None => m
                    end) ∅ edges.

(** The loop of [locationMoveCreatesCycle], [steps] iterations at most;
    [None] when it runs out of them. *)
Fixpoint walk_up (parentOf : gmap string string) (movingID current : string) (steps : nat) : option bool :=
  match steps with
  | O => None
  | S steps =>
      if current =?s movingID then Some true
      else match parentOf !! current with
           | None => Some false
           | Some next => walk_up parentOf movingID next steps
           end
  end.

Definition locationMoveCreatesCycle (group movingID candidateParentID : string) : M bool :=
  edges ← ListLocationParentEdges group;
  match walk_up (build_parentOf edges) movingID candidateParentID (S (length edges)) with
  | Some b => mret b
  | None => throw (ErrMessage "location parent-edge walk did not terminate")
  end.

Definition createLocationTx (group : string) (p : CreateLocationParams) : M Location :=
  (if negb (cloc_ParentID p =?s "")
   then _ ← no_rows_as ErrLocationParentNotFound (GetLocation group (cloc_ParentID p)); mret tt
   else mret tt);;
  seq ← AllocChangeSeq group;
  r ← try (CreateLocation (cloc_ID p) group (cloc_Name p) (nullString (cloc_ParentID p)) (cloc_Now p) seq);
  match r with
  | Err e => throw (if isForeignKeyConstraintViolation e then ErrLocationParentNotFound else e)
  | Ok _ => GetLocation group (cloc_ID p)
  end.

Definition Locations_Create (group : string) (p : CreateLocationParams) : M Location :=
  writeTx (CreateLocationParams_validate p) (createLocationTx group p).

Definition updateLocationTx (group : string) (p : UpdateLocationParams) : M Location :=
  current ← no_rows_as ErrNotFound (GetLocation group (uloc_LocationID p));
  if negb (Version current =? uloc_ExpectedVersion p)%Z then throw ErrVersionMismatch else
  (if negb (uloc_ParentID p =?s "") then
     _ ← no_rows_as ErrLocationParentNotFound (GetLocation group (uloc_ParentID p));
     isCycle ← locationMoveCreatesCycle group (uloc_LocationID p) (uloc_ParentID p);
     if isCycle : bool then throw ErrLocationCycle else mret tt
   else mret tt);;
  seq ← AllocChangeSeq group;
  r ← try (UpdateLocation (uloc_Name p) (nullString (uloc_ParentID p)) (uloc_Now p) seq group
             (uloc_LocationID p) (uloc_ExpectedVersion p));
  match r with
  | Err e => throw (if isForeignKeyConstraintViolation e then ErrLocationParentNotFound else e)
  | Ok rows =>
      want_one_row rows "storage: update location: matched rows, want 1";;
      GetLocation group (uloc_LocationID p)
  end.

Definition Locations_Update (group : string) (p : UpdateLocationParams) : M Location :=
  writeTx (UpdateLocationParams_validate p) (
    before ← try (GetLocation group (uloc_LocationID p));
    row ← updateLocationTx group p;
    match before with
    | Err e => throw e
    | Ok before =>
        recordFieldVersionsTx group "location" (ID row) (Version row) (uloc_Now p)
          (diffLocationFieldVersions (Cols before) (Cols row));;
        mret row
    end).

(** [if moved != count { return fmt.Errorf(...) }] *)
Definition want_rows (rows count : Z) (msg : string) : M unit :=
  if (rows =? count)%Z then mret tt else throw (ErrMessage msg).

Definition Locations_Delete (group : string) (p : DeleteLocationParams) : M unit :=
  writeTx (DeleteLocationParams_validate p) (
    _ ← no_rows_as ErrNotFound (GetLocation group (dloc_LocationID p));
    childCount ← CountLiveChildLocations group (dloc_LocationID p);
    itemCount ← CountLiveItemsInLocation group (dloc_LocationID p);
    if negb (dloc_Reassign p) && ((0 <? childCount)%Z || (0 <? itemCount)%Z)
    then throw (ErrLocationNotEmpty childCount itemCount) else
    (if dloc_Reassign p && negb (dloc_ReassignTo p =?s "") then
       _ ← no_rows_as ErrLocationParentNotFound (GetLocation group (dloc_ReassignTo p));
       inSubtree ← locationMoveCreatesCycle group (dloc_LocationID p) (dloc_ReassignTo p);
       if inSubtree : bool then throw ErrLocationReassignTarget else mret tt
     else mret tt);;
    seq ← AllocChangeSeq group;
    (if dloc_Reassign p then
       let target := nullString (dloc_ReassignTo p) in
       moved ← ReparentLiveChildren target (dloc_Now p) seq group (dloc_LocationID p);
       want_rows moved childCount "storage: reparent children: the count and the move disagree";;
       movedItems ← MoveLiveItemsToLocation target (dloc_Now p) seq group (dloc_LocationID p);
       want_rows movedItems itemCount "storage: move items: the count and the move disagree"
     else mret tt);;
    rows ← DeleteLocation (dloc_Now p) seq group (dloc_LocationID p);
    some_rows rows;;
    want_one_row rows "storage: delete location: matched rows, want 1").

(** ** Descendants *)

(** [children[e.ParentID] = append(children[e.ParentID], e.ID)] *)
Definition build_children (edges : list Location) : gmap string (list string) :=
  foldl (fun m e => match loc_ParentID (Cols e) with
                    | Some p => <[p := default [] (m !! p) ++ [ID e]]> m
                    | None => m
                    end) ∅ edges.

Definition build_live (edges : list Location) : gmap string bool :=
  foldl (fun m e => <[ID e := live e]> m) ∅ edges.

(** The worklist loop; [None] when [fuel] runs out. *)
Fixpoint bfs (children : gmap string (list string)) (isLive : gmap string bool)
    (visited : gset string) (queue out : list string) (fuel : nat) : option (list string) :=
  match queue with
  | [] => Some out
  | current :: queue =>
      match fuel with
      | O => None
      | S fuel =>
          if decide (current ∈ visited) then bfs children isLive visited queue out fuel
          else bfs children isLive ({[current]} ∪ visited)
                 (queue ++ default [] (children !! current))
                 (if default false (isLive !! current) then out ++ [current] else out) fuel
      end
  end.

(** Every edge enters the queue once, after the root: the fuel is enough. *)
Definition descendants_of (edges : list Location) (locationID : string) : option (list string) :=
  bfs (build_children edges) (build_live edges) ∅ [locationID] [] (S (length edges)).

Definition Locations_Descendants (group locationID : string) : M (list string) :=
  lift (reject (locationID =?s "") "storage: Descendants: locationID is empty");;
  edges ← ListLocationParentEdges group;
  match descendants_of edges locationID with
  | Some out => mret out
  | None => throw (ErrMessage "out of fuel")
  end.

(** ** Tree *)

(** The nodes, by location id: pointers to [LocationNode] are ids, and
    [Children] lists ids. *)
Record LocationNode := mkLocationNode {
  node_Location : Location; node_ItemCount : Z; node_TotalItemCount : Z; node_Children : list string }.

Definition add_child (child : string) (n : LocationNode) : LocationNode :=
  mkLocationNode (node_Location n) (node_ItemCount n) (node_TotalItemCount n) (node_Children n ++ [child]).

Definition set_total (total : Z) (n : LocationNode) : LocationNode :=
  mkLocationNode (node_Location n) (node_ItemCount n) total (node_Children n).

(** [nodes[node.ParentID.String]] when [ParentID] is valid. *)
Definition node_parent (nodes : gmap string LocationNode) (row : Location) : option string :=
  match loc_ParentID (Cols row) with
  | Some p => match nodes !! p with Some _ => Some p | None => None end
  | None => None
  end.

Definition link_node (acc : gmap string LocationNode * list string) (row : Location) :
    gmap string LocationNode * list string :=
  match node_parent acc.1 row with
  | None => (acc.1, acc.2 ++ [ID row])
  | Some p => (alter (add_child (ID row)) p acc.1, acc.2)
  end.

(** [rollUp], with the recursion bounded by [fuel]: the total, the nodes with
    their totals set, and the visited set. *)
Fixpoint rollUp (node : string) (nodes : gmap string LocationNode) (visited : gset string) (fuel : nat) :
    Z * gmap string LocationNode * gset string :=
  match fuel with
  | O => (0%Z, nodes, visited)
  | S fuel =>
      if decide (node ∈ visited) then (0%Z, nodes, visited)
      else match nodes !! node with
      | None => (0%Z, nodes, visited)
      | Some n =>
          let step acc child :=
            let '(total, nodes, visited) := acc in
            let '(t, nodes, visited) := rollUp child nodes visited fuel in
            (wrap64 (total + t), nodes, visited) in
          let '(total, nodes, visited) :=
            foldl step (node_ItemCount n, nodes, {[node]} ∪ visited) (node_Children n) in
          (total, alter (set_total total) node nodes, visited)
      end
  end.

Definition build_tree (rows : list Location) (direct : gmap string Z) : gmap string LocationNode * list string :=
  let nodes := foldl (fun m row =>
    <[ID row := mkLocationNode row (default 0%Z (direct !! ID row)) 0 []]> m) ∅ rows in
  let '(nodes, roots) := foldl link_node (nodes, []) rows in
  (foldl (fun nodes root => (rollUp root nodes ∅ (S (length rows))).1.2) nodes roots, roots).

Definition Locations_Tree (group : string) : M (gmap string LocationNode * list string) :=
  rows ← ListLocations group;
  counts ← CountLiveItemsPerLocation group;
  mret (build_tree rows (list_to_map counts)).

(** ** Evolution *)

Lemma readonly_locationMoveCreatesCycle g m c : readonly (locationMoveCreatesCycle g m c).
Proof.
  unfold locationMoveCreatesCycle. apply readonly_bind; [eauto with evo|].
  intros edges. destruct (walk_up _ _ _ _); eauto with evo.
Qed.
Lemma readonly_want_rows a b msg : readonly (want_rows a b msg).
Proof. unfold want_rows. destruct (a =? b)%Z; eauto with evo. Qed.
#[export] Hint Resolve readonly_locationMoveCreatesCycle readonly_want_rows : evo.

Lemma evo_createLocationTx g c0 lb p : evo g c0 lb (createLocationTx g p).
Proof. unfold createLocationTx. solve_evo. Qed.
Lemma evo_updateLocationTx g c0 lb p : evo g c0 lb (updateLocationTx g p).
Proof. unfold updateLocationTx. solve_evo. Qed.
#[export] Hint Resolve evo_createLocationTx evo_updateLocationTx : evo.

Lemma method_Locations_Create g p : method g (Locations_Create g p).
Proof. solve_method. Qed.
Lemma method_Locations_Update g p : method g (Locations_Update g p).
Proof. solve_method. Qed.
Lemma method_Locations_Delete g p : method g (Locations_Delete g p).
Proof. solve_method. Qed.
