(* ===== verification/LocationTree.v ===== *)
(** * The location graph stays a forest

    The parent edges of all stored locations, tombstoned ones included, form
    an acyclic graph whose edges resolve inside their group; every operation
    of [Locations] keeps it so, and on such a graph the bounded walk of
    [locationMoveCreatesCycle] decides ancestry.

    The worklist of [locationRepository.Descendants] terminates and collects
    the live locations below the root, on any graph. *)

From stdpp Require Import relations.
From stdpp Require Import relations list_numbers.
From S2P Require Import Prelude GoBase Schema Sql Evolution Queries PushRepo Exec Locations.

(** ** Parent functions *)

Section parent_functions.
Implicit Types (p q : string -> option string).

Definition par p : relation string := fun x y => p x = Some y.

Definition acyclic p : Prop := forall x, ~ tc (par p) x x.

Lemma par_functional p x y z : par p x y -> par p x z -> y = z.
Proof. unfold par. congruence. Qed.

(** Sending all of [S] to one parent [z] below which (going up) there is
    nothing of [S] makes no cycle. *)
Lemma acyclic_redirect p q (S : string -> Prop) (z : option string) :
  (forall x, S x \/ ~ S x) ->
  (forall x, ~ S x -> q x = p x) ->
  (forall x, S x -> q x = z) ->
  (forall z' x, z = Some z' -> S x -> ~ rtc (par p) z' x) ->
  acyclic p -> acyclic q.
Proof.
  intros Sdec Hout Hin Hz Hp.
  assert (Hup : forall z' w, z = Some z' -> rtc (par q) z' w -> rtc (par p) z' w).
  { intros z' w Hz'. revert w. apply rtc_ind_r; [done|]. intros w1 w2 _ Hstep IH.
    destruct (Sdec w1) as [HS|HS]; [by destruct (Hz z' w1)|].
    eapply rtc_r; [exact IH|]. unfold par in *. by rewrite <- Hout. }
  assert (Hcases : forall a b, tc (par q) a b ->
    tc (par p) a b \/ exists c z', S c /\ z = Some z' /\ rtc (par q) a c /\ rtc (par q) z' b).
  { intros a b Hab. induction Hab as [a b Hab|a b c Hab Hbc IH].
    - destruct (Sdec a) as [HS|HS].
      + right. exists a, b. unfold par in Hab. rewrite Hin in Hab by done.
        split_and!; try done; apply rtc_refl.
      + left. apply tc_once. unfold par in *. by rewrite <- Hout.
    - destruct (Sdec a) as [HS|HS].
      + right. exists a, b. pose proof Hab as Hab'. unfold par in Hab'. rewrite Hin in Hab' by done.
        split_and!; [done|done|apply rtc_refl|by apply tc_rtc].
      + destruct IH as [IH|(c' & z' & ? & ? & ? & ?)].
        * left. eapply tc_l; [|exact IH]. unfold par in *. by rewrite <- Hout.
        * right. exists c', z'. split_and!; try done. by eapply rtc_l. }
  intros x Hx. destruct (Hcases x x Hx) as [Hc|(c & z' & HS & Hz' & Hxc & Hzx)].
  - by apply (Hp x).
  - apply (Hz z' c Hz' HS), Hup; [done|]. by etrans.
Qed.

Lemma acyclic_change p q x :
  (forall y, y <> x -> q y = p y) ->
  (forall z, q x = Some z -> ~ rtc (par p) z x) ->
  acyclic p -> acyclic q.
Proof.
  intros Hout Hx. apply (acyclic_redirect p q (fun y => y = x) (q x)).
  - intros y. destruct (decide (y = x)); auto.
  - auto.
  - by intros y ->.
  - intros z y Hz ->. auto.
Qed.

(** A chain of [n] parents visits [n] different locations. *)
Lemma chain_NoDup p n x y :
  acyclic p -> nsteps (par p) n x y ->
  exists l, length l = n /\ NoDup l /\ forall z, z ∈ l -> is_Some (p z) /\ rtc (par p) x z.
Proof.
  intros Hp. induction 1 as [x|n x y z Hxy _ (l & Hl & Hnd & Hin)].
  - exists []. split_and!; [done|constructor|set_solver].
  - exists (x :: l). split_and!; [by simpl; f_equal| |].
    + constructor; [|done]. intros Hx. destruct (Hin x Hx) as [_ Hyx].
      apply (Hp x). by eapply tc_rtc_r; [apply tc_once|].
    + intros w [->|Hw]%elem_of_cons.
      * split; [by exists y|apply rtc_refl].
      * destruct (Hin w Hw). split; [done|]. by eapply rtc_l.
Qed.
End parent_functions.

(** ** The walk *)

Section walk.
Context (m : gmap string string).
Let p (x : string) : option string := m !! x.

Lemma walk_up_true x c n : walk_up m x c n = Some true -> rtc (par p) c x.
Proof.
  revert c. induction n as [|n IH]; intros c; simpl; [done|].
  destruct (c =?s x) eqn:Ec; bool_facts; [intros _; subst; apply rtc_refl|].
  destruct (m !! c) as [c'|] eqn:E; [|done]. intros H. eapply rtc_l; [exact E|auto].
Qed.

Lemma walk_up_false x c n : walk_up m x c n = Some false -> ~ rtc (par p) c x.
Proof.
  revert c. induction n as [|n IH]; intros c; simpl; [done|].
  destruct (c =?s x) eqn:Ec; bool_facts; [done|].
  destruct (m !! c) as [c'|] eqn:E; intros H Hr;
    apply rtc_inv in Hr as [->|(c'' & Hc & Hr)]; try done; unfold par, p in Hc.
  - apply (IH c' H). congruence.
  - congruence.
Qed.

Lemma walk_up_none x c n : walk_up m x c n = None -> exists d, nsteps (par p) n c d.
Proof.
  revert c. induction n as [|n IH]; intros c; simpl; [eexists; constructor|].
  destruct (c =?s x) eqn:Ec; [done|].
  destruct (m !! c) as [c'|] eqn:E; [|done]. intros [d Hd]%IH.
  exists d. by econstructor.
Qed.

Lemma walk_up_terminates x c n : acyclic p -> size m < n -> is_Some (walk_up m x c n).
Proof.
  intros Hp Hn. destruct (walk_up m x c n) eqn:E; [done|exfalso].
  apply walk_up_none in E as [d Hd].
  destruct (chain_NoDup _ _ _ _ Hp Hd) as (l & Hl & Hnd & Hin).
  assert (Hsub : l ⊆+ elements (dom m)).
  { apply NoDup_submseteq; [done|]. intros z Hz. apply elem_of_elements, elem_of_dom.
    by destruct (Hin z Hz). }
  apply submseteq_length in Hsub. rewrite <- size_dom in Hn.
  unfold size, set_size in Hn. simpl in Hn. lia.
Qed.
End walk.

Section build_parentOf.
Implicit Types (edges : list Location).

Lemma build_parentOf_snoc edges e :
  build_parentOf (edges ++ [e]) =
  match loc_ParentID (Cols e) with
  | Some p => <[ID e := p]> (build_parentOf edges)
  | None => build_parentOf edges
  end.
Proof. unfold build_parentOf. by rewrite foldl_app. Qed.

Lemma build_parentOf_size edges : size (build_parentOf edges) <= length edges.
Proof.
  induction edges as [|e edges IH] using rev_ind; [done|].
  rewrite build_parentOf_snoc, length_app. simpl.
  destruct (loc_ParentID (Cols e)) as [q|]; [|lia].
  rewrite map_size_insert. destruct (build_parentOf edges !! ID e); simpl; lia.
Qed.

Lemma build_parentOf_lookup edges x y :
  NoDup (ID <$> edges) ->
  build_parentOf edges !! x = Some y <->
  exists e, e ∈ edges /\ ID e = x /\ loc_ParentID (Cols e) = Some y.
Proof.
  induction edges as [|e edges IH] using rev_ind.
  { intros _. unfold build_parentOf. simpl. rewrite lookup_empty. set_solver. }
  rewrite fmap_app, NoDup_app. intros (Hnd & Hdis & _). specialize (IH Hnd).
  assert (He : forall e', e' ∈ edges -> ID e' <> ID e).
  { intros e' He' Heq. apply (Hdis (ID e')); [set_solver|]. rewrite Heq. set_solver. }
  rewrite build_parentOf_snoc. setoid_rewrite elem_of_app. setoid_rewrite list_elem_of_singleton.
  destruct (loc_ParentID (Cols e)) as [q|] eqn:Eq; [|rewrite IH; naive_solver].
  destruct (decide (x = ID e)) as [->|Hx].
  - rewrite lookup_insert_eq. naive_solver.
  - rewrite lookup_insert_ne by done. rewrite IH. naive_solver.
Qed.
End build_parentOf.

(** ** The stored graph *)

Definition parent_of (t : gmap string Location) (id : string) : option string :=
  t !! id ≫= fun r => loc_ParentID (Cols r).

(** Rows are stored under their id, parents are rows of the same group, and
    following parents never returns. *)
Record loc_ok (t : gmap string Location) : Prop := mkLocOk {
  loc_keys : keyed t;
  loc_resolve : forall k r p, t !! k = Some r -> loc_ParentID (Cols r) = Some p ->
    parent_exists t (GroupID r) p = true;
  loc_acyclic : acyclic (parent_of t);
}.

Lemma loc_ok_empty : loc_ok ∅.
Proof.
  split; [intros k r; by rewrite lookup_empty ..|].
  intros x Hx. destruct Hx as [? ? Hx|? ? ? Hx]; unfold par, parent_of in Hx; by rewrite lookup_empty in Hx.
Qed.

(** ** The walk on the stored graph *)

Section stored_walk.
Context (t : gmap string Location) (Ht : loc_ok t) (g : string).
Let edges := where_ (fun r => GroupID r =?s g) t.
Let m := build_parentOf edges.

Lemma parentOf_lookup x y :
  m !! x = Some y <-> exists e, t !! x = Some e /\ GroupID e = g /\ loc_ParentID (Cols e) = Some y.
Proof.
  unfold m. rewrite build_parentOf_lookup by apply NoDup_where_ids, Ht.
  split.
  - intros (e & He & <- & ?). unfold edges in He.
    rewrite elem_of_where_keyed in He by apply Ht. destruct He as [? HP]. bool_facts. eauto.
  - intros (e & He & Hg & ?). exists e. unfold edges. rewrite elem_of_where_keyed by apply Ht.
    rewrite (loc_keys _ Ht _ _ He). split_and!; try done. by apply string_eqb_true.
Qed.

Lemma parentOf_parent_of x y : m !! x = Some y -> parent_of t x = Some y.
Proof. intros (e & He & _ & ?)%parentOf_lookup. unfold parent_of. by rewrite He. Qed.

Lemma parentOf_acyclic : acyclic (fun x => m !! x).
Proof.
  intros x Hx. apply (loc_acyclic _ Ht x).
  apply (tc_congruence (fun a => a) (R := par (fun x => m !! x))); [|done].
  intros a b. apply parentOf_parent_of.
Qed.

Lemma parentOf_rtc c x :
  parent_exists t g c = true ->
  rtc (par (fun x => m !! x)) c x <-> rtc (par (parent_of t)) c x.
Proof.
  intros Hc. split.
  - intros H. eapply rtc_subrel; [|exact H]. intros a b. apply parentOf_parent_of.
  - intros H. revert Hc. induction H as [c|c c' x Hcc' _ IH]; intros Hc; [apply rtc_refl|].
    unfold parent_exists in Hc. destruct (t !! c) as [r|] eqn:Er; [|done]. bool_facts.
    unfold par, parent_of in Hcc'. rewrite Er in Hcc'. simpl in Hcc'.
    eapply rtc_l; [|apply IH].
    + apply parentOf_lookup. eauto.
    + pose proof (loc_resolve _ Ht c r c' Er Hcc'). congruence.
Qed.
End stored_walk.

Lemma locationMoveCreatesCycle_run w g x c :
  loc_ok (locations (wdb w)) -> parent_exists (locations (wdb w)) g c = true ->
  exists b, locationMoveCreatesCycle g x c w = (Ok b, w) /\
    (b = true <-> rtc (par (parent_of (locations (wdb w)))) c x).
Proof.
  intros Ht Hc. unfold locationMoveCreatesCycle, ListLocationParentEdges, select_many.
  set (edges := where_ (fun r => GroupID r =?s g) (locations (wdb w))).
  rewrite (prog_bind_ok _ _ _ edges w) by reflexivity.
  destruct (walk_up_terminates (build_parentOf edges) x c (S (length edges))) as [b Hb].
  { by apply parentOf_acyclic. }
  { pose proof (build_parentOf_size edges). lia. }
  rewrite Hb. exists b. split; [done|].
  rewrite <- (parentOf_rtc _ Ht g c x Hc). destruct b.
  - apply walk_up_true in Hb. done.
  - apply walk_up_false in Hb. split; [done|]. intros. by destruct Hb.
Qed.

(** ** INSERT and UPDATE keep the graph a forest *)

Lemma parent_exists_insert {D} (t : gmap string (Row D)) r g id :
  t !! ID r = None -> parent_exists t g id = true -> parent_exists (<[ID r := r]> t) g id = true.
Proof.
  intros Hn. unfold parent_exists. destruct (decide (id = ID r)) as [->|]; [by rewrite Hn|].
  by rewrite lookup_insert_ne.
Qed.

Lemma parent_exists_update {D} (t : gmap string (Row D)) P f g id :
  (forall r, P r = true -> GroupID (f r) = GroupID r) ->
  parent_exists (update_where P f t) g id = parent_exists t g id.
Proof.
  intros Hf. unfold parent_exists. rewrite update_where_lookup.
  destruct (t !! id) as [r|]; simpl; [|done]. destruct (P r) eqn:HP; [|done]. by rewrite Hf.
Qed.

Lemma parent_of_insert t r x :
  parent_of (<[ID r := r]> t) x = if decide (x = ID r) then loc_ParentID (Cols r) else parent_of t x.
Proof.
  unfold parent_of. case_decide; subst; [by rewrite lookup_insert_eq|by rewrite lookup_insert_ne].
Qed.

Lemma loc_ok_insert t r :
  loc_ok t -> t !! ID r = None ->
  (forall p, loc_ParentID (Cols r) = Some p -> parent_exists t (GroupID r) p = true) ->
  loc_ok (<[ID r := r]> t).
Proof.
  intros [Hk Hres Hac] Hn Hp. split.
  - intros k r'. destruct (decide (k = ID r)) as [->|].
    + rewrite lookup_insert_eq. congruence.
    + rewrite lookup_insert_ne by done. apply Hk.
  - intros k r' p Hr' Hrp. apply parent_exists_insert; [done|].
    destruct (decide (k = ID r)) as [->|].
    + rewrite lookup_insert_eq in Hr'. naive_solver.
    + rewrite lookup_insert_ne in Hr' by done. eauto.
  - apply (acyclic_change (parent_of t) _ (ID r)); [| |done].
    + intros y Hy. rewrite parent_of_insert. by case_decide.
    + intros z Hz Hr. rewrite parent_of_insert in Hz. case_decide; [|done].
      specialize (Hp z Hz). destruct (decide (z = ID r)) as [->|Hne].
      { unfold parent_exists in Hp. by rewrite Hn in Hp. }
      apply rtc_inv_r in Hr as [->|(y & _ & Hy)]; [done|].
      unfold par, parent_of in Hy. destruct (t !! y) as [ry|] eqn:Ery; [|done]. simpl in Hy.
      pose proof (Hres y ry _ Ery Hy) as Hpe. unfold parent_exists in Hpe. by rewrite Hn in Hpe.
Qed.

Lemma parent_of_update t P f x :
  parent_of (update_where P f t) x =
  t !! x ≫= fun r => loc_ParentID (Cols (if P r then f r else r)).
Proof. unfold parent_of. rewrite update_where_lookup. by destruct (t !! x). Qed.

Lemma loc_ok_redirect t P f z :
  loc_ok t ->
  (forall r, P r = true ->
     ID (f r) = ID r /\ GroupID (f r) = GroupID r /\ loc_ParentID (Cols (f r)) = z) ->
  (forall r z', r ∈ where_ P t -> z = Some z' ->
     parent_exists t (GroupID r) z' = true /\ ~ rtc (par (parent_of t)) z' (ID r)) ->
  loc_ok (update_where P f t).
Proof.
  intros Ht Hf Hz. split.
  - intros k r. rewrite update_where_lookup. destruct (t !! k) as [r0|] eqn:E; [|done].
    simpl. intros [= <-]. pose proof (loc_keys _ Ht k r0 E).
    destruct (P r0) eqn:HP; [|done]. by destruct (Hf r0 HP) as (-> & _).
  - intros k r p. rewrite update_where_lookup. destruct (t !! k) as [r0|] eqn:E; [|done].
    simpl. intros [= <-] Hrp. rewrite parent_exists_update by (intros r HP; by apply Hf).
    destruct (P r0) eqn:HP; [|by eapply loc_resolve].
    destruct (Hf r0 HP) as (_ & -> & Hfp). apply Hz; [|congruence].
    apply elem_of_where. eauto.
  - pose (S x := exists r, r ∈ where_ P t /\ ID r = x).
    apply (acyclic_redirect (parent_of t) _ S z); [..|by apply Ht].
    + intros x. unfold S. destruct (t !! x) as [r|] eqn:E; [destruct (P r) eqn:HP|].
      * left. exists r. rewrite elem_of_where. split; [eauto|by apply (loc_keys _ Ht)].
      * right. intros (r' & [Hr' HP']%elem_of_where_keyed & <-); [congruence|apply Ht].
      * right. intros (r' & [Hr' HP']%elem_of_where_keyed & <-); [congruence|apply Ht].
    + intros x HS. rewrite parent_of_update. unfold parent_of.
      destruct (t !! x) as [r|] eqn:E; simpl; [|done]. destruct (P r) eqn:HP; [|done].
      destruct HS. exists r. rewrite elem_of_where. split; [eauto|by apply (loc_keys _ Ht)].
    + intros x (r & [Hr HP]%elem_of_where_keyed & <-); [|apply Ht].
      rewrite parent_of_update, Hr. simpl. rewrite HP. by apply Hf.
    + intros z' x -> (r & Hr & <-). by apply Hz.
Qed.

(** An UPDATE that leaves [parent_id] alone. *)
Lemma loc_ok_update_same t P f :
  loc_ok t ->
  (forall r, P r = true ->
     ID (f r) = ID r /\ GroupID (f r) = GroupID r /\ loc_ParentID (Cols (f r)) = loc_ParentID (Cols r)) ->
  loc_ok (update_where P f t).
Proof.
  intros Ht Hf. split.
  - intros k r. rewrite update_where_lookup. destruct (t !! k) as [r0|] eqn:E; [|done].
    simpl. intros [= <-]. pose proof (loc_keys _ Ht k r0 E).
    destruct (P r0) eqn:HP; [|done]. by destruct (Hf r0 HP) as (-> & _).
  - intros k r p. rewrite update_where_lookup. destruct (t !! k) as [r0|] eqn:E; [|done].
    simpl. intros [= <-] Hrp. rewrite parent_exists_update by (intros r HP; by apply Hf).
    destruct (P r0) eqn:HP; [|by eapply loc_resolve].
    destruct (Hf r0 HP) as (_ & -> & Hfp). eapply loc_resolve; [done..|congruence].
  - assert (Hp : forall x, parent_of (update_where P f t) x = parent_of t x).
    { intros x. rewrite parent_of_update. unfold parent_of.
      destruct (t !! x) as [r|]; simpl; [|done]. destruct (P r) eqn:HP; [|done]. by apply Hf. }
    intros x Hx. apply (loc_acyclic _ Ht x).
    apply (tc_congruence (fun a => a) (R := par (parent_of (update_where P f t)))); [|done].
    intros a b. unfold par. by rewrite Hp.
Qed.

(** ** The operations *)

Definition loc_inv (db : DB) : Prop := loc_ok (locations db).

Lemma parent_exists_intro {D} (t : gmap string (Row D)) (r : Row D) k g id :
  keyed t -> t !! k = Some r -> GroupID r = g -> ID r = id -> parent_exists t g id = true.
Proof.
  intros Hk Hr <- <-. unfold parent_exists. rewrite (Hk k r Hr), Hr. by apply string_eqb_true.
Qed.

Lemma nullString_Some s p : nullString s = Some p -> p = s /\ s <> "".
Proof. unfold nullString. destruct (s =?s "") eqn:E; bool_facts; naive_solver. Qed.

Lemma createLocationTx_keeps g p : keeps loc_inv (createLocationTx g p).
Proof.
  intros w Hinv. destruct (createLocationTx g p w) as [[r|e] w'] eqn:H; simpl;
    unfold createLocationTx, GetLocation, CreateLocation in H; [run_inv|run_inv_err];
    simpl in *; unfold loc_inv; simpl; try done; apply loc_ok_insert; simpl; try done.
  all: intros q [-> ?]%nullString_Some; bool_facts; try done.
  all: eapply parent_exists_intro; [apply Hinv|eassumption..].
Qed.

(** A successful cycle check: the candidate is not below the moved location. *)
Lemma locationMoveCreatesCycle_ok w g x c w' :
  locationMoveCreatesCycle g x c w = (Ok false, w') ->
  loc_inv (wdb w) -> parent_exists (locations (wdb w)) g c = true ->
  w' = w /\ ~ rtc (par (parent_of (locations (wdb w)))) c x.
Proof.
  intros H Hinv Hc. destruct (locationMoveCreatesCycle_run w g x c Hinv Hc) as (b & Hb & Hbr).
  rewrite Hb in H. injection H as -> ->. split; [done|]. intros Hr. by apply Hbr in Hr.
Qed.

Ltac use_cycle_check :=
  match goal with
  | H : locationMoveCreatesCycle _ _ _ _ = (Ok false, _) |- _ =>
      apply locationMoveCreatesCycle_ok in H as [-> H];
      [ | done | eapply parent_exists_intro; (eassumption || (eapply loc_keys; eassumption)) ]
  end.

Lemma locationMoveCreatesCycle_state g x c r w w' : locationMoveCreatesCycle g x c w = (r, w') -> w' = w.
Proof.
  unfold locationMoveCreatesCycle, mbind, prog_bind, ListLocationParentEdges, select_many.
  destruct (walk_up _ _ _ _); by intros [= _ ->].
Qed.

Lemma updateLocationTx_keeps g p : keeps loc_inv (updateLocationTx g p).
Proof.
  intros w Hinv. destruct (updateLocationTx g p w) as [[r|e] w'] eqn:H; simpl;
    unfold updateLocationTx, GetLocation, UpdateLocation in H; [run_inv|run_inv_err];
    simpl in *; bool_facts; unfold loc_inv; simpl; try use_cycle_check; try done;
    try (match goal with Hc : locationMoveCreatesCycle _ _ _ _ = _ |- _ =>
           by apply locationMoveCreatesCycle_state in Hc; subst end).
  all: apply loc_ok_redirect with (z := nullString (uloc_ParentID p));
    [done|by intros; simpl; split_and!|simpl].
  all: intros q z' [_ HP]%elem_of_where [-> ?]%nullString_Some; bool_facts; subst; try done.
  all: split; [|congruence]; eapply parent_exists_intro; [apply Hinv|eassumption|congruence|done].
Qed.

Lemma tombstone_loc_ok now seq P t : loc_ok t -> loc_ok (update_where P (tombstone now seq) t).
Proof. intros Ht. by apply loc_ok_update_same. Qed.

Lemma Locations_Delete_keeps g p w w' :
  Locations_Delete g p w = (Ok tt, w') -> loc_inv (wdb w) -> loc_inv (wdb w').
Proof.
  intros H Hinv. unfold Locations_Delete in H. apply writeTx_ok in H as [_ H].
  unfold GetLocation, CountLiveChildLocations, CountLiveItemsInLocation, ReparentLiveChildren,
    MoveLiveItemsToLocation, DeleteLocation, want_rows in H.
  run_inv; simpl in *; bool_facts; unfold loc_inv; simpl; try use_cycle_check;
    apply tombstone_loc_ok; try done.
  all: apply loc_ok_redirect with (z := nullString (dloc_ReassignTo p));
    [done|by intros; simpl; split_and!|simpl].
  all: intros q z' [Hq HP]%elem_of_where_keyed [-> Hne]%nullString_Some; [|apply Hinv].
  all: unfold child_of in HP; destruct (loc_ParentID (Cols q)) as [pq|] eqn:Epq; bool_facts; try done.
  subst. split.
  { match goal with HR : ID ?r0 = dloc_ReassignTo p |- _ =>
        eapply (parent_exists_intro _ r0); [apply Hinv|eassumption|congruence|exact HR] end. }
  intros Hr. match goal with HC : ~ rtc _ _ _ |- _ => apply HC end.
  eapply rtc_r; [exact Hr|]. unfold par, parent_of. by rewrite Hq.
Qed.

(** ** Looking a location up *)

Lemma GetLocation_hit w g id r :
  keyed (locations (wdb w)) -> locations (wdb w) !! id = Some r -> GroupID r = g -> live r = true ->
  GetLocation g id w = (Ok r, w).
Proof.
  intros Hk Hr <- Hl. pose proof (Hk _ _ Hr) as <-. unfold GetLocation.
  eapply select_one_hit; [done|exact Hr|by rewrite !string_eqb_refl|].
  intros r' HP. bool_facts. done.
Qed.

Section worklist.
Context (children : gmap string (list string)) (isLive : gmap string bool).

Definition kids (x : string) : list string := default [] (children !! x).

Definition below : relation string := fun x y => y ∈ kids x.

Definition alive (x : string) : Prop := default false (isLive !! x) = true.

(** ** Termination *)

(** The edges that may still enter the queue. *)
Definition pending (visited : gset string) : nat :=
  sum_list_with (fun kl : string * list string => if decide (kl.1 ∈ visited) then 0 else length kl.2)
    (map_to_list children).

Lemma pending_visit visited x :
  x ∉ visited -> pending ({[x]} ∪ visited) + length (kids x) = pending visited.
Proof.
  intros Hx. unfold pending, kids.
  assert (Hsame : forall l : list (string * list string), x ∉ l.*1 ->
    sum_list_with (fun kl : string * list string => if decide (kl.1 ∈ {[x]} ∪ visited) then 0 else length kl.2) l =
    sum_list_with (fun kl : string * list string => if decide (kl.1 ∈ visited) then 0 else length kl.2) l).
  { induction l as [|[k l] ls IH]; simpl; intros Hn; [done|]. rewrite IH by set_solver. f_equal.
    assert (k <> x) by set_solver.
    destruct (decide (k ∈ visited)); [rewrite decide_True by set_solver|rewrite decide_False by set_solver]; done. }
  assert (Hkeys : forall m : gmap string (list string), m !! x = None -> x ∉ (map_to_list m).*1).
  { intros m Hm ([k l] & -> & Hkl%elem_of_map_to_list)%list_elem_of_fmap. simpl in *. congruence. }
  destruct (children !! x) as [l|] eqn:E; simpl.
  - rewrite <- (insert_delete_id children x l E).
    rewrite (map_to_list_insert (delete x children)) by apply lookup_delete_eq. simpl.
    rewrite decide_True by set_solver. rewrite decide_False by done.
    rewrite Hsame; [lia|]. apply Hkeys, lookup_delete_eq.
  - rewrite Hsame; [lia|]. by apply Hkeys.
Qed.

Lemma bfs_terminates fuel visited queue out :
  length queue + pending visited <= fuel -> is_Some (bfs children isLive visited queue out fuel).
Proof.
  revert visited queue out. induction fuel as [|fuel IH]; intros visited queue out Hf;
    (destruct queue as [|x queue]; simpl in *; [by eexists|]); [lia|].
  destruct (decide (x ∈ visited)) as [|Hx]; apply IH; [lia|].
  rewrite length_app. pose proof (pending_visit visited x Hx). unfold kids in *. lia.
Qed.

(** ** Correctness *)

Record bfs_inv (root : string) (visited : gset string) (queue out : list string) : Prop := mkBfsInv {
  inv_reach : forall x, x ∈ visited \/ x ∈ queue -> rtc below root x;
  inv_closed : forall x y, x ∈ visited -> below x y -> y ∈ visited \/ y ∈ queue;
  inv_root : root ∈ visited \/ root ∈ queue;
  inv_out : forall x, x ∈ out <-> x ∈ visited /\ alive x;
  inv_NoDup : NoDup out;
}.

Lemma bfs_inv_done root visited out :
  bfs_inv root visited [] out -> NoDup out /\ forall x, x ∈ out <-> rtc below root x /\ alive x.
Proof.
  intros [Hr Hc Hroot Hout Hnd]. split; [done|]. intros x. rewrite Hout.
  assert (Hv : x ∈ visited <-> rtc below root x); [|by rewrite Hv]. split; [by auto|].
  assert (Hall : forall z, rtc below root z -> z ∈ visited).
  { apply rtc_ind_r; [set_solver|]. intros y z _ Hyz IH. destruct (Hc y z IH Hyz); set_solver. }
  apply Hall.
Qed.

Lemma bfs_inv_skip root visited x queue out :
  bfs_inv root visited (x :: queue) out -> x ∈ visited -> bfs_inv root visited queue out.
Proof. intros [Hr Hc Hroot Hout Hnd] Hx. split; try done; set_solver. Qed.

Lemma bfs_inv_visit root visited x queue out :
  bfs_inv root visited (x :: queue) out -> x ∉ visited ->
  bfs_inv root ({[x]} ∪ visited) (queue ++ kids x)
    (if default false (isLive !! x) then out ++ [x] else out).
Proof.
  intros [Hr Hc Hroot Hout Hnd] Hx.
  assert (Hxr : rtc below root x) by (apply Hr; right; by left). split.
  - intros y [Hy|Hy].
    + apply elem_of_union in Hy as [->%elem_of_singleton|Hy]; auto.
    + apply elem_of_app in Hy as [Hy|Hy]; [apply Hr; right; by right|]. by eapply rtc_r.
  - intros y z Hy Hyz. rewrite elem_of_union, elem_of_app.
    apply elem_of_union in Hy as [->%elem_of_singleton|Hy]; [auto|].
    destruct (Hc y z Hy Hyz) as [?|Hq]; [auto|].
    apply elem_of_cons in Hq as [->|?]; [left; left; by apply elem_of_singleton|auto].
  - destruct Hroot as [?|[->|?]%elem_of_cons]; [left; by apply elem_of_union_r| |right; apply elem_of_app; by left].
    left. by apply elem_of_union_l, elem_of_singleton.
  - intros y. specialize (Hout y). rewrite elem_of_union, elem_of_singleton.
    destruct (default false (isLive !! x)) eqn:E.
    + rewrite elem_of_app, list_elem_of_singleton. clear -Hout E. unfold alive in *. intuition (subst; auto).
    + assert (~ alive x) by (unfold alive; by rewrite E). clear -Hout H. intuition (subst; tauto).
  - destruct (default false _); [|done]. apply NoDup_app. split_and!; [done| |apply NoDup_singleton].
    intros y Hy ->%list_elem_of_singleton. apply Hout in Hy as [? _]. done.
Qed.

Lemma bfs_correct root fuel visited queue out res :
  bfs_inv root visited queue out -> bfs children isLive visited queue out fuel = Some res ->
  NoDup res /\ forall x, x ∈ res <-> rtc below root x /\ alive x.
Proof.
  revert visited queue out. induction fuel as [|fuel IH]; intros visited queue out Hinv;
    (destruct queue as [|x queue]; simpl; [intros [= <-]; by eapply bfs_inv_done|]); [done|].
  destruct (decide (x ∈ visited)); apply IH; [by eapply bfs_inv_skip|by apply bfs_inv_visit].
Qed.
End worklist.

(** ** The maps built from the edges *)

Lemma build_children_snoc edges e :
  build_children (edges ++ [e]) =
  match loc_ParentID (Cols e) with
  | Some p => <[p := default [] (build_children edges !! p) ++ [ID e]]> (build_children edges)
  | None => build_children edges
  end.
Proof. unfold build_children. by rewrite foldl_app. Qed.

Lemma pending_children edges : pending (build_children edges) ∅ <= length edges.
Proof.
  induction edges as [|e edges IH] using rev_ind; [done|].
  rewrite build_children_snoc, length_app. simpl.
  destruct (loc_ParentID (Cols e)) as [p|]; [|lia].
  set (m := build_children edges) in *.
  assert (Hp : forall m', pending m' ∅ = pending m' ({[p]} ∪ ∅) + length (kids m' p)).
  { intros m'. symmetry. apply pending_visit. set_solver. }
  rewrite Hp in IH |- *. unfold kids in *. rewrite lookup_insert_eq. simpl. rewrite length_app. simpl.
  assert (Heq : forall m', pending m' ({[p]} ∪ ∅) = pending (delete p m') ∅).
  { intros m'. rewrite (Hp (delete p m')). unfold kids. rewrite lookup_delete_eq. simpl.
    rewrite Nat.add_0_r. unfold pending. destruct (m' !! p) as [l|] eqn:E.
    - rewrite <- (insert_delete_id m' p l E) at 1.
      rewrite (map_to_list_insert (delete p m')) by apply lookup_delete_eq. simpl.
      by rewrite decide_True by set_solver.
    - by rewrite delete_id. }
  rewrite Heq in IH |- *. rewrite delete_insert_eq. lia.
Qed.

Lemma below_children edges x y :
  below (build_children edges) x y <-> exists e, e ∈ edges /\ ID e = y /\ loc_ParentID (Cols e) = Some x.
Proof.
  unfold below, kids. induction edges as [|e edges IH] using rev_ind.
  { unfold build_children. simpl. rewrite lookup_empty. set_solver. }
  rewrite build_children_snoc. setoid_rewrite elem_of_app. setoid_rewrite list_elem_of_singleton.
  destruct (loc_ParentID (Cols e)) as [p|] eqn:Ep; [|naive_solver].
  destruct (decide (x = p)) as [->|Hx].
  - rewrite lookup_insert_eq. simpl. rewrite elem_of_app, list_elem_of_singleton, IH. naive_solver.
  - rewrite lookup_insert_ne by done. naive_solver.
Qed.

Lemma alive_live edges x :
  NoDup (ID <$> edges) ->
  alive (build_live edges) x <-> exists e, e ∈ edges /\ ID e = x /\ live e = true.
Proof.
  intros Hnd. unfold alive, build_live. split.
  - destruct (foldl _ ∅ edges !! x) as [b|] eqn:E; simpl; [|done]. intros ->.
    apply foldl_insert_lookup in E; done.
  - intros He. by rewrite (proj2 (foldl_insert_lookup ID live edges x true Hnd) He).
Qed.

(** The whole worklist, on the edges of a group. *)
Lemma descendants_of_correct edges root :
  NoDup (ID <$> edges) ->
  exists out, descendants_of edges root = Some out /\ NoDup out /\
    forall x, x ∈ out <->
      rtc (below (build_children edges)) root x /\ exists e, e ∈ edges /\ ID e = x /\ live e = true.
Proof.
  intros Hnd. unfold descendants_of.
  destruct (bfs_terminates (build_children edges) (build_live edges) (S (length edges)) ∅ [root] []) as [out Hout].
  { pose proof (pending_children edges). simpl. lia. }
  exists out. split; [done|]. setoid_rewrite <- (alive_live edges _ Hnd).
  eapply bfs_correct; [|exact Hout]. split; [|set_solver|right; by left|set_solver|constructor].
  intros x [?|Hx]; [set_solver|]. apply list_elem_of_singleton in Hx as ->. apply rtc_refl.
Qed.
