(* ===== verification/PushFields.v ===== *)
(** * The fields of a pushed mutation

    The first part of [storage/push_commit.go]: decoding the fields of a
    mutation, the field-level merge policy, and the rule that keeps the value
    columns of a custom field together. *)

From S2P Require Import Prelude GoBase Schema Sql Evolution Queries.
From S2P Require Import PushRepo.

(** ** Mutations and outcomes *)

Definition entityConflictField : string := "_entity".

Definition IsPushStructuralError (err : GoError) : bool :=
  match err with
  | ErrPushUnknownEntityType | ErrPushUnknownField | ErrPushMissingField
  | ErrPushInvalidFieldValue | ErrPushAttachmentRejected | ErrPushCreationOnly
  | ErrPushUnknownOp | ErrPushDeleteNotSupported => true
  | _ => false
  end.

Definition PushOpUpsert : string := "upsert".
Definition PushOpDelete : string := "delete".

(** [PushOp.normalized] *)
Definition normalized (o : string) : string := if o =?s "" then PushOpUpsert else o.

Abbreviation FieldMap := (gmap string json).

Record PushMutation := mkPushMutation {
  pm_MutationID : string; pm_EntityType : string; pm_EntityID : string; pm_BaseVersion : Z;
  pm_Fields : FieldMap; pm_Now : Z; pm_Op : string }.

Definition PushMutation_validate (m : PushMutation) : res unit :=
  if pm_MutationID m =?s "" then Err ErrPushMissingField
  else if pm_EntityType m =?s "" then Err ErrPushMissingField
  else if pm_EntityID m =?s "" then Err ErrPushMissingField
  else if (pm_BaseVersion m <? 0)%Z then Err ErrPushInvalidFieldValue
  else reject (pm_Now m <=? 0)%Z "storage: PushMutation: Now must be a positive Unix-millisecond timestamp".

Record PushOutcome := mkPushOutcome {
  po_Skipped : bool; po_Applied : bool; po_EntityType : string; po_EntityID : string;
  po_Version : Z; po_ConflictFields : list string; po_FieldSnapshots : FieldMap }.

(** [PushOutcome{ConflictFields: fields}] *)
Definition outcome_conflict (fields : list string) : PushOutcome :=
  mkPushOutcome false false "" "" 0 fields ∅.

(** [PushOutcome{Applied: true, EntityID: id, Version: version}] *)
Definition outcome_created (id : string) (version : Z) : PushOutcome :=
  mkPushOutcome false true "" id version [] ∅.

(** ** Field names *)

Definition sort_strings (l : list string) : list string := merge_sort String.leb l.

Definition pushFieldNames (fields : FieldMap) : list string :=
  sort_strings ((map_to_list fields).*1).

Definition pushRequireKnownFields (fields : FieldMap) (allowed : list string) : res unit :=
  if forallb (fun name => bool_decide (name ∈ allowed)) ((map_to_list fields).*1)
  then Ok tt else Err ErrPushUnknownField.

Definition pushRequireField (fields : FieldMap) (name : string) : res unit :=
  match fields !! name with Some _ => Ok tt | None => Err ErrPushMissingField end.

(** ** Decoding: the value, and whether the field is present *)

Definition pushDecodeString (fields : FieldMap) (name : string) : res (string * bool) :=
  match fields !! name with
  | None => Ok (""%string, false)
  | Some raw => match Unmarshal_string raw with
                | Some v => Ok (v, true)
                | None => Err ErrPushInvalidFieldValue
                end
  end.

Definition pushDecodeInt64 (fields : FieldMap) (name : string) : res (Z * bool) :=
  match fields !! name with
  | None => Ok (0%Z, false)
  | Some raw => match Unmarshal_int64 raw with
                | Some v => Ok (v, true)
                | None => Err ErrPushInvalidFieldValue
                end
  end.

Definition pushDecodeBool (fields : FieldMap) (name : string) : res (bool * bool) :=
  match fields !! name with
  | None => Ok (false, false)
  | Some raw => match Unmarshal_bool raw with
                | Some v => Ok (v, true)
                | None => Err ErrPushInvalidFieldValue
                end
  end.

Definition pushDecodeNullableString (fields : FieldMap) (name : string) : res (option string * bool) :=
  match fields !! name with
  | None => Ok (None, false)
  | Some raw =>
      if json_is_null raw then Ok (None, true)
      else match Unmarshal_string raw with
           | Some v => Ok (Some v, true)
           | None => Err ErrPushInvalidFieldValue
           end
  end.

Definition pushDecodeNullableFloat64 (fields : FieldMap) (name : string) : res (option float64 * bool) :=
  match fields !! name with
  | None => Ok (None, false)
  | Some raw =>
      if json_is_null raw then Ok (None, true)
      else match Unmarshal_float64 raw with
           | Some v => Ok (Some v, true)
           | None => Err ErrPushInvalidFieldValue
           end
  end.

Definition pushDecodeNullableBool (fields : FieldMap) (name : string) : res (option bool * bool) :=
  match fields !! name with
  | None => Ok (None, false)
  | Some raw =>
      if json_is_null raw then Ok (None, true)
      else match Unmarshal_bool raw with
           | Some v => Ok (Some v, true)
           | None => Err ErrPushInvalidFieldValue
           end
  end.

(** ** Merging: the pushed value where it is allowed and present *)

Definition pushAllowAll (_ : string) : bool := true.

Definition pushAllowSet (names : list string) (name : string) : bool := bool_decide (name ∈ names).

Definition merge_decoded {A} (decode : FieldMap -> string -> res (A * bool))
    (fields : FieldMap) (name : string) (allow : string -> bool) (current : A) : res A :=
  if negb (allow name) then Ok current
  else match decode fields name with
       | Err e => Err e
       | Ok (v, present) => Ok (if present : bool then v else current)
       end.

Definition pushMergeString := merge_decoded pushDecodeString.
Definition pushMergeInt64 := merge_decoded pushDecodeInt64.
Definition pushMergeBool := merge_decoded pushDecodeBool.
Definition pushMergeNullableString := merge_decoded pushDecodeNullableString.
Definition pushMergeNullableFloat64 := merge_decoded pushDecodeNullableFloat64.
Definition pushMergeNullableBool := merge_decoded pushDecodeNullableBool.

(** ** Snapshots of the server's values

    [None] is a value [json.Marshal] refuses; its snapshot is the empty
    string, which [insertConflictTx] stores as NULL like a missing one. *)

Definition pushSnapshotServerValues (conflict : list string) (values : list (string * option json)) : FieldMap :=
  foldl (fun out name =>
    match (list_to_map values : gmap string (option json)) !! name with
    | Some (Some v) => <[name := v]> out
    | _ => out
    end) ∅ conflict.

Definition json_int (z : Z) : option json := Some (JNumber (NInt z)).
Definition json_string (s : string) : option json := Some (JString s).
Definition json_bool (b : bool) : option json := Some (JBool b).

(** [ptrFromNullString], [ptrFromNullFloat64], [ptrFromNullBool], marshalled. *)
Definition json_string_ptr (v : option string) : option json :=
  match v with None => Some JNull | Some s => Some (JString s) end.
Definition json_float_ptr (v : option float64) : option json :=
  match v with
  | None => Some JNull
  | Some f => if float64_finite f then Some (JNumber (NFloat f)) else None
  end.
Definition json_bool_ptr (v : option bool) : option json :=
  match v with None => Some JNull | Some b => Some (JBool b) end.

Definition ptrFromNullBool (v : option Z) : option bool := boolFromInt <$> v.

(** ** The merge policy *)

Definition field_version_map (tracked : list (fvKey * FieldVersion)) : gmap string Z :=
  foldl (fun m row => <[fvk_field row.1 := fv_Version row.2]> m) ∅ tracked.

(** An untracked field is as old as the row: version 1. *)
Definition field_conflicts (versions : gmap string Z) (baseVersion : Z) (name : string) : bool :=
  (baseVersion <? default 1 (versions !! name))%Z.

Definition pushFieldLevelMergePolicy (group entityType entityID : string) (baseVersion : Z)
    (fieldNames : list string) : M (list string * list string) :=
  tracked ← lookupFieldVersionsTx group entityType entityID;
  let versions := field_version_map tracked in
  mret (List.filter (field_conflicts versions baseVersion) fieldNames,
        List.filter (fun name => negb (field_conflicts versions baseVersion name)) fieldNames).

(** ** The value columns of a custom field move together *)

Definition pushCustomFieldValueUnion : list string :=
  ["field_type"; "text_value"; "number_value"; "bool_value"; "date_value"]%string.

Definition pushCustomFieldValueUnionRule (fields : FieldMap) (conflict apply : list string) :
    list string * list string :=
  let present name := bool_decide (is_Some (fields !! name)) in
  let anyPresentUnionMemberConflicts :=
    existsb (fun name => present name && bool_decide (name ∈ conflict)) pushCustomFieldValueUnion in
  if negb anyPresentUnionMemberConflicts then (conflict, apply) else
  let moveToConflict := List.filter present pushCustomFieldValueUnion in
  let newApply := List.filter (fun name => negb (bool_decide (name ∈ moveToConflict))) apply in
  let moved := List.filter (fun name => bool_decide (name ∈ moveToConflict)) apply in
  let inConflict : gset string := list_to_set conflict ∪ list_to_set moved in
  (sort_strings (elements inConflict), newApply).

(** ** The plan of an update

    The block each upsert handler runs between reading the current row and
    merging: nothing to check when the client saw the current version, else
    the policy's split of the fields, with the server's values of the
    conflicting ones.  [pl_apply = None] is [pushAllowAll]. *)

Record Plan := mkPlan {
  pl_conflict : list string; pl_apply : option (list string); pl_snapshots : FieldMap }.

Definition pl_allow (p : Plan) : string -> bool :=
  match pl_apply p with None => pushAllowAll | Some names => pushAllowSet names end.

(** [len(apply) == 0]: everything conflicts, nothing is written. *)
Definition pl_nothing (p : Plan) : bool :=
  match pl_apply p with Some [] => true | _ => false end.

Definition pushPlan (group : string) (m : PushMutation) (currentVersion : Z)
    (rule : list string -> list string -> list string * list string)
    (values : list (string * option json)) : M Plan :=
  if (currentVersion =? pm_BaseVersion m)%Z then mret (mkPlan [] None ∅) else
  '(conflict, apply) ← pushFieldLevelMergePolicy group (pm_EntityType m) (pm_EntityID m)
                         (pm_BaseVersion m) (pushFieldNames (pm_Fields m));
  let '(conflict, apply) := rule conflict apply in
  mret (mkPlan conflict (Some apply) (pushSnapshotServerValues conflict values)).

(** [PushOutcome{ConflictFields: conflict, FieldSnapshots: snapshots}] *)
Definition outcome_all_conflict (id : string) (p : Plan) : PushOutcome :=
  mkPushOutcome false false "" id 0 (pl_conflict p) (pl_snapshots p).

Definition outcome_updated (id : string) (version : Z) (p : Plan) : PushOutcome :=
  mkPushOutcome false true "" id version (pl_conflict p) (pl_snapshots p).

(** ** Errors that are conflicts *)

Definition pushClassifyEntityError (err : GoError) : option PushOutcome :=
  match err with
  | ErrNotFound => Some (outcome_conflict ["item_id"%string])
  | ErrWarrantyExists | ErrSaleExists | ErrPurchaseExists => Some (outcome_conflict [entityConflictField])
  | ErrLabelNameConflict => Some (outcome_conflict ["name"%string])
  | ErrLocationParentNotFound | ErrLocationCycle => Some (outcome_conflict ["parent_id"%string])
  | _ => None
  end.

(** [outcome.ConflictFields = append(outcome.ConflictFields, conflict...)] *)
Definition add_conflicts (o : PushOutcome) (conflict : list string) : PushOutcome :=
  mkPushOutcome (po_Skipped o) (po_Applied o) (po_EntityType o) (po_EntityID o) (po_Version o)
    (po_ConflictFields o ++ conflict) (po_FieldSnapshots o).

(** [if outcome, ok := pushClassifyEntityError(err); ok { ...; return outcome, nil };
    return PushOutcome{}, err] *)
Definition classified (err : GoError) (conflict : list string) : M PushOutcome :=
  match pushClassifyEntityError err with
  | Some outcome => mret (add_conflicts outcome conflict)
  | None => throw err
  end.

(** [SELECT 1 FROM table WHERE id = ? LIMIT 1]: no group, no deleted_at. *)
Definition pushRowExists (D : Type) `{Table D} (id : string) : M bool :=
  fun w => (Ok (bool_decide (is_Some ((tbl (wdb w) : gmap string (Row D)) !! id))), w).

Lemma readonly_pushRowExists D `{Table D} id : readonly (pushRowExists D id).
Proof. done. Qed.
Lemma readonly_pushFieldLevelMergePolicy g et eid b ns :
  readonly (pushFieldLevelMergePolicy g et eid b ns).
Proof. done. Qed.
Lemma readonly_pushPlan g m v rule values : readonly (pushPlan g m v rule values).
Proof.
  unfold pushPlan. destruct (_ =? _)%Z; [eauto with evo|].
  apply readonly_bind; [apply readonly_pushFieldLevelMergePolicy|].
  intros [c a]. destruct (rule c a). eauto with evo.
Qed.
Lemma readonly_classified e c : readonly (classified e c).
Proof. unfold classified. destruct (pushClassifyEntityError e); eauto with evo. Qed.
#[export] Hint Resolve readonly_pushRowExists readonly_pushFieldLevelMergePolicy
  readonly_pushPlan readonly_classified : evo.
