(* ===== verification/PushHandlers.v ===== *)
(** * One handler per pushed entity type

    The handlers of [storage/push_commit.go].  Each creates the row when the
    base version is 0 and otherwise merges the fields the policy allows into
    the current row. *)

From S2P Require Import Prelude GoBase Schema Sql Evolution Queries.
From S2P Require Import PushRepo Items Blocks Details Labels Locations PushFields.

Section handlers.
Context `{Entropy}.

(** [current, err := q.Get...; if errors.Is(err, sql.ErrNoRows) { return
    PushOutcome{ConflictFields: fields}, nil }; if err != nil { return err }] *)
Definition or_conflict {A} (fields : list string) (m : M A) (k : A -> M PushOutcome) : M PushOutcome :=
  r ← try m;
  match r with
  | Err e => if is_no_rows e then mret (outcome_conflict fields) else throw e
  | Ok current => k current
  end.

(** [if exists { return PushOutcome{ConflictFields: {"_entity"}}, nil }] *)
Definition unless_exists (exists_ : bool) (k : M PushOutcome) : M PushOutcome :=
  if exists_ then mret (outcome_conflict [entityConflictField]) else k.

(** The end of a create branch. *)
Definition created_or_classified {D} (r : res (Row D)) : M PushOutcome :=
  match r with
  | Err e => classified e []
  | Ok created => mret (outcome_created (ID created) (Version created))
  end.

(** The end of an update branch: classify the error, or record the fields
    that changed. *)
Definition updated_or_classified {D} (group entityType : string) (m : PushMutation) (plan : Plan)
    (diffs : D -> D -> list string) (current : Row D) (entityID : Row D -> string)
    (r : res (Row D)) : M PushOutcome :=
  match r with
  | Err e => classified e (pl_conflict plan)
  | Ok updated =>
      recordFieldVersionsTx group entityType (ID updated) (Version updated) (pm_Now m)
        (diffs (Cols current) (Cols updated));;
      mret (outcome_updated (entityID updated) (Version updated) plan)
  end.

(** [result.EntityID] is left empty; [ApplyMutation] fills in the client's. *)
Definition no_id {D} (_ : Row D) : string := "".

(** ** item *)

Definition importShortCodeAlphabet : string := "23456789ABCDEFGHJKMNPQRSTVWXYZ".
Definition importShortCodeLength : nat := 8.
Definition maxImportShortCodeAttempts : nat := 10.

Definition short_code_char (b : Z) : Ascii.ascii :=
  default Ascii.zero (String.get (Z.to_nat (b mod Z.of_nat (String.length importShortCodeAlphabet)))
                        importShortCodeAlphabet).

Definition newImportShortCode : M string :=
  raw ← draw (fun n => rand_Read n importShortCodeLength);
  match raw with
  | None => throw (ErrMessage "storage: draw a short code for import commit")
  | Some raw => mret (string_of_list_ascii (short_code_char <$> raw))
  end.

Definition pushItemFields : list string := ["name"; "description"; "location_id"; "quantity"]%string.

(** The loop over short codes: a new code as long as the drawn one is taken. *)
Fixpoint createItem_attempts (group : string) (p : string -> CreateItemParams) (attempts : nat) :
    M (option Item) :=
  match attempts with
  | O => mret None
  | S attempts =>
      code ← newImportShortCode;
      r ← try (createItemTx group (p code));
      match r with
      | Ok row => mret (Some row)
      | Err ErrShortCodeTaken => createItem_attempts group p attempts
      | Err e => throw e
      end
  end.

Definition pushItem (group : string) (m : PushMutation) : M PushOutcome :=
  let fields := pm_Fields m in
  lift (pushRequireKnownFields fields pushItemFields);;
  if (pm_BaseVersion m =? 0)%Z then
    exists_ ← pushRowExists ItemCols (pm_EntityID m);
    unless_exists exists_ (
    '(name, _) ← lift (pushDecodeString fields "name");
    '(description, _) ← lift (pushDecodeString fields "description");
    '(locationID, _) ← lift (pushDecodeString fields "location_id");
    '(quantity, _) ← lift (pushDecodeInt64 fields "quantity");
    created ← createItem_attempts group (fun code =>
      mkCreateItem (pm_EntityID m) name description locationID quantity code (pm_Now m))
      maxImportShortCodeAttempts;
    match created with
    | None => mret (outcome_conflict ["short_code"%string])
    | Some created => mret (outcome_created (ID created) (Version created))
    end)
  else
    or_conflict [entityConflictField] (GetItem group (pm_EntityID m)) (fun current =>
    let c := Cols current in
    plan ← pushPlan group m (Version current) pair
      [("name", json_string (item_Name c)); ("description", json_string (item_Description c));
       ("location_id", json_string (stringFromNull (item_LocationID c)));
       ("quantity", json_int (item_Quantity c))]%string;
    if pl_nothing plan then mret (outcome_all_conflict "" plan) else
    let allow := pl_allow plan in
    name ← lift (pushMergeString fields "name" allow (item_Name c));
    description ← lift (pushMergeString fields "description" allow (item_Description c));
    locationID ← lift (pushMergeString fields "location_id" allow (stringFromNull (item_LocationID c)));
    quantity ← lift (pushMergeInt64 fields "quantity" allow (item_Quantity c));
    updated ← try (updateItemTx group
      (mkUpdateItem (pm_EntityID m) name description locationID quantity (Version current) (pm_Now m)));
    updated_or_classified group "item" m plan diffItemFieldVersions current no_id updated).

(** ** warranty_block *)

Definition pushWarrantyCreateFields : list string :=
  ["item_id"; "holder"; "provider"; "starts_on"; "expires_on"; "is_lifetime"; "notes"]%string.
Definition pushWarrantyUpdateFields : list string := pushWarrantyCreateFields.

Definition pushWarrantyBlock (group : string) (m : PushMutation) : M PushOutcome :=
  let fields := pm_Fields m in
  if (pm_BaseVersion m =? 0)%Z then
    lift (pushRequireKnownFields fields pushWarrantyCreateFields);;
    lift (pushRequireField fields "item_id");;
    '(itemID, _) ← lift (pushDecodeString fields "item_id");
    exists_ ← pushRowExists WarrantyCols (pm_EntityID m);
    unless_exists exists_ (
    '(holder, _) ← lift (pushDecodeString fields "holder");
    '(provider, _) ← lift (pushDecodeString fields "provider");
    '(startsOn, _) ← lift (pushDecodeString fields "starts_on");
    '(expiresOn, _) ← lift (pushDecodeString fields "expires_on");
    '(isLifetime, _) ← lift (pushDecodeBool fields "is_lifetime");
    '(notes, _) ← lift (pushDecodeString fields "notes");
    created ← try (createWarrantyTx group
      (mkCreateWarrantyP (pm_EntityID m) itemID holder provider startsOn expiresOn isLifetime notes (pm_Now m)));
    created_or_classified created)
  else
    lift (pushRequireKnownFields fields pushWarrantyUpdateFields);;
    lift (pushRequireField fields "item_id");;
    '(itemID, _) ← lift (pushDecodeString fields "item_id");
    or_conflict [entityConflictField] (GetItemWarranty group itemID) (fun current =>
    let c := Cols current in
    plan ← pushPlan group m (Version current) pair
      [("holder", json_string (war_Holder c)); ("provider", json_string (war_Provider c));
       ("starts_on", json_string (stringFromNull (war_StartsOn c)));
       ("expires_on", json_string (stringFromNull (war_ExpiresOn c)));
       ("is_lifetime", json_bool (boolFromInt (war_IsLifetime c))); ("notes", json_string (war_Notes c))]%string;
    if pl_nothing plan then mret (outcome_all_conflict (ID current) plan) else
    let allow := pl_allow plan in
    holder ← lift (pushMergeString fields "holder" allow (war_Holder c));
    provider ← lift (pushMergeString fields "provider" allow (war_Provider c));
    startsOn ← lift (pushMergeString fields "starts_on" allow (stringFromNull (war_StartsOn c)));
    expiresOn ← lift (pushMergeString fields "expires_on" allow (stringFromNull (war_ExpiresOn c)));
    isLifetime ← lift (pushMergeBool fields "is_lifetime" allow (boolFromInt (war_IsLifetime c)));
    notes ← lift (pushMergeString fields "notes" allow (war_Notes c));
    updated ← try (updateWarrantyTx group
      (mkUpdateWarrantyP itemID holder provider startsOn expiresOn isLifetime notes (Version current) (pm_Now m)));
    updated_or_classified group "warranty_block" m plan diffWarrantyFieldVersions current ID updated).

(** ** sold_to_block *)

Definition pushSaleCreateFields : list string :=
  ["item_id"; "buyer_name"; "sold_on"; "sale_price_minor"; "notes"]%string.
Definition pushSaleUpdateFields : list string := pushSaleCreateFields.

Definition pushSoldToBlock (group : string) (m : PushMutation) : M PushOutcome :=
  let fields := pm_Fields m in
  if (pm_BaseVersion m =? 0)%Z then
    lift (pushRequireKnownFields fields pushSaleCreateFields);;
    lift (pushRequireField fields "item_id");;
    '(itemID, _) ← lift (pushDecodeString fields "item_id");
    exists_ ← pushRowExists SaleCols (pm_EntityID m);
    unless_exists exists_ (
    '(buyerName, _) ← lift (pushDecodeString fields "buyer_name");
    '(soldOn, _) ← lift (pushDecodeString fields "sold_on");
    '(salePriceMinor, _) ← lift (pushDecodeInt64 fields "sale_price_minor");
    '(notes, _) ← lift (pushDecodeString fields "notes");
    created ← try (createSaleTx group
      (mkCreateSaleP (pm_EntityID m) itemID buyerName soldOn salePriceMinor notes (pm_Now m)));
    created_or_classified created)
  else
    lift (pushRequireKnownFields fields pushSaleUpdateFields);;
    lift (pushRequireField fields "item_id");;
    '(itemID, _) ← lift (pushDecodeString fields "item_id");
    or_conflict [entityConflictField] (GetItemSale group itemID) (fun current =>
    let c := Cols current in
    plan ← pushPlan group m (Version current) pair
      [("buyer_name", json_string (sale_BuyerName c));
       ("sold_on", json_string (stringFromNull (sale_SoldOn c)));
       ("sale_price_minor", json_int (sale_PriceMinor c)); ("notes", json_string (sale_Notes c))]%string;
    if pl_nothing plan then mret (outcome_all_conflict (ID current) plan) else
    let allow := pl_allow plan in
    buyerName ← lift (pushMergeString fields "buyer_name" allow (sale_BuyerName c));
    soldOn ← lift (pushMergeString fields "sold_on" allow (stringFromNull (sale_SoldOn c)));
    salePriceMinor ← lift (pushMergeInt64 fields "sale_price_minor" allow (sale_PriceMinor c));
    notes ← lift (pushMergeString fields "notes" allow (sale_Notes c));
    updated ← try (updateSaleTx group
      (mkUpdateSaleP itemID buyerName soldOn salePriceMinor notes (Version current) (pm_Now m)));
    updated_or_classified group "sold_to_block" m plan diffSaleFieldVersions current ID updated).

(** ** purchased_from_block *)

Definition pushPurchaseCreateFields : list string :=
  ["item_id"; "vendor"; "purchased_on"; "purchase_price_minor"; "order_reference"; "notes"]%string.
Definition pushPurchaseUpdateFields : list string := pushPurchaseCreateFields.

Definition pushPurchasedFromBlock (group : string) (m : PushMutation) : M PushOutcome :=
  let fields := pm_Fields m in
  if (pm_BaseVersion m =? 0)%Z then
    lift (pushRequireKnownFields fields pushPurchaseCreateFields);;
    lift (pushRequireField fields "item_id");;
    '(itemID, _) ← lift (pushDecodeString fields "item_id");
    exists_ ← pushRowExists PurchaseCols (pm_EntityID m);
    unless_exists exists_ (
    '(vendor, _) ← lift (pushDecodeString fields "vendor");
    '(purchasedOn, _) ← lift (pushDecodeString fields "purchased_on");
    '(purchasePriceMinor, _) ← lift (pushDecodeInt64 fields "purchase_price_minor");
    '(orderReference, _) ← lift (pushDecodeString fields "order_reference");
    '(notes, _) ← lift (pushDecodeString fields "notes");
    created ← try (createPurchaseTx group
      (mkCreatePurchaseP (pm_EntityID m) itemID vendor purchasedOn purchasePriceMinor orderReference notes (pm_Now m)));
    created_or_classified created)
  else
    lift (pushRequireKnownFields fields pushPurchaseUpdateFields);;
    lift (pushRequireField fields "item_id");;
    '(itemID, _) ← lift (pushDecodeString fields "item_id");
    or_conflict [entityConflictField] (GetItemPurchase group itemID) (fun current =>
    let c := Cols current in
    plan ← pushPlan group m (Version current) pair
      [("vendor", json_string (pur_Vendor c));
       ("purchased_on", json_string (stringFromNull (pur_PurchasedOn c)));
       ("purchase_price_minor", json_int (pur_PriceMinor c));
       ("order_reference", json_string (pur_OrderReference c)); ("notes", json_string (pur_Notes c))]%string;
    if pl_nothing plan then mret (outcome_all_conflict (ID current) plan) else
    let allow := pl_allow plan in
    vendor ← lift (pushMergeString fields "vendor" allow (pur_Vendor c));
    purchasedOn ← lift (pushMergeString fields "purchased_on" allow (stringFromNull (pur_PurchasedOn c)));
    purchasePriceMinor ← lift (pushMergeInt64 fields "purchase_price_minor" allow (pur_PriceMinor c));
    orderReference ← lift (pushMergeString fields "order_reference" allow (pur_OrderReference c));
    notes ← lift (pushMergeString fields "notes" allow (pur_Notes c));
    updated ← try (updatePurchaseTx group
      (mkUpdatePurchaseP itemID vendor purchasedOn purchasePriceMinor orderReference notes (Version current) (pm_Now m)));
    updated_or_classified group "purchased_from_block" m plan diffPurchaseFieldVersions current ID updated).

(** ** item_identification *)

Definition pushIdentificationCreateFields : list string := ["item_id"; "kind"; "value"]%string.
Definition pushIdentificationUpdateFields : list string := ["item_id"; "kind"; "value"]%string.

Definition pushItemIdentification (group : string) (m : PushMutation) : M PushOutcome :=
  let fields := pm_Fields m in
  if (pm_BaseVersion m =? 0)%Z then
    lift (pushRequireKnownFields fields pushIdentificationCreateFields);;
    lift (pushRequireField fields "item_id");;
    '(itemID, _) ← lift (pushDecodeString fields "item_id");
    exists_ ← pushRowExists IdentificationCols (pm_EntityID m);
    unless_exists exists_ (
    '(kind, _) ← lift (pushDecodeString fields "kind");
    '(value, _) ← lift (pushDecodeString fields "value");
    created ← try (createIdentificationTx group
      (mkCreateIdentification (pm_EntityID m) itemID kind value (pm_Now m)));
    created_or_classified created)
  else
    lift (pushRequireKnownFields fields pushIdentificationUpdateFields);;
    lift (pushRequireField fields "item_id");;
    '(itemID, _) ← lift (pushDecodeString fields "item_id");
    or_conflict [entityConflictField] (GetItemIdentification group itemID (pm_EntityID m)) (fun current =>
    let c := Cols current in
    plan ← pushPlan group m (Version current) pair
      [("kind", json_string (idn_Kind c)); ("value", json_string (idn_Value c))]%string;
    if pl_nothing plan then mret (outcome_all_conflict "" plan) else
    let allow := pl_allow plan in
    kind ← lift (pushMergeString fields "kind" allow (idn_Kind c));
    value ← lift (pushMergeString fields "value" allow (idn_Value c));
    updated ← try (updateIdentificationTx group
      (mkUpdateIdentification itemID (pm_EntityID m) kind value (Version current) (pm_Now m)));
    updated_or_classified group "item_identification" m plan diffIdentificationFieldVersions current no_id updated).

(** ** item_custom_field *)

Definition pushCustomFieldCreateFields : list string :=
  ["item_id"; "field_def_id"; "name"; "field_type"; "text_value"; "number_value"; "bool_value"; "date_value"]%string.
Definition pushCustomFieldUpdateFields : list string := pushCustomFieldCreateFields.

Definition pushItemCustomField (group : string) (m : PushMutation) : M PushOutcome :=
  let fields := pm_Fields m in
  if (pm_BaseVersion m =? 0)%Z then
    lift (pushRequireKnownFields fields pushCustomFieldCreateFields);;
    lift (pushRequireField fields "item_id");;
    '(itemID, _) ← lift (pushDecodeString fields "item_id");
    exists_ ← pushRowExists CustomFieldCols (pm_EntityID m);
    unless_exists exists_ (
    '(fieldDefID, _) ← lift (pushDecodeString fields "field_def_id");
    '(name, _) ← lift (pushDecodeString fields "name");
    '(fieldType, _) ← lift (pushDecodeString fields "field_type");
    '(textValue, _) ← lift (pushDecodeNullableString fields "text_value");
    '(numberValue, _) ← lift (pushDecodeNullableFloat64 fields "number_value");
    '(boolValue, _) ← lift (pushDecodeNullableBool fields "bool_value");
    '(dateValue, _) ← lift (pushDecodeNullableString fields "date_value");
    created ← try (createItemCustomFieldTx group
      (mkCreateItemCustomField (pm_EntityID m) itemID fieldDefID name fieldType textValue numberValue
         boolValue dateValue (pm_Now m)));
    created_or_classified created)
  else
    lift (pushRequireKnownFields fields pushCustomFieldUpdateFields);;
    lift (pushRequireField fields "item_id");;
    '(itemID, _) ← lift (pushDecodeString fields "item_id");
    or_conflict [entityConflictField] (GetItemCustomField group itemID (pm_EntityID m)) (fun current =>
    let c := Cols current in
    plan ← pushPlan group m (Version current) (pushCustomFieldValueUnionRule fields)
      [("field_def_id", json_string (stringFromNull (icf_FieldDefID c))); ("name", json_string (icf_Name c));
       ("field_type", json_string (icf_FieldType c)); ("text_value", json_string_ptr (icf_TextValue c));
       ("number_value", json_float_ptr (icf_NumberValue c));
       ("bool_value", json_bool_ptr (ptrFromNullBool (icf_BoolValue c)));
       ("date_value", json_string_ptr (icf_DateValue c))]%string;
    if pl_nothing plan then mret (outcome_all_conflict "" plan) else
    let allow := pl_allow plan in
    fieldDefID ← lift (pushMergeString fields "field_def_id" allow (stringFromNull (icf_FieldDefID c)));
    name ← lift (pushMergeString fields "name" allow (icf_Name c));
    fieldType ← lift (pushMergeString fields "field_type" allow (icf_FieldType c));
    textValue ← lift (pushMergeNullableString fields "text_value" allow (icf_TextValue c));
    numberValue ← lift (pushMergeNullableFloat64 fields "number_value" allow (icf_NumberValue c));
    boolValue ← lift (pushMergeNullableBool fields "bool_value" allow (ptrFromNullBool (icf_BoolValue c)));
    dateValue ← lift (pushMergeNullableString fields "date_value" allow (icf_DateValue c));
    updated ← try (updateItemCustomFieldTx group
      (mkUpdateItemCustomField itemID (pm_EntityID m) fieldDefID name fieldType textValue numberValue
         boolValue dateValue (Version current) (pm_Now m)));
    updated_or_classified group "item_custom_field" m plan diffItemCustomFieldFieldVersions current no_id updated).

(** ** location *)

Definition pushLocationFields : list string := ["name"; "parent_id"]%string.

Definition pushLocation (group : string) (m : PushMutation) : M PushOutcome :=
  let fields := pm_Fields m in
  lift (pushRequireKnownFields fields pushLocationFields);;
  if (pm_BaseVersion m =? 0)%Z then
    exists_ ← pushRowExists LocationCols (pm_EntityID m);
    unless_exists exists_ (
    '(name, _) ← lift (pushDecodeString fields "name");
    '(parentID, _) ← lift (pushDecodeString fields "parent_id");
    created ← try (createLocationTx group (mkCreateLocation (pm_EntityID m) name parentID (pm_Now m)));
    created_or_classified created)
  else
    or_conflict [entityConflictField] (GetLocation group (pm_EntityID m)) (fun current =>
    let c := Cols current in
    plan ← pushPlan group m (Version current) pair
      [("name", json_string (loc_Name c)); ("parent_id", json_string (stringFromNull (loc_ParentID c)))]%string;
    if pl_nothing plan then mret (outcome_all_conflict "" plan) else
    let allow := pl_allow plan in
    name ← lift (pushMergeString fields "name" allow (loc_Name c));
    parentID ← lift (pushMergeString fields "parent_id" allow (stringFromNull (loc_ParentID c)));
    updated ← try (updateLocationTx group
      (mkUpdateLocation (pm_EntityID m) name parentID (Version current) (pm_Now m)));
    updated_or_classified group "location" m plan diffLocationFieldVersions current no_id updated).

(** ** label *)

Definition pushLabelFields : list string := ["name"; "color"]%string.

Definition pushLabel (group : string) (m : PushMutation) : M PushOutcome :=
  let fields := pm_Fields m in
  lift (pushRequireKnownFields fields pushLabelFields);;
  if (pm_BaseVersion m =? 0)%Z then
    exists_ ← pushRowExists LabelCols (pm_EntityID m);
    unless_exists exists_ (
    '(name, _) ← lift (pushDecodeString fields "name");
    '(color, _) ← lift (pushDecodeString fields "color");
    created ← try (createLabelTx group (mkCreateLabel (pm_EntityID m) name color (pm_Now m)));
    created_or_classified created)
  else
    or_conflict [entityConflictField] (GetLabel group (pm_EntityID m)) (fun current =>
    let c := Cols current in
    plan ← pushPlan group m (Version current) pair
      [("name", json_string (lbl_Name c)); ("color", json_string (lbl_Color c))]%string;
    if pl_nothing plan then mret (outcome_all_conflict "" plan) else
    let allow := pl_allow plan in
    name ← lift (pushMergeString fields "name" allow (lbl_Name c));
    color ← lift (pushMergeString fields "color" allow (lbl_Color c));
    updated ← try (updateLabelTx group
      (mkUpdateLabel (pm_EntityID m) name color (Version current) (pm_Now m)));
    updated_or_classified group "label" m plan diffLabelFieldVersions current no_id updated).

(** ** item_label *)

Definition pushItemLabelFields : list string := ["item_id"; "label_id"]%string.

Definition pushItemLabel (group : string) (m : PushMutation) : M PushOutcome :=
  let fields := pm_Fields m in
  if negb (pm_BaseVersion m =? 0)%Z then throw ErrPushCreationOnly else
  lift (pushRequireKnownFields fields pushItemLabelFields);;
  lift (pushRequireField fields "item_id");;
  lift (pushRequireField fields "label_id");;
  '(itemID, _) ← lift (pushDecodeString fields "item_id");
  '(labelID, _) ← lift (pushDecodeString fields "label_id");
  exists_ ← pushRowExists ItemLabelCols (pm_EntityID m);
  unless_exists exists_ (
  or_conflict ["item_id"%string] (GetItem group itemID) (fun _ =>
  or_conflict ["label_id"%string] (GetLabel group labelID) (fun _ =>
  row ← attachItemLabelTx group (mkAttachLabel (pm_EntityID m) itemID labelID (pm_Now m));
  mret (outcome_created (ID row) (Version row))))).

Definition pushItemLabelDeleteFields : list string := ["item_id"; "label_id"]%string.

Definition pushItemLabelDelete (group : string) (m : PushMutation) : M PushOutcome :=
  let fields := pm_Fields m in
  lift (pushRequireKnownFields fields pushItemLabelDeleteFields);;
  lift (pushRequireField fields "item_id");;
  lift (pushRequireField fields "label_id");;
  '(itemID, _) ← lift (pushDecodeString fields "item_id");
  '(labelID, _) ← lift (pushDecodeString fields "label_id");
  or_conflict [entityConflictField] (GetItemLabel group itemID labelID) (fun current =>
  detachItemLabelTx group itemID labelID (pm_Now m);;
  mret (outcome_created (ID current) (wrap64 (Version current + 1)))).

(** ** stock_adjustment *)

Definition pushStockAdjustmentFields : list string := ["item_id"; "delta"; "reason"; "note"]%string.

Definition pushStockAdjustment (group : string) (m : PushMutation) : M PushOutcome :=
  let fields := pm_Fields m in
  if negb (pm_BaseVersion m =? 0)%Z then throw ErrPushCreationOnly else
  lift (pushRequireKnownFields fields pushStockAdjustmentFields);;
  lift (pushRequireField fields "item_id");;
  '(itemID, _) ← lift (pushDecodeString fields "item_id");
  exists_ ← pushRowExists StockCols (pm_EntityID m);
  unless_exists exists_ (
  '(delta, _) ← lift (pushDecodeInt64 fields "delta");
  '(reason, _) ← lift (pushDecodeString fields "reason");
  '(note, _) ← lift (pushDecodeString fields "note");
  before ← try (GetItem group itemID);
  created ← try (createStockAdjustmentTx group
    (mkCreateStock (pm_EntityID m) itemID delta reason note (pm_Now m)));
  match created, before with
  | Err e, _ => classified e []
  | Ok _, Err e => throw e
  | Ok created, Ok before =>
      after ← GetItem group itemID;
      recordFieldVersionsTx group "item" (ID after) (Version after) (pm_Now m)
        (diffItemFieldVersions (Cols before) (Cols after));;
      mret (outcome_created (ID created) (Version created))
  end).

(** ** attachment *)

Definition pushAttachment (group : string) (m : PushMutation) : M PushOutcome :=
  throw ErrPushAttachmentRejected.

(** ** Dispatch *)

Definition pushEntityDispatch : list (string * (string -> PushMutation -> M PushOutcome)) :=
  [("item", pushItem);
   ("warranty_block", pushWarrantyBlock);
   ("sold_to_block", pushSoldToBlock);
   ("purchased_from_block", pushPurchasedFromBlock);
   ("item_identification", pushItemIdentification);
   ("item_custom_field", pushItemCustomField);
   ("stock_adjustment", pushStockAdjustment);
   ("location", pushLocation);
   ("label", pushLabel);
   ("item_label", pushItemLabel);
   ("attachment", pushAttachment)]%string.

Fixpoint dispatch_lookup {A} (l : list (string * A)) (entityType : string) : option A :=
  match l with
  | [] => None
  | (k, h) :: l => if k =?s entityType then Some h else dispatch_lookup l entityType
  end.

End handlers.

(** ** Evolution *)

Section evolution.
Context `{Entropy} (g : string) (c0 lb : Z).

Lemma evo_or_conflict {A} fs (m : M A) k :
  readonly m -> (forall a, evo g c0 lb (k a)) -> evo g c0 lb (or_conflict fs m k).
Proof.
  intros Hm Hk. unfold or_conflict. apply evo_bind; [by apply evo_readonly, readonly_try|].
  intros [a|e]; [apply Hk|]. destruct (is_no_rows e); solve_evo.
Qed.

Lemma evo_unless_exists b k : evo g c0 lb k -> evo g c0 lb (unless_exists b k).
Proof. unfold unless_exists. destruct b; [|done]. intros _. solve_evo. Qed.

Lemma evo_created_or_classified {D} (r : res (Row D)) : evo g c0 lb (created_or_classified r).
Proof. unfold created_or_classified. solve_evo. Qed.

Lemma evo_updated_or_classified {D} et m p (d : D -> D -> list string) c i r :
  evo g c0 lb (updated_or_classified g et m p d c i r).
Proof. unfold updated_or_classified. solve_evo. Qed.

Lemma readonly_newImportShortCode : readonly newImportShortCode.
Proof.
  unfold newImportShortCode. apply readonly_bind; [eauto with evo|]. intros [raw|]; eauto with evo.
Qed.

Lemma evo_createItem_attempts p n : evo g c0 lb (createItem_attempts g p n).
Proof.
  induction n as [|n IH]; simpl; [solve_evo|].
  apply evo_bind; [apply evo_readonly, readonly_newImportShortCode|]. intros code.
  apply evo_bind; [solve_evo|]. intros [a|e]; [solve_evo|]. destruct e; (exact IH || solve_evo).
Qed.
End evolution.

#[export] Hint Resolve evo_created_or_classified evo_updated_or_classified evo_createItem_attempts : evo.

Ltac solve_handler :=
  repeat first
    [ progress cbv zeta
    | apply evo_unless_exists
    | apply evo_or_conflict; [solve [eauto with evo]|intros ?]
    | evo_step ].

Section handlers_evo.
Context `{Entropy} (g : string) (c0 lb : Z) (m : PushMutation).

Lemma evo_pushItem : evo g c0 lb (pushItem g m).
Proof. unfold pushItem. solve_handler. Qed.
Lemma evo_pushWarrantyBlock : evo g c0 lb (pushWarrantyBlock g m).
Proof. unfold pushWarrantyBlock. solve_handler. Qed.
Lemma evo_pushSoldToBlock : evo g c0 lb (pushSoldToBlock g m).
Proof. unfold pushSoldToBlock. solve_handler. Qed.
Lemma evo_pushPurchasedFromBlock : evo g c0 lb (pushPurchasedFromBlock g m).
Proof. unfold pushPurchasedFromBlock. solve_handler. Qed.
Lemma evo_pushItemIdentification : evo g c0 lb (pushItemIdentification g m).
Proof. unfold pushItemIdentification. solve_handler. Qed.
Lemma evo_pushItemCustomField : evo g c0 lb (pushItemCustomField g m).
Proof. unfold pushItemCustomField. solve_handler. Qed.
Lemma evo_pushLocation : evo g c0 lb (pushLocation g m).
Proof. unfold pushLocation. solve_handler. Qed.
Lemma evo_pushLabel : evo g c0 lb (pushLabel g m).
Proof. unfold pushLabel. solve_handler. Qed.
Lemma evo_pushItemLabel : evo g c0 lb (pushItemLabel g m).
Proof. unfold pushItemLabel. solve_handler. Qed.
Lemma evo_pushItemLabelDelete : evo g c0 lb (pushItemLabelDelete g m).
Proof. unfold pushItemLabelDelete. solve_handler. Qed.
Lemma evo_pushStockAdjustment : evo g c0 lb (pushStockAdjustment g m).
Proof. unfold pushStockAdjustment. solve_handler. Qed.
Lemma evo_pushAttachment : evo g c0 lb (pushAttachment g m).
Proof. unfold pushAttachment. solve_handler. Qed.
End handlers_evo.

#[export] Hint Resolve evo_pushItem evo_pushWarrantyBlock evo_pushSoldToBlock
  evo_pushPurchasedFromBlock evo_pushItemIdentification evo_pushItemCustomField evo_pushLocation
  evo_pushLabel evo_pushItemLabel evo_pushItemLabelDelete evo_pushStockAdjustment
  evo_pushAttachment : evo.

Lemma dispatch_lookup_elem {A} (l : list (string * A)) et h :
  dispatch_lookup l et = Some h -> (et, h) ∈ l.
Proof.
  induction l as [|[k h'] l IH]; simpl; [done|].
  destruct (k =?s et) eqn:E; bool_facts; intros Hl.
  - injection Hl as ->. subst. set_solver.
  - apply IH in Hl. set_solver.
Qed.

Lemma evo_dispatch `{Entropy} g c0 lb et h m :
  dispatch_lookup pushEntityDispatch et = Some h -> evo g c0 lb (h g m).
Proof.
  intros Hh%dispatch_lookup_elem. unfold pushEntityDispatch in Hh.
  repeat (apply elem_of_cons in Hh as [[= -> ->]|Hh]; [solve [eauto with evo]|]). set_solver.
Qed.
