(* ===== verification/PushCommit.v ===== *)
(** * Applying a pushed mutation, and a batch of them

    [pushCommitRepository.ApplyMutation] of [storage/push_commit.go] and
    [sync.Push] of [sync/push.go]. *)

From S2P Require Import Prelude GoBase Schema Sql Evolution Queries.
From S2P Require Import PushRepo PushFields PushHandlers Exec.

Section push.
Context `{Entropy}.

(** ** ApplyMutation *)

(** [PushOutcome{Skipped: true, ...}] *)
Definition outcome_skipped (m : PushMutation) : PushOutcome :=
  mkPushOutcome true false (pm_EntityType m) (pm_EntityID m) 0 [] ∅.

(** The switch on the operation. *)
Definition push_dispatch (group : string) (m : PushMutation) : M PushOutcome :=
  let op := normalized (pm_Op m) in
  if op =?s PushOpDelete then
    if negb (pm_EntityType m =?s "item_label") then throw ErrPushDeleteNotSupported
    else pushItemLabelDelete group m
  else if op =?s PushOpUpsert then
    match dispatch_lookup pushEntityDispatch (pm_EntityType m) with
    | None => throw ErrPushUnknownEntityType
    | Some handler => handler group m
    end
  else throw ErrPushUnknownOp.

(** [result.EntityType = ...; if result.EntityID == "" { ... }] *)
Definition fill_entity (m : PushMutation) (r : PushOutcome) : PushOutcome :=
  mkPushOutcome (po_Skipped r) (po_Applied r) (pm_EntityType m)
    (if po_EntityID r =?s "" then pm_EntityID m else po_EntityID r)
    (po_Version r) (po_ConflictFields r) (po_FieldSnapshots r).

Definition new_uuid (msg : string) : M string :=
  id ← draw uuid_NewV7;
  match id with None => throw (ErrMessage msg) | Some id => mret id end.

Definition ledger_outcome (r : PushOutcome) : string :=
  if po_Applied r then "applied" else "conflict".

Definition losing_value (m : PushMutation) (name : string) : option json :=
  if name =?s entityConflictField then None else pm_Fields m !! name.

(** The ledger row, then one conflict row for every conflicting field. *)
Definition record_outcome (group : string) (m : PushMutation) (outcome : PushOutcome) : M unit :=
  ledgerID ← new_uuid "storage: push: mint ledger row id";
  _ ← insertMutationLedgerEntryTx group ledgerID (pm_MutationID m) (pm_EntityType m)
        (po_EntityID outcome) (ledger_outcome outcome) (pm_Now m);
  for_each (po_ConflictFields outcome) (fun name =>
    conflictID ← new_uuid "storage: push: mint conflict row id";
    _ ← insertConflictTx group conflictID (pm_EntityType m) (po_EntityID outcome) name
          (po_FieldSnapshots outcome !! name) (losing_value m name) (pm_Now m) ledgerID (pm_Now m);
    mret tt).

Definition apply_body (group : string) (m : PushMutation) : M PushOutcome :=
  seen ← try (lookupMutationLedgerEntryTx group (pm_MutationID m));
  match seen with
  | Ok _ => mret (outcome_skipped m)
  | Err ErrNotFound =>
      result ← push_dispatch group m;
      let outcome := fill_entity m result in
      record_outcome group m outcome;;
      mret outcome
  | Err e => throw e
  end.

Definition ApplyMutation (group : string) (m : PushMutation) : M PushOutcome :=
  lift (PushMutation_validate m);;
  Tx (apply_body group m).

(** [GetGroup]: a live group. *)
Definition GetGroup (group : string) : M Group := fun w =>
  match groups (wdb w) !! group with
  | Some G => match grp_DeletedAt G with None => (Ok G, w) | Some _ => (Err ErrNoRows, w) end
  | None => (Err ErrNoRows, w)
  end.

Definition Watermark (group : string) : M Z :=
  row ← GetGroup group; mret (grp_ChangeSeqCounter row).

(** ** Batches *)

(** [sync.PushMutation], without [Now], which is the batch's. *)
Record BatchMutation := mkBatchMutation {
  bm_MutationID : string; bm_EntityType : string; bm_EntityID : string; bm_BaseVersion : Z;
  bm_Fields : FieldMap; bm_Op : string }.

Record PushBatch := mkPushBatch { pb_Mutations : list BatchMutation; pb_Now : Z }.

Definition to_mutation (now : Z) (b : BatchMutation) : PushMutation :=
  mkPushMutation (bm_MutationID b) (bm_EntityType b) (bm_EntityID b) (bm_BaseVersion b)
    (bm_Fields b) now (bm_Op b).

Record PushAppliedEntry := mkPushApplied {
  pa_MutationID : string; pa_EntityType : string; pa_EntityID : string; pa_Version : Z }.
Record PushConflictEntry := mkPushConflict {
  pc_MutationID : string; pc_EntityType : string; pc_EntityID : string; pc_FieldName : string }.
Record PushResult := mkPushResult {
  pr_Applied : list PushAppliedEntry; pr_Skipped : list string;
  pr_Conflicts : list PushConflictEntry; pr_NewWatermark : Z }.

Definition add_outcome (r : PushResult) (mutationID : string) (o : PushOutcome) : PushResult :=
  if po_Skipped o then
    mkPushResult (pr_Applied r) (pr_Skipped r ++ [mutationID]) (pr_Conflicts r) (pr_NewWatermark r)
  else
    mkPushResult
      (pr_Applied r ++ (if po_Applied o
        then [mkPushApplied mutationID (po_EntityType o) (po_EntityID o) (po_Version o)] else []))
      (pr_Skipped r)
      (pr_Conflicts r ++ (mkPushConflict mutationID (po_EntityType o) (po_EntityID o) <$> po_ConflictFields o))
      (pr_NewWatermark r).

(** The loop over [batch.Mutations].  Each mutation is its own transaction:
    the ones before a failing one stay applied.  (The index that
    [PushMutationError] adds to a structural error is not kept.) *)
Fixpoint push_loop (group : string) (now : Z) (ms : list BatchMutation) (result : PushResult) : M PushResult :=
  match ms with
  | [] => mret result
  | b :: ms =>
      outcome ← ApplyMutation group (to_mutation now b);
      push_loop group now ms (add_outcome result (bm_MutationID b) outcome)
  end.

Definition Push (group : string) (batch : PushBatch) : M PushResult :=
  result ← push_loop group (pb_Now batch) (pb_Mutations batch) (mkPushResult [] [] [] 0);
  watermark ← Watermark group;
  mret (mkPushResult (pr_Applied result) (pr_Skipped result) (pr_Conflicts result) watermark).

End push.

(** ** Evolution *)

Section evolution.
Context `{Entropy} (g : string).

Lemma readonly_new_uuid msg : readonly (new_uuid msg).
Proof. unfold new_uuid. apply readonly_bind; [eauto with evo|]. intros []; eauto with evo. Qed.
#[local] Hint Resolve readonly_new_uuid : evo.

Lemma evo_push_dispatch c0 lb m : evo g c0 lb (push_dispatch g m).
Proof.
  unfold push_dispatch. cbv zeta. repeat case_match; solve_evo. by eapply evo_dispatch.
Qed.
#[local] Hint Resolve evo_push_dispatch : evo.

Lemma evo_record_outcome c0 lb m o : evo g c0 lb (record_outcome g m o).
Proof. unfold record_outcome. solve_evo. Qed.
#[local] Hint Resolve evo_record_outcome : evo.

Lemma evo_apply_body c0 lb m : evo g c0 lb (apply_body g m).
Proof.
  unfold apply_body. apply evo_bind; [solve_evo|]. intros [|e]; [solve_evo|].
  destruct e; solve_evo.
Qed.

Lemma method_ApplyMutation m : method g (ApplyMutation g m).
Proof.
  intros w. unfold ApplyMutation, lift, mbind, prog_bind.
  destruct (PushMutation_validate m); [|reflexivity]. apply evo_Tx. intros c. apply evo_apply_body.
Qed.
End evolution.

#[export] Hint Resolve readonly_new_uuid evo_push_dispatch evo_record_outcome evo_apply_body : evo.
