(* ===== verification/Accounts.v ===== *)
(** * Accounts: users, sessions, device tokens, invites, visibility

    [storage/register.go], [storage/register_new_group.go],
    [storage/login.go], [storage/devicetoken.go],
    [storage/devicetoken_admin.go], [storage/session_admin.go],
    [storage/invites.go], [storage/invites_admin.go],
    [storage/invite_redeem.go], [storage/resetpassword.go],
    [storage/members.go] and [storage/group_visibility.go], with the queries
    they run.  Unlike the repositories, most of these functions are not bound
    to a group: the group is an argument, or comes from the row that a token
    or a user name finds. *)

From S2P Require Import Prelude GoBase Schema Sql Evolution Queries.
From S2P Require Import PushRepo PushFields PushHandlers PushCommit Exec.

(** ** groups.sql *)

Definition new_group (name : string) (now : Z) : Group :=
  mkGroup name "EUR" 0 0 now now 1 None 0 0 0 0 0.

Definition CreateGroup (id name : string) (now : Z) : M unit := fun w =>
  match groups (wdb w) !! id with
  | Some _ => (Err (ErrSQLite SQLITE_CONSTRAINT_PRIMARYKEY), w)
  | None => (Ok tt, mkWorld (set_groups (<[id := new_group name now]> (groups (wdb w))) (wdb w)) (draws w))
  end.

(** [INSERT ... WHERE NOT EXISTS (SELECT 1 FROM groups)] *)
Definition CreateGroupIfNone (id name : string) (now : Z) : M Z := fun w =>
  if decide (groups (wdb w) = ∅)
  then (Ok 1%Z, mkWorld (set_groups (<[id := new_group name now]> (groups (wdb w))) (wdb w)) (draws w))
  else (Ok 0%Z, w).

Definition CountGroups : M Z := fun w => (Ok (Z.of_nat (size (groups (wdb w)))), w).

Definition GetGroupVisibility (group : string) : M Group := GetGroup group.

Definition set_visibility (G : Group) (warranty sale purchase now seq : Z) : Group :=
  mkGroup (grp_Name G) (grp_CurrencyCode G) (grp_RegistrationEnabled G) (grp_ChangeSeqCounter G)
    (grp_CreatedAt G) now (grp_Version G + 1) (grp_DeletedAt G) seq warranty sale purchase
    (grp_TombstoneLowWatermark G).

Definition UpdateGroupVisibility (warranty sale purchase now seq : Z) (group : string) (expected_version : Z) :
    M Z := fun w =>
  match groups (wdb w) !! group with
  | Some G =>
      match grp_DeletedAt G with
      | None =>
          if (grp_Version G =? expected_version)%Z then
            if bool01 warranty && bool01 sale && bool01 purchase then
              (Ok 1%Z, mkWorld (set_groups (<[group := set_visibility G warranty sale purchase now seq]>
                                              (groups (wdb w))) (wdb w)) (draws w))
            else (Err (ErrSQLite SQLITE_CONSTRAINT_CHECK), w)
          else (Ok 0%Z, w)
      | Some _ => (Ok 0%Z, w)
      end
  | None => (Ok 0%Z, w)
  end.

(** ** users.sql *)

Definition CreateUser (id group username password_hash role : string) (now change_seq : Z) : M unit :=
  insert_row (newRow id group now change_seq (mkUser username password_hash role)).

Definition GetUserForLogin (username : string) : M User :=
  select_one (fun u : User => (nocase (usr_Username (Cols u)) =?s nocase username) && live u).

Definition UpdateUserPasswordHash (password_hash : string) (now change_seq : Z) (group id : string) : M Z :=
  update_rows (fun u => (GroupID u =?s group) && (ID u =?s id) && live u)
    (touch now change_seq (fun u => mkUser (usr_Username u) password_hash (usr_Role u))).

(** ** sessions.sql *)

Definition CreateSession_row (id group user_id token_hash : string) (expires_at : Z)
    (user_agent created_from_ip : string) (now change_seq : Z) : M unit :=
  insert_row (newRow id group now change_seq
                (mkSession user_id token_hash expires_at None user_agent created_from_ip)).

(** The JOIN with users: both rows. *)
Definition GetSessionForAuth (token_hash : string) : M (Session * User) :=
  s ← select_one (fun s : Session => (ses_TokenHash (Cols s) =?s token_hash) && live s);
  u ← select_one (fun u : User => (GroupID u =?s GroupID s) && (ID u =?s ses_UserID (Cols s)) && live u);
  mret (s, u).

Definition GetSessionForRevoke (group user_id id : string) : M Session :=
  select_one (fun s : Session =>
    (GroupID s =?s group) && (ses_UserID (Cols s) =?s user_id) && (ID s =?s id) && live s).

Definition is_null (x : option Z) : bool := match x with None => true | Some _ => false end.

Definition revoke_session (now : Z) (s : SessionCols) : SessionCols :=
  mkSession (ses_UserID s) (ses_TokenHash s) (ses_ExpiresAt s) (Some now) (ses_UserAgent s) (ses_CreatedFromIp s).

Definition RevokeAllSessionsForUser (now change_seq : Z) (group user_id : string) : M Z :=
  update_rows (fun s => (GroupID s =?s group) && (ses_UserID (Cols s) =?s user_id)
                        && is_null (ses_RevokedAt (Cols s)) && live s)
    (touch now change_seq (revoke_session now)).

Definition RevokeSession_row (now change_seq : Z) (group user_id id : string) : M Z :=
  update_rows (fun s => (GroupID s =?s group) && (ses_UserID (Cols s) =?s user_id) && (ID s =?s id)
                        && is_null (ses_RevokedAt (Cols s)) && live s)
    (touch now change_seq (revoke_session now)).

Definition RevokeSessionByTokenHash (now change_seq : Z) (group user_id token_hash : string) : M Z :=
  update_rows (fun s => (GroupID s =?s group) && (ses_UserID (Cols s) =?s user_id)
                        && (ses_TokenHash (Cols s) =?s token_hash)
                        && is_null (ses_RevokedAt (Cols s)) && live s)
    (touch now change_seq (revoke_session now)).

(** ** device_tokens.sql *)

Definition CreateDeviceToken_row (id group user_id token_hash device_label : string) (now change_seq : Z) : M unit :=
  insert_row (newRow id group now change_seq (mkDeviceToken user_id token_hash device_label None)).

Definition GetDeviceTokenForAuth (token_hash : string) : M (DeviceToken * User) :=
  d ← select_one (fun d : DeviceToken => (dev_TokenHash (Cols d) =?s token_hash) && live d);
  u ← select_one (fun u : User => (GroupID u =?s GroupID d) && (ID u =?s dev_UserID (Cols d)) && live u);
  mret (d, u).

Definition GetDeviceTokenForRevoke (group user_id id : string) : M DeviceToken :=
  select_one (fun d : DeviceToken =>
    (GroupID d =?s group) && (dev_UserID (Cols d) =?s user_id) && (ID d =?s id) && live d).

Definition revoke_device_token (now : Z) (d : DeviceTokenCols) : DeviceTokenCols :=
  mkDeviceToken (dev_UserID d) (dev_TokenHash d) (dev_DeviceLabel d) (Some now).

Definition RevokeAllDeviceTokensForUser (now change_seq : Z) (group user_id : string) : M Z :=
  update_rows (fun d => (GroupID d =?s group) && (dev_UserID (Cols d) =?s user_id)
                        && is_null (dev_RevokedAt (Cols d)) && live d)
    (touch now change_seq (revoke_device_token now)).

Definition RevokeDeviceToken_row (now change_seq : Z) (group user_id id : string) : M Z :=
  update_rows (fun d => (GroupID d =?s group) && (dev_UserID (Cols d) =?s user_id) && (ID d =?s id)
                        && is_null (dev_RevokedAt (Cols d)) && live d)
    (touch now change_seq (revoke_device_token now)).

(** ** invites.sql *)

Definition CreateInvite_row (id group token_hash created_by_user_id : string) (expires_at now change_seq : Z) : M unit :=
  insert_row (newRow id group now change_seq (mkInvite token_hash created_by_user_id expires_at None None)).

Definition GetInviteForRedeem (token_hash : string) : M Invite :=
  select_one (fun i : Invite => (inv_TokenHash (Cols i) =?s token_hash) && live i).

Definition GetInviteForRevoke (group id : string) : M Invite :=
  select_one (fun i : Invite => (GroupID i =?s group) && (ID i =?s id) && live i).

Definition redeem_invite (now : Z) (user_id : string) (i : InviteCols) : InviteCols :=
  mkInvite (inv_TokenHash i) (inv_CreatedByUserID i) (inv_ExpiresAt i) (Some now) (Some user_id).

Definition MarkInviteRedeemed (now : Z) (user_id : string) (change_seq : Z) (group token_hash : string) : M Z :=
  update_rows (fun i => (GroupID i =?s group) && (inv_TokenHash (Cols i) =?s token_hash) && live i
                        && is_null (inv_RedeemedAt (Cols i)) && (now <? inv_ExpiresAt (Cols i))%Z)
    (touch now change_seq (redeem_invite now user_id)).

Definition expire_invite (now : Z) (i : InviteCols) : InviteCols :=
  mkInvite (inv_TokenHash i) (inv_CreatedByUserID i) now (inv_RedeemedAt i) (inv_RedeemedByUserID i).

Definition RevokeInvite_row (now change_seq : Z) (group id : string) : M Z :=
  update_rows (fun i => (GroupID i =?s group) && (ID i =?s id) && is_null (inv_RedeemedAt (Cols i))
                        && (now <? inv_ExpiresAt (Cols i))%Z && live i)
    (touch now change_seq (expire_invite now)).

(** ** Group visibility *)

Record UpdateGroupVisibilityParams := mkUpdateGroupVisibility {
  ugv_WarrantyVisible : bool; ugv_SaleVisible : bool; ugv_PurchaseVisible : bool;
  ugv_ExpectedVersion : Z; ugv_Now : Z }.

Definition UpdateGroupVisibilityParams_validate (p : UpdateGroupVisibilityParams) : res unit :=
  reject (ugv_ExpectedVersion p <=? 0)%Z "storage: UpdateGroupVisibilityParams: ExpectedVersion must be positive";;
  reject (ugv_Now p <=? 0)%Z "storage: UpdateGroupVisibilityParams: Now must be a positive Unix-millisecond timestamp".

Definition GroupVisibility_Get (group : string) : M Group :=
  no_rows_as ErrNotFound (GetGroupVisibility group).

Definition GroupVisibility_Update (group : string) (p : UpdateGroupVisibilityParams) : M Group :=
  writeTx (UpdateGroupVisibilityParams_validate p) (
    current ← no_rows_as ErrNotFound (GetGroupVisibility group);
    if negb (grp_Version current =? ugv_ExpectedVersion p)%Z then throw ErrVersionMismatch else
    seq ← AllocChangeSeq group;
    rows ← UpdateGroupVisibility (boolToInt (ugv_WarrantyVisible p)) (boolToInt (ugv_SaleVisible p))
             (boolToInt (ugv_PurchaseVisible p)) (ugv_Now p) seq group (ugv_ExpectedVersion p);
    want_one_row rows "storage: update group visibility: matched rows, want 1";;
    GetGroupVisibility group).

(** ** Registration *)

Definition HasAnyGroup : M bool := count ← CountGroups; mret (0 <? count)%Z.

Definition role_Owner : string := "owner".
Definition role_Member : string := "member".

Record FirstUserParams := mkFirstUser {
  fu_GroupID : string; fu_GroupName : string; fu_UserID : string; fu_Username : string;
  fu_PasswordHash : string; fu_Now : Z }.

Definition FirstUserParams_validate (p : FirstUserParams) : res unit :=
  reject (fu_GroupID p =?s "") "storage: RegisterFirstUser: GroupID is empty";;
  reject (fu_GroupName p =?s "") "storage: RegisterFirstUser: GroupName is empty";;
  reject (fu_UserID p =?s "") "storage: RegisterFirstUser: UserID is empty";;
  reject (fu_Username p =?s "") "storage: RegisterFirstUser: Username is empty";;
  reject (fu_PasswordHash p =?s "") "storage: RegisterFirstUser: PasswordHash is empty";;
  reject (fu_Now p <=? 0)%Z "storage: RegisterFirstUser: Now must be a positive Unix-millisecond timestamp".

Definition RegisterFirstUser (p : FirstUserParams) : M unit :=
  writeTx (FirstUserParams_validate p) (
    rows ← CreateGroupIfNone (fu_GroupID p) (fu_GroupName p) (fu_Now p);
    if (rows =? 0)%Z then throw ErrRegistrationClosed else
    seq ← AllocChangeSeq (fu_GroupID p);
    CreateUser (fu_UserID p) (fu_GroupID p) (fu_Username p) (fu_PasswordHash p) role_Owner (fu_Now p) seq).

Definition RegisterNewGroup (p : FirstUserParams) : M unit :=
  writeTx (FirstUserParams_validate p) (
    CreateGroup (fu_GroupID p) (fu_GroupName p) (fu_Now p);;
    seq ← AllocChangeSeq (fu_GroupID p);
    CreateUser (fu_UserID p) (fu_GroupID p) (fu_Username p) (fu_PasswordHash p) role_Owner (fu_Now p) seq).

(** ** Login *)

Definition UserForLogin (username : string) : M User :=
  no_rows_as ErrUserNotFound (GetUserForLogin username).

Definition RehashPassword (groupID userID newHash : string) (now : Z) : M unit :=
  writeTx (reject ((groupID =?s "") || (userID =?s "") || (newHash =?s ""))
             "storage: RehashPassword needs a non-empty groupID, userID and newHash") (
    seq ← AllocChangeSeq groupID;
    rows ← UpdateUserPasswordHash newHash now seq groupID userID;
    if (rows =? 0)%Z then throw ErrUserNotFound else mret tt).

Record SessionParams := mkSessionParams {
  sp_ID : string; sp_GroupID : string; sp_UserID : string; sp_TokenHash : string; sp_ExpiresAt : Z;
  sp_UserAgent : string; sp_CreatedFromIP : string; sp_Now : Z }.

Definition SessionParams_validate (p : SessionParams) : res unit :=
  reject (sp_ID p =?s "") "storage: SessionParams: ID is empty";;
  reject (sp_GroupID p =?s "") "storage: SessionParams: GroupID is empty";;
  reject (sp_UserID p =?s "") "storage: SessionParams: UserID is empty";;
  reject (sp_TokenHash p =?s "") "storage: SessionParams: TokenHash is empty";;
  reject (sp_ExpiresAt p <=? 0)%Z "storage: SessionParams: ExpiresAt must be a positive Unix-millisecond timestamp";;
  reject (sp_Now p <=? 0)%Z "storage: SessionParams: Now must be a positive Unix-millisecond timestamp".

Definition CreateSession (p : SessionParams) : M unit :=
  writeTx (SessionParams_validate p) (
    seq ← AllocChangeSeq (sp_GroupID p);
    CreateSession_row (sp_ID p) (sp_GroupID p) (sp_UserID p) (sp_TokenHash p) (sp_ExpiresAt p)
      (sp_UserAgent p) (sp_CreatedFromIP p) (sp_Now p) seq).

(** What a credential stands for; a device token has no expiry. *)
Record Auth := mkAuth {
  auth_GroupID : string; auth_UserID : string; auth_Role : string;
  auth_ExpiresAtUnixMilli : Z; auth_Revoked : bool }.

Definition SessionAuth (tokenHash : string) : M Auth :=
  row ← no_rows_as ErrSessionNotFound (GetSessionForAuth tokenHash);
  let '(s, u) := row in
  mret (mkAuth (GroupID s) (ses_UserID (Cols s)) (usr_Role (Cols u)) (ses_ExpiresAt (Cols s))
          (negb (is_null (ses_RevokedAt (Cols s))))).

(** ** Sessions of a user *)

Definition revoke_validate (group user id msg1 msg2 : string) (now : Z) : res unit :=
  reject ((group =?s "") || (user =?s "") || (id =?s "")) msg1;;
  reject (now <=? 0)%Z msg2.

Definition RevokeSession (groupID userID sessionID : string) (now : Z) : M unit :=
  writeTx (revoke_validate groupID userID sessionID
             "storage: RevokeSession needs a non-empty groupID, userID and sessionID"
             "storage: RevokeSession needs a positive Unix-millisecond now" now) (
    s ← no_rows_as ErrNotFound (GetSessionForRevoke groupID userID sessionID);
    if negb (is_null (ses_RevokedAt (Cols s))) then mret tt else
    seq ← AllocChangeSeq groupID;
    _ ← RevokeSession_row now seq groupID userID sessionID;
    mret tt).

Definition RevokeCallingSession (groupID userID tokenHash : string) (now : Z) : M unit :=
  writeTx (revoke_validate groupID userID tokenHash
             "storage: RevokeCallingSession needs a non-empty groupID, userID and tokenHash"
             "storage: RevokeCallingSession needs a positive Unix-millisecond now" now) (
    seq ← AllocChangeSeq groupID;
    _ ← RevokeSessionByTokenHash now seq groupID userID tokenHash;
    mret tt).

(** ** Device tokens *)

Record DeviceTokenParams := mkDeviceTokenParams {
  dt_ID : string; dt_GroupID : string; dt_UserID : string; dt_TokenHash : string;
  dt_DeviceLabel : string; dt_Now : Z }.

Definition DeviceTokenParams_validate (p : DeviceTokenParams) : res unit :=
  reject (dt_ID p =?s "") "storage: DeviceTokenParams: ID is empty";;
  reject (dt_GroupID p =?s "") "storage: DeviceTokenParams: GroupID is empty";;
  reject (dt_UserID p =?s "") "storage: DeviceTokenParams: UserID is empty";;
  reject (dt_TokenHash p =?s "") "storage: DeviceTokenParams: TokenHash is empty";;
  reject (dt_DeviceLabel p =?s "") "storage: DeviceTokenParams: DeviceLabel is empty";;
  reject (dt_Now p <=? 0)%Z "storage: DeviceTokenParams: Now must be a positive Unix-millisecond timestamp".

Definition CreateDeviceToken (p : DeviceTokenParams) : M unit :=
  writeTx (DeviceTokenParams_validate p) (
    seq ← AllocChangeSeq (dt_GroupID p);
    CreateDeviceToken_row (dt_ID p) (dt_GroupID p) (dt_UserID p) (dt_TokenHash p) (dt_DeviceLabel p)
      (dt_Now p) seq).

Definition DeviceTokenAuth (tokenHash : string) : M Auth :=
  row ← no_rows_as ErrDeviceTokenNotFound (GetDeviceTokenForAuth tokenHash);
  let '(d, u) := row in
  mret (mkAuth (GroupID d) (dev_UserID (Cols d)) (usr_Role (Cols u)) 0
          (negb (is_null (dev_RevokedAt (Cols d))))).

Definition RevokeDeviceToken (groupID userID deviceTokenID : string) (now : Z) : M unit :=
  writeTx (revoke_validate groupID userID deviceTokenID
             "storage: RevokeDeviceToken needs a non-empty groupID, userID and deviceTokenID"
             "storage: RevokeDeviceToken needs a positive Unix-millisecond now" now) (
    d ← no_rows_as ErrNotFound (GetDeviceTokenForRevoke groupID userID deviceTokenID);
    if negb (is_null (dev_RevokedAt (Cols d))) then mret tt else
    seq ← AllocChangeSeq groupID;
    _ ← RevokeDeviceToken_row now seq groupID userID deviceTokenID;
    mret tt).

(** ** Invites *)

Record InviteParams := mkInviteParams {
  ip_ID : string; ip_GroupID : string; ip_CreatedByUserID : string; ip_TokenHash : string;
  ip_ExpiresAt : Z; ip_Now : Z }.

Definition InviteParams_validate (p : InviteParams) : res unit :=
  reject (ip_ID p =?s "") "storage: InviteParams: ID is empty";;
  reject (ip_GroupID p =?s "") "storage: InviteParams: GroupID is empty";;
  reject (ip_CreatedByUserID p =?s "") "storage: InviteParams: CreatedByUserID is empty";;
  reject (ip_TokenHash p =?s "") "storage: InviteParams: TokenHash is empty";;
  reject (ip_ExpiresAt p <=? 0)%Z "storage: InviteParams: ExpiresAt must be a positive Unix-millisecond timestamp";;
  reject (ip_Now p <=? 0)%Z "storage: InviteParams: Now must be a positive Unix-millisecond timestamp";;
  reject (ip_ExpiresAt p <=? ip_Now p)%Z "storage: InviteParams: ExpiresAt must be after Now".

Definition CreateInvite (p : InviteParams) : M unit :=
  writeTx (InviteParams_validate p) (
    seq ← AllocChangeSeq (ip_GroupID p);
    CreateInvite_row (ip_ID p) (ip_GroupID p) (ip_TokenHash p) (ip_CreatedByUserID p) (ip_ExpiresAt p)
      (ip_Now p) seq).

Definition RevokeInvite (groupID inviteID : string) (now : Z) : M unit :=
  writeTx (reject ((groupID =?s "") || (inviteID =?s ""))
             "storage: RevokeInvite needs a non-empty groupID and inviteID";;
           reject (now <=? 0)%Z "storage: RevokeInvite needs a positive Unix-millisecond now") (
    current ← no_rows_as ErrNotFound (GetInviteForRevoke groupID inviteID);
    if negb (is_null (inv_RedeemedAt (Cols current))) then mret tt else
    if (inv_ExpiresAt (Cols current) <=? now)%Z then mret tt else
    seq ← AllocChangeSeq groupID;
    _ ← RevokeInvite_row now seq groupID inviteID;
    mret tt).

Definition InviteRedeemable (tokenHash : string) (now : Z) : M bool :=
  lift (reject (tokenHash =?s "") "storage: InviteRedeemable needs a non-empty tokenHash");;
  lift (reject (now <=? 0)%Z "storage: InviteRedeemable needs a positive Unix-millisecond now");;
  row ← try (GetInviteForRedeem tokenHash);
  match row with
  | Err e => if is_no_rows e then mret false else throw e
  | Ok i => mret (is_null (inv_RedeemedAt (Cols i)) && (now <? inv_ExpiresAt (Cols i))%Z)
  end.

Record RedeemInviteParams := mkRedeemInvite {
  ri_TokenHash : string; ri_UserID : string; ri_Username : string; ri_PasswordHash : string; ri_Now : Z }.

Definition RedeemInviteParams_validate (p : RedeemInviteParams) : res unit :=
  reject (ri_TokenHash p =?s "") "storage: RedeemInviteParams: TokenHash is empty";;
  reject (ri_UserID p =?s "") "storage: RedeemInviteParams: UserID is empty";;
  reject (ri_Username p =?s "") "storage: RedeemInviteParams: Username is empty";;
  reject (ri_PasswordHash p =?s "") "storage: RedeemInviteParams: PasswordHash is empty";;
  reject (ri_Now p <=? 0)%Z "storage: RedeemInviteParams: Now must be a positive Unix-millisecond timestamp".

Record RedeemedInvite := mkRedeemed { rd_GroupID : string; rd_UserID : string; rd_Username : string }.

(** What happens in the invite's group once the invite has been found. *)
Definition redeem_in (group : string) (p : RedeemInviteParams) : M RedeemedInvite :=
  seq ← AllocChangeSeq group;
  r ← try (CreateUser (ri_UserID p) group (ri_Username p) (ri_PasswordHash p) role_Member (ri_Now p) seq);
  match r with
  | Err e => throw (if isUniqueConstraintViolation e then ErrUsernameTaken else e)
  | Ok _ =>
      rows ← MarkInviteRedeemed (ri_Now p) (ri_UserID p) seq group (ri_TokenHash p);
      if negb (rows =? 1)%Z then throw ErrInviteNotRedeemable else
      mret (mkRedeemed group (ri_UserID p) (ri_Username p))
  end.

Definition RedeemInvite (p : RedeemInviteParams) : M RedeemedInvite :=
  writeTx (RedeemInviteParams_validate p) (
    current ← no_rows_as ErrInviteNotRedeemable (GetInviteForRedeem (ri_TokenHash p));
    redeem_in (GroupID current) p).

(** ** Password reset *)

Record ResetPasswordResult := mkResetPassword {
  rp_UserID : string; rp_GroupID : string; rp_SessionsRevoked : Z; rp_DeviceTokensRevoked : Z }.

Definition ResetPassword_validate (username newPasswordHash : string) (now : Z) : res unit :=
  reject (username =?s "") "storage: ResetPassword needs a non-empty username";;
  reject (newPasswordHash =?s "") "storage: ResetPassword needs a non-empty newPasswordHash";;
  reject (now <=? 0)%Z "storage: ResetPassword needs a positive Unix-millisecond now".

(** The transaction, for the user that was found. *)
Definition reset_user (target : User) (newPasswordHash : string) (now : Z) : M ResetPasswordResult :=
  Tx (
    seq ← AllocChangeSeq (GroupID target);
    rows ← UpdateUserPasswordHash newPasswordHash now seq (GroupID target) (ID target);
    if (rows =? 0)%Z then throw ErrUserNotFound else
    sessionsRevoked ← RevokeAllSessionsForUser now seq (GroupID target) (ID target);
    deviceTokensRevoked ← RevokeAllDeviceTokensForUser now seq (GroupID target) (ID target);
    mret (mkResetPassword (ID target) (GroupID target) sessionsRevoked deviceTokensRevoked)).

Definition ResetPassword (username newPasswordHash : string) (now : Z) : M ResetPasswordResult :=
  lift (ResetPassword_validate username newPasswordHash now);;
  target ← UserForLogin username;
  reset_user target newPasswordHash now.

(** ** Lists *)

Definition ListGroupMembers (group : string) : M (list User) := fun w =>
  (Ok (order_by (fun a b : User => (CreatedAt a <? CreatedAt b)%Z
                   || ((CreatedAt a =? CreatedAt b)%Z && String.leb (ID a) (ID b)))
         (where_ (fun u : User => (GroupID u =?s group) && live u) (users (wdb w)))), w).

Record Member := mkMember { mem_ID : string; mem_Username : string; mem_Role : string; mem_JoinedAtUnixMilli : Z }.

Definition toMember (u : User) : Member := mkMember (ID u) (usr_Username (Cols u)) (usr_Role (Cols u)) (CreatedAt u).

Definition Members_List (group : string) : M (list Member) :=
  rows ← ListGroupMembers group; mret (toMember <$> rows).

(** ** Evolution *)

Lemma readonly_GetGroup g : readonly (GetGroup g).
Proof. intros w. unfold GetGroup. by destruct (groups (wdb w) !! g) as [G|]; [destruct (grp_DeletedAt G)|]. Qed.
#[export] Hint Resolve readonly_GetGroup : evo.

(** A write to the row of the group alone, not to its counter. *)
Lemma Evo_set_group g c0 db G :
  grp_ChangeSeqCounter G = counter g db -> Evo g c0 db (set_groups (<[g := G]> (groups db)) db).
Proof.
  intros HG.
  assert (Hcnt : counter g (set_groups (<[g:=G]> (groups db)) db) = counter g db).
  { unfold counter at 1. simpl. by rewrite lookup_insert_eq. }
  split; simpl; try apply table_evo_refl; try done; [lia|..].
  - intros h Hh. by rewrite lookup_insert_ne.
  - intros k. destruct (mutations db !! k); naive_solver.
  - intros k. destruct (conflicts db !! k); naive_solver.
Qed.

Lemma evo_CreateGroup g c0 lb name now : evo g c0 lb (CreateGroup g name now).
Proof.
  intros w _ _. unfold CreateGroup. destruct (groups (wdb w) !! g) as [G|] eqn:EG; simpl; [reflexivity|].
  apply Evo_set_group. unfold counter. by rewrite EG.
Qed.

Lemma evo_CreateGroupIfNone g c0 lb name now : evo g c0 lb (CreateGroupIfNone g name now).
Proof.
  intros w _ _. unfold CreateGroupIfNone. destruct (decide _) as [Hn|]; simpl; [|reflexivity].
  apply Evo_set_group. unfold counter. by rewrite Hn, lookup_empty.
Qed.

Lemma evo_UpdateGroupVisibility g c0 lb a b c now seq v : evo g c0 lb (UpdateGroupVisibility a b c now seq g v).
Proof.
  intros w _ _. unfold UpdateGroupVisibility. destruct (groups (wdb w) !! g) as [G|] eqn:EG; [|reflexivity].
  destruct (grp_DeletedAt G); [reflexivity|]. destruct (grp_Version G =? v)%Z; [|reflexivity].
  destruct (_ && _); [|reflexivity]. simpl. apply Evo_set_group. unfold counter. by rewrite EG.
Qed.
#[export] Hint Resolve evo_CreateGroup evo_CreateGroupIfNone evo_UpdateGroupVisibility : evo.

Lemma method_GroupVisibility_Update g p : method g (GroupVisibility_Update g p).
Proof. solve_method. Qed.
Lemma method_RegisterFirstUser p : method (fu_GroupID p) (RegisterFirstUser p).
Proof. solve_method. Qed.
Lemma method_RegisterNewGroup p : method (fu_GroupID p) (RegisterNewGroup p).
Proof. solve_method. Qed.
Lemma method_RehashPassword g u h now : method g (RehashPassword g u h now).
Proof. solve_method. Qed.
Lemma method_CreateSession p : method (sp_GroupID p) (CreateSession p).
Proof. solve_method. Qed.
Lemma method_RevokeSession g u s now : method g (RevokeSession g u s now).
Proof. solve_method. Qed.
Lemma method_RevokeCallingSession g u h now : method g (RevokeCallingSession g u h now).
Proof. solve_method. Qed.
Lemma method_CreateDeviceToken p : method (dt_GroupID p) (CreateDeviceToken p).
Proof. solve_method. Qed.
Lemma method_RevokeDeviceToken g u d now : method g (RevokeDeviceToken g u d now).
Proof. solve_method. Qed.
Lemma method_CreateInvite p : method (ip_GroupID p) (CreateInvite p).
Proof. solve_method. Qed.
Lemma method_RevokeInvite g i now : method g (RevokeInvite g i now).
Proof. solve_method. Qed.

Lemma evo_redeem_in g c0 lb p : evo g c0 lb (redeem_in g p).
Proof. unfold redeem_in. solve_evo. Qed.

Lemma method_reset_user target h now : method (GroupID target) (reset_user target h now).
Proof. intros w. apply evo_Tx. intros c. solve_evo. Qed.


(** ** Preorders and invariants *)

Lemma steps_groups (R : relation DB) `{!PreOrder R} :
  (forall db t, R db (set_groups t db)) ->
  (forall g name now, steps R (CreateGroup g name now)) /\
  (forall g name now, steps R (CreateGroupIfNone g name now)) /\
  (forall a b c now seq g v, steps R (UpdateGroupVisibility a b c now seq g v)).
Proof.
  intros HR. split_and!; intros; intros w; unfold CreateGroup, CreateGroupIfNone, UpdateGroupVisibility;
    repeat (case_match; simpl; try reflexivity); apply HR.
Qed.

#[export] Hint Extern 2 (steps _ (CreateGroup _ _ _)) => (apply steps_groups; [apply _|solve_frame]) : steps.
#[export] Hint Extern 2 (steps _ (CreateGroupIfNone _ _ _)) => (apply steps_groups; [apply _|solve_frame]) : steps.
#[export] Hint Extern 2 (steps _ (UpdateGroupVisibility _ _ _ _ _ _ _)) =>
  (apply steps_groups; [apply _|solve_frame]) : steps.
