(* ===== verification/ImportCommit.v ===== *)
(** * Committing an import, and import sessions

    [storage/import_commit.go] and [storage/import_sessions.go]: an uploaded
    file is staged under an import session; committing it marks the session
    and writes all the rows of the preview in one transaction. *)

From S2P Require Import Prelude GoBase Schema Sql Evolution Queries.
From S2P Require Import PushRepo PushFields PushHandlers PushCommit Exec.

(** ** import_sessions.sql *)

Definition status_staged : string := "staged".
Definition status_committed : string := "committed".

Definition CreateImportSession (id group source : string) (created_at expires_at : Z) : M unit := fun w =>
  let t := import_sessions (wdb w) in
  match t !! id with
  | Some _ => (Err (ErrSQLite SQLITE_CONSTRAINT_PRIMARYKEY), w)
  | None =>
      if group_exists (wdb w) group then
        (Ok tt, mkWorld (set_import_sessions
           (<[id := mkImportSession group source status_staged created_at expires_at]> t) (wdb w)) (draws w))
      else (Err (ErrSQLite SQLITE_CONSTRAINT_FOREIGNKEY), w)
  end.

Definition GetImportSession (group id : string) : M ImportSession := fun w =>
  match import_sessions (wdb w) !! id with
  | Some s => if imp_GroupID s =?s group then (Ok s, w) else (Err ErrNoRows, w)
  | None => (Err ErrNoRows, w)
  end.

Definition DeleteImportSession (group id : string) : M unit := fun w =>
  match import_sessions (wdb w) !! id with
  | Some s =>
      if imp_GroupID s =?s group
      then (Ok tt, mkWorld (set_import_sessions (delete id (import_sessions (wdb w))) (wdb w)) (draws w))
      else (Ok tt, w)
  | None => (Ok tt, w)
  end.

Definition with_status (status : string) (s : ImportSession) : ImportSession :=
  mkImportSession (imp_GroupID s) (imp_Source s) status (imp_CreatedAt s) (imp_ExpiresAt s).

Definition MarkImportSessionCommitted (group id : string) : M Z := fun w =>
  match import_sessions (wdb w) !! id with
  | Some s =>
      if (imp_GroupID s =?s group) && (imp_Status s =?s status_staged)
      then (Ok 1%Z, mkWorld (set_import_sessions
              (<[id := with_status status_committed s]> (import_sessions (wdb w))) (wdb w)) (draws w))
      else (Ok 0%Z, w)
  | None => (Ok 0%Z, w)
  end.

(** ** import_sessions.go *)

(** [ImportSessionTTL.Milliseconds()]: an hour. *)
Definition ImportSessionTTL : Z := 3600000.

Record CreateImportSessionParams := mkCreateImportSession { cis_ID : string; cis_Source : string; cis_Now : Z }.

Definition CreateImportSessionParams_validate (p : CreateImportSessionParams) : res unit :=
  reject (cis_ID p =?s "") "storage: CreateImportSessionParams: ID is empty";;
  reject (cis_Source p =?s "") "storage: CreateImportSessionParams: Source is empty";;
  reject (cis_Now p <=? 0)%Z "storage: CreateImportSessionParams: Now must be a positive Unix-millisecond timestamp".

Definition ImportSessions_Create (group : string) (p : CreateImportSessionParams) : M ImportSession :=
  writeTx (CreateImportSessionParams_validate p) (
    CreateImportSession (cis_ID p) group (cis_Source p) (cis_Now p) (wrap64 (cis_Now p + ImportSessionTTL));;
    GetImportSession group (cis_ID p)).

Definition ImportSessions_Get (group id : string) : M ImportSession :=
  no_rows_as ErrNotFound (GetImportSession group id).

Definition ImportSessions_Delete (group id : string) : M unit :=
  Tx (DeleteImportSession group id).

(** ** import_commit.go: data *)

Record ImportCommitIdentification := mkImportIdentification { ici_Kind : string; ici_Value : string }.
Record ImportCommitWarranty := mkImportWarranty {
  icw_Holder : string; icw_Provider : string; icw_StartsOn : string; icw_ExpiresOn : string;
  icw_IsLifetime : bool; icw_Notes : string }.
Record ImportCommitPurchase := mkImportPurchase {
  icp_Vendor : string; icp_PurchasedOn : string; icp_PurchasePriceMinor : Z; icp_OrderReference : string;
  icp_Notes : string }.
Record ImportCommitSale := mkImportSale {
  ics_BuyerName : string; ics_SoldOn : string; ics_SalePriceMinor : Z; ics_Notes : string }.

(** Of a proposed [ItemCustomField] only the columns are used, not the item. *)
Record ImportCommitProposedRow := mkProposed {
  pro_Name : string; pro_Description : string; pro_Quantity : Z; pro_LocationID : string;
  pro_Labels : list string; pro_Identifications : list ImportCommitIdentification;
  pro_Warranty : option ImportCommitWarranty; pro_Purchase : option ImportCommitPurchase;
  pro_Sale : option ImportCommitSale; pro_CustomFields : list CustomFieldCols }.

(** [ImportCommitRowAction] is a string type. *)
Definition ImportCommitRowCreate : string := "create".
Definition ImportCommitRowUpdate : string := "update".
Definition ImportCommitRowUnchanged : string := "unchanged".

Record ImportCommitRow := mkImportRow {
  icr_Line : Z; icr_Action : string; icr_ItemID : string; icr_Changes : list string;
  icr_Proposed : ImportCommitProposedRow }.

Record ImportCommitCreatedItem := mkImportCreated { icc_Line : Z; icc_ItemID : string }.

Record ImportCommitParams := mkImportCommit {
  imc_ImportSessionID : string; imc_Rows : list ImportCommitRow; imc_Now : Z }.

Definition ImportCommitParams_validate (p : ImportCommitParams) : res unit :=
  reject (imc_ImportSessionID p =?s "") "storage: ImportCommitParams: ImportSessionID is empty";;
  reject (imc_Now p <=? 0)%Z "storage: ImportCommitParams: Now must be a positive Unix-millisecond timestamp".

Record ImportCommitResult := mkImportResult {
  imr_Created : Z; imr_Updated : Z; imr_Unchanged : Z; imr_CreatedItems : list ImportCommitCreatedItem }.

(** ** import_commit.go: the rows of an item *)

Section commit.
Context `{Entropy}.

Definition newImportRowID : M string := new_uuid "storage: generate id for import commit row".

Definition importDefaultLabelColor : string := "#888888".

(** The label of the name; created when there is none. *)
Definition resolve_label (group name : string) (now : Z) : M string :=
  label ← try (GetLabelByName group name);
  match label with
  | Ok label => mret (ID label)
  | Err e =>
      if negb (is_no_rows e) then throw e else
      labelSeq ← AllocChangeSeq group;
      id ← newImportRowID;
      CreateLabel id group name importDefaultLabelColor now labelSeq;;
      mret id
  end.

(** The ids of the named labels, each name once, in the order of its first
    occurrence. *)
Fixpoint resolve_names (group : string) (names : list string) (now : Z) (seen ids : list string) : M (list string) :=
  match names with
  | [] => mret ids
  | name :: names =>
      if bool_decide (name ∈ seen) then resolve_names group names now seen ids else
      id ← resolve_label group name now;
      resolve_names group names now (name :: seen) (ids ++ [id])
  end.

Definition resolveLabelIDs (group : string) (names : list string) (now : Z) : M (list string) :=
  resolve_names group names now [] [].

Definition replaceLabels (group itemID : string) (names : list string) (now seq : Z) : M unit :=
  labelIDs ← resolveLabelIDs group names now;
  _ ← CascadeDeleteItemLabels now seq group itemID;
  for_each labelIDs (fun labelID =>
    edgeID ← newImportRowID;
    CreateItemLabel edgeID group itemID labelID now seq).

Definition replaceIdentifications (group itemID : string) (proposed : list ImportCommitIdentification)
    (now seq : Z) : M unit :=
  _ ← CascadeDeleteItemIdentifications now seq group itemID;
  for_each proposed (fun idn =>
    id ← newImportRowID;
    CreateItemIdentification id group itemID (ici_Kind idn) (ici_Value idn) now seq).

Definition replaceCustomFields (group itemID : string) (proposed : list CustomFieldCols) (now seq : Z) : M unit :=
  _ ← CascadeDeleteItemCustomFields now seq group itemID;
  for_each proposed (fun v =>
    id ← newImportRowID;
    CreateItemCustomField id group itemID (icf_FieldDefID v) (icf_Name v) (icf_FieldType v) (icf_TextValue v)
      (icf_NumberValue v) (icf_BoolValue v) (icf_DateValue v) now seq).

(** [sql.ErrNoRows] is [nil, nil]. *)
Definition get_optional {A} (m : M A) : M (option A) :=
  r ← try m;
  match r with
  | Ok a => mret (Some a)
  | Err e => if is_no_rows e then mret None else throw e
  end.

Definition getOptionalWarranty (group itemID : string) : M (option Warranty) :=
  get_optional (GetItemWarranty group itemID).
Definition getOptionalPurchase (group itemID : string) : M (option Purchase) :=
  get_optional (GetItemPurchase group itemID).
Definition getOptionalSale (group itemID : string) : M (option Sale) :=
  get_optional (GetItemSale group itemID).

Definition import_raced : string :=
  "update: matched rows, want 1; concurrent modification during import commit".

Definition upsertWarranty (group itemID : string) (current : option Warranty)
    (proposed : option ImportCommitWarranty) (now seq : Z) : M unit :=
  match proposed, current with
  | None, None => mret tt
  | None, Some _ => _ ← DeleteItemWarranty now seq group itemID; mret tt
  | Some p, None =>
      id ← newImportRowID;
      CreateItemWarranty id group itemID (icw_Holder p) (icw_Provider p) (nullString (icw_StartsOn p))
        (nullString (icw_ExpiresOn p)) (boolToInt (icw_IsLifetime p)) (icw_Notes p) now seq
  | Some p, Some c =>
      rows ← UpdateItemWarranty (icw_Holder p) (icw_Provider p) (nullString (icw_StartsOn p))
        (nullString (icw_ExpiresOn p)) (boolToInt (icw_IsLifetime p)) (icw_Notes p) now seq group itemID
        (Version c);
      want_one_row rows import_raced;;
      let after := mkWarranty "" (icw_Holder p) (icw_Provider p) (nullString (icw_StartsOn p))
        (nullString (icw_ExpiresOn p)) (boolToInt (icw_IsLifetime p)) (icw_Notes p) in
      recordFieldVersionsTx group "warranty_block" (ID c) (Version c + 1) now
        (diffWarrantyFieldVersions (Cols c) after)
  end.

Definition upsertPurchase (group itemID : string) (current : option Purchase)
    (proposed : option ImportCommitPurchase) (now seq : Z) : M unit :=
  match proposed, current with
  | None, None => mret tt
  | None, Some _ => _ ← DeleteItemPurchase now seq group itemID; mret tt
  | Some p, None =>
      id ← newImportRowID;
      CreateItemPurchase id group itemID (icp_Vendor p) (nullString (icp_PurchasedOn p))
        (icp_PurchasePriceMinor p) (icp_OrderReference p) (icp_Notes p) now seq
  | Some p, Some c =>
      rows ← UpdateItemPurchase (icp_Vendor p) (nullString (icp_PurchasedOn p))
        (icp_PurchasePriceMinor p) (icp_OrderReference p) (icp_Notes p) now seq group itemID (Version c);
      want_one_row rows import_raced;;
      let after := mkPurchase "" (icp_Vendor p) (nullString (icp_PurchasedOn p))
        (icp_PurchasePriceMinor p) (icp_OrderReference p) (icp_Notes p) in
      recordFieldVersionsTx group "purchased_from_block" (ID c) (Version c + 1) now
        (diffPurchaseFieldVersions (Cols c) after)
  end.

Definition upsertSale (group itemID : string) (current : option Sale)
    (proposed : option ImportCommitSale) (now seq : Z) : M unit :=
  match proposed, current with
  | None, None => mret tt
  | None, Some _ => _ ← DeleteItemSale now seq group itemID; mret tt
  | Some p, None =>
      id ← newImportRowID;
      CreateItemSale id group itemID (ics_BuyerName p) (nullString (ics_SoldOn p)) (ics_SalePriceMinor p)
        (ics_Notes p) now seq
  | Some p, Some c =>
      rows ← UpdateItemSale (ics_BuyerName p) (nullString (ics_SoldOn p)) (ics_SalePriceMinor p)
        (ics_Notes p) now seq group itemID (Version c);
      want_one_row rows import_raced;;
      let after := mkSale "" (ics_BuyerName p) (nullString (ics_SoldOn p)) (ics_SalePriceMinor p) (ics_Notes p) in
      recordFieldVersionsTx group "sold_to_block" (ID c) (Version c + 1) now
        (diffSaleFieldVersions (Cols c) after)
  end.

(** ** import_commit.go: rows *)

(** The loop over short codes of a created row. *)
Fixpoint create_attempts (group id : string) (p : ImportCommitProposedRow) (now seq : Z) (attempts : nat) : M bool :=
  match attempts with
  | O => mret false
  | S attempts =>
      code ← newImportShortCode;
      r ← try (CreateItem id group (pro_Name p) (pro_Description p) (nullString (pro_LocationID p))
                 (pro_Quantity p) code now seq);
      match r with
      | Ok _ => mret true
      | Err e => if isUniqueConstraintViolation e then create_attempts group id p now seq attempts else throw e
      end
  end.

Definition commitCreateRow (group : string) (row : ImportCommitRow) (now : Z) : M string :=
  let p := icr_Proposed row in
  seq ← AllocChangeSeq group;
  id ← newImportRowID;
  created ← create_attempts group id p now seq maxImportShortCodeAttempts;
  if negb created then throw (ErrMessage "exhausted short-code attempts") else
  replaceLabels group id (pro_Labels p) now seq;;
  replaceIdentifications group id (pro_Identifications p) now seq;;
  replaceCustomFields group id (pro_CustomFields p) now seq;;
  upsertWarranty group id None (pro_Warranty p) now seq;;
  upsertPurchase group id None (pro_Purchase p) now seq;;
  upsertSale group id None (pro_Sale p) now seq;;
  mret id.

(** [changed[f]] *)
Definition changes (row : ImportCommitRow) (f : string) : bool := bool_decide (f ∈ icr_Changes row).

Definition when (c : bool) (m : M unit) : M unit := if c then m else mret tt.

(** The columns of the item itself. *)
Definition update_core (group : string) (row : ImportCommitRow) (current : Item) (now seq : Z) : M unit :=
  let p := icr_Proposed row in
  rows ← UpdateItem (pro_Name p) (pro_Description p) (nullString (pro_LocationID p)) (pro_Quantity p) now seq
    group (icr_ItemID row) (Version current);
  want_one_row rows import_raced;;
  let after := mkItem (pro_Name p) (pro_Description p) (nullString (pro_LocationID p)) (pro_Quantity p) "" None in
  recordFieldVersionsTx group "item" (icr_ItemID row) (Version current + 1) now
    (diffItemFieldVersions (Cols current) after).

Definition commitUpdateRow (group : string) (row : ImportCommitRow) (now : Z) : M unit :=
  let p := icr_Proposed row in
  let item := icr_ItemID row in
  current ← no_rows_as ErrNotFound (GetItem group item);
  match icr_Changes row with
  | [] => mret tt
  | _ =>
      seq ← AllocChangeSeq group;
      when (changes row "name" || changes row "description" || changes row "quantity"
            || changes row "location_id") (update_core group row current now seq);;
      when (changes row "labels") (replaceLabels group item (pro_Labels p) now seq);;
      when (changes row "identifications") (replaceIdentifications group item (pro_Identifications p) now seq);;
      when (changes row "custom_fields") (replaceCustomFields group item (pro_CustomFields p) now seq);;
      when (changes row "warranty") (
        cur ← getOptionalWarranty group item; upsertWarranty group item cur (pro_Warranty p) now seq);;
      when (changes row "purchase") (
        cur ← getOptionalPurchase group item; upsertPurchase group item cur (pro_Purchase p) now seq);;
      when (changes row "sale") (
        cur ← getOptionalSale group item; upsertSale group item cur (pro_Sale p) now seq)
  end.

(** One row of the preview: the result so far is updated. *)
Definition commit_row (group : string) (now : Z) (row : ImportCommitRow) (r : ImportCommitResult) :
    M ImportCommitResult :=
  if icr_Action row =?s ImportCommitRowCreate then
    itemID ← commitCreateRow group row now;
    mret (mkImportResult (imr_Created r + 1) (imr_Updated r) (imr_Unchanged r)
            (imr_CreatedItems r ++ [mkImportCreated (icr_Line row) itemID]))
  else if icr_Action row =?s ImportCommitRowUpdate then
    commitUpdateRow group row now;;
    mret (mkImportResult (imr_Created r) (imr_Updated r + 1) (imr_Unchanged r) (imr_CreatedItems r))
  else if icr_Action row =?s ImportCommitRowUnchanged then
    mret (mkImportResult (imr_Created r) (imr_Updated r) (imr_Unchanged r + 1) (imr_CreatedItems r))
  else throw (ErrMessage "unrecognised import commit row action").

Fixpoint commit_rows (group : string) (now : Z) (rows : list ImportCommitRow) (r : ImportCommitResult) :
    M ImportCommitResult :=
  match rows with
  | [] => mret r
  | row :: rows => r ← commit_row group now row r; commit_rows group now rows r
  end.

Definition ImportCommit (group : string) (p : ImportCommitParams) : M ImportCommitResult :=
  writeTx (ImportCommitParams_validate p) (
    rows ← MarkImportSessionCommitted group (imc_ImportSessionID p);
    if negb (rows =? 1)%Z then throw ErrImportSessionNotStaged else
    commit_rows group (imc_Now p) (imc_Rows p) (mkImportResult 0 0 0 [])).
End commit.

(** ** Evolution *)

Lemma Evo_set_import_session g c0 db t :
  (forall k s, imp_GroupID s <> g -> t !! k = Some s <-> import_sessions db !! k = Some s) ->
  Evo g c0 db (set_import_sessions t db).
Proof.
  intros Ht. split; simpl; try apply table_evo_refl; try done.
  - intros k. destruct (mutations db !! k); naive_solver.
  - intros k. destruct (conflicts db !! k); naive_solver.
Qed.

(** Writing or removing a session of the group. *)
Lemma other_sessions g (t : gmap string ImportSession) id o :
  (forall s, t !! id = Some s -> imp_GroupID s = g) ->
  (forall s, o = Some s -> imp_GroupID s = g) ->
  forall k s, imp_GroupID s <> g -> partial_alter (fun _ => o) id t !! k = Some s <-> t !! k = Some s.
Proof.
  intros Ht Ho k s Hs. destruct (decide (id = k)) as [<-|Hne].
  - rewrite lookup_partial_alter_eq. split; intros HH; exfalso; eauto.
  - by rewrite lookup_partial_alter_ne.
Qed.

Section evolution.
Context `{Entropy} (g : string) (c0 lb : Z).

Lemma evo_CreateImportSession id src a b : evo g c0 lb (CreateImportSession id g src a b).
Proof.
  intros w _ _. unfold CreateImportSession. destruct (_ !! id) eqn:E; [reflexivity|].
  destruct (group_exists _ g); [|reflexivity]. simpl. apply Evo_set_import_session.
  apply (other_sessions g _ id (Some _)); [congruence|]. by intros s [= <-].
Qed.

Lemma evo_DeleteImportSession id : evo g c0 lb (DeleteImportSession g id).
Proof.
  intros w _ _. unfold DeleteImportSession. destruct (_ !! id) as [s|] eqn:E; [|reflexivity].
  destruct (String.eqb_spec (imp_GroupID s) g); [|reflexivity]. simpl. apply Evo_set_import_session.
  apply (other_sessions g _ id None); [congruence|done].
Qed.

Lemma evo_MarkImportSessionCommitted id : evo g c0 lb (MarkImportSessionCommitted g id).
Proof.
  intros w _ _. unfold MarkImportSessionCommitted. destruct (_ !! id) as [s|] eqn:E; [|reflexivity].
  destruct (_ && _) eqn:Hs; [|reflexivity]. bool_facts. simpl. apply Evo_set_import_session.
  apply (other_sessions g _ id (Some _)); [congruence|]. by intros s' [= <-].
Qed.

Lemma readonly_GetImportSession id : readonly (GetImportSession g id).
Proof. intros w. unfold GetImportSession. by repeat split_match. Qed.

Lemma readonly_newImportRowID : readonly newImportRowID.
Proof. apply readonly_new_uuid. Qed.

Lemma readonly_get_optional {A} (m : M A) : readonly m -> readonly (get_optional m).
Proof. intros Hm. apply readonly_bind; [by apply readonly_try|]. intros []; [|case_match]; eauto with evo. Qed.
End evolution.
#[export] Hint Resolve evo_CreateImportSession evo_DeleteImportSession evo_MarkImportSessionCommitted
  readonly_GetImportSession readonly_newImportRowID readonly_newImportShortCode readonly_get_optional : evo.

Section rows_evolution.
Context `{Entropy} (g : string) (c0 : Z).

Lemma evo_resolve_label lb name now : evo g c0 lb (resolve_label g name now).
Proof. unfold resolve_label. solve_evo. Qed.

Lemma evo_resolveLabelIDs lb names now : evo g c0 lb (resolveLabelIDs g names now).
Proof.
  unfold resolveLabelIDs. generalize (@nil string) at 1 as seen. generalize (@nil string) as ids.
  induction names as [|n names IH]; intros ids seen; simpl; [solve_evo|].
  destruct (bool_decide _); [apply IH|]. apply evo_bind; [apply evo_resolve_label|auto].
Qed.
#[local] Hint Resolve evo_resolveLabelIDs : evo.

Section stamped.
Context (lb seq : Z) (Hseq : (c0 < seq <= lb)%Z).

Lemma evo_replaceLabels i names now : evo g c0 lb (replaceLabels g i names now seq).
Proof. unfold replaceLabels. solve_evo. Qed.
Lemma evo_replaceIdentifications i l now : evo g c0 lb (replaceIdentifications g i l now seq).
Proof. unfold replaceIdentifications. solve_evo. Qed.
Lemma evo_replaceCustomFields i l now : evo g c0 lb (replaceCustomFields g i l now seq).
Proof. unfold replaceCustomFields. solve_evo. Qed.
Lemma evo_upsertWarranty i c p now : evo g c0 lb (upsertWarranty g i c p now seq).
Proof. unfold upsertWarranty. solve_evo. Qed.
Lemma evo_upsertPurchase i c p now : evo g c0 lb (upsertPurchase g i c p now seq).
Proof. unfold upsertPurchase. solve_evo. Qed.
Lemma evo_upsertSale i c p now : evo g c0 lb (upsertSale g i c p now seq).
Proof. unfold upsertSale. solve_evo. Qed.

Lemma evo_create_attempts id p now n : evo g c0 lb (create_attempts g id p now seq n).
Proof.
  induction n as [|n IH]; simpl; [solve_evo|].
  apply evo_bind; [solve_evo|]. intros code. apply evo_bind; [solve_evo|].
  intros [a|e]; [solve_evo|]. destruct (isUniqueConstraintViolation e); [exact IH|solve_evo].
Qed.

Lemma evo_update_core row cur now : evo g c0 lb (update_core g row cur now seq).
Proof. unfold update_core. solve_evo. Qed.

Lemma evo_when c m : evo g c0 lb m -> evo g c0 lb (when c m).
Proof. intros Hm. unfold when. destruct c; [done|solve_evo]. Qed.
End stamped.
End rows_evolution.
#[export] Hint Resolve evo_replaceLabels evo_replaceIdentifications evo_replaceCustomFields evo_upsertWarranty
  evo_upsertPurchase evo_upsertSale evo_create_attempts evo_update_core evo_when : evo.
#[export] Hint Extern 1 (_ < _ <= _)%Z => lia : evo.

Section evolution.
Context `{Entropy} (g : string).

Lemma evo_commitCreateRow c0 lb row now : evo g c0 lb (commitCreateRow g row now).
Proof. unfold commitCreateRow. cbv zeta. solve_evo. Qed.

Lemma evo_commitUpdateRow c0 lb row now : evo g c0 lb (commitUpdateRow g row now).
Proof.
  unfold commitUpdateRow, getOptionalWarranty, getOptionalPurchase, getOptionalSale. cbv zeta.
  apply evo_bind; [solve_evo|]. intros cur. case_match; [solve_evo|].
  apply evo_alloc_bind. intros seq Hc Hs. repeat (apply evo_bind; [|intros ?]); apply evo_when; solve_evo.
Qed.

Lemma evo_commit_rows c0 lb now rows r : evo g c0 lb (commit_rows g now rows r).
Proof.
  revert r. induction rows as [|row rows IH]; intros r; simpl; [solve_evo|].
  apply evo_bind; [|intros r'; apply IH]. unfold commit_row.
  repeat case_match; (apply evo_bind; [|intros ?; solve_evo]) || solve_evo;
    first [apply evo_commitCreateRow | apply evo_commitUpdateRow].
Qed.

Lemma method_ImportSessions_Create p : method g (ImportSessions_Create g p).
Proof. solve_method. Qed.
Lemma method_ImportSessions_Delete id : method g (ImportSessions_Delete g id).
Proof. apply method_Tx. intros c. solve_evo. Qed.
Lemma method_ImportCommit p : method g (ImportCommit g p).
Proof.
  apply method_writeTx. intros c. apply evo_bind; [solve_evo|]. intros rows.
  destruct (negb _); [solve_evo|apply evo_commit_rows].
Qed.
End evolution.

(** ** Preorders and invariants *)

Section steps.
Context `{Entropy} (R : relation DB) `{!PreOrder R} (g : string).

Lemma steps_import_sessions :
  (forall db t, R db (set_import_sessions t db)) ->
  (forall id src a b, steps R (CreateImportSession id g src a b)) /\
  (forall id, steps R (DeleteImportSession g id)) /\
  (forall id, steps R (MarkImportSessionCommitted g id)).
Proof.
  intros HR. split_and!; intros; intros w;
    unfold CreateImportSession, DeleteImportSession, MarkImportSessionCommitted;
    repeat (split_match; simpl; try reflexivity); apply HR.
Qed.

Lemma steps_resolveLabelIDs names now :
  (forall name, steps R (resolve_label g name now)) -> steps R (resolveLabelIDs g names now).
Proof.
  intros Hl. unfold resolveLabelIDs. generalize (@nil string) at 1 as seen. generalize (@nil string) as ids.
  induction names as [|n names IH]; intros ids seen; simpl; [solve_steps|].
  destruct (bool_decide _); [apply IH|]. apply steps_bind; [apply _|auto..].
Qed.

Lemma steps_create_attempts id p now seq n :
  (forall r : Item, steps R (insert_row r)) -> steps R (create_attempts g id p now seq n).
Proof.
  intros Hi. induction n as [|n IH]; simpl; [solve_steps|].
  apply steps_bind; [apply _|solve_steps|]. intros code.
  apply steps_bind; [apply _|apply steps_try, Hi|]. intros [a|e]; [solve_steps|].
  destruct (isUniqueConstraintViolation e); [exact IH|solve_steps].
Qed.

Lemma steps_commit_rows now rows r :
  (forall row r, steps R (commit_row g now row r)) -> steps R (commit_rows g now rows r).
Proof.
  intros Hr. revert r. induction rows as [|row rows IH]; intros r; simpl; [solve_steps|].
  apply steps_bind; [apply _|auto..].
Qed.
End steps.

#[export] Hint Extern 2 (steps _ (CreateImportSession _ _ _ _ _)) =>
  (apply steps_import_sessions; [apply _|solve_frame]) : steps.
#[export] Hint Extern 2 (steps _ (DeleteImportSession _ _)) =>
  (apply steps_import_sessions; [apply _|solve_frame]) : steps.
#[export] Hint Extern 2 (steps _ (MarkImportSessionCommitted _ _)) =>
  (apply steps_import_sessions; [apply _|solve_frame]) : steps.

(** An import keeps what its labels and its statements keep. *)
Ltac steps_import :=
  match goal with
  | |- steps _ (resolveLabelIDs _ _ _) => apply steps_resolveLabelIDs; [apply _|intros ?]
  | |- steps _ (create_attempts _ _ _ _ _ _) => apply steps_create_attempts; [apply _|intros ?]
  | |- steps _ (commit_rows _ _ _ _) => apply steps_commit_rows; [apply _|intros ? ?]
  | |- _ => steps_step
  end.
