(* ===== verification/PushMerge.v ===== *)
(** * A mutation is applied once and merged by field

    What [ApplyMutation] promises through the mutation ledger: a mutation is
    atomic, its ledger and conflict rows are written with it, and a mutation
    id that is in the ledger is never applied again, whatever happened in
    between.

    What pushing an update of an item does to the stored row: a field that
    changed after the version the client saw keeps the server's value and is
    reported as a conflict; every other pushed field takes the client's. *)

From S2P Require Import Prelude GoBase Schema Sql Evolution Queries PushRepo Items Blocks Details Exec Labels.
From S2P Require Import Locations PushFields PushHandlers PushCommit.

(** ** The ledger *)

(** The group's ledger has an entry for the mutation id. *)
Definition in_ledger (db : DB) (g mid : string) : Prop :=
  exists k mu, mutations db !! k = Some mu /\ is_mutation g mid mu = true.

Lemma in_ledger_evo h c0 a b g mid : Evo h c0 a b -> in_ledger a g mid -> in_ledger b g mid.
Proof.
  intros HE (k & mu & Hk & Hmu). exists k, mu. split; [|done].
  pose proof (evo_mutations _ _ _ _ HE k) as Hm. by rewrite Hk in Hm.
Qed.

Lemma ledger_rows_elem db g mid k mu :
  (k, mu) ∈ List.filter (fun km : string * Mutation => is_mutation g mid km.2) (map_to_list (mutations db)) <->
  mutations db !! k = Some mu /\ is_mutation g mid mu = true.
Proof. by rewrite elem_of_filter_bool, elem_of_map_to_list. Qed.

Lemma lookup_ledger_hit w g mid :
  in_ledger (wdb w) g mid ->
  exists km, lookupMutationLedgerEntryTx g mid w = (Ok km, w).
Proof.
  intros (k & mu & Hk & Hmu).
  unfold lookupMutationLedgerEntryTx, GetMutationByMutationID, mbind, prog_bind, try.
  destruct (List.filter _ _) as [|km l] eqn:E; [|by exists km].
  assert (Hin : (k, mu) ∈ ([] : list (string * Mutation))) by (rewrite <- E; by apply ledger_rows_elem).
  set_solver.
Qed.

Lemma lookup_ledger_miss w g mid :
  ~ in_ledger (wdb w) g mid -> lookupMutationLedgerEntryTx g mid w = (Err ErrNotFound, w).
Proof.
  intros Hno. unfold lookupMutationLedgerEntryTx, GetMutationByMutationID, mbind, prog_bind, try.
  destruct (List.filter _ _) as [|[k mu] l] eqn:E; [done|].
  assert (Hin : (k, mu) ∈ (k, mu) :: l) by set_solver. rewrite <- E in Hin.
  apply ledger_rows_elem in Hin as [??]. destruct Hno. by exists k, mu.
Qed.

Section push.
Context `{Entropy}.

Lemma ApplyMutation_ok g m o w w' :
  ApplyMutation g m w = (Ok o, w') ->
  PushMutation_validate m = Ok tt /\ apply_body g m w = (Ok o, w').
Proof.
  unfold ApplyMutation, lift, mbind, prog_bind.
  destruct (PushMutation_validate m) as [[]|]; [|done]. by rewrite Tx_ok.
Qed.

Lemma ApplyMutation_seen g m w :
  PushMutation_validate m = Ok tt -> in_ledger (wdb w) g (pm_MutationID m) ->
  ApplyMutation g m w = (Ok (outcome_skipped m), w).
Proof.
  intros Hv Hl. unfold ApplyMutation, lift. rewrite Hv. cbn.
  apply (Tx_ok (apply_body g m)). unfold apply_body.
  destruct (lookup_ledger_hit w g _ Hl) as [km Hkm].
  unfold mbind, prog_bind, try. by rewrite Hkm.
Qed.

(** What a mutation that is not in the ledger does. *)
Lemma ApplyMutation_fresh g m o w w' :
  ApplyMutation g m w = (Ok o, w') -> ~ in_ledger (wdb w) g (pm_MutationID m) ->
  exists r w1, push_dispatch g m w = (Ok r, w1) /\ o = fill_entity m r /\
    record_outcome g m o w1 = (Ok tt, w').
Proof.
  intros [_ Hb]%ApplyMutation_ok Hno. unfold apply_body in Hb.
  rewrite (prog_bind_ok _ _ _ (Err ErrNotFound) w) in Hb.
  2: { unfold try. by rewrite lookup_ledger_miss. }
  run_inv. match goal with u : () |- _ => destruct u end. eauto.
Qed.

(** ** The rows written with the mutation *)

Definition ledger_row (g : string) (m : PushMutation) (o : PushOutcome) : Mutation :=
  mkMutation g (pm_MutationID m) (pm_EntityType m) (po_EntityID o) (pm_Now m)
    (ledger_outcome o) (pm_Now m) (pm_Now m).

Definition conflict_row (g : string) (m : PushMutation) (o : PushOutcome) (ledgerID name : string) : Conflict :=
  mkConflict g (pm_EntityType m) (po_EntityID o) name (po_FieldSnapshots o !! name)
    (losing_value m name) (pm_Now m) (nullString ledgerID) (pm_Now m) (pm_Now m).

Lemma CreateMutation_ok id g mid et eid now out u w w' :
  CreateMutation id g mid et eid now out w = (Ok u, w') ->
  mutations (wdb w) !! id = None /\
  wdb w' = set_mutations (<[id := mkMutation g mid et eid now out now now]> (mutations (wdb w))) (wdb w).
Proof.
  unfold CreateMutation. repeat (split_match; try done). intros [=]; subst. done.
Qed.

Lemma CreateConflict_ok id row u w w' :
  CreateConflict id row w = (Ok u, w') ->
  conflicts (wdb w) !! id = None /\ wdb w' = set_conflicts (<[id := row]> (conflicts (wdb w))) (wdb w).
Proof.
  unfold CreateConflict. repeat (split_match; try done). intros [=]; subst. done.
Qed.

Lemma new_uuid_ok msg id w w' : new_uuid msg w = (Ok id, w') -> wdb w' = wdb w.
Proof. intros E. pose proof (readonly_new_uuid msg w) as Hr. by rewrite E in Hr. Qed.

(** The conflict rows: one per field, under new ids, in order. *)
Inductive inserted (g : string) (m : PushMutation) (o : PushOutcome) (ledgerID : string) :
    list string -> gmap string Conflict -> gmap string Conflict -> Prop :=
  | inserted_nil t : inserted g m o ledgerID [] t t
  | inserted_cons name names id t t' :
      t !! id = None ->
      inserted g m o ledgerID names (<[id := conflict_row g m o ledgerID name]> t) t' ->
      inserted g m o ledgerID (name :: names) t t'.

Lemma insertMutation_ok g id mid et eid out now km w w' :
  insertMutationLedgerEntryTx g id mid et eid out now w = (Ok km, w') ->
  mutations (wdb w) !! id = None /\
  wdb w' = set_mutations (<[id := mkMutation g mid et eid now out now now]> (mutations (wdb w))) (wdb w).
Proof.
  unfold insertMutationLedgerEntryTx. intros Hr. run_inv.
  match goal with Hc : CreateMutation _ _ _ _ _ _ _ _ = _ |- _ => apply CreateMutation_ok in Hc as [Hn Hc] end.
  match goal with Hg : GetMutationByMutationID _ _ ?w1 = _ |- _ =>
    pose proof (readonly_GetMutationByMutationID g mid w1) as Hrd; rewrite Hg in Hrd; simpl in Hrd end.
  split; [done|congruence].
Qed.

Lemma conflict_loop_ok g m o ledgerID names u w w' :
  for_each names (fun name =>
    conflictID ← new_uuid "storage: push: mint conflict row id";
    _ ← insertConflictTx g conflictID (pm_EntityType m) (po_EntityID o) name
          (po_FieldSnapshots o !! name) (losing_value m name) (pm_Now m) ledgerID (pm_Now m);
    mret tt) w = (Ok u, w') ->
  exists t, inserted g m o ledgerID names (conflicts (wdb w)) t /\ wdb w' = set_conflicts t (wdb w).
Proof.
  revert w. induction names as [|name names IH]; intros w Hr; simpl in Hr.
  - apply ret_ok in Hr as [_ ->]. exists (conflicts (wdb w)). split; [constructor|]. by destruct (wdb w).
  - apply prog_bind_inv_ok in Hr as (? & w1 & Hone & Hr).
    apply prog_bind_inv_ok in Hone as (id & w0 & Hu%new_uuid_ok & Hone).
    unfold insertConflictTx in Hone. apply prog_bind_inv_ok in Hone as (row & w2 & Hc & Hone).
    apply ret_ok in Hone as [_ ->]. apply prog_bind_inv_ok in Hc as (u' & w3 & Hc & Hret).
    apply ret_ok in Hret as [_ ->]. apply CreateConflict_ok in Hc as [Hn Hc].
    destruct (IH _ Hr) as (t & Hins & Hw'). exists t. rewrite Hc, Hu in *. simpl in *. split.
    + econstructor; [exact Hn|exact Hins].
    + done.
Qed.

Lemma record_outcome_ok g m o w w' :
  record_outcome g m o w = (Ok tt, w') ->
  exists ledgerID t,
    mutations (wdb w) !! ledgerID = None /\
    inserted g m o ledgerID (po_ConflictFields o) (conflicts (wdb w)) t /\
    wdb w' = set_conflicts t (set_mutations (<[ledgerID := ledger_row g m o]> (mutations (wdb w))) (wdb w)).
Proof.
  unfold record_outcome. intros Hr.
  apply prog_bind_inv_ok in Hr as (ledgerID & w1 & Hu%new_uuid_ok & Hr).
  apply prog_bind_inv_ok in Hr as (km & w2 & [Hn Hi]%insertMutation_ok & Hr).
  apply conflict_loop_ok in Hr as (t & Hins & Hw').
  exists ledgerID, t. rewrite Hi, Hu in *. done.
Qed.

(** The handlers write neither table. *)
Definition same_push_tables (a b : DB) : Prop :=
  mutations b = mutations a /\ conflicts b = conflicts a.

#[global] Instance same_push_tables_preorder : PreOrder same_push_tables.
Proof. split; [done|]. intros a b c [] []. split; congruence. Qed.

(** ** Preorders that a handler follows *)

Section handlers_steps.
Context (R : relation DB) `{!PreOrder R}.

Lemma steps_or_conflict {A} fs (m : M A) k :
  readonly m -> (forall a, steps R (k a)) -> steps R (or_conflict fs m k).
Proof.
  intros Hm Hk. unfold or_conflict. apply steps_bind; [done|by apply steps_readonly, readonly_try|].
  intros [a|e]; [apply Hk|]. destruct (is_no_rows e); by apply steps_readonly.
Qed.

Lemma steps_unless_exists b k : steps R k -> steps R (unless_exists b k).
Proof. unfold unless_exists. destruct b; [|done]. intros _. by apply steps_readonly. Qed.

Lemma steps_createItem_attempts g p n :
  (forall p, steps R (createItemTx g p)) -> steps R (createItem_attempts g p n).
Proof.
  intros Hc. induction n as [|n IH]; simpl; [by apply steps_readonly|].
  apply steps_bind; [done|apply steps_readonly, readonly_newImportShortCode; done|].
  intros code. apply steps_bind; [done|by apply steps_try|].
  intros [a|e]; [by apply steps_readonly|]. destruct e; (exact IH || by apply steps_readonly).
Qed.
End handlers_steps.
End push.

Ltac steps_handler :=
  repeat first
    [ progress cbv zeta
    | apply steps_createItem_attempts; [apply _|intros ?]
    | apply steps_unless_exists; [apply _|]
    | apply steps_or_conflict; [apply _|solve [eauto with evo]|intros ?]
    | steps_step ].

(** [push_dispatch] follows [R] when every handler does; the handlers are
    walked through by [steps_handler] (or the hints of [steps]). *)
Ltac steps_dispatch :=
  let Hh := fresh "Hh" in
  unfold push_dispatch; cbv zeta;
  repeat case_match; try (steps_handler; fail);
  match goal with
  | Hd : dispatch_lookup _ _ = Some _ |- _ =>
      apply dispatch_lookup_elem in Hd; unfold pushEntityDispatch in Hd;
      repeat (apply elem_of_cons in Hd as [Hh|Hd]; [injection Hh as _ ->; solve [steps_handler]|]);
      set_solver
  end.

Lemma same_push_tables_dispatch `{Entropy} g m : steps same_push_tables (push_dispatch g m).
Proof. steps_dispatch. Qed.

(** ** Field versions *)

(** The version at which field [f] last changed; 1 when it never did. *)
Definition field_version (db : DB) (g et eid f : string) : Z :=
  default 1%Z (fv_Version <$> field_versions db !! mkFvKey g et eid f).

Lemma field_version_map_lookup db g et eid f :
  field_version_map
    (List.filter (fun kv : fvKey * FieldVersion =>
       (fvk_group kv.1 =?s g) && (fvk_entityType kv.1 =?s et) && (fvk_entityID kv.1 =?s eid))
       (map_to_list (field_versions db))) !! f
  = fv_Version <$> field_versions db !! mkFvKey g et eid f.
Proof.
  set (l := List.filter _ _). unfold field_version_map.
  assert (Hl : forall k v, (k, v) ∈ l <->
    field_versions db !! k = Some v /\ fvk_group k = g /\ fvk_entityType k = et /\ fvk_entityID k = eid).
  { intros k v. unfold l. rewrite elem_of_filter_bool, elem_of_map_to_list. simpl.
    split; intros HH; [|destruct HH as (?&->&->&->); rewrite !string_eqb_refl; done].
    destruct HH as [? HP]. bool_facts. done. }
  assert (Hnd : NoDup ((fun kv => fvk_field kv.1) <$> l)).
  { apply NoDup_fmap_2_strong.
    - intros [k v] [k' v'] (Hk&?&?&?)%Hl (Hk'&?&?&?)%Hl Hf. simpl in Hf.
      assert (k = k') as -> by (destruct k, k'; simpl in *; congruence). congruence.
    - unfold l. apply NoDup_ListNoDup, List.NoDup_filter, NoDup_ListNoDup, NoDup_map_to_list. }
  apply option_eq. intros y.
  rewrite (foldl_insert_lookup (fun kv => fvk_field kv.1) (fun kv => fv_Version kv.2)) by done.
  rewrite fmap_Some. split.
  - intros ([k v] & Hin%Hl & Hf & Hy). simpl in *. exists v. split; [|done].
    destruct Hin as (Hk & ? & ? & ?). rewrite <- Hk. f_equal. destruct k. simpl in *. congruence.
  - intros (v & Hk & ->). exists (mkFvKey g et eid f, v). split; [|done]. by apply Hl.
Qed.

(** ** The plan of an update *)

(** The field changed after the version the client saw. *)
Definition stale (db : DB) (g : string) (m : PushMutation) (f : string) : bool :=
  (pm_BaseVersion m <? field_version db g (pm_EntityType m) (pm_EntityID m) f)%Z.

(** The field takes the client's value. *)
Definition fresh (db : DB) (g : string) (m : PushMutation) (version : Z) (f : string) : bool :=
  (version =? pm_BaseVersion m)%Z || negb (stale db g m f).

Lemma elem_of_pushFieldNames fields f : f ∈ pushFieldNames fields <-> is_Some (fields !! f).
Proof.
  unfold pushFieldNames, sort_strings. rewrite merge_sort_Permutation, list_elem_of_fmap. split.
  - intros ([k v] & -> & Hin). apply elem_of_map_to_list in Hin. by exists v.
  - intros [v Hv]. exists (f, v). split; [done|]. by apply elem_of_map_to_list.
Qed.

Lemma pushSnapshotServerValues_lookup conflict values f :
  pushSnapshotServerValues conflict values !! f =
  if decide (f ∈ conflict) then mjoin ((list_to_map values : gmap string (option json)) !! f) else None.
Proof.
  unfold pushSnapshotServerValues. generalize (list_to_map values : gmap string (option json)). intros vs.
  induction conflict as [|x l IH] using rev_ind.
  { rewrite decide_False by set_solver. apply lookup_empty. }
  rewrite foldl_app. simpl. destruct (decide (f = x)) as [->|Hne].
  - rewrite decide_True by (apply elem_of_app; right; by apply list_elem_of_singleton).
    destruct (vs !! x) as [[v|]|] eqn:Ex; simpl; [by rewrite lookup_insert_eq|..];
      rewrite IH; case_decide; done.
  - match goal with |- context [foldl ?st ∅ l] => set (acc := foldl st ∅ l) in * end.
    transitivity (acc !! f).
    { destruct (vs !! x) as [[v|]|]; [by rewrite lookup_insert_ne|done..]. }
    rewrite IH. apply decide_ext. rewrite elem_of_app, list_elem_of_singleton. naive_solver.
Qed.

(** The plan without the union rule: [pair] keeps the policy's split. *)
Lemma pushPlan_run g m v values w :
  exists plan, pushPlan g m v pair values w = (Ok plan, w) /\
    pl_conflict plan = (if (v =? pm_BaseVersion m)%Z then []
                        else List.filter (stale (wdb w) g m) (pushFieldNames (pm_Fields m))) /\
    (pl_nothing plan = true -> forall f, is_Some (pm_Fields m !! f) -> fresh (wdb w) g m v f = false) /\
    (forall f, is_Some (pm_Fields m !! f) -> pl_allow plan f = fresh (wdb w) g m v f) /\
    (forall f, pl_snapshots plan !! f =
       if decide (f ∈ pl_conflict plan)
       then mjoin ((list_to_map values : gmap string (option json)) !! f) else None).
Proof.
  unfold pushPlan, fresh. destruct (v =? pm_BaseVersion m)%Z.
  { eexists. split; [reflexivity|]. split_and!; try done. }
  eexists. split; [reflexivity|]. simpl.
  set (vs := field_version_map _).
  assert (Hst : forall f, field_conflicts vs (pm_BaseVersion m) f = stale (wdb w) g m f).
  { intros f. unfold field_conflicts, stale, field_version, vs.
    by rewrite <- field_version_map_lookup. }
  split_and!.
  - apply List.filter_ext. exact Hst.
  - unfold pl_nothing. simpl. clearbody vs.
    destruct (List.filter _ _) as [|x l] eqn:E; [|done].
    intros _ f Hf%elem_of_pushFieldNames.
    destruct (negb (stale (wdb w) g m f)) eqn:Ef; [|done].
    assert (Hin : f ∈ ([] : list string)); [|set_solver].
    rewrite <- E, elem_of_filter_bool. split; [done|]. by rewrite Hst.
  - intros f Hf%elem_of_pushFieldNames. unfold pl_allow. simpl. unfold pushAllowSet.
    rewrite <- Hst. apply Bool.eq_iff_eq_true.
    rewrite bool_decide_eq_true, elem_of_filter_bool. naive_solver.
  - intros f. by apply pushSnapshotServerValues_lookup.
Qed.

(** ** UPDATE of one item *)

(** A WHERE clause holds of a row whose columns are known. *)
Ltac solve_row_test :=
  repeat (apply andb_true_iff; split);
  first [by apply string_eqb_true | by apply Z.eqb_eq | by apply Z.eqb_refl | done].

(** The row selected by [group_id], [id] (and what else) is the one stored
    under the id. *)
Lemma get_row_ok {D} `{Table D} (P : Row D -> bool) w r w' id :
  select_one P w = (Ok r, w') -> keyed (tbl (wdb w)) -> (P r = true -> ID r = id) ->
  w' = w /\ tbl (wdb w) !! id = Some r /\ P r = true.
Proof.
  intros (-> & HP & k & Hr)%select_one_ok Hk Hid.
  rewrite <- (Hid HP), (Hk k r Hr). done.
Qed.

Definition merged_item (p : UpdateItemParams) (i : ItemCols) : ItemCols :=
  mkItem (ui_Name p) (ui_Description p) (nullString (ui_LocationID p)) (ui_Quantity p)
    (item_ShortCode i) (item_ExternalRef i).

Lemma GetItem_hit w g id r :
  keyed (items (wdb w)) -> items (wdb w) !! id = Some r -> GroupID r = g -> live r = true ->
  GetItem g id w = (Ok r, w).
Proof.
  intros Hk Hr <- Hl. pose proof (Hk _ _ Hr) as <-. unfold GetItem.
  eapply select_one_hit; [done|exact Hr|by rewrite !string_eqb_refl|].
  intros r' HP. bool_facts. done.
Qed.

Lemma updateItemTx_ok g p w row w' :
  keyed (items (wdb w)) -> updateItemTx g p w = (Ok row, w') ->
  exists cur G, items (wdb w) !! ui_ItemID p = Some cur /\ GroupID cur = g /\ live cur = true /\
    Version cur = ui_ExpectedVersion p /\ groups (wdb w) !! g = Some G /\
    let seq := (grp_ChangeSeqCounter G + 1)%Z in
    row = touch (ui_Now p) seq (merged_item p) cur /\
    wdb w' = set_items (<[ui_ItemID p := row]> (items (wdb w)))
               (set_groups (<[g := with_counter G seq]> (groups (wdb w))) (wdb w)).
Proof.
  intros Hk Hr. unfold updateItemTx in Hr.
  apply prog_bind_inv_ok in Hr as (cur & w1 & Hcur%no_rows_as_ok & Hr).
  apply (get_row_ok _ _ _ _ (ui_ItemID p)) in Hcur as (-> & Hcur & HP); [|done|intros; by bool_facts].
  bool_facts. destruct (Version cur =? ui_ExpectedVersion p)%Z eqn:Hv; [|done]. simpl in Hr.
  apply prog_bind_inv_ok in Hr as (seq & w1 & (G & HG & -> & ->)%AllocChangeSeq_ok & Hr).
  apply prog_bind_inv_ok in Hr as (n & w2 & (_ & _ & ->)%update_rows_ok & Hr).
  apply prog_bind_inv_ok in Hr as (u & w3 & [_ ->]%want_one_row_ok & Hr). simpl in Hr.
  erewrite (update_where_one _ _ (items (wdb w)) (ui_ItemID p) cur) in Hr; [|done|exact Hcur| |].
  2: { solve_row_test. }
  2: { intros r' HP'. bool_facts. congruence. }
  bool_facts. exists cur, G. split_and!; try done.
  set (seq := (grp_ChangeSeqCounter G + 1)%Z) in *.
  assert (Hrow : row = touch (ui_Now p) seq (merged_item p) cur /\ w' =
    mkWorld (set_items (<[ui_ItemID p := touch (ui_Now p) seq (merged_item p) cur]> (items (wdb w)))
      (set_groups (<[g := with_counter G seq]> (groups (wdb w))) (wdb w))) (draws w)).
  { erewrite GetItem_hit in Hr; simpl; [by injection Hr as <- <-| |by rewrite lookup_insert_eq|done|done].
    intros k r. destruct (decide (k = ui_ItemID p)) as [->|].
    - rewrite lookup_insert_eq. intros [= <-]. done.
    - rewrite lookup_insert_ne by done. apply Hk. }
  destruct Hrow as [-> ->]. done.
Qed.

(** ** Recording field versions *)

Definition recorded (t : gmap fvKey FieldVersion) (g et eid : string) (version now : Z)
    (fs : list string) : gmap fvKey FieldVersion :=
  foldl (fun t f => <[mkFvKey g et eid f := mkFieldVersion version now]> t) t fs.

Lemma recordFieldVersionsTx_ok g et eid v now fs u w w' :
  recordFieldVersionsTx g et eid v now fs w = (Ok u, w') ->
  wdb w' = set_field_versions (recorded (field_versions (wdb w)) g et eid v now fs) (wdb w).
Proof.
  unfold recordFieldVersionsTx, upsertFieldVersionTx, recorded.
  revert w. induction fs as [|f fs IH]; intros w Hr; simpl in *.
  - apply ret_ok in Hr as [_ ->]. by destruct (wdb w).
  - apply prog_bind_inv_ok in Hr as (? & w1 & Hu & Hr). apply IH in Hr. rewrite Hr.
    revert Hu. unfold UpsertFieldVersion. destruct (negb _); [done|]. intros [= _ <-]. done.
Qed.

Lemma recorded_lookup t g et eid v now fs f :
  recorded t g et eid v now fs !! mkFvKey g et eid f =
  if decide (f ∈ fs) then Some (mkFieldVersion v now) else t !! mkFvKey g et eid f.
Proof.
  unfold recorded. revert t. induction fs as [|f' fs IH]; intros t; cbn [foldl].
  { by rewrite decide_False by set_solver. }
  rewrite IH. destruct (decide (f = f')) as [->|Hne].
  - rewrite (decide_True (P := f' ∈ f' :: fs)) by set_solver. rewrite lookup_insert_eq. by case_decide.
  - rewrite lookup_insert_ne by congruence. apply decide_ext. set_solver.
Qed.

Lemma recorded_lookup_ne t g et eid v now fs k :
  (fvk_group k, fvk_entityType k, fvk_entityID k) <> (g, et, eid) ->
  recorded t g et eid v now fs !! k = t !! k.
Proof.
  intros Hk. unfold recorded. revert t. induction fs as [|f fs IH]; intros t; simpl; [done|].
  rewrite IH, lookup_insert_ne; [done|]. intros <-. by apply Hk.
Qed.

(** ** Merging *)

Definition decodes_absent {A} (decode : FieldMap -> string -> res (A * bool)) : Prop :=
  forall fields name, fields !! name = None -> exists z, decode fields name = Ok (z, false).

Lemma pushDecodeString_absent : decodes_absent pushDecodeString.
Proof. intros fields name Hn. unfold pushDecodeString. rewrite Hn. by eexists. Qed.
Lemma pushDecodeInt64_absent : decodes_absent pushDecodeInt64.
Proof. intros fields name Hn. unfold pushDecodeInt64. rewrite Hn. by eexists. Qed.

Lemma merge_decoded_ext {A} (decode : FieldMap -> string -> res (A * bool)) fields name allow allow' cur :
  decodes_absent decode ->
  (is_Some (fields !! name) -> allow name = allow' name) ->
  merge_decoded decode fields name allow cur = merge_decoded decode fields name allow' cur.
Proof.
  intros Hd Ha. unfold merge_decoded. destruct (fields !! name) as [raw|] eqn:E.
  - by rewrite Ha by eauto.
  - destruct (Hd fields name E) as [z ->]. by repeat case_match.
Qed.

(** A field that is absent or not allowed keeps the server's value. *)
Lemma merge_decoded_server {A} (decode : FieldMap -> string -> res (A * bool)) fields name allow cur v :
  decodes_absent decode -> merge_decoded decode fields name allow cur = Ok v ->
  (is_Some (fields !! name) -> allow name = false) -> v = cur.
Proof.
  intros Hd Hm Ha. rewrite (merge_decoded_ext _ _ _ _ (fun _ => false)) in Hm by done.
  by injection Hm.
Qed.

(** ** pushItem on a live item *)

(** The server's value of a field, as the conflict log keeps it. *)
Definition item_values (c : ItemCols) : list (string * option json) :=
  [("name", json_string (item_Name c)); ("description", json_string (item_Description c));
   ("location_id", json_string (stringFromNull (item_LocationID c)));
   ("quantity", json_int (item_Quantity c))]%string.

Definition item_value (c : ItemCols) (f : string) : option json :=
  mjoin ((list_to_map (item_values c) : gmap string (option json)) !! f).

(** The merge, column by column, [fr] telling which fields take the client's value. *)
Record item_merged (fields : FieldMap) (fr : string -> bool) (c c' : ItemCols) : Prop := mkItemMerged {
  im_name : pushMergeString fields "name" fr (item_Name c) = Ok (item_Name c');
  im_description : pushMergeString fields "description" fr (item_Description c) = Ok (item_Description c');
  im_location : exists l, pushMergeString fields "location_id" fr (stringFromNull (item_LocationID c)) = Ok l /\
    item_LocationID c' = nullString l;
  im_quantity : pushMergeInt64 fields "quantity" fr (item_Quantity c) = Ok (item_Quantity c');
  im_short_code : item_ShortCode c' = item_ShortCode c;
  im_external_ref : item_ExternalRef c' = item_ExternalRef c;
}.

Lemma updateItemTx_unclassified g p w e w' cur :
  keyed (items (wdb w)) -> items (wdb w) !! ui_ItemID p = Some cur -> GroupID cur = g ->
  live cur = true -> Version cur = ui_ExpectedVersion p ->
  updateItemTx g p w = (Err e, w') -> pushClassifyEntityError e = None.
Proof.
  intros Hk Hcur Hg Hl Hv. unfold updateItemTx, no_rows_as, mbind, prog_bind, try.
  rewrite (GetItem_hit w g _ cur) by done. simpl. rewrite Hv, Z.eqb_refl. simpl.
  unfold AllocChangeSeq. destruct (groups (wdb w) !! g); simpl; [|by intros [= <- <-]].
  unfold UpdateItem, update_rows, want_one_row, GetItem, select_one.
  repeat (split_match; simpl; try (by intros [= <- <-]); try done).
Qed.

Section push_item.
Context `{Entropy}.

Lemma pushItem_update g m o w w' cur :
  keyed (items (wdb w)) -> pm_BaseVersion m <> 0%Z ->
  items (wdb w) !! pm_EntityID m = Some cur -> GroupID cur = g -> live cur = true ->
  pushItem g m w = (Ok o, w') ->
  let fr := fresh (wdb w) g m (Version cur) in
  po_ConflictFields o = (if (Version cur =? pm_BaseVersion m)%Z then []
                         else List.filter (stale (wdb w) g m) (pushFieldNames (pm_Fields m))) /\
  (forall f, po_FieldSnapshots o !! f =
     if decide (f ∈ po_ConflictFields o) then item_value (Cols cur) f else None) /\
  ((po_Applied o = false /\ w' = w /\ forall f, is_Some (pm_Fields m !! f) -> fr f = false) \/
   (po_Applied o = true /\ exists c' seq,
      let row := touch (pm_Now m) seq (fun _ => c') cur in
      item_merged (pm_Fields m) fr (Cols cur) c' /\ (counter g (wdb w) < seq)%Z /\
      items (wdb w') = <[pm_EntityID m := row]> (items (wdb w)) /\
      field_versions (wdb w') = recorded (field_versions (wdb w)) g "item" (pm_EntityID m)
        (Version row) (pm_Now m) (diffItemFieldVersions (Cols cur) c'))).
Proof.
  intros Hk Hb Hcur Hg Hl Hr fr. unfold pushItem in Hr. cbv zeta in Hr.
  apply prog_bind_inv_ok in Hr as (? & w0 & [_ ->]%lift_ok & Hr).
  rewrite (proj2 (Z.eqb_neq _ _) Hb) in Hr. unfold or_conflict in Hr.
  rewrite (prog_bind_ok _ _ _ (Ok cur) w) in Hr.
  2: { unfold try. by rewrite (GetItem_hit w g _ cur). }
  destruct (pushPlan_run g m (Version cur) (item_values (Cols cur)) w)
    as (plan & Hplan & Hconf & Hnothing & Hallow & Hsnap).
  rewrite (prog_bind_ok _ _ _ plan w) in Hr by exact Hplan.
  destruct (pl_nothing plan) eqn:Hpn.
  { apply ret_ok in Hr as [-> ->]. simpl. split_and!; [done|exact Hsnap|left]. auto. }
  apply prog_bind_inv_ok in Hr as (n & w1 & [Hn ->]%lift_ok & Hr).
  apply prog_bind_inv_ok in Hr as (d & w1 & [Hd ->]%lift_ok & Hr).
  apply prog_bind_inv_ok in Hr as (l & w1 & [Hloc ->]%lift_ok & Hr).
  apply prog_bind_inv_ok in Hr as (q & w1 & [Hq ->]%lift_ok & Hr).
  apply prog_bind_inv_ok in Hr as (r & w1 & Hup%try_ok & Hr).
  unfold updated_or_classified in Hr. destruct r as [row|e].
  2: { exfalso. apply (updateItemTx_unclassified _ _ _ _ _ cur) in Hup; try done.
       unfold classified in Hr. by rewrite Hup in Hr. }
  apply updateItemTx_ok in Hup as (cur' & G & Hcur' & _ & _ & _ & HG & Hrow & Hw1); [|done].
  simpl in Hcur', Hrow, Hw1. rewrite Hcur in Hcur'. injection Hcur' as <-.
  apply prog_bind_inv_ok in Hr as (u & w2 & Hrec%recordFieldVersionsTx_ok & Hr).
  apply ret_ok in Hr as [-> ->]. simpl. split_and!; [done|exact Hsnap|right].
  split; [done|]. subst row. simpl in Hrec.
  exists (mkItem n d (nullString l) q (item_ShortCode (Cols cur)) (item_ExternalRef (Cols cur))),
    (grp_ChangeSeqCounter G + 1)%Z. split_and!.
  - split; simpl; [rewrite <- Hn|rewrite <- Hd|exists l; split; [rewrite <- Hloc|done]|rewrite <- Hq|done|done];
      (apply merge_decoded_ext; [apply pushDecodeString_absent || apply pushDecodeInt64_absent|]);
      intros Hs; symmetry; by apply Hallow.
  - unfold counter. rewrite HG. lia.
  - rewrite Hrec, Hw1. simpl. reflexivity.
  - rewrite Hrec, Hw1. simpl. by rewrite (Hk _ _ Hcur).
Qed.
End push_item.

(** ** Columns as values *)

(** The value a pushed field denotes. *)
Definition item_client_value (f : string) (raw : json) : option json :=
  if f =?s "quantity" then JNumber ∘ NInt <$> Unmarshal_int64 raw
  else JString <$> Unmarshal_string raw.

Lemma item_value_cases c f :
  item_value c f =
  if f =?s "name" then json_string (item_Name c)
  else if f =?s "description" then json_string (item_Description c)
  else if f =?s "location_id" then json_string (stringFromNull (item_LocationID c))
  else if f =?s "quantity" then json_int (item_Quantity c)
  else None.
Proof.
  unfold item_value, item_values. cbn [list_to_map foldr fst snd].
  destruct (f =?s "name") eqn:E1; bool_facts; [by subst|].
  destruct (f =?s "description") eqn:E2; bool_facts; [by subst|].
  destruct (f =?s "location_id") eqn:E3; bool_facts; [by subst|].
  destruct (f =?s "quantity") eqn:E4; bool_facts; [by subst|].
  rewrite !lookup_insert_ne, lookup_empty by done. done.
Qed.

Lemma stringFromNull_nullString s : stringFromNull (nullString s) = s.
Proof. unfold nullString. by destruct (s =?s "") eqn:E; bool_facts. Qed.

Section item_columns.
Context (fields : FieldMap) (fr : string -> bool) (c c' : ItemCols) (Hm : item_merged fields fr c c').

(** A field that does not take the client's value keeps the server's. *)
Lemma item_merged_server f :
  (is_Some (fields !! f) -> fr f = false) -> item_value c' f = item_value c f.
Proof.
  destruct Hm as [Hn Hd (l & Hl & Hloc) Hq _ _]. intros Hf. rewrite !item_value_cases.
  destruct (f =?s "name") eqn:E1; bool_facts; [|destruct (f =?s "description") eqn:E2; bool_facts;
    [|destruct (f =?s "location_id") eqn:E3; bool_facts; [|destruct (f =?s "quantity") eqn:E4; bool_facts; [|done]]]];
    subst f.
  - by rewrite (merge_decoded_server _ _ _ _ _ _ pushDecodeString_absent Hn Hf).
  - by rewrite (merge_decoded_server _ _ _ _ _ _ pushDecodeString_absent Hd Hf).
  - rewrite Hloc, stringFromNull_nullString.
    by rewrite (merge_decoded_server _ _ _ _ _ _ pushDecodeString_absent Hl Hf).
  - by rewrite (merge_decoded_server _ _ _ _ _ _ pushDecodeInt64_absent Hq Hf).
Qed.

Lemma merged_string_client name cur v raw :
  pushMergeString fields name fr cur = Ok v -> fields !! name = Some raw -> fr name = true ->
  Some v = Unmarshal_string raw.
Proof.
  unfold pushMergeString, merge_decoded, pushDecodeString. intros Hv Hraw Hfr.
  rewrite Hfr, Hraw in Hv. simpl in Hv. destruct (Unmarshal_string raw); [|done]. by injection Hv as ->.
Qed.

Lemma merged_int64_client name cur v raw :
  pushMergeInt64 fields name fr cur = Ok v -> fields !! name = Some raw -> fr name = true ->
  Some v = Unmarshal_int64 raw.
Proof.
  unfold pushMergeInt64, merge_decoded, pushDecodeInt64. intros Hv Hraw Hfr.
  rewrite Hfr, Hraw in Hv. simpl in Hv. destruct (Unmarshal_int64 raw); [|done]. by injection Hv as ->.
Qed.

(** A pushed field that takes the client's value holds it afterwards. *)
Lemma item_merged_client f raw :
  f ∈ pushItemFields -> fields !! f = Some raw -> fr f = true ->
  item_value c' f = item_client_value f raw.
Proof.
  destruct Hm as [Hn Hd (l & Hl & Hloc) Hq _ _]. intros Hf Hraw Hfr.
  rewrite item_value_cases. unfold item_client_value.
  unfold pushItemFields in Hf. repeat (apply elem_of_cons in Hf as [->|Hf]); [..|set_solver]; simpl.
  - by rewrite <- (merged_string_client _ _ _ _ Hn Hraw Hfr).
  - by rewrite <- (merged_string_client _ _ _ _ Hd Hraw Hfr).
  - rewrite Hloc, stringFromNull_nullString. by rewrite <- (merged_string_client _ _ _ _ Hl Hraw Hfr).
  - by rewrite <- (merged_int64_client _ _ _ _ Hq Hraw Hfr).
Qed.
End item_columns.
