(* ===== verification/Demo.v ===== *)
(** * A concrete server state

    Sources of fresh data and a small database to run the definitions on: the
    group ["g1"] with the item ["i1"] (version 1, change sequence 1), the
    locations ["house"] and, in it, ["room"], and the label ["l1"]. *)

From S2P Require Import Prelude GoBase Schema Sql Evolution Queries.
From S2P Require Import PushRepo Items History Labels Locations PushFields PushHandlers PushCommit.
From stdpp Require Import pretty.

#[export] Instance demo_entropy : Entropy := {
  uuid_NewV7 n := Some ("uuid-" +:+ pretty n);
  rand_Read n len := Some (replicate len (Z.of_nat n));
}.

Definition demo_group (name : string) : Group :=
  mkGroup name "EUR" 1 0 100 100 1 None 0 1 1 1 0.

(** Two empty groups. *)
Definition demo_db0 : DB :=
  set_groups {[ "g1" := demo_group "Home"; "g2" := demo_group "Work" ]}%string emptyDB.
Definition demo_w0 : World := mkWorld demo_db0 0.

(** Run [m] for its effect. *)
Definition exec {A} (m : M A) (w : World) : World := (m w).2.

Definition demo_w : World :=
  exec (Labels_Create "g1" (mkCreateLabel "l1" "Fragile" "#f00" 103))
  (exec (Locations_Create "g1" (mkCreateLocation "room" "Room" "house" 102))
  (exec (Locations_Create "g1" (mkCreateLocation "house" "House" "" 102))
  (exec (Items_Create "g1" (mkCreateItem "i1" "Lamp" "" "" 3 "CODE1" 101)) demo_w0))).

(** Evaluated once, for the witnesses. *)
Definition demo : World := Eval vm_compute in demo_w.

(** An upsert of the item ["i1"] and of others. *)
Definition demo_push (mid et eid : string) (base : Z) (fields : list (string * json)) : PushMutation :=
  mkPushMutation mid et eid base (list_to_map fields) 200 "".

Definition demo_rename : PushMutation :=
  demo_push "m1" "item" "i1" 1 [("name"%string, JString "Desk lamp")].
Definition demo_requantify : PushMutation :=
  demo_push "m2" "item" "i1" 1 [("quantity"%string, JNumber (NInt 5))].
Definition demo_rename2 : PushMutation :=
  demo_push "m3" "item" "i1" 1 [("name"%string, JString "Floor lamp")].

(** It satisfies the invariants of [History]. *)
Definition table_okb {D} `{Table D} (db : DB) : bool :=
  forallb (fun kr : string * Row D => (ID kr.2 =?s kr.1) && (ChangeSeq kr.2 <=? counter (GroupID kr.2) db)%Z)
    (map_to_list (tbl db)).

Lemma table_okb_ok {D} `{Table D} db : table_okb (D := D) db = true -> table_ok D db.
Proof.
  unfold table_okb. rewrite forallb_true_iff. intros Hb k r Hr.
  specialize (Hb (k, r) (proj2 (elem_of_map_to_list _ _ _) Hr)). simpl in Hb. bool_facts. split; [done|lia].
Qed.

Lemma demo_ok : db_ok (wdb demo).
Proof. split; apply table_okb_ok; vm_compute; reflexivity. Qed.

Definition keyedb {D} (t : gmap string (Row D)) : bool :=
  forallb (fun kr : string * Row D => ID kr.2 =?s kr.1) (map_to_list t).

Lemma keyedb_keyed {D} `{Table D} (t : gmap string (Row D)) : keyedb t = true -> keyed t.
Proof.
  unfold keyedb. rewrite forallb_true_iff. intros Hb k r Hk.
  apply string_eqb_true, (Hb (k, r)). by apply elem_of_map_to_list.
Qed.
