(* ===== verification/PushTheorems.v ===== *)
(** * Properties of push

    Exactly-once and atomic application of mutations, the field-level merge
    of concurrent edits, and the retry of a batch. *)

From S2P Require Import Prelude GoBase Schema Sql Evolution Queries.
From S2P Require Import PushRepo Items PushFields PushHandlers PushCommit Exec History PushMerge Demo.

(** ** From ApplyMutation to pushItem *)

(** [m] is an upsert of an item. *)
Definition item_upsert (m : PushMutation) : Prop :=
  pm_EntityType m = "item" /\ normalized (pm_Op m) = PushOpUpsert.

Section lemmas.
Context `{Entropy}.

Lemma push_dispatch_item g m w : item_upsert m -> push_dispatch g m w = pushItem g m w.
Proof. intros [Ht Ho]. unfold push_dispatch. rewrite Ho, Ht. reflexivity. Qed.

Lemma record_outcome_frame g m o w w' :
  record_outcome g m o w = (Ok tt, w') ->
  items (wdb w') = items (wdb w) /\ field_versions (wdb w') = field_versions (wdb w).
Proof. intros (lid & t & _ & _ & ->)%record_outcome_ok. done. Qed.

Lemma ApplyMutation_item g m o w w' :
  ApplyMutation g m w = (Ok o, w') -> ~ in_ledger (wdb w) g (pm_MutationID m) -> item_upsert m ->
  exists r w1, pushItem g m w = (Ok r, w1) /\ o = fill_entity m r /\
    items (wdb w') = items (wdb w1) /\ field_versions (wdb w') = field_versions (wdb w1).
Proof.
  intros Ha Hno Hi. destruct (ApplyMutation_fresh _ _ _ _ _ Ha Hno) as (r & w1 & Hd & -> & Hrec).
  rewrite push_dispatch_item in Hd by done. apply record_outcome_frame in Hrec as [??].
  exists r, w1. done.
Qed.

Lemma ApplyMutation_in_ledger g m o w w' :
  ApplyMutation g m w = (Ok o, w') -> in_ledger (wdb w') g (pm_MutationID m).
Proof.
  intros Ha. destruct (ApplyMutation_ok _ _ _ _ _ Ha) as [Hv Hb].
  unfold apply_body in Hb. apply prog_bind_inv_ok in Hb as (seen & w1 & Hs%try_ok & Hb).
  destruct seen as [km|e].
  - pose proof (readonly_lookupMutationLedgerEntryTx g (pm_MutationID m) w) as Hro.
    rewrite Hs in Hro. simpl in Hro. apply ret_ok in Hb as [_ ->].
    unfold lookupMutationLedgerEntryTx in Hs. run_inv.
    match goal with Hg : GetMutationByMutationID _ _ _ = (Ok _, _) |- _ => revert Hg end.
    unfold GetMutationByMutationID. destruct (List.filter _ _) as [|[k mu] l] eqn:E; intros [= <- <-].
    exists k, mu. apply ledger_rows_elem. rewrite E. set_solver.
  - destruct e; try done.
    apply prog_bind_inv_ok in Hb as (r & w2 & _ & Hb). cbv zeta in Hb.
    apply prog_bind_inv_ok in Hb as ([] & w3 & Hrec & Hb). apply ret_ok in Hb as [_ ->].
    destruct (record_outcome_ok _ _ _ _ _ Hrec) as (lid & t & _ & _ & ->). simpl.
    exists lid, (ledger_row g m (fill_entity m r)). simpl. rewrite lookup_insert_eq.
    split; [done|]. unfold is_mutation, ledger_row. simpl. by rewrite !string_eqb_refl.
Qed.
End lemmas.

Lemma in_ledger_history a b g mid : history a b -> in_ledger a g mid -> in_ledger b g mid.
Proof. induction 1; eauto using in_ledger_evo. Qed.

(** ** The properties *)

Section properties.
Context `{Entropy}.

(** C1: a mutation is applied exactly once.  After a push of [m] has been
    answered, any mutation with the same id is answered as a duplicate and
    changes nothing, whatever was written in between. *)
Theorem push_exactly_once g m o w w1 w2 m' :
  ApplyMutation g m w = (Ok o, w1) ->
  history (wdb w1) (wdb w2) ->
  pm_MutationID m' = pm_MutationID m -> PushMutation_validate m' = Ok tt ->
  ApplyMutation g m' w2 = (Ok (outcome_skipped m'), w2).
Proof.
  intros Ha Hh Hid Hv. apply ApplyMutation_seen; [done|]. rewrite Hid.
  eapply in_ledger_history; [done|]. by eapply ApplyMutation_in_ledger.
Qed.

(** Every applied mutation leaves one ledger row that states its outcome
    and one conflict row for each conflicting field, with the server's value
    and the client's losing one; nothing else is added to the two tables. *)
Theorem push_records_outcome g m o w w' :
  ApplyMutation g m w = (Ok o, w') -> ~ in_ledger (wdb w) g (pm_MutationID m) ->
  exists ledgerID,
    mutations (wdb w) !! ledgerID = None /\
    mutations (wdb w') = <[ledgerID := ledger_row g m o]> (mutations (wdb w)) /\
    inserted g m o ledgerID (po_ConflictFields o) (conflicts (wdb w)) (conflicts (wdb w')).
Proof.
  intros Ha Hno. destruct (ApplyMutation_fresh _ _ _ _ _ Ha Hno) as (r & w1 & Hd & -> & Hrec).
  pose proof (same_push_tables_dispatch g m w) as [Hmu Hco]. rewrite Hd in Hmu, Hco. simpl in *.
  destruct (record_outcome_ok _ _ _ _ _ Hrec) as (lid & t & Hn & Hins & Hw').
  exists lid. rewrite Hw'. simpl. rewrite <- Hmu, <- Hco. done.
Qed.
End properties.

(** The live item [cur] of the group is stored under [id]. *)
Definition stored_item (db : DB) (g id : string) (cur : Item) : Prop :=
  keyed (items db) /\ items db !! id = Some cur /\ GroupID cur = g /\ live cur = true.

(** The value a column holds after the push: the client's when the field was
    pushed and did not change after the version the client saw, else the
    server's. *)
Definition merged_value (db : DB) (g : string) (m : PushMutation) (cur : Item) (f : string) : option json :=
  match pm_Fields m !! f with
  | Some raw => if fresh db g m (Version cur) f then item_client_value f raw else item_value (Cols cur) f
  | None => item_value (Cols cur) f
  end.

(** The row after the push: the same row, one version on when it was written. *)
Definition updated_row (applied : bool) (cur row : Item) : Prop :=
  if applied then exists now seq c', row = touch now seq (fun _ => c') cur else row = cur.

Section item_lemmas.
Context `{Entropy}.

Lemma push_item_update g m o w w' cur :
  ApplyMutation g m w = (Ok o, w') -> ~ in_ledger (wdb w) g (pm_MutationID m) ->
  item_upsert m -> pm_BaseVersion m <> 0%Z -> stored_item (wdb w) g (pm_EntityID m) cur ->
  po_ConflictFields o = (if (Version cur =? pm_BaseVersion m)%Z then []
                         else List.filter (stale (wdb w) g m) (pushFieldNames (pm_Fields m))) /\
  (forall f, po_FieldSnapshots o !! f =
     if decide (f ∈ po_ConflictFields o) then item_value (Cols cur) f else None) /\
  exists row, updated_row (po_Applied o) cur row /\
    items (wdb w') = <[pm_EntityID m := row]> (items (wdb w)) /\
    (forall f, f ∈ pushItemFields -> item_value (Cols row) f = merged_value (wdb w) g m cur f) /\
    field_versions (wdb w') = (if po_Applied o
      then recorded (field_versions (wdb w)) g "item" (pm_EntityID m) (Version row) (pm_Now m)
             (diffItemFieldVersions (Cols cur) (Cols row))
      else field_versions (wdb w)).
Proof.
  intros Ha Hno Hi Hb (Hk & Hcur & Hg & Hl).
  destruct (ApplyMutation_item _ _ _ _ _ Ha Hno Hi) as (r & w1 & Hp & -> & Hit & Hfv).
  destruct (pushItem_update _ _ _ _ _ _ Hk Hb Hcur Hg Hl Hp) as (Hc & Hs & Hor).
  split; [done|]. split; [done|]. simpl. rewrite Hit, Hfv.
  destruct Hor as [(-> & -> & Hst)|(-> & c' & seq & Hm & _ & -> & ->)].
  - exists cur. split_and!; [done|by rewrite insert_id| |done].
    intros f _. unfold merged_value. destruct (pm_Fields m !! f) as [raw|] eqn:Ef; [|done].
    by rewrite Hst by eauto.
  - eexists. split_and!; [by eexists _, _, _|done| |done]. simpl.
    intros f Hf. unfold merged_value. destruct (pm_Fields m !! f) as [raw|] eqn:Ef.
    + destruct (fresh _ _ _ _ f) eqn:Efr; [by eapply item_merged_client|].
      by eapply item_merged_server.
    + eapply item_merged_server; [exact Hm|]. rewrite Ef. by intros [].
Qed.

Lemma stored_item_update db db' g id cur row b :
  stored_item db g id cur -> updated_row b cur row -> items db' = <[id := row]> (items db) ->
  stored_item db' g id row.
Proof.
  intros (Hk & Hcur & Hg & Hl) Hrow Hi. unfold stored_item. rewrite Hi, lookup_insert_eq.
  assert (ID row = id /\ GroupID row = g /\ live row = true) as (Hid & Hg' & Hl').
  { destruct b; simpl in Hrow; [destruct Hrow as (now & seq & c' & ->)|subst row]; simpl; auto. }
  split_and!; try done. intros k r. destruct (decide (k = id)) as [->|].
  - rewrite lookup_insert_eq. by intros [= <-].
  - rewrite lookup_insert_ne by done. apply Hk.
Qed.
End item_lemmas.

(** The columns an edit changed, written out: what the field versions must
    record of it. *)
Definition item_changed (before after : ItemCols) (f : string) : Prop :=
  f = "name"%string /\ item_Name before <> item_Name after \/
  f = "description"%string /\ item_Description before <> item_Description after \/
  f = "location_id"%string /\ item_LocationID before <> item_LocationID after \/
  f = "quantity"%string /\ item_Quantity before <> item_Quantity after.

#[export] Instance item_changed_dec before after f : Decision (item_changed before after f).
Proof. unfold item_changed. apply _. Defined.

Lemma elem_of_diff {A} `{EqDecision A} (x y : A) (name f : string) : f ∈ diff x y name <-> f = name /\ x <> y.
Proof.
  unfold diff. case_decide; [|rewrite list_elem_of_singleton; tauto].
  split; [by intros ?%not_elem_of_nil|tauto].
Qed.

Lemma elem_of_diffItem before after f :
  f ∈ diffItemFieldVersions before after <-> item_changed before after f.
Proof. unfold diffItemFieldVersions, item_changed. rewrite !elem_of_app, !elem_of_diff. tauto. Qed.

Section merge_properties.
Context `{Entropy}.

(** C3: pushing an update of a live item merges field by field.  A column
    keeps the server's value when its field changed after the version the
    client saw, and takes the client's value otherwise; the conflicting
    fields are exactly the stale ones, each with the server's value. *)
Theorem push_item_merges g m o w w' cur :
  ApplyMutation g m w = (Ok o, w') -> ~ in_ledger (wdb w) g (pm_MutationID m) ->
  item_upsert m -> pm_BaseVersion m <> 0%Z -> stored_item (wdb w) g (pm_EntityID m) cur ->
  exists row, stored_item (wdb w') g (pm_EntityID m) row /\
    (forall f, f ∈ pushItemFields -> item_value (Cols row) f = merged_value (wdb w) g m cur f) /\
    (forall f, f ∈ po_ConflictFields o <->
       is_Some (pm_Fields m !! f) /\ fresh (wdb w) g m (Version cur) f = false) /\
    (forall f, f ∈ po_ConflictFields o -> po_FieldSnapshots o !! f = item_value (Cols cur) f).
Proof.
  intros Ha Hno Hi Hb Hcur.
  destruct (push_item_update _ _ _ _ _ _ Ha Hno Hi Hb Hcur) as (Hc & Hs & row & Hrow & Hit & Hval & _).
  exists row. split_and!; [by eapply stored_item_update|done| |].
  - intros f. rewrite Hc. unfold fresh. destruct (Version cur =? pm_BaseVersion m)%Z; simpl.
    + split; [set_solver|]. by intros [_ ?].
    + rewrite elem_of_filter_bool, elem_of_pushFieldNames, negb_false_iff. done.
  - intros f Hf. rewrite Hs. by rewrite decide_True.
Qed.

(** C16: two clients edit the same item from the same version.  The edit that
    arrives second is applied to exactly the fields the first did not change;
    the others keep the first one's value and are reported as conflicts. *)
Theorem concurrent_item_edits g mA mB oA oB w w1 w2 cur :
  stored_item (wdb w) g (pm_EntityID mA) cur ->
  (forall f, (field_version (wdb w) g "item" (pm_EntityID mA) f <= Version cur)%Z) ->
  (0 < Version cur)%Z ->
  item_upsert mA -> item_upsert mB -> pm_EntityID mB = pm_EntityID mA ->
  pm_BaseVersion mA = Version cur -> pm_BaseVersion mB = Version cur ->
  ~ in_ledger (wdb w) g (pm_MutationID mA) -> ~ in_ledger (wdb w1) g (pm_MutationID mB) ->
  ApplyMutation g mA w = (Ok oA, w1) -> po_Applied oA = true ->
  ApplyMutation g mB w1 = (Ok oB, w2) ->
  exists row1 row2,
    stored_item (wdb w1) g (pm_EntityID mA) row1 /\ stored_item (wdb w2) g (pm_EntityID mA) row2 /\
    po_ConflictFields oA = [] /\
    let changed := item_changed (Cols cur) (Cols row1) in
    po_ConflictFields oB =
      List.filter (fun f => bool_decide (changed f)) (pushFieldNames (pm_Fields mB)) /\
    (forall f, f ∈ pushItemFields -> item_value (Cols row2) f =
       match pm_Fields mB !! f with
       | Some raw => if decide (changed f) then item_value (Cols row1) f else item_client_value f raw
       | None => item_value (Cols row1) f
       end).
Proof.
  intros Hcur Hfv Hpos HiA HiB Hid HbA HbB HnA HnB HA HappA HB.
  destruct (push_item_update _ _ _ _ _ _ HA HnA HiA ltac:(lia) Hcur)
    as (HcA & _ & row1 & Hrow1 & Hit1 & _ & Hfv1).
  pose proof (stored_item_update _ _ _ _ _ _ _ Hcur Hrow1 Hit1) as Hst1.
  rewrite HappA in Hrow1, Hfv1. destruct Hrow1 as (now & seq & c1 & Hrow1).
  assert (Hv1 : Version row1 = (Version cur + 1)%Z) by (by subst row1).
  rewrite <- Hid in Hst1.
  destruct (push_item_update _ _ _ _ _ _ HB HnB HiB ltac:(lia) Hst1)
    as (HcB & _ & row2 & Hrow2 & Hit2 & Hval2 & _).
  pose proof (stored_item_update _ _ _ _ _ _ _ Hst1 Hrow2 Hit2) as Hst2.
  rewrite Hid in Hst1, Hst2.
  assert (Hstale : forall f, stale (wdb w1) g mB f =
      bool_decide (item_changed (Cols cur) (Cols row1) f)).
  { intros f. unfold stale, field_version. rewrite Hfv1, Hid, (proj1 HiB), recorded_lookup.
    rewrite (bool_decide_ext _ _ (iff_sym (elem_of_diffItem _ _ _))).
    apply Bool.eq_iff_eq_true. rewrite bool_decide_eq_true, Z.ltb_lt. case_decide as Hf; simpl.
    - split; [done|lia].
    - split; [|done]. specialize (Hfv f). unfold field_version in Hfv. lia. }
  exists row1, row2. split; [done|]. split; [done|]. split.
  { by rewrite HcA, HbA, Z.eqb_refl. }
  split.
  - rewrite HcB, (proj2 (Z.eqb_neq _ _)) by lia. by apply List.filter_ext.
  - intros f Hf. rewrite Hval2 by done. unfold merged_value, fresh.
    rewrite (proj2 (Z.eqb_neq _ _)) by lia. rewrite Hstale. simpl.
    destruct (pm_Fields mB !! f); [|done].
    destruct (decide _) as [Hd|Hd]; [by rewrite bool_decide_true|by rewrite bool_decide_false].
Qed.
End merge_properties.

(** ** The properties hold somewhere *)

Definition ledgerb (db : DB) (g mid : string) : bool :=
  existsb (fun km : string * Mutation => is_mutation g mid km.2) (map_to_list (mutations db)).

Lemma not_in_ledger db g mid : ledgerb db g mid = false -> ~ in_ledger db g mid.
Proof.
  intros Hb (k & mu & Hk & Hmu). unfold ledgerb in Hb. rewrite existsb_false_iff in Hb.
  specialize (Hb (k, mu)). simpl in Hb. rewrite Hb in Hmu; [done|]. by apply elem_of_map_to_list.
Qed.

Definition demo_item : Item :=
  mkRow "i1" "g1" 101 101 1 None 1 (mkItem "Lamp" "" None 3 "CODE1" None).

Lemma demo_stored : stored_item (wdb demo) "g1" "i1" demo_item.
Proof. split; [apply keyedb_keyed; vm_compute; reflexivity|]. by split_and!. Qed.

Definition the_outcome {A} (d : A) (r : res A) : A := match r with Ok a => a | Err _ => d end.
Definition no_outcome : PushOutcome := outcome_conflict [].

(** The world after [demo_rename], and after [demo_rename2] too. *)
Definition demo1 : World := Eval vm_compute in exec (ApplyMutation "g1" demo_rename) demo.
Definition demo3 : World := Eval vm_compute in exec (ApplyMutation "g1" demo_rename2) demo1.

Definition outcome_of (m : PushMutation) (w : World) : PushOutcome :=
  the_outcome no_outcome (ApplyMutation "g1" m w).1.

Lemma push_exactly_once_witness :
  ApplyMutation "g1" demo_rename demo1 = (Ok (outcome_skipped demo_rename), demo1).
Proof.
  apply (push_exactly_once "g1" demo_rename (outcome_of demo_rename demo) demo demo1 demo1 demo_rename);
    [vm_compute; reflexivity|apply history_refl|reflexivity|reflexivity].
Defined.

Lemma push_records_outcome_witness : exists ledgerID,
  mutations (wdb demo3) = <[ledgerID := ledger_row "g1" demo_rename2 (outcome_of demo_rename2 demo1)]> (mutations (wdb demo1)).
Proof.
  destruct (push_records_outcome "g1" demo_rename2 (outcome_of demo_rename2 demo1) demo1 demo3)
    as (lid & _ & Hm & _); [vm_compute; reflexivity|apply not_in_ledger; vm_compute; reflexivity|].
  by exists lid.
Defined.

Lemma push_item_merges_witness : exists row,
  stored_item (wdb demo1) "g1" "i1" row /\ item_value (Cols row) "name" = Some (JString "Desk lamp").
Proof.
  destruct (push_item_merges "g1" demo_rename (outcome_of demo_rename demo) demo demo1 demo_item)
    as (row & Hst & Hval & _);
    [vm_compute; reflexivity|apply not_in_ledger; vm_compute; reflexivity|by split|done|apply demo_stored|].
  exists row. split; [exact Hst|]. rewrite Hval by (by left). vm_compute; reflexivity.
Defined.

Lemma concurrent_item_edits_witness : exists row1,
  po_ConflictFields (outcome_of demo_rename2 demo1) =
  List.filter (fun f => bool_decide (item_changed (Cols demo_item) (Cols row1) f)) ["name"%string].
Proof.
  destruct (concurrent_item_edits "g1" demo_rename demo_rename2 (outcome_of demo_rename demo)
    (outcome_of demo_rename2 demo1) demo demo1 demo3 demo_item) as (row1 & row2 & _ & _ & _ & Hc & _);
    [apply demo_stored|intros f; vm_compute; discriminate|done|by split|by split|done|done|done
    |apply not_in_ledger; vm_compute; reflexivity|apply not_in_ledger; vm_compute; reflexivity
    |vm_compute; reflexivity|vm_compute; reflexivity|vm_compute; reflexivity|].
  exists row1. exact Hc.
Defined.

(** ** Batches *)

Section batches.
Context `{Entropy}.

Lemma history_ApplyMutation g m w : history (wdb w) (wdb (ApplyMutation g m w).2).
Proof. apply (history_method g). intros w'. apply method_ApplyMutation. Qed.

Lemma push_loop_ok g now ms res r w w' :
  push_loop g now ms res w = (Ok r, w') ->
  history (wdb w) (wdb w') /\
  forall b, b ∈ ms -> PushMutation_validate (to_mutation now b) = Ok tt /\
                      in_ledger (wdb w') g (bm_MutationID b).
Proof.
  revert res w. induction ms as [|b ms IH]; intros res w Hr; simpl in Hr.
  - apply ret_ok in Hr as [_ ->]. split; [apply history_refl|set_solver].
  - apply prog_bind_inv_ok in Hr as (o & w1 & Ha & Hr).
    destruct (IH _ _ Hr) as [Hh Hall].
    pose proof (history_ApplyMutation g (to_mutation now b) w) as Hh1. rewrite Ha in Hh1. simpl in Hh1.
    split; [by eapply history_trans|].
    intros b' [->|Hb']%elem_of_cons; [|by apply Hall].
    split; [by apply (ApplyMutation_ok _ _ _ _ _ Ha)|].
    eapply in_ledger_history; [exact Hh|]. by apply (ApplyMutation_in_ledger _ _ _ _ _ Ha).
Qed.

Lemma push_loop_seen g now ms res w :
  (forall b, b ∈ ms -> PushMutation_validate (to_mutation now b) = Ok tt /\
                       in_ledger (wdb w) g (bm_MutationID b)) ->
  push_loop g now ms res w =
  (Ok (mkPushResult (pr_Applied res) (pr_Skipped res ++ (bm_MutationID <$> ms)) (pr_Conflicts res)
         (pr_NewWatermark res)), w).
Proof.
  revert res. induction ms as [|b ms IH]; intros res Hall; simpl.
  - rewrite app_nil_r. by destruct res.
  - destruct (Hall b) as [Hv Hl]; [by left|].
    rewrite (prog_bind_ok _ _ _ (outcome_skipped (to_mutation now b)) w); [|by apply ApplyMutation_seen].
    rewrite IH by (intros b' Hb'; apply Hall; by right). simpl. by rewrite <- app_assoc.
Qed.

(** Sending a whole batch again, because the answer to it was lost, is
    harmless: every mutation is skipped, nothing is applied or logged twice,
    and the watermark is the same. *)
Theorem push_batch_retry g batch r w w1 :
  Push g batch w = (Ok r, w1) ->
  Push g batch w1 =
  (Ok (mkPushResult [] (bm_MutationID <$> pb_Mutations batch) [] (pr_NewWatermark r)), w1).
Proof.
  intros Hp. unfold Push in Hp.
  apply prog_bind_inv_ok in Hp as (r1 & w2 & Hl & Hp).
  apply prog_bind_inv_ok in Hp as (wm & w3 & Hw & Hp). apply ret_ok in Hp as [-> ->].
  apply prog_bind_inv_ok in Hw as (G & w4 & Hg & Hw). apply ret_ok in Hw as [-> ->].
  assert (w4 = w2 /\ GetGroup g w2 = (Ok G, w2)) as [-> Hg2].
  { revert Hg. unfold GetGroup. destruct (groups (wdb w2) !! g) as [G'|]; [|done].
    destruct (grp_DeletedAt G'); [done|]. by intros [= -> ->]. }
  apply push_loop_ok in Hl as [_ Hall].
  unfold Push. erewrite prog_bind_ok; [|by apply push_loop_seen]. simpl.
  unfold Watermark. unfold mbind, prog_bind. by rewrite Hg2.
Qed.

Definition demo_batch : PushBatch := mkPushBatch
  [mkBatchMutation "m1" "item" "i1" 1 (pm_Fields demo_rename) "";
   mkBatchMutation "m3" "item" "i1" 1 (pm_Fields demo_rename2) "upsert"] 200.
End batches.

Lemma push_batch_retry_witness :
  let w1 := exec (Push "g1" demo_batch) demo in
  exists n, Push "g1" demo_batch w1 = (Ok (mkPushResult [] ["m1"; "m3"]%string [] n), w1).
Proof.
  cbv zeta. eexists.
  apply (push_batch_retry "g1" demo_batch
    (the_outcome (mkPushResult [] [] [] 0) (Push "g1" demo_batch demo).1) demo).
  vm_compute. reflexivity.
Defined.

(** ** The value columns of a custom field *)

Section union_rule.
Context (fields : FieldMap) (conflict apply : list string).

(** The value columns of a custom field are never split.  Once one of the
    pushed value columns conflicts, all of them do; no field is lost or
    answered twice, and no conflict is dropped. *)
Theorem union_rule_moves_value_columns_together :
  (forall f, is_Some (fields !! f) <-> f ∈ conflict \/ f ∈ apply) ->
  (forall f, f ∈ conflict -> f ∉ apply) ->
  let '(conflict', apply') := pushCustomFieldValueUnionRule fields conflict apply in
  (forall f, f ∈ conflict' \/ f ∈ apply' <-> f ∈ conflict \/ f ∈ apply) /\
  (forall f, f ∈ conflict' -> f ∉ apply') /\
  (forall f, f ∈ conflict -> f ∈ conflict') /\
  (forall f f', f ∈ pushCustomFieldValueUnion -> f' ∈ pushCustomFieldValueUnion ->
     is_Some (fields !! f') -> f ∈ conflict' -> f' ∈ conflict').
Proof.
  intros Hall Hdis. unfold pushCustomFieldValueUnionRule. cbv zeta.
  set (U := pushCustomFieldValueUnion).
  destruct (existsb _ U) eqn:E; cbn [negb].
  - assert (Hmv : forall f, f ∈ List.filter (fun name => bool_decide (is_Some (fields !! name))) U <->
      f ∈ U /\ is_Some (fields !! f)).
    { intros f. by rewrite elem_of_filter_bool, bool_decide_eq_true. }
    set (mv := List.filter _ U) in *.
    assert (Hin : forall f, f ∈ sort_strings (elements (list_to_set conflict ∪
        list_to_set (List.filter (fun name => bool_decide (name ∈ mv)) apply) : gset string)) <->
      f ∈ conflict \/ (f ∈ apply /\ f ∈ U /\ is_Some (fields !! f))).
    { intros f. unfold sort_strings.
      rewrite merge_sort_Permutation, elem_of_elements, elem_of_union, !elem_of_list_to_set,
        elem_of_filter_bool, bool_decide_eq_true, Hmv. done. }
    setoid_rewrite Hin. setoid_rewrite elem_of_filter_bool. setoid_rewrite negb_true_iff.
    setoid_rewrite bool_decide_eq_false. setoid_rewrite Hmv.
    split_and!.
    + intros f. specialize (Hall f). destruct (decide (f ∈ U)); naive_solver.
    + intros f. specialize (Hall f). specialize (Hdis f). naive_solver.
    + naive_solver.
    + intros f f' _ Hf' Hs _. pose proof (proj1 (Hall f') Hs). naive_solver.
  - rewrite existsb_false_iff in E.
    assert (Hno : forall f, f ∈ U -> f ∈ conflict -> False).
    { intros f HU Hf. specialize (E f HU).
      rewrite bool_decide_true in E by (apply Hall; by left). by rewrite bool_decide_true in E. }
    split_and!; [done|done|done|]. intros f f' HU _ _ Hf. by destruct (Hno f).
Qed.
End union_rule.

Lemma union_rule_moves_value_columns_together_witness :
  "text_value"%string ∈ (pushCustomFieldValueUnionRule
    {[ "field_type" := JString "number"; "text_value" := JNull; "name" := JString "Size" ]}%string
    ["field_type"%string] ["name"; "text_value"]%string).1.
Proof.
  assert (Hall : forall f, is_Some (({[ "field_type" := JString "number"; "text_value" := JNull;
      "name" := JString "Size" ]} : FieldMap) !! f)%string <->
    f ∈ ["field_type"%string] \/ f ∈ ["name"; "text_value"]%string).
  { intros f. rewrite !list_elem_of_In. simpl. rewrite lookup_insert_is_Some', lookup_insert_is_Some',
      lookup_singleton_is_Some. naive_solver. }
  pose proof (union_rule_moves_value_columns_together _ _ _ Hall) as Hu.
  destruct (pushCustomFieldValueUnionRule _ _ _) as [c a]. simpl.
  apply Hu with (f := "field_type"%string); try (apply list_elem_of_In; simpl; tauto).
  - intros f. rewrite !list_elem_of_In. simpl. naive_solver.
  - vm_compute. by eexists.
  - apply Hu; [|by left]. intros f. rewrite !list_elem_of_In. simpl. naive_solver.
Defined.
