(* ===== verification/SyncReader.v ===== *)
(** * Pull: the change feed of a group

    [storage/sync.go], [sync/reader.go] and [sync/horizon.go].  A pull runs
    one query per entity table, merges the answers by change sequence number
    and cuts the page so that rows written by one transaction stay together.

    A pull is not a transaction: its queries run one after the other on the
    reader pool, and a write may commit between two of them.  The database
    they see is therefore a parameter, [snapshot n] being what the [n]-th
    query of the pull reads. *)

From S2P Require Import Prelude GoBase Schema Sql Evolution Queries.
From S2P Require Import PushRepo.

(** Sorting by a number whose ties are broken in no known way: SQL's
    [ORDER BY change_seq] and Go's [sort.Slice]. *)
Class SortBy := sort_by : forall {A}, (A -> Z) -> list A -> list A.

Class SortByLaws `{SortBy} := {
  sort_by_Permutation {A} (f : A -> Z) l : sort_by f l ≡ₚ l;
  sort_by_Sorted {A} (f : A -> Z) l : Sorted (fun a b => f a <= f b)%Z (sort_by f l);
}.

Abbreviation EntityType := string.

Definition EntityItem : EntityType := "item".
Definition EntityWarrantyBlock : EntityType := "warranty_block".
Definition EntitySoldToBlock : EntityType := "sold_to_block".
Definition EntityPurchasedFromBlock : EntityType := "purchased_from_block".
Definition EntityItemIdentification : EntityType := "item_identification".
Definition EntityItemCustomField : EntityType := "item_custom_field".
Definition EntityStockAdjustment : EntityType := "stock_adjustment".
Definition EntityLocation : EntityType := "location".
Definition EntityLabel : EntityType := "label".
Definition EntityItemLabel : EntityType := "item_label".
Definition EntityAttachment : EntityType := "attachment".

(** The row a [Change] carries. *)
Inductive AnyRow :=
  | RItem (r : Row ItemCols)
  | RWarranty (r : Row WarrantyCols)
  | RSale (r : Row SaleCols)
  | RPurchase (r : Row PurchaseCols)
  | RIdentification (r : Row IdentificationCols)
  | RCustomField (r : Row CustomFieldCols)
  | RStockAdjustment (r : Row StockCols)
  | RLocation (r : Row LocationCols)
  | RLabel (r : Row LabelCols)
  | RItemLabel (r : Row ItemLabelCols)
  | RAttachment (r : Row AttachmentCols).

Record Change := mkChange {
  ch_EntityType : EntityType; ch_ID : string; ch_GroupChangeSeq : Z; ch_Data : AnyRow }.
Record Tombstone := mkTombstone {
  ts_EntityType : EntityType; ts_ID : string; ts_DeletedAt : Z }.
Record Page := mkPage {
  Changes : list Change; Tombstones : list Tombstone; NextWatermark : Z; HasMore : bool }.

Record candidate := mkCandidate {
  c_entityType : EntityType; c_id : string; c_changeSeq : Z; c_deletedAt : option Z; c_data : AnyRow }.

(** ** Reading *)

(** A read-only program; the state counts the queries it ran. *)
Abbreviation RM := (Prog nat).

Section feed.
Context `{SortBy} (snapshot : nat -> DB) (group : string).

Definition query {A} (f : DB -> A) : RM A := fun n => (Ok (f (snapshot n)), S n).

(** SQLite's LIMIT: a negative one is no limit. *)
Definition take_limit {A} (limit : Z) (l : list A) : list A :=
  if (limit <? 0)%Z then l else take (Z.to_nat limit) l.

(** [SELECT * FROM t WHERE group_id = ? AND change_seq > since ORDER BY change_seq ASC LIMIT limit] *)
Definition changes_since (D : Type) `{Table D} (since limit : Z) (db : DB) : list (Row D) :=
  take_limit limit (sort_by ChangeSeq
    (where_ (fun r => (GroupID r =?s group) && (since <? ChangeSeq r)%Z) (tbl db))).

(** [SELECT * FROM t WHERE group_id = ? AND change_seq = seq] *)
Definition changes_at_seq (D : Type) `{Table D} (seq : Z) (db : DB) : list (Row D) :=
  where_ (fun r => (GroupID r =?s group) && (ChangeSeq r =? seq)%Z) (tbl db).

Definition ListItemChangesSince (since limit : Z) : RM (list (Row ItemCols)) := query (changes_since ItemCols since limit).
Definition ListItemChangesAtSeq (seq : Z) : RM (list (Row ItemCols)) := query (changes_at_seq ItemCols seq).
Definition ListItemWarrantyChangesSince (since limit : Z) : RM (list (Row WarrantyCols)) := query (changes_since WarrantyCols since limit).
Definition ListItemWarrantyChangesAtSeq (seq : Z) : RM (list (Row WarrantyCols)) := query (changes_at_seq WarrantyCols seq).
Definition ListItemSaleChangesSince (since limit : Z) : RM (list (Row SaleCols)) := query (changes_since SaleCols since limit).
Definition ListItemSaleChangesAtSeq (seq : Z) : RM (list (Row SaleCols)) := query (changes_at_seq SaleCols seq).
Definition ListItemPurchaseChangesSince (since limit : Z) : RM (list (Row PurchaseCols)) := query (changes_since PurchaseCols since limit).
Definition ListItemPurchaseChangesAtSeq (seq : Z) : RM (list (Row PurchaseCols)) := query (changes_at_seq PurchaseCols seq).
Definition ListItemIdentificationChangesSince (since limit : Z) : RM (list (Row IdentificationCols)) := query (changes_since IdentificationCols since limit).
Definition ListItemIdentificationChangesAtSeq (seq : Z) : RM (list (Row IdentificationCols)) := query (changes_at_seq IdentificationCols seq).
Definition ListItemCustomFieldChangesSince (since limit : Z) : RM (list (Row CustomFieldCols)) := query (changes_since CustomFieldCols since limit).
Definition ListItemCustomFieldChangesAtSeq (seq : Z) : RM (list (Row CustomFieldCols)) := query (changes_at_seq CustomFieldCols seq).
Definition ListStockAdjustmentChangesSince (since limit : Z) : RM (list (Row StockCols)) := query (changes_since StockCols since limit).
Definition ListStockAdjustmentChangesAtSeq (seq : Z) : RM (list (Row StockCols)) := query (changes_at_seq StockCols seq).
Definition ListLocationChangesSince (since limit : Z) : RM (list (Row LocationCols)) := query (changes_since LocationCols since limit).
Definition ListLocationChangesAtSeq (seq : Z) : RM (list (Row LocationCols)) := query (changes_at_seq LocationCols seq).
Definition ListLabelChangesSince (since limit : Z) : RM (list (Row LabelCols)) := query (changes_since LabelCols since limit).
Definition ListLabelChangesAtSeq (seq : Z) : RM (list (Row LabelCols)) := query (changes_at_seq LabelCols seq).
Definition ListItemLabelChangesSince (since limit : Z) : RM (list (Row ItemLabelCols)) := query (changes_since ItemLabelCols since limit).
Definition ListItemLabelChangesAtSeq (seq : Z) : RM (list (Row ItemLabelCols)) := query (changes_at_seq ItemLabelCols seq).
Definition ListAttachmentChangesSince (since limit : Z) : RM (list (Row AttachmentCols)) := query (changes_since AttachmentCols since limit).
Definition ListAttachmentChangesAtSeq (seq : Z) : RM (list (Row AttachmentCols)) := query (changes_at_seq AttachmentCols seq).

(** ** The sync repository *)

Definition Sync_Items (since limit : Z) : RM (list (Row ItemCols)) := ListItemChangesSince since limit.
Definition Sync_ItemsAtSeq (seq : Z) : RM (list (Row ItemCols)) := ListItemChangesAtSeq seq.
Definition Sync_Warranty (since limit : Z) : RM (list (Row WarrantyCols)) := ListItemWarrantyChangesSince since limit.
Definition Sync_WarrantyAtSeq (seq : Z) : RM (list (Row WarrantyCols)) := ListItemWarrantyChangesAtSeq seq.
Definition Sync_Sale (since limit : Z) : RM (list (Row SaleCols)) := ListItemSaleChangesSince since limit.
Definition Sync_SaleAtSeq (seq : Z) : RM (list (Row SaleCols)) := ListItemSaleChangesAtSeq seq.
Definition Sync_Purchase (since limit : Z) : RM (list (Row PurchaseCols)) := ListItemPurchaseChangesSince since limit.
Definition Sync_PurchaseAtSeq (seq : Z) : RM (list (Row PurchaseCols)) := ListItemPurchaseChangesAtSeq seq.
Definition Sync_Identifications (since limit : Z) : RM (list (Row IdentificationCols)) := ListItemIdentificationChangesSince since limit.
Definition Sync_IdentificationsAtSeq (seq : Z) : RM (list (Row IdentificationCols)) := ListItemIdentificationChangesAtSeq seq.
Definition Sync_ItemCustomFields (since limit : Z) : RM (list (Row CustomFieldCols)) := ListItemCustomFieldChangesSince since limit.
Definition Sync_ItemCustomFieldsAtSeq (seq : Z) : RM (list (Row CustomFieldCols)) := ListItemCustomFieldChangesAtSeq seq.
Definition Sync_StockAdjustments (since limit : Z) : RM (list (Row StockCols)) := ListStockAdjustmentChangesSince since limit.
Definition Sync_StockAdjustmentsAtSeq (seq : Z) : RM (list (Row StockCols)) := ListStockAdjustmentChangesAtSeq seq.
Definition Sync_Locations (since limit : Z) : RM (list (Row LocationCols)) := ListLocationChangesSince since limit.
Definition Sync_LocationsAtSeq (seq : Z) : RM (list (Row LocationCols)) := ListLocationChangesAtSeq seq.
Definition Sync_Labels (since limit : Z) : RM (list (Row LabelCols)) := ListLabelChangesSince since limit.
Definition Sync_LabelsAtSeq (seq : Z) : RM (list (Row LabelCols)) := ListLabelChangesAtSeq seq.
Definition Sync_ItemLabels (since limit : Z) : RM (list (Row ItemLabelCols)) := ListItemLabelChangesSince since limit.
Definition Sync_ItemLabelsAtSeq (seq : Z) : RM (list (Row ItemLabelCols)) := ListItemLabelChangesAtSeq seq.
Definition Sync_Attachments (since limit : Z) : RM (list (Row AttachmentCols)) := ListAttachmentChangesSince since limit.
Definition Sync_AttachmentsAtSeq (seq : Z) : RM (list (Row AttachmentCols)) := ListAttachmentChangesAtSeq seq.

(** [GetGroupTombstoneLowWatermark] *)
Definition low_watermark (db : DB) : option Z :=
  match groups db !! group with
  | Some G => match grp_DeletedAt G with None => Some (grp_TombstoneLowWatermark G) | Some _ => None end
  | None => None
  end.

Definition Sync_LowWatermark : RM Z :=
  watermark ← query low_watermark;
  match watermark with Some n => mret n | None => throw ErrNotFound end.

(** ** The reader's sources *)

Record tableSource := mkTableSource {
  src_entityType : EntityType;
  src_since : Z -> Z -> RM (list candidate);
  src_atSeq : Z -> RM (list candidate) }.

Definition candidates_of {D} (entityType : EntityType) (any : Row D -> AnyRow) (rows : list (Row D)) : list candidate :=
  (fun row => mkCandidate entityType (ID row) (ChangeSeq row) (DeletedAt row) (any row)) <$> rows.

Definition itemCandidates : list (Row ItemCols) -> list candidate := candidates_of EntityItem RItem.
Definition warrantyCandidates : list (Row WarrantyCols) -> list candidate := candidates_of EntityWarrantyBlock RWarranty.
Definition saleCandidates : list (Row SaleCols) -> list candidate := candidates_of EntitySoldToBlock RSale.
Definition purchaseCandidates : list (Row PurchaseCols) -> list candidate := candidates_of EntityPurchasedFromBlock RPurchase.
Definition identificationCandidates : list (Row IdentificationCols) -> list candidate := candidates_of EntityItemIdentification RIdentification.
Definition customFieldCandidates : list (Row CustomFieldCols) -> list candidate := candidates_of EntityItemCustomField RCustomField.
Definition stockAdjustmentCandidates : list (Row StockCols) -> list candidate := candidates_of EntityStockAdjustment RStockAdjustment.
Definition locationCandidates : list (Row LocationCols) -> list candidate := candidates_of EntityLocation RLocation.
Definition labelCandidates : list (Row LabelCols) -> list candidate := candidates_of EntityLabel RLabel.
Definition itemLabelCandidates : list (Row ItemLabelCols) -> list candidate := candidates_of EntityItemLabel RItemLabel.
Definition attachmentCandidates : list (Row AttachmentCols) -> list candidate := candidates_of EntityAttachment RAttachment.

Definition sources : list tableSource := [
  mkTableSource EntityItem
    (fun since limit => rows ← Sync_Items since limit; mret (itemCandidates rows))
    (fun seq => rows ← Sync_ItemsAtSeq seq; mret (itemCandidates rows));
  mkTableSource EntityWarrantyBlock
    (fun since limit => rows ← Sync_Warranty since limit; mret (warrantyCandidates rows))
    (fun seq => rows ← Sync_WarrantyAtSeq seq; mret (warrantyCandidates rows));
  mkTableSource EntitySoldToBlock
    (fun since limit => rows ← Sync_Sale since limit; mret (saleCandidates rows))
    (fun seq => rows ← Sync_SaleAtSeq seq; mret (saleCandidates rows));
  mkTableSource EntityPurchasedFromBlock
    (fun since limit => rows ← Sync_Purchase since limit; mret (purchaseCandidates rows))
    (fun seq => rows ← Sync_PurchaseAtSeq seq; mret (purchaseCandidates rows));
  mkTableSource EntityItemIdentification
    (fun since limit => rows ← Sync_Identifications since limit; mret (identificationCandidates rows))
    (fun seq => rows ← Sync_IdentificationsAtSeq seq; mret (identificationCandidates rows));
  mkTableSource EntityItemCustomField
    (fun since limit => rows ← Sync_ItemCustomFields since limit; mret (customFieldCandidates rows))
    (fun seq => rows ← Sync_ItemCustomFieldsAtSeq seq; mret (customFieldCandidates rows));
  mkTableSource EntityStockAdjustment
    (fun since limit => rows ← Sync_StockAdjustments since limit; mret (stockAdjustmentCandidates rows))
    (fun seq => rows ← Sync_StockAdjustmentsAtSeq seq; mret (stockAdjustmentCandidates rows));
  mkTableSource EntityLocation
    (fun since limit => rows ← Sync_Locations since limit; mret (locationCandidates rows))
    (fun seq => rows ← Sync_LocationsAtSeq seq; mret (locationCandidates rows));
  mkTableSource EntityLabel
    (fun since limit => rows ← Sync_Labels since limit; mret (labelCandidates rows))
    (fun seq => rows ← Sync_LabelsAtSeq seq; mret (labelCandidates rows));
  mkTableSource EntityItemLabel
    (fun since limit => rows ← Sync_ItemLabels since limit; mret (itemLabelCandidates rows))
    (fun seq => rows ← Sync_ItemLabelsAtSeq seq; mret (itemLabelCandidates rows));
  mkTableSource EntityAttachment
    (fun since limit => rows ← Sync_Attachments since limit; mret (attachmentCandidates rows))
    (fun seq => rows ← Sync_AttachmentsAtSeq seq; mret (attachmentCandidates rows))].

(** ** Pull *)

Record seqGroup := mkSeqGroup { sg_seq : Z; sg_members : list candidate }.

(** [groups[n-1].members = append(groups[n-1].members, c)] or a new group. *)
Fixpoint add_to_groups (groups : list seqGroup) (c : candidate) : list seqGroup :=
  match groups with
  | [] => [mkSeqGroup (c_changeSeq c) [c]]
  | [g] => if (sg_seq g =? c_changeSeq c)%Z then [mkSeqGroup (sg_seq g) (sg_members g ++ [c])]
           else [g; mkSeqGroup (c_changeSeq c) [c]]
  | g :: groups => g :: add_to_groups groups c
  end.

Definition groupByChangeSeq (sorted : list candidate) : list seqGroup := foldl add_to_groups [] sorted.

(** [for _, src := range srcs { rows, err := f(src); ...; out = append(out, rows...) }] *)
Fixpoint collect (srcs : list tableSource) (f : tableSource -> RM (list candidate)) : RM (list candidate) :=
  match srcs with
  | [] => mret []
  | src :: srcs => rows ← f src; rest ← collect srcs f; mret (rows ++ rest)
  end.

Definition fetchSince (since limit : Z) : RM (list candidate) :=
  candidates ← collect sources (fun src => src_since src since limit);
  mret (sort_by c_changeSeq candidates).

Definition fetchAtSeq (seq : Z) : RM (list candidate) :=
  collect sources (fun src => src_atSeq src seq).

Fixpoint probe (srcs : list tableSource) (watermark : Z) : RM bool :=
  match srcs with
  | [] => mret false
  | src :: srcs =>
      rows ← src_since src watermark 1;
      match rows with [] => probe srcs watermark | _ :: _ => mret true end
  end.

Definition probeHasMore (watermark : Z) : RM bool := probe sources watermark.

Definition add_entry (page : Page) (c : candidate) : Page :=
  match c_deletedAt c with
  | Some at_ => mkPage (Changes page) (Tombstones page ++ [mkTombstone (c_entityType c) (c_id c) at_])
                  (NextWatermark page) (HasMore page)
  | None => mkPage (Changes page ++ [mkChange (c_entityType c) (c_id c) (c_changeSeq c) (c_data c)])
              (Tombstones page) (NextWatermark page) (HasMore page)
  end.

Definition buildPage (ordered : list candidate) (nextWatermark : Z) (hasMore : bool) : Page :=
  foldl add_entry (mkPage [] [] nextWatermark hasMore) ordered.

(** The loop over [groups[1:]]: what is included and the last sequence number,
    and whether it stopped before the end. *)
Fixpoint include_groups (limit : Z) (included : list candidate) (lastSeq : Z) (groups : list seqGroup) :
    list candidate * Z * bool :=
  match groups with
  | [] => (included, lastSeq, false)
  | g :: groups =>
      if (limit <? Z.of_nat (length included) + Z.of_nat (length (sg_members g)))%Z
      then (included, lastSeq, true)
      else include_groups limit (included ++ sg_members g) (sg_seq g) groups
  end.

Definition Pull (since limit : Z) : RM Page :=
  if (limit <=? 0)%Z then throw ErrInvalidLimit else
  if (since <? 0)%Z then throw ErrInvalidSince else
  let fetchLimit := wrap64 (limit + 1) in
  candidates ← fetchSince since fetchLimit;
  match groupByChangeSeq candidates with
  | [] => mret (mkPage [] [] since false)
  | g0 :: rest =>
      let s0 := sg_seq g0 in
      firstGroup ← fetchAtSeq s0;
      if (limit <? Z.of_nat (length firstGroup))%Z then
        hasMore ← probeHasMore s0;
        mret (buildPage firstGroup s0 hasMore)
      else
        let '(included, lastSeq, stopped) := include_groups limit firstGroup s0 rest in
        if stopped : bool then mret (buildPage included lastSeq true) else
        hasMore ← probeHasMore lastSeq;
        mret (buildPage included lastSeq hasMore)
  end.

(** ** horizon.go *)

Definition TooOld (since : Z) : RM bool :=
  if (since <? 0)%Z then throw ErrInvalidSince else
  if (since =? 0)%Z then mret false else
  lowWatermark ← Sync_LowWatermark;
  mret (since <? lowWatermark)%Z.

(** [None] when the cursor is too old. *)
Definition PullOrTooOld (since limit : Z) : RM (option Page) :=
  tooOld ← TooOld since;
  if tooOld : bool then mret None else
  page ← Pull since limit;
  mret (Some page).

End feed.

(** [SetLowWatermark] *)
Definition set_low_watermark (G : Group) (to : Z) : Group :=
  mkGroup (grp_Name G) (grp_CurrencyCode G) (grp_RegistrationEnabled G) (grp_ChangeSeqCounter G)
    (grp_CreatedAt G) (grp_UpdatedAt G) (grp_Version G) (grp_DeletedAt G) (grp_ChangeSeq G)
    (grp_WarrantyVisible G) (grp_SaleVisible G) (grp_PurchaseVisible G) to.

Definition SetGroupTombstoneLowWatermark (to : Z) (group : string) : M Z := fun w =>
  match groups (wdb w) !! group with
  | Some G =>
      match grp_DeletedAt G with
      | None => (Ok 1%Z, mkWorld (set_groups (<[group := set_low_watermark G to]> (groups (wdb w))) (wdb w)) (draws w))
      | Some _ => (Ok 0%Z, w)
      end
  | None => (Ok 0%Z, w)
  end.

Definition Sync_SetLowWatermark (group : string) (to : Z) : M unit :=
  writeTx (reject (to <? 0)%Z "storage: SetLowWatermark: to must not be negative") (
    rows ← SetGroupTombstoneLowWatermark to group;
    if negb (rows =? 1)%Z then throw ErrNotFound else mret tt).
