(* ===== verification/System.v ===== *)
(** * The server as a whole

    Every write the repositories, the sync layer and the importer offer to a
    group, as one type of request; what is not done for a group that the
    caller belongs to (registration, login, sessions, invites, password reset)
    as another.  A run of the server is a sequence of both, in the order in
    which their transactions commit.  (Each mutation of a pushed batch is a
    transaction of its own, and a request here.) *)

From S2P Require Import Prelude GoBase Schema Sql Evolution Queries PushRepo Items Blocks Details.
From S2P Require Import Exec History Labels Locations LocationTree PushFields PushHandlers PushCommit PushMerge.
From S2P Require Import Accounts ImportCommit SyncReader Demo.

Inductive request :=
  | ItemsCreate (p : CreateItemParams) | ItemsUpdate (p : UpdateItemParams) | ItemsDelete (id : string) (now : Z)
  | StockAdjustmentsCreate (p : CreateStockAdjustmentParams)
  | WarrantyCreate (p : CreateWarrantyParams) | WarrantyUpdate (p : UpdateWarrantyParams)
  | WarrantyDelete (itemID : string) (now : Z)
  | SaleCreate (p : CreateSaleParams) | SaleUpdate (p : UpdateSaleParams) | SaleDelete (itemID : string) (now : Z)
  | PurchaseCreate (p : CreatePurchaseParams) | PurchaseUpdate (p : UpdatePurchaseParams)
  | PurchaseDelete (itemID : string) (now : Z)
  | IdentificationsCreate (p : CreateIdentificationParams) | IdentificationsUpdate (p : UpdateIdentificationParams)
  | IdentificationsDelete (itemID id : string) (now : Z)
  | ItemCustomFieldsCreate (p : CreateItemCustomFieldParams) | ItemCustomFieldsUpdate (p : UpdateItemCustomFieldParams)
  | ItemCustomFieldsDelete (itemID id : string) (now : Z)
  | AttachmentsCreate (p : CreateAttachmentParams) | AttachmentsSetThumbnail (itemID id path : string) (now : Z)
  | AttachmentsDelete (itemID id : string) (now : Z) | AttachmentsClearThumbnail (itemID id : string) (now : Z)
  | CustomFieldDefsCreate (p : CreateCustomFieldDefParams) | CustomFieldDefsUpdate (p : UpdateCustomFieldDefParams)
  | CustomFieldDefsDelete (id : string) (now : Z)
  | LabelsCreate (p : CreateLabelParams) | LabelsUpdate (p : UpdateLabelParams) | LabelsDelete (id : string) (now : Z)
  | ItemLabelsAttach (p : AttachLabelParams) | ItemLabelsDetach (itemID labelID : string) (now : Z)
  | LocationsCreate (p : CreateLocationParams) | LocationsUpdate (p : UpdateLocationParams)
  | LocationsDelete (p : DeleteLocationParams)
  | PushOne (m : PushMutation)
  | SetLowWatermark (to : Z)
  | GroupVisibilityUpdate (p : UpdateGroupVisibilityParams)
  | ImportSessionsCreate (p : CreateImportSessionParams) | ImportSessionsDelete (id : string)
  | ImportCommitRows (p : ImportCommitParams).

Inductive account_request :=
  | RegisterFirst (p : FirstUserParams) | RegisterGroup (p : FirstUserParams)
  | Rehash (groupID userID newHash : string) (now : Z)
  | SessionCreate (p : SessionParams) | SessionRevoke (groupID userID sessionID : string) (now : Z)
  | CallingSessionRevoke (groupID userID tokenHash : string) (now : Z)
  | DeviceTokenCreate (p : DeviceTokenParams) | DeviceTokenRevoke (groupID userID id : string) (now : Z)
  | InviteCreate (p : InviteParams) | InviteRevoke (groupID inviteID : string) (now : Z)
  | InviteRedeem (p : RedeemInviteParams)
  | PasswordReset (username newPasswordHash : string) (now : Z).

Inductive event := OfGroup (g : string) (r : request) | OfAccount (a : account_request).

Definition discard {A} (m : M A) : M unit := _ ← m; mret tt.

Section system.
Context `{Entropy}.

Definition handle (g : string) (r : request) : M unit :=
  match r with
  | ItemsCreate p => discard (Items_Create g p) | ItemsUpdate p => discard (Items_Update g p)
  | ItemsDelete i now => discard (Items_Delete g i now)
  | StockAdjustmentsCreate p => discard (StockAdjustments_Create g p)
  | WarrantyCreate p => discard (Warranty_Create g p) | WarrantyUpdate p => discard (Warranty_Update g p)
  | WarrantyDelete i now => discard (Warranty_Delete g i now)
  | SaleCreate p => discard (Sale_Create g p) | SaleUpdate p => discard (Sale_Update g p)
  | SaleDelete i now => discard (Sale_Delete g i now)
  | PurchaseCreate p => discard (Purchase_Create g p) | PurchaseUpdate p => discard (Purchase_Update g p)
  | PurchaseDelete i now => discard (Purchase_Delete g i now)
  | IdentificationsCreate p => discard (Identifications_Create g p)
  | IdentificationsUpdate p => discard (Identifications_Update g p)
  | IdentificationsDelete i d now => discard (Identifications_Delete g i d now)
  | ItemCustomFieldsCreate p => discard (ItemCustomFields_Create g p)
  | ItemCustomFieldsUpdate p => discard (ItemCustomFields_Update g p)
  | ItemCustomFieldsDelete i d now => discard (ItemCustomFields_Delete g i d now)
  | AttachmentsCreate p => discard (Attachments_Create g p)
  | AttachmentsSetThumbnail i d t now => discard (Attachments_SetThumbnailPath g i d t now)
  | AttachmentsDelete i d now => discard (Attachments_Delete g i d now)
  | AttachmentsClearThumbnail i d now => discard (Attachments_ClearThumbnailPath g i d now)
  | CustomFieldDefsCreate p => discard (CustomFieldDefs_Create g p)
  | CustomFieldDefsUpdate p => discard (CustomFieldDefs_Update g p)
  | CustomFieldDefsDelete d now => discard (CustomFieldDefs_Delete g d now)
  | LabelsCreate p => discard (Labels_Create g p) | LabelsUpdate p => discard (Labels_Update g p)
  | LabelsDelete i now => discard (Labels_Delete g i now)
  | ItemLabelsAttach p => discard (ItemLabels_Attach g p)
  | ItemLabelsDetach i l now => discard (ItemLabels_Detach g i l now)
  | LocationsCreate p => discard (Locations_Create g p) | LocationsUpdate p => discard (Locations_Update g p)
  | LocationsDelete p => discard (Locations_Delete g p)
  | PushOne m => discard (ApplyMutation g m)
  | SetLowWatermark to => discard (Sync_SetLowWatermark g to)
  | GroupVisibilityUpdate p => discard (GroupVisibility_Update g p)
  | ImportSessionsCreate p => discard (ImportSessions_Create g p)
  | ImportSessionsDelete i => discard (ImportSessions_Delete g i)
  | ImportCommitRows p => discard (ImportCommit g p)
  end.

Definition handle_account (a : account_request) : M unit :=
  match a with
  | RegisterFirst p => RegisterFirstUser p
  | RegisterGroup p => RegisterNewGroup p
  | Rehash g u h now => RehashPassword g u h now
  | SessionCreate p => CreateSession p
  | SessionRevoke g u s now => RevokeSession g u s now
  | CallingSessionRevoke g u h now => RevokeCallingSession g u h now
  | DeviceTokenCreate p => CreateDeviceToken p
  | DeviceTokenRevoke g u d now => RevokeDeviceToken g u d now
  | InviteCreate p => CreateInvite p
  | InviteRevoke g i now => RevokeInvite g i now
  | InviteRedeem p => discard (RedeemInvite p)
  | PasswordReset u h now => discard (ResetPassword u h now)
  end.

Definition handle_event (e : event) : M unit :=
  match e with OfGroup g r => handle g r | OfAccount a => handle_account a end.

(** Serve the events in order; an error is answered and changes nothing. *)
Definition serve (evs : list event) (w : World) : World :=
  foldl (fun w e => (handle_event e w).2) w evs.

(** The group that a row read first decides about. *)
Definition found_group {D} (m : M (Row D)) (w : World) : option string :=
  match (m w).1 with Ok r => Some (GroupID r) | Err _ => None end.

(** The group that an event writes to, if any. *)
Definition event_group (w : World) (e : event) : option string :=
  match e with
  | OfGroup g _ => Some g
  | OfAccount a =>
      match a with
      | RegisterFirst p | RegisterGroup p => Some (fu_GroupID p)
      | Rehash g _ _ _ | SessionRevoke g _ _ _ | CallingSessionRevoke g _ _ _ | DeviceTokenRevoke g _ _ _
      | InviteRevoke g _ _ => Some g
      | SessionCreate p => Some (sp_GroupID p)
      | DeviceTokenCreate p => Some (dt_GroupID p)
      | InviteCreate p => Some (ip_GroupID p)
      | InviteRedeem p => found_group (GetInviteForRedeem (ri_TokenHash p)) w
      | PasswordReset u _ _ => found_group (GetUserForLogin u) w
      end
  end.

(** ** Every request is a transaction of its group *)

Lemma method_discard g {A} (m : M A) : method g m -> method g (discard m).
Proof.
  intros Hm w. specialize (Hm w). unfold discard, mbind, prog_bind. by destruct (m w) as [[a|e] w'].
Qed.

Lemma method_SetLowWatermark g to : method g (Sync_SetLowWatermark g to).
Proof.
  apply method_writeTx. intros c. apply evo_bind.
  - intros w _ Hc. unfold SetGroupTombstoneLowWatermark.
    destruct (groups (wdb w) !! g) as [G|] eqn:EG; [|reflexivity].
    destruct (grp_DeletedAt G); simpl; [reflexivity|].
    assert (Hcnt : counter g (set_groups (<[g:=set_low_watermark G to]> (groups (wdb w))) (wdb w)) = counter g (wdb w)).
    { unfold counter. simpl. by rewrite lookup_insert_eq, EG. }
    split; simpl; try apply table_evo_refl; try done; [lia|..].
    + intros h Hh. by rewrite lookup_insert_ne.
    + intros k. destruct (mutations (wdb w) !! k); naive_solver.
    + intros k. destruct (conflicts (wdb w) !! k); naive_solver.
  - intros rows. destruct (negb _); apply evo_readonly; eauto with evo.
Qed.

Lemma method_handle g r : method g (handle g r).
Proof.
  destruct r; apply method_discard; try (apply method_SetLowWatermark);
    first [ apply method_Items_Create | apply method_Items_Update | apply method_Items_Delete
      | apply method_StockAdjustments_Create | apply method_Warranty_Create | apply method_Warranty_Update
      | apply method_Warranty_Delete | apply method_Sale_Create | apply method_Sale_Update | apply method_Sale_Delete
      | apply method_Purchase_Create | apply method_Purchase_Update | apply method_Purchase_Delete
      | apply method_Identifications_Create | apply method_Identifications_Update | apply method_Identifications_Delete
      | apply method_ItemCustomFields_Create | apply method_ItemCustomFields_Update
      | apply method_ItemCustomFields_Delete | apply method_Attachments_Create
      | apply method_Attachments_SetThumbnailPath | apply method_Attachments_Delete
      | apply method_Attachments_ClearThumbnailPath | apply method_CustomFieldDefs_Create
      | apply method_CustomFieldDefs_Update | apply method_CustomFieldDefs_Delete | apply method_Labels_Create
      | apply method_Labels_Update | apply method_Labels_Delete | apply method_ItemLabels_Attach
      | apply method_ItemLabels_Detach | apply method_Locations_Create | apply method_Locations_Update
      | apply method_Locations_Delete | intros w; apply method_ApplyMutation
      | apply method_GroupVisibility_Update | apply method_ImportSessions_Create
      | apply method_ImportSessions_Delete
      | apply method_ImportCommit ].
Qed.

(** [e] writes only to its group, and nothing when it has none. *)
Definition evolves (w : World) (o : option string) (m : M unit) : Prop :=
  match o with
  | Some g => Evo g (counter g (wdb w)) (wdb w) (wdb (m w).2)
  | None => wdb (m w).2 = wdb w
  end.

Lemma evolves_RedeemInvite p w :
  evolves w (found_group (GetInviteForRedeem (ri_TokenHash p)) w) (discard (RedeemInvite p)).
Proof.
  unfold evolves, found_group, discard, RedeemInvite, writeTx, no_rows_as, try, Tx, lift, mbind, prog_bind.
  destruct (RedeemInviteParams_validate p); [|by case_match].
  pose proof (select_one_state (fun i : Invite => (inv_TokenHash (Cols i) =?s ri_TokenHash p) && live i) w) as Hst.
  unfold GetInviteForRedeem. destruct (select_one _ w) as [[i|e] w'] eqn:E; simpl in Hst; subst w'; simpl.
  - pose proof (evo_redeem_in (GroupID i) (counter (GroupID i) (wdb w)) (counter (GroupID i) (wdb w)) p w
      (Z.le_refl _) (Z.le_refl _)) as HE. destruct (redeem_in (GroupID i) p w) as [[r|e] w']; simpl in *; [done|reflexivity].
  - done.
Qed.

Lemma evolves_ResetPassword u h now w :
  evolves w (found_group (GetUserForLogin u) w) (discard (ResetPassword u h now)).
Proof.
  unfold evolves, found_group, discard, ResetPassword, UserForLogin, no_rows_as, try, lift, mbind, prog_bind.
  destruct (ResetPassword_validate u h now); [|by case_match].
  pose proof (select_one_state (fun u' : User => (nocase (usr_Username (Cols u')) =?s nocase u) && live u') w) as Hst.
  unfold GetUserForLogin. destruct (select_one _ w) as [[i|e] w'] eqn:E; simpl in Hst; subst w'; simpl; [|done].
  pose proof (method_reset_user i h now w) as HE. by destruct (reset_user i h now w) as [[r|e] w'].
Qed.

Lemma evolves_event w e : evolves w (event_group w e) (handle_event e).
Proof.
  destruct e as [g r|a]; [apply method_handle|].
  destruct a; simpl; first
    [ apply evolves_RedeemInvite | apply evolves_ResetPassword | apply method_RegisterFirstUser
    | apply method_RegisterNewGroup | apply method_RehashPassword | apply method_CreateSession
    | apply method_RevokeSession | apply method_RevokeCallingSession | apply method_CreateDeviceToken
    | apply method_RevokeDeviceToken | apply method_CreateInvite | apply method_RevokeInvite ].
Qed.

Lemma history_serve evs w : history (wdb w) (wdb (serve evs w)).
Proof.
  unfold serve. revert w. induction evs as [|e evs IH]; intros w; simpl; [apply history_refl|].
  eapply history_trans; [|apply IH]. pose proof (evolves_event w e) as He. destruct (event_group w e) as [g|].
  - by eapply history_step; [apply history_refl|exact He].
  - simpl in He. rewrite He. apply history_refl.
Qed.
End system.

(** What every event keeps, the server keeps. *)
Lemma serve_keeps `{Entropy} (I : DB -> Prop) evs w :
  (forall e, keeps I (handle_event e)) -> I (wdb w) -> I (wdb (serve evs w)).
Proof.
  intros HI. unfold serve. revert w. induction evs as [|e evs IH]; intros w Hw; simpl; [done|].
  apply IH. by apply HI.
Qed.

(** ** The location graph stays a forest *)

Section locations.
Context `{Entropy}.

#[local] Hint Resolve createLocationTx_keeps updateLocationTx_keeps : steps.

Lemma push_dispatch_keeps g m : keeps loc_inv (push_dispatch g m).
Proof. steps_dispatch. Qed.
#[local] Hint Resolve push_dispatch_keeps : steps.

Lemma Locations_Delete_steps g p : keeps loc_inv (Locations_Delete g p).
Proof.
  intros w. destruct (Locations_Delete g p w) as [[[]|e] w'] eqn:E; simpl.
  - exact (Locations_Delete_keeps _ _ _ _ E).
  - apply writeTx_err in E. by rewrite E.
Qed.
#[local] Hint Resolve Locations_Delete_steps : steps.

Lemma SetLowWatermark_keeps g to : keeps loc_inv (Sync_SetLowWatermark g to).
Proof.
  apply steps_writeTx; [apply _|]. apply steps_bind; [apply _| |intros rows; destruct (negb _); solve_steps].
  intros w Hw. unfold SetGroupTombstoneLowWatermark.
  destruct (groups (wdb w) !! g) as [G|]; [destruct (grp_DeletedAt G)|]; exact Hw.
Qed.
#[local] Hint Resolve SetLowWatermark_keeps : steps.

Lemma handle_event_keeps_locations e : keeps loc_inv (handle_event e).
Proof.
  destruct e as [g r|a]; [destruct r|destruct a]; simpl; unfold discard, resolve_label; repeat steps_import.
Qed.

Lemma serve_keeps_locations evs w : loc_inv (wdb w) -> loc_inv (wdb (serve evs w)).
Proof. apply serve_keeps, handle_event_keeps_locations. Qed.
End locations.

(** ** What belongs to one group *)

Definition own {D} (g : string) (t : gmap string (Row D)) : gmap string (Row D) :=
  filter (fun kr : string * Row D => GroupID kr.2 = g) t.

(** The rows of one group, of every table. *)
Definition group_part (g : string) (db : DB) : DB :=
  mkDB (filter (fun kG : string * Group => kG.1 = g) (groups db))
    (own g (items db)) (own g (item_warranty db)) (own g (item_sale db)) (own g (item_purchase db))
    (own g (item_identifications db)) (own g (item_custom_fields db)) (own g (stock_adjustments db))
    (own g (locations db)) (own g (labels db)) (own g (item_labels db)) (own g (attachments db))
    (own g (custom_field_defs db))
    (own g (users db)) (own g (sessions db)) (own g (device_tokens db)) (own g (invites db))
    (filter (fun km : string * Mutation => mut_GroupID km.2 = g) (mutations db))
    (filter (fun kc : string * Conflict => con_GroupID kc.2 = g) (conflicts db))
    (filter (fun kf : fvKey * FieldVersion => fvk_group kf.1 = g) (field_versions db))
    (filter (fun ks : string * ImportSession => imp_GroupID ks.2 = g) (import_sessions db)).

Lemma filter_eq {K A} `{Countable K} (P : K * A -> Prop) `{forall x, Decision (P x)} (a b : gmap K A) :
  (forall k x, P (k, x) -> a !! k = Some x <-> b !! k = Some x) -> filter P a = filter P b.
Proof.
  intros Hab. apply map_eq. intros k. apply option_eq. intros x. rewrite !map_lookup_filter_Some.
  split; intros [Hk HP]; (split; [by apply (Hab k x)|done]).
Qed.

Lemma own_evo {D} g c0 c1 h (t t' : gmap string (Row D)) : table_evo g c0 c1 t t' -> h <> g -> own h t' = own h t.
Proof.
  intros Ht Hne. apply filter_eq. simpl. intros k r Hr. specialize (Ht k). unfold row_evo in Ht.
  destruct (t !! k) as [r0|], (t' !! k) as [r1|]; try done.
  - destruct Ht as [->|(Hg & _ & Hg' & _)]; [done|]. split; intros [= ->]; congruence.
  - destruct Ht as (_ & Hg & _). split; [|done]. intros [= ->]. congruence.
Qed.

Lemma group_part_evo g c0 h a b : Evo g c0 a b -> h <> g -> group_part h b = group_part h a.
Proof.
  intros HE Hne. unfold group_part. f_equal; try (eapply own_evo; [apply HE|done]).
  - apply filter_eq. simpl. intros k G ->. by rewrite (evo_groups _ _ _ _ HE).
  - apply filter_eq. simpl. intros k m Hm. pose proof (evo_mutations _ _ _ _ HE k) as Hk.
    destruct (mutations a !! k) as [m0|]; [rewrite Hk; naive_solver|].
    split; [|done]. intros Hb. specialize (Hk m Hb). congruence.
  - apply filter_eq. simpl. intros k m Hm. pose proof (evo_conflicts _ _ _ _ HE k) as Hk.
    destruct (conflicts a !! k) as [m0|]; [rewrite Hk; naive_solver|].
    split; [|done]. intros Hb. specialize (Hk m Hb). congruence.
  - apply filter_eq. simpl. intros k m Hm. rewrite (evo_field_versions _ _ _ _ HE); [done|congruence].
  - apply filter_eq. simpl. intros k s Hs. rewrite (evo_import_sessions _ _ _ _ HE); [done|congruence].
Qed.

(** ** The properties *)

(** The database of a new server: groups, and nothing else. *)
Definition initial (gs : gmap string Group) : World := mkWorld (set_groups gs emptyDB) 0.

Section properties.
Context `{Entropy}.

(** None of the events, when its turn comes, is one of the group. *)
Fixpoint spares (g : string) (evs : list event) (w : World) : Prop :=
  match evs with
  | [] => True
  | e :: evs => event_group w e <> Some g /\ spares g evs (handle_event e w).2
  end.

(** C4: tenants are isolated.  Whatever requests other groups make, of any
    kind and in any order, and whoever registers, logs in, redeems an invite
    or resets a password elsewhere, everything that belongs to a group, its
    rows in every table, users and credentials included, its ledger,
    conflicts, field versions and import sessions and its own row with the
    change counter, is exactly as it was. *)
Theorem tenant_isolation g evs w :
  spares g evs w -> group_part g (wdb (serve evs w)) = group_part g (wdb w).
Proof.
  unfold serve. revert w. induction evs as [|e evs IH]; intros w; simpl; [done|].
  intros [Hne Hevs]. rewrite IH by done. pose proof (evolves_event w e) as He.
  destruct (event_group w e) as [h|]; [|by simpl in He; rewrite He].
  eapply group_part_evo; [exact He|]. congruence.
Qed.

Lemma served_db_ok gs reqs : db_ok (wdb (serve reqs (initial gs))).
Proof.
  apply (db_ok_history (wdb (initial gs))); [apply history_serve|].
  split; intros k r; simpl; by rewrite lookup_empty.
Qed.

(** The invariants hold in every state a server reaches: rows are stored
    under their id and never stamped above their group's counter, and the
    locations of every group form a forest, each parent a row of the same
    group. *)
Theorem reachable_sound gs reqs :
  let db := wdb (serve reqs (initial gs)) in db_ok db /\ loc_inv db.
Proof.
  cbv zeta. split; [apply served_db_ok|]. apply serve_keeps_locations, loc_ok_empty.
Qed.

(** Nothing is lost and nothing is silent.  Whatever events are served,
    a row stays in its table, keeps its id and group, and if it changed at all
    has a higher version and a change sequence above the counter its group
    had before, so that it shows up in the next pull. *)
Theorem rows_persist {D} `{TableLaws D} reqs w k (r : Row D) :
  tbl (wdb w) !! k = Some r ->
  exists r', tbl (wdb (serve reqs w)) !! k = Some r' /\ newer (counter (GroupID r) (wdb w)) r r'.
Proof. intros Hr. by apply (row_kept_history D _ _ _ _ _ (history_serve reqs w)). Qed.
End properties.

(** ** The properties hold somewhere *)

Definition demo_requests : list event :=
  [OfGroup "g2" (ItemsCreate (mkCreateItem "i2" "Desk" "" "" 1 "CODE2" 150));
   OfAccount (RegisterGroup (mkFirstUser "g3" "Annex" "u3" "carol" "hash3" 151));
   OfGroup "g2" (LabelsCreate (mkCreateLabel "l9" "Fragile" "#f00" 152))]%string.

Lemma tenant_isolation_witness :
  group_part "g1" (wdb (serve demo_requests demo)) = group_part "g1" (wdb demo).
Proof.
  apply (tenant_isolation "g1" demo_requests demo).
  split; [discriminate|]. split; [discriminate|]. split; [discriminate|exact I].
Defined.

Definition demo_item_row : Item :=
  mkRow "i1" "g1" 101 101 1 None 1 (mkItem "Lamp" "" None 3 "CODE1" None).

Lemma rows_persist_witness : exists r',
  items (wdb (serve [OfGroup "g1" (ItemsDelete "i1" 300)] demo)) !! "i1"%string = Some r' /\
  newer (counter "g1" (wdb demo)) demo_item_row r'.
Proof.
  destruct (rows_persist (D := ItemCols) [OfGroup "g1" (ItemsDelete "i1" 300)] demo "i1" demo_item_row)
    as (r' & Hr & Hn); [vm_compute; reflexivity|]. exists r'. split; [exact Hr|exact Hn].
Defined.
