(* ===== verification/Integrity.v ===== *)
(** * The constraints hold of every reachable database

    [integ db]: every stored row satisfies the CHECK and FOREIGN KEY
    constraints of its table and no UNIQUE index holds a key twice.  SQLite
    checks a statement's own rows; that the other rows stay good (a parent
    cannot go away or change group, a key cannot be taken later) is proved
    here, for every request of [System].  A second invariant is kept by the
    code alone: live labels of a group have different names. *)

From S2P Require Import Prelude GoBase Schema Sql Evolution Queries PushRepo Items Blocks Details.
From S2P Require Import Exec History Labels Locations PushFields PushHandlers PushCommit PushMerge.
From S2P Require Import Accounts ImportCommit SyncReader Demo System.

(** ** One table *)

Record table_integ (D : Type) `{Table D} (db : DB) : Prop := mkTableInteg {
  int_keyed : keyed (tbl (D := D) db);
  int_check : forall k (r : Row D), tbl db !! k = Some r -> check_constraints (Cols r) = true;
  int_unique : forall ix k1 k2 (r1 r2 : Row D), ix ∈ unique_indexes ->
    tbl db !! k1 = Some r1 -> tbl db !! k2 = Some r2 -> opt_key_eqb (ix r1) (ix r2) = true -> k1 = k2;
  int_fk : forall k (r : Row D), tbl db !! k = Some r -> foreign_keys db r = true;
}.

(** Parents may be added, never lost. *)
Record grows (a b : DB) : Prop := mkGrows {
  grow_groups : forall g, group_exists a g = true -> group_exists b g = true;
  grow_items : forall g k, parent_exists (items a) g k = true -> parent_exists (items b) g k = true;
  grow_locations : forall g k, parent_exists (locations a) g k = true -> parent_exists (locations b) g k = true;
  grow_labels : forall g k, parent_exists (labels a) g k = true -> parent_exists (labels b) g k = true;
  grow_defs : forall g k, parent_exists (custom_field_defs a) g k = true -> parent_exists (custom_field_defs b) g k = true;
  grow_users : forall g k, parent_exists (users a) g k = true -> parent_exists (users b) g k = true;
}.

(** A later version of a table: every row is there, in its group. *)
Definition covers {D} (t t' : gmap string (Row D)) : Prop :=
  forall k r, t !! k = Some r -> exists r', t' !! k = Some r' /\ GroupID r' = GroupID r.

Lemma covers_parent {D} (t t' : gmap string (Row D)) g k :
  covers t t' -> parent_exists t g k = true -> parent_exists t' g k = true.
Proof.
  intros Hc. unfold parent_exists. destruct (t !! k) as [r|] eqn:E; [|done].
  destruct (Hc k r E) as (r' & -> & ->). done.
Qed.

Lemma covers_insert {D} (t : gmap string (Row D)) r : t !! ID r = None -> covers t (<[ID r := r]> t).
Proof. intros Hn k r0 Hk. exists r0. rewrite lookup_insert_ne by congruence. done. Qed.

Lemma covers_update {D} (t : gmap string (Row D)) P f :
  (forall r, GroupID (f r) = GroupID r) -> covers t (update_where P f t).
Proof.
  intros Hf k r Hk. rewrite update_where_lookup, Hk. simpl. eexists. split; [done|].
  by destruct (P r).
Qed.

Record integ (db : DB) : Prop := mkInteg {
  int_items : table_integ ItemCols db;
  int_warranty : table_integ WarrantyCols db;
  int_sale : table_integ SaleCols db;
  int_purchase : table_integ PurchaseCols db;
  int_identifications : table_integ IdentificationCols db;
  int_custom_fields : table_integ CustomFieldCols db;
  int_stock : table_integ StockCols db;
  int_locations : table_integ LocationCols db;
  int_labels : table_integ LabelCols db;
  int_item_labels : table_integ ItemLabelCols db;
  int_attachments : table_integ AttachmentCols db;
  int_custom_field_defs : table_integ CustomFieldDefCols db;
  int_users : table_integ UserCols db;
  int_sessions : table_integ SessionCols db;
  int_device_tokens : table_integ DeviceTokenCols db;
  int_invites : table_integ InviteCols db;
}.

(** Foreign keys look at parents only. *)
Class FkGrows (D : Type) `{Table D} : Prop :=
  fk_grows a b (r : Row D) : grows a b -> foreign_keys a r = true -> foreign_keys b r = true.

Lemma nullable_grows {D} (t t' : gmap string (Row D)) g o :
  (forall k, parent_exists t g k = true -> parent_exists t' g k = true) ->
  nullable_parent_exists t g o = true -> nullable_parent_exists t' g o = true.
Proof. intros Ht. destruct o; simpl; auto. Qed.

Ltac solve_fk_grows :=
  intros a b r [? ? ? ? ? ?]; simpl; rewrite ?andb_true_iff; intuition eauto using nullable_grows.

#[global] Instance fk_items : FkGrows ItemCols. Proof. solve_fk_grows. Qed.
#[global] Instance fk_warranty : FkGrows WarrantyCols. Proof. solve_fk_grows. Qed.
#[global] Instance fk_sale : FkGrows SaleCols. Proof. solve_fk_grows. Qed.
#[global] Instance fk_purchase : FkGrows PurchaseCols. Proof. solve_fk_grows. Qed.
#[global] Instance fk_identifications : FkGrows IdentificationCols. Proof. solve_fk_grows. Qed.
#[global] Instance fk_custom_fields : FkGrows CustomFieldCols. Proof. solve_fk_grows. Qed.
#[global] Instance fk_stock : FkGrows StockCols. Proof. solve_fk_grows. Qed.
#[global] Instance fk_locations : FkGrows LocationCols. Proof. solve_fk_grows. Qed.
#[global] Instance fk_labels : FkGrows LabelCols. Proof. solve_fk_grows. Qed.
#[global] Instance fk_item_labels : FkGrows ItemLabelCols. Proof. solve_fk_grows. Qed.
#[global] Instance fk_attachments : FkGrows AttachmentCols. Proof. solve_fk_grows. Qed.
#[global] Instance fk_custom_field_defs : FkGrows CustomFieldDefCols. Proof. solve_fk_grows. Qed.
#[global] Instance fk_users : FkGrows UserCols. Proof. solve_fk_grows. Qed.
#[global] Instance fk_sessions : FkGrows SessionCols. Proof. solve_fk_grows. Qed.
#[global] Instance fk_device_tokens : FkGrows DeviceTokenCols. Proof. solve_fk_grows. Qed.
#[global] Instance fk_invites : FkGrows InviteCols. Proof. solve_fk_grows. Qed.

(** A table that a write did not touch. *)
Lemma table_integ_grows D `{FkGrows D} a b :
  tbl (D := D) b = tbl a -> grows a b -> table_integ D a -> table_integ D b.
Proof.
  intros Ht Hg [Hk Hc Hu Hf]. split; rewrite Ht; try done. intros k r Hr. eapply fk_grows; eauto.
Qed.

Lemma integ_frame a b :
  integ a -> grows a b ->
  items b = items a -> item_warranty b = item_warranty a -> item_sale b = item_sale a ->
  item_purchase b = item_purchase a -> item_identifications b = item_identifications a ->
  item_custom_fields b = item_custom_fields a -> stock_adjustments b = stock_adjustments a ->
  locations b = locations a -> labels b = labels a -> item_labels b = item_labels a ->
  attachments b = attachments a -> custom_field_defs b = custom_field_defs a ->
  users b = users a -> sessions b = sessions a -> device_tokens b = device_tokens a -> invites b = invites a ->
  integ b.
Proof. intros [] Hg ? ? ? ? ? ? ? ? ? ? ? ? ? ? ? ?. by split; apply (table_integ_grows _ a). Qed.

(** What the proofs need of a table: writing it adds parents only, and the
    invariant of the database is that of this table and of the others. *)
Class IntegTable (D : Type) `{Table D} : Prop := {
  integ_laws :: TableLaws D;
  integ_fk :: FkGrows D;
  set_grows db (t : gmap string (Row D)) : covers (tbl db) t -> grows db (set_tbl t db);
  integ_get db : integ db -> table_integ D db;
  integ_set db (t : gmap string (Row D)) :
    integ db -> grows db (set_tbl t db) -> table_integ D (set_tbl t db) -> integ (set_tbl t db);
}.

Ltac solve_integ_table :=
  split; [apply _|apply _
    |intros db t Ht; split; simpl; intros; try done; by apply (covers_parent _ _ _ _ Ht)
    |by intros db []
    |intros db t [] Hg Ht; split; first [exact Ht | by apply (table_integ_grows _ db)]].

#[global] Instance integ_items : IntegTable ItemCols. Proof. solve_integ_table. Qed.
#[global] Instance integ_warranty : IntegTable WarrantyCols. Proof. solve_integ_table. Qed.
#[global] Instance integ_sale : IntegTable SaleCols. Proof. solve_integ_table. Qed.
#[global] Instance integ_purchase : IntegTable PurchaseCols. Proof. solve_integ_table. Qed.
#[global] Instance integ_identifications : IntegTable IdentificationCols. Proof. solve_integ_table. Qed.
#[global] Instance integ_custom_fields : IntegTable CustomFieldCols. Proof. solve_integ_table. Qed.
#[global] Instance integ_stock : IntegTable StockCols. Proof. solve_integ_table. Qed.
#[global] Instance integ_locations : IntegTable LocationCols. Proof. solve_integ_table. Qed.
#[global] Instance integ_labels : IntegTable LabelCols. Proof. solve_integ_table. Qed.
#[global] Instance integ_item_labels : IntegTable ItemLabelCols. Proof. solve_integ_table. Qed.
#[global] Instance integ_attachments : IntegTable AttachmentCols. Proof. solve_integ_table. Qed.
#[global] Instance integ_custom_field_defs : IntegTable CustomFieldDefCols. Proof. solve_integ_table. Qed.
#[global] Instance integ_users : IntegTable UserCols. Proof. solve_integ_table. Qed.
#[global] Instance integ_sessions : IntegTable SessionCols. Proof. solve_integ_table. Qed.
#[global] Instance integ_device_tokens : IntegTable DeviceTokenCols. Proof. solve_integ_table. Qed.
#[global] Instance integ_invites : IntegTable InviteCols. Proof. solve_integ_table. Qed.

(** ** INSERT and UPDATE keep the constraints *)

Section statements.
Context {D : Type} `{IntegTable D}.
Implicit Types (r : Row D) (t : gmap string (Row D)).

Lemma opt_key_eqb_sym k1 k2 : opt_key_eqb k1 k2 = opt_key_eqb k2 k1.
Proof. destruct k1, k2; simpl; try done. apply bool_decide_ext. done. Qed.

Lemma unique_clash_false (others : list (Row D)) r ix r' :
  unique_clash others r = false -> ix ∈ unique_indexes -> r' ∈ others -> opt_key_eqb (ix r) (ix r') = false.
Proof.
  unfold unique_clash. rewrite existsb_false_iff. intros Hc Hix Hr'. specialize (Hc ix Hix).
  rewrite existsb_false_iff in Hc. by apply Hc.
Qed.

Lemma insert_row_keeps r : keeps integ (insert_row r).
Proof.
  intros w Hi. destruct (insert_row r w) as [[[]|e] w'] eqn:E; [|by apply insert_row_err in E as ->].
  apply insert_row_ok in E as (Hc & Hu & Hn & Hf & ->). simpl in *.
  pose proof (integ_get _ Hi) as [Hk Hck Huq Hfk].
  assert (Hg : grows (wdb w) (set_tbl (<[ID r:=r]> (tbl (wdb w))) (wdb w))) by (by apply set_grows, covers_insert).
  assert (Hclash : forall ix k r', ix ∈ unique_indexes -> tbl (wdb w) !! k = Some r' -> opt_key_eqb (ix r) (ix r') = false).
  { intros ix k r' Hix Hr'. eapply unique_clash_false; [exact Hu|done|]. apply elem_of_rows. eauto. }
  apply integ_set; [done|done|]. split; rewrite tbl_set_tbl.
  - intros k r'. destruct (decide (k = ID r)) as [->|]; [rewrite lookup_insert_eq; by intros [= <-]|].
    rewrite lookup_insert_ne by done. apply Hk.
  - intros k r'. destruct (decide (k = ID r)) as [->|]; [rewrite lookup_insert_eq; by intros [= <-]|].
    rewrite lookup_insert_ne by done. apply Hck.
  - intros ix k1 k2 r1 r2 Hix.
    destruct (decide (k1 = ID r)) as [->|], (decide (k2 = ID r)) as [->|];
      rewrite ?lookup_insert_eq, ?lookup_insert_ne by done; [done| | |by apply Huq].
    + intros [= <-] Hr2. by rewrite (Hclash ix k2).
    + intros Hr1 [= <-]. rewrite opt_key_eqb_sym. by rewrite (Hclash ix k1).
  - intros k r'. destruct (decide (k = ID r)) as [->|]; [rewrite lookup_insert_eq; by intros [= <-]|].
    rewrite lookup_insert_ne by done. intros Hr'. eapply fk_grows; [exact Hg|]. by eapply Hfk.
Qed.

Lemma update_rows_keeps P (f : Row D -> Row D) :
  (forall r, ID (f r) = ID r /\ GroupID (f r) = GroupID r) -> keeps integ (update_rows P f).
Proof.
  intros Hpres w Hi. destruct (update_rows P f w) as [[n|e] w'] eqn:E; [|by apply update_rows_err in E as ->].
  apply update_rows_ok in E as (_ & Hrows & ->). simpl.
  pose proof (integ_get _ Hi) as [Hk Hck Huq Hfk]. set (t := tbl (wdb w)) in *.
  assert (Hg : grows (wdb w) (set_tbl (update_where P f t) (wdb w))) by (apply set_grows, covers_update, Hpres).
  assert (Hin : forall k r, t !! k = Some r -> P r = true -> r ∈ where_ P t).
  { intros k r Hr HP. apply elem_of_where. eauto. }
  assert (Hlook : forall k r', update_where P f t !! k = Some r' ->
    exists r, t !! k = Some r /\ r' = if P r then f r else r).
  { intros k r'. rewrite update_where_lookup. destruct (t !! k) as [r|]; naive_solver. }
  assert (Hkeyed : keyed (update_where P f t)).
  { intros k r' (r & Hr & ->)%Hlook. rewrite <- (Hk k r Hr). destruct (P r); [apply Hpres|done]. }
  assert (Hchg : forall ix k1 k2 r r2, ix ∈ unique_indexes -> t !! k1 = Some r -> P r = true ->
    update_where P f t !! k2 = Some r2 -> opt_key_eqb (ix (f r)) (ix r2) = true -> k1 = k2).
  { intros ix k1 k2 r r2 Hix Hr HP Hr2 Heq. destruct (decide (k1 = k2)) as [|Hne]; [done|].
    destruct (Hrows r (Hin _ _ Hr HP)) as (_ & Hu & _).
    rewrite (unique_clash_false _ _ ix r2 Hu Hix) in Heq; [done|].
    apply elem_of_filter_bool. split; [apply elem_of_rows; eauto|].
    rewrite (Hkeyed k2 r2 Hr2), (proj1 (Hpres r)), (Hk k1 r Hr). by apply negb_true_iff, string_eqb_false. }
  apply integ_set; [done|done|]. split; rewrite tbl_set_tbl.
  - done.
  - intros k r' (r & Hr & ->)%Hlook. destruct (P r) eqn:HP; [|by eapply Hck].
    by apply (Hrows r (Hin _ _ Hr HP)).
  - intros ix k1 k2 r1 r2 Hix Hr1 Hr2 Heq.
    destruct (Hlook _ _ Hr1) as (q1 & Hq1 & E1), (Hlook _ _ Hr2) as (q2 & Hq2 & E2).
    destruct (P q1) eqn:HP1; [subst r1; by eapply Hchg|].
    destruct (P q2) eqn:HP2; [subst r2; symmetry; rewrite opt_key_eqb_sym in Heq; by eapply Hchg|].
    subst. by eapply Huq.
  - intros k r' (r & Hr & ->)%Hlook. destruct (P r) eqn:HP.
    + by apply (Hrows r (Hin _ _ Hr HP)).
    + eapply fk_grows; [exact Hg|]. by eapply Hfk.
Qed.
End statements.

(** ** Every request keeps the constraints *)

Lemma integ_set_groups db t : (forall g, group_exists db g = true -> is_Some (t !! g)) -> integ db -> integ (set_groups t db).
Proof.
  intros Ht Hi. apply (integ_frame db); try done. split; simpl; try done.
  intros g Hg. unfold group_exists in *. simpl. by destruct (Ht g Hg) as [? ->].
Qed.

Lemma group_exists_insert db g g' G : group_exists db g' = true -> is_Some (<[g := G]> (groups db) !! g').
Proof.
  unfold group_exists. intros Hg. destruct (decide (g' = g)) as [->|].
  - rewrite lookup_insert_eq. eauto.
  - rewrite lookup_insert_ne by done. destruct (groups db !! g'); [eauto|done].
Qed.

Lemma integ_set_mutations db t : integ db -> integ (set_mutations t db).
Proof. intros Hi. by apply (integ_frame db). Qed.
Lemma integ_set_conflicts db t : integ db -> integ (set_conflicts t db).
Proof. intros Hi. by apply (integ_frame db). Qed.
Lemma integ_set_field_versions db t : integ db -> integ (set_field_versions t db).
Proof. intros Hi. by apply (integ_frame db). Qed.

Lemma AllocChangeSeq_keeps g : keeps integ (AllocChangeSeq g).
Proof.
  intros w Hi. unfold AllocChangeSeq. destruct (groups (wdb w) !! g) as [G|]; simpl; [|done].
  apply integ_set_groups; [|done]. intros g'. apply group_exists_insert.
Qed.

Lemma SetLowWatermark_keeps_integ g to : keeps integ (SetGroupTombstoneLowWatermark to g).
Proof.
  intros w Hi. unfold SetGroupTombstoneLowWatermark. destruct (groups (wdb w) !! g) as [G|]; [|done].
  destruct (grp_DeletedAt G); [done|]. apply integ_set_groups; [|done]. intros g'. apply group_exists_insert.
Qed.

Lemma group_writes_keep :
  (forall g name now, keeps integ (CreateGroup g name now)) /\
  (forall g name now, keeps integ (CreateGroupIfNone g name now)) /\
  (forall a b c now seq g v, keeps integ (UpdateGroupVisibility a b c now seq g v)).
Proof.
  split_and!; intros; intros w Hi; unfold CreateGroup, CreateGroupIfNone, UpdateGroupVisibility;
    repeat (case_match; simpl; try done); (apply integ_set_groups; [|done]); intros g'; apply group_exists_insert.
Qed.

Lemma import_sessions_keep g :
  (forall id src a b, keeps integ (CreateImportSession id g src a b)) /\
  (forall id, keeps integ (DeleteImportSession g id)) /\
  (forall id, keeps integ (MarkImportSessionCommitted g id)).
Proof. apply steps_import_sessions; [apply _|]. intros db t Hi. by apply (integ_frame db). Qed.

Lemma UpsertFieldVersion_keeps g et eid f v now : keeps integ (UpsertFieldVersion g et eid f v now).
Proof. apply steps_UpsertFieldVersion; [apply _|]. intros. by apply integ_set_field_versions. Qed.

Lemma CreateMutation_keeps id g mid et eid now o : keeps integ (CreateMutation id g mid et eid now o).
Proof. apply steps_CreateMutation; [apply _|]. intros. by apply integ_set_mutations. Qed.

Lemma CreateConflict_keeps id row : keeps integ (CreateConflict id row).
Proof. apply steps_CreateConflict; [apply _|]. intros. by apply integ_set_conflicts. Qed.

#[export] Hint Extern 1 (steps (fun _ _ => integ _ -> integ _) (insert_row _)) => apply insert_row_keeps : steps.
#[export] Hint Extern 1 (steps (fun _ _ => integ _ -> integ _) (update_rows _ _)) =>
  (apply update_rows_keeps; intros; split; reflexivity) : steps.
#[export] Hint Extern 1 (steps (fun _ _ => integ _ -> integ _) _) =>
  first [apply group_writes_keep | apply import_sessions_keep] : steps.
#[export] Hint Resolve AllocChangeSeq_keeps SetLowWatermark_keeps_integ
  UpsertFieldVersion_keeps CreateMutation_keeps CreateConflict_keeps : steps.

Section requests.
Context `{Entropy}.

Lemma push_dispatch_keeps_integ g m : keeps integ (push_dispatch g m).
Proof. steps_dispatch. Qed.
#[local] Hint Resolve push_dispatch_keeps_integ : steps.

Lemma handle_event_keeps_integ e : keeps integ (handle_event e).
Proof.
  destruct e as [g r|a]; [destruct r|destruct a]; simpl; unfold discard, resolve_label; repeat steps_import.
Qed.

Lemma serve_keeps_integ evs w : integ (wdb w) -> integ (wdb (serve evs w)).
Proof. apply serve_keeps, handle_event_keeps_integ. Qed.

Lemma integ_initial gs : integ (wdb (initial gs)).
Proof.
  split; (split; [intros k r|intros k r|intros ix k1 k2 r1 r2 _|intros k r]; simpl; by rewrite lookup_empty).
Qed.
End requests.

(** ** Label names *)

(** No two live labels of a group have the same name. *)
Record label_names (db : DB) : Prop := mkLabelNames {
  names_keyed : keyed (labels db);
  names_distinct : forall k1 k2 r1 r2,
    labels db !! k1 = Some r1 -> labels db !! k2 = Some r2 -> live r1 = true -> live r2 = true ->
    GroupID r1 = GroupID r2 -> lbl_Name (Cols r1) = lbl_Name (Cols r2) -> k1 = k2;
}.

(** The new name is not taken by another live label. *)
Definition name_free (t : gmap string Label) (g id name : string) : Prop :=
  forall k r, t !! k = Some r -> live r = true -> GroupID r = g -> lbl_Name (Cols r) = name -> k = id.

Lemma label_names_insert db (r : Label) :
  label_names db -> labels db !! ID r = None -> name_free (labels db) (GroupID r) (ID r) (lbl_Name (Cols r)) ->
  label_names (set_labels (<[ID r := r]> (labels db)) db).
Proof.
  intros [Hk Hd] Hn Hfree. split; simpl.
  - intros k r'. destruct (decide (k = ID r)) as [->|]; [rewrite lookup_insert_eq; by intros [= <-]|].
    rewrite lookup_insert_ne by done. apply Hk.
  - intros k1 k2 r1 r2. destruct (decide (k1 = ID r)) as [->|], (decide (k2 = ID r)) as [->|];
      rewrite ?lookup_insert_eq, ?lookup_insert_ne by done; [done| | |by apply Hd].
    + intros [= <-] Hr2 _ Hl Hg Hname. symmetry. by eapply Hfree.
    + intros Hr1 [= <-] Hl _ Hg Hname. by eapply Hfree.
Qed.

Lemma label_names_update db P f g id name :
  label_names db ->
  (forall r, ID (f r) = ID r /\ GroupID (f r) = GroupID r /\ lbl_Name (Cols (f r)) = name) ->
  (forall r, P r = true -> GroupID r = g /\ ID r = id) -> name_free (labels db) g id name ->
  label_names (set_labels (update_where P f (labels db)) db).
Proof.
  intros [Hk Hd] Hf HP Hfree.
  assert (Hlook : forall k r', update_where P f (labels db) !! k = Some r' ->
    exists r, labels db !! k = Some r /\ r' = if P r then f r else r).
  { intros k r'. rewrite update_where_lookup. destruct (labels db !! k) as [r|]; naive_solver. }
  split; simpl.
  - intros k r' (r & Hr & ->)%Hlook. rewrite <- (Hk k r Hr). destruct (P r); [apply Hf|done].
  - intros k1 k2 r1 r2 (q1 & Hq1 & E1)%Hlook (q2 & Hq2 & E2)%Hlook Hl1 Hl2 Hg Hn.
    destruct (P q1) eqn:HP1, (P q2) eqn:HP2; subst r1 r2.
    + rewrite <- (Hk _ _ Hq1), <- (Hk _ _ Hq2), (proj2 (HP _ HP1)), (proj2 (HP _ HP2)). done.
    + destruct (HP _ HP1) as [Hqg Hid], (Hf q1) as (_ & Hg1 & Hn1). rewrite <- (Hk _ _ Hq1), Hid.
      symmetry. eapply Hfree; [done|done|congruence|congruence].
    + destruct (HP _ HP2) as [Hqg Hid], (Hf q2) as (_ & Hg2 & Hn2). rewrite <- (Hk _ _ Hq2), Hid.
      eapply Hfree; [done|done|congruence|congruence].
    + by eapply Hd.
Qed.

Lemma label_names_tombstone db P now seq :
  label_names db -> label_names (set_labels (update_where P (tombstone now seq) (labels db)) db).
Proof.
  intros [Hk Hd]. split; simpl.
  - intros k r'. rewrite update_where_lookup. destruct (labels db !! k) as [r|] eqn:E; simpl; [|done].
    intros [= <-]. rewrite <- (Hk k r E). by destruct (P r).
  - intros k1 k2 r1 r2. rewrite !update_where_lookup.
    destruct (labels db !! k1) as [q1|] eqn:E1, (labels db !! k2) as [q2|] eqn:E2; simpl; try done.
    intros [= <-] [= <-]. destruct (P q1); [done|]. destruct (P q2); [done|]. by apply Hd.
Qed.

Lemma createLabelTx_keeps g p : keeps label_names (createLabelTx g p).
Proof.
  intros w Hinv. destruct (createLabelTx g p w) as [[r|e] w'] eqn:H; simpl;
    unfold createLabelTx, GetLabelByName, GetLabel, CreateLabel in H; [run_inv|run_inv_err];
    simpl in *; try done; try (by destruct Hinv; split);
    match goal with |- label_names (set_labels (<[_:=?r0]> _) ?db) =>
      apply (label_names_insert db r0); [by destruct Hinv; split|done|simpl] end;
    intros k r' Hk Hl Hg Hn; simpl in *;
    match goal with Hno : forall k r, _ !! k = Some r -> _ = false |- _ =>
      specialize (Hno k r' Hk); by rewrite Hg, Hn, Hl, !string_eqb_refl in Hno end.
Qed.

Lemma updateLabelTx_keeps g p : keeps label_names (updateLabelTx g p).
Proof.
  intros w Hinv. destruct (updateLabelTx g p w) as [[r|e] w'] eqn:H; simpl;
    unfold updateLabelTx, GetLabelByName, GetLabel, UpdateLabel in H; [run_inv|run_inv_err];
    simpl in *; bool_facts; try done; try (by destruct Hinv; split);
    match goal with |- label_names (set_labels (update_where _ _ _) ?db) =>
      apply (label_names_update db _ _ g (ul_ID p) (ul_Name p));
        [by destruct Hinv; split|done|intros ? ?; bool_facts; done|simpl] end;
    intros k r' Hk Hl Hg Hn; simpl in *.
  all: first
    [ match goal with Hno : forall k r, _ !! k = Some r -> _ = false |- _ =>
        by specialize (Hno k r' Hk); rewrite Hg, Hn, Hl, !string_eqb_refl in Hno end
    | match goal with
      | Ha : labels _ !! ?ka = Some ?a, Hna : lbl_Name (Cols ?a) = ul_Name _, Hida : ID ?a = ul_ID _, Hb : labels _ !! ?kb = Some ?b |- ?kb = _ =>
          rewrite <- Hida, (names_keyed _ Hinv _ _ Ha);
          apply (names_distinct _ Hinv kb ka b a); (done || congruence)
      end ].
Qed.

Lemma AllocChangeSeq_keeps_names g : keeps label_names (AllocChangeSeq g).
Proof. apply steps_AllocChangeSeq; [apply _|]. intros db t []. by split. Qed.

Lemma update_rows_keeps_names {D} `{Table D} P (f : Row D -> Row D) :
  (forall db (t : gmap string (Row D)), labels (set_tbl t db) = labels db) -> keeps label_names (update_rows P f).
Proof. intros Ht. apply steps_update_rows; [apply _|]. intros db _ []. by split; rewrite Ht. Qed.

Lemma insert_row_keeps_names {D} `{Table D} (r : Row D) :
  (forall db (t : gmap string (Row D)), labels (set_tbl t db) = labels db) -> keeps label_names (insert_row r).
Proof. intros Ht. apply steps_insert_row; [apply _|]. intros db _ _ _ []. by split; rewrite Ht. Qed.

Lemma tombstone_keeps_names P now seq : keeps label_names (update_rows (D := LabelCols) P (tombstone now seq)).
Proof. apply steps_update_rows; [apply _|]. intros db _. apply label_names_tombstone. Qed.

Lemma push_tables_keep_names :
  (forall g et eid f v now, keeps label_names (UpsertFieldVersion g et eid f v now)) /\
  (forall id g mid et eid now o, keeps label_names (CreateMutation id g mid et eid now o)) /\
  (forall id row, keeps label_names (CreateConflict id row)).
Proof.
  split_and!; intros; [apply steps_UpsertFieldVersion|apply steps_CreateMutation|apply steps_CreateConflict];
    try apply _; intros db t []; by split.
Qed.

Lemma SetLowWatermark_keeps_names g to : keeps label_names (SetGroupTombstoneLowWatermark to g).
Proof.
  intros w []. unfold SetGroupTombstoneLowWatermark. destruct (groups (wdb w) !! g) as [G|]; [|done].
  by destruct (grp_DeletedAt G).
Qed.

Lemma group_writes_keep_names :
  (forall g name now, keeps label_names (CreateGroup g name now)) /\
  (forall g name now, keeps label_names (CreateGroupIfNone g name now)) /\
  (forall a b c now seq g v, keeps label_names (UpdateGroupVisibility a b c now seq g v)).
Proof. apply steps_groups; [apply _|]. intros db t []; by split. Qed.

Lemma import_sessions_keep_names g :
  (forall id src a b, keeps label_names (CreateImportSession id g src a b)) /\
  (forall id, keeps label_names (DeleteImportSession g id)) /\
  (forall id, keeps label_names (MarkImportSessionCommitted g id)).
Proof. apply steps_import_sessions; [apply _|]. intros db t []; by split. Qed.

#[export] Hint Extern 1 (steps (fun _ _ => label_names _ -> label_names _) (insert_row _)) =>
  (apply insert_row_keeps_names; reflexivity) : steps.
#[export] Hint Extern 1 (steps (fun _ _ => label_names _ -> label_names _) (update_rows _ _)) =>
  first [ apply tombstone_keeps_names | apply update_rows_keeps_names; reflexivity ] : steps.
#[export] Hint Extern 1 (steps (fun _ _ => label_names _ -> label_names _) _) =>
  first [apply push_tables_keep_names | apply group_writes_keep_names | apply import_sessions_keep_names] : steps.
#[export] Hint Resolve createLabelTx_keeps updateLabelTx_keeps AllocChangeSeq_keeps_names
  SetLowWatermark_keeps_names : steps.

Section names_served.
Context `{Entropy}.

Lemma push_dispatch_keeps_names g m : keeps label_names (push_dispatch g m).
Proof. steps_dispatch. Qed.
#[local] Hint Resolve push_dispatch_keeps_names : steps.

(** A label is created by an import only when its name is free. *)
Lemma resolve_label_keeps g name now : keeps label_names (resolve_label g name now).
Proof.
  intros w Hinv. destruct (resolve_label g name now w) as [[r|e] w'] eqn:Hrun; simpl;
    unfold resolve_label, GetLabelByName, newImportRowID, new_uuid, CreateLabel in Hrun; [run_inv|run_inv_err];
    unfold draw in *; simplify_eq/=; try done; try (by destruct Hinv; split).
  match goal with |- label_names (set_labels (<[_:=?r0]> _) ?db) =>
    apply (label_names_insert db r0); [by destruct Hinv; split|done|simpl] end.
  intros k r' Hk Hl Hg Hn. simpl in *.
  match goal with Hno : forall k r, _ !! k = Some r -> _ = false |- _ =>
    specialize (Hno k r' Hk); by rewrite Hg, Hn, Hl, !string_eqb_refl in Hno end.
Qed.
#[local] Hint Resolve resolve_label_keeps : steps.

Lemma handle_event_keeps_names e : keeps label_names (handle_event e).
Proof.
  destruct e as [g r|a]; [destruct r|destruct a]; simpl; unfold discard; repeat steps_import.
Qed.
End names_served.

(** ** The properties *)

Section properties.
Context `{Entropy}.

Lemma served_label_names gs evs : label_names (wdb (serve evs (initial gs))).
Proof.
  apply serve_keeps; [apply handle_event_keeps_names|].
  split; [intros k r|intros k k' r r']; simpl; by rewrite lookup_empty.
Qed.


(** The live labels of a group have different names in every state a
    server reaches, though no index says so: whichever way labels are
    created, renamed, pushed, imported or deleted. *)
Theorem label_names_unique gs reqs k1 k2 r1 r2 :
  let db := wdb (serve reqs (initial gs)) in
  labels db !! k1 = Some r1 -> labels db !! k2 = Some r2 -> live r1 = true -> live r2 = true ->
  GroupID r1 = GroupID r2 -> lbl_Name (Cols r1) = lbl_Name (Cols r2) -> k1 = k2.
Proof.
  cbv zeta. apply (names_distinct (wdb (serve reqs (initial gs)))), served_label_names.
Qed.
End properties.

(** Two names of one label. *)
Lemma label_names_unique_witness :
  let reqs := [OfGroup "g1" (LabelsCreate (mkCreateLabel "l1" "Fragile" "#f00" 103))]%string in
  let l1 := mkRow "l1" "g1" 103 103 1 None 1 (mkLabel "Fragile" "#f00") in
  labels (wdb (serve reqs (initial {[ "g1" := demo_group "Home" ]})%string)) !! "l1"%string = Some l1 /\
  "l1"%string = "l1"%string.
Proof.
  cbv zeta. split; [vm_compute; reflexivity|].
  apply (label_names_unique {[ "g1" := demo_group "Home" ]}%string
    [OfGroup "g1" (LabelsCreate (mkCreateLabel "l1" "Fragile" "#f00" 103))]%string "l1" "l1"
    (mkRow "l1" "g1" 103 103 1 None 1 (mkLabel "Fragile" "#f00"))
    (mkRow "l1" "g1" 103 103 1 None 1 (mkLabel "Fragile" "#f00")));
    [vm_compute; reflexivity|vm_compute; reflexivity|done..].
Defined.
