(* ===== verification/RepositoryProperties.v ===== *)
(** * Properties of the repositories

    Failing requests, optimistic locking, the cascade of an item's deletion,
    stock adjustments and label edges. *)

From S2P Require Import Prelude GoBase Schema Sql Evolution Queries PushRepo Items Blocks Details.
From S2P Require Import Exec History Labels Locations PushFields PushHandlers PushCommit PushMerge.
From S2P Require Import Accounts ImportCommit SyncReader Demo System.

(** ** Failing requests *)

Lemma discard_err {A} (m : M A) e w w' : discard m w = (Err e, w') -> m w = (Err e, w').
Proof. unfold discard, mbind, prog_bind. destruct (m w) as [[a|e0] w1]; [done|]. by intros [= -> ->]. Qed.

Lemma ApplyMutation_err `{Entropy} g m e w w' : ApplyMutation g m w = (Err e, w') -> wdb w' = wdb w.
Proof.
  unfold ApplyMutation, lift, mbind, prog_bind. destruct (PushMutation_validate m) as [[]|e'].
  - apply Tx_err.
  - by intros [= _ <-].
Qed.

Lemma ResetPassword_err u h now e w w' : ResetPassword u h now w = (Err e, w') -> wdb w' = wdb w.
Proof.
  unfold ResetPassword. intros [He|([] & w1 & Hv & He)]%prog_bind_inv_err.
  - unfold lift in He. by injection He as _ <-.
  - apply lift_ok in Hv as [_ ->]. apply prog_bind_inv_err in He as [He|(target & w1 & Ht & He)].
    + apply no_rows_as_err in He as (e' & He). pose proof (f_equal snd He) as Hw. simpl in Hw.
      unfold GetUserForLogin in Hw. rewrite select_one_state in Hw. by subst.
    + apply Tx_err in He. rewrite He. apply no_rows_as_ok in Ht. pose proof (f_equal snd Ht) as Hw. simpl in Hw.
      unfold GetUserForLogin in Hw. rewrite select_one_state in Hw. by subst.
Qed.

Lemma handle_event_err `{Entropy} ev e w w' : handle_event ev w = (Err e, w') -> wdb w' = wdb w.
Proof.
  destruct ev as [g r|a]; [destruct r|destruct a]; simpl; intros He; try apply discard_err in He;
    first [by apply ApplyMutation_err in He | by apply ResetPassword_err in He
          | by eapply writeTx_err | by eapply Tx_err].
Qed.


(** ** Optimistic locking *)

Lemma Items_Update_ok g p row w w' :
  keyed (items (wdb w)) -> Items_Update g p w = (Ok row, w') ->
  exists cur, items (wdb w) !! ui_ItemID p = Some cur /\ Version cur = ui_ExpectedVersion p /\
    items (wdb w') !! ui_ItemID p = Some row /\ Version row = (Version cur + 1)%Z.
Proof.
  intros Hk [_ Hr]%writeTx_ok. apply prog_bind_inv_ok in Hr as (before & w1 & Hb%try_ok & Hr).
  assert (w1 = w) as ->.
  { unfold GetItem in Hb. match type of Hb with select_one ?P w = _ => pose proof (select_one_state P w) as Hs end.
    by rewrite Hb in Hs. }
  apply prog_bind_inv_ok in Hr as (row' & w2 & Hup & Hr).
  destruct (updateItemTx_ok _ _ _ _ _ Hk Hup) as (cur & G & Hcur & _ & _ & Hv & _ & Hrow & Hw2).
  exists cur. destruct before as [before|]; [|done].
  apply prog_bind_inv_ok in Hr as (u & w3 & Hrec%recordFieldVersionsTx_ok & Hr). apply ret_ok in Hr as [-> ->].
  rewrite Hrec, Hw2. simpl. rewrite lookup_insert_eq. split_and!; try done. by rewrite Hrow.
Qed.

(** No update is lost.  Of all the updates of an item that name the same
    version of it, at most one ever succeeds, whatever happens in between. *)
Theorem one_update_per_version `{Entropy} g p1 p2 row1 row2 w1 w1' w2 w2' :
  keyed (items (wdb w1)) -> keyed (items (wdb w2)) ->
  Items_Update g p1 w1 = (Ok row1, w1') -> history (wdb w1') (wdb w2) ->
  ui_ItemID p2 = ui_ItemID p1 -> ui_ExpectedVersion p2 = ui_ExpectedVersion p1 ->
  Items_Update g p2 w2 <> (Ok row2, w2').
Proof.
  intros Hk1 Hk2 H1 Hh Hid Hv H2.
  destruct (Items_Update_ok _ _ _ _ _ Hk1 H1) as (cur1 & _ & Hv1 & Hrow1 & Hv1').
  destruct (Items_Update_ok _ _ _ _ _ Hk2 H2) as (cur2 & Hcur2 & Hv2 & _).
  edestruct (row_kept_history ItemCols (GroupID row1)) as (r' & Hr' & Hn); [exact Hh|exact Hrow1|done|].
  simpl in Hr'. rewrite Hid in Hcur2. rewrite Hcur2 in Hr'. injection Hr' as <-.
  destruct Hn as [->|(_ & _ & ? & _)]; lia.
Qed.

(** ** Deleting an item *)

(** The rows of the item [itemID], tombstoned; the other rows as they were. *)
Definition cascaded {D} (item_of : D -> string) (g itemID : string) (now seq : Z)
    (t t' : gmap string (Row D)) : Prop :=
  t' = update_where (fun r => (GroupID r =?s g) && (item_of (Cols r) =?s itemID) && live r) (tombstone now seq) t.

(** C20: deleting an item tombstones it and, in the same transaction and under
    the same change sequence number, its warranty, sale and purchase blocks,
    identifications, custom fields and label edges; nothing else changes.
    Stock adjustments and attachment rows stay. *)
Theorem delete_item_cascades g itemID now w w' :
  keyed (items (wdb w)) -> Items_Delete g itemID now w = (Ok tt, w') ->
  let db := wdb w in let db' := wdb w' in
  let seq := (counter g db + 1)%Z in
  (exists r, items db !! itemID = Some r /\ live r = true /\ GroupID r = g /\
     items db' = <[itemID := tombstone now seq r]> (items db)) /\
  cascaded war_ItemID g itemID now seq (item_warranty db) (item_warranty db') /\
  cascaded sale_ItemID g itemID now seq (item_sale db) (item_sale db') /\
  cascaded pur_ItemID g itemID now seq (item_purchase db) (item_purchase db') /\
  cascaded idn_ItemID g itemID now seq (item_identifications db) (item_identifications db') /\
  cascaded icf_ItemID g itemID now seq (item_custom_fields db) (item_custom_fields db') /\
  cascaded il_ItemID g itemID now seq (item_labels db) (item_labels db') /\
  stock_adjustments db' = stock_adjustments db /\ locations db' = locations db /\ labels db' = labels db /\
  attachments db' = attachments db /\ custom_field_defs db' = custom_field_defs db /\
  mutations db' = mutations db /\ conflicts db' = conflicts db /\ field_versions db' = field_versions db.
Proof.
  intros Hk Hd. cbv zeta. unfold Items_Delete in Hd. apply writeTx_ok in Hd as [_ Hd].
  unfold DeleteItem, DeleteItemWarranty, DeleteItemSale, DeleteItemPurchase, CascadeDeleteItemIdentifications,
    CascadeDeleteItemCustomFields, CascadeDeleteItemLabels in Hd.
  run_inv. simpl in *.
  match goal with HG : groups _ !! g = Some ?G |- _ =>
    assert (Hseq : (counter g (wdb w) + 1)%Z = (grp_ChangeSeqCounter G + 1)%Z) by (unfold counter; by rewrite HG) end.
  rewrite Hseq. split; [|by split_and!].
  match goal with HG : groups _ !! g = Some ?G, Hn : 1%Z = Z.of_nat (length (where_ ?P _)) |- _ =>
    destruct (update_where_count_one P (tombstone now (grp_ChangeSeqCounter G + 1)) (items (wdb w)) itemID)
      as (r & Hr & HP & Hup); [done|done|intros; by bool_facts|] end.
  bool_facts. exists r. by split_and!.
Qed.

(** ** Stock *)

(** The item with its quantity set. *)
Definition with_quantity (q : Z) (i : ItemCols) : ItemCols :=
  mkItem (item_Name i) (item_Description i) (item_LocationID i) q (item_ShortCode i) (item_ExternalRef i).

Lemma createStockAdjustmentTx_ok g p w row w' :
  keyed (items (wdb w)) -> keyed (stock_adjustments (wdb w)) ->
  createStockAdjustmentTx g p w = (Ok row, w') ->
  exists item G, items (wdb w) !! csa_ItemID p = Some item /\ GroupID item = g /\ live item = true /\
    groups (wdb w) !! g = Some G /\
    let q := wrap64 (item_Quantity (Cols item) + csa_Delta p) in
    let seq := (grp_ChangeSeqCounter G + 1)%Z in
    row = newRow (csa_ID p) g (csa_Now p) seq
            (mkStock (csa_ItemID p) (csa_Delta p) (csa_Reason p) (csa_Note p) q) /\
    stock_adjustments (wdb w) !! csa_ID p = None /\
    wdb w' = set_items (<[csa_ItemID p := touch (csa_Now p) seq (with_quantity q) item]> (items (wdb w)))
      (set_stock_adjustments (<[csa_ID p := row]> (stock_adjustments (wdb w)))
        (set_groups (<[g := with_counter G seq]> (groups (wdb w))) (wdb w))).
Proof.
  intros Hk Hks Hr. unfold createStockAdjustmentTx in Hr.
  apply prog_bind_inv_ok in Hr as (item & w1 & Hi%no_rows_as_ok & Hr).
  apply (get_row_ok _ _ _ _ (csa_ItemID p)) in Hi as (-> & Hi & HP); [|done|intros; by bool_facts].
  simpl in Hi. bool_facts. cbv zeta in Hr.
  apply prog_bind_inv_ok in Hr as (seq & w1 & (G & HG & -> & ->)%AllocChangeSeq_ok & Hr).
  apply prog_bind_inv_ok in Hr as ([] & w2 & (_ & _ & Hn & _ & ->)%insert_row_ok & Hr). simpl in Hn, Hr.
  apply prog_bind_inv_ok in Hr as (n & w3 & (Hcount & _ & ->)%update_rows_ok & Hr).
  apply prog_bind_inv_ok in Hr as ([] & w4 & [-> ->]%want_one_row_ok & Hr). simpl in Hr, Hcount.
  edestruct (update_where_count_one (D := ItemCols)) as (r & Hr0 & HP0 & Hup); [exact Hk|exact Hcount|intros ? HP'; simpl in HP'; by bool_facts|].
  rewrite Hi in Hr0. injection Hr0 as <-.
  rewrite Hup in Hr.
  apply (get_row_ok _ _ _ _ (csa_ID p)) in Hr as (-> & Hrow & HP'); [| |intros; by bool_facts].
  - exists item, G. simpl in Hrow. rewrite lookup_insert_eq in Hrow. injection Hrow as <-. by split_and!.
  - simpl. intros k r. destruct (decide (k = csa_ID p)) as [->|].
    + rewrite lookup_insert_eq. by intros [= <-].
    + rewrite lookup_insert_ne by done. apply Hks.
Qed.

(** A stock adjustment moves the item's quantity by its delta and records
    the result, in one transaction under one change sequence number; the sum
    is computed in int64 and is exact as long as it fits.  The item keeps
    everything else and gains a version; only the quantity's field version is
    recorded; no other row changes. *)
Theorem stock_adjustment_exact g p w row w' :
  keyed (items (wdb w)) -> keyed (stock_adjustments (wdb w)) ->
  StockAdjustments_Create g p w = (Ok row, w') ->
  let db := wdb w in let db' := wdb w' in
  let seq := (counter g db + 1)%Z in
  exists item, items db !! csa_ItemID p = Some item /\ GroupID item = g /\ live item = true /\
    let q := wrap64 (item_Quantity (Cols item) + csa_Delta p) in
    (in_int64 (item_Quantity (Cols item) + csa_Delta p) = true -> q = (item_Quantity (Cols item) + csa_Delta p)%Z) /\
    row = newRow (csa_ID p) g (csa_Now p) seq
            (mkStock (csa_ItemID p) (csa_Delta p) (csa_Reason p) (csa_Note p) q) /\
    stock_adjustments db' = <[csa_ID p := row]> (stock_adjustments db) /\
    stock_adjustments db !! csa_ID p = None /\
    items db' = <[csa_ItemID p := touch (csa_Now p) seq (with_quantity q) item]> (items db) /\
    field_versions db' = recorded (field_versions db) g "item" (csa_ItemID p) (Version item + 1) (csa_Now p)
      (if (item_Quantity (Cols item) =? q)%Z then [] else ["quantity"%string]) /\
    locations db' = locations db /\ labels db' = labels db /\ item_labels db' = item_labels db.
Proof.
  intros Hk Hks Hr. cbv zeta. unfold StockAdjustments_Create in Hr. apply writeTx_ok in Hr as [_ Hr].
  apply prog_bind_inv_ok in Hr as (before & w1 & Hb%try_ok & Hr).
  assert (w1 = w) as ->.
  { unfold GetItem in Hb. match type of Hb with select_one ?P w = _ => pose proof (select_one_state P w) as Hs end.
    by rewrite Hb in Hs. }
  apply prog_bind_inv_ok in Hr as (row' & w2 & Hc & Hr).
  destruct (createStockAdjustmentTx_ok _ _ _ _ _ Hk Hks Hc) as (item & G & Hi & Hg & Hl & HG & Hrow & Hn & Hw2).
  rewrite (GetItem_hit w g _ item) in Hb by done. injection Hb as <-.
  apply prog_bind_inv_ok in Hr as (after & w3 & Ha & Hr).
  set (q := wrap64 (item_Quantity (Cols item) + csa_Delta p)) in *.
  set (new := touch (csa_Now p) (grp_ChangeSeqCounter G + 1) (with_quantity q) item) in *.
  assert (Hk2 : keyed (items (wdb w2))).
  { rewrite Hw2. simpl. intros k r. destruct (decide (k = csa_ItemID p)) as [->|].
    - rewrite lookup_insert_eq. intros [= <-]. simpl. by apply Hk.
    - rewrite lookup_insert_ne by done. apply Hk. }
  rewrite (GetItem_hit w2 g _ new) in Ha; [|done|rewrite Hw2; simpl; by rewrite lookup_insert_eq|done|done].
  injection Ha as <- <-.
  apply prog_bind_inv_ok in Hr as (u & w3 & Hrec%recordFieldVersionsTx_ok & Hr). apply ret_ok in Hr as [-> ->].
  exists item. unfold counter. rewrite HG. rewrite Hrec, Hw2. simpl. split_and!; try done.
  - intros Hin. apply wrap64_id. unfold in_int64 in Hin. bool_facts. lia.
  - rewrite (Hk _ _ Hi). f_equal. unfold diffItemFieldVersions, diff, with_quantity. simpl.
    rewrite !decide_True by done. simpl. fold q. destruct (Z.eqb_spec (item_Quantity (Cols item)) q).
    + by rewrite decide_True.
    + by rewrite decide_False.
Qed.

Lemma stock_adjustment_exact_witness :
  let w' := exec (StockAdjustments_Create "g1" (mkCreateStock "s1" "i1" 4 "restock" "" 300)) demo in
  exists r, items (wdb w') !! "i1"%string = Some r /\ item_Quantity (Cols r) = 7%Z.
Proof.
  cbv zeta.
  destruct (stock_adjustment_exact "g1" (mkCreateStock "s1" "i1" 4 "restock" "" 300) demo
    (newRow "s1" "g1" 300 5 (mkStock "i1" 4 "restock" "" 7))
    (exec (StockAdjustments_Create "g1" (mkCreateStock "s1" "i1" 4 "restock" "" 300)) demo))
    as (item & Hi & _ & _ & Hq & Hrow & _ & _ & Hitems & _);
    [apply items_keyed, demo_ok|apply stock_keyed, demo_ok|vm_compute; reflexivity|].
  rewrite Hitems, lookup_insert_eq. eexists. split; [reflexivity|].
  vm_compute in Hi. injection Hi as <-. vm_compute. reflexivity.
Defined.

(** ** Labels on items *)

Lemma GetItemLabel_state g i l r w w' : GetItemLabel g i l w = (r, w') -> w' = w.
Proof.
  unfold GetItemLabel. intros He. match type of He with select_one ?P w = _ => pose proof (select_one_state P w) as Hs end.
  by rewrite He in Hs.
Qed.

Lemma GetLabel_hit w g id r :
  keyed (labels (wdb w)) -> labels (wdb w) !! id = Some r -> GroupID r = g -> live r = true ->
  GetLabel g id w = (Ok r, w).
Proof.
  intros Hk Hr <- Hl. pose proof (Hk _ _ Hr) as <-. unfold GetLabel.
  eapply select_one_hit; [done|exact Hr|by rewrite !string_eqb_refl|].
  intros r' HP. bool_facts. done.
Qed.

(** After an attach the item, the label and a live edge are there. *)
Lemma attachItemLabelTx_ok g p e w w' :
  attachItemLabelTx g p w = (Ok e, w') -> keyed (items (wdb w)) -> keyed (labels (wdb w)) ->
  exists item label, GetItem g (al_ItemID p) w' = (Ok item, w') /\ GetLabel g (al_LabelID p) w' = (Ok label, w') /\
    GetItemLabel g (al_ItemID p) (al_LabelID p) w' = (Ok e, w').
Proof.
  intros Ha Hki Hkl. unfold attachItemLabelTx in Ha.
  apply prog_bind_inv_ok in Ha as (item & w2 & Hi%no_rows_as_ok & Ha).
  apply (get_row_ok _ _ _ _ (al_ItemID p)) in Hi as (-> & Hi & HPi); [|done|intros; by bool_facts].
  apply prog_bind_inv_ok in Ha as (label & w2 & Hl%no_rows_as_ok & Ha).
  apply (get_row_ok _ _ _ _ (al_LabelID p)) in Hl as (-> & Hl & HPl); [|done|intros; by bool_facts].
  simpl in Hi, Hl. bool_facts. exists item, label.
  assert (Hw : items (wdb w') = items (wdb w) /\ labels (wdb w') = labels (wdb w) /\
    GetItemLabel g (al_ItemID p) (al_LabelID p) w' = (Ok e, w')).
  { apply prog_bind_inv_ok in Ha as (ex & w2 & Hex%try_ok & Ha).
    pose proof (GetItemLabel_state _ _ _ _ _ _ Hex) as ->.
    destruct ex as [ex|err]; [apply ret_ok in Ha as [-> ->]; done|].
    destruct (negb (is_no_rows err)); [done|].
    apply prog_bind_inv_ok in Ha as (seq & w2 & (G & HG & -> & ->)%AllocChangeSeq_ok & Ha).
    apply prog_bind_inv_ok in Ha as (n & w3 & (_ & _ & ->)%update_rows_ok & Ha).
    apply prog_bind_inv_ok in Ha as (u & w4 & Hc & Hread).
    pose proof (GetItemLabel_state _ _ _ _ _ _ Hread) as ->.
    destruct (n =? 0)%Z; [apply insert_row_ok in Hc as (_ & _ & _ & _ & ->)|apply ret_ok in Hc as [_ ->]]; done. }
  destruct Hw as (Hwi & Hwl & Hwe). split_and!; [|by apply GetLabel_hit; rewrite ?Hwl|done].
  by apply GetItem_hit; rewrite ?Hwi.
Qed.

(** Attaching a label twice is the same as once: the second time changes
    nothing, whatever id is proposed for the edge. *)
Theorem attach_twice g p p' w w' :
  ItemLabels_Attach g p w = (Ok tt, w') -> keyed (items (wdb w)) -> keyed (labels (wdb w)) ->
  al_ItemID p' = al_ItemID p -> al_LabelID p' = al_LabelID p -> AttachLabelParams_validate p' = Ok tt ->
  ItemLabels_Attach g p' w' = (Ok tt, w').
Proof.
  intros Ha Hki Hkl Hit Hlb Hv.
  apply writeTx_ok in Ha as [_ Ha]. apply prog_bind_inv_ok in Ha as (e & w1 & Ha & [_ ->]%ret_ok).
  apply writeTx_ok. split; [done|].
  destruct (attachItemLabelTx_ok _ _ _ _ _ Ha Hki Hkl) as (item & label & Hi & Hl & He).
  unfold attachItemLabelTx, no_rows_as, try, mbind, prog_bind. rewrite Hit, Hlb, Hi.
  cbv beta iota delta [mret prog_ret]. rewrite Hl. cbv beta iota. by rewrite He.
Qed.

(** ** The other properties hold somewhere *)


Definition demo_update (name : string) : UpdateItemParams := mkUpdateItem "i1" name "" "" 3 1 300.
Definition the_row (w : World) : Item := default (mkRow "" "" 0 0 0 None 0 (mkItem "" "" None 0 "" None)) (items (wdb w) !! "i1"%string).
Definition updated : World := Eval vm_compute in exec (Items_Update "g1" (demo_update "Torch")) demo.

Lemma one_update_per_version_witness :
  Items_Update "g1" (demo_update "Candle") updated <> (Ok (the_row updated), updated).
Proof.
  apply (one_update_per_version "g1" (demo_update "Torch") (demo_update "Candle") (the_row updated) (the_row updated) demo updated);
    [apply items_keyed, demo_ok|apply keyedb_keyed; vm_compute; reflexivity|vm_compute; reflexivity
    |apply history_refl|reflexivity|reflexivity].
Defined.

Lemma delete_item_cascades_witness :
  locations (wdb (exec (Items_Delete "g1" "i1" 300) demo)) = locations (wdb demo).
Proof.
  destruct (delete_item_cascades "g1" "i1" 300 demo (exec (Items_Delete "g1" "i1" 300) demo))
    as (_ & _ & _ & _ & _ & _ & _ & _ & Hl & _);
    [apply items_keyed, demo_ok|vm_compute; reflexivity|exact Hl].
Defined.

Lemma attach_twice_witness :
  let w' := exec (ItemLabels_Attach "g1" (mkAttachLabel "e1" "i1" "l1" 300)) demo in
  ItemLabels_Attach "g1" (mkAttachLabel "e2" "i1" "l1" 301) w' = (Ok tt, w').
Proof.
  cbv zeta. apply (attach_twice "g1" (mkAttachLabel "e1" "i1" "l1" 300) (mkAttachLabel "e2" "i1" "l1" 301) demo);
    [vm_compute; reflexivity|apply items_keyed, demo_ok|apply labels_keyed, demo_ok
    |reflexivity|reflexivity|reflexivity].
Defined.
