(* ===== verification/LocationProperties.v ===== *)
(** * Properties of locations

    The cycle check of a move decides ancestry and always ends; a move is
    refused exactly when it would make a cycle; the descendants are the live
    locations below. *)

From S2P Require Import Prelude GoBase Schema Sql Evolution Queries PushRepo Items Labels Exec History.
From S2P Require Import Locations LocationTree Demo System.
From stdpp Require Import relations.

(** [x] is [a] or somewhere below it. *)
Abbreviation beneath db a x := (rtc (par (parent_of (locations db))) x a).

(** In every state a server reaches, the walk up the parent edges that
    guards a move or a reassignment ends within its bound, with the right
    answer: whether the new parent is the moved location or below it. *)
Theorem cycle_walk_decides_ancestry `{Entropy} gs reqs g x c :
  let w := serve reqs (initial gs) in
  parent_exists (locations (wdb w)) g c = true ->
  exists b, locationMoveCreatesCycle g x c w = (Ok b, w) /\ (b = true <-> beneath (wdb w) x c).
Proof.
  cbv zeta. intros Hc. apply locationMoveCreatesCycle_run; [|done].
  apply serve_keeps_locations, loc_ok_empty.
Qed.

(** Moving a live location under a live location of the group, at the
    expected version, is refused with ErrLocationCycle exactly when the new
    parent is the location itself or below it. *)
Theorem location_move_cycle_iff g p w r q :
  loc_inv (wdb w) ->
  locations (wdb w) !! uloc_LocationID p = Some r -> GroupID r = g -> live r = true ->
  Version r = uloc_ExpectedVersion p ->
  locations (wdb w) !! uloc_ParentID p = Some q -> GroupID q = g -> live q = true ->
  uloc_ParentID p <> "" ->
  (updateLocationTx g p w).1 = Err ErrLocationCycle <->
  rtc (par (parent_of (locations (wdb w)))) (uloc_ParentID p) (uloc_LocationID p).
Proof.
  intros Hinv Hr Hg Hl Hv Hq Hqg Hql Hne.
  assert (Hpe : parent_exists (locations (wdb w)) g (uloc_ParentID p) = true).
  { unfold parent_exists. rewrite Hq. by apply string_eqb_true. }
  destruct (locationMoveCreatesCycle_run w g (uloc_LocationID p) _ Hinv Hpe) as (b & Hb & <-).
  unfold updateLocationTx, no_rows_as, mbind, prog_bind, try.
  rewrite (GetLocation_hit w g _ r) by (done || apply Hinv). simpl.
  rewrite Hv, Z.eqb_refl. simpl. apply string_eqb_false in Hne. rewrite Hne. simpl.
  rewrite (GetLocation_hit w g _ q) by (done || apply Hinv). simpl.
  rewrite Hb. destruct b; simpl; [done|].
  split; [|done]. unfold AllocChangeSeq. destruct (groups (wdb w) !! g); simpl; [|done].
  unfold UpdateLocation, update_rows, want_one_row, GetLocation, select_one.
  repeat (split_match; simpl; try done).
Qed.

Lemma beneath_below t g root x :
  loc_ok t -> (exists r, t !! x = Some r /\ GroupID r = g) ->
  rtc (below (build_children (where_ (fun r => GroupID r =?s g) t))) root x <-> rtc (par (parent_of t)) x root.
Proof.
  intros Ht (r & Hr & Hg).
  assert (Hstep : forall a b, below (build_children (where_ (fun r => GroupID r =?s g) t)) a b <->
    par (parent_of t) b a /\ exists e, t !! b = Some e /\ GroupID e = g).
  { intros a b. rewrite below_children. setoid_rewrite elem_of_where_keyed; [|apply Ht].
    unfold par, parent_of. split.
    - intros (e & [He HP] & <- & Hp). bool_facts. rewrite He. simpl. eauto.
    - intros [Hp (e & He & Heg)]. rewrite He in Hp. simpl in Hp. exists e.
      rewrite (loc_keys _ Ht _ _ He). split_and!; try done. by apply string_eqb_true. }
  split.
  - induction 1 as [y|a b c Hab _ IH]; [apply rtc_refl|].
    eapply rtc_r; [by apply IH|]. by apply Hstep in Hab as [? _].
  - intros Hup. revert r Hr Hg. induction Hup as [y|y z root Hyz _ IH]; intros r Hr Hg; [apply rtc_refl|].
    assert (Hz : parent_exists t (GroupID r) z = true).
    { eapply (loc_resolve _ Ht y); [done|]. unfold par, parent_of in Hyz. by rewrite Hr in Hyz. }
    unfold parent_exists in Hz. destruct (t !! z) as [rz|] eqn:Ez; [|done]. bool_facts.
    eapply rtc_r; [apply (IH rz); congruence|]. apply Hstep. eauto.
Qed.

Lemma Descendants_run w g root :
  loc_ok (locations (wdb w)) -> root <> "" ->
  exists out, Locations_Descendants g root w = (Ok out, w) /\ NoDup out /\
    forall x, x ∈ out <-> beneath (wdb w) root x /\
      exists r, locations (wdb w) !! x = Some r /\ GroupID r = g /\ live r = true.
Proof.
  intros Ht Hroot. set (edges := where_ (fun r => GroupID r =?s g) (locations (wdb w))).
  destruct (descendants_of_correct edges root) as (out & Hout & Hnd & Hin).
  { apply NoDup_where_ids, Ht. }
  exists out. split; [|split; [done|]].
  - unfold Locations_Descendants. apply string_eqb_false in Hroot. rewrite Hroot.
    rewrite (prog_bind_ok _ _ _ tt w) by done. rewrite (prog_bind_ok _ _ _ edges w) by done. by rewrite Hout.
  - intros x. rewrite Hin.
    assert (Hl : (exists e, e ∈ edges /\ ID e = x /\ live e = true) <->
      exists r, locations (wdb w) !! x = Some r /\ GroupID r = g /\ live r = true).
    { unfold edges. setoid_rewrite elem_of_where_keyed; [|apply Ht]. split.
      - intros (e & [He HP] & <- & Hl). bool_facts. eauto.
      - intros (r & Hr & Hg & Hl). exists r. rewrite (loc_keys _ Ht _ _ Hr).
        split_and!; try done. by apply string_eqb_true. }
    rewrite Hl. split; (intros [Hb Hr]; split; [|done]);
      (apply beneath_below in Hb || apply beneath_below); try done;
      destruct Hr as (r & ? & ? & _); eauto.
Qed.

(** [Descendants] ends, and lists exactly the live locations of the group
    at and below the given one, each once; those below a tombstoned one are
    not forgotten. *)
Theorem descendants_exact `{Entropy} gs reqs g root :
  let w := serve reqs (initial gs) in
  root <> "" ->
  exists out, Locations_Descendants g root w = (Ok out, w) /\ NoDup out /\
    forall x, x ∈ out <-> beneath (wdb w) root x /\
      exists r, locations (wdb w) !! x = Some r /\ GroupID r = g /\ live r = true.
Proof. intros w. apply Descendants_run, serve_keeps_locations, loc_ok_empty. Qed.

(** ** The properties hold somewhere *)

Definition demo_groups : gmap string Group := {[ "g1" := demo_group "Home"; "g2" := demo_group "Work" ]}%string.

Definition demo_setup : list event :=
  [OfGroup "g1" (ItemsCreate (mkCreateItem "i1" "Lamp" "" "" 3 "CODE1" 101));
   OfGroup "g1" (LocationsCreate (mkCreateLocation "house" "House" "" 102));
   OfGroup "g1" (LocationsCreate (mkCreateLocation "room" "Room" "house" 102));
   OfGroup "g1" (LabelsCreate (mkCreateLabel "l1" "Fragile" "#f00" 103))]%string.

Lemma demo_served : serve demo_setup (initial demo_groups) = demo.
Proof. vm_compute. reflexivity. Qed.

Lemma cycle_walk_decides_ancestry_witness : exists b,
  locationMoveCreatesCycle "g1" "house" "room" demo = (Ok b, demo).
Proof.
  destruct (cycle_walk_decides_ancestry demo_groups demo_setup "g1" "house" "room") as (b & Hb & _);
    [vm_compute; reflexivity|]. exists b. rewrite demo_served in Hb. exact Hb.
Defined.

Definition demo_house : Location := mkRow "house" "g1" 102 102 1 None 2 (mkLocation "House" None).
Definition demo_room : Location := mkRow "room" "g1" 102 102 1 None 3 (mkLocation "Room" (Some "house"%string)).

Lemma demo_loc_inv : loc_inv (wdb demo).
Proof. rewrite <- demo_served. apply serve_keeps_locations, loc_ok_empty. Qed.

Lemma location_move_cycle_iff_witness :
  (updateLocationTx "g1" (mkUpdateLocation "house" "House" "room" 1 300) demo).1 = Err ErrLocationCycle.
Proof.
  apply (location_move_cycle_iff "g1" (mkUpdateLocation "house" "House" "room" 1 300) demo demo_house demo_room);
    [apply demo_loc_inv|vm_compute; reflexivity|reflexivity|reflexivity|reflexivity
    |vm_compute; reflexivity|reflexivity|reflexivity|discriminate|].
  apply rtc_once. vm_compute. reflexivity.
Defined.

Lemma descendants_exact_witness : exists out,
  Locations_Descendants "g1" "house" demo = (Ok out, demo) /\ NoDup out.
Proof.
  destruct (descendants_exact demo_groups demo_setup "g1" "house") as (out & Hout & Hnd & _); [discriminate|].
  exists out. rewrite demo_served in Hout. split; [exact Hout|exact Hnd].
Defined.
