(* ===== verification/ImportProperties.v ===== *)
(** * Properties of imports

    A staged session is committed at most once; the labels of an imported item
    are the ones the file names, created when they are missing and never
    twice; and a defect: after an item has been imported again, a label that
    was detached from it cannot be attached any more. *)

From S2P Require Import Prelude GoBase Schema Sql Evolution Queries PushRepo Items Blocks Details.
From S2P Require Import Exec History Labels Locations PushFields PushHandlers PushCommit PushMerge.
From S2P Require Import Accounts ImportCommit SyncReader Demo System Integrity LocationProperties.

(** ** Attaching after an import *)

(** An UPDATE that would leave two rows with the same key fails. *)
Lemma update_rows_clash {D} `{Table D} (P : Row D -> bool) f w ix (k1 k2 : string) (r1 r2 : Row D) :
  keyed (tbl (wdb w)) -> (forall r, ID (f r) = ID r) ->
  (forall r, check_constraints (Cols (f r)) = true) ->
  tbl (wdb w) !! k1 = Some r1 -> tbl (wdb w) !! k2 = Some r2 -> k1 <> k2 ->
  P r1 = true -> P r2 = true -> ix ∈ unique_indexes -> opt_key_eqb (ix (f r1)) (ix (f r2)) = true ->
  update_rows P f w = (Err (ErrSQLite SQLITE_CONSTRAINT_UNIQUE), w).
Proof.
  intros Hk Hid Hc H1 H2 Hne HP1 HP2 Hix Heq. unfold update_rows.
  assert (existsb (fun r => negb (check_constraints (Cols r))) (f <$> where_ P (tbl (wdb w))) = false) as ->.
  { apply existsb_false_iff. intros r (r0 & -> & _)%list_elem_of_fmap. by rewrite Hc. }
  assert (existsb (fun r => unique_clash (List.filter (fun r' => negb (ID r' =?s ID r))
    (rows_of (update_where P f (tbl (wdb w))))) r) (f <$> where_ P (tbl (wdb w))) = true) as ->; [|done].
  apply existsb_exists. exists (f r1). split.
  - apply list_elem_of_In, list_elem_of_fmap_2, elem_of_where. eauto.
  - unfold unique_clash. apply existsb_exists. exists ix. split; [by apply list_elem_of_In|].
    apply existsb_exists. exists (f r2). split; [|done].
    apply list_elem_of_In, elem_of_filter_bool. split.
    + apply elem_of_rows. exists k2. by rewrite update_where_lookup, H2; simpl; rewrite HP2.
    + rewrite !Hid, (Hk _ _ H1), (Hk _ _ H2). by apply negb_true_iff, string_eqb_false.
Qed.

Definition dead_edge (g itemID labelID : string) (e : ItemLabel) : bool :=
  (GroupID e =?s g) && edge itemID labelID (Cols e) && negb (live e).

(** The statement that brings a tombstoned edge back matches every tombstoned
    edge of the pair. *)
Lemma revive_two_dead_edges g i l now seq w k1 k2 (e1 e2 : ItemLabel) :
  keyed (item_labels (wdb w)) ->
  item_labels (wdb w) !! k1 = Some e1 -> item_labels (wdb w) !! k2 = Some e2 -> k1 <> k2 ->
  dead_edge g i l e1 = true -> dead_edge g i l e2 = true ->
  ReviveItemLabel now seq g i l w = (Err (ErrSQLite SQLITE_CONSTRAINT_UNIQUE), w).
Proof.
  intros Hk H1 H2 Hne Hd1 Hd2.
  assert (Hix : exists ix, ix ∈ unique_indexes (D := ItemLabelCols) /\
    ix = fun r => if live r then Some [GroupID r; il_ItemID (Cols r); il_LabelID (Cols r)] else None)
    by (eexists; split; [by left|done]).
  destruct Hix as (ix & Hin & Hix).
  apply (update_rows_clash _ _ w ix k1 k2 e1 e2); try done.
  unfold dead_edge, edge in *. bool_facts. subst ix. simpl. unfold edge in *. bool_facts.
  apply bool_decide_eq_true. congruence.
Qed.

(** A label that was detached cannot be attached again once the item's
    labels have been imported.  An import replaces the edges of the item, so a
    pair can have several tombstoned edges; the statement that revives one
    revives them all, the UNIQUE index on live edges refuses, and the request
    fails, every time. *)
Theorem attach_fails_on_dead_edges g p w k1 k2 (e1 e2 : ItemLabel) (G : Group) (item : Item) (label : Label) :
  keyed (item_labels (wdb w)) ->
  groups (wdb w) !! g = Some G ->
  GetItem g (al_ItemID p) w = (Ok item, w) -> GetLabel g (al_LabelID p) w = (Ok label, w) ->
  GetItemLabel g (al_ItemID p) (al_LabelID p) w = (Err ErrNoRows, w) ->
  item_labels (wdb w) !! k1 = Some e1 -> item_labels (wdb w) !! k2 = Some e2 -> k1 <> k2 ->
  dead_edge g (al_ItemID p) (al_LabelID p) e1 = true -> dead_edge g (al_ItemID p) (al_LabelID p) e2 = true ->
  AttachLabelParams_validate p = Ok tt ->
  ItemLabels_Attach g p w = (Err (ErrSQLite SQLITE_CONSTRAINT_UNIQUE), w).
Proof.
  intros Hk HG Hi Hl He H1 H2 Hne Hd1 Hd2 Hv.
  unfold ItemLabels_Attach, attachItemLabelTx, writeTx, no_rows_as, try, Tx, lift, mbind, prog_bind, mret, prog_ret.
  rewrite Hv, Hi. cbv beta iota. rewrite Hl. cbv beta iota. rewrite He. cbn [is_no_rows negb]. unfold AllocChangeSeq. rewrite HG. cbv zeta.
  erewrite (revive_two_dead_edges g _ _ _ _ _ k1 k2 e1 e2); [|exact Hk|exact H1|exact H2|done..].
  by destruct w.
Qed.

(** An item, imported twice with its label, and the label detached. *)
Definition demo_proposed (labels : list string) : ImportCommitProposedRow :=
  mkProposed "Lamp" "" 3 "" labels [] None None None [].

Definition demo_import (session : string) (labels : list string) (now : Z) : list event :=
  [OfGroup "g1" (ImportSessionsCreate (mkCreateImportSession session "household-csv" now));
   OfGroup "g1" (ImportCommitRows (mkImportCommit session
     [mkImportRow 2 ImportCommitRowUpdate "i1" ["labels"%string] (demo_proposed labels)] now))].

Definition demo_reimport : list event :=
  demo_import "s1" ["Fragile"%string] 300 ++ demo_import "s2" ["Fragile"; "Red"]%string 301
  ++ [OfGroup "g1" (ItemLabelsDetach "i1" "l1" 302)].

Definition demo_reimported : World := Eval vm_compute in serve demo_reimport demo.

Lemma demo_reimported_served : serve demo_reimport demo = demo_reimported.
Proof. vm_compute. reflexivity. Qed.

Lemma attach_fails_on_dead_edges_witness :
  ItemLabels_Attach "g1" (mkAttachLabel "e9" "i1" "l1" 303) demo_reimported
    = (Err (ErrSQLite SQLITE_CONSTRAINT_UNIQUE), demo_reimported).
Proof.
  apply (attach_fails_on_dead_edges "g1" (mkAttachLabel "e9" "i1" "l1" 303) demo_reimported "uuid-0" "uuid-2"
    (mkRow "uuid-0" "g1" 300 301 2 (Some 301%Z) 6 (mkItemLabel "i1" "l1"))
    (mkRow "uuid-2" "g1" 301 302 2 (Some 302%Z) 8 (mkItemLabel "i1" "l1"))
    (with_counter (demo_group "Home") 8)
    (mkRow "i1" "g1" 101 101 1 None 1 (mkItem "Lamp" "" None 3 "CODE1" None))
    (mkRow "l1" "g1" 103 103 1 None 4 (mkLabel "Fragile" "#f00")));
    try (vm_compute; reflexivity); [|discriminate].
  change (keyed (tbl (D := ItemLabelCols) (wdb demo_reimported))).
  apply table_ok_keyed, table_okb_ok. vm_compute. reflexivity.
Defined.

(** ** The labels of an imported item *)

(** [l] is a live label of [g] with one of the names. *)
Definition named (t : gmap string Label) (g : string) (ns : list string) (l : string) : Prop :=
  exists r, t !! l = Some r /\ live r = true /\ GroupID r = g /\ lbl_Name (Cols r) ∈ ns.

(** Some live edge joins the item and [l]. *)
Definition attached (t : gmap string ItemLabel) (g i l : string) : Prop :=
  exists k e, t !! k = Some e /\ live e = true /\ GroupID e = g /\ edge i l (Cols e) = true.

Section labels.
Context `{Entropy}.

Lemma resolve_label_ok g name now w id w' :
  keyed (labels (wdb w)) -> resolve_label g name now w = (Ok id, w') ->
  item_labels (wdb w') = item_labels (wdb w) /\ named (labels (wdb w')) g [name] id /\
  (forall k r, labels (wdb w) !! k = Some r -> labels (wdb w') !! k = Some r) /\
  (forall k r, labels (wdb w') !! k = Some r -> labels (wdb w) !! k = Some r \/ lbl_Name (Cols r) = name).
Proof.
  intros Hk Hrun. unfold resolve_label, GetLabelByName, newImportRowID, new_uuid, CreateLabel in Hrun.
  run_inv; unfold draw in *; simplify_eq/=; bool_facts; unfold named.
  - split_and!; [done| |done|by left]. eexists. split; [by erewrite Hk|]. split_and!; [done..|].
    apply list_elem_of_singleton. done.
  - split_and!; [done| | |].
    + eexists. rewrite lookup_insert_eq. split; [done|]. split_and!; [done..|by left].
    + intros k r Hr. rewrite lookup_insert_ne; [done|]. congruence.
    + intros k r. destruct (decide (k = s)) as [->|].
      * rewrite lookup_insert_eq. intros [= <-]. by right.
      * rewrite lookup_insert_ne by done. by left.
Qed.

Lemma resolve_names_ok g names now seen ids w ids' w' :
  label_names (wdb w) -> (forall l, l ∈ ids <-> named (labels (wdb w)) g seen l) ->
  resolve_names g names now seen ids w = (Ok ids', w') ->
  label_names (wdb w') /\ item_labels (wdb w') = item_labels (wdb w) /\
  (forall l, l ∈ ids' <-> named (labels (wdb w')) g (names ++ seen) l).
Proof.
  revert seen ids w. induction names as [|n names IH]; intros seen ids w Hl Hids; simpl; [by intros [= -> ->]|].
  destruct (decide (n ∈ seen)) as [Hin|Hout].
  - rewrite bool_decide_eq_true_2 by done. intros Hrun. destruct (IH _ _ _ Hl Hids Hrun) as (Hl' & He & Hids').
    split_and!; [done..|]. intros l. rewrite Hids'. unfold named. setoid_rewrite elem_of_cons.
    setoid_rewrite elem_of_app. naive_solver.
  - rewrite bool_decide_eq_false_2 by done. intros (id & w1 & Hr & Hrun)%prog_bind_inv_ok.
    pose proof (resolve_label_keeps g n now w Hl) as Hl1. rewrite Hr in Hl1. simpl in Hl1.
    destruct (resolve_label_ok _ _ _ _ _ _ (names_keyed _ Hl) Hr) as (He1 & Hid & Hsub & Hsup).
    destruct (IH (n :: seen) (ids ++ [id]) w1 Hl1) as (Hl' & He & Hids'); [|done|].
    + intros l. rewrite elem_of_app, list_elem_of_singleton, Hids. split.
      * intros [(r & Hr' & ? & ? & ?)| ->].
        -- exists r. split_and!; [by apply Hsub|done..|by right; done].
        -- destruct Hid as (r & ? & ? & ? & Hn%list_elem_of_singleton). exists r. rewrite Hn. split_and!; [done..|by left].
      * intros (r & Hr' & Hlv & Hg & Hn). destruct (Hsup _ _ Hr') as [Hold|Hnew].
        -- apply elem_of_cons in Hn as [Hn|Hn]; [right|left; by exists r].
           destruct Hid as (r2 & ? & ? & ? & ?%list_elem_of_singleton).
           eapply (names_distinct _ Hl1); [exact Hr'|done..|congruence|congruence].
        -- right. destruct Hid as (r2 & ? & ? & ? & ?%list_elem_of_singleton).
           eapply (names_distinct _ Hl1); [exact Hr'|done..|congruence|congruence].
    + split_and!; [done|congruence|]. intros l. rewrite Hids'. unfold named. setoid_rewrite elem_of_app.
      setoid_rewrite elem_of_cons. setoid_rewrite elem_of_app. naive_solver.
Qed.

Lemma attach_all_ok g i ids now seq w w' :
  for_each ids (fun l => id ← newImportRowID; CreateItemLabel id g i l now seq) w = (Ok tt, w') ->
  labels (wdb w') = labels (wdb w) /\
  forall l, attached (item_labels (wdb w')) g i l <-> attached (item_labels (wdb w)) g i l \/ l ∈ ids.
Proof.
  revert w. induction ids as [|l0 ids IH]; intros w; simpl.
  - intros [= <-]. split; [done|]. intros l. rewrite elem_of_nil. tauto.
  - intros (u & w1 & Hc & Hrun)%prog_bind_inv_ok. destruct (IH _ Hrun) as [Hl He].
    unfold newImportRowID, new_uuid, CreateItemLabel in Hc. run_inv. unfold draw in *. simplify_eq/=.
    split; [done|]. intros l. rewrite He, elem_of_cons. unfold attached. split.
    + intros [(k & e & Hk & Hlv & Hg & Hed)|]; [|tauto]. destruct (decide (k = s)) as [->|].
      * rewrite lookup_insert_eq in Hk. injection Hk as <-. right. left. unfold edge in Hed. simpl in Hed.
        bool_facts. done.
      * rewrite lookup_insert_ne in Hk by done. left. by exists k, e.
    + intros [(k & e & Hk & ?)|[->|]]; [| |tauto]; left.
      * exists k, e. rewrite lookup_insert_ne by congruence. done.
      * eexists s, _. rewrite lookup_insert_eq. split; [done|]. unfold edge. simpl. rewrite !string_eqb_refl. done.
Qed.

(** After its labels have been imported, the live label edges of an item
    are exactly the ones to the group's live labels with the names in the
    file: no edge of before stays, a name that had no label has one now, and
    since live labels have different names each name stands for one edge. *)
Theorem import_labels_exact gs evs g i names now seq w' :
  let w := serve evs (initial gs) in
  replaceLabels g i names now seq w = (Ok tt, w') ->
  forall l, attached (item_labels (wdb w')) g i l <-> named (labels (wdb w')) g names l.
Proof.
  cbv zeta. set (w := serve evs (initial gs)). intros Hrun l.
  assert (Hl : label_names (wdb w)) by apply served_label_names.
  unfold replaceLabels in Hrun. apply prog_bind_inv_ok in Hrun as (ids & w1 & Hids & Hrun).
  destruct (resolve_names_ok g names now [] [] w ids w1 Hl) as (Hl1 & _ & Hnamed); [|exact Hids|].
  { intros l'. unfold named. setoid_rewrite elem_of_nil. naive_solver. }
  apply prog_bind_inv_ok in Hrun as (n & w2 & Hc & Hrun).
  destruct (attach_all_ok _ _ _ _ _ _ _ Hrun) as [Hlab Hatt].
  unfold CascadeDeleteItemLabels in Hc. run_inv. simpl in *.
  rewrite Hatt, Hnamed, Hlab, app_nil_r. split; [|tauto]. intros [(k & e & Hk & Hlv & Hg & Hed)|]; [|done].
  rewrite update_where_lookup in Hk. destruct (item_labels (wdb w1) !! k) as [e0|]; [|done]. simpl in Hk.
  destruct (_ && _) eqn:HP in Hk; injection Hk as <-; [done|].
  unfold edge in Hed. bool_facts. exfalso. by rewrite Hlv, Hg, H0, !string_eqb_refl in HP.
Qed.
End labels.

Lemma import_labels_exact_witness :
  let w' := exec (replaceLabels "g1" "i1" ["Fragile"; "Red"]%string 300 5) (serve demo_setup (initial demo_groups)) in
  attached (item_labels (wdb w')) "g1" "i1" "l1" <-> named (labels (wdb w')) "g1" ["Fragile"; "Red"]%string "l1".
Proof.
  cbv zeta. apply (import_labels_exact demo_groups demo_setup "g1" "i1" ["Fragile"; "Red"]%string 300 5).
  vm_compute. reflexivity.
Defined.

(** ** A session is committed at most once *)

(** The session is there, of the group, and committed. *)
Definition committed (g id : string) (db : DB) : Prop :=
  exists s, import_sessions db !! id = Some s /\ imp_GroupID s = g /\ imp_Status s = status_committed.

Section once.
Context `{Entropy} (g id : string).

Lemma committed_frame a b : import_sessions b = import_sessions a -> committed g id a -> committed g id b.
Proof. unfold committed. by intros ->. Qed.

Lemma CreateImportSession_keeps_committed i h src a b :
  keeps (committed g id) (CreateImportSession i h src a b).
Proof.
  intros w (s & Hs & Hg & Hst). unfold CreateImportSession. destruct (import_sessions (wdb w) !! i) eqn:E; [by exists s|].
  destruct (group_exists (wdb w) h); [|by exists s]. exists s. simpl. rewrite lookup_insert_ne by congruence. done.
Qed.

Lemma MarkImportSessionCommitted_keeps_committed h i : keeps (committed g id) (MarkImportSessionCommitted h i).
Proof.
  intros w (s & Hs & Hg & Hst). unfold MarkImportSessionCommitted.
  destruct (import_sessions (wdb w) !! i) as [s'|] eqn:E; [|by exists s].
  destruct (_ && _) eqn:Hc; [|by exists s]. bool_facts. exists s. simpl.
  destruct (decide (i = id)) as [->|]; [|by rewrite lookup_insert_ne by done].
  assert (s' = s) as -> by congruence. exfalso. by rewrite Hst in *.
Qed.

Lemma DeleteImportSession_keeps_committed h i :
  (h, i) <> (g, id) -> keeps (committed g id) (DeleteImportSession h i).
Proof.
  intros Hne w (s & Hs & Hg & Hst). unfold DeleteImportSession.
  destruct (import_sessions (wdb w) !! i) as [s'|] eqn:E; [|by exists s].
  destruct (String.eqb_spec (imp_GroupID s') h); [|by exists s]. exists s. simpl.
  rewrite lookup_delete_ne by congruence. done.
Qed.

Lemma groups_keep_committed db t : committed g id db -> committed g id (set_groups t db).
Proof. by apply committed_frame. Qed.

#[local] Hint Resolve CreateImportSession_keeps_committed MarkImportSessionCommitted_keeps_committed : steps.


Lemma push_dispatch_keeps_committed h m : keeps (committed g id) (push_dispatch h m).
Proof. steps_dispatch. Qed.
#[local] Hint Resolve push_dispatch_keeps_committed : steps.

Lemma SetLowWatermark_keeps_committed h to : keeps (committed g id) (SetGroupTombstoneLowWatermark to h).
Proof.
  intros w Hc. unfold SetGroupTombstoneLowWatermark. repeat (case_match; simpl; try done).
Qed.
#[local] Hint Resolve SetLowWatermark_keeps_committed : steps.

Lemma handle_event_keeps_committed e :
  e <> OfGroup g (ImportSessionsDelete id) -> keeps (committed g id) (handle_event e).
Proof.
  intros Hne. destruct e as [h r|a]; [destruct r|destruct a]; simpl; unfold discard, resolve_label;
    try (solve [repeat steps_import]).
  apply steps_bind; [apply _| |intros []; solve_steps]. apply steps_Tx; [apply _|].
  apply DeleteImportSession_keeps_committed. congruence.
Qed.

Lemma serve_keeps_committed evs w :
  OfGroup g (ImportSessionsDelete id) ∉ evs -> committed g id (wdb w) -> committed g id (wdb (serve evs w)).
Proof.
  revert w. induction evs as [|e evs IH]; intros w; simpl; [done|].
  intros [Hne Hevs]%not_elem_of_cons Hc. apply IH; [done|]. apply handle_event_keeps_committed; [congruence|done].
Qed.
End once.

Lemma committed_not_staged `{Entropy} g p w :
  committed g (imc_ImportSessionID p) (wdb w) -> ImportCommitParams_validate p = Ok tt ->
  ImportCommit g p w = (Err ErrImportSessionNotStaged, w).
Proof.
  intros (s & Hs & Hg & Hst) Hv. unfold ImportCommit, writeTx, Tx, lift, mbind, prog_bind. rewrite Hv.
  unfold MarkImportSessionCommitted. rewrite Hs, Hg, Hst, string_eqb_refl. simpl. by destruct w.
Qed.

Lemma steps_commit_rows_committed `{Entropy} g id h now rows r : keeps (committed g id) (commit_rows h now rows r).
Proof. unfold resolve_label. repeat steps_import. Qed.

(** C21: a staged import is committed at most once.  After a commit that
    succeeded, whatever the server serves (short of deleting the session),
    committing the same session again, with these rows or others, is refused
    and writes nothing: no item is created twice. *)
Theorem import_commits_once `{Entropy} g p r w w' evs p' :
  ImportCommit g p w = (Ok r, w') ->
  OfGroup g (ImportSessionsDelete (imc_ImportSessionID p)) ∉ evs ->
  imc_ImportSessionID p' = imc_ImportSessionID p -> ImportCommitParams_validate p' = Ok tt ->
  ImportCommit g p' (serve evs w') = (Err ErrImportSessionNotStaged, serve evs w').
Proof.
  intros [_ Hrun]%writeTx_ok Hevs Hid Hv. apply committed_not_staged; [|done]. rewrite Hid.
  apply serve_keeps_committed; [done|]. apply prog_bind_inv_ok in Hrun as (n & w1 & Hm & Hrun).
  destruct (negb (n =? 1)%Z) eqn:Hn; [done|].
  pose proof (steps_commit_rows_committed g (imc_ImportSessionID p) g (imc_Now p) (imc_Rows p)
    (mkImportResult 0 0 0 []) w1) as Hk. rewrite Hrun in Hk. apply Hk.
  unfold MarkImportSessionCommitted in Hm. destruct (import_sessions (wdb w) !! _) as [s|]; [|by injection Hm as <- _].
  destruct (_ && _) eqn:Hc in Hm; [|by injection Hm as <- _]. injection Hm as <- <-. bool_facts.
  exists (with_status status_committed s). simpl. by rewrite lookup_insert_eq.
Qed.

Definition demo_staged : World := Eval vm_compute in
  exec (ImportSessions_Create "g1" (mkCreateImportSession "s1" "household-csv" 300)) demo.
Definition demo_commit (now : Z) : ImportCommitParams :=
  mkImportCommit "s1" [mkImportRow 2 ImportCommitRowCreate "" [] (demo_proposed ["Red"%string])] now.

Lemma import_commits_once_witness :
  let w' := exec (ImportCommit "g1" (demo_commit 301)) demo_staged in
  ImportCommit "g1" (demo_commit 302) (serve demo_setup w') = (Err ErrImportSessionNotStaged, serve demo_setup w').
Proof.
  cbv zeta. apply (import_commits_once "g1" (demo_commit 301)
    (mkImportResult 1 0 0 [mkImportCreated 2 "uuid-0"]) demo_staged _ demo_setup (demo_commit 302)).
  - vm_compute. reflexivity.
  - unfold demo_setup. rewrite !not_elem_of_cons. repeat split; try discriminate. apply not_elem_of_nil.
  - reflexivity.
  - vm_compute. reflexivity.
Defined.
