(* ===== verification/AccountProperties.v ===== *)
(** * Properties of accounts

    Credentials age in one direction only: an invite that was redeemed stays
    redeemed, a session or device token that was revoked stays revoked,
    whatever is served.  From that: an invite admits one user, and a password
    reset ends every credential of the user for good. *)

From S2P Require Import Prelude GoBase Schema Sql Evolution Queries PushRepo Items Blocks Details.
From S2P Require Import Exec History Labels Locations PushFields PushHandlers PushCommit PushMerge.
From S2P Require Import Accounts ImportCommit SyncReader Demo System Integrity.

(** ** Ageing *)

(** What a token is, who holds it and until when (0: for ever, or not followed),
    and whether it has been used up. *)
Class Credential (D : Type) `{Table D} := {
  token : D -> string;
  holder : D -> string * Z;
  spent : D -> bool;
}.

#[global] Instance invite_credential : Credential InviteCols := {
  token := inv_TokenHash; holder i := (inv_CreatedByUserID i, 0%Z); spent i := negb (is_null (inv_RedeemedAt i)) }.
#[global] Instance session_credential : Credential SessionCols := {
  token := ses_TokenHash; holder s := (ses_UserID s, ses_ExpiresAt s); spent s := negb (is_null (ses_RevokedAt s)) }.
#[global] Instance device_token_credential : Credential DeviceTokenCols := {
  token := dev_TokenHash; holder d := (dev_UserID d, 0%Z); spent d := negb (is_null (dev_RevokedAt d)) }.

Record ages {D} `{Credential D} (r r' : Row D) : Prop := mkAges {
  age_group : GroupID r' = GroupID r;
  age_deleted : DeletedAt r' = DeletedAt r;
  age_token : token (Cols r') = token (Cols r);
  age_holder : holder (Cols r') = holder (Cols r);
  age_spent : spent (Cols r) = true -> spent (Cols r') = true;
}.

#[global] Instance ages_preorder {D} `{Credential D} : PreOrder (ages (D := D)).
Proof. split; [by intros r|]. intros a b c [] []. split; (congruence || auto). Qed.

Definition table_ages {D} `{Credential D} (t t' : gmap string (Row D)) : Prop :=
  forall k r, t !! k = Some r -> exists r', t' !! k = Some r' /\ ages r r'.

#[global] Instance table_ages_preorder {D} `{Credential D} : PreOrder (table_ages (D := D)).
Proof.
  split; [by intros t k r Hr; exists r|]. intros a b c Hab Hbc k r Hr.
  destruct (Hab k r Hr) as (r1 & Hr1 & H1), (Hbc k r1 Hr1) as (r2 & Hr2 & H2). exists r2. split; [done|]. by etrans.
Qed.

(** The three tables of credentials. *)
Record credentials_age (a b : DB) : Prop := mkCredentialsAge {
  ca_invites : table_ages (invites a) (invites b);
  ca_sessions : table_ages (sessions a) (sessions b);
  ca_device_tokens : table_ages (device_tokens a) (device_tokens b);
}.

#[global] Instance credentials_age_preorder : PreOrder credentials_age.
Proof. split; [by intros a; split|]. intros a b c [] []. split; by etrans. Qed.

Lemma credentials_age_frame a b :
  invites b = invites a -> sessions b = sessions a -> device_tokens b = device_tokens a -> credentials_age a b.
Proof. intros Hi Hs Hd. split; by rewrite ?Hi, ?Hs, ?Hd. Qed.

Lemma table_ages_insert {D} `{Credential D} (t : gmap string (Row D)) r :
  t !! ID r = None -> table_ages t (<[ID r := r]> t).
Proof. intros Hn k r0 Hk. exists r0. rewrite lookup_insert_ne by congruence. done. Qed.

Lemma table_ages_update {D} `{Credential D} (t : gmap string (Row D)) P f :
  (forall r, P r = true -> ages r (f r)) -> table_ages t (update_where P f t).
Proof.
  intros Hf k r Hk. exists (if P r then f r else r). rewrite update_where_lookup, Hk. split; [done|].
  destruct (P r) eqn:HP; [by apply Hf|done].
Qed.

(** ** Every event only lets credentials age *)

Ltac age_frame := intros; simpl in *; solve [by apply credentials_age_frame].

Section statements.
Lemma age_insert_other {D} `{Table D} (r : Row D) :
  (forall db (t : gmap string (Row D)), credentials_age db (set_tbl t db)) -> steps credentials_age (insert_row r).
Proof. intros Ht. apply steps_insert_row; [apply _|auto]. Qed.

Lemma age_update_other {D} `{Table D} P (f : Row D -> Row D) :
  (forall db (t : gmap string (Row D)), credentials_age db (set_tbl t db)) -> steps credentials_age (update_rows P f).
Proof. intros Ht. apply steps_update_rows; [apply _|auto]. Qed.

Lemma age_insert_credential :
  (forall r : Invite, steps credentials_age (insert_row r)) /\
  (forall r : Session, steps credentials_age (insert_row r)) /\
  (forall r : DeviceToken, steps credentials_age (insert_row r)).
Proof.
  split_and!; intros r; (apply steps_insert_row; [apply _|]); intros db Hn _ _; split; simpl;
    solve [reflexivity | by apply table_ages_insert].
Qed.

Lemma age_update_credential :
  (forall P (f : Invite -> Invite), (forall r, P r = true -> ages r (f r)) -> steps credentials_age (update_rows P f)) /\
  (forall P (f : Session -> Session), (forall r, P r = true -> ages r (f r)) -> steps credentials_age (update_rows P f)) /\
  (forall P (f : DeviceToken -> DeviceToken), (forall r, P r = true -> ages r (f r)) ->
     steps credentials_age (update_rows P f)).
Proof.
  split_and!; intros P f Hf; (apply steps_update_rows; [apply _|]); intros db _; split; simpl;
    solve [reflexivity | by apply table_ages_update].
Qed.

Lemma age_groups db t : credentials_age db (set_groups t db).
Proof. age_frame. Qed.

Lemma age_push_tables :
  (forall g, steps credentials_age (AllocChangeSeq g)) /\
  (forall g et eid f v now, steps credentials_age (UpsertFieldVersion g et eid f v now)) /\
  (forall id g mid et eid now o, steps credentials_age (CreateMutation id g mid et eid now o)) /\
  (forall id row, steps credentials_age (CreateConflict id row)).
Proof.
  split_and!; intros; [apply steps_AllocChangeSeq|apply steps_UpsertFieldVersion|apply steps_CreateMutation
    |apply steps_CreateConflict]; try apply _; age_frame.
Qed.

Lemma age_group_writes :
  (forall g name now, steps credentials_age (CreateGroup g name now)) /\
  (forall g name now, steps credentials_age (CreateGroupIfNone g name now)) /\
  (forall a b c now seq g v, steps credentials_age (UpdateGroupVisibility a b c now seq g v)).
Proof. apply steps_groups; [apply _|age_frame]. Qed.

Lemma age_import_sessions g :
  (forall id src a b, steps credentials_age (CreateImportSession id g src a b)) /\
  (forall id, steps credentials_age (DeleteImportSession g id)) /\
  (forall id, steps credentials_age (MarkImportSessionCommitted g id)).
Proof. apply steps_import_sessions; [apply _|age_frame]. Qed.

Lemma age_SetLowWatermark g to : steps credentials_age (SetGroupTombstoneLowWatermark to g).
Proof. intros w. unfold SetGroupTombstoneLowWatermark. repeat (case_match; simpl; try done). Qed.
End statements.

(** The updates of credentials set the column that spends them, or dates. *)
Ltac solve_ages := let r := fresh in intros r ?; split; simpl; (done || by destruct r as [? ? ? ? ? ? ? []]).

#[local] Hint Extern 1 (steps credentials_age (insert_row _)) =>
  first [apply age_insert_credential | apply age_insert_other; age_frame] : steps.
#[local] Hint Extern 1 (steps credentials_age (update_rows _ _)) =>
  first [apply age_update_other; age_frame | apply age_update_credential; solve_ages] : steps.
#[local] Hint Extern 1 (steps credentials_age _) =>
  first [apply age_push_tables | apply age_group_writes | apply age_import_sessions | apply age_SetLowWatermark] : steps.

Section served.
Context `{Entropy}.

Lemma push_dispatch_ages g m : steps credentials_age (push_dispatch g m).
Proof. steps_dispatch. Qed.
#[local] Hint Resolve push_dispatch_ages : steps.

Lemma handle_event_ages e : steps credentials_age (handle_event e).
Proof.
  destruct e as [g r|a]; [destruct r|destruct a]; simpl; unfold discard, resolve_label; repeat steps_import.
Qed.

Lemma serve_ages evs w : credentials_age (wdb w) (wdb (serve evs w)).
Proof.
  unfold serve. revert w. induction evs as [|e evs IH]; intros w; simpl; [done|].
  etrans; [apply (handle_event_ages e)|apply IH].
Qed.
End served.

(** ** Spent for good *)

Section spent.
Context {D : Type} `{Credential D, !IntegTable D}.

(** The row with the token, if any, is used up. *)
Definition used_up (h : string) (t : gmap string (Row D)) : Prop :=
  exists k r, t !! k = Some r /\ token (Cols r) = h /\ spent (Cols r) = true.

Lemma used_up_ages h t t' : table_ages t t' -> used_up h t -> used_up h t'.
Proof.
  intros Ht (k & r & Hr & Hh & Hs). destruct (Ht k r Hr) as (r' & Hr' & []). exists k, r'.
  split_and!; [done|congruence|auto].
Qed.

(** A token stands for one row. *)
Lemma token_unique db k1 k2 (r1 r2 : Row D) :
  (exists ix, ix ∈ unique_indexes (D := D) /\ forall r, ix r = Some [token (Cols r)]) ->
  integ db -> tbl db !! k1 = Some r1 -> tbl db !! k2 = Some r2 ->
  token (Cols r1) = token (Cols r2) -> k1 = k2.
Proof.
  intros (ix & Hix & Hkey) Hi H1 H2 Heq. apply (int_unique _ _ (integ_get _ Hi) ix _ _ _ _ Hix H1 H2).
  rewrite !Hkey. simpl. apply bool_decide_eq_true. by rewrite Heq.
Qed.
End spent.

(** The UNIQUE index on the token hash. *)
Ltac token_index := eexists; split; [by left|done].

Lemma select_one_spent {D} `{Credential D, !IntegTable D} (P : Row D -> bool) h w r w' :
  (exists ix, ix ∈ unique_indexes (D := D) /\ forall r, ix r = Some [token (Cols r)]) ->
  integ (wdb w) -> used_up h (tbl (D := D) (wdb w)) -> (forall r, P r = true -> token (Cols r) = h) ->
  select_one P w = (Ok r, w') -> spent (Cols r) = true.
Proof.
  intros Hix Hi (k & r0 & Hr0 & Hh & Hs) HP Hsel. apply select_one_ok in Hsel as (-> & Hr & k' & Hk').
  assert (k' = k) as -> by (eapply token_unique; [done..|]; by rewrite Hh, (HP r Hr)). congruence.
Qed.

Section properties.
Context `{Entropy}.

Lemma redeem_spends p r w w' :
  RedeemInvite p w = (Ok r, w') -> used_up (D := InviteCols) (ri_TokenHash p) (invites (wdb w')).
Proof.
  intros [_ Hr]%writeTx_ok. apply prog_bind_inv_ok in Hr as (i & w1 & _ & Hr). unfold redeem_in in Hr.
  apply prog_bind_inv_ok in Hr as (seq & w2 & _ & Hr). apply prog_bind_inv_ok in Hr as (c & w3 & _ & Hr).
  destruct c as [[]|]; [|by apply throw_ok in Hr].
  apply prog_bind_inv_ok in Hr as (n & w4 & Hm & Hr). destruct (negb (n =? 1)%Z) eqn:Hn; [by apply throw_ok in Hr|].
  apply ret_ok in Hr as [_ ->]. apply negb_false_iff, Z.eqb_eq in Hn as ->.
  unfold MarkInviteRedeemed in Hm. apply update_rows_ok in Hm as (Hcnt & _ & ->). simpl in *.
  destruct (where_ _ _) as [|i0 l] eqn:E in Hcnt; [done|].
  assert (Hin : i0 ∈ i0 :: l) by (by left). rewrite <- E in Hin. apply elem_of_where in Hin as [[k Hk] HP].
  eexists k, _. rewrite update_where_lookup, Hk. simpl. rewrite HP. split_and!; [done| |done].
  simpl. by bool_facts.
Qed.

(** C29: an invite admits one user.  Once a redemption has succeeded, whatever
    the server serves, redeeming an invite with that token again fails and
    writes nothing: no second user joins the group. *)
Theorem invite_single_use gs evs0 p r w' evs p' :
  RedeemInvite p (serve evs0 (initial gs)) = (Ok r, w') -> ri_TokenHash p' = ri_TokenHash p ->
  exists e w2, RedeemInvite p' (serve evs w') = (Err e, w2) /\ wdb w2 = wdb (serve evs w').
Proof.
  intros Hr Hh. set (w3 := serve evs w').
  assert (Hi : integ (wdb w3)).
  { apply serve_keeps_integ. pose proof (handle_event_keeps_integ (OfAccount (InviteRedeem p)) _
      (serve_keeps_integ evs0 _ (integ_initial gs))) as Hk. simpl in Hk.
    unfold discard, mbind, prog_bind in Hk. by rewrite Hr in Hk. }
  assert (Hu : used_up (D := InviteCols) (ri_TokenHash p') (invites (wdb w3))).
  { rewrite Hh. eapply used_up_ages; [apply (ca_invites _ _ (serve_ages evs w'))|]. by eapply redeem_spends. }
  destruct (RedeemInvite p' w3) as [[r'|e] w2] eqn:E; [exfalso|exists e, w2; split; [done|by eapply writeTx_err]].
  apply writeTx_ok in E as [_ E]. apply prog_bind_inv_ok in E as (i & w4 & Hf%no_rows_as_ok & E).
  pose proof (f_equal snd Hf) as Hw. unfold GetInviteForRedeem in Hw. rewrite select_one_state in Hw. simpl in Hw. subst w4.
  unfold redeem_in in E. apply prog_bind_inv_ok in E as (seq & w5 & Ha & E).
  apply prog_bind_inv_ok in E as (c & w6 & Hc%try_ok & E). destruct c as [[]|]; [|by apply throw_ok in E].
  apply prog_bind_inv_ok in E as (n & w7 & Hm & E). destruct (negb (n =? 1)%Z) eqn:Hn; [by apply throw_ok in E|].
  apply negb_false_iff, Z.eqb_eq in Hn as ->.
  assert (Hinv : invites (wdb w6) = invites (wdb w3)).
  { unfold CreateUser in Hc. apply insert_row_ok in Hc as (_ & _ & _ & _ & ->).
    apply AllocChangeSeq_ok in Ha as (G & _ & _ & ->). done. }
  unfold MarkInviteRedeemed in Hm. apply update_rows_ok in Hm as (Hcnt & _ & _). simpl in Hcnt. rewrite Hinv in Hcnt.
  destruct (where_ _ _) as [|i0 l] eqn:Ew in Hcnt; [done|].
  assert (Hin : i0 ∈ i0 :: l) by (by left). rewrite <- Ew in Hin. apply elem_of_where in Hin as [[k Hk] HP].
  destruct Hu as (k' & i' & Hk' & Hh' & Hs').
  assert (k' = k) as ->.
  { eapply (token_unique (D := InviteCols)); [token_index|exact Hi|exact Hk'|exact Hk|]. simpl. bool_facts. etrans; [exact Hh'|done]. }
  assert (i' = i0) as -> by congruence. simpl in Hs'. bool_facts. by destruct (inv_RedeemedAt (Cols i0)).
Qed.

(** ** Password reset *)

(** No credential with this token is good for anything. *)
Definition ended (m : M Auth) (w : World) : Prop :=
  forall a w', m w = (Ok a, w') -> auth_Revoked a = true.

Lemma session_ended h w :
  integ (wdb w) -> used_up (D := SessionCols) h (sessions (wdb w)) -> ended (SessionAuth h) w.
Proof.
  intros Hi Hu a w' Ha. unfold SessionAuth in Ha.
  apply prog_bind_inv_ok in Ha as ([s u] & w1 & Hs%no_rows_as_ok & Ha). apply ret_ok in Ha as [-> ->]. simpl.
  unfold GetSessionForAuth in Hs. apply prog_bind_inv_ok in Hs as (s' & w2 & Hs & Hu').
  apply prog_bind_inv_ok in Hu' as (u' & w3 & _ & Hp). apply ret_ok in Hp as [[= -> ->] _].
  eapply (select_one_spent (D := SessionCols)) in Hs; [exact Hs|token_index|exact Hi|exact Hu|].
  intros r Hr. simpl. by bool_facts.
Qed.

Lemma device_token_ended h w :
  integ (wdb w) -> used_up (D := DeviceTokenCols) h (device_tokens (wdb w)) -> ended (DeviceTokenAuth h) w.
Proof.
  intros Hi Hu a w' Ha. unfold DeviceTokenAuth in Ha.
  apply prog_bind_inv_ok in Ha as ([s u] & w1 & Hs%no_rows_as_ok & Ha). apply ret_ok in Ha as [-> ->]. simpl.
  unfold GetDeviceTokenForAuth in Hs. apply prog_bind_inv_ok in Hs as (s' & w2 & Hs & Hu').
  apply prog_bind_inv_ok in Hu' as (u' & w3 & _ & Hp). apply ret_ok in Hp as [[= -> ->] _].
  eapply (select_one_spent (D := DeviceTokenCols)) in Hs; [exact Hs|token_index|exact Hi|exact Hu|].
  intros r Hr. simpl. by bool_facts.
Qed.

(** What the transaction of a reset leaves of the user's live credentials. *)
Lemma reset_user_spends target h now r w w' :
  reset_user target h now w = (Ok r, w') ->
  rp_UserID r = ID target /\ rp_GroupID r = GroupID target /\
  (forall k (s : Session), sessions (wdb w) !! k = Some s -> GroupID s = GroupID target ->
     ses_UserID (Cols s) = ID target -> live s = true ->
     used_up (D := SessionCols) (ses_TokenHash (Cols s)) (sessions (wdb w'))) /\
  (forall k (d : DeviceToken), device_tokens (wdb w) !! k = Some d -> GroupID d = GroupID target ->
     dev_UserID (Cols d) = ID target -> live d = true ->
     used_up (D := DeviceTokenCols) (dev_TokenHash (Cols d)) (device_tokens (wdb w'))).
Proof.
  unfold reset_user. rewrite Tx_ok. intros Hr. unfold UpdateUserPasswordHash, RevokeAllSessionsForUser, RevokeAllDeviceTokensForUser in Hr.
  run_inv. simpl. split_and!; [done..| |].
  - intros k s Hk Hg Hu Hl. unfold used_up. setoid_rewrite update_where_lookup. exists k. rewrite Hk. simpl.
    rewrite Hg, Hu, Hl, !string_eqb_refl. simpl. destruct (ses_RevokedAt (Cols s)) eqn:Es; simpl;
      (eexists; split; [done|split; [done|]]); [by rewrite Es|done].
  - intros k s Hk Hg Hu Hl. unfold used_up. setoid_rewrite update_where_lookup. exists k. rewrite Hk. simpl.
    rewrite Hg, Hu, Hl, !string_eqb_refl. simpl. destruct (dev_RevokedAt (Cols s)) eqn:Es; simpl;
      (eexists; split; [done|split; [done|]]); [by rewrite Es|done].
Qed.

(** C30: a password reset ends every credential of the user for good.  After a
    reset that succeeded, whatever the server serves, none of the sessions and
    device tokens the user had authenticates any more: the lookup fails or
    says revoked. *)
Theorem reset_ends_credentials gs evs0 u h now r w' evs :
  let w := serve evs0 (initial gs) in
  ResetPassword u h now w = (Ok r, w') ->
  (forall k (s : Session), sessions (wdb w) !! k = Some s -> GroupID s = rp_GroupID r ->
     ses_UserID (Cols s) = rp_UserID r -> live s = true ->
     ended (SessionAuth (ses_TokenHash (Cols s))) (serve evs w')) /\
  (forall k (d : DeviceToken), device_tokens (wdb w) !! k = Some d -> GroupID d = rp_GroupID r ->
     dev_UserID (Cols d) = rp_UserID r -> live d = true ->
     ended (DeviceTokenAuth (dev_TokenHash (Cols d))) (serve evs w')).
Proof.
  cbv zeta. set (w := serve evs0 (initial gs)). intros Hr.
  assert (Hi : integ (wdb (serve evs w'))).
  { apply serve_keeps_integ. pose proof (handle_event_keeps_integ (OfAccount (PasswordReset u h now)) w
      (serve_keeps_integ evs0 _ (integ_initial gs))) as Hk. simpl in Hk.
    unfold discard, mbind, prog_bind in Hk. by rewrite Hr in Hk. }
  unfold ResetPassword in Hr. apply prog_bind_inv_ok in Hr as (x & w1 & Hx & Hr). apply lift_ok in Hx as [_ ->].
  apply prog_bind_inv_ok in Hr as (target & w2 & Ht%no_rows_as_ok & Hr).
  pose proof (f_equal snd Ht) as Hw. unfold GetUserForLogin in Hw. rewrite select_one_state in Hw. simpl in Hw. subst w2.
  destruct (reset_user_spends _ _ _ _ _ _ Hr) as (-> & -> & Hs & Hd).
  pose proof (serve_ages evs w') as [_ Has Had]. split.
  - intros k s Hk Hg Hu Hl. apply session_ended; [exact Hi|]. eapply used_up_ages; [exact Has|]. by eapply Hs.
  - intros k d Hk Hg Hu Hl. apply device_token_ended; [exact Hi|]. eapply used_up_ages; [exact Had|]. by eapply Hd.
Qed.
End properties.

(** ** The properties hold somewhere *)

(** A new server: the first user registers, logs in, pairs a device and
    invites somebody. *)
Definition demo_accounts : list event :=
  (OfAccount <$>
  [RegisterFirst (mkFirstUser "g1" "Home" "u1" "alice" "hash1" 100);
   SessionCreate (mkSessionParams "s1" "g1" "u1" "token-s1" 9000 "curl" "10.0.0.1" 101);
   DeviceTokenCreate (mkDeviceTokenParams "d1" "g1" "u1" "token-d1" "phone" 102);
   InviteCreate (mkInviteParams "v1" "g1" "u1" "token-v1" 9000 103)])%string.

Lemma invite_single_use_witness : exists e w2,
  let w' := exec (RedeemInvite (mkRedeemInvite "token-v1" "u2" "bob" "hash2" 104)) (serve demo_accounts (initial ∅)) in
  RedeemInvite (mkRedeemInvite "token-v1" "u3" "carol" "hash3" 105) (serve [] w') = (Err e, w2)
  /\ wdb w2 = wdb (serve [] w').
Proof.
  apply (invite_single_use ∅ demo_accounts (mkRedeemInvite "token-v1" "u2" "bob" "hash2" 104)
    (mkRedeemed "g1" "u2" "bob") _ [] (mkRedeemInvite "token-v1" "u3" "carol" "hash3" 105));
    [vm_compute; reflexivity|reflexivity].
Defined.

Lemma reset_ends_credentials_witness :
  let w := serve demo_accounts (initial ∅) in
  let w' := exec (ResetPassword "alice" "hash9" 200) w in
  ended (SessionAuth "token-s1") (serve [] w') /\ ended (DeviceTokenAuth "token-d1") (serve [] w').
Proof.
  cbv zeta.
  destruct (reset_ends_credentials ∅ demo_accounts "alice" "hash9" 200 (mkResetPassword "u1" "g1" 1 1)
    (exec (ResetPassword "alice" "hash9" 200) (serve demo_accounts (initial ∅))) []) as [Hs Hd];
    [vm_compute; reflexivity|]. split.
  - apply (Hs "s1"%string (mkRow "s1" "g1" 101 101 1 None 2
      (mkSession "u1" "token-s1" 9000 None "curl" "10.0.0.1"))); reflexivity.
  - apply (Hd "d1"%string (mkRow "d1" "g1" 102 102 1 None 3
      (mkDeviceToken "u1" "token-d1" "phone" None))); reflexivity.
Defined.
