(* ===== verification/PushLimits.v ===== *)
(** * Where the merge of push falls short

    Two runs of the server in which push does not do what its field-level
    merge is for. *)

From S2P Require Import Prelude GoBase Schema Sql Evolution Queries PushRepo Items Blocks Details.
From S2P Require Import Exec History Labels Locations PushFields PushHandlers PushCommit Demo.

(** [demo] with the lamp in the room: version 2. *)
Definition in_room : World := Eval vm_compute in
  exec (Items_Update "g1" (mkUpdateItem "i1" "Lamp" "" "room" 3 1 300)) demo.

(** The room is deleted and its content moved to the house ... *)
Definition room_deleted : World := Eval vm_compute in
  exec (Locations_Delete "g1" (mkDeleteLocation "room" true "house" 310)) in_room.

(** ... or the lamp is moved there by an update. *)
Definition lamp_moved : World := Eval vm_compute in
  exec (Items_Update "g1" (mkUpdateItem "i1" "Lamp" "" "house" 3 2 310)) in_room.

(** A client that saw the lamp in the room takes it out of any location. *)
Definition take_out : PushMutation := demo_push "m7" "item" "i1" 2 [("location_id"%string, JString "")].

Definition location_of (w : World) : option (option string) := item_LocationID ∘ Cols <$> items (wdb w) !! "i1"%string.

Definition outcome (m : PushMutation) (w : World) : option (bool * list string) :=
  match (ApplyMutation "g1" m w).1 with Ok o => Some (po_Applied o, po_ConflictFields o) | Err _ => None end.


(** A warranty block, edited on the server, and a stale push of that field. *)
Definition warranty_edited : World := Eval vm_compute in
  exec (Warranty_Update "g1" (mkUpdateWarrantyP "i1" "Ann" "Acme" "" "" false "" 1 320))
    (exec (Warranty_Create "g1" (mkCreateWarrantyP "w1" "i1" "Bob" "Acme" "" "" false "" 310)) demo).

Definition stale_holder : PushMutation :=
  demo_push "m8" "warranty_block" "w1" 1 [("item_id"%string, JString "i1"); ("holder"%string, JString "Eve")].

Definition warranty_row (w : World) : option (Z * string) :=
  (fun r => (Version r, war_Holder (Cols r))) <$> item_warranty (wdb w) !! "w1"%string.

(** A push to a block always names item_id, which never conflicts: when
    every other field does, the push is still answered as applied, the row
    is written back unchanged and its version goes up. *)
Theorem conflicting_block_push_applies :
  warranty_row warranty_edited = Some (2%Z, "Ann"%string) /\
  outcome stale_holder warranty_edited = Some (true, ["holder"%string]) /\
  warranty_row (exec (ApplyMutation "g1" stale_holder) warranty_edited) = Some (3%Z, "Ann"%string).
Proof. vm_compute. split_and!; reflexivity. Qed.
