(* ===== verification/PullTheorems.v ===== *)
(** * How a pull cuts its page

    Lemmas on sorted lists, on the grouping by sequence number and on the
    truncated answers of the sources; the interface [source_spec] is all that
    the theorems about [Pull] know of a source.

    On a database that does not change while the pull runs, a page is exactly
    the rows written between the old watermark and the new one, and following
    the watermarks visits every row once. *)

From S2P Require Import Prelude GoBase Schema Sql SyncReader.

Abbreviation seq_le := (fun a b : candidate => (c_changeSeq a <= c_changeSeq b)%Z).

#[global] Instance seq_le_trans : Transitive seq_le.
Proof. intros a b c ??. lia. Qed.

(** The candidates up to, and beyond, a sequence number. *)
Definition upto (s : Z) (l : list candidate) : list candidate := filter (fun c => (c_changeSeq c <= s)%Z) l.
Definition beyond (s : Z) (l : list candidate) : list candidate := filter (fun c => (s < c_changeSeq c)%Z) l.
Definition at_seq (s : Z) (l : list candidate) : list candidate := filter (fun c => c_changeSeq c = s) l.

#[global] Instance upto_Permutation s : Proper ((≡ₚ) ==> (≡ₚ)) (upto s).
Proof. intros l l' H. unfold upto. by rewrite H. Qed.
#[global] Instance beyond_Permutation s : Proper ((≡ₚ) ==> (≡ₚ)) (beyond s).
Proof. intros l l' H. unfold beyond. by rewrite H. Qed.

Lemma filter_all (P : candidate -> Prop) `{forall c, Decision (P c)} (l : list candidate) :
  (forall c, c ∈ l -> P c) -> filter P l = l.
Proof.
  induction l as [|c l IH]; intros Hl; [done|]. rewrite filter_cons_True by (apply Hl; by left).
  f_equal. apply IH. intros c' Hc'. apply Hl. by right.
Qed.

Lemma filter_none (P : candidate -> Prop) `{forall c, Decision (P c)} (l : list candidate) :
  (forall c, c ∈ l -> ~ P c) -> filter P l = [].
Proof.
  induction l as [|c l IH]; intros Hl; [done|]. rewrite filter_cons_False by (apply Hl; by left).
  apply IH. intros c' Hc'. apply Hl. by right.
Qed.

Lemma upto_app s l k : upto s (l ++ k) = upto s l ++ upto s k.
Proof. unfold upto, beyond. apply filter_app. Qed.
Lemma beyond_app s l k : beyond s (l ++ k) = beyond s l ++ beyond s k.
Proof. unfold upto, beyond. apply filter_app. Qed.

Lemma elem_of_upto s l c : c ∈ upto s l <-> (c_changeSeq c <= s)%Z /\ c ∈ l.
Proof. unfold upto, beyond. by rewrite list_elem_of_filter. Qed.
Lemma elem_of_beyond s l c : c ∈ beyond s l <-> (s < c_changeSeq c)%Z /\ c ∈ l.
Proof. unfold upto, beyond. by rewrite list_elem_of_filter. Qed.

Lemma upto_all s l : (forall c, c ∈ l -> (c_changeSeq c <= s)%Z) -> upto s l = l.
Proof. unfold upto, beyond. apply filter_all. Qed.
Lemma upto_none s l : (forall c, c ∈ l -> (s < c_changeSeq c)%Z) -> upto s l = [].
Proof. unfold upto, beyond. intros H. apply filter_none. intros c Hc. specialize (H c Hc). lia. Qed.
Lemma beyond_all s l : (forall c, c ∈ l -> (s < c_changeSeq c)%Z) -> beyond s l = l.
Proof. unfold upto, beyond. apply filter_all. Qed.
Lemma beyond_none s l : (forall c, c ∈ l -> (c_changeSeq c <= s)%Z) -> beyond s l = [].
Proof. unfold upto, beyond. intros H. apply filter_none. intros c Hc. specialize (H c Hc). lia. Qed.

Lemma upto_beyond_split s l : l ≡ₚ upto s l ++ beyond s l.
Proof.
  unfold upto, beyond. induction l as [|c l IH]; [done|].
  rewrite !filter_cons. destruct (decide (c_changeSeq c <= s)%Z).
  - rewrite decide_False by lia. simpl. by f_equiv.
  - rewrite decide_True by lia. rewrite <- Permutation_middle. by f_equiv.
Qed.

(** In a sorted list, the candidates up to [s] come first. *)
Lemma sorted_split s l : StronglySorted seq_le l -> l = upto s l ++ beyond s l.
Proof.
  unfold upto, beyond. induction 1 as [|c l Hs IH Hall]; [done|].
  rewrite !filter_cons. destruct (decide (c_changeSeq c <= s)%Z).
  - rewrite decide_False by lia. simpl. by f_equal.
  - rewrite decide_True by lia. rewrite Forall_forall in Hall.
    fold (upto s l) (beyond s l). rewrite upto_none.
    + simpl. f_equal. symmetry. apply beyond_all. intros c' Hc'. specialize (Hall c' Hc'). lia.
    + intros c' Hc'. specialize (Hall c' Hc'). lia.
Qed.

(** A source cut off by LIMIT is complete up to [s], or gives more than
    [limit] candidates up to [s]. *)
Lemma take_limit_upto limit s l :
  (0 < limit <= int64_max)%Z -> StronglySorted seq_le l ->
  upto s (take_limit (wrap64 (limit + 1)) l) = upto s l \/
  (limit < Z.of_nat (length (upto s (take_limit (wrap64 (limit + 1)) l))))%Z.
Proof.
  intros Hlim Hs. unfold take_limit. destruct (Z.ltb_spec (wrap64 (limit + 1)) 0) as [Hneg|Hpos]; [by left|].
  assert (Hw : wrap64 (limit + 1) = (limit + 1)%Z).
  { apply wrap64_id. unfold int64_min, int64_max in *.
    destruct (decide (limit = 9223372036854775807)%Z) as [->|]; [by vm_compute in Hpos|lia]. }
  rewrite Hw. set (n := Z.to_nat (limit + 1)).
  destruct (decide (length (upto s l) <= n)) as [Hle|Hgt].
  - left. rewrite (sorted_split s l Hs) at 1. rewrite take_app_ge by done. rewrite upto_app.
    rewrite (upto_all s (upto s l)) by (intros c Hc; by apply elem_of_upto in Hc as [? _]).
    rewrite (upto_none s (take _ _)), app_nil_r; [done|].
    intros c (i & Hi & _)%elem_of_take. by apply list_elem_of_lookup_2, elem_of_beyond in Hi as [? _].
  - right. rewrite (sorted_split s l Hs). rewrite take_app_le by lia. rewrite upto_all.
    + rewrite length_take. unfold n in *. lia.
    + intros c (i & Hi & _)%elem_of_take. by apply list_elem_of_lookup_2, elem_of_upto in Hi as [? _].
Qed.

Lemma take_limit_submseteq limit (l : list candidate) : take_limit limit l ⊆+ l.
Proof. unfold take_limit. destruct (_ <? _)%Z; [done|]. apply sublist_submseteq, sublist_take. Qed.

(** A limit of at least one row finds the smallest number. *)
Lemma take_limit_first limit l c :
  (limit < 0 \/ 0 < limit)%Z -> StronglySorted seq_le l -> c ∈ l ->
  exists c', c' ∈ take_limit limit l /\ (c_changeSeq c' <= c_changeSeq c)%Z.
Proof.
  intros Hlim Hs Hc. unfold take_limit. destruct (Z.ltb_spec limit 0); [exists c; split; [done|lia]|].
  destruct Hs as [|c0 l Hs Hall]; [set_solver|].
  assert (Hn : Z.to_nat limit <> 0) by lia.
  destruct (Z.to_nat limit) as [|n]; [done|]. exists c0. split; [simpl; by left|].
  apply elem_of_cons in Hc as [->|Hc]; [done|]. rewrite Forall_forall in Hall. by apply Hall.
Qed.

(** ** What a source promises *)

(** [src] answers from the candidates [all]. *)
Record source_spec (src : tableSource) (all : list candidate) : Prop := mkSourceSpec {
  spec_since since limit n : exists l,
    src_since src since limit n = (Ok (take_limit limit l), S n) /\
    l ≡ₚ beyond since all /\ StronglySorted seq_le l;
  spec_atSeq seq n : exists l, src_atSeq src seq n = (Ok l, S n) /\ l ≡ₚ at_seq seq all;
}.

Section sources.
Context (srcs : list tableSource) (feed : list (list candidate)) (Hspec : Forall2 source_spec srcs feed).

(** All the rows answered, each source cut off by the limit. *)
Lemma collect_since_run since limit n :
  exists x n', collect srcs (fun src => src_since src since limit) n = (Ok x, n') /\
    x ⊆+ beyond since (concat feed) /\
    ((limit < 0 \/ 0 < limit)%Z -> forall c, c ∈ beyond since (concat feed) ->
       exists c', c' ∈ x /\ (c_changeSeq c' <= c_changeSeq c)%Z) /\
    (forall m, limit = wrap64 (m + 1) -> (0 < m <= int64_max)%Z -> forall s,
       upto s x ≡ₚ upto s (beyond since (concat feed)) \/ (m < Z.of_nat (length (upto s x)))%Z).
Proof.
  revert n. induction Hspec as [|src all srcs' feed' Hsrc Hrest IH]; intros n; simpl.
  { exists [], n. split_and!; [done|done|set_solver|by left]. }
  destruct (spec_since _ _ Hsrc since limit n) as (l & Hl & Hperm & Hsort).
  destruct (IH Hrest (S n)) as (x & n' & Hx & Hsub & Hfirst & Hcut).
  exists (take_limit limit l ++ x), n'. rewrite beyond_app. split_and!.
  - by rewrite (prog_bind_ok _ _ _ _ _ Hl), (prog_bind_ok _ _ _ _ _ Hx).
  - rewrite <- Hperm. apply submseteq_app; [apply take_limit_submseteq|done].
  - intros Hlim c [Hc|Hc]%elem_of_app.
    + rewrite <- Hperm in Hc. destruct (take_limit_first limit l c Hlim Hsort Hc) as (c' & ? & ?).
      exists c'. split; [set_solver|done].
    + destruct (Hfirst Hlim c Hc) as (c' & ? & ?). exists c'. split; [set_solver|done].
  - intros m -> Hm s. rewrite !upto_app, length_app.
    destruct (take_limit_upto m s l Hm Hsort) as [Heq|Hgt]; [|right; lia].
    destruct (Hcut m eq_refl Hm s) as [Heq'|Hgt]; [|right; lia].
    left. by rewrite Heq, Heq', Hperm.
Qed.

Lemma collect_atSeq_run seq n :
  exists x n', collect srcs (fun src => src_atSeq src seq) n = (Ok x, n') /\ x ≡ₚ at_seq seq (concat feed).
Proof.
  revert n. induction Hspec as [|src all srcs' feed' Hsrc Hrest IH]; intros n; simpl.
  { by exists [], n. }
  destruct (spec_atSeq _ _ Hsrc seq n) as (l & Hl & Hperm). destruct (IH Hrest (S n)) as (x & n' & Hx & Hp).
  exists (l ++ x), n'. split.
  - by rewrite (prog_bind_ok _ _ _ _ _ Hl), (prog_bind_ok _ _ _ _ _ Hx).
  - unfold at_seq in *. by rewrite filter_app, Hperm, Hp.
Qed.

Lemma probe_run s n :
  exists b n', probe srcs s n = (Ok b, n') /\ (b = true <-> exists c, c ∈ concat feed /\ (s < c_changeSeq c)%Z).
Proof.
  revert n. induction Hspec as [|src all srcs' feed' Hsrc Hrest IH]; intros n; simpl.
  { exists false, n. split; [done|]. split; [done|]. set_solver. }
  destruct (spec_since _ _ Hsrc s 1 n) as (l & Hl & Hperm & Hsort).
  rewrite (prog_bind_ok _ _ _ _ _ Hl). destruct l as [|c l]; simpl.
  - destruct (IH Hrest (S n)) as (b & n' & Hb & Hbs). exists b, n'. split; [done|]. rewrite Hbs.
    setoid_rewrite elem_of_app. split; [naive_solver|].
    intros (c & [Hc|Hc] & Hs); [|eauto].
    assert (Hin : c ∈ beyond s all) by (by apply elem_of_beyond). rewrite <- Hperm in Hin. set_solver.
  - exists true, (S n). split; [done|]. split; [|done]. intros _. exists c.
    assert (Hin : c ∈ beyond s all) by (rewrite <- Hperm; by left).
    apply elem_of_beyond in Hin as [? ?]. split; [set_solver|done].
Qed.
End sources.

(** ** Grouping by sequence number *)

Definition group_ok (g : seqGroup) : Prop :=
  sg_members g <> [] /\ forall c, c ∈ sg_members g -> c_changeSeq c = sg_seq g.

Abbreviation members gs := (concat (sg_members <$> gs)).

Lemma add_to_groups_ok gs c :
  Forall group_ok gs -> StronglySorted Z.lt (sg_seq <$> gs) ->
  (forall c', c' ∈ members gs -> (c_changeSeq c' <= c_changeSeq c)%Z) ->
  Forall group_ok (add_to_groups gs c) /\ StronglySorted Z.lt (sg_seq <$> add_to_groups gs c) /\
  members (add_to_groups gs c) = members gs ++ [c] /\
  (forall s, s ∈ sg_seq <$> add_to_groups gs c -> s ∈ sg_seq <$> gs \/ s = c_changeSeq c).
Proof.
  intros Hok. induction Hok as [|g gs [Hne Hseq] Hok IH]; intros Hs Hle.
  { simpl. split_and!; try set_solver.
    - constructor; [|done]. split; [done|]. intros c'. set_solver.
    - repeat constructor. }
  destruct gs as [|g' gs].
  - simpl in *. destruct (Z.eqb_spec (sg_seq g) (c_changeSeq c)) as [Heq|Hneq]; simpl.
    + split_and!; [|repeat constructor|by rewrite !app_nil_r|set_solver].
      constructor; [|done]. split; simpl; [by destruct (sg_members g)|].
      intros c' [Hc'|Hc']%elem_of_app; [auto|]. apply list_elem_of_singleton in Hc' as ->. done.
    + split_and!; [| |by rewrite app_nil_r|set_solver].
      * constructor; [done|]. constructor; [|done]. split; [done|]. intros c'. set_solver.
      * assert (Hlt : (sg_seq g < c_changeSeq c)%Z).
        { destruct (sg_members g) as [|c' l] eqn:E; [done|].
          specialize (Hseq c' ltac:(by left)). specialize (Hle c' ltac:(by left)). lia. }
        repeat constructor. done.
  - simpl in Hs. inversion Hs as [|? ? Hs' Hall]; subst.
    destruct IH as (IH1 & IH2 & IH3 & IH4); [done|intros c' Hc'; apply Hle; simpl; set_solver|].
    change (add_to_groups (g :: g' :: gs) c) with (g :: add_to_groups (g' :: gs) c). split_and!.
    + by constructor.
    + cbn [fmap list_fmap]. constructor; [done|]. rewrite Forall_forall. intros s [Hin| ->]%IH4.
      * rewrite Forall_forall in Hall. by apply Hall.
      * destruct (sg_members g) as [|c' l] eqn:E; [done|].
        rewrite Forall_forall in Hall. inversion Hok as [|? ? [Hne' Hseq'] _]; subst.
        destruct (sg_members g') as [|c'' l'] eqn:E'; [done|].
        specialize (Hseq' c'' ltac:(by left)). specialize (Hall (sg_seq g') ltac:(by left)).
        specialize (Hle c''). simpl in Hle. rewrite E, E' in Hle. specialize (Hle ltac:(set_solver)). lia.
    + simpl. rewrite <- app_assoc. by f_equal.
    + intros s. cbn [fmap list_fmap]. rewrite !elem_of_cons. intros [->|Hin%IH4]; set_solver.
Qed.

Lemma groupByChangeSeq_ok l :
  StronglySorted seq_le l ->
  Forall group_ok (groupByChangeSeq l) /\ StronglySorted Z.lt (sg_seq <$> groupByChangeSeq l) /\
  members (groupByChangeSeq l) = l.
Proof.
  unfold groupByChangeSeq. induction l as [|c l IH] using rev_ind; [repeat constructor|].
  intros Hs. assert (Hs' : StronglySorted seq_le l) by (by eapply StronglySorted_app_1_l).
  destruct (IH Hs') as (H1 & H2 & H3). rewrite foldl_app. simpl.
  edestruct (add_to_groups_ok (foldl add_to_groups [] l) c) as (?&?&Hm&_); [done..| |].
  - rewrite H3. intros c' Hc'. apply (StronglySorted_app_1_elem_of seq_le l [c]); [done|done|by left].
  - rewrite Hm, H3. done.
Qed.

(** ** Members and sublists *)

Lemma elem_of_concat {A} (x : A) (ls : list (list A)) : x ∈ concat ls <-> exists l, x ∈ l /\ l ∈ ls.
Proof. rewrite list_elem_of_In, in_concat. setoid_rewrite list_elem_of_In. naive_solver. Qed.

Lemma elem_of_members gs c : c ∈ members gs <-> exists g, g ∈ gs /\ c ∈ sg_members g.
Proof. rewrite elem_of_concat. setoid_rewrite list_elem_of_fmap. naive_solver. Qed.

Lemma upto_submseteq s l k : l ⊆+ k -> upto s l ⊆+ upto s k.
Proof.
  intros (k' & ->)%submseteq_Permutation. rewrite upto_app. by apply submseteq_inserts_r.
Qed.

Lemma members_cons g gs : members (g :: gs) = sg_members g ++ members gs.
Proof. done. Qed.

Lemma filter_ext_in (P Q : candidate -> Prop) `{forall c, Decision (P c)} `{forall c, Decision (Q c)}
    (l : list candidate) :
  (forall c, c ∈ l -> P c <-> Q c) -> filter P l = filter Q l.
Proof.
  induction l as [|c l IH]; intros Hl; [done|]. rewrite !filter_cons.
  rewrite IH by (intros c' Hc'; apply Hl; by right).
  pose proof (Hl c ltac:(by left)). destruct (decide (P c)), (decide (Q c)); tauto.
Qed.

(** ** The sources of the database *)

Section database.
Context `{SortByLaws} (db : DB) (g : string).

(** All rows of the group in one table, as candidates. *)
Definition table_feed {D} `{Table D} (entityType : EntityType) (any : Row D -> AnyRow) : list candidate :=
  candidates_of entityType any (where_ (fun r => GroupID r =?s g) (tbl db)).

(** All rows of the group that are synchronised, tombstones included. *)
Definition group_tables : list (list candidate) :=
  [ table_feed EntityItem RItem; table_feed EntityWarrantyBlock RWarranty;
    table_feed EntitySoldToBlock RSale; table_feed EntityPurchasedFromBlock RPurchase;
    table_feed EntityItemIdentification RIdentification; table_feed EntityItemCustomField RCustomField;
    table_feed EntityStockAdjustment RStockAdjustment; table_feed EntityLocation RLocation;
    table_feed EntityLabel RLabel; table_feed EntityItemLabel RItemLabel;
    table_feed EntityAttachment RAttachment ].

Definition group_feed : list candidate := concat group_tables.

Lemma candidates_filter {D} `{Table D} et any (t : gmap string (Row D)) (p : Z -> bool) (P : Z -> Prop)
    `{forall c : candidate, Decision (P (c_changeSeq c))} :
  (forall z, p z = true <-> P z) ->
  candidates_of et any (where_ (fun r => (GroupID r =?s g) && p (ChangeSeq r)) t) =
  filter (fun c => P (c_changeSeq c)) (candidates_of et any (where_ (fun r => GroupID r =?s g) t)).
Proof.
  intros Hp. unfold candidates_of, where_. induction (rows_of t) as [|r l IH]; [done|]. simpl.
  destruct (GroupID r =?s g); simpl; [|done].
  destruct (p (ChangeSeq r)) eqn:E.
  - rewrite filter_cons_True by (by apply Hp). simpl. by f_equal.
  - rewrite filter_cons_False; [done|]. intros HP. apply Hp in HP. simpl in HP. congruence.
Qed.

Lemma take_limit_fmap {A B} (f : A -> B) limit l : f <$> take_limit limit l = take_limit limit (f <$> l).
Proof. unfold take_limit. destruct (_ <? _)%Z; [done|]. by rewrite fmap_take. Qed.

Lemma StronglySorted_candidates {D} et any (l : list (Row D)) :
  StronglySorted (fun a b => ChangeSeq a <= ChangeSeq b)%Z l -> StronglySorted seq_le (candidates_of et any l).
Proof.
  unfold candidates_of. induction 1 as [|r l Hs IH Hall]; simpl; constructor; [done|].
  rewrite Forall_fmap. by eapply Forall_impl.
Qed.

(** One table's pair of queries keeps the promise of a source. *)
Lemma table_source_spec {D} `{Table D} et (any : Row D -> AnyRow)
    (since : Z -> Z -> RM (list (Row D))) (atSeq : Z -> RM (list (Row D))) :
  (forall s l, since s l = query (fun _ => db) (changes_since g D s l)) ->
  (forall s, atSeq s = query (fun _ => db) (changes_at_seq g D s)) ->
  source_spec (mkTableSource et
      (fun s l => rows ← since s l; mret (candidates_of et any rows))
      (fun s => rows ← atSeq s; mret (candidates_of et any rows)))
    (table_feed et any).
Proof.
  intros Hs Ha. split; simpl.
  - intros s limit n. rewrite Hs. unfold query, changes_since.
    set (rows := where_ _ _). exists (candidates_of et any (sort_by ChangeSeq rows)). split_and!.
    + unfold mbind, prog_bind, candidates_of. by rewrite <- take_limit_fmap.
    + unfold candidates_of. rewrite (sort_by_Permutation ChangeSeq rows).
      unfold rows, beyond, table_feed. erewrite <- (candidates_filter et any _ (fun z => s <? z)%Z (fun z => s < z)%Z);
        [done|]. intros z. by rewrite Z.ltb_lt.
    + apply StronglySorted_candidates, Sorted_StronglySorted, sort_by_Sorted. intros a b c ??; simpl in *; lia.
  - intros s n. rewrite Ha. unfold query, changes_at_seq. eexists. split; [reflexivity|].
    unfold at_seq, table_feed.
    erewrite <- (candidates_filter et any _ (fun z => z =? s)%Z (fun z => z = s)%Z); [done|].
    intros z. by rewrite Z.eqb_eq.
Qed.

Lemma sources_spec : Forall2 source_spec (sources (fun _ => db) g) group_tables.
Proof. repeat constructor; by apply table_source_spec. Qed.
End database.

(** ** The cut *)

Lemma equal_seq_sorted s l : (forall c, c ∈ l -> c_changeSeq c = s) -> StronglySorted seq_le l.
Proof.
  induction l as [|c l IHl]; intros Hl; constructor.
  - apply IHl. intros c' Hc'. apply Hl. by right.
  - rewrite Forall_forall. intros c' Hc'. rewrite !Hl; [lia|by right|by left].
Qed.

Section cut.
Context (limit : Z) (F X : list candidate) (Hsort : StronglySorted seq_le X) (Hsub : X ⊆+ F)
  (Hcut : forall s, upto s X ≡ₚ upto s F \/ (limit < Z.of_nat (length (upto s X)))%Z).

Lemma upto_upto s s' l : (s <= s')%Z -> upto s (upto s' l) = upto s l.
Proof. intros Hs. unfold upto. apply list_filter_filter_l. intros c ?. lia. Qed.

Lemma include_groups_run pre gs included lastSeq inc' s' stopped :
  X = pre ++ members gs -> Forall group_ok gs -> StronglySorted Z.lt (lastSeq :: (sg_seq <$> gs)) ->
  (forall c, c ∈ pre -> (c_changeSeq c <= lastSeq)%Z) ->
  included ≡ₚ upto lastSeq F -> StronglySorted seq_le included ->
  (Z.of_nat (length included) <= limit)%Z ->
  include_groups limit included lastSeq gs = (inc', s', stopped) ->
  inc' ≡ₚ upto s' F /\ StronglySorted seq_le inc' /\ (Z.of_nat (length inc') <= limit)%Z /\
  (lastSeq <= s')%Z /\ (s' = lastSeq \/ exists c, c ∈ F /\ c_changeSeq c = s') /\
  (stopped = true -> exists c, c ∈ F /\ (s' < c_changeSeq c)%Z).
Proof.
  revert pre included lastSeq. induction gs as [|g gs IH]; intros pre included lastSeq HX Hok Hs Hpre Hinc Hsi Hlen Hr.
  { simpl in Hr. injection Hr as <- <- <-. split_and!; (by auto || lia). }
  apply Forall_cons in Hok as [[Hne Hseq] Hok']. simpl in Hs, Hr.
  apply StronglySorted_cons in Hs as [Hlast Hs']. pose proof Hs' as Hs1.
  apply StronglySorted_cons in Hs1 as [Hg _]. apply Forall_cons in Hlast as [Hlt _].
  assert (HgF : forall c, c ∈ sg_members g -> c ∈ F).
  { intros c Hc. eapply elem_of_submseteq; [|exact Hsub]. rewrite HX, members_cons. set_solver. }
  destruct (Z.ltb_spec limit (Z.of_nat (length included) + Z.of_nat (length (sg_members g)))).
  { injection Hr as <- <- <-. split_and!; [done|done|done|lia|by left|]. intros _.
    destruct (sg_members g) as [|c l] eqn:E; [done|]. exists c.
    split; [apply HgF; by left|]. rewrite Hseq by (by left). done. }
  assert (Hafter : forall c, c ∈ members gs -> (sg_seq g < c_changeSeq c)%Z).
  { intros c (g' & Hg' & Hc)%elem_of_members.
    rewrite Forall_forall in Hg. rewrite Forall_forall in Hok'. destruct (Hok' g' Hg') as [_ Hseq']. rewrite Hseq' by done.
    apply Hg, list_elem_of_fmap. eauto. }
  assert (Hup : upto (sg_seq g) X = pre ++ sg_members g).
  { rewrite HX, members_cons. rewrite !upto_app, (upto_none _ (members gs)), app_nil_r by done.
    f_equal; apply upto_all; intros c Hc; [specialize (Hpre c Hc); lia|rewrite Hseq by done; lia]. }
  assert (Hprelen : length pre <= length included).
  { rewrite Hinc. assert (Hp : pre = upto lastSeq X).
    { rewrite HX, members_cons. rewrite !upto_app, (upto_all _ pre) by done.
      rewrite (upto_none _ (sg_members g)), (upto_none _ (members gs)), !app_nil_r; [done|..].
      - intros c Hc. specialize (Hafter c Hc). lia.
      - intros c Hc. rewrite Hseq by done. lia. }
    rewrite Hp. by apply submseteq_length, upto_submseteq. }
  destruct (Hcut (sg_seq g)) as [Hperm|Hgt].
  2: { rewrite Hup, length_app in Hgt. lia. }
  assert (Hg' : sg_members g ≡ₚ beyond lastSeq (upto (sg_seq g) F)).
  { rewrite <- Hperm, Hup, beyond_app, (beyond_none _ pre), (beyond_all _ (sg_members g)); [done| |done].
    intros c Hc. rewrite Hseq by done. lia. }
  assert (Hmark : exists c, c ∈ F /\ c_changeSeq c = sg_seq g).
  { destruct (sg_members g) as [|c l] eqn:E; [done|]. exists c. split; [apply HgF; by left|apply Hseq; by left]. }
  edestruct (IH (pre ++ sg_members g)) as (?&?&?&?&Hm&?);
    [..|exact Hr|split_and!; [done|done|done|lia|destruct Hm as [->|?]; by right|done]].
  - by rewrite HX, members_cons, app_assoc.
  - done.
  - done.
  - intros c [Hc|Hc]%elem_of_app; [specialize (Hpre c Hc); lia|rewrite Hseq by done; lia].
  - rewrite Hinc, Hg'. symmetry. etrans; [apply (upto_beyond_split lastSeq)|].
    by rewrite upto_upto by lia.
  - apply StronglySorted_app_2; [|done|].
    + intros a b Ha Hb. rewrite (Hseq b) by done. rewrite Hinc in Ha. apply elem_of_upto in Ha. lia.
    + by eapply equal_seq_sorted.
  - rewrite length_app. lia.
Qed.
End cut.

(** ** The page *)

(** [page] holds exactly the candidates of [all] in [(since, NextWatermark]],
    in order; it is no longer than [limit], unless it is one transaction's
    rows; [HasMore] says whether anything is left; and the watermark is that
    of a row, and ahead of [since] when there is something to send. *)
Record page_spec (all : list candidate) (since limit : Z) (page : Page) : Prop := mkPageSpec {
  page_rows : exists ordered,
    page = buildPage ordered (NextWatermark page) (HasMore page) /\
    ordered ≡ₚ upto (NextWatermark page) (beyond since all) /\ StronglySorted seq_le ordered /\
    ((Z.of_nat (length ordered) <= limit)%Z \/ forall c, c ∈ ordered -> c_changeSeq c = NextWatermark page);
  page_more : HasMore page = true <-> exists c, c ∈ all /\ (NextWatermark page < c_changeSeq c)%Z;
  page_watermark : (since <= NextWatermark page)%Z;
  page_mark : NextWatermark page = since \/ exists c, c ∈ all /\ c_changeSeq c = NextWatermark page;
  page_progress : (exists c, c ∈ all /\ (since < c_changeSeq c)%Z) ->
    exists c, c ∈ all /\ (since < c_changeSeq c <= NextWatermark page)%Z;
}.

Lemma buildPage_fields l s b : NextWatermark (buildPage l s b) = s /\ HasMore (buildPage l s b) = b.
Proof.
  unfold buildPage. rewrite <- (rev_involutive l).
  induction (rev l) as [|c l' IH]; simpl; [done|]. rewrite foldl_app. simpl. unfold add_entry at 1 3.
  by destruct (c_deletedAt c).
Qed.

(** A page built from [ordered] up to [s]. *)
Lemma buildPage_spec all since limit ordered s b :
  (since < s)%Z -> ordered ≡ₚ upto s (beyond since all) -> StronglySorted seq_le ordered ->
  ((Z.of_nat (length ordered) <= limit)%Z \/ forall c, c ∈ ordered -> c_changeSeq c = s) ->
  (exists c, c ∈ all /\ c_changeSeq c = s) ->
  (b = true <-> exists c, c ∈ all /\ (s < c_changeSeq c)%Z) ->
  page_spec all since limit (buildPage ordered s b).
Proof.
  intros Hs Hperm Hsort Hlen Hmark Hmore. destruct (buildPage_fields ordered s b) as [Hnw Hhm].
  split; rewrite ?Hnw, ?Hhm; [by exists ordered|done|lia|by right|].
  intros _. destruct Hmark as (c & Hc & <-). exists c. split; [done|lia].
Qed.

(** What [fetchSince] leaves of the candidates [F] beyond the watermark. *)
Record fetched (limit : Z) (F X : list candidate) : Prop := mkFetched {
  fetched_sorted : StronglySorted seq_le X;
  fetched_sub : X ⊆+ F;
  fetched_first : forall c, c ∈ F -> exists c', c' ∈ X /\ (c_changeSeq c' <= c_changeSeq c)%Z;
  fetched_cut : forall s, upto s X ≡ₚ upto s F \/ (limit < Z.of_nat (length (upto s X)))%Z;
}.

(** The oldest group of what was fetched: the smallest number there is. *)
Lemma first_group limit since all X g0 rest :
  fetched limit (beyond since all) X -> groupByChangeSeq X = g0 :: rest ->
  (since < sg_seq g0)%Z /\ (exists c, c ∈ beyond since all /\ c_changeSeq c = sg_seq g0) /\
  upto (sg_seq g0) (beyond since all) = at_seq (sg_seq g0) all.
Proof.
  intros [Hsort Hsub Hfirst _] Hg. destruct (groupByChangeSeq_ok X Hsort) as (Hok & Hinc & Hmem).
  rewrite Hg in Hok, Hinc, Hmem. apply Forall_cons in Hok as [[Hne Hseq] Hok].
  assert (Hin : forall c, c ∈ sg_members g0 -> c ∈ beyond since all).
  { intros c Hc. eapply elem_of_submseteq; [|exact Hsub]. rewrite <- Hmem, members_cons. set_solver. }
  assert (Hmark : exists c, c ∈ beyond since all /\ c_changeSeq c = sg_seq g0).
  { destruct (sg_members g0) as [|c l]; [done|]. exists c. split; [apply Hin|apply Hseq]; by left. }
  assert (Hmin : forall c, c ∈ beyond since all -> (sg_seq g0 <= c_changeSeq c)%Z).
  { intros c Hc. destruct (Hfirst c Hc) as (c' & Hc' & Hle). etrans; [|exact Hle].
    rewrite <- Hmem, members_cons in Hc'. apply elem_of_app in Hc' as [Hc'|Hc']; [by rewrite Hseq|].
    apply elem_of_members in Hc' as (g' & Hg' & Hc').
    apply StronglySorted_cons in Hinc as [Hall _]. rewrite Forall_forall in Hall. rewrite Forall_forall in Hok.
    destruct (Hok g' Hg') as [_ Hseq']. rewrite Hseq' by done.
    apply Z.lt_le_incl, (Hall (sg_seq g')), list_elem_of_fmap. eauto. }
  split; [|split; [done|]].
  - destruct Hmark as (c & [? _]%elem_of_beyond & <-). done.
  - unfold upto, beyond, at_seq. rewrite list_filter_filter. apply filter_ext_in.
    intros c Hc. split; [|destruct Hmark as (c' & [? _]%elem_of_beyond & ?); lia]. intros [Hle Hlt].
    assert (Hc' : c ∈ beyond since all) by (by apply elem_of_beyond). specialize (Hmin c Hc'). lia.
Qed.

Section pull.
Context `{SortByLaws} (db : DB) (g : string).

Lemma fetchSince_run since limit n :
  (0 < limit <= int64_max)%Z ->
  exists X n', fetchSince (fun _ => db) g since (wrap64 (limit + 1)) n = (Ok X, n') /\
    fetched limit (beyond since (group_feed db g)) X.
Proof.
  intros Hlim. pose proof (sources_spec db g) as Hspec.
  destruct (collect_since_run _ _ Hspec since (wrap64 (limit + 1)) n) as (x & n1 & Hx & Hsub & Hfirst & Hcut).
  fold (group_feed db g) in *. set (F := beyond since (group_feed db g)) in *.
  set (X := sort_by c_changeSeq x). assert (HX : X ≡ₚ x) by apply sort_by_Permutation.
  exists X, n1. split; [unfold fetchSince; by rewrite (prog_bind_ok _ _ _ _ _ Hx)|]. split.
  - apply Sorted_StronglySorted; [apply _|apply sort_by_Sorted].
  - by rewrite HX.
  - intros c Hc. setoid_rewrite HX. apply Hfirst; [|done].
    destruct (decide (limit = int64_max)) as [->|]; [left; by vm_compute|right].
    rewrite wrap64_id; unfold int64_min, int64_max in *; lia.
  - intros s. assert (Hp : upto s X ≡ₚ upto s x) by (by apply upto_Permutation).
    rewrite (Permutation_length Hp). destruct (Hcut limit eq_refl Hlim s) as [Hc|Hc]; [left|by right].
    by etrans.
Qed.

Lemma fetchAtSeq_run s n : exists l n',
  fetchAtSeq (fun _ => db) g s n = (Ok l, n') /\ l ≡ₚ at_seq s (group_feed db g).
Proof. unfold fetchAtSeq. destruct (collect_atSeq_run _ _ (sources_spec db g) s n) as (l & n' & ? & ?). eauto. Qed.

Lemma probeHasMore_run s n : exists b n',
  probeHasMore (fun _ => db) g s n = (Ok b, n') /\
  (b = true <-> exists c, c ∈ group_feed db g /\ (s < c_changeSeq c)%Z).
Proof. unfold probeHasMore. destruct (probe_run _ _ (sources_spec db g) s n) as (b & n' & ? & ?). eauto. Qed.

Lemma Pull_page since limit n :
  (0 < limit <= int64_max)%Z -> (0 <= since)%Z ->
  exists page n', Pull (fun _ => db) g since limit n = (Ok page, n') /\
    page_spec (group_feed db g) since limit page.
Proof.
  intros Hlim Hsince. unfold Pull.
  destruct (Z.leb_spec limit 0); [lia|]. destruct (Z.ltb_spec since 0); [lia|]. cbv zeta.
  destruct (fetchSince_run since limit n Hlim) as (X & n1 & HX & Hf). rewrite (prog_bind_ok _ _ _ _ _ HX).
  destruct (groupByChangeSeq X) as [|g0 rest] eqn:Eg.
  { (* nothing to send *)
    assert (Hnone : ~ exists c, c ∈ group_feed db g /\ (since < c_changeSeq c)%Z).
    { intros (c & Hc & Hs). destruct (fetched_first _ _ _ Hf c) as (c' & Hc' & _); [by apply elem_of_beyond|].
      destruct (groupByChangeSeq_ok X (fetched_sorted _ _ _ Hf)) as (_ & _ & Hmem).
      rewrite <- Hmem, Eg in Hc'. simpl in Hc'. set_solver. }
    eexists _, n1. split; [reflexivity|]. split; simpl; [|by split; intros|lia|by left|by intros].
    exists []. rewrite upto_none; [split_and!; [done|done|constructor|left; simpl; lia]|].
    intros c [? ?]%elem_of_beyond. destruct Hnone. eauto. }
  destruct (first_group _ _ _ _ _ _ Hf Eg) as (Hs0 & (c0 & [_ Hc0]%elem_of_beyond & Hc0s) & Hupto).
  destruct (fetchAtSeq_run (sg_seq g0) n1) as (fg & n2 & Hfg & Hfgp). rewrite (prog_bind_ok _ _ _ _ _ Hfg).
  assert (Hfgs : forall c, c ∈ fg -> c_changeSeq c = sg_seq g0).
  { intros c Hc. rewrite Hfgp in Hc. by apply list_elem_of_filter in Hc as [? _]. }
  rewrite <- Hupto in Hfgp. pose proof (equal_seq_sorted _ _ Hfgs) as Hfgsort.
  destruct (Z.ltb_spec limit (Z.of_nat (length fg))).
  { destruct (probeHasMore_run (sg_seq g0) n2) as (b & n3 & Hb & Hbs). rewrite (prog_bind_ok _ _ _ _ _ Hb).
    eexists _, n3. split; [reflexivity|]. apply buildPage_spec; eauto. }
  destruct (include_groups limit fg (sg_seq g0) rest) as [[inc' s'] stopped] eqn:Einc.
  destruct Hf as [Hsort Hsub _ Hcut].
  destruct (groupByChangeSeq_ok X Hsort) as (Hok & Hinc & Hmem). rewrite Eg in Hok, Hinc, Hmem.
  apply Forall_cons in Hok as [[_ Hseq0] Hok'].
  destruct (include_groups_run limit (beyond since (group_feed db g)) X Hsort Hsub Hcut (sg_members g0) rest fg
    (sg_seq g0) inc' s' stopped) as (Hinc' & Hsi & Hlen & Hs0' & Hmark & Hstop); try done.
  { intros c Hc. by rewrite Hseq0. }
  assert (Hmark' : exists c, c ∈ group_feed db g /\ c_changeSeq c = s').
  { destruct Hmark as [->|(c & [_ ?]%elem_of_beyond & ?)]; eauto. }
  destruct stopped.
  { eexists _, n2. split; [reflexivity|]. apply buildPage_spec; auto; [lia|]. split; [intros _|done].
    destruct Hstop as (c & [_ ?]%elem_of_beyond & ?); [done|]. eauto. }
  destruct (probeHasMore_run s' n2) as (b & n3 & Hb & Hbs). rewrite (prog_bind_ok _ _ _ _ _ Hb).
  eexists _, n3. split; [reflexivity|]. apply buildPage_spec; auto; lia.
Qed.
End pull.

(** ** Following the watermarks *)

(** What a page says of its rows: entity type and id. *)
Definition page_keys (page : Page) : list (EntityType * string) :=
  ((fun ch => (ch_EntityType ch, ch_ID ch)) <$> Changes page)
  ++ ((fun t => (ts_EntityType t, ts_ID t)) <$> Tombstones page).

Definition key (c : candidate) : EntityType * string := (c_entityType c, c_id c).

Lemma buildPage_keys l s b : page_keys (buildPage l s b) ≡ₚ key <$> l.
Proof.
  unfold buildPage. rewrite <- (rev_involutive l).
  induction (rev l) as [|c l' IH]; simpl; [done|]. rewrite foldl_app, fmap_app. simpl.
  rewrite <- IH. unfold page_keys, add_entry.
  destruct (c_deletedAt c); simpl; rewrite !fmap_app; simpl; unfold key; simpl; solve_Permutation.
Qed.

(** A client that pulls again from [NextWatermark] as long as [HasMore]. *)
Fixpoint follow `{SortBy} (snapshot : nat -> DB) (g : string) (limit since : Z) (fuel : nat) : RM (list Page) :=
  match fuel with
  | O => throw (ErrMessage "out of fuel")
  | S fuel =>
      page ← Pull snapshot g since limit;
      if HasMore page then
        pages ← follow snapshot g limit (NextWatermark page) fuel;
        mret (page :: pages)
      else mret [page]
  end.

(** [page] holds the candidates [ord]. *)
Definition page_holds (page : Page) (ord : list candidate) : Prop :=
  page = buildPage ord (NextWatermark page) (HasMore page).

Section follow.
Context `{SortByLaws} (db : DB) (g : string) (limit : Z) (Hlim : (0 < limit <= int64_max)%Z).

Lemma beyond_upto_split s s' l : (s <= s')%Z -> upto s' (beyond s l) ++ beyond s' l ≡ₚ beyond s l.
Proof.
  intros Hs. etrans; [|symmetry; apply (upto_beyond_split s')]. f_equiv.
  unfold beyond. rewrite list_filter_filter_l; [done|]. intros c ?. lia.
Qed.

Lemma follow_run fuel since n :
  (0 <= since)%Z -> length (beyond since (group_feed db g)) < fuel ->
  exists pages n' final,
    follow (fun _ => db) g limit since fuel n = (Ok pages, n') /\
    (exists ords, Forall2 page_holds pages ords /\ concat ords ≡ₚ beyond since (group_feed db g)) /\
    last pages = Some final /\ HasMore final = false /\
    (forall c, c ∈ group_feed db g -> (c_changeSeq c <= NextWatermark final)%Z) /\
    (since <= NextWatermark final)%Z /\
    (NextWatermark final = since \/ exists c, c ∈ group_feed db g /\ c_changeSeq c = NextWatermark final).
Proof.
  revert since n. induction fuel as [|fuel IH]; intros since n Hs Hf; [lia|]. simpl.
  destruct (Pull_page db g since limit n Hlim Hs) as (page & n1 & Hp & [(ord & Hpage & Hord & _) Hmore Hw Hmark Hprog]).
  rewrite (prog_bind_ok _ _ _ _ _ Hp).
  assert (Hpo : page_holds page ord) by exact Hpage. clear Hpage.
  destruct (HasMore page) eqn:Ehm.
  - destruct (proj1 Hmore eq_refl) as (c & Hc & Hlt).
    assert (Hlen : length (beyond (NextWatermark page) (group_feed db g)) < fuel).
    { pose proof (Permutation_length (beyond_upto_split since (NextWatermark page) (group_feed db g) Hw)) as Hl.
      rewrite length_app in Hl.
      assert (Hpos : 0 < length (upto (NextWatermark page) (beyond since (group_feed db g)))); [|lia].
      destruct Hprog as (c' & Hc' & ?); [exists c; split; [done|lia]|].
      assert (Hin : c' ∈ upto (NextWatermark page) (beyond since (group_feed db g))).
      { rewrite elem_of_upto, elem_of_beyond. split_and!; [lia|lia|done]. }
      destruct (upto _ _); [set_solver|simpl; lia]. }
    destruct (IH (NextWatermark page) n1) as (pages & n2 & final & Hfo & (ords & Hords & Hall) & Hla & Hlm & Hdone & Hge & Hm);
      [lia|done|].
    exists (page :: pages), n2, final. rewrite (prog_bind_ok _ _ _ _ _ Hfo).
    split_and!; [done| |by destruct pages|done|done|lia|].
    + exists (ord :: ords). split; [by constructor|]. simpl. rewrite Hord, Hall. by rewrite beyond_upto_split.
    + destruct Hm as [Heq|?]; [rewrite Heq; destruct Hmark; auto|by right].
  - exists [page], n1, page. split_and!; try done.
    + exists [ord]. split; [by repeat constructor|]. simpl. rewrite app_nil_r, Hord, upto_all; [done|].
      intros c [_ Hc]%elem_of_beyond. destruct (decide (c_changeSeq c <= NextWatermark page)%Z); [done|].
      exfalso. discriminate (proj2 Hmore). exists c. split; [done|lia].
    + intros c Hc. destruct (decide (c_changeSeq c <= NextWatermark page)%Z); [done|].
      discriminate (proj2 Hmore). exists c. split; [done|lia].
Qed.
End follow.
