(* ===== verification/PullProperties.v ===== *)
(** * Properties of pull

    What pages do to a client's copy: a client in sync at its watermark is in
    sync again after following the pages, whatever was committed in between. A
    page is exact, following the watermarks ends with the whole feed; and what
    a pull is not: a snapshot. *)

From S2P Require Import Prelude GoBase Schema Sql Evolution Queries PushRepo Items History Labels Locations PushFields.
From S2P Require Import PushHandlers PushCommit Demo SyncReader PullTheorems.

(** ** The rows of the feed *)

Definition candidate_of {D} (et : EntityType) (any : Row D -> AnyRow) (r : Row D) : candidate :=
  mkCandidate et (ID r) (ChangeSeq r) (DeletedAt r) (any r).

Section feeds.
Context (g : string).

Lemma elem_of_table_feed {D} `{Table D} db et any c :
  c ∈ table_feed (D := D) db g et any <->
  exists k r, tbl db !! k = Some r /\ GroupID r = g /\ c = candidate_of et any r.
Proof.
  unfold table_feed, candidates_of. rewrite list_elem_of_fmap. setoid_rewrite elem_of_where. split.
  - intros (r & -> & (k & Hk) & Hg). exists k, r. split_and!; [done| |done]. by apply string_eqb_true.
  - intros (k & r & Hk & Hg & ->). exists r. split_and!; [done|by exists k|]. by apply string_eqb_true.
Qed.

(** [lb] is a later state of the feed [la], from which [c0] separates what is new. *)
Record feed_step (c0 : Z) (la lb : list candidate) : Prop := mkFeedStep {
  feed_origin : forall c, c ∈ lb -> c ∈ la \/ (c0 < c_changeSeq c)%Z;
  feed_kept : forall c, c ∈ la -> exists c', c' ∈ lb /\ key c' = key c /\ (c' = c \/ (c0 < c_changeSeq c')%Z);
}.

Lemma feed_step_table {D} `{TableLaws D} a b et any :
  history a b -> feed_step (counter g a) (table_feed (D := D) a g et any) (table_feed b g et any).
Proof.
  intros Hh. split; intros c (k & r & Hr & Hg & ->)%elem_of_table_feed.
  - destruct (row_origin_history D g _ _ _ _ Hh Hr Hg) as [Ha|Hs]; [left|by right].
    apply elem_of_table_feed. eauto.
  - destruct (row_kept_history D g _ _ _ _ Hh Hr Hg) as (r' & Hr' & Hn). exists (candidate_of et any r'). split.
    + apply elem_of_table_feed. exists k, r'. split_and!; [done| |done]. destruct Hn as [->|(_ & -> & _)]; done.
    + unfold key. destruct Hn as [->|(Hid & _ & _ & ?)]; simpl; [auto|]. rewrite Hid. auto.
Qed.

Lemma feed_step_app c0 la lb la' lb' :
  feed_step c0 la lb -> feed_step c0 la' lb' -> feed_step c0 (la ++ la') (lb ++ lb').
Proof.
  intros [Ho Hk] [Ho' Hk']. split; setoid_rewrite elem_of_app; intros c [Hc|Hc].
  - destruct (Ho _ Hc); auto.
  - destruct (Ho' _ Hc); auto.
  - destruct (Hk _ Hc) as (c' & ? & ?). eauto.
  - destruct (Hk' _ Hc) as (c' & ? & ?). eauto.
Qed.

Lemma feed_step_nil c0 : feed_step c0 [] [].
Proof. split; set_solver. Qed.

Lemma feed_step_history a b : history a b -> feed_step (counter g a) (group_feed a g) (group_feed b g).
Proof.
  intros Hh. unfold group_feed, group_tables. cbn [concat].
  repeat (apply feed_step_app; [by apply feed_step_table|]). apply feed_step_nil.
Qed.

(** In a sound database an entity has one row, stamped up to the counter. *)
Lemma table_feed_ok {D} `{Table D} db et any :
  table_ok D db -> NoDup (key <$> table_feed (D := D) db g et any) /\
  (forall c, c ∈ table_feed db g et any -> c_entityType c = et /\ (c_changeSeq c <= counter g db)%Z).
Proof.
  intros Hok. split.
  - unfold table_feed, candidates_of. rewrite <- list_fmap_compose.
    change (key ∘ _) with (pair et ∘ ID (D := D)). rewrite list_fmap_compose.
    apply NoDup_fmap; [by intros ?? [=]|]. apply NoDup_where_ids. intros k r Hk. by apply (Hok k r).
  - intros c (k & r & Hk & Hg & ->)%elem_of_table_feed. simpl. split; [done|].
    rewrite <- Hg. by apply (Hok k r).
Qed.

(** Feeds of distinct entity types. *)
Fixpoint distinct_feeds (ets : list EntityType) (ls : list (list candidate)) : Prop :=
  match ets, ls with
  | et :: ets, l :: ls =>
      NoDup (key <$> l) /\ (forall c, c ∈ l -> c_entityType c = et) /\ et ∉ ets /\ distinct_feeds ets ls
  | [], [] => True
  | _, _ => False
  end.

Lemma distinct_feeds_types ets ls : distinct_feeds ets ls -> forall c, c ∈ concat ls -> c_entityType c ∈ ets.
Proof.
  revert ls. induction ets as [|et ets IH]; intros [|l ls]; simpl; try done; [set_solver|].
  intros (_ & Het & _ & Hd) c [Hc|Hc]%elem_of_app; [rewrite (Het c Hc); by left|right; by eapply IH].
Qed.

Lemma distinct_feeds_NoDup ets ls : distinct_feeds ets ls -> NoDup (key <$> concat ls).
Proof.
  revert ls. induction ets as [|et ets IH]; intros [|l ls]; simpl; try done; [constructor|].
  intros (Hl & Het & Hne & Hd). rewrite fmap_app. apply NoDup_app. split_and!; [done| |by eapply IH].
  intros k (c & -> & Hc)%list_elem_of_fmap (c' & Hk & Hc')%list_elem_of_fmap.
  apply distinct_feeds_types with (1 := Hd) in Hc'. apply (f_equal fst) in Hk. simpl in Hk.
  rewrite (Het c Hc) in Hk. congruence.
Qed.

Definition entityTypes : list EntityType :=
  [EntityItem; EntityWarrantyBlock; EntitySoldToBlock; EntityPurchasedFromBlock; EntityItemIdentification;
   EntityItemCustomField; EntityStockAdjustment; EntityLocation; EntityLabel; EntityItemLabel; EntityAttachment].

Lemma group_feed_NoDup db : db_ok db -> NoDup (key <$> group_feed db g).
Proof.
  intros []. apply (distinct_feeds_NoDup entityTypes). unfold entityTypes, group_tables. simpl.
  split_and!; try done; try (by apply table_feed_ok); try (intros c Hc; by apply table_feed_ok in Hc as [? _]);
    apply (bool_decide_unpack _); vm_compute; exact I.
Qed.

Lemma group_feed_bounded db c : db_ok db -> c ∈ group_feed db g -> (c_changeSeq c <= counter g db)%Z.
Proof.
  intros [] (l & Hc & Hl)%elem_of_concat. unfold group_tables in Hl.
  repeat (apply elem_of_cons in Hl as [->|Hl]; [by apply table_feed_ok in Hc as [_ ?]|]). set_solver.
Qed.
End feeds.

(** ** The client's copy *)

(** What a client keeps of an entity. *)
Inductive Entry := Alive (data : AnyRow) | Gone (at_ : Z).

Abbreviation View := (gmap (EntityType * string) Entry).

Definition page_entries (page : Page) : list ((EntityType * string) * Entry) :=
  ((fun ch => ((ch_EntityType ch, ch_ID ch), Alive (ch_Data ch))) <$> Changes page)
  ++ ((fun t => ((ts_EntityType t, ts_ID t), Gone (ts_DeletedAt t))) <$> Tombstones page).

(** The client writes every change and tombstone of the page over its copy. *)
Definition apply_page (view : View) (page : Page) : View := list_to_map (page_entries page) ∪ view.

Definition entry (c : candidate) : (EntityType * string) * Entry :=
  (key c, match c_deletedAt c with Some at_ => Gone at_ | None => Alive (c_data c) end).

(** The copy that agrees with the server. *)
Definition view_of (l : list candidate) : View := list_to_map (entry <$> l).

(** A client is in sync at watermark [w]: its copy agrees with the server, and
    no row that will be written from now on can hide below [w]. *)
Definition in_sync (db : DB) (g : string) (w : Z) (view : View) : Prop :=
  view = view_of (group_feed db g) /\
  (forall c, c ∈ group_feed db g -> (c_changeSeq c <= w)%Z) /\ (0 <= w <= counter g db)%Z.

Lemma entry_keys l : (entry <$> l).*1 = key <$> l.
Proof. by rewrite <- list_fmap_compose. Qed.

Lemma buildPage_entries l s b : page_entries (buildPage l s b) ≡ₚ entry <$> l.
Proof.
  unfold buildPage. rewrite <- (rev_involutive l).
  induction (rev l) as [|c l' IH]; simpl; [done|]. rewrite foldl_app, fmap_app. simpl.
  rewrite <- IH. unfold page_entries, add_entry.
  unfold entry, key. destruct (c_deletedAt c); simpl; rewrite !fmap_app; simpl; solve_Permutation.
Qed.

Lemma apply_page_holds view page ord :
  page_holds page ord -> NoDup (key <$> ord) -> apply_page view page = view_of ord ∪ view.
Proof.
  intros -> Hnd. unfold apply_page, view_of. f_equal.
  assert (Hp : page_entries (buildPage ord (NextWatermark page) (HasMore page)) ≡ₚ entry <$> ord)
    by apply buildPage_entries.
  apply list_to_map_proper; [|done]. by rewrite Hp, entry_keys.
Qed.

Lemma view_of_app l k : NoDup (key <$> (l ++ k)) -> view_of (l ++ k) = view_of k ∪ view_of l.
Proof.
  intros Hnd. unfold view_of.
  rewrite (list_to_map_proper _ ((entry <$> k) ++ (entry <$> l))); [apply list_to_map_app| |].
  - by rewrite entry_keys.
  - rewrite fmap_app. apply Permutation_app_comm.
Qed.

Lemma apply_pages view pages ords :
  Forall2 page_holds pages ords -> NoDup (key <$> concat ords) ->
  foldl apply_page view pages = view_of (concat ords) ∪ view.
Proof.
  intros Hp. revert view. induction Hp as [|page ord pages ords Hpage Hp IH]; intros view Hnd; simpl in *.
  { unfold view_of. simpl. by rewrite (left_id_L ∅ (∪)). }
  rewrite view_of_app by done. rewrite fmap_app in Hnd. apply NoDup_app in Hnd as (H1 & _ & H2).
  rewrite IH by done. rewrite (apply_page_holds _ _ ord) by done. by rewrite (assoc_L (∪)).
Qed.

Lemma view_of_Permutation l k : l ≡ₚ k -> NoDup (key <$> l) -> view_of l = view_of k.
Proof. intros Hp Hnd. apply list_to_map_proper; [by rewrite entry_keys|by rewrite Hp]. Qed.

Lemma view_of_lookup l k e :
  NoDup (key <$> l) -> view_of l !! k = Some e <-> exists c, c ∈ l /\ entry c = (k, e).
Proof.
  intros Hnd. unfold view_of. rewrite <- elem_of_list_to_map by (by rewrite entry_keys).
  rewrite list_elem_of_fmap. naive_solver.
Qed.

Lemma view_of_lookup_None l k : view_of l !! k = None <-> forall c, c ∈ l -> key c <> k.
Proof.
  unfold view_of. rewrite <- not_elem_of_list_to_map, entry_keys, list_elem_of_fmap. naive_solver.
Qed.

(** Writing what is new over the old copy gives the new one. *)
Lemma view_of_patch c0 w fa fb :
  feed_step c0 fa fb -> (w <= c0)%Z -> (forall c, c ∈ fa -> (c_changeSeq c <= w)%Z) ->
  NoDup (key <$> fa) -> NoDup (key <$> fb) ->
  view_of (beyond w fb) ∪ view_of fa = view_of fb.
Proof.
  intros [Horig Hkept] Hw Hold Ha Hb.
  assert (Hbey : NoDup (key <$> beyond w fb)).
  { rewrite (upto_beyond_split w fb), fmap_app in Hb. by apply NoDup_app in Hb as (_ & _ & ?). }
  apply map_eq. intros k. destruct (view_of fb !! k) as [e|] eqn:E.
  - apply view_of_lookup in E as (c & Hc & He); [|done].
    destruct (decide (w < c_changeSeq c)%Z) as [Hlt|Hge].
    + apply lookup_union_Some_l, view_of_lookup; [done|]. exists c. by rewrite elem_of_beyond.
    + rewrite lookup_union_r.
      * apply view_of_lookup; [done|]. exists c. split; [|done]. destruct (Horig c Hc); [done|lia].
      * apply view_of_lookup_None. intros c' [Hlt' Hc']%elem_of_beyond Hk.
        assert (c' = c) as ->; [|lia].
        apply list_elem_of_lookup in Hc as [i Hi]. apply list_elem_of_lookup in Hc' as [j Hj].
        assert (i = j) as ->; [|congruence].
        eapply NoDup_lookup; [exact Hb| |]; rewrite list_lookup_fmap, ?Hi, ?Hj; [done|].
        simpl. rewrite Hk. by injection He as <- _.
  - rewrite view_of_lookup_None in E. apply lookup_union_None. rewrite !view_of_lookup_None. split.
    + intros c [_ Hc]%elem_of_beyond. by apply E.
    + intros c Hc Hk. destruct (Hkept c Hc) as (c' & Hc' & Hk' & _). apply (E c'); congruence.
Qed.

Section properties.
Context `{SortByLaws}.

(** C15: a pull answers with an exact page.  It holds, ordered by sequence
    number, precisely the group's rows and tombstones with a number in
    [(since, NextWatermark]]: no row written by one transaction is cut off
    from the others, and the page exceeds [limit] only if it is a single
    transaction's.  [HasMore] says exactly whether rows are left, and the
    watermark moves on when there is anything to send. *)
Theorem pull_page_exact db g since limit n :
  (0 < limit <= int64_max)%Z -> (0 <= since)%Z ->
  exists page n', Pull (fun _ => db) g since limit n = (Ok page, n') /\
    page_spec (group_feed db g) since limit page.
Proof. apply Pull_page. Qed.

(** A client that pulls again from [NextWatermark] while [HasMore] comes
    to an end, and sees every row written after [since] exactly once. *)
Theorem pull_visits_every_row_once db g since limit n :
  (0 < limit <= int64_max)%Z -> (0 <= since)%Z -> db_ok db ->
  exists fuel pages n', follow (fun _ => db) g limit since fuel n = (Ok pages, n') /\
    concat (page_keys <$> pages) ≡ₚ key <$> beyond since (group_feed db g) /\
    NoDup (concat (page_keys <$> pages)).
Proof.
  intros Hlim Hs Hok.
  destruct (follow_run db g limit Hlim _ since n Hs (Nat.lt_succ_diag_r _))
    as (pages & n' & final & Hf & (ords & Hpages & Hall) & _).
  exists (S (length (beyond since (group_feed db g)))), pages, n'. split; [exact Hf|].
  assert (Hk : concat (page_keys <$> pages) ≡ₚ key <$> beyond since (group_feed db g)).
  { rewrite <- Hall. clear Hf Hall. induction Hpages as [|page ord pages ords -> _ IH]; [done|].
    simpl. rewrite fmap_app, IH. f_equiv. apply buildPage_keys. }
  split; [done|]. rewrite Hk. pose proof (group_feed_NoDup g db Hok) as Hnd.
  rewrite (upto_beyond_split since), fmap_app in Hnd. by apply NoDup_app in Hnd as (_ & _ & ?).
Qed.

(** C2: sync converges.  A client in sync with the server follows the pages
    after any writes, by any groups and clients, and writes the changes over
    its copy: it is in sync again, at the last page's watermark.  (A new
    client starts in sync: an empty copy, at 0, of an empty group.) *)
Theorem sync_converges a b g w view limit n :
  (0 < limit <= int64_max)%Z -> db_ok a -> in_sync a g w view -> history a b ->
  exists fuel pages n' final,
    follow (fun _ => b) g limit w fuel n = (Ok pages, n') /\ last pages = Some final /\
    in_sync b g (NextWatermark final) (foldl apply_page view pages).
Proof.
  intros Hlim Ha (-> & Hold & Hw) Hh. pose proof (db_ok_history _ _ Hh Ha) as Hb.
  destruct (follow_run b g limit Hlim _ w n (proj1 Hw) (Nat.lt_succ_diag_r _))
    as (pages & n' & final & Hf & (ords & Hpages & Hall) & Hlast & _ & Hdone & Hge & Hmark).
  eexists _, pages, n', final. split; [exact Hf|]. split; [done|].
  pose proof (group_feed_NoDup g a Ha) as Hnda. pose proof (group_feed_NoDup g b Hb) as Hndb.
  assert (Hnd : NoDup (key <$> concat ords)).
  { rewrite Hall. rewrite (upto_beyond_split w), fmap_app in Hndb. by apply NoDup_app in Hndb as (_ & _ & ?). }
  split; [|split; [done|]].
  - rewrite (apply_pages _ _ _ Hpages Hnd), (view_of_Permutation _ _ Hall Hnd).
    apply (view_of_patch (counter g a) w); try done; [by apply feed_step_history|lia].
  - split; [lia|]. pose proof (counter_history g _ _ Hh).
    destruct Hmark as [->|(c & Hc & <-)]; [lia|]. by apply group_feed_bounded.
Qed.
End properties.

(** ** Concrete pulls *)

#[local] Instance by_decision {A} (f : A -> Z) : RelDecision (fun a b => f a <= f b)%Z.
Proof. intros a b. apply Z_le_dec. Defined.

#[export] Instance demo_sort : SortBy := fun A f l => merge_sort (fun a b => f a <= f b)%Z l.

#[export] Instance demo_sort_laws : SortByLaws.
Proof.
  split; intros A f l; unfold sort_by, demo_sort; [apply merge_sort_Permutation|].
  apply Sorted_merge_sort. intros a b. lia.
Qed.

(** [demo] after the item was renamed, and after a label was created too. *)
Definition race1 : World := Eval vm_compute in exec (ApplyMutation "g1" demo_rename) demo.
Definition race2 : World := Eval vm_compute in
  exec (Labels_Create "g1" (mkCreateLabel "l2" "Heavy" "#00f" 210)) race1.

Definition no_page : Page := mkPage [] [] 0 false.
Definition pull_result (r : res Page * nat) : Page := match r.1 with Ok p => p | Err _ => no_page end.

(** The two writes commit after the first query of the pull, the one for
    items, and before the others. *)
Definition race (n : nat) : DB := if Nat.eqb n 0 then wdb demo else wdb race2.

Definition feed_boundedb (db : DB) (g : string) (w : Z) : bool :=
  forallb (fun c => c_changeSeq c <=? w)%Z (group_feed db g) && (0 <=? w)%Z && (w <=? counter g db)%Z.

Lemma feed_boundedb_in_sync db g w :
  feed_boundedb db g w = true -> in_sync db g w (view_of (group_feed db g)).
Proof.
  unfold feed_boundedb. rewrite !andb_true_iff, forallb_true_iff. intros [[Hf H0] Hw]. split; [done|].
  split; [|lia]. intros c Hc. specialize (Hf c Hc). lia.
Qed.

Lemma race1_history : history (wdb demo) (wdb race1).
Proof.
  replace race1 with (exec (ApplyMutation "g1" demo_rename) demo) by (vm_compute; reflexivity).
  apply (history_method "g1"). intros w. apply method_ApplyMutation.
Qed.

Lemma race_history : history (wdb demo) (wdb race2).
Proof.
  apply (history_trans _ (wdb race1)); [apply race1_history|].
  replace race2 with (exec (Labels_Create "g1" (mkCreateLabel "l2" "Heavy" "#00f" 210)) race1)
    by (vm_compute; reflexivity).
  apply (history_method "g1"), method_Labels_Create.
Qed.

(** C37: a pull is not a snapshot, and convergence needs one.  Its queries run
    one by one, and here two writes commit after the query for items: the pull
    answers with the label of the second write and moves the watermark past
    the first one's, the item's.  The client's next pull finds nothing more,
    and its copy does not agree with the server's. *)
Theorem pull_misses_concurrent_write :
  exists view page,
    in_sync (wdb demo) "g1" 4 view /\
    (forall n, history (wdb demo) (race n)) /\ (forall n, 0 < n -> race n = wdb race2) /\
    (Pull race "g1" 4 100 0).1 = Ok page /\ HasMore page = false /\
    (Pull (fun _ => wdb race2) "g1" (NextWatermark page) 100 0).1 =
      Ok (mkPage [] [] (NextWatermark page) false) /\
    apply_page view page <> view_of (group_feed (wdb race2) "g1").
Proof.
  exists (view_of (group_feed (wdb demo) "g1")), (pull_result (Pull race "g1" 4 100 0)). split_and!.
  - apply feed_boundedb_in_sync. vm_compute; reflexivity.
  - intros [|n]; [apply history_refl|apply race_history].
  - intros [|n]; [lia|done].
  - vm_compute; reflexivity.
  - vm_compute; reflexivity.
  - vm_compute; reflexivity.
  - intros Heq. apply (f_equal (lookup (EntityItem, "i1"%string))) in Heq.
    vm_compute in Heq. discriminate Heq.
Qed.

(** ** The properties hold somewhere *)

Lemma pull_page_exact_witness : exists page n',
  Pull (fun _ => wdb race2) "g1" 0 2 0 = (Ok page, n') /\ page_spec (group_feed (wdb race2) "g1") 0 2 page.
Proof. apply (pull_page_exact (wdb race2) "g1" 0 2 0); unfold int64_max; lia. Defined.

Lemma pull_visits_every_row_once_witness : exists fuel pages n',
  follow (fun _ => wdb demo) "g1" 1 0 fuel 0 = (Ok pages, n').
Proof.
  destruct (pull_visits_every_row_once (wdb demo) "g1" 0 1 0) as (fuel & pages & n' & Hf & _);
    [unfold int64_max; lia|lia|apply demo_ok|]. by exists fuel, pages, n'.
Defined.

Lemma sync_converges_witness : exists final pages,
  in_sync (wdb race2) "g1" (NextWatermark final)
    (foldl apply_page (view_of (group_feed (wdb demo) "g1")) pages).
Proof.
  destruct (sync_converges (wdb demo) (wdb race2) "g1" 4 (view_of (group_feed (wdb demo) "g1")) 2 0)
    as (fuel & pages & n' & final & _ & _ & Hs);
    [unfold int64_max; lia|apply demo_ok|apply feed_boundedb_in_sync; vm_compute; reflexivity
    |apply race_history|].
  by exists final, pages.
Defined.
