(* ===== verification/Limiter.v ===== *)
(** * The rate limiter (ratelimit/limiter.go)

    A bounded map of failure counters with LRU eviction.  [entries] is the Go
    map and [order] the list; the map and the list share their entries in Go
    (an entry knows its list element and the element's value is the entry),
    so the model's list holds the keys, which never change.  Times are
    nanoseconds since Go's zero time and a [time.Duration] is an int64; every
    operation holds the mutex and reads the clock at most once, so the time is
    an argument.

    Refinement: the limiter is a list of keyed counters, most recently used
    first, cut at [maxEntries].  The delay is exactly exponential up to its
    maximum, and a key that is blocked stays blocked unless [maxEntries] other
    keys are used. *)

From S2P Require Import Prelude GoBase.

(** ** Durations and times *)

Definition Duration : Type := Z.
Definition Time : Type := Z.

(** [time.Second] in nanoseconds. *)
Definition Second : Duration := 1000000000%Z.

(** [t.Sub(u)] saturates. *)
Definition time_Sub (t u : Time) : Duration := Z.max int64_min (Z.min int64_max (t - u)).

(** [t.Add(d)]. *)
Definition time_Add (t : Time) (d : Duration) : Time := (t + d)%Z.

(** ** State *)

Definition DefaultMaxEntries : Z := 4096%Z.
Definition DefaultFreeAttempts : Z := 5%Z.
Definition DefaultBaseDelay : Duration := Second.
Definition DefaultMaxDelay : Duration := (30 * Second)%Z.

Record LimiterConfig := mkLimiterConfig {
  cfg_MaxEntries : Z;
  cfg_FreeAttempts : Z;
  cfg_BaseDelay : Duration;
  cfg_MaxDelay : Duration;
}.

Record entry := mkEntry { failures : Z; blockedUntil : Time }.

Record Limiter := mkLimiter {
  lim_maxEntries : Z;
  lim_freeAttempts : Z;
  lim_base : Duration;
  lim_max : Duration;
  lim_entries : gmap string entry;
  lim_order : list string;
}.

Definition or_default (x d : Z) : Z := if (x <=? 0)%Z then d else x.

Definition New (cfg : LimiterConfig) : Limiter :=
  mkLimiter (or_default (cfg_MaxEntries cfg) DefaultMaxEntries)
            (or_default (cfg_FreeAttempts cfg) DefaultFreeAttempts)
            (or_default (cfg_BaseDelay cfg) DefaultBaseDelay)
            (or_default (cfg_MaxDelay cfg) DefaultMaxDelay) ∅ [].

(** ** The list of [container/list] *)

Definition Remove (k : string) (l : list string) : list string := List.filter (fun x => negb (x =?s k)) l.
Definition PushFront (k : string) (l : list string) : list string := k :: l.
Definition MoveToFront (k : string) (l : list string) : list string := PushFront k (Remove k l).
Definition Back (l : list string) : option string := last l.

(** ** Operations *)

Definition with_state (l : Limiter) (es : gmap string entry) (o : list string) : Limiter :=
  mkLimiter (lim_maxEntries l) (lim_freeAttempts l) (lim_base l) (lim_max l) es o.

Definition Allow (key : string) (now : Time) (l : Limiter) : bool * Duration * Limiter :=
  match lim_entries l !! key with
  | None => (true, 0%Z, l)
  | Some e =>
      let l := with_state l (lim_entries l) (MoveToFront key (lim_order l)) in
      if (now <? blockedUntil e)%Z then (false, time_Sub (blockedUntil e) now, l) else (true, 0%Z, l)
  end.

Definition insertLocked (key : string) (l : Limiter) : Limiter :=
  let l :=
    if (lim_maxEntries l <=? Z.of_nat (size (lim_entries l)))%Z then
      match Back (lim_order l) with
      | Some back => with_state l (delete back (lim_entries l)) (Remove back (lim_order l))
      | None => l
      end
    else l in
  with_state l (<[key := mkEntry 0%Z 0%Z]> (lim_entries l)) (PushFront key (lim_order l)).

Definition failureCeiling : Z := Z.shiftl 1 30.

(** [for shift > 0 && delay < max { delay *= 2; shift-- }], on the shift. *)
Fixpoint double_delay (shift : nat) (delay max : Duration) : Duration :=
  match shift with
  | O => delay
  | S shift => if (delay <? max)%Z then double_delay shift (wrap64 (delay * 2)) max else delay
  end.

Definition delay_after (l : Limiter) (failures : Z) : Duration :=
  let delay := double_delay (Z.to_nat (failures - lim_freeAttempts l - 1)) (lim_base l) (lim_max l) in
  if (lim_max l <? delay)%Z || (delay <=? 0)%Z then lim_max l else delay.

(** The counter of an entry after one more failure, and the time it blocks until. *)
Definition record_failure (l : Limiter) (now : Time) (e : entry) : entry :=
  let n := if (failures e <? failureCeiling)%Z then (failures e + 1)%Z else failures e in
  if (n <=? lim_freeAttempts l)%Z then mkEntry n (blockedUntil e)
  else mkEntry n (time_Add now (delay_after l n)).

Definition RecordFailure (key : string) (now : Time) (l : Limiter) : Limiter :=
  let l :=
    match lim_entries l !! key with
    | None => insertLocked key l
    | Some _ => with_state l (lim_entries l) (MoveToFront key (lim_order l))
    end in
  with_state l (alter (record_failure l now) key (lim_entries l)) (lim_order l).

Definition RecordSuccess (key : string) (l : Limiter) : Limiter :=
  match lim_entries l !! key with
  | None => l
  | Some _ => with_state l (delete key (lim_entries l)) (Remove key (lim_order l))
  end.

(** A call, and a sequence of calls with the answers of its [Allow]s. *)
Inductive call :=
  | CallAllow (key : string) (now : Time)
  | CallFailure (key : string) (now : Time)
  | CallSuccess (key : string).

Definition call_key (c : call) : string :=
  match c with CallAllow k _ | CallFailure k _ | CallSuccess k => k end.

Definition run_call (l : Limiter) (c : call) : list (bool * Duration) * Limiter :=
  match c with
  | CallAllow k now => let '(ok, retry, l') := Allow k now l in ([(ok, retry)], l')
  | CallFailure k now => ([], RecordFailure k now l)
  | CallSuccess k => ([], RecordSuccess k l)
  end.

Fixpoint run_calls (l : Limiter) (cs : list call) : list (bool * Duration) * Limiter :=
  match cs with
  | [] => ([], l)
  | c :: cs =>
      let '(out, l') := run_call l c in
      let '(outs, l'') := run_calls l' cs in
      (out ++ outs, l'')
  end.

(** ** Specification: a list of counters, most recently used first *)

Definition lru : Type := list (string * entry).

Definition without (k : string) (s : lru) : lru := List.filter (fun ke => negb (ke.1 =?s k)) s.

Fixpoint find_entry (k : string) (s : lru) : option entry :=
  match s with
  | [] => None
  | (k', e) :: s => if k' =?s k then Some e else find_entry k s
  end.

(** What [Allow] answers for an entry. *)
Definition answer (e : entry) (now : Time) : bool * Duration :=
  if (now <? blockedUntil e)%Z then (false, time_Sub (blockedUntil e) now) else (true, 0%Z).

Definition spec_call (l : Limiter) (s : lru) (c : call) : list (bool * Duration) * lru :=
  match c with
  | CallAllow k now =>
      match find_entry k s with
      | None => ([(true, 0%Z)], s)
      | Some e => ([answer e now], (k, e) :: without k s)
      end
  | CallFailure k now =>
      let e := default (mkEntry 0%Z 0%Z) (find_entry k s) in
      ([], take (Z.to_nat (lim_maxEntries l)) ((k, record_failure l now e) :: without k s))
  | CallSuccess k => ([], without k s)
  end.

Fixpoint spec_calls (l : Limiter) (s : lru) (cs : list call) : list (bool * Duration) * lru :=
  match cs with
  | [] => ([], s)
  | c :: cs =>
      let '(out, s') := spec_call l s c in
      let '(outs, s'') := spec_calls l s' cs in
      (out ++ outs, s'')
  end.

(** A limiter and the list it stands for. *)
Record represents (l : Limiter) (s : lru) : Prop := {
  rep_order : lim_order l = s.*1;
  rep_entries : lim_entries l = list_to_map s;
  rep_nodup : NoDup s.*1;
  rep_bound : (Z.of_nat (length s) <= lim_maxEntries l)%Z;
  rep_positive : (0 < lim_maxEntries l)%Z;
}.

(** The settings, which no operation changes. *)
Definition same_settings (l l' : Limiter) : Prop :=
  lim_maxEntries l' = lim_maxEntries l /\ lim_freeAttempts l' = lim_freeAttempts l /\
  lim_base l' = lim_base l /\ lim_max l' = lim_max l.

(** ** Lemmas on the list *)

Lemma find_entry_lookup k s : find_entry k s = (list_to_map s : gmap string entry) !! k.
Proof.
  induction s as [|[k' e] s IH]; simpl; [done|].
  destruct (k' =?s k) eqn:E; bool_facts.
  - subst. by rewrite lookup_insert_eq.
  - by rewrite lookup_insert_ne.
Qed.

Lemma without_keys k s : (without k s).*1 = Remove k s.*1.
Proof. induction s as [|[k' e] s IH]; simpl; [done|]. destruct (k' =?s k); simpl; [exact IH|by f_equal]. Qed.

Lemma elem_of_Remove k k' l : k' ∈ Remove k l <-> k' ∈ l /\ k' <> k.
Proof. unfold Remove. rewrite elem_of_filter_bool, negb_true_iff, string_eqb_false. done. Qed.

Lemma NoDup_Remove k l : NoDup l -> NoDup (Remove k l).
Proof. rewrite !NoDup_ListNoDup. apply List.NoDup_filter. Qed.

Lemma Remove_absent k l : k ∉ l -> Remove k l = l.
Proof.
  induction l as [|x l IH]; intros Hk; simpl; [done|].
  apply not_elem_of_cons in Hk as [Hx Hk].
  destruct (x =?s k) eqn:E; bool_facts; [by subst|]. simpl. f_equal. by apply IH.
Qed.

Lemma without_absent k s : k ∉ s.*1 -> without k s = s.
Proof.
  induction s as [|[k' e] s IH]; intros Hk; simpl; [done|].
  apply not_elem_of_cons in Hk as [Hx Hk]. simpl in Hx.
  destruct (k' =?s k) eqn:E; bool_facts; [by subst|]. simpl. f_equal. by apply IH.
Qed.

Lemma without_app k s t : without k (s ++ t) = without k s ++ without k t.
Proof. apply List.filter_app. Qed.

Lemma without_length k s : length (without k s) <= length s.
Proof. apply List.filter_length_le. Qed.

Lemma without_map k s :
  NoDup s.*1 -> (list_to_map (without k s) : gmap string entry) = delete k (list_to_map s).
Proof.
  induction s as [|[k' e] s IH]; intros Hnd; simpl; [by rewrite delete_empty|].
  inversion Hnd as [|? ? Hk' Hs]; subst.
  destruct (k' =?s k) eqn:E; bool_facts; simpl.
  - subst. rewrite delete_insert_eq. change (list_to_map (without k s) = delete k (list_to_map s : gmap string entry)).
    by apply IH.
  - rewrite delete_insert_ne by done. f_equal. by apply IH.
Qed.

Lemma find_entry_some k s e : find_entry k s = Some e -> k ∈ s.*1.
Proof.
  induction s as [|[k' e'] s IH]; simpl; [done|].
  destruct (k' =?s k) eqn:E; bool_facts; [subst; by left|]. intros. right. by apply IH.
Qed.

Lemma find_entry_none k s : find_entry k s = None -> k ∉ s.*1.
Proof.
  induction s as [|[k' e'] s IH]; simpl; [intros _; apply not_elem_of_nil|].
  destruct (k' =?s k) eqn:E; bool_facts; [done|]. intros ?%IH. by apply not_elem_of_cons.
Qed.

Lemma without_shorter k s : k ∈ s.*1 -> length (without k s) < length s.
Proof.
  induction s as [|[k' e'] s IH]; simpl; [by intros ?%not_elem_of_nil|].
  pose proof (without_length k s). intros Hk. destruct (k' =?s k) eqn:E; bool_facts; simpl; [lia|].
  apply elem_of_cons in Hk as [->|Hk]; [done|]. apply IH in Hk. lia.
Qed.

(** ** Refinement *)

Lemma represents_entry l s k : represents l s -> lim_entries l !! k = find_entry k s.
Proof. intros Hr. by rewrite find_entry_lookup, (rep_entries _ _ Hr). Qed.

Lemma represents_size l s : represents l s -> size (lim_entries l) = length s.
Proof.
  intros Hr. rewrite (rep_entries _ _ Hr), map_size_list_to_map by apply Hr. done.
Qed.

(** Putting an entry at the front of a list it has been removed from. *)
Lemma represents_front l s k e :
  represents l s -> (Z.of_nat (length (without k s)) < lim_maxEntries l)%Z ->
  represents (with_state l (<[k := e]> (delete k (lim_entries l))) (k :: Remove k (lim_order l)))
             ((k, e) :: without k s).
Proof.
  intros Hr Hlen. split; simpl.
  - by rewrite (rep_order _ _ Hr), without_keys.
  - rewrite (rep_entries _ _ Hr), without_map by apply Hr. done.
  - change (NoDup (k :: (without k s).*1)). rewrite without_keys. apply NoDup_cons. split.
    + rewrite elem_of_Remove. tauto.
    + apply NoDup_Remove, Hr.
  - lia.
  - apply Hr.
Qed.

Lemma represents_touch l s k e e' :
  represents l s -> find_entry k s = Some e ->
  represents (with_state l (<[k := e']> (lim_entries l)) (MoveToFront k (lim_order l)))
             ((k, e') :: without k s).
Proof.
  intros Hr He. pose proof (without_shorter k s (find_entry_some _ _ _ He)). pose proof (rep_bound _ _ Hr).
  rewrite <- insert_delete_eq. apply represents_front; [done|lia].
Qed.

Lemma represents_without l s k :
  represents l s -> represents (with_state l (delete k (lim_entries l)) (Remove k (lim_order l))) (without k s).
Proof.
  intros Hr. pose proof (without_length k s). pose proof (rep_bound _ _ Hr). split; simpl.
  - by rewrite (rep_order _ _ Hr), without_keys.
  - rewrite (rep_entries _ _ Hr), without_map by apply Hr. done.
  - rewrite without_keys. apply NoDup_Remove, Hr.
  - lia.
  - apply Hr.
Qed.

(** Inserting an absent key: the last entry goes when the list is full. *)
Lemma represents_insert l s k :
  represents l s -> find_entry k s = None ->
  represents (insertLocked k l) (take (Z.to_nat (lim_maxEntries l)) ((k, mkEntry 0%Z 0%Z) :: s)).
Proof.
  intros Hr Hk%find_entry_none. unfold insertLocked. rewrite (represents_size _ _ Hr).
  pose proof (rep_bound _ _ Hr) as Hb. pose proof (rep_positive _ _ Hr) as Hp.
  assert (Hfront : forall l' t, represents l' t -> lim_maxEntries l' = lim_maxEntries l -> k ∉ t.*1 ->
    (Z.of_nat (length t) < lim_maxEntries l)%Z ->
    represents (with_state l' (<[k := mkEntry 0%Z 0%Z]> (lim_entries l')) (PushFront k (lim_order l')))
               ((k, mkEntry 0%Z 0%Z) :: t)).
  { intros l' t Ht Hm Hkt Hlen. pose proof (represents_front l' t k (mkEntry 0%Z 0%Z) Ht) as Hf.
    rewrite without_absent, Hm in Hf by done. specialize (Hf Hlen).
    rewrite (rep_order _ _ Ht), Remove_absent in Hf by done.
    rewrite (rep_order _ _ Ht). rewrite insert_delete_eq in Hf. exact Hf. }
  destruct (Z.leb_spec (lim_maxEntries l) (Z.of_nat (length s))) as [Hfull|Hroom].
  - destruct s as [|be s' _] using rev_ind; [simpl in Hfull; lia|]. destruct be as [b e].
    rewrite length_app in Hb, Hfull. simpl in Hb, Hfull.
    unfold Back. rewrite (rep_order _ _ Hr), fmap_app, last_app. simpl.
    rewrite fmap_app in Hk. apply not_elem_of_app in Hk as [Hk Hkb].
    pose proof (represents_without l _ b Hr) as Hw.
    assert (Hnd : b ∉ s'.*1).
    { pose proof (rep_nodup _ _ Hr) as Hnd. rewrite fmap_app in Hnd. apply NoDup_app in Hnd as (_ & Hd & _).
      intros Hin. apply (Hd b Hin). by left. }
    rewrite without_app, (without_absent b s') in Hw by done. simpl in Hw. rewrite string_eqb_refl in Hw.
    simpl in Hw. rewrite app_nil_r in Hw.
    rewrite (rep_order _ _ Hr), fmap_app in Hw. simpl in Hw.
    replace (Z.to_nat (lim_maxEntries l)) with (S (length s')) by lia. simpl.
    rewrite take_app_length. apply (Hfront _ _ Hw); simpl; try done. lia.
  - rewrite take_ge by (simpl; lia). by apply Hfront.
Qed.

Lemma alter_lookup_insert (f : entry -> entry) k (m : gmap string entry) e :
  m !! k = Some e -> alter f k m = <[k := f e]> m.
Proof.
  intros He. apply map_eq. intros i. destruct (decide (i = k)) as [->|].
  - by rewrite lookup_alter_eq, lookup_insert_eq, He.
  - by rewrite lookup_alter_ne, lookup_insert_ne by done.
Qed.

Lemma record_failure_settings l l' now e : same_settings l l' -> record_failure l' now e = record_failure l now e.
Proof. intros (_ & Hf & Hb & Hm). unfold record_failure, delay_after. by rewrite Hf, Hb, Hm. Qed.

Lemma spec_call_settings l l' s c : same_settings l l' -> spec_call l' s c = spec_call l s c.
Proof.
  intros Hl. destruct c; simpl; [done| |done].
  by rewrite (record_failure_settings l l'), (proj1 Hl).
Qed.

Lemma insertLocked_settings k l : same_settings l (insertLocked k l).
Proof. unfold insertLocked. destruct (lim_maxEntries l <=? _)%Z; [|done]. by destruct (Back (lim_order l)). Qed.

Lemma run_call_settings l c : same_settings l (run_call l c).2.
Proof.
  destruct c as [k now|k now|k]; simpl; unfold Allow, RecordFailure, RecordSuccess.
  - destruct (lim_entries l !! k) as [e|]; [|done]. by destruct (now <? blockedUntil e)%Z.
  - destruct (lim_entries l !! k) as [e|]; [done|]. apply insertLocked_settings.
  - by destruct (lim_entries l !! k).
Qed.

(** One call of the limiter is one call of the specification. *)
Lemma run_call_refines l s c :
  represents l s ->
  (run_call l c).1 = (spec_call l s c).1 /\ represents (run_call l c).2 (spec_call l s c).2.
Proof.
  intros Hr. destruct c as [k now|k now|k]; simpl.
  - unfold Allow. rewrite (represents_entry _ _ _ Hr). destruct (find_entry k s) as [e|] eqn:He; [|done].
    pose proof (represents_touch l s k e e Hr He) as Ht.
    rewrite insert_id in Ht by (by rewrite (represents_entry _ _ _ Hr)).
    unfold answer. destruct (now <? blockedUntil e)%Z; (split; [done|exact Ht]).
  - split; [done|]. unfold RecordFailure. rewrite (represents_entry _ _ _ Hr).
    pose proof (rep_bound _ _ Hr) as Hb. pose proof (rep_positive _ _ Hr) as Hp.
    destruct (find_entry k s) as [e|] eqn:He; simpl.
    + rewrite (alter_lookup_insert _ _ _ e) by (by rewrite (represents_entry _ _ _ Hr)).
      pose proof (without_shorter k s (find_entry_some _ _ _ He)).
      rewrite take_ge by (simpl; lia). exact (represents_touch l s k e (record_failure l now e) Hr He).
    + pose proof (represents_insert l s k Hr He) as Hi.
      rewrite (without_absent k s) by (by apply find_entry_none).
      destruct (Z.to_nat (lim_maxEntries l)) as [|n] eqn:En; [lia|]. simpl in Hi |- *.
      pose proof (represents_touch _ _ k (mkEntry 0%Z 0%Z) (record_failure l now (mkEntry 0%Z 0%Z)) Hi
        ltac:(simpl; by rewrite string_eqb_refl)) as Ht.
      unfold without in Ht. cbn [List.filter fst] in Ht. rewrite string_eqb_refl in Ht. cbn [negb] in Ht.
      assert (Hk : k ∉ (take n s).*1).
      { intros Hin. apply (find_entry_none _ _ He). rewrite fmap_take in Hin.
        by apply elem_of_take in Hin as (i & Hi' & _); apply list_elem_of_lookup_2 in Hi'. }
      change (List.filter _ (take n s)) with (without k (take n s)) in Ht.
      rewrite without_absent in Ht by done.
      assert (Hent : lim_entries (insertLocked k l) !! k = Some (mkEntry 0%Z 0%Z))
        by (unfold insertLocked; simpl; apply lookup_insert_eq).
      change (represents (with_state (insertLocked k l)
        (alter (record_failure (insertLocked k l) now) k (lim_entries (insertLocked k l)))
        (lim_order (insertLocked k l))) ((k, record_failure l now (mkEntry 0%Z 0%Z)) :: take n s)).
      rewrite (alter_lookup_insert _ _ _ _ Hent).
      rewrite (rep_order _ _ Hi) in Ht |- *. unfold MoveToFront in Ht. cbn [fmap list_fmap fst] in Ht |- *. unfold Remove in Ht. cbn [List.filter] in Ht.
      rewrite string_eqb_refl in Ht. cbn [negb] in Ht. fold (Remove k ((take n s).*1)) in Ht.
      rewrite Remove_absent in Ht by done.
      rewrite (record_failure_settings l) by apply insertLocked_settings.
      exact Ht.
  - split; [done|]. unfold RecordSuccess. rewrite (represents_entry _ _ _ Hr).
    destruct (find_entry k s) as [e|] eqn:He; simpl.
    + by apply represents_without.
    + rewrite without_absent; [done|by apply find_entry_none].
Qed.

Lemma run_calls_refines l0 l s cs :
  same_settings l0 l -> represents l s ->
  (run_calls l cs).1 = (spec_calls l0 s cs).1 /\ represents (run_calls l cs).2 (spec_calls l0 s cs).2 /\
  same_settings l0 (run_calls l cs).2.
Proof.
  revert l s. induction cs as [|c cs IH]; intros l s Hl Hr; simpl; [done|].
  pose proof (run_call_refines l s c Hr) as [Ho Hr']. pose proof (run_call_settings l c) as Hl'.
  rewrite (spec_call_settings l0 l) in Ho, Hr' by done.
  destruct (run_call l c) as [out l'], (spec_call l0 s c) as [out' s']. simpl in *. subst out'.
  assert (same_settings l0 l') as Hl0.
  { destruct Hl as (? & ? & ? & ?), Hl' as (? & ? & ? & ?). split_and!; congruence. }
  destruct (IH l' s' Hl0 Hr') as (Ho & Hrs & Hs).
  destruct (run_calls l' cs) as [outs l''], (spec_calls l0 s' cs) as [outs' s'']. simpl in *. by subst.
Qed.

Lemma or_default_positive x d : (0 < d)%Z -> (0 < or_default x d)%Z.
Proof. unfold or_default. destruct (Z.leb_spec x 0); lia. Qed.

Lemma represents_New cfg : represents (New cfg) [].
Proof.
  assert (0 < lim_maxEntries (New cfg))%Z by (by apply or_default_positive).
  split; try done; [constructor|simpl length; lia].
Qed.

(** ** The delay *)

Lemma double_delay_exact shift d m :
  (0 < d <= int64_max)%Z -> (m <= 2^62)%Z ->
  (0 < double_delay shift d m)%Z /\
  Z.min m (double_delay shift d m) = Z.min m (d * 2 ^ Z.of_nat shift).
Proof.
  revert d. induction shift as [|shift IH]; intros d Hd Hm; simpl double_delay.
  { rewrite Z.mul_1_r. lia. }
  destruct (Z.ltb_spec d m) as [Hlt|Hge].
  - assert (Hw : wrap64 (d * 2) = (d * 2)%Z) by (apply wrap64_id; unfold int64_min, int64_max in *; lia).
    rewrite Hw. destruct (IH (d * 2)%Z) as [Hp He]; [unfold int64_max in *; lia|done|].
    split; [done|]. rewrite He, Nat2Z.inj_succ, Z.pow_succ_r by lia. f_equal. lia.
  - split; [lia|]. assert (0 < 2 ^ Z.of_nat (S shift))%Z by (apply Z.pow_pos_nonneg; lia).
    rewrite !Z.min_l; [done|nia|lia].
Qed.

Lemma delay_after_exact l n :
  (0 < lim_base l <= int64_max)%Z -> (0 < lim_max l <= 2^62)%Z -> (lim_freeAttempts l < n)%Z ->
  delay_after l n = Z.min (lim_max l) (lim_base l * 2 ^ (n - lim_freeAttempts l - 1)).
Proof.
  intros Hb Hm Hn. unfold delay_after.
  destruct (double_delay_exact (Z.to_nat (n - lim_freeAttempts l - 1)) (lim_base l) (lim_max l))
    as [Hp He]; [done|lia|].
  rewrite Z2Nat.id in He by lia. rewrite <- He.
  destruct (Z.ltb_spec (lim_max l) (double_delay (Z.to_nat (n - lim_freeAttempts l - 1)) (lim_base l) (lim_max l))); simpl; [lia|].
  rewrite (proj2 (Z.leb_gt _ _)) by lia. lia.
Qed.

(** No entry blocks before the free attempts are used up. *)
Definition entry_ok (l : Limiter) (e : entry) : Prop :=
  (0 <= failures e)%Z /\ ((failures e <= lim_freeAttempts l)%Z -> blockedUntil e = 0%Z).

Lemma find_entry_ok l s k e : Forall (fun ke => entry_ok l ke.2) s -> find_entry k s = Some e -> entry_ok l e.
Proof.
  induction 1 as [|[k' e'] s He Hs IH]; simpl; [done|].
  destruct (k' =?s k); [by intros [= <-]|done].
Qed.

Lemma without_ok l s k : Forall (fun ke => entry_ok l ke.2) s -> Forall (fun ke => entry_ok l ke.2) (without k s).
Proof.
  rewrite !Forall_forall. intros Hs ke. unfold without. rewrite elem_of_filter_bool. intros [Hin _]. by apply Hs.
Qed.

Lemma record_failure_ok l now e : entry_ok l e -> entry_ok l (record_failure l now e).
Proof.
  intros [Hn Hb]. unfold record_failure, entry_ok.
  set (n := if (failures e <? failureCeiling)%Z then _ else _).
  assert (failures e <= n)%Z by (subst n; destruct (failures e <? failureCeiling)%Z; lia).
  destruct (Z.leb_spec n (lim_freeAttempts l)); simpl; (split; [lia|]); intros; [apply Hb|]; lia.
Qed.

Lemma spec_call_ok l s c :
  Forall (fun ke => entry_ok l ke.2) s -> Forall (fun ke => entry_ok l ke.2) (spec_call l s c).2.
Proof.
  intros Hs. destruct c as [k now|k now|k]; simpl; [| |by apply without_ok].
  - destruct (find_entry k s) as [e|] eqn:He; [|done].
    constructor; [by eapply find_entry_ok|by apply without_ok].
  - apply Forall_take. constructor; [|by apply without_ok]. apply record_failure_ok.
    destruct (find_entry k s) as [e|] eqn:He; simpl; [by eapply find_entry_ok|]. by split.
Qed.

Lemma spec_calls_ok l s cs :
  Forall (fun ke => entry_ok l ke.2) s -> Forall (fun ke => entry_ok l ke.2) (spec_calls l s cs).2.
Proof.
  revert s. induction cs as [|c cs IH]; intros s Hs; simpl; [done|].
  pose proof (spec_call_ok l s c Hs) as Hc. destruct (spec_call l s c) as [out s'].
  specialize (IH s' Hc). by destruct (spec_calls l s' cs).
Qed.

(** ** What survives *)

(** An entry with fewer keys in front of it than were used since. *)
Definition survives (used : gset string) (k : string) (e : entry) (s : lru) : Prop :=
  exists pre post, s = pre ++ (k, e) :: post /\ NoDup pre.*1 /\ (forall x, x ∈ pre.*1 -> x ∈ used).

Lemma survives_find used k e s : k ∉ used -> survives used k e s -> find_entry k s = Some e.
Proof.
  intros Hk (pre & post & -> & _ & Hpre).
  assert (Hk' : k ∉ pre.*1) by (intros ?%Hpre; done). clear Hpre.
  induction pre as [|[k' e'] pre IH]; simpl; [by rewrite string_eqb_refl|].
  apply not_elem_of_cons in Hk' as [Hne Hk']. simpl in Hne.
  destruct (k' =?s k) eqn:E; bool_facts; [by subst|by apply IH].
Qed.

Lemma survives_without used k k' e s : k' <> k -> survives used k e s -> survives used k e (without k' s).
Proof.
  intros Hne (pre & post & -> & Hnd & Hin). exists (without k' pre), (without k' post). split_and!.
  - rewrite without_app. simpl. destruct (k =?s k') eqn:E; bool_facts; [by subst|done].
  - rewrite without_keys. by apply NoDup_Remove.
  - intros x. rewrite without_keys, elem_of_Remove. intros [? _]. by apply Hin.
Qed.

Lemma survives_front used k k' e e' s :
  k' <> k -> survives used k e s -> survives ({[k']} ∪ used) k e ((k', e') :: without k' s).
Proof.
  intros Hne (pre & post & -> & Hnd & Hin). exists ((k', e') :: without k' pre), (without k' post). split_and!.
  - rewrite without_app. simpl. destruct (k =?s k') eqn:E; bool_facts; [by subst|done].
  - change (NoDup (k' :: (without k' pre).*1)). rewrite without_keys. apply NoDup_cons. split.
    + rewrite elem_of_Remove. tauto.
    + by apply NoDup_Remove.
  - intros x. change (x ∈ k' :: (without k' pre).*1 -> x ∈ {[k']} ∪ used). rewrite without_keys, elem_of_cons, elem_of_Remove.
    intros [->|[Hx _]]; apply elem_of_union; [left; by apply elem_of_singleton|right; by apply Hin].
Qed.

Lemma survives_take n used k e s : size used < n -> survives used k e s -> survives used k e (take n s).
Proof.
  intros Hn (pre & post & -> & Hnd & Hin). exists pre, (take (n - length pre - 1) post). split_and!; try done.
  assert (length pre <= size used).
  { rewrite <- (length_fmap fst pre), <- (size_list_to_set (C := gset string)) by done.
    apply subseteq_size. intros x. rewrite elem_of_list_to_set. apply Hin. }
  rewrite take_app. f_equal; [apply take_ge; lia|].
  destruct (n - length pre) as [|m] eqn:E; [lia|]. simpl. by rewrite Nat.sub_0_r.
Qed.

Lemma survives_mono used used' k e s : used ⊆ used' -> survives used k e s -> survives used' k e s.
Proof. intros Hu (pre & post & -> & Hnd & Hin). exists pre, post. split_and!; try done. intros x Hx. by apply Hu, Hin. Qed.

Lemma survives_call l used k e s c :
  call_key c <> k -> (Z.of_nat (size ({[call_key c]} ∪ used)) < lim_maxEntries l)%Z ->
  survives used k e s -> survives ({[call_key c]} ∪ used) k e (spec_call l s c).2.
Proof.
  intros Hne Hsz Hs. destruct c as [k' now|k' now|k']; simpl in *.
  - destruct (find_entry k' s) as [e'|]; simpl.
    + by apply survives_front.
    + eapply survives_mono; [|exact Hs]. apply union_subseteq_r.
  - apply survives_take; [lia|]. by apply survives_front.
  - apply survives_without; [done|]. eapply survives_mono; [|exact Hs]. apply union_subseteq_r.
Qed.

Definition used_keys (cs : list call) : gset string := list_to_set (call_key <$> cs).

Lemma survives_calls l used k e s cs :
  (forall c, c ∈ cs -> call_key c <> k) ->
  (Z.of_nat (size (used ∪ used_keys cs)) < lim_maxEntries l)%Z ->
  survives used k e s -> find_entry k (spec_calls l s cs).2 = Some e \/ k ∈ used.
Proof.
  revert used s. induction cs as [|c cs IH]; intros used s Hk Hsz Hs; simpl.
  { destruct (decide (k ∈ used)); [by right|left]. by eapply survives_find. }
  assert (Hsub : {[call_key c]} ∪ used ∪ used_keys cs = used ∪ used_keys (c :: cs)).
  { unfold used_keys. simpl. by rewrite (union_comm_L {[_]} used), union_assoc_L. }
  assert (Hne : call_key c <> k) by (apply Hk; by left).
  pose proof (survives_call l used k e s c Hne) as Hc.
  destruct (spec_call l s c) as [out s'] eqn:Ec. simpl in Hc.
  destruct (IH ({[call_key c]} ∪ used) s') as [Hf|Hin].
  - intros c' Hc'. apply Hk. by right.
  - by rewrite Hsub.
  - apply Hc; [|done]. rewrite <- Hsub in Hsz.
    pose proof (subseteq_size ({[call_key c]} ∪ used) ({[call_key c]} ∪ used ∪ used_keys cs)
      ltac:(apply union_subseteq_l)). lia.
  - left. by destruct (spec_calls l s' cs).
  - right. apply elem_of_union in Hin as [->%elem_of_singleton|Hin]; done.
Qed.

Lemma Allow_ok k now l e :
  lim_entries l !! k = Some e -> (Allow k now l).1.1 = negb (now <? blockedUntil e)%Z.
Proof. intros He. unfold Allow. rewrite He. by destruct (now <? blockedUntil e)%Z. Qed.

(** ** Properties *)

(** C33: the limiter is a list of failure counters, most recently used first
    and cut at [MaxEntries]: whatever the calls, every [Allow] answers what
    that list says, and the map, the list and the bound agree with it. *)
Theorem limiter_is_lru cfg cs :
  let l := New cfg in
  (run_calls l cs).1 = (spec_calls l [] cs).1 /\ represents (run_calls l cs).2 (spec_calls l [] cs).2.
Proof.
  cbv zeta. destruct (run_calls_refines (New cfg) (New cfg) [] cs) as (? & ? & _); [done|apply represents_New|done].
Qed.

Lemma allowed_after_failure l e now now' :
  let n := (failures e + 1)%Z in
  entry_ok l e -> (0 < lim_base l <= int64_max)%Z -> (0 < lim_max l <= 2^62)%Z -> (0 <= now')%Z ->
  (n <= failureCeiling)%Z ->
  negb (now' <? blockedUntil (record_failure l now e))%Z =
  bool_decide (n <= lim_freeAttempts l \/
    now + Z.min (lim_max l) (lim_base l * 2 ^ (n - lim_freeAttempts l - 1)) <= now')%Z.
Proof.
  cbv zeta. intros [_ He] Hb Hm Hnow Hn. unfold record_failure.
  rewrite (proj2 (Z.ltb_lt (failures e) failureCeiling)) by lia.
  apply Bool.eq_iff_eq_true. rewrite negb_true_iff, Z.ltb_ge, bool_decide_eq_true.
  destruct (Z.leb_spec (failures e + 1) (lim_freeAttempts l)); cbn [blockedUntil].
  - rewrite He by lia. split; [by left|lia].
  - rewrite delay_after_exact by lia. unfold time_Add. lia.
Qed.

(** The number of failures a limiter remembers of a key. *)
Definition failures_of (l : Limiter) (k : string) : Z := default 0%Z (failures <$> lim_entries l !! k).

(** C34: after its n-th failure in a row a key is let through at once while
    [n <= FreeAttempts], and otherwise exactly from the failure's time plus
    [BaseDelay * 2^(n - FreeAttempts - 1)], at most [MaxDelay], on: the
    doubling in int64 never overflows for delays up to [2^62]. *)
Theorem backoff_exact cfg cs k now now' :
  let l0 := New cfg in
  (lim_base l0 <= int64_max)%Z -> (lim_max l0 <= 2^62)%Z -> (0 <= now')%Z ->
  let l := (run_calls l0 cs).2 in
  let n := (failures_of l k + 1)%Z in
  (n <= failureCeiling)%Z ->
  (Allow k now' (RecordFailure k now l)).1.1 =
  bool_decide (n <= lim_freeAttempts l0 \/
    now + Z.min (lim_max l0) (lim_base l0 * 2 ^ (n - lim_freeAttempts l0 - 1)) <= now')%Z.
Proof.
  cbv zeta. intros Hb Hm Hnow. set (l0 := New cfg) in *. intros Hn.
  destruct (run_calls_refines l0 l0 [] cs) as (_ & Hr & Hset); [done|apply represents_New|].
  pose proof (spec_calls_ok l0 [] cs (Forall_nil_2 _)) as Hok.
  set (l := (run_calls l0 cs).2) in *. set (s := (spec_calls l0 [] cs).2) in *.
  destruct (run_call_refines l s (CallFailure k now) Hr) as [_ Hr2]. simpl in Hr2.
  pose proof (rep_positive _ _ Hr) as Hp.
  set (e := default (mkEntry 0%Z 0%Z) (find_entry k s)) in *.
  assert (Hent : lim_entries (RecordFailure k now l) !! k = Some (record_failure l0 now e)).
  { rewrite (represents_entry _ _ _ Hr2), (record_failure_settings l0 l) by done.
    destruct (Z.to_nat (lim_maxEntries l)) as [|m] eqn:Em; [lia|]. simpl. by rewrite string_eqb_refl. }
  rewrite (Allow_ok _ _ _ _ Hent).
  assert (He : entry_ok l0 e).
  { unfold e. destruct (find_entry k s) as [e'|] eqn:E; [by eapply find_entry_ok|done]. }
  assert (Hf : failures_of l k = failures e).
  { unfold failures_of, e. rewrite (represents_entry _ _ _ Hr). by destruct (find_entry k s). }
  rewrite Hf in Hn |- *. apply allowed_after_failure; try done; split; try done; by apply or_default_positive.
Qed.

(** A blocked key cannot be unblocked by using a few others.  From the
    moment [Allow] refuses a key, it is refused until its time has come, as
    long as fewer than [MaxEntries] other keys are used in between. *)
Theorem blocked_until_evicted cfg cs0 cs k now now' retry l1 :
  Allow k now (run_calls (New cfg) cs0).2 = (false, retry, l1) ->
  (forall c, c ∈ cs -> call_key c <> k) ->
  (Z.of_nat (size (used_keys cs)) < lim_maxEntries l1)%Z ->
  (now' < now + retry)%Z ->
  exists retry', (Allow k now' (run_calls l1 cs).2).1 = (false, retry').
Proof.
  intros Ha Hk Hsz Hnow'. set (l0 := New cfg) in *.
  destruct (run_calls_refines l0 l0 [] cs0) as (_ & Hr & Hset); [done|apply represents_New|].
  set (l := (run_calls l0 cs0).2) in *. set (s := (spec_calls l0 [] cs0).2) in *.
  pose proof (run_call_refines l s (CallAllow k now) Hr) as [Ho Hr1]. simpl in Ho, Hr1. rewrite Ha in Ho, Hr1.
  simpl in Ho, Hr1. destruct (find_entry k s) as [e|] eqn:He; [|done]. simpl in Hr1.
  unfold answer in Ho. destruct (Z.ltb_spec now (blockedUntil e)) as [Hlt|]; [|done]. simpl in Ho.
  injection Ho as Hretry.
  destruct (run_calls_refines l1 l1 ((k, e) :: without k s) cs) as (_ & Hr2 & _); [done|exact Hr1|].
  destruct (survives_calls l1 ∅ k e ((k, e) :: without k s) cs Hk) as [Hf|Hin]; [by rewrite union_empty_l_L| | |by apply not_elem_of_empty in Hin].
  { exists [], (without k s). split_and!; [done|constructor|by intros x ?%not_elem_of_nil]. }
  unfold Allow. rewrite (represents_entry _ _ _ Hr2), Hf.
  assert (retry <= blockedUntil e - now)%Z by (unfold time_Sub, int64_min, int64_max in *; lia).
  rewrite (proj2 (Z.ltb_lt _ _)) by lia. by eexists.
Qed.

(** ** The properties hold somewhere *)

Definition demo_limiter : LimiterConfig := mkLimiterConfig 3 1 10%Z 35%Z.

Definition demo_calls : list call := [CallFailure "a" 100; CallFailure "a" 200]%string%Z.

Lemma backoff_exact_witness :
  (Allow "a" 319%Z (RecordFailure "a" 300%Z (run_calls (New demo_limiter) demo_calls).2)).1.1 = false.
Proof.
  rewrite (backoff_exact demo_limiter demo_calls "a" 300%Z 319%Z) by (vm_compute; discriminate).
  vm_compute. reflexivity.
Defined.

Definition demo_blocked : Limiter := Eval vm_compute in (Allow "a" 205%Z (run_calls (New demo_limiter) demo_calls).2).2.

Lemma blocked_until_evicted_witness :
  exists retry, (Allow "a" 209%Z (run_calls demo_blocked [CallFailure "b" 206; CallFailure "c" 207]%string%Z).2).1
                = (false, retry).
Proof.
  apply (blocked_until_evicted demo_limiter demo_calls _ "a" 205%Z 209%Z 5%Z demo_blocked); try (vm_compute; reflexivity).
  intros c Hc. repeat (apply elem_of_cons in Hc as [->|Hc]; [discriminate|]). by apply not_elem_of_nil in Hc.
Defined.
