(* ===== verification/Escape.v ===== *)
(** * Escaped sub-values and column headers (importexport/escape.go,
    importexport/customfields_columns.go)

    Strings are byte strings, as Go's.  A Go loop over the bytes that appends
    to a builder is a recursion on the string; [s[start:i]] of [SplitEscaped]
    is the piece read since the last separator.  Shown: unescaping undoes
    escaping, splitting undoes joining, and every header the export writes
    is parsed back to the column it was written for. *)

From S2P Require Import Prelude GoBase.
From Stdlib Require Import Strings.Ascii.

Local Open Scope char_scope.

(** ** Bytes and strings *)

(** [strings.ContainsAny(s, chars)], [strings.IndexByte(chars, c) >= 0]. *)
Fixpoint contains_byte (chars : string) (c : ascii) : bool :=
  match chars with
  | EmptyString => false
  | String d chars => Ascii.eqb d c || contains_byte chars c
  end.

Fixpoint ContainsAny (s chars : string) : bool :=
  match s with
  | EmptyString => false
  | String c s => contains_byte chars c || ContainsAny s chars
  end.

(** ** escape.go *)

Definition escapedChars : string := "\|:".
Definition headerEscapedChars : string := "\|:#".

(** The loop of [EscapeSubValue] and [escapeColumnName]. *)
Fixpoint escape_loop (chars s : string) : string :=
  match s with
  | EmptyString => EmptyString
  | String c s =>
      if contains_byte chars c then String "\" (String c (escape_loop chars s))
      else String c (escape_loop chars s)
  end.

Definition EscapeSubValue (s : string) : string :=
  if negb (ContainsAny s escapedChars) then s else escape_loop escapedChars s.

Definition escapeColumnName (s : string) : string :=
  if negb (ContainsAny s headerEscapedChars) then s else escape_loop headerEscapedChars s.

Fixpoint unescape_loop (escaped : bool) (s : string) : string :=
  match s with
  | EmptyString => if escaped then String "\" EmptyString else EmptyString
  | String c s =>
      if escaped then String c (unescape_loop false s)
      else if Ascii.eqb c "\" then unescape_loop true s
      else String c (unescape_loop false s)
  end.

Definition UnescapeSubValue (s : string) : string :=
  if negb (contains_byte s "\") then s else unescape_loop false s.

(** [piece] is [s[start:i]]. *)
Fixpoint split_loop (sep : ascii) (escaped : bool) (piece s : string) : list string :=
  match s with
  | EmptyString => [piece]
  | String c s =>
      if escaped then split_loop sep false (piece ++ String c EmptyString)%string s
      else if Ascii.eqb c "\" then split_loop sep true (piece ++ String c EmptyString)%string s
      else if Ascii.eqb c sep then piece :: split_loop sep false EmptyString s
      else split_loop sep false (piece ++ String c EmptyString)%string s
  end.

Definition SplitEscaped (s : string) (sep : ascii) : list string :=
  if s =?s EmptyString then [] else split_loop sep false EmptyString s.

(** [strings.Join]. *)
Fixpoint Join (values : list string) (sep : string) : string :=
  match values with
  | [] => EmptyString
  | [v] => v
  | v :: values => (v ++ sep ++ Join values sep)%string
  end.

Definition joinEscaped (values : list string) (sep : ascii) : string :=
  match values with
  | [] => EmptyString
  | _ => Join (EscapeSubValue <$> values) (String sep EmptyString)
  end.

(** [strings.HasPrefix(s, prefix)], and what is left after the prefix. *)
Fixpoint strip_prefix (prefix s : string) : option string :=
  match prefix, s with
  | EmptyString, _ => Some s
  | String c prefix, String d s => if Ascii.eqb c d then strip_prefix prefix s else None
  | _, _ => None
  end.

(** ** customfields_columns.go *)

Definition CustomFieldColumnPrefix : string := "cf:".
Definition CustomFieldAdHocColumnPrefix : string := "cfx:".

(** A column of the CSV beyond the fixed ones ([CustomFieldColumnUnknown] is
    never returned). *)
Inductive CustomFieldColumn :=
  | CustomFieldColumnDef (Name DefID : string)
  | CustomFieldColumnAdHoc (FieldType Name : string).

#[export] Instance CustomFieldColumn_eq_dec : EqDecision CustomFieldColumn.
Proof. solve_decision. Defined.

Definition ParseCustomFieldColumn (header : string) : option CustomFieldColumn :=
  match strip_prefix CustomFieldAdHocColumnPrefix header with
  | Some rest =>
      match SplitEscaped rest ":" with
      | [fieldType; name] => Some (CustomFieldColumnAdHoc (UnescapeSubValue fieldType) (UnescapeSubValue name))
      | _ => None
      end
  | None =>
      match strip_prefix CustomFieldColumnPrefix header with
      | Some rest =>
          match SplitEscaped rest "#" with
          | [name] => Some (CustomFieldColumnDef (UnescapeSubValue name) EmptyString)
          | [name; id] => Some (CustomFieldColumnDef (UnescapeSubValue name) id)
          | _ => None
          end
      | None => None
      end
  end.

Definition cf_header (name : string) (id : option string) : string :=
  match id with
  | Some id => (CustomFieldColumnPrefix ++ escapeColumnName name ++ "#" ++ id)%string
  | None => (CustomFieldColumnPrefix ++ escapeColumnName name)%string
  end.

(** [adHocColumnKey.header]: the key is the field type and the name. *)
Definition adHocColumnKey : Type := string * string.

Definition adHocColumnKey_header (k : adHocColumnKey) : string :=
  (CustomFieldAdHocColumnPrefix ++ k.1 ++ ":" ++ escapeColumnName k.2)%string.

Example escape_demo :
  (EscapeSubValue "a|b\c", UnescapeSubValue "a\|b\\c\", SplitEscaped "a\|b|c|" "|",
   joinEscaped ["a|b"; ""; "c"]%string "|")
  = ("a\|b\\c", "a|b\c\", ["a\|b"; "c"; ""], "a\|b||c")%string.
Proof. reflexivity. Qed.

(** ** Escaping *)

#[local] Arguments String.append !_ _ / : simpl nomatch.

Lemma string_app_nil_r (s : string) : (s ++ EmptyString)%string = s.
Proof. induction s as [|c s IH]; simpl; [done|by rewrite IH]. Qed.

Lemma string_app_empty (s t : string) : (s ++ t)%string = EmptyString -> s = EmptyString /\ t = EmptyString.
Proof. by destruct s. Qed.

Lemma escape_loop_plain chars s : ContainsAny s chars = false -> escape_loop chars s = s.
Proof.
  induction s as [|c s IH]; simpl; [done|]. intros [Hc Hs]%orb_false_iff. by rewrite Hc, IH.
Qed.

Lemma EscapeSubValue_loop s : EscapeSubValue s = escape_loop escapedChars s.
Proof.
  unfold EscapeSubValue. destruct (ContainsAny s escapedChars) eqn:E; simpl; [done|].
  by rewrite escape_loop_plain.
Qed.

Lemma escapeColumnName_loop s : escapeColumnName s = escape_loop headerEscapedChars s.
Proof.
  unfold escapeColumnName. destruct (ContainsAny s headerEscapedChars) eqn:E; simpl; [done|].
  by rewrite escape_loop_plain.
Qed.

Lemma UnescapeSubValue_loop s : UnescapeSubValue s = unescape_loop false s.
Proof.
  unfold UnescapeSubValue. destruct (contains_byte s "\") eqn:E; simpl; [done|].
  induction s as [|c s IH]; simpl in *; [done|]. apply orb_false_iff in E as [Ec Es].
  rewrite Ec. f_equal. by apply IH.
Qed.

Lemma unescape_escape_loop chars s :
  contains_byte chars "\" = true -> unescape_loop false (escape_loop chars s) = s.
Proof.
  intros Hb. induction s as [|c s IH]; simpl; [done|].
  destruct (contains_byte chars c) eqn:E; simpl; [by rewrite IH|].
  destruct (Ascii.eqb_spec c "\") as [->|]; [by rewrite Hb in E|]. by rewrite IH.
Qed.

Lemma escape_loop_empty chars s : escape_loop chars s = EmptyString -> s = EmptyString.
Proof. destruct s as [|c s]; simpl; [done|]. by destruct (contains_byte chars c). Qed.

(** ** Splitting *)

(** An escaped piece is read without being cut. *)
Lemma split_escape_loop chars sep s piece rest :
  contains_byte chars "\" = true -> contains_byte chars sep = true ->
  split_loop sep false piece (escape_loop chars s ++ rest) =
  split_loop sep false (piece ++ escape_loop chars s) rest.
Proof.
  intros Hb Hs. revert piece. induction s as [|c s IH]; intros piece; simpl; [by rewrite string_app_nil_r|].
  destruct (contains_byte chars c) eqn:E; simpl; rewrite ?IH, !string_app_assoc; simpl; [done|].
  destruct (Ascii.eqb_spec c "\") as [->|]; [by rewrite Hb in E|].
  destruct (Ascii.eqb_spec c sep) as [->|]; [by rewrite Hs in E|].
  done.
Qed.

(** So is a piece without separators and backslashes. *)
Lemma split_plain sep s piece rest :
  contains_byte s "\" = false -> contains_byte s sep = false ->
  split_loop sep false piece (s ++ rest) = split_loop sep false (piece ++ s) rest.
Proof.
  revert piece. induction s as [|c s IH]; intros piece; simpl; [by rewrite string_app_nil_r|].
  intros [Hb Hbs]%orb_false_iff [Hc Hcs]%orb_false_iff.
  rewrite Hb, Hc, IH by done. by rewrite string_app_assoc.
Qed.

Lemma split_Join chars sep values :
  contains_byte chars "\" = true -> contains_byte chars sep = true -> Ascii.eqb sep "\" = false ->
  values <> [] ->
  split_loop sep false EmptyString (Join (escape_loop chars <$> values) (String sep EmptyString))
  = escape_loop chars <$> values.
Proof.
  intros Hb Hs Hsep Hne. induction values as [|v values IH]; [done|].
  destruct values as [|v' values].
  - simpl. rewrite <- (string_app_nil_r (escape_loop chars v)) at 1. by rewrite split_escape_loop.
  - change (Join (escape_loop chars <$> v :: v' :: values) (String sep EmptyString))
      with (escape_loop chars v ++ String sep (Join (escape_loop chars <$> v' :: values) (String sep EmptyString)))%string.
    rewrite split_escape_loop by done. cbn [split_loop String.append].
    rewrite Hsep, Ascii.eqb_refl, IH by done. done.
Qed.

Lemma Join_empty values sep :
  Join values (String sep EmptyString) = EmptyString -> values = [] \/ values = [EmptyString].
Proof.
  destruct values as [|v [|v' values]]; simpl; [by left|intros ->; by right|].
  by intros [_ ?]%string_app_empty.
Qed.

(** What [joinEscaped] writes, [SplitEscaped] reads back, piece by piece. *)
Lemma SplitEscaped_Join sep values :
  contains_byte escapedChars sep = true -> Ascii.eqb sep "\" = false -> values <> [EmptyString] ->
  SplitEscaped (joinEscaped values sep) sep = EscapeSubValue <$> values.
Proof.
  intros Hs Hsep Hne. destruct values as [|v values]; [done|].
  unfold SplitEscaped, joinEscaped.
  rewrite !(list_fmap_ext EscapeSubValue (escape_loop escapedChars) (v :: values))
    by (intros; apply EscapeSubValue_loop).
  destruct (_ =?s EmptyString) eqn:E; bool_facts; [|by apply split_Join].
  exfalso. apply Join_empty in E as [?|E]; [done|]. apply Hne.
  destruct values; [|done]. injection E as E%escape_loop_empty. by subst.
Qed.

Lemma UnescapeSubValue_EscapeSubValue s : UnescapeSubValue (EscapeSubValue s) = s.
Proof. rewrite UnescapeSubValue_loop, EscapeSubValue_loop. by apply unescape_escape_loop. Qed.

Lemma UnescapeSubValue_escapeColumnName s : UnescapeSubValue (escapeColumnName s) = s.
Proof. rewrite UnescapeSubValue_loop, escapeColumnName_loop. by apply unescape_escape_loop. Qed.

Lemma UnescapeSubValue_plain s : contains_byte s "\" = false -> UnescapeSubValue s = s.
Proof. unfold UnescapeSubValue. by intros ->. Qed.

(** ** Headers *)

Lemma SplitEscaped_nonempty s sep : s <> EmptyString -> SplitEscaped s sep = split_loop sep false EmptyString s.
Proof. intros Hs. unfold SplitEscaped. by rewrite (proj2 (string_eqb_false _ _) Hs). Qed.

Lemma escapeColumnName_empty s : escapeColumnName s = EmptyString -> s = EmptyString.
Proof. rewrite escapeColumnName_loop. apply escape_loop_empty. Qed.

Lemma ParseCustomFieldColumn_cf_header name :
  name <> EmptyString -> ParseCustomFieldColumn (cf_header name None) = Some (CustomFieldColumnDef name EmptyString).
Proof.
  intros Hne. unfold ParseCustomFieldColumn, cf_header. simpl strip_prefix. cbv iota.
  rewrite SplitEscaped_nonempty by (intros ?%escapeColumnName_empty; done).
  rewrite <- (string_app_nil_r (escapeColumnName name)), escapeColumnName_loop, split_escape_loop by done.
  simpl. rewrite <- escapeColumnName_loop. by rewrite UnescapeSubValue_escapeColumnName.
Qed.

Lemma ParseCustomFieldColumn_cf_header_id name id :
  contains_byte id "\" = false -> contains_byte id "#" = false ->
  ParseCustomFieldColumn (cf_header name (Some id)) = Some (CustomFieldColumnDef name id).
Proof.
  intros Hb Hh. unfold ParseCustomFieldColumn, cf_header. simpl strip_prefix. cbv iota.
  rewrite SplitEscaped_nonempty by (intros [_ ?]%string_app_empty; done).
  rewrite escapeColumnName_loop, split_escape_loop by done. cbn [split_loop String.append].
  simpl Ascii.eqb. cbv iota. rewrite <- (string_app_nil_r id), split_plain by done.
  simpl. rewrite string_app_nil_r, <- escapeColumnName_loop. by rewrite UnescapeSubValue_escapeColumnName.
Qed.

Lemma ParseCustomFieldColumn_adHoc k :
  contains_byte k.1 "\" = false -> contains_byte k.1 ":" = false ->
  ParseCustomFieldColumn (adHocColumnKey_header k) = Some (CustomFieldColumnAdHoc k.1 k.2).
Proof.
  intros Hb Hc. unfold ParseCustomFieldColumn, adHocColumnKey_header. simpl strip_prefix. cbv iota.
  rewrite SplitEscaped_nonempty by (intros [_ ?]%string_app_empty; done).
  rewrite split_plain by done. cbn [split_loop String.append]. simpl Ascii.eqb. cbv iota.
  rewrite <- (string_app_nil_r (escapeColumnName k.2)), escapeColumnName_loop, split_escape_loop by done.
  simpl. rewrite <- escapeColumnName_loop, UnescapeSubValue_escapeColumnName.
  by rewrite UnescapeSubValue_plain.
Qed.
