(* ===== verification/Strconv.v ===== *)
(** * Text forms of numbers, dates and lists

    What the code uses of Go's [strconv], [strings] and [time]: decimal
    integers ([FormatInt], [ParseInt], [FormatUint], [ParseUint]),
    [strings.Split], [strings.ToLower], and [time.Parse] and [Time.Format] with
    the layout ["2006-01-02"].  An error is [None]; which of its errors a
    parser reports is not kept. *)

From S2P Require Import Prelude GoBase.
From Stdlib Require Import Strings.Ascii.

Local Open Scope char_scope.
Local Open Scope Z_scope.

#[local] Arguments String.append !_ _ / : simpl nomatch.

(** ** Decimal digits *)

Definition digit (n : Z) : ascii := ascii_of_nat (48 + Z.to_nat n).

Definition digit_value (c : ascii) : option Z :=
  let n := Z.of_nat (nat_of_ascii c) - 48 in
  if (0 <=? n) && (n <=? 9) then Some n else None.

Definition isDigit (c : ascii) : bool := match digit_value c with Some _ => true | None => false end.

(** [strconv.FormatUint(n, 10)]; twenty digits hold every [uint64]. *)
Fixpoint format_loop (fuel : nat) (n : Z) (acc : string) : string :=
  match fuel with
  | O => acc
  | S fuel =>
      let acc' := String (digit (n mod 10)) acc in
      if n <? 10 then acc' else format_loop fuel (n / 10) acc'
  end.

Definition FormatUint (n : Z) : string := format_loop 20 n EmptyString.

Definition FormatInt (i : Z) : string :=
  if i <? 0 then String "-" (FormatUint (- i)) else FormatUint i.

Fixpoint parse_from (acc : Z) (s : string) : option Z :=
  match s with
  | EmptyString => Some acc
  | String c s => match digit_value c with Some d => parse_from (acc * 10 + d) s | None => None end
  end.

(** [strconv.ParseUint(s, 10, bits)] *)
Definition ParseUint (s : string) (bits : Z) : option Z :=
  match s with
  | EmptyString => None
  | _ => match parse_from 0 s with
         | Some n => if n <? 2 ^ bits then Some n else None
         | None => None
         end
  end.

(** [strconv.ParseInt(s, 10, 64)] *)
Definition ParseInt (s : string) : option Z :=
  let parse (neg : bool) (s : string) :=
    match ParseUint s 64 with
    | Some un =>
        if neg then (if un <=? 2 ^ 63 then Some (- un) else None)
        else (if un <? 2 ^ 63 then Some un else None)
    | None => None
    end in
  match s with
  | EmptyString => None
  | String c rest =>
      if Ascii.eqb c "+" then parse false rest
      else if Ascii.eqb c "-" then parse true rest
      else parse false s
  end.

(** ** strings *)

(** [strings.Split(s, sep)] for a separator of one byte. *)
Fixpoint Split (s : string) (sep : ascii) : list string :=
  match s with
  | EmptyString => [EmptyString]
  | String c s =>
      if Ascii.eqb c sep then EmptyString :: Split s sep
      else match Split s sep with
           | piece :: rest => String c piece :: rest
           | [] => [String c EmptyString]
           end
  end.

(** [strings.ToLower] on ASCII letters.  (No other letter has a lower case
    among the letters of the words it is compared with.) *)
Definition lower_byte (c : ascii) : ascii :=
  let n := nat_of_ascii c in
  if (65 <=? n)%nat && (n <=? 90)%nat then ascii_of_nat (n + 32) else c.

Fixpoint ToLower (s : string) : string :=
  match s with EmptyString => EmptyString | String c s => String (lower_byte c) (ToLower s) end.

(** ** Dates *)

Record Date := mkDate { date_Year : Z; date_Month : Z; date_Day : Z }.

Definition is_leap (year : Z) : bool :=
  (year mod 4 =? 0) && (negb (year mod 100 =? 0) || (year mod 400 =? 0)).

Definition days_in (month year : Z) : Z :=
  if (month =? 2) then (if is_leap year then 29 else 28)
  else if (month =? 4) || (month =? 6) || (month =? 9) || (month =? 11) then 30 else 31.

(** [n] leading digits, as the layout elements of fixed width take them. *)
Fixpoint take_digits (n : nat) (acc : Z) (s : string) : option (Z * string) :=
  match n with
  | O => Some (acc, s)
  | S n =>
      match s with
      | EmptyString => None
      | String c s => match digit_value c with Some d => take_digits n (acc * 10 + d) s | None => None end
      end
  end.

Definition take_dash (s : string) : option string :=
  match s with String c s => if Ascii.eqb c "-" then Some s else None | EmptyString => None end.

(** [time.Parse("2006-01-02", s)] *)
Definition parse_date (s : string) : option Date :=
  '(year, s) ← take_digits 4 0 s;
  s ← take_dash s;
  '(month, s) ← take_digits 2 0 s;
  s ← take_dash s;
  '(day, s) ← take_digits 2 0 s;
  if negb (s =?s EmptyString) then None
  else if (month <=? 0) || (12 <? month) then None
  else if (day <? 1) || (days_in month year <? day) then None
  else Some (mkDate year month day).

(** [t.Format("2006-01-02")] of a year of at most four digits. *)
Definition two_digits (n : Z) : string := String (digit (n / 10 mod 10)) (String (digit (n mod 10)) EmptyString).
Definition four_digits (n : Z) : string :=
  String (digit (n / 1000 mod 10)) (String (digit (n / 100 mod 10)) (two_digits n)).

Definition format_date (t : Date) : string :=
  (four_digits (date_Year t) ++ String "-" (two_digits (date_Month t)) ++ String "-" (two_digits (date_Day t)))%string.

Example strconv_demo :
  (FormatInt (-9223372036854775808), ParseInt "-9223372036854775808"%string, ParseInt "9223372036854775808"%string,
   ParseInt "+07"%string, Split "$a$"%string "$", parse_date "2024-02-29"%string, parse_date "2023-02-29"%string,
   parse_date "2023-2-01"%string)
  = ("-9223372036854775808", Some (-9223372036854775808), None, Some 7,
     ["";"a";""], Some (mkDate 2024 2 29), None, None)%string.
Proof. vm_compute. reflexivity. Qed.

(** ** Round trips *)

Lemma digit_value_digit n : 0 <= n <= 9 -> digit_value (digit n) = Some n.
Proof.
  intros Hn. unfold digit_value, digit. rewrite Ascii.nat_ascii_embedding by lia.
  replace (Z.of_nat (48 + Z.to_nat n) - 48) with n by lia.
  by rewrite (proj2 (Z.leb_le 0 n)), (proj2 (Z.leb_le n 9)) by lia.
Qed.

Lemma digit_value_inv c d : digit_value c = Some d -> 0 <= d <= 9 /\ digit d = c.
Proof.
  unfold digit_value. destruct (_ && _) eqn:E; [|done]. apply andb_true_iff in E as [E1%Z.leb_le E2%Z.leb_le].
  intros [= <-]. split; [lia|]. unfold digit.
  replace (48 + Z.to_nat (Z.of_nat (nat_of_ascii c) - 48))%nat with (nat_of_ascii c) by lia.
  apply Ascii.ascii_nat_embedding.
Qed.

Lemma parse_format_loop fuel n rest :
  0 <= n < 10 ^ Z.of_nat fuel -> parse_from 0 (format_loop fuel n rest) = parse_from n rest.
Proof.
  revert n rest. induction fuel as [|fuel IH]; intros n rest Hn; [simpl in Hn; by replace n with 0 by lia|].
  cbn [format_loop]. assert (Hd : 0 <= n mod 10 <= 9) by (pose proof (Z.mod_pos_bound n 10); lia).
  destruct (Z.ltb_spec n 10).
  - cbn [parse_from]. rewrite digit_value_digit by done. f_equal. rewrite Z.mod_small; lia.
  - rewrite IH.
    + cbn [parse_from]. rewrite digit_value_digit by done. f_equal. pose proof (Z.div_mod n 10). lia.
    + split; [apply Z.div_pos; lia|]. apply Z.div_lt_upper_bound; [lia|].
      rewrite Nat2Z.inj_succ, Z.pow_succ_r in Hn by lia. lia.
Qed.

Lemma format_loop_head fuel n rest :
  0 <= n -> exists d s, 0 <= d <= 9 /\ format_loop (S fuel) n rest = String (digit d) s.
Proof.
  revert n rest. induction fuel as [|fuel IH]; intros n rest Hn.
  - cbn [format_loop]. exists (n mod 10), rest. pose proof (Z.mod_pos_bound n 10). split; [lia|].
    by destruct (n <? 10).
  - remember (S fuel) as k. cbn [format_loop]. pose proof (Z.mod_pos_bound n 10).
    destruct (n <? 10); [exists (n mod 10), rest; split; [lia|done]|]. subst k.
    apply IH. apply Z.div_pos; lia.
Qed.

Lemma ParseUint_FormatUint n bits : 0 <= bits <= 64 -> 0 <= n < 2 ^ bits -> ParseUint (FormatUint n) bits = Some n.
Proof.
  intros Hb Hn. unfold ParseUint, FormatUint.
  destruct (format_loop_head 19 n EmptyString) as (d & s & _ & E); [lia|]. rewrite E, <- E.
  assert (Hle : 2 ^ bits <= 2 ^ 64) by (apply Z.pow_le_mono_r; lia).
  rewrite parse_format_loop by (change (10 ^ Z.of_nat 20) with 100000000000000000000; lia). cbn [parse_from].
  destruct (Z.ltb_spec n (2 ^ bits)); [done|lia].
Qed.

Lemma FormatUint_head n : 0 <= n -> exists d s, 0 <= d <= 9 /\ FormatUint n = String (digit d) s.
Proof. apply format_loop_head. Qed.

Lemma digit_not_sign d : 0 <= d <= 9 -> Ascii.eqb (digit d) "+" = false /\ Ascii.eqb (digit d) "-" = false.
Proof.
  intros Hd. assert (d = 0 \/ d = 1 \/ d = 2 \/ d = 3 \/ d = 4 \/ d = 5 \/ d = 6 \/ d = 7 \/ d = 8 \/ d = 9) as Hc by lia.
  by repeat destruct Hc as [->|Hc]; [..|subst].
Qed.

Lemma ParseInt_FormatInt i : int64_min <= i <= int64_max -> ParseInt (FormatInt i) = Some i.
Proof.
  unfold int64_min, int64_max. intros Hi. unfold ParseInt, FormatInt. destruct (Z.ltb_spec i 0).
  - cbn [Ascii.eqb]. change (Ascii.eqb "-" "+") with false. change (Ascii.eqb "-" "-") with true. cbv iota beta.
    rewrite ParseUint_FormatUint by lia. destruct (Z.leb_spec (- i) (2 ^ 63)); [f_equal|]; lia.
  - destruct (FormatUint_head i) as (d & s & Hd & E); [done|]. rewrite E.
    destruct (digit_not_sign d Hd) as [-> ->]. rewrite <- E. rewrite ParseUint_FormatUint by lia.
    destruct (Z.ltb_spec i (2 ^ 63)); [done|lia].
Qed.

Lemma FormatInt_nonempty i : FormatInt i <> EmptyString.
Proof.
  unfold FormatInt. destruct (Z.ltb_spec i 0); [done|]. destruct (FormatUint_head i) as (d & s & _ & ->); done.
Qed.
