(* ===== verification/Csv.v ===== *)
(** * CSV text (Go's encoding/csv)

    [csv.Writer] with its default settings and [csv.Reader] with its default
    settings, on byte strings.  The reader works line by line; since it
    replaces a carriage return before a line feed wherever a line ends, inside
    quotes too, that is done here for the whole text first, and what is left
    is a machine that reads one byte at a time. *)

From S2P Require Import Prelude Escape.
From Stdlib Require Import Strings.Ascii.

Local Open Scope char_scope.

#[local] Arguments String.append !_ _ / : simpl nomatch.

Definition CR : ascii := "013".
Definition LF : ascii := "010".
Definition QUOTE : ascii := "034".
Definition COMMA : ascii := ",".

(** ** Writer *)

(** The encodings of the runes for which [unicode.IsSpace] holds. *)
Definition space_runes : list string :=
  (fun bs => string_of_list_ascii (ascii_of_nat <$> bs)) <$>
  ([[9]; [10]; [11]; [12]; [13]; [32]; [194; 133]; [194; 160]; [225; 154; 128]]
   ++ ((fun b => [226; 128; b]) <$> (seq 128 11 ++ [168; 169; 175])) ++ [[226; 129; 159]; [227; 128; 128]])%nat.

Definition starts_with_space (s : string) : bool :=
  existsb (fun p => match strip_prefix p s with Some _ => true | None => false end) space_runes.

Definition special (c : ascii) : bool :=
  Ascii.eqb c LF || Ascii.eqb c CR || Ascii.eqb c QUOTE || Ascii.eqb c COMMA.

Fixpoint has_special (s : string) : bool :=
  match s with EmptyString => false | String c s => special c || has_special s end.

Definition fieldNeedsQuotes (field : string) : bool :=
  negb (String.eqb field EmptyString)
  && (String.eqb field "\."%string || has_special field || starts_with_space field).

Fixpoint double_quotes (s : string) : string :=
  match s with
  | EmptyString => EmptyString
  | String c s => if Ascii.eqb c QUOTE then String QUOTE (String QUOTE (double_quotes s)) else String c (double_quotes s)
  end.

Definition write_field (field : string) : string :=
  if fieldNeedsQuotes field
  then String QUOTE (double_quotes field ++ String QUOTE EmptyString)%string
  else field.

Definition write_record (fields : list string) : string :=
  (Join (write_field <$> fields) (String COMMA EmptyString) ++ String LF EmptyString)%string.

Definition csv_write (records : list (list string)) : string :=
  foldr (fun r text => write_record r ++ text)%string EmptyString records.

(** ** Reader *)

Fixpoint normalize (s : string) : string :=
  match s with
  | EmptyString => EmptyString
  | String c s' =>
      if Ascii.eqb c CR then
        match s' with
        | EmptyString => EmptyString
        | String d _ => if Ascii.eqb d LF then normalize s' else String c (normalize s')
        end
      else String c (normalize s')
  end.

Inductive reading :=
  | RecordStart                                   (* at the start of a line, no field yet *)
  | FieldStart (fs : list string)
  | Bare (fs : list string) (acc : string)
  | Quoted (fs : list string) (acc : string)
  | QuoteSeen (fs : list string) (acc : string)   (* after a quote in a quoted field *)
  | Skipping.                                     (* after an error, to the end of the line *)

(** What one byte does: the next state, and a record or an error if one ends. *)
Definition read_byte (st : reading) (c : ascii) : reading * option (option (list string)) :=
  let field_start fs :=
    if Ascii.eqb c QUOTE then (Quoted fs EmptyString, None)
    else if Ascii.eqb c COMMA then (FieldStart (fs ++ [EmptyString]), None)
    else if Ascii.eqb c LF then (RecordStart, Some (Some (fs ++ [EmptyString])))
    else (Bare fs (String c EmptyString), None) in
  match st with
  | RecordStart => if Ascii.eqb c LF then (RecordStart, None) else field_start []
  | FieldStart fs => field_start fs
  | Bare fs acc =>
      if Ascii.eqb c COMMA then (FieldStart (fs ++ [acc]), None)
      else if Ascii.eqb c LF then (RecordStart, Some (Some (fs ++ [acc])))
      else if Ascii.eqb c QUOTE then (Skipping, Some None)
      else (Bare fs (acc ++ String c EmptyString)%string, None)
  | Quoted fs acc =>
      if Ascii.eqb c QUOTE then (QuoteSeen fs acc, None)
      else (Quoted fs (acc ++ String c EmptyString)%string, None)
  | QuoteSeen fs acc =>
      if Ascii.eqb c QUOTE then (Quoted fs (acc ++ String QUOTE EmptyString)%string, None)
      else if Ascii.eqb c COMMA then (FieldStart (fs ++ [acc]), None)
      else if Ascii.eqb c LF then (RecordStart, Some (Some (fs ++ [acc])))
      else (Skipping, Some None)
  | Skipping => if Ascii.eqb c LF then (RecordStart, None) else (Skipping, None)
  end.

(** What the end of the text does. *)
Definition read_end (st : reading) : list (option (list string)) :=
  match st with
  | RecordStart | Skipping => []
  | FieldStart fs => [Some (fs ++ [EmptyString])]
  | Bare fs acc | QuoteSeen fs acc => [Some (fs ++ [acc])]
  | Quoted _ _ => [None]
  end.

(** [line] is the number of the current line, [start] of the one where the
    current record began. *)
Fixpoint read_loop (line start : Z) (st : reading) (s : string) : list (Z * option (list string)) :=
  match s with
  | EmptyString => (fun r => (start, r)) <$> read_end st
  | String c s =>
      let start := match st with RecordStart => line | _ => start end in
      let line' := if Ascii.eqb c LF then (line + 1)%Z else line in
      match read_byte st c with
      | (st', None) => read_loop line' start st' s
      | (st', Some r) => (start, r) :: read_loop line' start st' s
      end
  end.

(** Every record must have as many fields as the first. *)
Definition check_count (n : nat) (r : option (list string)) : option (list string) :=
  match r with Some fs => if Nat.eqb (length fs) n then r else None | None => None end.

Definition csv_read (text : string) : list (Z * option (list string)) :=
  match read_loop 1 1 RecordStart (normalize text) with
  | (l, Some header) :: rest => (l, Some header) :: ((fun lr => (lr.1, check_count (length header) lr.2)) <$> rest)
  | records => records
  end.

Example csv_demo :
  let quoted := String QUOTE (String LF (String QUOTE EmptyString)) in
  csv_read (csv_write [["a"; ""; "x,y"]; [" b"; quoted; "c"]])%string
  = [(1, Some ["a"; ""; "x,y"]); (2, Some [" b"; quoted; "c"])]%Z%string.
Proof. vm_compute. reflexivity. Qed.

(** ** Reading back what was written *)

(** No carriage return stands before a line feed. *)
Fixpoint crlf_free (s : string) : bool :=
  match s with
  | EmptyString => true
  | String c s' =>
      negb (Ascii.eqb c CR && match s' with String d _ => Ascii.eqb d LF | EmptyString => false end) && crlf_free s'
  end.

(** [read_loop] without the line numbers. *)
Fixpoint read_texts (st : reading) (s : string) : list (option (list string)) :=
  match s with
  | EmptyString => read_end st
  | String c s =>
      match read_byte st c with
      | (st', None) => read_texts st' s
      | (st', Some r) => r :: read_texts st' s
      end
  end.

Lemma read_loop_texts line start st s : (read_loop line start st s).*2 = read_texts st s.
Proof.
  revert line start st. induction s as [|c s IH]; intros line start st; simpl.
  - rewrite <- list_fmap_compose. by rewrite (list_fmap_ext _ id) by done; rewrite list_fmap_id.
  - destruct (read_byte st c) as [st' [r|]]; [simpl; by rewrite IH|by rewrite IH].
Qed.

Lemma char_eqb_false (c d : ascii) : c <> d -> Ascii.eqb c d = false.
Proof. apply Ascii.eqb_neq. Qed.

(** *** Carriage returns *)

Lemma normalize_plain c s : c <> CR -> normalize (String c s) = String c (normalize s).
Proof. intros Hc. cbn [normalize]. by rewrite char_eqb_false. Qed.

Lemma special_not_CR c : special c = false -> c <> CR.
Proof. intros H ->. done. Qed.

Lemma normalize_bare f rest : has_special f = false -> normalize (f ++ rest) = (f ++ normalize rest)%string.
Proof.
  induction f as [|c f IH]; cbn [has_special String.append]; [done|]. intros [Hc Hf]%orb_false_iff.
  rewrite normalize_plain by by apply special_not_CR. by rewrite IH.
Qed.

Lemma normalize_quoted f rest :
  crlf_free f = true ->
  normalize (double_quotes f ++ String QUOTE rest) = (double_quotes f ++ String QUOTE (normalize rest))%string.
Proof.
  induction f as [|c f IH]; cbn [crlf_free double_quotes]; [done|]. intros [Hc Hf]%andb_true_iff.
  destruct (Ascii.eqb_spec c QUOTE) as [->|Hq].
  - cbn [String.append]. rewrite !normalize_plain by done. by rewrite IH.
  - cbn [String.append]. destruct (Ascii.eqb_spec c CR) as [->|Hr]; [|by rewrite normalize_plain, IH by done].
    cbn [normalize]. rewrite Ascii.eqb_refl.
    destruct f as [|d f]; [done|]. cbn [andb] in Hc. apply negb_true_iff in Hc.
    rewrite <- (IH Hf). cbn [double_quotes]. destruct (Ascii.eqb_spec d QUOTE) as [->|Hd]; cbn [String.append]; [done|].
    by rewrite Hc.
Qed.

Lemma normalize_field f rest :
  crlf_free f = true -> normalize (write_field f ++ rest) = (write_field f ++ normalize rest)%string.
Proof.
  intros Hf. unfold write_field. destruct (fieldNeedsQuotes f) eqn:Hq.
  - cbn [String.append]. rewrite normalize_plain by done. rewrite !string_app_assoc. cbn [String.append].
    by rewrite normalize_quoted.
  - unfold fieldNeedsQuotes in Hq. apply andb_false_iff in Hq as [Hq|Hq].
    + apply negb_false_iff, String.eqb_eq in Hq as ->. done.
    + apply orb_false_iff in Hq as [[_ Hq]%orb_false_iff _]. by apply normalize_bare.
Qed.

Lemma Join_cons2 v w vs sep : Join (v :: w :: vs) sep = (v ++ sep ++ Join (w :: vs) sep)%string.
Proof. done. Qed.

Lemma normalize_record fs rest :
  Forall (fun f => crlf_free f = true) fs -> normalize (write_record fs ++ rest) = (write_record fs ++ normalize rest)%string.
Proof.
  intros Hfs. unfold write_record. rewrite !string_app_assoc. cbn [String.append].
  assert (Hlf : normalize (String LF rest) = String LF (normalize rest)) by by apply normalize_plain.
  induction Hfs as [|f fs Hf Hfs IH]; [done|]. destruct fs as [|g fs].
  - cbn [fmap list_fmap Join]. by rewrite normalize_field, Hlf.
  - rewrite !fmap_cons, Join_cons2, !string_app_assoc, normalize_field by done. cbn [String.append].
    rewrite normalize_plain by done. rewrite !fmap_cons in IH. by rewrite IH.
Qed.

Lemma normalize_csv_write records :
  Forall (Forall (fun f => crlf_free f = true)) records -> normalize (csv_write records) = csv_write records.
Proof. induction 1 as [|r rs Hr _ IH]; [done|]. simpl. by rewrite normalize_record, IH. Qed.

(** *** Fields and records *)

(** What ends a field: the state after it and the records that come first. *)
Definition field_end (sep : ascii) (fs : list string) (rest : string) : list (option (list string)) :=
  if Ascii.eqb sep COMMA then read_texts (FieldStart fs) rest else Some fs :: read_texts RecordStart rest.

Lemma special_bytes c : special c = false -> c <> LF /\ c <> QUOTE /\ c <> COMMA.
Proof. intros H. by split_and!; intros ->. Qed.

Lemma read_bare fs acc f sep rest :
  has_special f = false -> sep = COMMA \/ sep = LF ->
  read_texts (Bare fs acc) (f ++ String sep rest) = field_end sep (fs ++ [acc ++ f]%string) rest.
Proof.
  intros Hf Hsep. revert acc Hf. induction f as [|c f IH]; intros acc; cbn [has_special String.append].
  - intros _. rewrite string_app_nil_r. by destruct Hsep as [->| ->].
  - intros [(Hl & Hq & Hc)%special_bytes Hf]%orb_false_iff. cbn [read_texts read_byte].
    rewrite !char_eqb_false by done. rewrite IH by done. by rewrite string_app_assoc.
Qed.

Lemma read_quoted fs acc f sep rest :
  sep = COMMA \/ sep = LF ->
  read_texts (Quoted fs acc) (double_quotes f ++ String QUOTE (String sep rest))
  = field_end sep (fs ++ [acc ++ f]%string) rest.
Proof.
  intros Hsep. revert acc. induction f as [|c f IH]; intros acc.
  - rewrite string_app_nil_r. by destruct Hsep as [->| ->].
  - cbn [double_quotes]. destruct (Ascii.eqb_spec c QUOTE) as [->|Hq]; cbn [String.append read_texts read_byte].
    + rewrite Ascii.eqb_refl. cbn [read_byte]. rewrite Ascii.eqb_refl, IH. by rewrite string_app_assoc.
    + rewrite char_eqb_false by done. rewrite IH. by rewrite string_app_assoc.
Qed.

Lemma read_field fs f sep rest :
  sep = COMMA \/ sep = LF ->
  read_texts (FieldStart fs) (write_field f ++ String sep rest) = field_end sep (fs ++ [f]) rest.
Proof.
  intros Hsep. unfold write_field. destruct (fieldNeedsQuotes f) eqn:Hq.
  - cbn [String.append]. rewrite string_app_assoc. cbn [String.append read_texts read_byte].
    by rewrite Ascii.eqb_refl, read_quoted.
  - destruct f as [|c f]; [by destruct Hsep as [->| ->]|].
    unfold fieldNeedsQuotes in Hq. cbn [String.eqb negb andb] in Hq. apply orb_false_iff in Hq as [[_ Hq]%orb_false_iff _].
    cbn [has_special] in Hq. apply orb_false_iff in Hq as [(Hl & Hq & Hc)%special_bytes Hf].
    cbn [String.append read_texts read_byte]. rewrite !char_eqb_false by done. by rewrite read_bare.
Qed.

Lemma read_fields fs f rs rest :
  read_texts (FieldStart fs) (Join (write_field <$> f :: rs) (String COMMA "") ++ String LF rest)
  = Some (fs ++ f :: rs) :: read_texts RecordStart rest.
Proof.
  revert fs f. induction rs as [|g rs IH]; intros fs f.
  - cbn [fmap list_fmap Join]. by rewrite read_field by auto.
  - rewrite !fmap_cons, Join_cons2, !string_app_assoc. cbn [String.append]. rewrite read_field by auto.
    rewrite <- fmap_cons. unfold field_end. rewrite Ascii.eqb_refl, IH. by rewrite <- app_assoc.
Qed.

(** A record that is not written as an empty line. *)
Definition writes_line (fs : list string) : Prop := match fs with [] => False | [f] => f <> EmptyString | _ => True end.

Lemma write_field_head f c s : write_field f = String c s -> c <> LF.
Proof.
  unfold write_field. destruct (fieldNeedsQuotes f) eqn:Hq; [by intros [= <- _]|].
  intros ->. unfold fieldNeedsQuotes in Hq. cbn [String.eqb negb andb] in Hq.
  apply orb_false_iff in Hq as [[_ Hq]%orb_false_iff _]. cbn [has_special] in Hq.
  by apply orb_false_iff in Hq as [(Hl & _ & _)%special_bytes _].
Qed.

Lemma RecordStart_field c s : c <> LF -> read_texts RecordStart (String c s) = read_texts (FieldStart []) (String c s).
Proof. intros Hc. cbn [read_texts read_byte]. by rewrite (char_eqb_false c LF). Qed.

Lemma read_record fs rest :
  writes_line fs -> read_texts RecordStart (write_record fs ++ rest) = Some fs :: read_texts RecordStart rest.
Proof.
  intros Hfs. unfold write_record. rewrite string_app_assoc. cbn [String.append].
  destruct fs as [|f rs]; [done|]. change (Some (f :: rs)) with (Some ([] ++ f :: rs)). rewrite <- (read_fields [] f rs rest).
  assert (Hhead : exists c s, (Join (write_field <$> f :: rs) (String COMMA "") ++ String LF rest)%string = String c s /\ c <> LF);
    [|destruct Hhead as (c & s & -> & Hc); by apply RecordStart_field].
  destruct (write_field f) as [|c s] eqn:Hf.
  - destruct rs as [|g rs].
    + simpl in Hfs. destruct f as [|c f]; [done|]. unfold write_field in Hf. by destruct (fieldNeedsQuotes _).
    + rewrite !fmap_cons, Join_cons2, Hf. by eexists _, _.
  - pose proof (write_field_head _ _ _ Hf).
    destruct rs; rewrite ?fmap_cons, ?Join_cons2; [cbn [fmap list_fmap Join]|]; rewrite Hf; by eexists _, _.
Qed.

Lemma read_records records :
  Forall writes_line records -> read_texts RecordStart (csv_write records) = Some <$> records.
Proof. induction 1 as [|r rs Hr _ IH]; [done|]. simpl. by rewrite read_record, IH. Qed.

(** Records of one length whose texts have no carriage return before a line
    feed are read as they were written. *)
Lemma csv_read_write header records :
  Forall writes_line (header :: records) -> Forall (Forall (fun f => crlf_free f = true)) (header :: records) ->
  Forall (fun r : list string => length r = length header) records ->
  (csv_read (csv_write (header :: records))).*2 = Some <$> header :: records.
Proof.
  intros Hl Hcr Hlen. unfold csv_read. rewrite normalize_csv_write by done.
  pose proof (read_loop_texts 1 1 RecordStart (csv_write (header :: records))) as Ht. rewrite read_records in Ht by done.
  destruct (read_loop _ _ _ _) as [|[l [h|]] rest]; [done| |done].
  cbn [fmap list_fmap snd] in Ht |- *. injection Ht as -> Ht. f_equal.
  revert rest Ht. clear -Hlen. induction Hlen as [|r rs Hr _ IH]; intros [|[l' o] rest]; try done.
  cbn [fmap list_fmap snd fst]. intros [= -> Ht]. f_equal; [|by apply IH].
  cbn [check_count]. by rewrite Hr, Nat.eqb_refl.
Qed.
