(* ===== verification/Export.v ===== *)
(** * The CSV export (importexport/columns.go, customfields_columns.go,
    encode.go)

    What is written for the items of a group: the header and one record per
    item, as lists of cells, framed into lines by the writer of [encoding/csv]
    ([Csv]).  [strconv.FormatFloat] and
    [strconv.ParseFloat] are parameters. *)

From S2P Require Import Prelude GoBase Schema Sql Strconv Escape Csv.
From Stdlib Require Import Strings.Ascii.

(** [FormatFloat(f, 'f', -1, 64)] and [ParseFloat(s, 64)].  The shortest
    decimal that [FormatFloat] chooses parses back to the same number. *)
Class FloatText := {
  FormatFloat : float64 -> string;
  ParseFloat : string -> option float64;
  FormatFloat_nonempty f : FormatFloat f <> EmptyString;
  ParseFloat_FormatFloat f : f <> SpecFloat.S754_nan ->
    exists f', ParseFloat (FormatFloat f) = Some f' /\ float64_eqb f f' = true;
}.

(** ** columns.go *)

Definition FixedColumns : list string :=
  ["id"; "name"; "description"; "quantity"; "location_path"; "location_id"; "short_code"; "labels";
   "identifications"; "attachments"; "warranty_holder"; "warranty_provider"; "warranty_starts_on";
   "warranty_expires_on"; "warranty_is_lifetime"; "warranty_notes"; "purchase_vendor"; "purchase_purchased_on";
   "purchase_price_minor"; "purchase_order_reference"; "purchase_notes"; "sale_buyer_name"; "sale_sold_on";
   "sale_price_minor"; "sale_notes"]%string.

(** [importexport.Row] *)
Record ExportRow := mkExportRow {
  er_Item : Item; er_LocationPath : string; er_Labels : list Label;
  er_Identifications : list Identification; er_Attachments : list Attachment;
  er_Warranty : option Warranty; er_Purchase : option Purchase; er_Sale : option Sale;
  er_CustomFields : list ItemCustomField }.

(** ** customfields_columns.go *)

Definition customFieldDefNameCounts (defs : list CustomFieldDef) : gmap string Z :=
  foldl (fun counts d => <[cfd_Name (Cols d) := (default 0 (counts !! cfd_Name (Cols d)) + 1)%Z]> counts) ∅ defs.

Definition customFieldDefHeader (def : CustomFieldDef) (nameCounts : gmap string Z) : string :=
  if (1 <? default 0 (nameCounts !! cfd_Name (Cols def)))%Z
  then cf_header (cfd_Name (Cols def)) (Some (ID def))
  else cf_header (cfd_Name (Cols def)) None.

Definition liveCustomFieldDefIDs (defs : list CustomFieldDef) : gset string := list_to_set (ID <$> defs).

Definition isAdHocCustomFieldValue (v : ItemCustomField) (liveDefIDs : gset string) : bool :=
  match icf_FieldDefID (Cols v) with
  | None => true
  | Some id => negb (bool_decide (id ∈ liveDefIDs))
  end.

Definition key_of (v : ItemCustomField) : adHocColumnKey := (icf_FieldType (Cols v), icf_Name (Cols v)).

(** The keys of the ad hoc values of all rows, each once, in order of type and
    name. *)
Definition adHocKeys (liveDefIDs : gset string) (rows : list ExportRow) : list adHocColumnKey :=
  remove_dups (key_of <$> (rows ≫= fun row =>
    List.filter (fun v => isAdHocCustomFieldValue v liveDefIDs) (er_CustomFields row))).

Definition collectAdHocColumns (liveDefIDs : gset string) (rows : list ExportRow) : list adHocColumnKey :=
  order_by asc2_leb (adHocKeys liveDefIDs rows).

(** ** encode.go *)

(** [nullString(v.Valid, v.String)] of this package. *)
Definition text_of (v : option string) : string := stringFromNull v.

Definition sortCustomFieldDefs (defs : list CustomFieldDef) : list CustomFieldDef :=
  order_by (fun a b => asc2_leb (cfd_Name (Cols a), ID a) (cfd_Name (Cols b), ID b)) defs.

Definition formatBool (b : bool) : string := if b then "true" else "false".

Definition joinNoFurtherEscape (values : list string) : string := Join values "|".

Definition encodeLabels (labels : list Label) : string :=
  match labels with [] => ""%string | _ => joinEscaped ((fun l => lbl_Name (Cols l)) <$> labels) "|"%char end.

Definition encodeIdentification (id : Identification) : string :=
  (EscapeSubValue (idn_Kind (Cols id)) ++ ":" ++ EscapeSubValue (idn_Value (Cols id)))%string.

Definition encodeIdentifications (ids : list Identification) : string :=
  match ids with [] => ""%string | _ => joinNoFurtherEscape (encodeIdentification <$> ids) end.

Definition encodeAttachment (a : Attachment) : string :=
  (EscapeSubValue (att_Category (Cols a)) ++ ":" ++ EscapeSubValue (att_OriginalFilename (Cols a)) ++ ":"
   ++ EscapeSubValue (att_Sha256 (Cols a)))%string.

Definition encodeAttachments (atts : list Attachment) : string :=
  match atts with [] => ""%string | _ => joinNoFurtherEscape (encodeAttachment <$> atts) end.

Definition warranty_cells (w : option Warranty) : list string :=
  match w with
  | Some w => [war_Holder (Cols w); war_Provider (Cols w); text_of (war_StartsOn (Cols w));
      text_of (war_ExpiresOn (Cols w)); formatBool (negb (war_IsLifetime (Cols w) =? 0)%Z); war_Notes (Cols w)]
  | None => [""; ""; ""; ""; ""; ""]%string
  end.

Definition purchase_cells (p : option Purchase) : list string :=
  match p with
  | Some p => [pur_Vendor (Cols p); text_of (pur_PurchasedOn (Cols p)); FormatInt (pur_PriceMinor (Cols p));
      pur_OrderReference (Cols p); pur_Notes (Cols p)]
  | None => [""; ""; ""; ""; ""]%string
  end.

Definition sale_cells (s : option Sale) : list string :=
  match s with
  | Some s => [sale_BuyerName (Cols s); text_of (sale_SoldOn (Cols s)); FormatInt (sale_PriceMinor (Cols s));
      sale_Notes (Cols s)]
  | None => [""; ""; ""; ""]%string
  end.

Definition fillFixedColumns (row : ExportRow) : list string :=
  let item := er_Item row in
  [ID item; item_Name (Cols item); item_Description (Cols item); FormatInt (item_Quantity (Cols item));
   er_LocationPath row; text_of (item_LocationID (Cols item)); item_ShortCode (Cols item);
   encodeLabels (er_Labels row); encodeIdentifications (er_Identifications row); encodeAttachments (er_Attachments row)]
  ++ warranty_cells (er_Warranty row) ++ purchase_cells (er_Purchase row) ++ sale_cells (er_Sale row).

Section encode.
Context `{FloatText}.

Definition customFieldCellValue (v : ItemCustomField) : string :=
  let c := Cols v in
  if icf_FieldType c =?s "text" then text_of (icf_TextValue c)
  else if icf_FieldType c =?s "number" then
    match icf_NumberValue c with None => ""%string | Some f => FormatFloat f end
  else if icf_FieldType c =?s "boolean" then
    match icf_BoolValue c with None => ""%string | Some b => formatBool (negb (b =? 0)%Z) end
  else if icf_FieldType c =?s "date" then text_of (icf_DateValue c)
  else ""%string.

(** Of several values of one definition the last is written. *)
Definition byDefID (values : list ItemCustomField) : gmap string ItemCustomField :=
  foldl (fun m v => match icf_FieldDefID (Cols v) with Some id => <[id := v]> m | None => m end) ∅ values.

Definition cell_of (o : option ItemCustomField) : string :=
  match o with Some v => customFieldCellValue v | None => ""%string end.

Definition fillCustomFieldColumns (sortedDefs : list CustomFieldDef) (values : list ItemCustomField) : list string :=
  (fun def => cell_of (byDefID values !! ID def)) <$> sortedDefs.

(** Of several ad hoc values of one type and name the first is written. *)
Definition insert_first {A} (k : adHocColumnKey) (v : A) (m : gmap adHocColumnKey A) : gmap adHocColumnKey A :=
  match m !! k with Some _ => m | None => <[k := v]> m end.

Definition byAdHocKey (liveDefIDs : gset string) (values : list ItemCustomField) :
    gmap adHocColumnKey ItemCustomField :=
  foldl (fun m v => if isAdHocCustomFieldValue v liveDefIDs then insert_first (key_of v) v m else m) ∅ values.

Definition fillAdHocCustomFieldColumns (adHocCols : list adHocColumnKey) (values : list ItemCustomField)
    (liveDefIDs : gset string) : list string :=
  (fun k => cell_of (byAdHocKey liveDefIDs values !! k)) <$> adHocCols.

(** The header, and the record of a row: what [EncodeCSV] passes to
    [csv.Writer.Write]. *)
Definition encode_header (defs : list CustomFieldDef) (rows : list ExportRow) : list string :=
  let sortedDefs := sortCustomFieldDefs defs in
  let nameCounts := customFieldDefNameCounts sortedDefs in
  let adHocCols := collectAdHocColumns (liveCustomFieldDefIDs sortedDefs) rows in
  FixedColumns ++ ((fun def => customFieldDefHeader def nameCounts) <$> sortedDefs)
    ++ (adHocColumnKey_header <$> adHocCols).

Definition encode_row (defs : list CustomFieldDef) (rows : list ExportRow) (row : ExportRow) : list string :=
  let sortedDefs := sortCustomFieldDefs defs in
  let liveDefIDs := liveCustomFieldDefIDs sortedDefs in
  let adHocCols := collectAdHocColumns liveDefIDs rows in
  fillFixedColumns row ++ fillCustomFieldColumns sortedDefs (er_CustomFields row)
    ++ fillAdHocCustomFieldColumns adHocCols (er_CustomFields row) liveDefIDs.

(** The text that is written. *)
Definition EncodeCSV (defs : list CustomFieldDef) (rows : list ExportRow) : string :=
  csv_write (encode_header defs rows :: (encode_row defs rows <$> rows)).
End encode.
