(* ===== verification/ImportParse.v ===== *)
(** * Reading an import (importexport/parse.go, parse_row.go,
    parse_validate.go, staged_row.go)

    From the cells of a file to staged rows.  Errors keep their column; the
    text of their message is not kept. *)

From S2P Require Import Prelude GoBase Schema Sql Strconv Escape Csv Export.
From Stdlib Require Import Strings.Ascii.

(** ** staged_row.go *)

Record RowError := mkRowError { re_Line : Z; re_Column : string }.

Inductive RowAction := RowActionUnknown | RowActionCreate | RowActionUpdate | RowActionError.

Record StagedIdentification := mkStagedIdentification { sid_Kind : string; sid_Value : string }.
Record StagedAttachmentRef := mkStagedAttachment {
  sat_Category : string; sat_OriginalFilename : string; sat_Sha256 : string }.
Record StagedWarranty := mkStagedWarranty {
  swa_Holder : string; swa_Provider : string; swa_StartsOn : string; swa_ExpiresOn : string;
  swa_IsLifetime : bool; swa_Notes : string }.
Record StagedPurchase := mkStagedPurchase {
  spu_Vendor : string; spu_PurchasedOn : string; spu_PurchasePriceMinor : Z; spu_OrderReference : string;
  spu_Notes : string }.
Record StagedSale := mkStagedSale {
  ssa_BuyerName : string; ssa_SoldOn : string; ssa_SalePriceMinor : Z; ssa_Notes : string }.

(** Of a staged [ItemCustomField] only the columns are set. *)
Record StagedRow := mkStagedRow {
  sr_Line : Z; sr_Action : RowAction; sr_Errors : list RowError; sr_SourceID : string; sr_ID : string;
  sr_Name : string; sr_Description : string; sr_Quantity : Z; sr_LocationID : option string;
  sr_ShortCode : string; sr_Labels : list string; sr_Identifications : list StagedIdentification;
  sr_Attachments : list StagedAttachmentRef; sr_Warranty : option StagedWarranty;
  sr_Purchase : option StagedPurchase; sr_Sale : option StagedSale; sr_CustomFields : list CustomFieldCols }.

(** ** parse_validate.go *)

Definition parseISODate (s : string) : bool :=
  if s =?s "" then true else
  match parse_date s with
  | Some t => format_date t =?s s
  | None => false
  end.

Definition parseBool (s : string) : option bool :=
  let s := ToLower s in
  if s =?s "true" then Some true else if s =?s "false" then Some false else None.

Definition parseQuantity (s : string) : option Z :=
  if s =?s "" then Some 0%Z else ParseInt s.

Definition parsePriceMinor (s : string) : option Z :=
  if s =?s "" then Some 0%Z else
  n ← ParseInt s; if (n <? 0)%Z then None else Some n.

(** ** parse.go: the header *)

Record dynamicColumn := mkDynamicColumn { dc_index : nat; dc_parsed : CustomFieldColumn; dc_header : string }.

Record headerLayout := mkLayout { fixedIdx : gmap string nat; dynCols : list dynamicColumn }.

(** The loop over the header from column [i] on; [seen] are the headers
    before. *)
Fixpoint layout_loop (header : list string) (i : nat) (seen : list string) (layout : headerLayout) :
    option headerLayout :=
  match header with
  | [] => Some layout
  | h :: header =>
      if bool_decide (h ∈ seen) then None else
      if bool_decide (h ∈ FixedColumns) then
        layout_loop header (S i) (h :: seen) (mkLayout (<[h := i]> (fixedIdx layout)) (dynCols layout))
      else
        match ParseCustomFieldColumn h with
        | None => None
        | Some col =>
            layout_loop header (S i) (h :: seen)
              (mkLayout (fixedIdx layout) (dynCols layout ++ [mkDynamicColumn i col h]))
        end
  end.

Definition parseHeaderLayout (header : list string) : option headerLayout :=
  layout ← layout_loop header 0 [] (mkLayout ∅ []);
  if forallb (fun c => match fixedIdx layout !! c with Some _ => true | None => false end) FixedColumns
  then Some layout else None.

(** ** parse_row.go *)

(** [rowFields.get] *)
Definition get_field (record : list string) (layout : headerLayout) (col : string) : string :=
  match fixedIdx layout !! col with
  | Some idx => default ""%string (record !! idx)
  | None => ""%string
  end.

(** A value, or the columns that are wrong about it. *)
Definition Checked (A : Type) : Type := A * list string.

Definition complain (c : bool) (col : string) : list string := if c then [col] else [].

(** One entry per label; empty ones are errors. *)
Definition parseLabels (cell : string) : Checked (list string) :=
  let names := UnescapeSubValue <$> SplitEscaped cell "|"%char in
  (List.filter (fun n => negb (n =?s "")) names,
   (fun _ => "labels"%string) <$> List.filter (fun n => n =?s "") names).

Definition parse_identification (rawPair : string) : option StagedIdentification * list string :=
  match SplitEscaped rawPair ":"%char with
  | [kind; value] =>
      let kind := UnescapeSubValue kind in
      let value := UnescapeSubValue value in
      let errs := complain (negb (bool_decide (kind ∈ identificationKinds))) "identifications"
                  ++ complain (value =?s "") "identifications" in
      (match errs with [] => Some (mkStagedIdentification kind value) | _ => None end, errs)
  | _ => (None, ["identifications"%string])
  end.

Definition parseIdentifications (cell : string) : Checked (list StagedIdentification) :=
  let parsed := parse_identification <$> SplitEscaped cell "|"%char in
  (omap fst parsed, parsed ≫= snd).

Definition parse_attachment (rawTriple : string) : option StagedAttachmentRef * list string :=
  match SplitEscaped rawTriple ":"%char with
  | [category; filename; sha] =>
      let category := UnescapeSubValue category in
      let filename := UnescapeSubValue filename in
      let sha := UnescapeSubValue sha in
      let errs := (if category =?s "" then ["attachments"%string]
                   else complain (negb (bool_decide (category ∈ attachmentCategories))) "attachments")
                  ++ complain (filename =?s "") "attachments" ++ complain (sha =?s "") "attachments" in
      (match errs with [] => Some (mkStagedAttachment category filename sha) | _ => None end, errs)
  | _ => (None, ["attachments"%string])
  end.

Definition parseAttachments (cell : string) : Checked (list StagedAttachmentRef) :=
  let parsed := parse_attachment <$> SplitEscaped cell "|"%char in
  (omap fst parsed, parsed ≫= snd).

Definition all_empty (cells : list string) : bool := forallb (fun c => c =?s "") cells.

Definition parseWarrantyBlock (get : string -> string) : Checked (option StagedWarranty) :=
  let holder := get "warranty_holder"%string in
  let provider := get "warranty_provider"%string in
  let startsOn := get "warranty_starts_on"%string in
  let expiresOn := get "warranty_expires_on"%string in
  let isLifetimeRaw := get "warranty_is_lifetime"%string in
  let notes := get "warranty_notes"%string in
  if all_empty [holder; provider; startsOn; expiresOn; isLifetimeRaw; notes] then (None, []) else
  let isLifetime := if isLifetimeRaw =?s "" then Some false else parseBool isLifetimeRaw in
  (Some (mkStagedWarranty holder provider startsOn expiresOn (default false isLifetime) notes),
   complain (negb (parseISODate startsOn)) "warranty_starts_on"
   ++ complain (negb (parseISODate expiresOn)) "warranty_expires_on"
   ++ complain (match isLifetime with None => true | _ => false end) "warranty_is_lifetime").

Definition parsePurchaseBlock (get : string -> string) : Checked (option StagedPurchase) :=
  let vendor := get "purchase_vendor"%string in
  let purchasedOn := get "purchase_purchased_on"%string in
  let priceRaw := get "purchase_price_minor"%string in
  let orderReference := get "purchase_order_reference"%string in
  let notes := get "purchase_notes"%string in
  if all_empty [vendor; purchasedOn; priceRaw; orderReference; notes] then (None, []) else
  let price := parsePriceMinor priceRaw in
  (Some (mkStagedPurchase vendor purchasedOn (default 0%Z price) orderReference notes),
   complain (negb (parseISODate purchasedOn)) "purchase_purchased_on"
   ++ complain (match price with None => true | _ => false end) "purchase_price_minor").

Definition parseSaleBlock (get : string -> string) : Checked (option StagedSale) :=
  let buyerName := get "sale_buyer_name"%string in
  let soldOn := get "sale_sold_on"%string in
  let priceRaw := get "sale_price_minor"%string in
  let notes := get "sale_notes"%string in
  if all_empty [buyerName; soldOn; priceRaw; notes] then (None, []) else
  let price := parsePriceMinor priceRaw in
  (Some (mkStagedSale buyerName soldOn (default 0%Z price) notes),
   complain (negb (parseISODate soldOn)) "sale_sold_on"
   ++ complain (match price with None => true | _ => false end) "sale_price_minor").

(** The definitions of the group, as [ParseCSV] indexes them. *)
Record DefIndex := mkDefIndex {
  defsByID : gmap string CustomFieldDef; defsByUniqueName : gmap string CustomFieldDef;
  defNameCounts : gmap string Z }.

Definition index_defs (defs : list CustomFieldDef) : DefIndex :=
  let counts := customFieldDefNameCounts defs in
  mkDefIndex (foldl (fun m d => <[ID d := d]> m) ∅ defs)
    (foldl (fun m d => if (default 0 (counts !! cfd_Name (Cols d)) =? 1)%Z then <[cfd_Name (Cols d) := d]> m else m)
       ∅ defs)
    counts.

(** The type, name and definition of the value in a column; [None] is an
    error. *)
Definition column_field (ix : DefIndex) (col : CustomFieldColumn) : option (string * string * option string) :=
  match col with
  | CustomFieldColumnAdHoc fieldType name =>
      if bool_decide (fieldType ∈ customFieldTypes) then Some (fieldType, name, None) else None
  | CustomFieldColumnDef name defID =>
      def ← (if negb (defID =?s "") then defsByID ix !! defID
             else if (1 <? default 0 (defNameCounts ix !! name))%Z then None
             else defsByUniqueName ix !! name);
      Some (cfd_FieldType (Cols def), cfd_Name (Cols def), nullString (ID def))
  end.

Section parse.
Context `{FloatText}.

(** The value of a cell, by type.  A type that is none of the four leaves the
    value columns unset. *)
Definition parse_cell (fieldDefID : option string) (name fieldType cell : string) : option CustomFieldCols :=
  let v := mkCustomField "" fieldDefID name fieldType in
  if fieldType =?s "text" then Some (v (Some cell) None None None)
  else if fieldType =?s "number" then n ← ParseFloat cell; Some (v None (Some n) None None)
  else if fieldType =?s "boolean" then b ← parseBool cell; Some (v None None (Some (if b : bool then 1 else 0)%Z) None)
  else if fieldType =?s "date" then
    if parseISODate cell then Some (v None None None (Some cell)) else None
  else Some (v None None None None).

Definition parse_dynamic (ix : DefIndex) (record : list string) (dc : dynamicColumn) :
    option CustomFieldCols * list string :=
  let cell := default ""%string (record !! dc_index dc) in
  if cell =?s "" then (None, []) else
  let v := '(fieldType, name, fieldDefID) ← column_field ix (dc_parsed dc);
           parse_cell fieldDefID name fieldType cell in
  (v, complain (match v with None => true | Some _ => false end) (dc_header dc)).

Definition parseCustomFields (ix : DefIndex) (record : list string) (dynCols : list dynamicColumn) :
    Checked (list CustomFieldCols) :=
  let parsed := parse_dynamic ix record <$> dynCols in
  (omap fst parsed, parsed ≫= snd).

Definition parseRow (line : Z) (record : list string) (layout : headerLayout)
    (existingItemIDs : gset string) (ix : DefIndex) : StagedRow :=
  let get := get_field record layout in
  let sourceID := get "id"%string in
  let name := get "name"%string in
  let quantity := parseQuantity (get "quantity"%string) in
  let '(labels, labelErrs) := parseLabels (get "labels"%string) in
  let '(identifications, idErrs) := parseIdentifications (get "identifications"%string) in
  let '(attachments, attErrs) := parseAttachments (get "attachments"%string) in
  let '(warranty, warrantyErrs) := parseWarrantyBlock get in
  let '(purchase, purchaseErrs) := parsePurchaseBlock get in
  let '(sale, saleErrs) := parseSaleBlock get in
  let '(customFields, cfErrs) := parseCustomFields ix record (dynCols layout) in
  let errs := complain (name =?s "") "name"
    ++ complain (match quantity with None => true | _ => false end) "quantity"
    ++ labelErrs ++ idErrs ++ attErrs ++ warrantyErrs ++ purchaseErrs ++ saleErrs ++ cfErrs in
  let row action id :=
    mkStagedRow line action (mkRowError line <$> errs) sourceID id name (get "description"%string)
      (default 0%Z quantity) (nullString (get "location_id"%string)) (get "short_code"%string)
      labels identifications attachments warranty purchase sale customFields in
  match errs with
  | _ :: _ => row RowActionError ""%string
  | [] =>
      if negb (sourceID =?s "") && bool_decide (sourceID ∈ existingItemIDs)
      then row RowActionUpdate sourceID
      else row RowActionCreate ""%string
  end.

(** The row of a line that is no CSV record. *)
Definition unreadable_row (line : Z) : StagedRow :=
  mkStagedRow line RowActionError [mkRowError line ""] "" "" "" "" 0 None "" [] [] [] None None None [].

(** [None] is an error for the whole file: it is empty or its header is not
    understood. *)
Definition ParseCSV (text : string) (existingItemIDs : gset string) (defs : list CustomFieldDef) :
    option (list StagedRow) :=
  match csv_read text with
  | (_, Some header) :: records =>
      layout ← parseHeaderLayout header;
      Some ((fun lr : Z * option (list string) =>
               match lr.2 with
               | Some record => parseRow lr.1 record layout existingItemIDs (index_defs defs)
               | None => unreadable_row lr.1
               end) <$> records)
  | _ => None
  end.
End parse.
