(* ===== verification/ImportDiff.v ===== *)
(** * What a staged row would change (importexport/diff.go)

    [DiffStagedRow] names the parts of an item that differ between the
    database and a staged row; the preview shows them, and the commit writes
    only those. *)

From S2P Require Import Prelude GoBase Schema Sql Strconv Escape Export ImportParse.
From Stdlib Require Import Strings.Ascii.

Definition labelsEqual (current : list Label) (proposed : list string) : bool :=
  bool_decide (list_to_set (C := gset string) ((fun l : Label => lbl_Name (Cols l)) <$> current)
               = list_to_set proposed).

(** [kind + "\x00" + value] *)
Definition kind_value (kind value : string) : string := (kind ++ String Ascii.zero value)%string.

Definition sortedStringsEqual (a b : list string) : bool :=
  bool_decide (order_by String.leb a = order_by String.leb b).

Definition identificationsEqual (current : list Identification) (proposed : list StagedIdentification) : bool :=
  (length current =? length proposed)%nat
  && sortedStringsEqual ((fun i : Identification => kind_value (idn_Kind (Cols i)) (idn_Value (Cols i))) <$> current)
       ((fun i => kind_value (sid_Kind i) (sid_Value i)) <$> proposed).

(** The structs compared with [!=]; the zero one when there is no block. *)
Definition warrantyFields : Type := string * string * string * string * bool * string.
Definition warrantyFieldsOf (w : option Warranty) : warrantyFields :=
  match w with
  | None => (""%string, ""%string, ""%string, ""%string, false, ""%string)
  | Some w => (war_Holder (Cols w), war_Provider (Cols w), text_of (war_StartsOn (Cols w)),
               text_of (war_ExpiresOn (Cols w)), negb (war_IsLifetime (Cols w) =? 0)%Z, war_Notes (Cols w))
  end.
Definition stagedWarrantyFieldsOf (w : option StagedWarranty) : warrantyFields :=
  match w with
  | None => (""%string, ""%string, ""%string, ""%string, false, ""%string)
  | Some w => (swa_Holder w, swa_Provider w, swa_StartsOn w, swa_ExpiresOn w, swa_IsLifetime w, swa_Notes w)
  end.

Definition purchaseFields : Type := string * string * Z * string * string.
Definition purchaseFieldsOf (p : option Purchase) : purchaseFields :=
  match p with
  | None => (""%string, ""%string, 0%Z, ""%string, ""%string)
  | Some p => (pur_Vendor (Cols p), text_of (pur_PurchasedOn (Cols p)), pur_PriceMinor (Cols p),
               pur_OrderReference (Cols p), pur_Notes (Cols p))
  end.
Definition stagedPurchaseFieldsOf (p : option StagedPurchase) : purchaseFields :=
  match p with
  | None => (""%string, ""%string, 0%Z, ""%string, ""%string)
  | Some p => (spu_Vendor p, spu_PurchasedOn p, spu_PurchasePriceMinor p, spu_OrderReference p, spu_Notes p)
  end.

Definition saleFields : Type := string * string * Z * string.
Definition saleFieldsOf (s : option Sale) : saleFields :=
  match s with
  | None => (""%string, ""%string, 0%Z, ""%string)
  | Some s => (sale_BuyerName (Cols s), text_of (sale_SoldOn (Cols s)), sale_PriceMinor (Cols s), sale_Notes (Cols s))
  end.
Definition stagedSaleFieldsOf (s : option StagedSale) : saleFields :=
  match s with
  | None => (""%string, ""%string, 0%Z, ""%string)
  | Some s => (ssa_BuyerName s, ssa_SoldOn s, ssa_SalePriceMinor s, ssa_Notes s)
  end.

Definition customFieldValueEqual (a b : CustomFieldCols) : bool :=
  (icf_FieldType a =?s icf_FieldType b) &&
  (if icf_FieldType a =?s "text" then text_of (icf_TextValue a) =?s text_of (icf_TextValue b)
   else if icf_FieldType a =?s "number" then
     match icf_NumberValue a, icf_NumberValue b with
     | Some x, Some y => float64_eqb x y
     | None, None => true
     | _, _ => false
     end
   else if icf_FieldType a =?s "boolean" then
     let truth v := match v with Some n => negb (n =? 0)%Z | None => false end in
     Bool.eqb (truth (icf_BoolValue a)) (truth (icf_BoolValue b))
   else if icf_FieldType a =?s "date" then text_of (icf_DateValue a) =?s text_of (icf_DateValue b)
   else true).

(** [curByDef], [curAdHoc], [propByDef] and [propAdHoc] *)
Definition current_by_def (liveDefIDs : gset string) (current : list ItemCustomField) : gmap string CustomFieldCols :=
  foldl (fun m v => if isAdHocCustomFieldValue v liveDefIDs then m
                    else <[stringFromNull (icf_FieldDefID (Cols v)) := Cols v]> m) ∅ current.
Definition current_ad_hoc (liveDefIDs : gset string) (current : list ItemCustomField) :
    gmap adHocColumnKey CustomFieldCols :=
  foldl (fun m v => if isAdHocCustomFieldValue v liveDefIDs then insert_first (key_of v) (Cols v) m else m) ∅ current.
Definition proposed_by_def (proposed : list CustomFieldCols) : gmap string CustomFieldCols :=
  foldl (fun m v => match icf_FieldDefID v with Some id => <[id := v]> m | None => m end) ∅ proposed.
Definition proposed_ad_hoc (proposed : list CustomFieldCols) : gmap adHocColumnKey CustomFieldCols :=
  foldl (fun m v => match icf_FieldDefID v with
                    | Some _ => m
                    | None => insert_first (icf_FieldType v, icf_Name v) v m
                    end) ∅ proposed.

(** Every value on the left has an equal one on the right. *)
Definition matched {K} `{Countable K} (cur prop : gmap K CustomFieldCols) : bool :=
  forallb (fun kv => match prop !! kv.1 with Some pv => customFieldValueEqual kv.2 pv | None => false end)
    (map_to_list cur).

Definition customFieldsEqual (current : list ItemCustomField) (proposed : list CustomFieldCols)
    (defs : list CustomFieldDef) : bool :=
  let liveDefIDs := liveCustomFieldDefIDs defs in
  let curByDef := current_by_def liveDefIDs current in
  let curAdHoc := current_ad_hoc liveDefIDs current in
  let propByDef := proposed_by_def proposed in
  let propAdHoc := proposed_ad_hoc proposed in
  (size curByDef =? size propByDef)%nat && (size curAdHoc =? size propAdHoc)%nat
  && matched curByDef propByDef && matched curAdHoc propAdHoc.

Definition differs (equal : bool) (field : string) : list string := if equal then [] else [field].

Definition DiffStagedRow (current : ExportRow) (proposed : StagedRow) (defs : list CustomFieldDef) : list string :=
  let item := Cols (er_Item current) in
  differs (item_Name item =?s sr_Name proposed) "name"
  ++ differs (item_Description item =?s sr_Description proposed) "description"
  ++ differs (item_Quantity item =? sr_Quantity proposed)%Z "quantity"
  ++ differs (text_of (item_LocationID item) =?s text_of (sr_LocationID proposed)) "location_id"
  ++ differs (labelsEqual (er_Labels current) (sr_Labels proposed)) "labels"
  ++ differs (identificationsEqual (er_Identifications current) (sr_Identifications proposed)) "identifications"
  ++ differs (bool_decide (warrantyFieldsOf (er_Warranty current) = stagedWarrantyFieldsOf (sr_Warranty proposed)))
       "warranty"
  ++ differs (bool_decide (purchaseFieldsOf (er_Purchase current) = stagedPurchaseFieldsOf (sr_Purchase proposed)))
       "purchase"
  ++ differs (bool_decide (saleFieldsOf (er_Sale current) = stagedSaleFieldsOf (sr_Sale proposed))) "sale"
  ++ differs (customFieldsEqual (er_CustomFields current) (sr_CustomFields proposed) defs) "custom_fields".
