(* ===== verification/Exchange.v ===== *)
(** * An export read back as an import

    Every cell that the export writes is read back to what it was written
    from, so that importing a file nobody touched changes nothing.

    [ParseCSV] on the text of [EncodeCSV]: what an export that nobody edited
    stages, and the text that does not survive. *)

From S2P Require Import Prelude GoBase Schema Sql Escape Strconv Csv Export ImportParse ImportDiff.
From Stdlib Require Import Strings.Ascii.

#[local] Arguments String.append !_ _ / : simpl nomatch.

(** ** Names of definitions *)

Definition occurrences (name : string) (defs : list CustomFieldDef) : list CustomFieldDef :=
  List.filter (fun d => cfd_Name (Cols d) =?s name) defs.

Lemma NameCounts_lookup defs name :
  default 0%Z (customFieldDefNameCounts defs !! name) = Z.of_nat (length (occurrences name defs)).
Proof.
  unfold customFieldDefNameCounts.
  assert (Hgen : forall m : gmap string Z, default 0%Z (foldl (fun counts (d : CustomFieldDef) =>
      <[cfd_Name (Cols d) := (default 0 (counts !! cfd_Name (Cols d)) + 1)%Z]> counts) m defs !! name)
    = (default 0 (m !! name) + Z.of_nat (length (occurrences name defs)))%Z); [|by rewrite Hgen].
  unfold occurrences. induction defs as [|d defs IH]; intros m; simpl; [lia|]. rewrite IH.
  destruct (String.eqb_spec (cfd_Name (Cols d)) name) as [<-|Hne].
  - rewrite lookup_insert_eq. simpl. lia.
  - rewrite lookup_insert_ne by done. lia.
Qed.

Lemma occurrences_Permutation name defs defs' :
  defs ≡ₚ defs' -> length (occurrences name defs) = length (occurrences name defs').
Proof.
  unfold occurrences. induction 1 as [|x l l' _ IH|x y l|l1 l2 l3 _ IH1 _ IH2]; simpl; [done| | |lia].
  - destruct (_ =?s _); simpl; lia.
  - repeat destruct (_ =?s _); simpl; lia.
Qed.

Lemma sortCustomFieldDefs_Permutation defs : sortCustomFieldDefs defs ≡ₚ defs.
Proof. apply order_by_Permutation. Qed.

(** A name that occurs once has one definition. *)
Lemma occurs_once name defs (d d' : CustomFieldDef) :
  (length (occurrences name defs) <= 1)%nat -> d ∈ defs -> d' ∈ defs ->
  cfd_Name (Cols d) = name -> cfd_Name (Cols d') = name -> d = d'.
Proof.
  intros Hlen Hd Hd' Hn Hn'.
  assert (Ho : d ∈ occurrences name defs) by (apply elem_of_filter_bool; split; [done|by apply string_eqb_true]).
  assert (Ho' : d' ∈ occurrences name defs) by (apply elem_of_filter_bool; split; [done|by apply string_eqb_true]).
  destruct (occurrences name defs) as [|x [|y l]]; [by apply elem_of_nil in Ho| |simpl in Hlen; lia].
  apply list_elem_of_singleton in Ho as ->. by apply list_elem_of_singleton in Ho' as ->.
Qed.

(** ** What the data must satisfy

    The checks of the repositories and of the schema, and that no value is
    stored empty. *)

Record def_ok (d : CustomFieldDef) : Prop := mkDefOk {
  def_named : cfd_Name (Cols d) <> ""%string;
  def_id : ID d <> ""%string;
  def_id_plain : contains_byte (ID d) "\"%char = false /\ contains_byte (ID d) "#"%char = false;
  def_typed : cfd_FieldType (Cols d) ∈ customFieldTypes;
}.

(** The value of the field's type is there and not empty. *)
Definition value_ok (v : ItemCustomField) : Prop :=
  let c := Cols v in
  (icf_FieldType c = "text"%string /\ exists t, icf_TextValue c = Some t /\ t <> ""%string) \/
  (icf_FieldType c = "number"%string /\ exists f, icf_NumberValue c = Some f /\ f <> SpecFloat.S754_nan) \/
  (icf_FieldType c = "boolean"%string /\ exists b, icf_BoolValue c = Some b) \/
  (icf_FieldType c = "date"%string /\ exists d, icf_DateValue c = Some d /\ d <> ""%string /\ parseISODate d = true).

(** A value of a definition has the definition's type. *)
Definition linked_ok (defs : list CustomFieldDef) (v : ItemCustomField) : Prop :=
  forall d, d ∈ defs -> icf_FieldDefID (Cols v) = Some (ID d) -> icf_FieldType (Cols v) = cfd_FieldType (Cols d).

Definition date_ok (d : option string) : Prop := parseISODate (text_of d) = true.
Definition price_ok (p : Z) : Prop := (0 <= p <= int64_max)%Z.

Record row_ok (defs : list CustomFieldDef) (row : ExportRow) : Prop := mkRowOk {
  ok_id : ID (er_Item row) <> ""%string;
  ok_name : item_Name (Cols (er_Item row)) <> ""%string;
  ok_quantity : (int64_min <= item_Quantity (Cols (er_Item row)) <= int64_max)%Z;
  ok_labels : Forall (fun l : Label => lbl_Name (Cols l) <> ""%string) (er_Labels row);
  ok_identifications : Forall (fun i : Identification =>
    idn_Kind (Cols i) ∈ identificationKinds /\ idn_Value (Cols i) <> ""%string) (er_Identifications row);
  ok_attachments : Forall (fun a : Attachment => att_Category (Cols a) ∈ attachmentCategories /\
    att_OriginalFilename (Cols a) <> ""%string /\ att_Sha256 (Cols a) <> ""%string) (er_Attachments row);
  ok_warranty : forall w, er_Warranty row = Some w -> date_ok (war_StartsOn (Cols w)) /\ date_ok (war_ExpiresOn (Cols w));
  ok_purchase : forall p, er_Purchase row = Some p -> date_ok (pur_PurchasedOn (Cols p)) /\ price_ok (pur_PriceMinor (Cols p));
  ok_sale : forall s, er_Sale row = Some s -> date_ok (sale_SoldOn (Cols s)) /\ price_ok (sale_PriceMinor (Cols s));
  ok_custom : Forall (fun v => value_ok v /\ linked_ok defs v) (er_CustomFields row);
}.

Lemma value_ok_type v : value_ok v -> icf_FieldType (Cols v) ∈ customFieldTypes.
Proof. unfold value_ok, customFieldTypes. rewrite !elem_of_cons. tauto. Qed.

(** ** The header *)

(** The column that a definition's header stands for. *)
Definition def_column (defs : list CustomFieldDef) (d : CustomFieldDef) : CustomFieldColumn :=
  CustomFieldColumnDef (cfd_Name (Cols d))
    (if (1 <? Z.of_nat (length (occurrences (cfd_Name (Cols d)) defs)))%Z then ID d else "").

Lemma Parse_customFieldDefHeader defs d :
  def_ok d ->
  ParseCustomFieldColumn (customFieldDefHeader d (customFieldDefNameCounts (sortCustomFieldDefs defs)))
  = Some (def_column defs d).
Proof.
  intros [Hn _ [Hb Hh] _]. unfold customFieldDefHeader, def_column.
  rewrite NameCounts_lookup, (occurrences_Permutation _ _ _ (sortCustomFieldDefs_Permutation defs)).
  destruct (1 <? _)%Z; [by apply ParseCustomFieldColumn_cf_header_id|by apply ParseCustomFieldColumn_cf_header].
Qed.

Lemma Parse_adHoc_header k :
  k.1 ∈ customFieldTypes -> ParseCustomFieldColumn (adHocColumnKey_header k) = Some (CustomFieldColumnAdHoc k.1 k.2).
Proof.
  intros Hk. apply ParseCustomFieldColumn_adHoc; unfold customFieldTypes in Hk;
    rewrite !elem_of_cons, elem_of_nil in Hk; by destruct Hk as [->|[->|[->|[->|[]]]]].
Qed.

Lemma fixed_not_custom h : h ∈ FixedColumns -> ParseCustomFieldColumn h = None.
Proof.
  assert (Hall : forallb (fun h => match ParseCustomFieldColumn h with None => true | _ => false end) FixedColumns = true)
    by reflexivity.
  rewrite forallb_true_iff in Hall. intros Hh. specialize (Hall h Hh). by destruct (ParseCustomFieldColumn h).
Qed.

(** The dynamic columns of a layout, for headers that parse. *)
Definition dynamic_columns (i : nat) (hs : list (string * CustomFieldColumn)) : list dynamicColumn :=
  imap (fun j hc => mkDynamicColumn (i + j) hc.2 hc.1) hs.

Lemma layout_loop_dynamic hs i seen fm dyn :
  NoDup hs.*2 -> Forall (fun hc => ParseCustomFieldColumn hc.1 = Some hc.2) hs ->
  (forall h c, ParseCustomFieldColumn h = Some c -> c ∈ hs.*2 -> h ∉ seen) ->
  layout_loop hs.*1 i seen (mkLayout fm dyn) = Some (mkLayout fm (dyn ++ dynamic_columns i hs)).
Proof.
  revert i seen dyn. induction hs as [|[h c] hs IH]; intros i seen dyn Hnd Hp Hseen; simpl.
  - unfold dynamic_columns. simpl. by rewrite app_nil_r.
  - apply Forall_cons in Hp as [Hh Hp]. simpl in *. apply NoDup_cons in Hnd as [Hc Hnd].
    rewrite bool_decide_eq_false_2 by (apply (Hseen h c Hh); by left).
    rewrite bool_decide_eq_false_2 by (intros Hf%fixed_not_custom; congruence).
    rewrite Hh, IH; [|done|done|].
    + unfold dynamic_columns. simpl. rewrite <- app_assoc, Nat.add_0_r. simpl. do 4 f_equal.
      apply imap_ext. intros j hc _. simpl. f_equal. lia.
    + intros h' c' Hh' Hc' [->|Hin]%elem_of_cons; [rewrite Hh in Hh'; by injection Hh' as ->|]. apply (Hseen h' c' Hh'); [by right|done].
Qed.

Definition fixed_map : gmap string nat := list_to_map (imap (fun i c => (c, i)) FixedColumns).

Lemma layout_loop_fixed hs :
  layout_loop (FixedColumns ++ hs) 0 [] (mkLayout ∅ []) = layout_loop hs 25 (rev FixedColumns) (mkLayout fixed_map []).
Proof. vm_compute. reflexivity. Qed.

Lemma parseHeaderLayout_dynamic hs :
  NoDup hs.*2 -> Forall (fun hc => ParseCustomFieldColumn hc.1 = Some hc.2) hs ->
  parseHeaderLayout (FixedColumns ++ hs.*1) = Some (mkLayout fixed_map (dynamic_columns 25 hs)).
Proof.
  intros Hnd Hp. unfold parseHeaderLayout. rewrite layout_loop_fixed, layout_loop_dynamic; [|done|done|].
  - cbn [mbind option_bind app].
    replace (forallb _ FixedColumns) with true; [done|]. symmetry. vm_compute. reflexivity.
  - intros h c Hh _ Hin. apply list_elem_of_In, in_rev, list_elem_of_In, fixed_not_custom in Hin. congruence.
Qed.

Definition export_columns (defs : list CustomFieldDef) (rows : list ExportRow) : list (string * CustomFieldColumn) :=
  let sorted := sortCustomFieldDefs defs in
  ((fun d => (customFieldDefHeader d (customFieldDefNameCounts sorted), def_column defs d)) <$> sorted)
  ++ ((fun k => (adHocColumnKey_header k, CustomFieldColumnAdHoc k.1 k.2))
        <$> collectAdHocColumns (liveCustomFieldDefIDs sorted) rows).

Lemma def_column_inj defs d d' :
  NoDup (ID <$> defs) -> d ∈ defs -> d' ∈ defs -> def_column defs d = def_column defs d' -> d = d'.
Proof.
  intros Hnd Hd Hd' [= Hn Hid]. rewrite <- Hn in Hid.
  destruct (Z.ltb_spec 1 (Z.of_nat (length (occurrences (cfd_Name (Cols d)) defs)))).
  - apply list_elem_of_lookup in Hd as [i Hi], Hd' as [j Hj].
    assert (i = j) as ->; [|congruence].
    apply (NoDup_lookup (ID <$> defs) i j (ID d) Hnd); rewrite list_lookup_fmap; [by rewrite Hi|by rewrite Hj, Hid].
  - eapply (occurs_once _ defs); [|done|done|reflexivity|done]. lia.
Qed.

Lemma NoDup_fmap_on {A B} (f : A -> B) (l : list A) :
  (forall x y, x ∈ l -> y ∈ l -> f x = f y -> x = y) -> NoDup l -> NoDup (f <$> l).
Proof.
  intros Hf. induction 1 as [|x l Hx Hl IH]; simpl; [constructor|]. constructor.
  - intros (y & Hy & Hyl)%list_elem_of_fmap. apply Hx. rewrite (Hf x y); [done|by left|by right|done].
  - apply IH. intros a b Ha Hb. apply Hf; by right.
Qed.

Lemma collectAdHocColumns_NoDup live rows : NoDup (collectAdHocColumns live rows).
Proof. unfold collectAdHocColumns, adHocKeys. rewrite order_by_Permutation. apply NoDup_remove_dups. Qed.

Lemma elem_of_collectAdHocColumns live rows k :
  k ∈ collectAdHocColumns live rows <->
  exists row v, row ∈ rows /\ v ∈ er_CustomFields row /\ isAdHocCustomFieldValue v live = true /\ key_of v = k.
Proof.
  unfold collectAdHocColumns, adHocKeys. rewrite elem_of_order_by, elem_of_remove_dups, list_elem_of_fmap.
  setoid_rewrite list_elem_of_bind. setoid_rewrite elem_of_filter_bool. naive_solver.
Qed.

Section header.
Context (defs : list CustomFieldDef) (rows : list ExportRow).
Hypothesis defs_nodup : NoDup (ID <$> defs).
Hypothesis defs_ok : Forall def_ok defs.
Hypothesis values_typed : Forall (fun row => Forall value_ok (er_CustomFields row)) rows.

Lemma export_columns_NoDup : NoDup (export_columns defs rows).*2.
Proof.
  unfold export_columns. rewrite fmap_app, <- !list_fmap_compose. apply NoDup_app. split_and!.
  - apply NoDup_fmap_on; [|rewrite sortCustomFieldDefs_Permutation; by apply (NoDup_fmap_1 ID)].
    intros x y. rewrite !sortCustomFieldDefs_Permutation. simpl. by apply def_column_inj.
  - intros c (d & -> & _)%list_elem_of_fmap (k & [=] & _)%list_elem_of_fmap.
  - apply NoDup_fmap_on; [|apply collectAdHocColumns_NoDup]. intros [] [] _ _. simpl. congruence.
Qed.

Lemma export_columns_parse :
  Forall (fun hc => ParseCustomFieldColumn hc.1 = Some hc.2) (export_columns defs rows).
Proof.
  apply Forall_app. split; apply Forall_fmap, Forall_forall.
  - intros d Hd. simpl. apply Parse_customFieldDefHeader. rewrite sortCustomFieldDefs_Permutation in Hd.
    by apply (proj1 (Forall_forall _ _) defs_ok).
  - intros k (row & v & Hrow & Hv & _ & <-)%elem_of_collectAdHocColumns. simpl.
    apply Parse_adHoc_header. simpl. apply value_ok_type.
    rewrite Forall_forall in values_typed. specialize (values_typed row Hrow). rewrite Forall_forall in values_typed.
    by apply values_typed.
Qed.

(** The header of an export is accepted, and its columns are found. *)
Lemma parseHeaderLayout_encode :
  parseHeaderLayout (encode_header defs rows)
  = Some (mkLayout fixed_map (dynamic_columns 25 (export_columns defs rows))).
Proof.
  assert (encode_header defs rows = FixedColumns ++ (export_columns defs rows).*1) as ->.
  { unfold encode_header, export_columns. cbv zeta. by rewrite fmap_app, <- !list_fmap_compose. }
  apply parseHeaderLayout_dynamic; [apply export_columns_NoDup|apply export_columns_parse].
Qed.
End header.

(** ** The fixed columns *)

Lemma get_fixed row more dyn c i :
  fixed_map !! c = Some i -> (i < 25)%nat ->
  get_field (fillFixedColumns row ++ more) (mkLayout fixed_map dyn) c = default ""%string (fillFixedColumns row !! i).
Proof.
  intros Hc Hi. unfold get_field. cbn [fixedIdx]. rewrite Hc. cbv iota. rewrite lookup_app_l; [reflexivity|].
  unfold fillFixedColumns, warranty_cells, purchase_cells, sale_cells.
  destruct (er_Warranty row), (er_Purchase row), (er_Sale row); simpl; lia.
Qed.

Lemma map_unescape_escape (l : list string) : UnescapeSubValue <$> (EscapeSubValue <$> l) = l.
Proof. induction l as [|s l IH]; [done|]. by rewrite !fmap_cons, UnescapeSubValue_EscapeSubValue, IH. Qed.

Lemma kept_all {A} (p : A -> bool) l : Forall (fun x => p x = true) l -> List.filter p l = l.
Proof. induction 1 as [|x l Hx _ IH]; simpl; [done|]. by rewrite Hx, IH. Qed.
Lemma kept_none {A} (p : A -> bool) l : Forall (fun x => p x = false) l -> List.filter p l = [].
Proof. induction 1 as [|x l Hx _ IH]; simpl; [done|]. by rewrite Hx, IH. Qed.

Lemma parseLabels_encode ls :
  Forall (fun l : Label => lbl_Name (Cols l) <> ""%string) ls ->
  parseLabels (encodeLabels ls) = ((fun l : Label => lbl_Name (Cols l)) <$> ls, []).
Proof.
  intros Hls. unfold parseLabels, encodeLabels. destruct ls as [|l ls]; [done|].
  rewrite SplitEscaped_Join, map_unescape_escape; [|done|done|].
  - rewrite kept_all, kept_none; [done|apply Forall_fmap..].
    + eapply Forall_impl; [exact Hls|]. intros x Hx. by apply string_eqb_false.
    + eapply Forall_impl; [exact Hls|]. intros x Hx. apply negb_true_iff. by apply string_eqb_false.
  - apply Forall_cons in Hls as [Hl _]. destruct ls; simpl; [|done]. congruence.
Qed.

(** A piece made of escaped parts and plain separators is not cut at another
    separator. *)
Definition uncut (sep : ascii) (p : string) : Prop :=
  forall piece rest, split_loop sep false piece (p ++ rest) = split_loop sep false (piece ++ p) rest.

Lemma uncut_escape sep s : contains_byte escapedChars sep = true -> uncut sep (EscapeSubValue s).
Proof. intros Hs piece rest. rewrite EscapeSubValue_loop. by apply split_escape_loop. Qed.

Lemma uncut_plain sep s : contains_byte s "\"%char = false -> contains_byte s sep = false -> uncut sep s.
Proof. intros Hb Hs piece rest. by apply split_plain. Qed.

Lemma uncut_app sep p q : uncut sep p -> uncut sep q -> uncut sep (p ++ q)%string.
Proof. intros Hp Hq piece rest. by rewrite string_app_assoc, Hp, Hq, string_app_assoc. Qed.

Lemma split_uncut sep ps :
  Ascii.eqb sep "\"%char = false -> ps <> [] -> Forall (uncut sep) ps ->
  split_loop sep false EmptyString (Join ps (String sep EmptyString)) = ps.
Proof.
  intros Hsep Hne Hps. induction Hps as [|p ps Hp Hps IH]; [done|]. destruct ps as [|p' ps].
  - simpl. rewrite <- (string_app_nil_r p) at 1. by rewrite Hp.
  - change (Join (p :: p' :: ps) (String sep EmptyString))
      with (p ++ String sep (Join (p' :: ps) (String sep EmptyString)))%string.
    rewrite Hp. cbn [split_loop String.append]. rewrite Hsep, Ascii.eqb_refl, IH by done. done.
Qed.

Lemma SplitEscaped_uncut sep ps :
  Ascii.eqb sep "\"%char = false -> ps <> [EmptyString] -> Forall (uncut sep) ps ->
  SplitEscaped (Join ps (String sep EmptyString)) sep = ps.
Proof.
  intros Hsep Hne Hps. unfold SplitEscaped. destruct (_ =?s EmptyString) eqn:E; bool_facts.
  - apply Join_empty in E as [->|?]; done.
  - apply split_uncut; [done| |done]. by intros ->.
Qed.

Ltac solve_uncut :=
  repeat apply uncut_app; first [by apply uncut_escape | by apply uncut_plain].

Lemma not_lone_empty (p : string) (ps : list string) : p <> EmptyString -> p :: ps <> [EmptyString].
Proof. congruence. Qed.

Lemma app_colon_nonempty (s t : string) : (s ++ String ":" t)%string <> EmptyString.
Proof. by destruct s. Qed.

(** Entries that are all read. *)
Lemma checked_all {A B C} (parse : B -> option C * list string) (enc : A -> B) (g : A -> C) (l : list A) :
  Forall (fun x => parse (enc x) = (Some (g x), [])) l ->
  omap fst (parse <$> (enc <$> l)) = g <$> l /\ (parse <$> (enc <$> l)) ≫= snd = [].
Proof.
  induction 1 as [|x l Hx _ [IH1 IH2]]; [done|]. rewrite !fmap_cons, Hx. split.
  - cbn [omap list_omap fst]. by f_equal.
  - cbn. exact IH2.
Qed.

Lemma parse_encodeIdentification i :
  idn_Kind (Cols i) ∈ identificationKinds -> idn_Value (Cols i) <> ""%string ->
  parse_identification (encodeIdentification i)
  = (Some (mkStagedIdentification (idn_Kind (Cols i)) (idn_Value (Cols i))), []).
Proof.
  intros Hk Hv. unfold parse_identification, encodeIdentification.
  change (_ ++ ":" ++ _)%string with (Join [EscapeSubValue (idn_Kind (Cols i)); EscapeSubValue (idn_Value (Cols i))] ":").
  rewrite SplitEscaped_uncut; [|done|done|repeat constructor; solve_uncut].
  rewrite !UnescapeSubValue_EscapeSubValue, bool_decide_eq_true_2 by done.
  by rewrite (proj2 (string_eqb_false _ _) Hv).
Qed.

Lemma parseIdentifications_encode ids :
  Forall (fun i : Identification => idn_Kind (Cols i) ∈ identificationKinds /\ idn_Value (Cols i) <> ""%string) ids ->
  parseIdentifications (encodeIdentifications ids)
  = ((fun i : Identification => mkStagedIdentification (idn_Kind (Cols i)) (idn_Value (Cols i))) <$> ids, []).
Proof.
  intros Hids. unfold parseIdentifications, encodeIdentifications, joinNoFurtherEscape.
  destruct ids as [|i0 ids0] eqn:E; [done|]. rewrite <- E in *.
  rewrite SplitEscaped_uncut; [|done| |].
  - clear E. destruct (checked_all parse_identification encodeIdentification
      (fun i => mkStagedIdentification (idn_Kind (Cols i)) (idn_Value (Cols i))) ids) as [-> ->]; [|done].
    eapply Forall_impl; [exact Hids|]. intros i [Hk Hv]. by apply parse_encodeIdentification.
  - subst ids. apply not_lone_empty, app_colon_nonempty.
  - apply Forall_fmap, Forall_forall. intros i _. unfold encodeIdentification, compose. solve_uncut.
Qed.

Lemma attachmentCategories_nonempty c : c ∈ attachmentCategories -> c <> ""%string.
Proof. unfold attachmentCategories. rewrite !elem_of_cons, elem_of_nil. naive_solver. Qed.

Lemma parse_encodeAttachment a :
  att_Category (Cols a) ∈ attachmentCategories -> att_OriginalFilename (Cols a) <> ""%string ->
  att_Sha256 (Cols a) <> ""%string ->
  parse_attachment (encodeAttachment a)
  = (Some (mkStagedAttachment (att_Category (Cols a)) (att_OriginalFilename (Cols a)) (att_Sha256 (Cols a))), []).
Proof.
  intros Hc Hf Hs. unfold parse_attachment, encodeAttachment.
  change (_ ++ ":" ++ _ ++ ":" ++ _)%string with (Join [EscapeSubValue (att_Category (Cols a));
    EscapeSubValue (att_OriginalFilename (Cols a)); EscapeSubValue (att_Sha256 (Cols a))] ":").
  rewrite SplitEscaped_uncut; [|done|done|repeat constructor; solve_uncut].
  rewrite !UnescapeSubValue_EscapeSubValue, bool_decide_eq_true_2 by done.
  pose proof (attachmentCategories_nonempty _ Hc) as Hc'. by rewrite !(proj2 (string_eqb_false _ _)) by done.
Qed.

Lemma parseAttachments_encode atts :
  Forall (fun a : Attachment => att_Category (Cols a) ∈ attachmentCategories /\
    att_OriginalFilename (Cols a) <> ""%string /\ att_Sha256 (Cols a) <> ""%string) atts ->
  (parseAttachments (encodeAttachments atts)).2 = [].
Proof.
  intros Hatts. unfold parseAttachments, encodeAttachments, joinNoFurtherEscape.
  destruct atts as [|a0 atts0] eqn:E; [done|]. rewrite <- E in *.
  rewrite SplitEscaped_uncut; [|done| |].
  - clear E. apply (checked_all parse_attachment encodeAttachment (fun a => mkStagedAttachment
      (att_Category (Cols a)) (att_OriginalFilename (Cols a)) (att_Sha256 (Cols a))) atts).
    eapply Forall_impl; [exact Hatts|]. intros a (Hc & Hf & Hs). by apply parse_encodeAttachment.
  - subst atts. apply not_lone_empty, app_colon_nonempty.
  - apply Forall_fmap, Forall_forall. intros a _. unfold encodeAttachment, compose. solve_uncut.
Qed.

(** ** The blocks *)

Lemma parsePriceMinor_FormatInt p : price_ok p -> parsePriceMinor (FormatInt p) = Some p.
Proof.
  intros [Hp Hm]. unfold parsePriceMinor. rewrite (proj2 (string_eqb_false _ _) (FormatInt_nonempty p)).
  rewrite ParseInt_FormatInt by (unfold int64_min, int64_max in *; lia). simpl.
  destruct (Z.ltb_spec p 0); [lia|done].
Qed.

Lemma parseBool_formatBool b : parseBool (formatBool b) = Some b.
Proof. by destruct b. Qed.

Lemma formatBool_nonempty b : (formatBool b =?s "") = false.
Proof. by destruct b. Qed.

Section blocks.
Context (get : string -> string).

Lemma parseWarrantyBlock_encode w :
  (forall w', w = Some w' -> date_ok (war_StartsOn (Cols w')) /\ date_ok (war_ExpiresOn (Cols w'))) ->
  [get "warranty_holder"; get "warranty_provider"; get "warranty_starts_on"; get "warranty_expires_on";
   get "warranty_is_lifetime"; get "warranty_notes"]%string = warranty_cells w ->
  (parseWarrantyBlock get).2 = [] /\ stagedWarrantyFieldsOf (parseWarrantyBlock get).1 = warrantyFieldsOf w.
Proof.
  intros Hok. unfold parseWarrantyBlock, warranty_cells. destruct w as [w|]; intros [= -> -> -> -> -> ->]; [|done].
  destruct (Hok w eq_refl) as [Hs He]. unfold date_ok in *. unfold all_empty. cbn [forallb].
  rewrite formatBool_nonempty, parseBool_formatBool, !andb_false_r, Hs, He. done.
Qed.

Lemma parsePurchaseBlock_encode p :
  (forall p', p = Some p' -> date_ok (pur_PurchasedOn (Cols p')) /\ price_ok (pur_PriceMinor (Cols p'))) ->
  [get "purchase_vendor"; get "purchase_purchased_on"; get "purchase_price_minor"; get "purchase_order_reference";
   get "purchase_notes"]%string = purchase_cells p ->
  (parsePurchaseBlock get).2 = [] /\ stagedPurchaseFieldsOf (parsePurchaseBlock get).1 = purchaseFieldsOf p.
Proof.
  intros Hok. unfold parsePurchaseBlock, purchase_cells. destruct p as [p|]; intros [= -> -> -> -> ->]; [|done].
  destruct (Hok p eq_refl) as [Hd Hp]. unfold date_ok in *. unfold all_empty. cbn [forallb].
  rewrite (proj2 (string_eqb_false _ _) (FormatInt_nonempty _)), !andb_false_r, Hd, parsePriceMinor_FormatInt by done.
  done.
Qed.

Lemma parseSaleBlock_encode s :
  (forall s', s = Some s' -> date_ok (sale_SoldOn (Cols s')) /\ price_ok (sale_PriceMinor (Cols s'))) ->
  [get "sale_buyer_name"; get "sale_sold_on"; get "sale_price_minor"; get "sale_notes"]%string = sale_cells s ->
  (parseSaleBlock get).2 = [] /\ stagedSaleFieldsOf (parseSaleBlock get).1 = saleFieldsOf s.
Proof.
  intros Hok. unfold parseSaleBlock, sale_cells. destruct s as [s|]; intros [= -> -> -> ->]; [|done].
  destruct (Hok s eq_refl) as [Hd Hp]. unfold date_ok in *. unfold all_empty. cbn [forallb].
  rewrite (proj2 (string_eqb_false _ _) (FormatInt_nonempty _)), !andb_false_r, Hd, parsePriceMinor_FormatInt by done.
  done.
Qed.
End blocks.

(** ** Maps filled by a loop

    [upd] writes a key that is not there yet: the plain assignment, and the
    one that keeps the first value. *)

Lemma foldl_same {A B} (f g : A -> B -> A) m l : (forall m x, f m x = g m x) -> foldl f m l = foldl g m l.
Proof. intros Hfg. revert m. induction l as [|x l IH]; intros m; simpl; [done|]. by rewrite Hfg, IH. Qed.

Section fill.
Context {X K V : Type} `{Countable K}.
Context (upd : K -> V -> gmap K V -> gmap K V) (ky : V -> option K) (st : X -> option V) (idx : X -> option K).
Hypothesis upd_same : forall k v m, m !! k = None -> upd k v m !! k = Some v.
Hypothesis upd_other : forall k k' v m, k <> k' -> upd k v m !! k' = m !! k'.

Definition fill (m0 : gmap K V) (l : list V) : gmap K V :=
  foldl (fun m v => match ky v with Some k => upd k v m | None => m end) m0 l.

Lemma fill_none xs m0 k :
  (forall x v, x ∈ xs -> st x = Some v -> ky v = idx x) ->
  (forall x, x ∈ xs -> idx x = Some k -> st x = None) -> fill m0 (omap st xs) !! k = m0 !! k.
Proof.
  revert m0. induction xs as [|x xs IH]; intros m0 st_key Hx; [done|]. cbn [omap list_omap].
  assert (Hk : forall y v, y ∈ xs -> st y = Some v -> ky v = idx y) by (intros; apply st_key; [by right|done]).
  assert (Htail : forall y, y ∈ xs -> idx y = Some k -> st y = None) by (intros; apply Hx; [by right|done]).
  destruct (st x) as [v|] eqn:Est; [|by apply IH].
  change (fill m0 (v :: omap st xs)) with (fill (match ky v with Some k => upd k v m0 | None => m0 end) (omap st xs)).
  rewrite (IH _ Hk Htail), (st_key x v ltac:(by left) Est). destruct (idx x) as [k'|] eqn:Ek; [|done]. apply upd_other. intros ->.
  rewrite (Hx x) in Est; [done|by left|done].
Qed.

Lemma fill_some xs m0 x k v :
  (forall x v, x ∈ xs -> st x = Some v -> ky v = idx x) ->
  (forall y, y ∈ xs -> idx y = Some k -> y = x) -> NoDup xs -> m0 !! k = None ->
  x ∈ xs -> idx x = Some k -> st x = Some v -> fill m0 (omap st xs) !! k = Some v.
Proof.
  revert m0. induction xs as [|y xs IH]; intros m0 st_key Huniq Hnd Hm Hin Hk Hst; [by apply elem_of_nil in Hin|].
  apply NoDup_cons in Hnd as [Hy Hnd]. cbn [omap list_omap].
  assert (Hkt : forall z v, z ∈ xs -> st z = Some v -> ky v = idx z) by (intros; apply st_key; [by right|done]).
  assert (Htail : forall z, z ∈ xs -> idx z = Some k -> z = x) by (intros; apply Huniq; [by right|done]).
  apply elem_of_cons in Hin as [<-|Hin].
  - rewrite Hst.
    change (fill m0 (v :: omap st xs)) with (fill (match ky v with Some k => upd k v m0 | None => m0 end) (omap st xs)).
    rewrite (st_key _ _ ltac:(by left) Hst), Hk, fill_none; [by apply upd_same|done|].
    intros z Hz Hzk. rewrite (Htail z Hz Hzk) in Hz. done.
  - destruct (st y) as [u|] eqn:Est; [|by apply IH].
    change (fill m0 (u :: omap st xs)) with (fill (match ky u with Some k => upd k u m0 | None => m0 end) (omap st xs)).
    apply IH; try done. rewrite (st_key _ _ ltac:(by left) Est). destruct (idx y) as [k'|] eqn:Ek; [|done].
    rewrite upd_other; [done|]. intros ->. rewrite (Huniq y) in Hy; [done|by left|done].
Qed.
End fill.

Lemma insert_first_same {A} k (v : A) m : m !! k = None -> insert_first k v m !! k = Some v.
Proof. unfold insert_first. intros ->. by rewrite lookup_insert_eq. Qed.
Lemma insert_first_other {A} k k' (v : A) m : k <> k' -> insert_first k v m !! k' = m !! k'.
Proof. unfold insert_first. intros Hne. destruct (m !! k); [done|]. by rewrite lookup_insert_ne. Qed.

(** ** The index of the definitions *)

Section index.
Context (defs : list CustomFieldDef).
Hypothesis defs_nodup : NoDup (ID <$> defs).
Hypothesis defs_ok : Forall def_ok defs.

Lemma same_id d d' : d ∈ defs -> d' ∈ defs -> ID d = ID d' -> d = d'.
Proof.
  intros [i Hi]%list_elem_of_lookup [j Hj]%list_elem_of_lookup Hid. assert (i = j) as ->; [|congruence].
  apply (NoDup_lookup (ID <$> defs) i j (ID d) defs_nodup); rewrite list_lookup_fmap; [by rewrite Hi|by rewrite Hj, Hid].
Qed.

Lemma omap_Some {A} (l : list A) : omap Some l = l.
Proof. induction l as [|x l IH]; [done|]. cbn [omap list_omap]. by f_equal. Qed.

Lemma defsByID_lookup d : d ∈ defs -> defsByID (index_defs defs) !! ID d = Some d.
Proof.
  intros Hd. unfold index_defs. cbn [defsByID].
  change (fill (fun k v m => <[k:=v]> m) (fun d : CustomFieldDef => Some (ID d)) ∅ defs !! ID d = Some d).
  rewrite <- (omap_Some defs).
  apply (fill_some _ _ Some (fun d : CustomFieldDef => Some (ID d))) with (x := d); try done.
  - intros. by rewrite lookup_insert_eq.
  - intros. by rewrite lookup_insert_ne.
  - by intros x v _ [= ->].
  - intros y Hy [= Heq]. by apply same_id.
  - by apply (NoDup_fmap_1 ID).
Qed.

Definition unique_name (d : CustomFieldDef) : option string :=
  if (default 0 (customFieldDefNameCounts defs !! cfd_Name (Cols d)) =? 1)%Z then Some (cfd_Name (Cols d)) else None.

Lemma defsByUniqueName_lookup d :
  d ∈ defs -> (length (occurrences (cfd_Name (Cols d)) defs) <= 1)%nat ->
  defsByUniqueName (index_defs defs) !! cfd_Name (Cols d) = Some d.
Proof.
  intros Hd Hlen. unfold index_defs. cbn [defsByUniqueName].
  assert (Hcount : (default 0 (customFieldDefNameCounts defs !! cfd_Name (Cols d)) =? 1)%Z = true).
  { rewrite NameCounts_lookup. apply Z.eqb_eq.
    assert (Ho : d ∈ occurrences (cfd_Name (Cols d)) defs) by (apply elem_of_filter_bool; by rewrite string_eqb_refl).
    destruct (occurrences (cfd_Name (Cols d)) defs) as [|x [|y l]]; [by apply elem_of_nil in Ho|done|simpl in Hlen; lia]. }
  transitivity (fill (fun k v m => <[k:=v]> m) unique_name ∅ (omap Some defs) !! cfd_Name (Cols d)).
  { rewrite omap_Some. unfold fill, unique_name. apply (f_equal (lookup (cfd_Name (Cols d)))), foldl_same. intros m x.
    by destruct (default 0 (customFieldDefNameCounts defs !! cfd_Name (Cols x)) =? 1)%Z. }
  apply (fill_some _ _ Some unique_name) with (x := d); try done.
  - intros. by rewrite lookup_insert_eq.
  - intros. by rewrite lookup_insert_ne.
  - by intros x v _ [= ->].
  - intros y Hy Heq. unfold unique_name in Heq. case_match; [|done]. injection Heq as Heq.
    by apply (occurs_once (cfd_Name (Cols d)) defs).
  - by apply (NoDup_fmap_1 ID).
  - unfold unique_name. by rewrite Hcount.
Qed.

Lemma column_field_def d :
  d ∈ defs -> column_field (index_defs defs) (def_column defs d)
  = Some (cfd_FieldType (Cols d), cfd_Name (Cols d), Some (ID d)).
Proof.
  intros Hd. assert (Hid : ID d <> ""%string) by (apply def_id; by apply (proj1 (Forall_forall _ _) defs_ok)).
  unfold column_field, def_column. destruct (Z.ltb_spec 1 (Z.of_nat (length (occurrences (cfd_Name (Cols d)) defs)))).
  - rewrite (proj2 (string_eqb_false _ _) Hid). simpl negb. cbv iota. rewrite defsByID_lookup by done.
    cbn [mbind option_bind]. unfold nullString. by rewrite (proj2 (string_eqb_false _ _) Hid).
  - simpl. rewrite NameCounts_lookup. destruct (Z.ltb_spec 1 (Z.of_nat (length (occurrences (cfd_Name (Cols d)) defs)))); [lia|].
    rewrite defsByUniqueName_lookup by (done || lia). cbn [mbind option_bind]. unfold nullString.
    by rewrite (proj2 (string_eqb_false _ _) Hid).
Qed.
End index.

(** ** One custom field column *)

Section cell.
Context `{FloatText}.

(** [parse_dynamic] on the cell itself. *)
Definition parse_dyn_cell (ix : DefIndex) (hc : string * CustomFieldColumn) (cell : string) :
    option CustomFieldCols * list string :=
  if cell =?s "" then (None, []) else
  let v := '(fieldType, name, fieldDefID) ← column_field ix hc.2; parse_cell fieldDefID name fieldType cell in
  (v, complain (match v with None => true | Some _ => false end) hc.1).

Lemma parse_dynamic_cells {X} ix (pre : list string) (hc : X -> string * CustomFieldColumn) (cell : X -> string) xs :
  parse_dynamic ix (pre ++ (cell <$> xs)) <$> dynamic_columns (length pre) (hc <$> xs)
  = (fun x => parse_dyn_cell ix (hc x) (cell x)) <$> xs.
Proof.
  revert pre. induction xs as [|x xs IH]; intros pre; [done|]. rewrite !fmap_cons. unfold dynamic_columns. simpl imap.
  rewrite fmap_cons. f_equal.
  - unfold parse_dynamic, parse_dyn_cell. cbn [dc_index dc_parsed dc_header].
    rewrite Nat.add_0_r, list_lookup_middle by done. done.
  - specialize (IH (pre ++ [cell x])). rewrite <- app_assoc, length_app in IH. simpl in IH.
    etransitivity; [|exact IH]. f_equal. unfold dynamic_columns. apply imap_ext. intros j y _. simpl. f_equal. lia.
Qed.

(** The cell of a value is not empty, and is read back as an equal value. *)
Lemma customFieldCellValue_parse v fid name :
  value_ok v -> exists pv, customFieldCellValue v <> ""%string /\
    parse_cell fid name (icf_FieldType (Cols v)) (customFieldCellValue v) = Some pv /\
    icf_FieldDefID pv = fid /\ icf_FieldType pv = icf_FieldType (Cols v) /\ icf_Name pv = name /\
    customFieldValueEqual (Cols v) pv = true.
Proof.
  unfold value_ok, customFieldCellValue, parse_cell, customFieldValueEqual.
  intros [(-> & t & -> & Ht)|[(-> & f & -> & Hf)|[(-> & b & ->)|(-> & d & -> & Hd & Hiso)]]]; simpl.
  - eexists. split_and!; [done|done|done|done|done|]. simpl. apply string_eqb_refl.
  - destruct (ParseFloat_FormatFloat f Hf) as (f' & Hp & Heq). rewrite Hp.
    eexists. split_and!; [apply FormatFloat_nonempty|done|done|done|done|]. done.
  - rewrite parseBool_formatBool. eexists. split_and!; [by destruct (negb _)|done|done|done|done|].
    simpl. by destruct (b =? 0)%Z.
  - unfold text_of in *. simpl in *. rewrite Hiso. eexists. split_and!; [done|done|done|done|done|]. simpl. apply string_eqb_refl.
Qed.
End cell.

(** ** The values that are written *)

Lemma foldl_invariant {A B} (P : A -> Prop) (f : A -> B -> A) (l : list B) m :
  P m -> (forall m x, x ∈ l -> P m -> P (f m x)) -> P (foldl f m l).
Proof.
  revert m. induction l as [|x l IH]; intros m Hm Hf; simpl; [done|].
  apply IH; [apply Hf; [by left|done]|]. intros m' y Hy. apply Hf. by right.
Qed.

Lemma byDefID_lookup values id v :
  byDefID values !! id = Some v -> v ∈ values /\ icf_FieldDefID (Cols v) = Some id.
Proof.
  unfold byDefID. revert id v.
  apply (foldl_invariant (fun m : gmap string ItemCustomField =>
    forall id v, m !! id = Some v -> v ∈ values /\ icf_FieldDefID (Cols v) = Some id)).
  - intros id v. by rewrite lookup_empty.
  - intros m x Hx Hm id v. destruct (icf_FieldDefID (Cols x)) as [i|] eqn:E; [|apply Hm].
    destruct (decide (i = id)) as [->|]; [|rewrite lookup_insert_ne by done; apply Hm].
    rewrite lookup_insert_eq. by intros [= <-].
Qed.

Lemma byAdHocKey_lookup live values k v :
  byAdHocKey live values !! k = Some v ->
  v ∈ values /\ isAdHocCustomFieldValue v live = true /\ key_of v = k.
Proof.
  unfold byAdHocKey. revert k v.
  apply (foldl_invariant (fun m : gmap adHocColumnKey ItemCustomField =>
    forall k v, m !! k = Some v -> v ∈ values /\ isAdHocCustomFieldValue v live = true /\ key_of v = k)).
  - intros k v. by rewrite lookup_empty.
  - intros m x Hx Hm k v. destruct (isAdHocCustomFieldValue x live) eqn:E; [|apply Hm].
    destruct (decide (key_of x = k)) as [Hk|]; [|rewrite insert_first_other by done; apply Hm].
    unfold insert_first. destruct (m !! key_of x) eqn:Em; [apply Hm|].
    rewrite Hk, lookup_insert_eq. by intros [= <-].
Qed.

Lemma current_by_def_lookup live values id :
  current_by_def live values !! id = if decide (id ∈ live) then Cols <$> byDefID values !! id else None.
Proof.
  unfold current_by_def, byDefID.
  assert (Hgen : forall (m1 : gmap string CustomFieldCols) (m2 : gmap string ItemCustomField),
    (forall id, m1 !! id = if decide (id ∈ live) then Cols <$> m2 !! id else None) ->
    foldl (fun m (v : ItemCustomField) => if isAdHocCustomFieldValue v live then m
                    else <[stringFromNull (icf_FieldDefID (Cols v)) := Cols v]> m) m1 values !! id
    = if decide (id ∈ live)
      then Cols <$> foldl (fun m (v : ItemCustomField) =>
             match icf_FieldDefID (Cols v) with Some id => <[id := v]> m | None => m end) m2 values !! id
      else None).
  2:{ apply Hgen. clear Hgen. intros i. rewrite !lookup_empty. by case_decide. }
  induction values as [|v values IH]; intros m1 m2 Hm; simpl; [apply Hm|]. apply IH. intros i.
  unfold isAdHocCustomFieldValue. destruct (icf_FieldDefID (Cols v)) as [j|]; simpl; [|apply Hm].
  destruct (decide (j ∈ live)) as [Hj|Hj].
  - rewrite bool_decide_eq_true_2 by done. simpl. destruct (decide (j = i)) as [->|].
    + rewrite !lookup_insert_eq. by rewrite decide_True by done.
    + rewrite !lookup_insert_ne by done. apply Hm.
  - rewrite bool_decide_eq_false_2 by done. simpl. rewrite Hm. destruct (decide (i ∈ live)); [|done].
    by rewrite lookup_insert_ne by congruence.
Qed.

Lemma current_ad_hoc_lookup live values k :
  current_ad_hoc live values !! k = Cols <$> byAdHocKey live values !! k.
Proof.
  unfold current_ad_hoc, byAdHocKey. rewrite <- lookup_fmap. revert k.
  assert (Hgen : forall (m1 : gmap adHocColumnKey CustomFieldCols) (m2 : gmap adHocColumnKey ItemCustomField),
    (forall k, m1 !! k = Cols <$> m2 !! k) -> forall k,
    foldl (fun m (v : ItemCustomField) => if isAdHocCustomFieldValue v live then insert_first (key_of v) (Cols v) m else m)
      m1 values !! k
    = (Cols <$> foldl (fun m (v : ItemCustomField) =>
         if isAdHocCustomFieldValue v live then insert_first (key_of v) v m else m) m2 values) !! k).
  { induction values as [|v values IH]; intros m1 m2 Hm k; simpl; [by rewrite lookup_fmap|]. apply IH. intros j.
    destruct (isAdHocCustomFieldValue v live); [|apply Hm]. unfold insert_first. rewrite Hm.
    destruct (m2 !! key_of v) eqn:E; simpl; [apply Hm|].
    destruct (decide (key_of v = j)) as [<-|]; [by rewrite !lookup_insert_eq|by rewrite !lookup_insert_ne by done]. }
  intros k. apply Hgen. intros j. by rewrite !lookup_empty.
Qed.

(** Two maps with equal values under the same keys. *)
Lemma matched_lookup {K} `{Countable K} (cur prop : gmap K CustomFieldCols) :
  (forall k, match cur !! k, prop !! k with
             | Some c, Some p => customFieldValueEqual c p = true
             | None, None => True
             | _, _ => False
             end) ->
  size cur = size prop /\ matched cur prop = true.
Proof.
  intros Hk. split.
  - rewrite <- (size_dom (D := gset K) cur), <- (size_dom (D := gset K) prop). f_equal. apply set_eq. intros k.
    rewrite !elem_of_dom. specialize (Hk k). unfold is_Some. destruct (cur !! k), (prop !! k); naive_solver.
  - unfold matched. apply forallb_true_iff. intros [k c] Hin%elem_of_map_to_list. specialize (Hk k). simpl.
    rewrite Hin in Hk. by destruct (prop !! k).
Qed.

(** ** The custom fields of a row *)

Lemma live_ids_sorted defs : liveCustomFieldDefIDs (sortCustomFieldDefs defs) = liveCustomFieldDefIDs defs.
Proof.
  unfold liveCustomFieldDefIDs. apply set_eq. intros id. rewrite !elem_of_list_to_set.
  by rewrite (sortCustomFieldDefs_Permutation defs).
Qed.

Section custom.
Context `{FloatText} (defs : list CustomFieldDef) (rows : list ExportRow) (row : ExportRow).
Hypothesis defs_nodup : NoDup (ID <$> defs).
Hypothesis defs_ok : Forall def_ok defs.
Hypothesis row_in : row ∈ rows.
Hypothesis values_ok : Forall (fun v => value_ok v /\ linked_ok defs v) (er_CustomFields row).
Hypothesis values_typed : Forall (fun row => Forall value_ok (er_CustomFields row)) rows.

(** A column: of a definition, or ad hoc. *)
Definition slot : Type := CustomFieldDef + adHocColumnKey.
#[local] Abbreviation live := (liveCustomFieldDefIDs defs).
#[local] Abbreviation values := (er_CustomFields row).

Definition slots : list slot :=
  (inl <$> sortCustomFieldDefs defs) ++ (inr <$> collectAdHocColumns live rows).

Definition slot_column (x : slot) : string * CustomFieldColumn :=
  match x with
  | inl d => (customFieldDefHeader d (customFieldDefNameCounts (sortCustomFieldDefs defs)), def_column defs d)
  | inr k => (adHocColumnKey_header k, CustomFieldColumnAdHoc k.1 k.2)
  end.

Definition slot_value (x : slot) : option ItemCustomField :=
  match x with inl d => byDefID values !! ID d | inr k => byAdHocKey live values !! k end.

Definition slot_def (x : slot) : option string := match x with inl d => Some (ID d) | inr _ => None end.
Definition slot_key (x : slot) : option adHocColumnKey := match x with inl _ => None | inr k => Some k end.

Lemma slots_columns : export_columns defs rows = slot_column <$> slots.
Proof. unfold export_columns, slots. rewrite fmap_app, <- !list_fmap_compose, live_ids_sorted. done. Qed.

Lemma slots_cells :
  encode_row defs rows row = fillFixedColumns row ++ ((fun x => cell_of (slot_value x)) <$> slots).
Proof.
  unfold encode_row, slots, fillCustomFieldColumns, fillAdHocCustomFieldColumns. cbv zeta.
  rewrite fmap_app, <- !list_fmap_compose, live_ids_sorted. done.
Qed.

Lemma value_in v : v ∈ values -> value_ok v /\ linked_ok defs v.
Proof. apply (proj1 (Forall_forall _ _) values_ok). Qed.

Definition staged (x : slot) : option CustomFieldCols :=
  (parse_dyn_cell (index_defs defs) (slot_column x) (cell_of (slot_value x))).1.

Lemma elem_of_slots_def d : inl d ∈ slots <-> d ∈ defs.
Proof.
  unfold slots. rewrite elem_of_app, !list_elem_of_fmap. setoid_rewrite sortCustomFieldDefs_Permutation. naive_solver.
Qed.

Lemma elem_of_slots_key k : inr k ∈ slots <-> k ∈ collectAdHocColumns live rows.
Proof. unfold slots. rewrite elem_of_app, !list_elem_of_fmap. naive_solver. Qed.

Lemma slot_read x :
  x ∈ slots ->
  (parse_dyn_cell (index_defs defs) (slot_column x) (cell_of (slot_value x))).2 = [] /\
  match slot_value x with
  | None => staged x = None
  | Some v => exists pv, staged x = Some pv /\ icf_FieldDefID pv = slot_def x /\
      (forall k, slot_key x = Some k -> (icf_FieldType pv, icf_Name pv) = k) /\
      customFieldValueEqual (Cols v) pv = true
  end.
Proof.
  intros Hx. unfold staged. destruct (slot_value x) as [v|] eqn:Ev; [|done]. cbn [cell_of].
  assert (Hv : value_ok v /\ column_field (index_defs defs) (slot_column x).2
    = Some (icf_FieldType (Cols v), (match x with inl d => cfd_Name (Cols d) | inr k => k.2 end), slot_def x) /\
    (forall k, slot_key x = Some k -> icf_FieldType (Cols v) = k.1)).
  { destruct x as [d|k]; cbn [slot_value slot_column slot_def slot_key snd] in *.
    - apply elem_of_slots_def in Hx. apply byDefID_lookup in Ev as [Hv Hid]. destruct (value_in v Hv) as [Hok Hl].
      split_and!; [done| |done]. rewrite column_field_def by done. by rewrite (Hl d Hx Hid).
    - apply byAdHocKey_lookup in Ev as (Hv & _ & <-). destruct (value_in v Hv) as [Hok _].
      split_and!; [done| |by intros k [= <-]]. cbn [column_field key_of fst snd].
      by rewrite bool_decide_eq_true_2 by (by apply value_ok_type). }
  destruct Hv as (Hok & Hcol & Hkey).
  destruct (customFieldCellValue_parse v (slot_def x) (match x with inl d => cfd_Name (Cols d) | inr k => k.2 end) Hok)
    as (pv & Hne & Hp & Hfid & Hty & Hname & Heq).
  unfold parse_dyn_cell. rewrite (proj2 (string_eqb_false _ _) Hne), Hcol. cbn [mbind option_bind]. rewrite Hp.
  split; [done|]. exists pv. split_and!; [done|done| |done].
  intros k Hk. rewrite Hty, Hname, (Hkey k Hk). destruct x; [done|]. injection Hk as ->. by destruct k.
Qed.

Lemma slots_NoDup : NoDup slots.
Proof.
  unfold slots. apply NoDup_app. split_and!.
  - apply NoDup_fmap_2; [apply _|]. rewrite sortCustomFieldDefs_Permutation. by apply (NoDup_fmap_1 ID).
  - intros x (d & -> & _)%list_elem_of_fmap (k & [=] & _)%list_elem_of_fmap.
  - apply NoDup_fmap_2; [apply _|]. apply collectAdHocColumns_NoDup.
Qed.

(** What is staged for the row. *)
Lemma parseCustomFields_encode :
  parseCustomFields (index_defs defs) (encode_row defs rows row) (dynamic_columns 25 (export_columns defs rows))
  = (omap staged slots, []).
Proof.
  unfold parseCustomFields. rewrite slots_cells, slots_columns.
  assert (Hlen : length (fillFixedColumns row) = 25).
  { unfold fillFixedColumns, warranty_cells, purchase_cells, sale_cells.
    by destruct (er_Warranty row), (er_Purchase row), (er_Sale row). }
  rewrite <- Hlen, parse_dynamic_cells. f_equal.
  - unfold staged. induction slots as [|x xs IH]; [done|]. rewrite fmap_cons. cbn [omap list_omap]. by rewrite IH.
  - assert (Herr : Forall (fun x => (parse_dyn_cell (index_defs defs) (slot_column x) (cell_of (slot_value x))).2 = []) slots)
      by (apply Forall_forall; intros x Hx; by apply slot_read).
    induction Herr as [|x xs Hx _ IH]; [done|]. rewrite fmap_cons, bind_cons, IH. by rewrite Hx.
Qed.

Lemma slot_def_unique x y id : x ∈ slots -> y ∈ slots -> slot_def x = Some id -> slot_def y = Some id -> y = x.
Proof.
  destruct x as [d|k], y as [d'|k']; simpl; try done. rewrite !elem_of_slots_def. intros Hd Hd' [= <-] [= Heq].
  f_equal. by apply (same_id defs).
Qed.

Lemma slot_key_unique x y k : slot_key x = Some k -> slot_key y = Some k -> y = x.
Proof. destruct x, y; simpl; congruence. Qed.

Lemma staged_def x pv : x ∈ slots -> staged x = Some pv -> icf_FieldDefID pv = slot_def x.
Proof.
  intros Hx Hs. destruct (slot_read x Hx) as [_ Hr]. destruct (slot_value x); [|congruence].
  destruct Hr as (pv' & Hs' & Hd & _). congruence.
Qed.

Lemma slot_find {K} `{EqDecision K} (idx : slot -> option K) k :
  match list_find (fun x => idx x = Some k) slots with
  | Some (_, x) => x ∈ slots /\ idx x = Some k
  | None => forall x, x ∈ slots -> idx x <> Some k
  end.
Proof.
  destruct (list_find _ slots) as [[i x]|] eqn:Ef.
  - apply list_find_Some in Ef as (Hi & Hx & _). split; [by apply list_elem_of_lookup_2 in Hi|done].
  - apply list_find_None in Ef. by rewrite Forall_forall in Ef.
Qed.

(** What the index of the proposed values holds under a key. *)
Lemma fill_slots {K} `{Countable K} upd (ky : CustomFieldCols -> option K) (idx : slot -> option K) k :
  (forall k v m, m !! k = None -> upd k v m !! k = Some v) ->
  (forall k k' v m, k <> k' -> upd k v m !! k' = m !! k') ->
  (forall x v, x ∈ slots -> staged x = Some v -> ky v = idx x) ->
  (forall x y, x ∈ slots -> y ∈ slots -> idx x = Some k -> idx y = Some k -> y = x) ->
  fill upd ky ∅ (omap staged slots) !! k =
  match list_find (fun x => idx x = Some k) slots with Some (_, x) => staged x | None => None end.
Proof.
  intros Hsame Hother Hkey Huniq. pose proof (slot_find idx k) as Hf.
  destruct (list_find _ slots) as [[i x]|].
  - destruct Hf as [Hin Hx]. destruct (staged x) as [v|] eqn:Es.
    + apply (fill_some upd ky staged idx Hsame Hother _ _ x); try done; [|apply slots_NoDup].
      intros y Hy Hyk. by apply Huniq.
    + rewrite (fill_none upd ky staged idx Hother); [done|done|].
      intros y Hy Hyk. by rewrite (Huniq x y).
  - rewrite (fill_none upd ky staged idx Hother); [done|done|]. intros y Hy Hyk. by apply Hf in Hyk.
Qed.

Definition ad_hoc_key (v : CustomFieldCols) : option adHocColumnKey :=
  match icf_FieldDefID v with Some _ => None | None => Some (icf_FieldType v, icf_Name v) end.

Lemma proposed_by_def_lookup id :
  proposed_by_def (omap staged slots) !! id =
  match list_find (fun x => slot_def x = Some id) slots with Some (_, x) => staged x | None => None end.
Proof.
  apply (fill_slots (fun k v m => <[k:=v]> m) icf_FieldDefID slot_def).
  - intros. by rewrite lookup_insert_eq.
  - intros. by rewrite lookup_insert_ne.
  - apply staged_def.
  - intros x y Hx Hy. by apply slot_def_unique.
Qed.

Lemma proposed_ad_hoc_lookup k :
  proposed_ad_hoc (omap staged slots) !! k =
  match list_find (fun x => slot_key x = Some k) slots with Some (_, x) => staged x | None => None end.
Proof.
  rewrite <- (fill_slots insert_first ad_hoc_key slot_key k).
  - apply (f_equal (lookup k)), foldl_same. intros m v. unfold ad_hoc_key. by destruct (icf_FieldDefID v).
  - apply insert_first_same.
  - apply insert_first_other.
  - intros x v Hx Hs. destruct (slot_read x Hx) as [_ Hr]. destruct (slot_value x); [|congruence].
    destruct Hr as (pv & Hs' & Hd & Hk & _). assert (pv = v) as -> by congruence. unfold ad_hoc_key. rewrite Hd.
    destruct x; simpl; [done|]. f_equal. by apply Hk.
  - intros x y _ _. apply slot_key_unique.
Qed.

(** The staged values are those the row has. *)
Lemma customFieldsEqual_encode : customFieldsEqual values (omap staged slots) defs = true.
Proof.
  unfold customFieldsEqual. cbv zeta.
  destruct (matched_lookup (current_by_def live values) (proposed_by_def (omap staged slots))) as [Hs1 Hm1].
  { intros id. rewrite current_by_def_lookup, proposed_by_def_lookup. pose proof (slot_find slot_def id) as Hf.
    destruct (list_find _ slots) as [[i x]|].
    - destruct Hf as [Hin Hx]. destruct x as [d|k]; [|done]. injection Hx as <-.
      pose proof Hin as Hd. apply elem_of_slots_def in Hd.
      rewrite decide_True by (apply elem_of_list_to_set, list_elem_of_fmap; eauto).
      destruct (slot_read _ Hin) as [_ Hr]. simpl in Hr. destruct (byDefID values !! ID d); simpl.
      + by destruct Hr as (pv & -> & _ & _ & ?).
      + by rewrite Hr.
    - rewrite decide_False; [done|]. intros (d & -> & Hd)%elem_of_list_to_set%list_elem_of_fmap.
      by apply (Hf (inl d)); [apply elem_of_slots_def|]. }
  destruct (matched_lookup (current_ad_hoc live values) (proposed_ad_hoc (omap staged slots))) as [Hs2 Hm2].
  { intros k. rewrite current_ad_hoc_lookup, proposed_ad_hoc_lookup. pose proof (slot_find slot_key k) as Hf.
    destruct (list_find _ slots) as [[i x]|].
    - destruct Hf as [Hin Hx]. destruct x as [d|k']; [done|]. injection Hx as ->.
      destruct (slot_read _ Hin) as [_ Hr]. simpl in Hr. destruct (byAdHocKey live values !! k); simpl.
      + by destruct Hr as (pv & -> & _ & _ & ?).
      + by rewrite Hr.
    - destruct (byAdHocKey live values !! k) as [v|] eqn:Ev; [|done]. simpl. exfalso.
      apply byAdHocKey_lookup in Ev as (Hv & Ha & Hk). apply (Hf (inr k)); [|done].
      apply elem_of_slots_key, elem_of_collectAdHocColumns. by exists row, v. }
  rewrite Hs1, Hs2, Hm1, Hm2, !Nat.eqb_refl. done.
Qed.
End custom.

(** ** A whole row *)

Section row.
Context `{FloatText} (defs : list CustomFieldDef) (rows : list ExportRow) (row : ExportRow).
Hypothesis defs_nodup : NoDup (ID <$> defs).
Hypothesis defs_ok : Forall def_ok defs.
Hypothesis rows_ok : Forall (row_ok defs) rows.
Hypothesis row_in : row ∈ rows.

#[local] Abbreviation layout := (mkLayout fixed_map (dynamic_columns 25 (export_columns defs rows))).

Lemma rows_typed : Forall (fun row => Forall value_ok (er_CustomFields row)) rows.
Proof.
  eapply Forall_impl; [exact rows_ok|]. intros r [? ? ? ? ? ? ? ? ? Hc]. eapply Forall_impl; [exact Hc|]. by intros v [].
Qed.

Lemma get_cell c i :
  fixed_map !! c = Some i -> (i < 25)%nat ->
  get_field (encode_row defs rows row) layout c = default ""%string (fillFixedColumns row !! i).
Proof. apply get_fixed. Qed.

Lemma get_warranty :
  [get_field (encode_row defs rows row) layout "warranty_holder"; get_field (encode_row defs rows row) layout "warranty_provider";
   get_field (encode_row defs rows row) layout "warranty_starts_on"; get_field (encode_row defs rows row) layout "warranty_expires_on";
   get_field (encode_row defs rows row) layout "warranty_is_lifetime"; get_field (encode_row defs rows row) layout "warranty_notes"]%string
  = warranty_cells (er_Warranty row).
Proof.
  rewrite (get_cell _ 10), (get_cell _ 11), (get_cell _ 12), (get_cell _ 13), (get_cell _ 14), (get_cell _ 15)
    by (vm_compute; reflexivity || lia).
  unfold fillFixedColumns, warranty_cells. by destruct (er_Warranty row).
Qed.

Lemma get_purchase :
  [get_field (encode_row defs rows row) layout "purchase_vendor"; get_field (encode_row defs rows row) layout "purchase_purchased_on";
   get_field (encode_row defs rows row) layout "purchase_price_minor"; get_field (encode_row defs rows row) layout "purchase_order_reference";
   get_field (encode_row defs rows row) layout "purchase_notes"]%string
  = purchase_cells (er_Purchase row).
Proof.
  rewrite (get_cell _ 16), (get_cell _ 17), (get_cell _ 18), (get_cell _ 19), (get_cell _ 20)
    by (vm_compute; reflexivity || lia).
  unfold fillFixedColumns, warranty_cells, purchase_cells. by destruct (er_Warranty row), (er_Purchase row).
Qed.

Lemma get_sale :
  [get_field (encode_row defs rows row) layout "sale_buyer_name"; get_field (encode_row defs rows row) layout "sale_sold_on";
   get_field (encode_row defs rows row) layout "sale_price_minor"; get_field (encode_row defs rows row) layout "sale_notes"]%string
  = sale_cells (er_Sale row).
Proof.
  rewrite (get_cell _ 21), (get_cell _ 22), (get_cell _ 23), (get_cell _ 24) by (vm_compute; reflexivity || lia).
  unfold fillFixedColumns, warranty_cells, purchase_cells, sale_cells.
  by destruct (er_Warranty row), (er_Purchase row), (er_Sale row).
Qed.

Lemma text_of_nullString s : text_of (nullString s) = s.
Proof. unfold text_of, nullString. destruct (s =?s "") eqn:E; [by bool_facts|done]. Qed.

(** The row that [parseRow] reads back. *)
Lemma parseRow_encode line existing :
  ID (er_Item row) ∈ existing ->
  let s := parseRow line (encode_row defs rows row) layout existing (index_defs defs) in
  sr_Errors s = [] /\ sr_Action s = RowActionUpdate /\ sr_ID s = ID (er_Item row) /\ DiffStagedRow row s defs = [].
Proof.
  intros Hex. pose proof (proj1 (Forall_forall _ _) rows_ok row row_in)
    as [Hid Hname Hq Hlab Hidn Hatt Hw Hp Hsale Hcf]. cbv zeta. unfold parseRow.
  destruct (parseWarrantyBlock_encode _ _ Hw get_warranty) as [Hwe Hwf].
  destruct (parsePurchaseBlock_encode _ _ Hp get_purchase) as [Hpe Hpf].
  destruct (parseSaleBlock_encode _ _ Hsale get_sale) as [Hse Hsf].
  pose proof (parseCustomFields_encode defs rows row defs_nodup defs_ok Hcf) as Hcust.
  pose proof (customFieldsEqual_encode defs rows row defs_nodup defs_ok row_in Hcf) as Hceq.
  rewrite (get_cell "id" 0), (get_cell "name" 1), (get_cell "description" 2), (get_cell "quantity" 3),
    (get_cell "location_id" 5), (get_cell "short_code" 6), (get_cell "labels" 7), (get_cell "identifications" 8),
    (get_cell "attachments" 9) by (vm_compute; reflexivity || lia).
  cbn [fillFixedColumns app lookup list_lookup default from_option id].
  destruct (parseWarrantyBlock _) as [sw we], (parsePurchaseBlock _) as [sp pe], (parseSaleBlock _) as [ss se].
  cbn [fst snd] in *. subst we pe se.
  pose proof (parseAttachments_encode _ Hatt) as Hae. destruct (parseAttachments _) as [sa ae]. cbn [snd] in Hae. subst ae.
  rewrite parseLabels_encode, parseIdentifications_encode by done. cbn [dynCols]. rewrite Hcust.
  rewrite (proj2 (string_eqb_false _ _) Hname). unfold parseQuantity.
  rewrite (proj2 (string_eqb_false _ _) (FormatInt_nonempty _)), ParseInt_FormatInt by done.
  cbn [complain app]. rewrite (proj2 (string_eqb_false _ _) Hid), bool_decide_eq_true_2 by done. cbn [negb andb].
  cbn [sr_Errors sr_Action sr_ID fmap list_fmap]. split_and!; [done..|].
  unfold DiffStagedRow. cbn [sr_Name sr_Description sr_Quantity sr_LocationID sr_Labels sr_Identifications sr_Warranty
    sr_Purchase sr_Sale sr_CustomFields default from_option id].
  rewrite Hwf, Hpf, Hsf, Hceq, !string_eqb_refl, Z.eqb_refl, text_of_nullString, string_eqb_refl.
  rewrite !bool_decide_eq_true_2 by done. unfold labelsEqual, identificationsEqual, sortedStringsEqual.
  rewrite bool_decide_eq_true_2 by done. rewrite length_fmap, Nat.eqb_refl.
  rewrite <- list_fmap_compose, bool_decide_eq_true_2 by done. done.
Qed.

(** What a row keeps of its cells whatever else is wrong with it. *)
Lemma parseRow_cells line existing :
  let s := parseRow line (encode_row defs rows row) layout existing (index_defs defs) in
  sr_SourceID s = ID (er_Item row) /\ sr_LocationID s = nullString (text_of (item_LocationID (Cols (er_Item row)))).
Proof.
  cbv zeta. unfold parseRow. rewrite (get_cell "id" 0), (get_cell "location_id" 5) by (vm_compute; reflexivity || lia).
  cbn [fillFixedColumns app lookup list_lookup default from_option id].
  repeat (destruct (_ : Checked _)). repeat case_match; done.
Qed.
End row.

#[local] Arguments String.append !_ _ / : simpl nomatch.

(** ** The whole file *)

Lemma csv_read_header text header records :
  (csv_read text).*2 = Some <$> header :: records ->
  exists l ls, csv_read text = (l, Some header) :: zip ls (Some <$> records) /\ length ls = length records.
Proof.
  destruct (csv_read text) as [|[l h] rest]; [done|]. cbn [fmap list_fmap snd]. intros [= -> Hr].
  exists l, rest.*1. assert (length rest = length records) as Hlen.
  { apply (f_equal length) in Hr. by rewrite !length_fmap in Hr. }
  rewrite length_fmap. split; [|done]. f_equal. rewrite <- (zip_fst_snd rest) at 1. by rewrite <- Hr.
Qed.

Section file.
Context `{FloatText} (defs : list CustomFieldDef) (rows : list ExportRow).

Lemma encode_row_length row : length (encode_row defs rows row) = length (encode_header defs rows).
Proof.
  unfold encode_row, encode_header, fillCustomFieldColumns, fillAdHocCustomFieldColumns. cbv zeta.
  rewrite !length_app, !length_fmap. f_equal.
  unfold fillFixedColumns, warranty_cells, purchase_cells, sale_cells.
  by destruct (er_Warranty row), (er_Purchase row), (er_Sale row).
Qed.

Lemma export_writes_lines : Forall writes_line (encode_header defs rows :: (encode_row defs rows <$> rows)).
Proof.
  constructor; [done|]. apply Forall_fmap, Forall_true. intros row. done.
Qed.

(** The cells of an export: none holds a carriage return before a line feed. *)
Definition cells_crlf_free : Prop :=
  Forall (Forall (fun cell => crlf_free cell = true)) (encode_header defs rows :: (encode_row defs rows <$> rows)).

(** A file that was exported is read back record by record. *)
Lemma ParseCSV_records existing :
  NoDup (ID <$> defs) -> Forall def_ok defs -> Forall (row_ok defs) rows -> cells_crlf_free ->
  exists lines, length lines = length rows /\
    ParseCSV (EncodeCSV defs rows) existing defs
    = Some (zip_with (fun line row => parseRow line (encode_row defs rows row)
        (mkLayout fixed_map (dynamic_columns 25 (export_columns defs rows))) existing (index_defs defs)) lines rows).
Proof.
  intros Hnd Hdefs Hrows Hcr.
  assert (Hlen : Forall (fun r : list string => length r = length (encode_header defs rows)) (encode_row defs rows <$> rows)).
  { apply Forall_fmap, Forall_true. intros row. apply encode_row_length. }
  destruct (csv_read_header _ _ _ (csv_read_write _ _ export_writes_lines Hcr Hlen)) as (l & ls & Hread & Hls).
  exists ls. rewrite length_fmap in Hls. split; [done|]. unfold ParseCSV, EncodeCSV. rewrite Hread.
  rewrite (parseHeaderLayout_encode defs rows Hnd Hdefs (rows_typed defs rows Hrows)).
  cbn [mbind option_bind]. apply (f_equal Some).
  clear -Hls.
  generalize (encode_row defs rows) as f.
  generalize (mkLayout fixed_map (dynamic_columns 25 (export_columns defs rows))) as layout.
  intros layout f. revert rows Hls. induction ls as [|x ls IH]; intros [|row rs] Hls; try done.
  cbn. f_equal. apply IH. simpl in Hls. lia.
Qed.
End file.

(** Importing an export that nobody edited changes nothing.  Let the
    custom field definitions and the rows satisfy what the repositories check
    (and let no custom field value be stored empty), and let no cell hold a
    carriage return before a line feed.  Then the text that [EncodeCSV] writes
    is accepted by [ParseCSV], with one staged row per exported row in the same
    order; each is an update of the row's own item without errors, and
    [DiffStagedRow] finds no field that differs. *)
Theorem unmodified_export_imports_unchanged `{FloatText} (defs : list CustomFieldDef) (rows : list ExportRow)
    (existing : gset string) :
  NoDup (ID <$> defs) -> Forall def_ok defs -> Forall (row_ok defs) rows -> cells_crlf_free defs rows ->
  Forall (fun row => ID (er_Item row) ∈ existing) rows ->
  exists staged, ParseCSV (EncodeCSV defs rows) existing defs = Some staged /\
    Forall2 (fun row s => sr_Errors s = [] /\ sr_Action s = RowActionUpdate /\ sr_ID s = ID (er_Item row) /\
      DiffStagedRow row s defs = []) rows staged.
Proof.
  intros Hnd Hdefs Hrows Hcr Hex.
  destruct (ParseCSV_records defs rows existing Hnd Hdefs Hrows Hcr) as (lines & Hlen & ->).
  eexists. split; [done|]. apply Forall2_lookup. intros i. rewrite lookup_zip_with.
  destruct (rows !! i) as [row|] eqn:Hi.
  - apply lookup_lt_Some in Hi as Hlt. destruct (lookup_lt_is_Some_2 lines i) as [l Hl]; [lia|]. rewrite Hl. cbn.
    constructor. apply list_elem_of_lookup_2 in Hi as Hin.
    apply parseRow_encode; try done. by eapply (proj1 (Forall_forall _ _) Hex).
  - rewrite (lookup_ge_None_2 lines); [constructor|]. apply lookup_ge_None in Hi. lia.
Qed.

(** ** A text for numbers

    One way to write a [float64] that satisfies the laws of [FloatText]: sign,
    mantissa and exponent in binary. *)

Fixpoint bits (p : positive) : string :=
  match p with xH => "." | xO p => String "0" (bits p) | xI p => String "1" (bits p) end.

Fixpoint of_bits (s : string) : option (positive * string) :=
  match s with
  | String "." s => Some (xH, s)
  | String "0" s => r ← of_bits s; Some (xO r.1, r.2)
  | String "1" s => r ← of_bits s; Some (xI r.1, r.2)
  | _ => None
  end.

Lemma of_bits_bits p s : of_bits (bits p ++ s) = Some (p, s).
Proof. induction p as [p IH|p IH|]; simpl; [by rewrite IH..|done]. Qed.

Definition signed (z : Z) : string :=
  match z with Z0 => "z" | Zpos p => String "p" (bits p) | Zneg p => String "n" (bits p) end.

Definition of_signed (s : string) : option Z :=
  match s with
  | String "z" _ => Some Z0
  | String "p" s => r ← of_bits s; Some (Zpos r.1)
  | String "n" s => r ← of_bits s; Some (Zneg r.1)
  | _ => None
  end.

Definition sign_text (neg : bool) : ascii := if neg then "-" else "+".

Definition binary_text (f : float64) : string :=
  match f with
  | SpecFloat.S754_zero neg => String (sign_text neg) "0"
  | SpecFloat.S754_infinity neg => String (sign_text neg) "i"
  | SpecFloat.S754_nan => "n"
  | SpecFloat.S754_finite neg m e => String (sign_text neg) (String "f" (bits m ++ signed e))
  end.

Definition parse_binary (s : string) : option float64 :=
  match s with
  | String c (String k s) =>
      let neg := Ascii.eqb c "-" in
      if Ascii.eqb k "0" then Some (SpecFloat.S754_zero neg)
      else if Ascii.eqb k "i" then Some (SpecFloat.S754_infinity neg)
      else r ← of_bits s; e ← of_signed r.2; Some (SpecFloat.S754_finite neg r.1 e)
  | _ => None
  end.

Lemma of_signed_signed z : of_signed (signed z) = Some z.
Proof. destruct z as [|p|p]; simpl; [done|..]; rewrite <- (string_app_nil_r (bits p)), of_bits_bits; done. Qed.

Lemma parse_binary_text f : f <> SpecFloat.S754_nan -> parse_binary (binary_text f) = Some f.
Proof.
  destruct f as [[]|[]| |[] m e]; intros Hf; try done; cbn -[of_bits bits signed of_signed];
    rewrite of_bits_bits; cbn -[of_signed signed]; by rewrite of_signed_signed.
Qed.

Lemma float64_eqb_refl f : f <> SpecFloat.S754_nan -> float64_eqb f f = true.
Proof.
  destruct f as [[]|[]| |[] m e]; intros Hf; try done; unfold float64_eqb, SpecFloat.SFeqb, SpecFloat.SFcompare;
    by rewrite Z.compare_refl, Pos.compare_cont_refl.
Qed.

#[local] Instance BinaryText : FloatText.
Proof.
  refine {| FormatFloat := binary_text; ParseFloat := parse_binary |}.
  - by intros [].
  - intros f Hf. exists f. split; [by apply parse_binary_text|by apply float64_eqb_refl].
Defined.

(** An item with every block and two custom fields, one of them ad hoc. *)
Definition demo_defs : list CustomFieldDef := [newRow "d1" "g" 0 1 (mkCustomFieldDef "Weight" "number" 0)].

Definition demo_row (description : string) : ExportRow :=
  mkExportRow
    (newRow "i1" "g" 0 2 (mkItem "Drill, 18V" description (Some "l1") 2 "ABC" None)) "Home / Shed"
    [newRow "b1" "g" 0 3 (mkLabel "a|b" "")]
    [newRow "n1" "g" 0 4 (mkIdentification "i1" "serial" "S:1\2")]
    []
    (Some (newRow "w1" "g" 0 5 (mkWarranty "i1" "me" "Acme" (Some "2024-02-29") None 0 " note")))
    (Some (newRow "p1" "g" 0 6 (mkPurchase "i1" "Shop" (Some "2023-01-31") 12999 "" "")))
    None
    [newRow "v1" "g" 0 7 (mkCustomField "i1" (Some "d1") "Weight" "number" None (Some (float64_of_Z 3)) None None);
     newRow "v2" "g" 0 8 (mkCustomField "i1" None "Borrowed" "boolean" None None (Some 1%Z) None)].

Lemma demo_row_ok description : row_ok demo_defs (demo_row description).
Proof.
  split; cbn.
  - done.
  - done.
  - unfold int64_min, int64_max. lia.
  - by repeat constructor.
  - constructor; [|constructor]. split; [set_solver|done].
  - constructor.
  - by intros w [= <-].
  - intros p [= <-]. split; [done|]. unfold price_ok, int64_max. cbn. lia.
  - done.
  - constructor; [|constructor; [|constructor]]; split.
    + right; left. split; [done|]. by eexists (float64_of_Z 3).
    + by intros d ->%list_elem_of_singleton.
    + right; right; left. split; [done|]. by eexists 1%Z.
    + by intros d ->%list_elem_of_singleton.
Qed.

Lemma demo_defs_ok : Forall def_ok demo_defs.
Proof. constructor; [|constructor]. split; [done|done|done|]. unfold customFieldTypes. cbn. set_solver. Qed.

Lemma unmodified_export_imports_unchanged_witness :
  exists staged, ParseCSV (EncodeCSV demo_defs [demo_row "blue"]) {["i1"%string]} demo_defs = Some staged /\
    Forall2 (fun row s => sr_Errors s = [] /\ sr_Action s = RowActionUpdate /\ sr_ID s = ID (er_Item row) /\
      DiffStagedRow row s demo_defs = []) [demo_row "blue"] staged.
Proof.
  apply unmodified_export_imports_unchanged.
  - apply NoDup_singleton.
  - apply demo_defs_ok.
  - constructor; [apply demo_row_ok|constructor].
  - unfold cells_crlf_free. vm_compute. repeat constructor.
  - constructor; [set_solver|constructor].
Defined.

(** A text with a carriage return before a line feed does not survive.
    [csv.Reader] drops the carriage return even inside quotes, so the untouched
    export of an item with such a description is staged as an update whose
    [description] differs, and committing it changes the item. *)
Theorem crlf_text_is_rewritten `{FloatText} :
  exists row, row_ok [] row /\
  exists staged, ParseCSV (EncodeCSV [] [row]) {[ID (er_Item row)]} [] = Some [staged] /\
    sr_Action staged = RowActionUpdate /\ sr_Errors staged = [] /\ sr_ID staged = ID (er_Item row) /\
    DiffStagedRow row staged [] = ["description"%string].
Proof.
  set (row := mkExportRow (newRow "i1" "g" 0 2 (mkItem "Drill" (String CR (String LF "")) None 1 "ABC" None))
    "" [] [] [] None None None []).
  exists row. split.
  - by split; cbn; try constructor.
  - destruct (ParseCSV (EncodeCSV [] [row]) {[ID (er_Item row)]} []) as [staged|] eqn:E; [|by vm_compute in E].
    vm_compute in E. injection E as <-. eexists. by split_and!.
Qed.
