(* ===== verification/StagedRows.v ===== *)
(** * What a staged row without errors satisfies

    [parseRow] accepts a record only if every part of it would pass the checks
    of the repositories and of the schema. *)

From S2P Require Import Prelude GoBase Schema Sql Strconv Escape Csv Export ImportParse Exchange.
From Stdlib Require Import Strings.Ascii.

#[local] Arguments String.append !_ _ / : simpl nomatch.

(** ** Integers *)

Lemma ParseUint_range s bits n : ParseUint s bits = Some n -> (n < 2 ^ bits)%Z.
Proof.
  unfold ParseUint. destruct s as [|c s]; [done|]. destruct (parse_from 0 (String c s)) as [m|]; [|done].
  destruct (Z.ltb_spec m (2 ^ bits)); [|done]. by intros [= <-].
Qed.

Lemma parse_from_nonneg acc s n : (0 <= acc)%Z -> parse_from acc s = Some n -> (0 <= n)%Z.
Proof.
  revert acc. induction s as [|c s IH]; intros acc Ha; cbn [parse_from]; [by intros [= <-]|].
  destruct (digit_value c) as [d|] eqn:E; [|done]. apply digit_value_inv in E as [Hd _]. apply IH. lia.
Qed.

Lemma ParseUint_nonneg s bits n : ParseUint s bits = Some n -> (0 <= n)%Z.
Proof.
  unfold ParseUint. destruct s as [|c s]; [done|]. destruct (parse_from 0 (String c s)) as [m|] eqn:E; [|done].
  destruct (Z.ltb m (2 ^ bits)); [|done]. intros [= <-]. by eapply parse_from_nonneg; [|exact E].
Qed.

Lemma ParseInt_range s n : ParseInt s = Some n -> (int64_min <= n <= int64_max)%Z.
Proof.
  assert (Hparse : forall neg s n, (match ParseUint s 64 with
      | Some un => if neg : bool then (if (un <=? 2 ^ 63)%Z then Some (- un)%Z else None)
                   else (if (un <? 2 ^ 63)%Z then Some un else None)
      | None => None
      end = Some n) -> (int64_min <= n <= int64_max)%Z).
  { intros neg s' n' Hp. unfold int64_min, int64_max. destruct (ParseUint s' 64) as [un|] eqn:E; [|done].
    apply ParseUint_nonneg in E. destruct neg.
    - destruct (Z.leb_spec un (2 ^ 63)); [|done]. injection Hp as <-. lia.
    - destruct (Z.ltb_spec un (2 ^ 63)); [|done]. injection Hp as <-. lia. }
  unfold ParseInt. destruct s as [|c rest]; [done|].
  destruct (Ascii.eqb c "+"); [apply (Hparse false)|]. destruct (Ascii.eqb c "-"); [apply (Hparse true)|apply (Hparse false)].
Qed.

Lemma parseQuantity_range s n : parseQuantity s = Some n -> (int64_min <= n <= int64_max)%Z.
Proof. unfold parseQuantity. destruct (s =?s ""); [|apply ParseInt_range]. intros [= <-]. unfold int64_min, int64_max. lia. Qed.

Lemma parsePriceMinor_range s n : parsePriceMinor s = Some n -> price_ok n.
Proof.
  unfold parsePriceMinor, price_ok. destruct (s =?s ""); [intros [= <-]; unfold int64_max; lia|].
  destruct (ParseInt s) as [m|] eqn:E; [|done]. cbn. apply ParseInt_range in E.
  destruct (Z.ltb_spec m 0); [done|]. intros [= <-]. lia.
Qed.

(** ** Parts *)

Lemma complain_nil c col : complain c col = [] -> c = false.
Proof. by destruct c. Qed.

(** The entries that a list of checked parses keeps, when none complains. *)
Lemma kept {A B} (f : A -> option B * list string) (P : B -> Prop) l :
  (forall a b, f a = (Some b, []) -> P b) ->
  (f <$> l) ≫= snd = [] -> Forall P (omap fst (f <$> l)).
Proof.
  intros Hf. induction l as [|a l IH]; [constructor|]. cbn. intros [Ha Hl]%app_eq_nil.
  destruct (f a) as [[b|] errs] eqn:E; cbn in *; subst; [|by apply IH]. constructor; [by eapply Hf|by apply IH].
Qed.

Definition identification_ok (i : StagedIdentification) : Prop :=
  sid_Kind i ∈ identificationKinds /\ sid_Value i <> ""%string.

Definition attachment_ok (a : StagedAttachmentRef) : Prop :=
  sat_Category a ∈ attachmentCategories /\ sat_OriginalFilename a <> ""%string /\ sat_Sha256 a <> ""%string.

Lemma parse_identification_ok raw i : parse_identification raw = (Some i, []) -> identification_ok i.
Proof.
  unfold parse_identification. destruct (SplitEscaped raw ":"%char) as [|kind [|value [|]]]; try done. cbv zeta.
  set (errs := _ ++ _). destruct errs eqn:E; [|done]. intros [= <-]. unfold errs in E.
  apply app_eq_nil in E as [Hk%complain_nil Hv%complain_nil]. apply negb_false_iff, bool_decide_eq_true in Hk.
  split; [done|]. by apply string_eqb_false.
Qed.

Lemma parse_attachment_ok raw a : parse_attachment raw = (Some a, []) -> attachment_ok a.
Proof.
  unfold parse_attachment. destruct (SplitEscaped raw ":"%char) as [|cat [|file [|sha [|]]]]; try done. cbv zeta.
  set (errs := _ ++ _). destruct errs eqn:E; [|done]. intros [= <-]. unfold errs in E.
  apply app_eq_nil in E as [Hc E]. apply app_eq_nil in E as [Hf%complain_nil Hs%complain_nil].
  split_and!; [|by apply string_eqb_false..]. cbn [sat_Category]. destruct (_ =?s "") in Hc; [done|].
  apply complain_nil, negb_false_iff, bool_decide_eq_true in Hc. done.
Qed.

Lemma parseLabels_ok cell : (parseLabels cell).2 = [] -> Forall (fun n => n <> ""%string) (parseLabels cell).1.
Proof.
  intros _. unfold parseLabels. cbn. apply Forall_forall. intros n Hn. apply elem_of_filter_bool in Hn as [_ Hn].
  apply negb_true_iff in Hn. by apply string_eqb_false.
Qed.

Definition warranty_ok (w : StagedWarranty) : Prop :=
  parseISODate (swa_StartsOn w) = true /\ parseISODate (swa_ExpiresOn w) = true.
Definition purchase_ok (p : StagedPurchase) : Prop :=
  parseISODate (spu_PurchasedOn p) = true /\ price_ok (spu_PurchasePriceMinor p).
Definition sale_ok (s : StagedSale) : Prop :=
  parseISODate (ssa_SoldOn s) = true /\ price_ok (ssa_SalePriceMinor s).

Lemma parseWarrantyBlock_ok get w : parseWarrantyBlock get = (Some w, []) -> warranty_ok w.
Proof.
  unfold parseWarrantyBlock. destruct (all_empty _); [done|]. cbv zeta. intros [= <- E].
  apply app_eq_nil in E as [H1%complain_nil E]. apply app_eq_nil in E as [H2%complain_nil _].
  by apply negb_false_iff in H1, H2.
Qed.

(** A date and a price that nobody complained about. *)
Lemma date_price_ok date price c1 c2 :
  complain (negb (parseISODate date)) c1 ++ complain (match parsePriceMinor price with None => true | _ => false end) c2 = [] ->
  parseISODate date = true /\ price_ok (default 0%Z (parsePriceMinor price)).
Proof.
  intros E. apply app_eq_nil in E as [H1%complain_nil H2%complain_nil]. apply negb_false_iff in H1. split; [done|].
  destruct (parsePriceMinor price) as [n|] eqn:Hp; [|done]. by eapply parsePriceMinor_range.
Qed.

Lemma parsePurchaseBlock_ok get p : parsePurchaseBlock get = (Some p, []) -> purchase_ok p.
Proof. unfold parsePurchaseBlock. destruct (all_empty _); [done|]. cbv zeta. intros [= <- E]. by apply date_price_ok in E. Qed.

Lemma parseSaleBlock_ok get s : parseSaleBlock get = (Some s, []) -> sale_ok s.
Proof. unfold parseSaleBlock. destruct (all_empty _); [done|]. cbv zeta. intros [= <- E]. by apply date_price_ok in E. Qed.

(** ** Custom field values *)

Section parse.
Context `{FloatText}.

(** Exactly the column of the value's type is set. *)
Definition typed_value (v : CustomFieldCols) : Prop :=
  match icf_TextValue v, icf_NumberValue v, icf_BoolValue v, icf_DateValue v with
  | Some t, None, None, None => icf_FieldType v = "text"%string /\ t <> ""%string
  | None, Some _, None, None => icf_FieldType v = "number"%string
  | None, None, Some b, None => icf_FieldType v = "boolean"%string /\ (b = 0%Z \/ b = 1%Z)
  | None, None, None, Some d => icf_FieldType v = "date"%string /\ d <> ""%string /\ parseISODate d = true
  | _, _, _, _ => False
  end.

Lemma parse_cell_typed fieldDefID name fieldType cell v :
  cell <> ""%string -> fieldType ∈ customFieldTypes -> parse_cell fieldDefID name fieldType cell = Some v -> typed_value v.
Proof.
  intros Hc Ht. unfold customFieldTypes in Ht. rewrite !elem_of_cons, elem_of_nil in Ht.
  unfold parse_cell. destruct Ht as [->|[->|[->|[->|[]]]]]; cbn [String.eqb Ascii.eqb Bool.eqb andb].
  - by intros [= <-].
  - cbn. destruct (ParseFloat cell); [|done]. by intros [= <-].
  - cbn. destruct (parseBool cell) as [[]|]; [| |done]; intros [= <-]; cbn; auto.
  - cbn. destruct (parseISODate cell) eqn:E; [|done]. by intros [= <-].
Qed.

(** Only definitions of the group are indexed. *)
Lemma index_defs_elem defs :
  (forall id d, defsByID (index_defs defs) !! id = Some d -> d ∈ defs) /\
  (forall name d, defsByUniqueName (index_defs defs) !! name = Some d -> d ∈ defs).
Proof.
  assert (Hins : forall (m : gmap string CustomFieldDef) k x, x ∈ defs ->
    (forall k d, m !! k = Some d -> d ∈ defs) -> forall k' d, <[k := x]> m !! k' = Some d -> d ∈ defs).
  { intros m k x Hx Hm k' d [[_ ->]|[_ Hd]]%lookup_insert_Some; [done|by eapply Hm]. }
  unfold index_defs. cbn [defsByID defsByUniqueName]. split.
  - apply (foldl_invariant (fun m : gmap string CustomFieldDef => forall k d, m !! k = Some d -> d ∈ defs));
      [by intros k d Hd; rewrite lookup_empty in Hd|]. intros m x Hx Hm. by apply Hins.
  - apply (foldl_invariant (fun m : gmap string CustomFieldDef => forall k d, m !! k = Some d -> d ∈ defs));
      [by intros k d Hd; rewrite lookup_empty in Hd|]. intros m x Hx Hm. destruct (_ =? 1)%Z; [by apply Hins|done].
Qed.

Lemma column_field_typed defs col fieldType name id :
  Forall (fun d : CustomFieldDef => cfd_FieldType (Cols d) ∈ customFieldTypes) defs ->
  column_field (index_defs defs) col = Some (fieldType, name, id) -> fieldType ∈ customFieldTypes.
Proof.
  intros Hdefs. rewrite Forall_forall in Hdefs. destruct (index_defs_elem defs) as [Hid Hname].
  unfold column_field. destruct col as [n defID|t n].
  - destruct (negb _).
    + destruct (defsByID _ !! defID) as [d|] eqn:E; [|done]. cbn. intros [= <- _ _]. by apply Hdefs, (Hid defID).
    + destruct (1 <? _)%Z; [done|]. destruct (defsByUniqueName _ !! n) as [d|] eqn:E; [|done]. cbn.
      intros [= <- _ _]. by apply Hdefs, (Hname n).
  - destruct (bool_decide_reflect (t ∈ customFieldTypes)) as [Ht|]; [|done]. by intros [= <- _ _].
Qed.

Lemma parse_dynamic_typed defs record dc v :
  Forall (fun d : CustomFieldDef => cfd_FieldType (Cols d) ∈ customFieldTypes) defs ->
  parse_dynamic (index_defs defs) record dc = (Some v, []) -> typed_value v.
Proof.
  intros Hdefs. unfold parse_dynamic. set (cell := default _ _). destruct (cell =?s "") eqn:Hc; [done|].
  apply string_eqb_false in Hc. cbv zeta.
  destruct (column_field _ _) as [[[t n] id]|] eqn:E; [|done]. cbn [mbind option_bind].
  destruct (parse_cell id n t cell) as [v'|] eqn:Ep; [|done]. intros [= <-].
  eapply parse_cell_typed; [exact Hc| |exact Ep]. by eapply column_field_typed.
Qed.

(** ** Rows *)

End parse.

Definition demo_layout : headerLayout := default (mkLayout ∅ []) (parseHeaderLayout FixedColumns).

(** A new item with a warranty and a price. *)
Definition demo_record : list string :=
  [""; "Drill"; ""; "2"; ""; ""; ""; "tools|garage"; "serial:A1"; "";
   "me"; ""; "2024-02-29"; ""; "TRUE"; "";
   "Shop"; ""; "12999"; ""; "";
   ""; ""; ""; ""]%string.

