(* ===== verification/Reads.v ===== *)
(** * List reads of the repositories

    The queries that return the parts of an item for its page, for the export
    and for the import preview, and the repository functions that run them
    ([storage/items.go], [storage/item_identifications.go],
    [storage/item_custom_fields.go], [storage/attachments.go],
    [storage/custom_field_defs.go]).  Rows that an ORDER BY does not tell apart
    come in the order of the table here, as SQLite chooses there. *)

From S2P Require Import Prelude GoBase Schema Sql Evolution Queries Items Details.

(** [a ASC, ...] on a number column, then the rest. *)
Definition asc_then {A} (key : A -> Z) (rest : A -> A -> bool) (a b : A) : bool :=
  (key a <? key b)%Z || ((key a =? key b)%Z && rest a b).

Definition by_id {D} (a b : Row D) : bool := String.leb (ID a) (ID b).

(** [LIMIT n OFFSET k] *)
Definition limit_offset {A} (row_limit row_offset : Z) (l : list A) : list A :=
  take (Z.to_nat row_limit) (drop (Z.to_nat row_offset) l).

(** ** Queries *)

Definition GetItemsByIDs (group : string) (item_ids : list string) : M (list Item) :=
  select_many (fun r => (GroupID r =?s group) && bool_decide (ID r ∈ item_ids) && live r).

Definition ListItems (group : string) (row_limit row_offset : Z) : M (list Item) :=
  rows ← select_many (fun r => (GroupID r =?s group) && live r);
  mret (limit_offset row_limit row_offset (order_by (asc_then (fun r => - UpdatedAt r)%Z by_id) rows)).

Definition ListItemIdentifications (group item_id : string) : M (list Identification) :=
  rows ← select_many (fun r => (GroupID r =?s group) && (idn_ItemID (Cols r) =?s item_id) && live r);
  mret (order_by (fun a b => CreatedAt a <=? CreatedAt b)%Z rows).

Definition ListItemCustomFields (group item_id : string) : M (list ItemCustomField) :=
  rows ← select_many (fun r => (GroupID r =?s group) && (icf_ItemID (Cols r) =?s item_id) && live r);
  mret (order_by (asc_then CreatedAt by_id) rows).

Definition ListAttachmentsForItem (group item_id : string) : M (list Attachment) :=
  rows ← select_many (fun r => (GroupID r =?s group) && (att_ItemID (Cols r) =?s item_id) && live r);
  mret (order_by (asc_then CreatedAt by_id) rows).

(** Tombstoned attachments too. *)
Definition ListAttachmentsForGroup (group : string) : M (list Attachment) :=
  select_many (fun r => GroupID r =?s group).

Definition ListCustomFieldDefs (group : string) : M (list CustomFieldDef) :=
  rows ← select_many (fun r => (GroupID r =?s group) && live r);
  mret (order_by (asc_then (fun r => cfd_DisplayOrder (Cols r)) (asc_then CreatedAt by_id)) rows).

(** ** Repositories *)

Record Page := mkPage { page_Limit : Z; page_Offset : Z }.

Definition Items_GetByIDs (group : string) (ids : list string) : M (list Item) :=
  lift (reject (match ids with [] => true | _ => false end) "storage: get items by ids: ids must not be empty");;
  GetItemsByIDs group ids.

Definition Items_List (group : string) (page : Page) : M (list Item) :=
  lift (reject (page_Limit page <=? 0)%Z "storage: list items: limit must be positive");;
  lift (reject (page_Offset page <? 0)%Z "storage: list items: offset must not be negative");;
  ListItems group (page_Limit page) (page_Offset page).

(** The parts of an item that must exist. *)
Definition of_item {A} (group itemID : string) (list_parts : M A) : M A :=
  _ ← no_rows_as ErrNotFound (GetItem group itemID); list_parts.

Definition Identifications_List (group itemID : string) : M (list Identification) :=
  of_item group itemID (ListItemIdentifications group itemID).

Definition ItemCustomFields_List (group itemID : string) : M (list ItemCustomField) :=
  of_item group itemID (ListItemCustomFields group itemID).

Definition Attachments_ListForItem (group itemID : string) : M (list Attachment) :=
  of_item group itemID (ListAttachmentsForItem group itemID).

Definition Attachments_ListAll (group : string) : M (list Attachment) := ListAttachmentsForGroup group.

Definition CustomFieldDefs_List (group : string) : M (list CustomFieldDef) := ListCustomFieldDefs group.

(** ** One part of an item *)

Definition Identifications_Get (group itemID id : string) : M Identification :=
  no_rows_as ErrNotFound (GetItemIdentification group itemID id).

Definition ItemCustomFields_Get (group itemID id : string) : M ItemCustomField :=
  no_rows_as ErrNotFound (GetItemCustomField group itemID id).

Definition Attachments_Get (group itemID id : string) : M Attachment :=
  lift (reject (itemID =?s "") "storage: Get: itemID is empty");;
  lift (reject (id =?s "") "storage: Get: id is empty");;
  no_rows_as ErrNotFound (GetAttachment group itemID id).

Definition CustomFieldDefs_Get (group id : string) : M CustomFieldDef :=
  no_rows_as ErrNotFound (GetCustomFieldDef group id).

Definition ListStockAdjustments (group item_id : string) : M (list StockAdjustment) :=
  rows ← select_many (fun r => (GroupID r =?s group) && (stk_ItemID (Cols r) =?s item_id) && live r);
  mret (order_by (asc_then (fun r => - CreatedAt r)%Z (fun a b => by_id b a)) rows).

Definition StockAdjustments_List (group itemID : string) : M (list StockAdjustment) :=
  of_item group itemID (ListStockAdjustments group itemID).
