(* ===== verification/ImportFlow.v ===== *)
(** * Export, preview and commit of an import (httpapi/export.go,
    import_preview.go, import_classify.go, import_commit.go)

    What the handlers do between the repositories and the CSV code: collect
    the rows of an export, decide what each row of a staged file would do, and
    hand the rows to the commit.  The queries of a preview are not one
    transaction; here nothing else runs in between.  What reading the staged file
    gives is an argument; removing it is not modelled.  Answers carry what decides them; the
    encoding of responses is not modelled. *)

From S2P Require Import Prelude GoBase Schema Sql Evolution Queries PushRepo Items Blocks Details Exec.
From S2P Require Import Labels Locations PushCommit ImportCommit.
From S2P Require Import Escape Strconv Csv Export ImportParse ImportDiff Reads.

(** ** export.go *)

Definition exportItemPageSize : Z := 200.

Definition list_all_loop (group : string) : nat -> Z -> M (list Item) :=
  fix loop fuel offset :=
    match fuel with
    | O => mret []
    | S fuel =>
        page ← Items_List group (mkPage exportItemPageSize offset);
        if (Z.of_nat (length page) <? exportItemPageSize)%Z then mret page else
        rest ← loop fuel (offset + exportItemPageSize)%Z;
        mret (page ++ rest)
    end.

(** A full page has 200 items, so the number of items bounds the pages. *)
Definition listAllItemsForExport (group : string) : M (list Item) :=
  db ← get_db; list_all_loop group (S (size (items db))) 0.

Definition detailBlockOrNil {T} (get : M T) : M (option T) :=
  v ← try get;
  match v with
  | Ok v => mret (Some v)
  | Err ErrNotFound => mret None
  | Err e => throw e
  end.

(** [paths] is the memo; [seen] are the locations on the way up. *)
Fixpoint resolveLocationPath (fuel : nat) (id : string) (byID : gmap string Location)
    (paths : gmap string string) (seen : gset string) : string * gmap string string :=
  match paths !! id with
  | Some p => (p, paths)
  | None =>
      match fuel, byID !! id with
      | S fuel, Some loc =>
          if bool_decide (id ∈ seen) then (loc_Name (Cols loc), paths) else
          match loc_ParentID (Cols loc) with
          | None | Some ""%string => (loc_Name (Cols loc), <[id := loc_Name (Cols loc)]> paths)
          | Some parent =>
              let '(parentPath, paths) := resolveLocationPath fuel parent byID paths ({[id]} ∪ seen) in
              let full := if parentPath =?s "" then loc_Name (Cols loc)
                          else String.append parentPath (String.append "/" (loc_Name (Cols loc))) in
              (full, <[id := full]> paths)
          end
      | _, _ => (""%string, paths)
      end
  end.

(** No location is seen twice on the way up. *)
Definition buildLocationPaths (locations : list Location) : gmap string string :=
  let byID := foldl (fun m l => <[ID l := l]> m) ∅ locations in
  foldl (fun paths l => (resolveLocationPath (S (length locations)) (ID l) byID paths ∅).2) ∅ locations.

Definition buildExportRow (group : string) (item : Item) (paths : gmap string string) : M ExportRow :=
  labels ← ItemLabels_ListForItem group (ID item);
  identifications ← Identifications_List group (ID item);
  attachments ← Attachments_ListForItem group (ID item);
  customFields ← ItemCustomFields_List group (ID item);
  warranty ← detailBlockOrNil (Warranty_Get group (ID item));
  purchase ← detailBlockOrNil (Purchase_Get group (ID item));
  sale ← detailBlockOrNil (Sale_Get group (ID item));
  let locationPath :=
    match item_LocationID (Cols item) with Some l => default ""%string (paths !! l) | None => ""%string end in
  mret (mkExportRow item locationPath labels identifications attachments warranty purchase sale customFields).

Fixpoint build_rows (group : string) (items : list Item) (paths : gmap string string) : M (list ExportRow) :=
  match items with
  | [] => mret []
  | item :: items =>
      row ← buildExportRow group item paths;
      rows ← build_rows group items paths;
      mret (row :: rows)
  end.

Definition assembleExportRows (group : string) : M (list ExportRow * list CustomFieldDef) :=
  items ← listAllItemsForExport group;
  let items := order_by by_id items in
  defs ← CustomFieldDefs_List group;
  locations ← Locations_List group;
  rows ← build_rows group items (buildLocationPaths locations);
  mret (rows, defs).

(** ** import_classify.go *)

Definition distinctNonEmptySourceIDs (rows : list StagedRow) : list string :=
  foldl (fun ids row =>
    if (sr_SourceID row =?s "") || bool_decide (sr_SourceID row ∈ ids) then ids else ids ++ [sr_SourceID row]) [] rows.

Record ImportClassifiedRow := mkClassified {
  icl_Line : Z; icl_Action : string; icl_Name : string; icl_ItemID : string; icl_Changes : list string;
  icl_Errors : list RowError; icl_Proposed : StagedRow }.

Record PreviewSummary := mkSummary { sum_Create : Z; sum_Update : Z; sum_Unchanged : Z; sum_Error : Z }.

(** What a map gives for a missing key. *)
Definition zero_item : Item := mkRow "" "" 0 0 0 None 0 (mkItem "" "" None 0 "" None).

(** [locationLive]: the locations that have been looked up. *)
Definition location_live (group : string) (locationLive : gmap string bool) (row : StagedRow) :
    M (bool * gmap string bool) :=
  match sr_LocationID row with
  | None | Some ""%string => mret (true, locationLive)
  | Some l =>
      match locationLive !! l with
      | Some live => mret (live, locationLive)
      | None =>
          got ← try (Locations_Get group l);
          match got with
          | Ok _ => mret (true, <[l := true]> locationLive)
          | Err ErrNotFound => mret (false, <[l := false]> locationLive)
          | Err e => throw e
          end
      end
  end.

Section flow.
Context `{Entropy, FloatText}.

Definition classify_row (group : string) (defs : list CustomFieldDef) (itemsByID : gmap string Item)
    (locationLive : gmap string bool) (row : StagedRow) : M (ImportClassifiedRow * gmap string bool) :=
  let cr action itemID changes errs := mkClassified (sr_Line row) action (sr_Name row) itemID changes errs row in
  match sr_Action row with
  | RowActionError => mret (cr "error"%string ""%string [] (sr_Errors row), locationLive)
  | action =>
      '(isLive, locationLive) ← location_live group locationLive row;
      if negb isLive
      then mret (cr "error"%string ""%string [] [mkRowError (sr_Line row) "location_id"], locationLive) else
      match action with
      | RowActionUpdate =>
          let item := default zero_item (itemsByID !! sr_ID row) in
          current ← buildExportRow group item ∅;
          match DiffStagedRow current row defs with
          | [] => mret (cr "unchanged"%string (sr_ID row) [] [], locationLive)
          | diffs => mret (cr "update"%string (sr_ID row) diffs [], locationLive)
          end
      | RowActionCreate => mret (cr "create"%string ""%string [] [], locationLive)
      | _ => mret (cr ""%string ""%string [] [], locationLive)
      end
  end.

Fixpoint classify_rows (group : string) (defs : list CustomFieldDef) (itemsByID : gmap string Item)
    (locationLive : gmap string bool) (rows : list StagedRow) : M (list ImportClassifiedRow) :=
  match rows with
  | [] => mret []
  | row :: rows =>
      '(cr, locationLive) ← classify_row group defs itemsByID locationLive row;
      rest ← classify_rows group defs itemsByID locationLive rows;
      mret (cr :: rest)
  end.

Definition count_action (action : string) (rows : list ImportClassifiedRow) : Z :=
  Z.of_nat (length (List.filter (fun r => icl_Action r =?s action) rows)).

Definition summarize (rows : list ImportClassifiedRow) : PreviewSummary :=
  mkSummary (count_action "create" rows) (count_action "update" rows) (count_action "unchanged" rows)
    (count_action "error" rows).

Definition err_file : GoError := ErrMessage "httpapi: import classify: parse staged file".

Definition classifyImportRows (group : string) (raw : string) : M (list ImportClassifiedRow * PreviewSummary) :=
  defs ← CustomFieldDefs_List group;
  match ParseCSV raw ∅ defs with
  | None => throw err_file
  | Some prelim =>
      items ← (match distinctNonEmptySourceIDs prelim with
               | [] => mret []
               | ids => Items_GetByIDs group ids
               end);
      let itemsByID : gmap string Item := foldl (fun m item => <[ID item := item]> m) ∅ items in
      match ParseCSV raw (dom itemsByID) defs with
      | None => throw err_file
      | Some rows =>
          classified ← classify_rows group defs itemsByID ∅ rows;
          mret (classified, summarize classified)
      end
  end.

(** ** import_commit.go *)

Definition toImportCommitProposedRow (row : StagedRow) : ImportCommitProposedRow :=
  mkProposed (sr_Name row) (sr_Description row) (sr_Quantity row) (stringFromNull (sr_LocationID row))
    (sr_Labels row)
    ((fun i => mkImportIdentification (sid_Kind i) (sid_Value i)) <$> sr_Identifications row)
    ((fun w => mkImportWarranty (swa_Holder w) (swa_Provider w) (swa_StartsOn w) (swa_ExpiresOn w)
                 (swa_IsLifetime w) (swa_Notes w)) <$> sr_Warranty row)
    ((fun p => mkImportPurchase (spu_Vendor p) (spu_PurchasedOn p) (spu_PurchasePriceMinor p)
                 (spu_OrderReference p) (spu_Notes p)) <$> sr_Purchase row)
    ((fun s => mkImportSale (ssa_BuyerName s) (ssa_SoldOn s) (ssa_SalePriceMinor s) (ssa_Notes s)) <$> sr_Sale row)
    (sr_CustomFields row).

Definition zero_proposed : ImportCommitProposedRow := mkProposed "" "" 0 "" [] [] None None None [].

Definition toImportCommitRow (cr : ImportClassifiedRow) : option ImportCommitRow :=
  if icl_Action cr =?s "create" then
    Some (mkImportRow (icl_Line cr) ImportCommitRowCreate "" [] (toImportCommitProposedRow (icl_Proposed cr)))
  else if icl_Action cr =?s "update" then
    Some (mkImportRow (icl_Line cr) ImportCommitRowUpdate (icl_ItemID cr) (icl_Changes cr)
            (toImportCommitProposedRow (icl_Proposed cr)))
  else if icl_Action cr =?s "unchanged" then
    Some (mkImportRow (icl_Line cr) ImportCommitRowUnchanged (icl_ItemID cr) [] zero_proposed)
  else None.

Definition toImportCommitRows (rows : list ImportClassifiedRow) : list ImportCommitRow := omap toImportCommitRow rows.

(** A session that can be previewed and committed, or the reason why not. *)
Inductive SessionState := SessionStaged | SessionCommitted | SessionExpired.

Definition resolveStagedImportSession (group importID : string) (now : Z) : M SessionState :=
  session ← ImportSessions_Get group importID;
  if imp_Status session =?s status_committed then mret SessionCommitted
  else if (imp_Status session =?s status_staged) && (now <? imp_ExpiresAt session)%Z then mret SessionStaged
  else _ ← try (ImportSessions_Delete group importID); mret SessionExpired.

(** [os.ReadFile] on the staged file. *)
Inductive StagedFile := FileContents (raw : string) | FileGone | FileUnreadable.

Inductive ImportAnswer (A : Type) :=
  | AnswerNotFound | AnswerInternal | AnswerConflict
  | AnswerRejected (rows : list ImportClassifiedRow) (summary : PreviewSummary)
  | AnswerOK (a : A).
#[global] Arguments AnswerNotFound {A}.
#[global] Arguments AnswerInternal {A}.
#[global] Arguments AnswerConflict {A}.
#[global] Arguments AnswerRejected {A}.
#[global] Arguments AnswerOK {A}.

(** The part the two handlers share. *)
Definition with_classified {A} (group importID : string) (now : Z) (file : StagedFile)
    (k : list ImportClassifiedRow -> PreviewSummary -> M (ImportAnswer A)) : M (ImportAnswer A) :=
  session ← try (resolveStagedImportSession group importID now);
  match session with
  | Err ErrNotFound => mret AnswerNotFound
  | Err _ => mret AnswerInternal
  | Ok SessionCommitted => mret AnswerConflict
  | Ok SessionExpired => mret AnswerNotFound
  | Ok SessionStaged =>
      match file with
      | FileGone => _ ← try (ImportSessions_Delete group importID); mret AnswerNotFound
      | FileUnreadable => mret AnswerInternal
      | FileContents raw =>
          classified ← try (classifyImportRows group raw);
          match classified with
          | Err _ => mret AnswerInternal
          | Ok (rows, summary) => k rows summary
          end
      end
  end.

Definition importPreviewHandler (group importID : string) (now : Z) (file : StagedFile) :
    M (ImportAnswer (list ImportClassifiedRow * PreviewSummary)) :=
  with_classified group importID now file (fun rows summary => mret (AnswerOK (rows, summary))).

Definition importCommitHandler (group importID : string) (now commitNow : Z) (file : StagedFile) :
    M (ImportAnswer ImportCommitResult) :=
  with_classified group importID now file (fun rows summary =>
    if (0 <? sum_Error summary)%Z then mret (AnswerRejected rows summary) else
    result ← try (ImportCommit group (mkImportCommit importID (toImportCommitRows rows) commitNow));
    match result with
    | Err ErrImportSessionNotStaged => mret AnswerConflict
    | Err _ => mret AnswerInternal
    | Ok result => mret (AnswerOK result)
    end).
End flow.
