(* ===== verification/ImportFlowProperties.v ===== *)
(** * An export comes back as nothing to do

    The handlers of [ImportFlow] on the file that [assembleExportRows] and
    [EncodeCSV] made: the preview calls every row unchanged and the commit
    writes nothing but the state of the import session. *)

From S2P Require Import Prelude GoBase Schema Sql Evolution Queries PushRepo Items Blocks Details Exec.
From S2P Require Import History Labels Locations PushCommit ImportCommit Demo SyncReader System LocationProperties.
From S2P Require Import Escape Strconv Csv Export ImportParse ImportDiff Exchange Reads ImportFlow.

(** ** Reads leave everything as it is *)

Definition still {A} (m : M A) : Prop := forall w, (m w).2 = w.

Section still.
Lemma still_bind {A B} (m : M A) (k : A -> M B) : still m -> (forall a, still (k a)) -> still (m ≫= k).
Proof.
  intros Hm Hk w. unfold mbind, prog_bind. specialize (Hm w). destruct (m w) as [[a|e] w'] eqn:E; simpl in *; subst; [apply Hk|done].
Qed.
Lemma still_try {A} (m : M A) : still m -> still (try m).
Proof. intros Hm w. unfold try. specialize (Hm w). destruct (m w). done. Qed.
Lemma still_ret {A} (a : A) : still (mret a).
Proof. done. Qed.
Lemma still_throw {A} e : still (throw (A := A) e).
Proof. done. Qed.
Lemma still_lift {A} (r : res A) : still (lift r).
Proof. done. Qed.
Lemma still_select_one {D} `{Table D} P : still (select_one P).
Proof. intros w. apply select_one_state. Qed.
Lemma still_select_many {D} `{Table D} P : still (select_many P).
Proof. done. Qed.
Lemma still_get_db : still get_db.
Proof. done. Qed.
End still.

Create HintDb still.
#[export] Hint Resolve still_ret still_throw still_lift still_select_one still_select_many still_get_db : still.
#[export] Hint Extern 2 (still (_ ≫= _)) => apply still_bind; [|intros] : still.
#[export] Hint Extern 2 (still (try _)) => apply still_try : still.
#[export] Hint Extern 3 (still (match ?x with _ => _ end)) => destruct x : still.

Section reads.
Lemma still_no_rows_as {A} e (m : M A) : still m -> still (no_rows_as e m).
Proof. intros Hm. unfold no_rows_as. eauto 6 with still. Qed.
#[local] Hint Resolve still_no_rows_as : still.

Lemma still_Items_List g p : still (Items_List g p).
Proof. unfold Items_List, ListItems. eauto 10 with still. Qed.
#[local] Hint Resolve still_Items_List : still.

Lemma still_listAll g : still (listAllItemsForExport g).
Proof.
  unfold listAllItemsForExport. apply still_bind; [apply still_get_db|]. intros db.
  generalize 0%Z. induction (S (size (items db))) as [|fuel IH]; intros off; cbn [list_all_loop]; eauto 10 with still.
Qed.

Lemma still_of_item {A} g i (m : M A) : still m -> still (of_item g i m).
Proof. intros Hm. unfold of_item, GetItem. eauto 10 with still. Qed.
#[local] Hint Resolve still_of_item : still.

Lemma still_detail {T} (m : M T) : still m -> still (detailBlockOrNil m).
Proof. intros Hm. unfold detailBlockOrNil. apply still_bind; [by apply still_try|]. intros [v|e]; [done|by destruct e]. Qed.

Lemma still_buildExportRow g item paths : still (buildExportRow g item paths).
Proof.
  unfold buildExportRow, ItemLabels_ListForItem, ListItemLabels, GetItem.
  unfold Identifications_List, ListItemIdentifications, Attachments_ListForItem, ListAttachmentsForItem.
  unfold ItemCustomFields_List, ListItemCustomFields, Warranty_Get, GetItemWarranty, Purchase_Get, GetItemPurchase, Sale_Get, GetItemSale.
  repeat first [apply still_detail | apply still_bind; [|intros] | apply still_of_item | apply still_no_rows_as
    | solve [eauto 3 with still]].
Qed.

Lemma still_build_rows g items paths : still (build_rows g items paths).
Proof.
  induction items as [|item items IH]; [done|]. cbn [build_rows].
  apply still_bind; [apply still_buildExportRow|]. intros row. apply still_bind; [done|]. done.
Qed.

Lemma still_assemble g : still (assembleExportRows g).
Proof.
  unfold assembleExportRows, CustomFieldDefs_List, ListCustomFieldDefs, Locations_List, ListLocations.
  repeat first [apply still_listAll | apply still_build_rows | apply still_select_many | apply still_ret
    | apply still_bind; [|intros]].
Qed.

(** A read that succeeded did not move. *)
Lemma still_ok {A} (m : M A) r w w' : still m -> m w = (r, w') -> w' = w.
Proof. intros Hm E. specialize (Hm w). by rewrite E in Hm. Qed.
End reads.

(** ** The items of an export *)

Section assemble.
Context (g : string) (w : World).
#[local] Abbreviation live_items := (where_ (D := ItemCols) (fun r => (GroupID r =?s g) && live r) (items (wdb w))).
#[local] Abbreviation listed := (order_by (asc_then (fun r : Item => - UpdatedAt r)%Z by_id) live_items).

Lemma Items_List_page lim off :
  (0 < lim)%Z -> (0 <= off)%Z -> Items_List g (mkPage lim off) w = (Ok (limit_offset lim off listed), w).
Proof.
  intros Hl Ho. unfold Items_List. cbn [page_Limit page_Offset].
  rewrite (proj2 (Z.leb_gt lim 0) Hl), (proj2 (Z.ltb_ge off 0) Ho). done.
Qed.

Lemma list_all_loop_rest fuel off :
  (0 <= off)%Z -> (Z.of_nat (length listed) < off + 200 * Z.of_nat fuel)%Z ->
  list_all_loop g fuel off w = (Ok (drop (Z.to_nat off) listed), w).
Proof.
  revert off. induction fuel as [|fuel IH]; intros off Hoff Hlen; cbn [list_all_loop].
  { rewrite drop_ge by lia. done. }
  unfold mbind, prog_bind. rewrite Items_List_page by done.
  unfold limit_offset. rewrite length_take, length_drop. change (Z.to_nat exportItemPageSize) with 200%nat.
  unfold exportItemPageSize in *.
  destruct (Z.ltb_spec (Z.of_nat (200 `min` (length listed - Z.to_nat off))) 200) as [Hlt|Hge].
  - rewrite take_ge; [done|]. rewrite length_drop. lia.
  - rewrite IH by lia.
    replace (Z.to_nat (off + 200)) with (Z.to_nat off + 200)%nat by lia.
    by rewrite <- drop_drop, take_drop.
Qed.

Lemma length_where {D} `{Table D} P (t : gmap string (Row D)) : (length (where_ P t) <= size t)%nat.
Proof.
  unfold where_, rows_of. etrans; [apply List.filter_length_le|]. by rewrite length_fmap, length_map_to_list.
Qed.

Lemma listAllItemsForExport_all : listAllItemsForExport g w = (Ok listed, w).
Proof.
  unfold listAllItemsForExport, get_db, mbind, prog_bind. rewrite list_all_loop_rest; [done|lia|].
  rewrite order_by_Permutation.
  pose proof (length_where (D := ItemCols) (fun r => (GroupID r =?s g) && live r) (items (wdb w))). lia.
Qed.

(** *** Rows *)

(** The path of its location is not part of what is compared. *)
Lemma buildExportRow_paths item paths row w' :
  buildExportRow g item paths w = (Ok row, w') ->
  er_Item row = item /\ exists row', buildExportRow g item ∅ w = (Ok row', w') /\
    forall s defs, DiffStagedRow row' s defs = DiffStagedRow row s defs.
Proof.
  unfold buildExportRow. intros Hrun. repeat (apply prog_bind_inv_ok in Hrun as (? & ? & Hstep & Hrun);
    rewrite (prog_bind_ok _ _ _ _ _ Hstep); clear Hstep). injection Hrun as <- <-. split; [done|]. by eexists.
Qed.

Lemma build_rows_each items paths rows :
  build_rows g items paths w = (Ok rows, w) ->
  Forall2 (fun item row => buildExportRow g item paths w = (Ok row, w)) items rows.
Proof.
  revert rows. induction items as [|item items IH]; intros rows; cbn [build_rows]; [intros [= <-]; constructor|].
  intros (row & w1 & H1 & Hrun)%prog_bind_inv_ok.
  assert (w1 = w) as -> by exact (still_ok _ _ _ _ (still_buildExportRow g item paths) H1).
  apply prog_bind_inv_ok in Hrun as (rest & w2 & H2 & Hrun). injection Hrun as <- ->.
  constructor; [done|by apply IH].
Qed.

Lemma assembleExportRows_ok rows defs w1 :
  assembleExportRows g w = (Ok (rows, defs), w1) ->
  w1 = w /\ CustomFieldDefs_List g w = (Ok defs, w) /\
  exists items paths, items ≡ₚ live_items /\
    Forall2 (fun item row => buildExportRow g item paths w = (Ok row, w)) items rows.
Proof.
  unfold assembleExportRows. rewrite (prog_bind_ok _ _ _ _ _ listAllItemsForExport_all). cbv zeta.
  intros (ds & w2 & Hd & Hrun)%prog_bind_inv_ok. assert (w2 = w) as -> by (by injection Hd as _ <-).
  apply prog_bind_inv_ok in Hrun as (ls & w3 & Hl & Hrun). assert (w3 = w) as -> by (by injection Hl as _ <-).
  apply prog_bind_inv_ok in Hrun as (rs & w4 & Hr & Hrun). injection Hrun as <- <- <-.
  assert (w4 = w) as -> by exact (still_ok _ _ _ _ (still_build_rows g _ _) Hr).
  split_and!; [done|done|]. eexists _, _. split; [|by apply build_rows_each].
  by rewrite !order_by_Permutation.
Qed.
End assemble.

(** ** The preview *)

Lemma distinctNonEmptySourceIDs_elem rows id :
  id ∈ distinctNonEmptySourceIDs rows <-> id <> ""%string /\ exists row, row ∈ rows /\ sr_SourceID row = id.
Proof.
  unfold distinctNonEmptySourceIDs. induction rows as [|row rows IH] using rev_ind; [set_solver|].
  rewrite foldl_app. cbn [foldl]. setoid_rewrite elem_of_app. setoid_rewrite list_elem_of_singleton.
  destruct (String.eqb_spec (sr_SourceID row) "") as [He|Hne]; cbn [orb]; [naive_solver|].
  case_bool_decide as Hin; [naive_solver|]. rewrite elem_of_app, list_elem_of_singleton. naive_solver.
Qed.

Section classify.
Context `{Entropy, FloatText} (g : string) (w : World) (defs : list CustomFieldDef).

(** The location of the row is there. *)
Definition location_there (row : ExportRow) : Prop :=
  forall l, nullString (text_of (item_LocationID (Cols (er_Item row)))) = Some l ->
  exists loc, Locations_Get g l w = (Ok loc, w).

(** What an unmodified row is staged as. *)
Definition staged_as (row : ExportRow) (s : StagedRow) : Prop :=
  sr_Action s = RowActionUpdate /\ sr_ID s = ID (er_Item row) /\
  sr_LocationID s = nullString (text_of (item_LocationID (Cols (er_Item row)))) /\ DiffStagedRow row s defs = [].

(** What the preview says about it. *)
Definition called_unchanged (row : ExportRow) (cr : ImportClassifiedRow) : Prop :=
  icl_Action cr = "unchanged"%string /\ icl_ItemID cr = ID (er_Item row) /\ icl_Changes cr = [] /\ icl_Errors cr = [].

Lemma location_live_there live row s :
  (forall l b, live !! l = Some b -> b = true) -> location_there row -> staged_as row s ->
  exists live', location_live g live s w = (Ok (true, live'), w) /\ (forall l b, live' !! l = Some b -> b = true).
Proof.
  intros Hlive Hloc (_ & _ & Hs & _). unfold location_live. rewrite Hs.
  unfold location_there in Hloc. destruct (nullString _) as [l|]; [|by exists live].
  destruct (Hloc l eq_refl) as [loc Hget]. destruct l as [|c l]; [by exists live|].
  destruct (live !! String c l) as [b|] eqn:E; [rewrite (Hlive _ _ E); by exists live|].
  exists (<[String c l := true]> live). unfold mbind, prog_bind, try. rewrite Hget. split; [done|].
  intros l' b [[_ <-]|[_ Hb]]%lookup_insert_Some; [done|by eapply Hlive].
Qed.

Lemma classify_rows_unchanged (itemsByID : gmap string Item) live rows staged :
  (forall l b, live !! l = Some b -> b = true) ->
  Forall (fun row => itemsByID !! ID (er_Item row) = Some (er_Item row) /\ location_there row /\
    exists paths, buildExportRow g (er_Item row) paths w = (Ok row, w)) rows ->
  Forall2 staged_as rows staged ->
  exists cs, classify_rows g defs itemsByID live staged w = (Ok cs, w) /\ Forall2 called_unchanged rows cs.
Proof.
  intros Hlive Hrows Hst. revert live Hlive. induction Hst as [|row s rows staged Hs Hst IH]; intros live Hlive.
  { by exists []. }
  apply Forall_cons in Hrows as [(Hby & Hloc & paths & Hrow) Hrows].
  destruct (location_live_there live row s Hlive Hloc Hs) as (live' & Hl & Hlive').
  destruct (buildExportRow_paths _ _ _ _ _ _ Hrow) as (_ & row' & Hrow' & Hdiff).
  destruct (IH Hrows live' Hlive') as (cs & Hcs & Hall). destruct Hs as (Ha & Hid & _ & Hd).
  eexists (_ :: cs). split; [|constructor; [|exact Hall]].
  - cbn [classify_rows]. unfold classify_row. rewrite Ha. cbv zeta beta iota. unfold mbind, prog_bind.
    rewrite Hl. cbn [negb]. rewrite Hid, Hby. cbn [default from_option id]. rewrite Hrow', Hdiff, Hd. cbv beta iota.
    unfold mret, prog_ret. by rewrite Hcs.
  - by split_and!.
Qed.

Lemma summarize_unchanged rows cs :
  Forall2 called_unchanged rows cs -> summarize cs = mkSummary 0 0 (Z.of_nat (length rows)) 0.
Proof.
  intros Hall. unfold summarize, count_action.
  assert (Hf : forall a, List.filter (fun r => icl_Action r =?s a) cs = if "unchanged" =?s a then cs else []).
  { intros a. induction Hall as [|row cr rows cs (Ha & _) Hall IH]; cbn [List.filter]; [by destruct (_ =?s a)|].
    rewrite Ha, IH. by destruct (_ =?s a). }
  rewrite !Hf. cbn. by rewrite (Forall2_length _ _ _ Hall).
Qed.
End classify.

Section flow.
Context `{Entropy, FloatText} (g : string) (w : World) (rows : list ExportRow) (defs : list CustomFieldDef).
Hypothesis db_fine : db_ok (wdb w).
Hypothesis exported : assembleExportRows g w = (Ok (rows, defs), w).
Hypothesis defs_fine : Forall def_ok defs.
Hypothesis rows_fine : Forall (row_ok defs) rows.
Hypothesis no_crlf : cells_crlf_free defs rows.
Hypothesis locations_there : Forall (location_there g w) rows.

#[local] Abbreviation live_items := (where_ (D := ItemCols) (fun r => (GroupID r =?s g) && live r) (items (wdb w))).

Lemma exported_items :
  er_Item <$> rows ≡ₚ live_items /\
  Forall (fun row => exists paths, buildExportRow g (er_Item row) paths w = (Ok row, w)) rows.
Proof.
  destruct (assembleExportRows_ok g w _ _ _ exported) as (_ & _ & its & paths & Hperm & Hall). split.
  - rewrite <- Hperm. clear -Hall. induction Hall as [|it row its rows Hrow Hall IH]; [done|]. cbn [fmap list_fmap].
    apply buildExportRow_paths in Hrow as [-> _]. by constructor.
  - clear -Hall. induction Hall as [|it row its rows Hrow Hall IH]; constructor; [|done].
    exists paths. destruct (buildExportRow_paths _ _ _ _ _ _ Hrow) as [-> _]. done.
Qed.

Lemma defs_nodup : NoDup (ID <$> defs).
Proof.
  destruct (assembleExportRows_ok g w _ _ _ exported) as (_ & Hd & _). injection Hd as Hd.
  rewrite <- Hd, order_by_Permutation. apply NoDup_where_ids.
  exact (table_ok_keyed CustomFieldDefCols (wdb w) (ok_custom_field_defs _ db_fine)).
Qed.

(** The rows of the file, whatever ids are known. *)
Lemma staged_rows existing :
  exists staged, ParseCSV (EncodeCSV defs rows) existing defs = Some staged /\
    Forall2 (fun row s => sr_SourceID s = ID (er_Item row) /\
      (ID (er_Item row) ∈ existing -> staged_as defs row s)) rows staged.
Proof.
  destruct (ParseCSV_records defs rows existing defs_nodup defs_fine rows_fine no_crlf) as (lines & Hlen & ->).
  eexists. split; [done|]. apply Forall2_lookup. intros i. rewrite lookup_zip_with.
  destruct (rows !! i) as [row|] eqn:Hi.
  - apply lookup_lt_Some in Hi as Hlt. destruct (lookup_lt_is_Some_2 lines i) as [l Hl]; [lia|]. rewrite Hl. cbn.
    constructor. apply list_elem_of_lookup_2 in Hi as Hin.
    destruct (parseRow_cells defs rows row l existing) as [Hid Hloc].
    split; [done|]. intros Hex.
    destruct (parseRow_encode defs rows row defs_nodup defs_fine rows_fine Hin l existing Hex) as (_ & ? & ? & ?).
    by split_and!.
  - rewrite (lookup_ge_None_2 lines); [constructor|]. apply lookup_ge_None in Hi. lia.
Qed.

Lemma row_item_live row : row ∈ rows -> er_Item row ∈ live_items.
Proof. intros Hin. rewrite <- (proj1 exported_items). by apply list_elem_of_fmap_2. Qed.

(** The items that the preview looks up by the ids of the file. *)
Lemma looked_up (ids : list string) :
  (forall id, id ∈ ids <-> id ∈ (ID ∘ er_Item <$> rows)) ->
  let found := where_ (D := ItemCols) (fun r => (GroupID r =?s g) && bool_decide (ID r ∈ ids) && live r) (items (wdb w)) in
  forall row, row ∈ rows -> foldl (fun m item => <[ID item := item]> m) (∅ : gmap string Item) found !! ID (er_Item row)
    = Some (er_Item row).
Proof.
  intros Hids found row Hin. apply (foldl_insert_lookup ID id).
  { apply NoDup_where_ids, items_keyed, db_fine. }
  exists (er_Item row). split_and!; [|done..]. pose proof (row_item_live _ Hin) as Hl.
  apply elem_of_where in Hl as [Hk HP]. apply elem_of_where. split; [done|]. bool_facts. cbn in *.
  match goal with Hg : GroupID _ = _, Hlv : live _ = true |- _ => rewrite Hg, Hlv end.
  rewrite string_eqb_refl, bool_decide_eq_true_2; [done|]. apply Hids. by apply (list_elem_of_fmap_2 (ID ∘ er_Item)).
Qed.

Lemma classify_export :
  exists cs, classifyImportRows g (EncodeCSV defs rows) w = (Ok (cs, mkSummary 0 0 (Z.of_nat (length rows)) 0), w) /\
    Forall2 called_unchanged rows cs.
Proof.
  destruct (staged_rows ∅) as (prelim & Hprelim & Hfirst).
  set (ids := distinctNonEmptySourceIDs prelim).
  assert (Hids : forall id, id ∈ ids <-> id ∈ (ID ∘ er_Item <$> rows)).
  { intros id. unfold ids. rewrite distinctNonEmptySourceIDs_elem, list_elem_of_fmap. split.
    - intros [_ (s & Hs & <-)]. apply list_elem_of_lookup in Hs as [i Hi].
      destruct (Forall2_lookup_r _ _ _ _ _ Hfirst Hi) as (row & Hrow & Hid & _).
      exists row. split; [done|]. by eapply list_elem_of_lookup_2.
    - intros (row & -> & Hrow). split; [by eapply ok_id, (proj1 (Forall_forall _ _) rows_fine)|].
      apply list_elem_of_lookup in Hrow as [i Hi]. destruct (Forall2_lookup_l _ _ _ _ _ Hfirst Hi) as (s & Hs & Hid & _).
      exists s. split; [by eapply list_elem_of_lookup_2|done]. }
  set (found := where_ (D := ItemCols) (fun r => (GroupID r =?s g) && bool_decide (ID r ∈ ids) && live r) (items (wdb w))).
  assert (Hget : (match ids with [] => mret [] | i :: l => Items_GetByIDs g (i :: l) end) w
    = (Ok (match ids with [] => [] | _ => found end), w)) by by destruct ids.
  pose proof (looked_up ids Hids) as Hlook. cbv zeta in Hlook. fold found in Hlook.
  set (items := match ids with [] => [] | _ => found end) in Hget.
  set (byID := foldl (fun m item => <[ID item := item]> m) (∅ : gmap string Item) items).
  assert (Hby : forall row, row ∈ rows -> byID !! ID (er_Item row) = Some (er_Item row)).
  { intros row Hin. unfold byID, items. destruct ids as [|i ids'] eqn:E; [|by apply Hlook].
    exfalso. apply (not_elem_of_nil (ID (er_Item row))). rewrite Hids. by apply (list_elem_of_fmap_2 (ID ∘ er_Item)). }
  destruct (staged_rows (dom byID)) as (staged & Hstaged & Hsecond).
  destruct (classify_rows_unchanged g w defs byID ∅ rows staged) as (cs & Hcs & Hall).
  - intros l b Hl. by rewrite lookup_empty in Hl.
  - apply Forall_forall. intros row Hin. split_and!; [by apply Hby|by apply (proj1 (Forall_forall _ _) locations_there)|].
    by apply (proj1 (Forall_forall _ _) (proj2 exported_items)).
  - apply Forall2_lookup. intros i. destruct (rows !! i) as [row|] eqn:Hr.
    + destruct (Forall2_lookup_l _ _ _ _ _ Hsecond Hr) as (s & -> & _ & Hst). constructor.
      apply Hst, elem_of_dom. exists (er_Item row). by eapply Hby, list_elem_of_lookup_2.
    + rewrite (lookup_ge_None_2 staged); [constructor|]. rewrite <- (Forall2_length _ _ _ Hsecond).
      by apply lookup_ge_None.
  - exists cs. split; [|done]. unfold classifyImportRows.
    destruct (assembleExportRows_ok g w _ _ _ exported) as (_ & Hd & _). rewrite (prog_bind_ok _ _ _ _ _ Hd).
    rewrite Hprelim. fold ids. rewrite (prog_bind_ok _ _ _ _ _ Hget). cbv zeta. fold byID. rewrite Hstaged.
    rewrite (prog_bind_ok _ _ _ _ _ Hcs). unfold mret, prog_ret. by rewrite (summarize_unchanged _ _ Hall).
Qed.
End flow.

(** ** The commit *)

Section commit.
Context `{Entropy, FloatText} (g : string).

Lemma commit_rows_unchanged now rows cs r w :
  Forall2 called_unchanged rows cs ->
  commit_rows g now (toImportCommitRows cs) r w
  = (Ok (mkImportResult (imr_Created r) (imr_Updated r) (imr_Unchanged r + Z.of_nat (length rows)) (imr_CreatedItems r)), w).
Proof.
  intros Hall. revert r. induction Hall as [|row cr rows cs (Ha & _) Hall IH]; intros r.
  { cbn. rewrite Z.add_0_r. by destruct r. }
  unfold toImportCommitRows. cbn [omap list_omap]. unfold toImportCommitRow at 1. rewrite Ha. cbn [String.eqb Ascii.eqb Bool.eqb].
  cbn [commit_rows]. unfold commit_row. cbn [icr_Action]. unfold mbind, prog_bind, mret, prog_ret.
  cbn [String.eqb Ascii.eqb Bool.eqb ImportCommitRowUnchanged ImportCommitRowCreate ImportCommitRowUpdate].
  fold (toImportCommitRows cs). rewrite IH. cbn [imr_Created imr_Updated imr_Unchanged imr_CreatedItems].
  cbn [length]. by rewrite <- Z.add_assoc, Z.add_1_l, Nat2Z.inj_succ.
Qed.

Lemma resolve_staged importID now w session :
  import_sessions (wdb w) !! importID = Some session -> imp_GroupID session = g ->
  imp_Status session = status_staged -> (now < imp_ExpiresAt session)%Z ->
  resolveStagedImportSession g importID now w = (Ok SessionStaged, w).
Proof.
  intros Hs Hg Hst Hexp. unfold resolveStagedImportSession, ImportSessions_Get, GetImportSession, no_rows_as, try.
  unfold mbind, prog_bind. rewrite Hs, Hg, string_eqb_refl. cbn. rewrite Hst. cbn.
  by rewrite (proj2 (Z.ltb_lt _ _) Hexp).
Qed.
End commit.


(** Two items, one of them in a room, with a label, a warranty and a custom
    field. *)
Definition demo_inventory : list event :=
  demo_setup ++
  [OfGroup "g1" (ItemsCreate (mkCreateItem "i2" "Desk" "oak, wide" "room" 1 "CODE2" 104));
   OfGroup "g1" (ItemLabelsAttach (mkAttachLabel "e1" "i1" "l1" 105));
   OfGroup "g1" (CustomFieldDefsCreate (mkCreateCustomFieldDef "d1" "Color" "text" 0 106));
   OfGroup "g1" (ItemCustomFieldsCreate (mkCreateItemCustomField "v1" "i2" "d1" "Color" "text" (Some "brown") None None None 107));
   OfGroup "g1" (WarrantyCreate (mkCreateWarrantyP "w1" "i2" "me" "Acme" "2024-02-29" "" false "" 108));
   OfGroup "g1" (ImportSessionsCreate (mkCreateImportSession "s1" "household-csv" 110))]%string.

Definition demo_assembled : list ExportRow * list CustomFieldDef := Eval vm_compute in
  match (assembleExportRows "g1" (serve demo_inventory (initial demo_groups))).1 with Ok r => r | Err _ => ([], []) end.

Lemma demo_assembled_ok : Forall (row_ok demo_assembled.2) demo_assembled.1.
Proof.
  unfold demo_assembled. cbn [fst snd].
  constructor; [|constructor; [|constructor]]; split; cbn; try done; try (unfold int64_min, int64_max; lia);
    try (by repeat constructor).
  - by intros w [= <-].
  - constructor; [|constructor]. split; [left; split; [done|]; by eexists|]. by intros d ->%list_elem_of_singleton.
Qed.

