(* ===== verification/Base64.v ===== *)
(** * Base64 (Go's encoding/base64)

    [base64.RawStdEncoding] on byte strings: the standard alphabet, no padding.
    The decoder skips carriage returns and line feeds anywhere, refuses every
    other byte outside the alphabet, and does not look at the bits that the
    last digit has too many. *)

From S2P Require Import Prelude Escape.
From Stdlib Require Import Strings.Ascii.

Local Open Scope Z_scope.

#[local] Arguments String.append !_ _ / : simpl nomatch.

Definition byte_of (z : Z) : ascii := ascii_of_N (Z.to_N z).
Definition to_byte (c : ascii) : Z := Z.of_N (N_of_ascii c).

Definition encodeStd : list ascii :=
  list_ascii_of_string "ABCDEFGHIJKLMNOPQRSTUVWXYZabcdefghijklmnopqrstuvwxyz0123456789+/".

Definition base64_digit (n : Z) : ascii := nth (Z.to_nat n) encodeStd "A"%char.

Definition base64_value (c : ascii) : option Z :=
  (fun p => Z.of_nat p.1) <$> list_find (fun d => c = d) encodeStd.

(** ** EncodeToString *)

Fixpoint base64_encode (s : string) : string :=
  match s with
  | EmptyString => EmptyString
  | String a EmptyString =>
      let v := to_byte a * 65536 in
      String (base64_digit (v / 262144)) (String (base64_digit (v / 4096 mod 64)) EmptyString)
  | String a (String b EmptyString) =>
      let v := to_byte a * 65536 + to_byte b * 256 in
      String (base64_digit (v / 262144)) (String (base64_digit (v / 4096 mod 64))
        (String (base64_digit (v / 64 mod 64)) EmptyString))
  | String a (String b (String c s)) =>
      let v := to_byte a * 65536 + to_byte b * 256 + to_byte c in
      String (base64_digit (v / 262144)) (String (base64_digit (v / 4096 mod 64))
        (String (base64_digit (v / 64 mod 64)) (String (base64_digit (v mod 64)) (base64_encode s))))
  end.

(** ** DecodeString *)

Fixpoint without_newlines (s : string) : string :=
  match s with
  | EmptyString => EmptyString
  | String c s =>
      if Ascii.eqb c "010" || Ascii.eqb c "013" then without_newlines s else String c (without_newlines s)
  end.

(** The three bytes of four digits. *)
Definition quantum (a b c d : Z) : Z * Z * Z :=
  let v := a * 262144 + b * 4096 + c * 64 + d in (v / 65536, v / 256 mod 256, v mod 256).

Fixpoint decode_quanta (s : string) : option string :=
  match s with
  | EmptyString => Some EmptyString
  | String a EmptyString => None
  | String a (String b EmptyString) =>
      a ← base64_value a; b ← base64_value b;
      let '(x, _, _) := quantum a b 0 0 in Some (String (byte_of x) EmptyString)
  | String a (String b (String c EmptyString)) =>
      a ← base64_value a; b ← base64_value b; c ← base64_value c;
      let '(x, y, _) := quantum a b c 0 in Some (String (byte_of x) (String (byte_of y) EmptyString))
  | String a (String b (String c (String d s))) =>
      a ← base64_value a; b ← base64_value b; c ← base64_value c; d ← base64_value d;
      rest ← decode_quanta s;
      let '(x, y, z) := quantum a b c d in
      Some (String (byte_of x) (String (byte_of y) (String (byte_of z) rest)))
  end.

Definition base64_decode (s : string) : option string := decode_quanta (without_newlines s).

Example base64_demo :
  base64_encode "Many hands" = "TWFueSBoYW5kcw"%string /\ base64_decode "TWFueSBoYW5kcw" = Some "Many hands"%string.
Proof. split; vm_compute; reflexivity. Qed.

(** ** Round trip *)

Lemma byte_range c : 0 <= to_byte c < 256.
Proof. unfold to_byte. pose proof (N_ascii_bounded c). lia. Qed.

Lemma byte_of_to_byte c : byte_of (to_byte c) = c.
Proof. unfold byte_of, to_byte. by rewrite N2Z.id, ascii_N_embedding. Qed.

(** A digit of the alphabet, none of which is a line break or a dollar. *)
Definition digit_ok (n : Z) : bool :=
  bool_decide (base64_value (base64_digit n) = Some n)
  && negb (Ascii.eqb (base64_digit n) "010" || Ascii.eqb (base64_digit n) "013" || Ascii.eqb (base64_digit n) "$").

Lemma digits_ok n : 0 <= n < 64 -> digit_ok n = true.
Proof.
  intros Hn. assert (H : forallb (fun k => digit_ok (Z.of_nat k)) (seq 0 64) = true) by by vm_compute.
  rewrite forallb_forall in H. rewrite <- (Z2Nat.id n) by lia. apply H, in_seq. lia.
Qed.

Lemma base64_value_digit n : 0 <= n < 64 -> base64_value (base64_digit n) = Some n.
Proof. intros [H _]%digits_ok%andb_true_iff. by apply bool_decide_eq_true in H. Qed.

Lemma base64_digit_plain n s : 0 <= n < 64 -> without_newlines (String (base64_digit n) s) = String (base64_digit n) (without_newlines s).
Proof.
  intros [_ H]%digits_ok%andb_true_iff. apply negb_true_iff, orb_false_iff in H as [H _].
  cbn [without_newlines]. by rewrite H.
Qed.

Lemma base64_digit_not_dollar n : 0 <= n < 64 -> Ascii.eqb (base64_digit n) "$" = false.
Proof. intros [_ H]%digits_ok%andb_true_iff. by apply negb_true_iff, orb_false_iff in H as [_ H]. Qed.

Lemma quantum_digits a b c :
  0 <= a < 256 -> 0 <= b < 256 -> 0 <= c < 256 ->
  let v := a * 65536 + b * 256 + c in
  quantum (v / 262144) (v / 4096 mod 64) (v / 64 mod 64) (v mod 64) = (a, b, c).
Proof.
  intros Ha Hb Hc v. unfold quantum. cbv zeta.
  replace (v / 262144 * 262144 + v / 4096 mod 64 * 4096 + v / 64 mod 64 * 64 + v mod 64) with v
    by (Z.to_euclidean_division_equations; lia).
  f_equal; [f_equal|]; subst v; Z.to_euclidean_division_equations; lia.
Qed.

Lemma digit_range v : 0 <= v < 16777216 ->
  0 <= v / 262144 < 64 /\ 0 <= v / 4096 mod 64 < 64 /\ 0 <= v / 64 mod 64 < 64 /\ 0 <= v mod 64 < 64.
Proof. intros. Z.to_euclidean_division_equations. lia. Qed.

Lemma base64_decode_encode s : base64_decode (base64_encode s) = Some s.
Proof.
  unfold base64_decode. revert s. fix IH 1. intros [|a [|b [|c s]]]; [done| | |].
  - pose proof (byte_range a). cbn [base64_encode]. set (v := to_byte a * 65536).
    destruct (digit_range v) as (H0 & H1 & _ & _); [lia|]. rewrite !base64_digit_plain by done.
    cbn [without_newlines decode_quanta]. rewrite !base64_value_digit by done. cbn [mbind option_bind].
    pose proof (quantum_digits (to_byte a) 0 0 ltac:(lia) ltac:(lia) ltac:(lia)) as Hq. cbv zeta in Hq.
    replace (to_byte a * 65536 + 0 * 256 + 0) with v in Hq by lia.
    replace (v / 64 mod 64) with 0 in Hq by (subst v; Z.to_euclidean_division_equations; lia).
    replace (v mod 64) with 0 in Hq by (subst v; Z.to_euclidean_division_equations; lia).
    by rewrite Hq, byte_of_to_byte.
  - pose proof (byte_range a). pose proof (byte_range b). cbn [base64_encode]. set (v := to_byte a * 65536 + to_byte b * 256).
    destruct (digit_range v) as (H1 & H2 & H3 & _); [lia|]. rewrite !base64_digit_plain by done.
    cbn [without_newlines decode_quanta]. rewrite !base64_value_digit by done. cbn [mbind option_bind].
    pose proof (quantum_digits (to_byte a) (to_byte b) 0 ltac:(lia) ltac:(lia) ltac:(lia)) as Hq. cbv zeta in Hq.
    replace (to_byte a * 65536 + to_byte b * 256 + 0) with v in Hq by lia.
    replace (v mod 64) with 0 in Hq by (subst v; Z.to_euclidean_division_equations; lia).
    by rewrite Hq, !byte_of_to_byte.
  - pose proof (byte_range a). pose proof (byte_range b). pose proof (byte_range c). cbn [base64_encode].
    set (v := to_byte a * 65536 + to_byte b * 256 + to_byte c).
    destruct (digit_range v) as (H2 & H3 & H4 & H5); [lia|]. rewrite !base64_digit_plain by done.
    cbn [decode_quanta]. rewrite !base64_value_digit, IH by done. cbn [mbind option_bind].
    subst v. by rewrite quantum_digits, !byte_of_to_byte by done.
Qed.

(** What holds of every digit holds of every byte of the text. *)
Lemma base64_encode_all p s :
  (forall n, 0 <= n < 64 -> p (base64_digit n) = true) -> forallb p (list_ascii_of_string (base64_encode s)) = true.
Proof.
  intros Hp. revert s. fix IH 1. intros [|a [|b [|c s]]]; cbn [base64_encode list_ascii_of_string forallb]; [done| | |].
  - pose proof (byte_range a). destruct (digit_range (to_byte a * 65536)) as (H0 & H1 & _ & _); [lia|]. by rewrite !Hp.
  - pose proof (byte_range a). pose proof (byte_range b).
    destruct (digit_range (to_byte a * 65536 + to_byte b * 256)) as (H1 & H2 & H3 & _); [lia|]. by rewrite !Hp.
  - pose proof (byte_range a). pose proof (byte_range b). pose proof (byte_range c).
    destruct (digit_range (to_byte a * 65536 + to_byte b * 256 + to_byte c)) as (H2 & H3 & H4 & H5); [lia|].
    rewrite !Hp by done. apply IH.
Qed.

(** The text has no dollar sign. *)
Lemma base64_encode_no_dollar s : contains_byte (base64_encode s) "$" = false.
Proof.
  pose proof (base64_encode_all (fun c => negb (Ascii.eqb c "$")) s) as H.
  assert (Hd : forall n, 0 <= n < 64 -> negb (Ascii.eqb (base64_digit n) "$") = true)
    by (intros n Hn; by rewrite base64_digit_not_dollar).
  specialize (H Hd). clear Hd. induction (base64_encode s) as [|c t IH]; [done|]. cbn in *.
  apply andb_true_iff in H as [H1 H2]. apply negb_true_iff in H1. rewrite IH by done. by rewrite H1.
Qed.
