(* ===== verification/Password.v ===== *)
(** * Password hashes (auth/phc.go, auth/password.go)

    The PHC text of an argon2id hash, the limits that a stored hash must keep
    before it is handed to argon2, and the operations of a [Hasher].  argon2
    itself is a parameter.  [derive] first waits for one of the hasher's slots;
    the outcome of the wait (a slot, or the error of the context) is an
    argument.  The [ReclaimPolicy] has no effect on results. *)

From S2P Require Import Prelude GoBase Sql Escape Strconv Base64.
From Stdlib Require Import Strings.Ascii.

Local Open Scope Z_scope.

#[local] Arguments String.append !_ _ / : simpl nomatch.

(** [golang.org/x/crypto/argon2]: [IDKey(password, salt, time, memory,
    threads, keyLen)] is a key of [keyLen] bytes. *)
Class Argon2 := {
  argon2_Version : Z;
  IDKey : string -> string -> Z -> Z -> Z -> Z -> string;
  argon2_Version_range : 0 <= argon2_Version < 2 ^ 32;
  IDKey_length password salt time memory threads keyLen :
    0 <= keyLen -> Z.of_nat (String.length (IDKey password salt time memory threads keyLen)) = keyLen;
}.

Definition ErrMalformedHash : GoError := ErrMessage "auth: stored password hash is not a readable argon2id hash".
Definition ErrMismatch : GoError := ErrMessage "auth: password does not match".

(** ** Parameters and their limits *)

(** [uint32], [uint32], [uint8], [int] and [int]. *)
Record Params := mkParams {
  MemoryKiB : Z; Time : Z; Parallelism : Z; SaltLength : Z; KeyLength : Z }.

#[global] Instance Params_eq_dec : EqDecision Params.
Proof. solve_decision. Defined.

Definition DefaultParams : Params := mkParams (12 * 1024) 4 1 16 32.

Record DecodeLimits := mkLimits {
  minMemoryKiB : Z; maxMemoryKiB : Z; minTime : Z; maxTime : Z; minParallelism : Z; maxParallelism : Z;
  minSaltLen : Z; maxSaltLen : Z; minKeyLen : Z; maxKeyLen : Z }.

Definition decodeLimits : DecodeLimits := mkLimits 8 (64 * 1024) 1 64 1 8 8 64 16 64.

(** Whether [checkLimits] returns nil. *)
Definition checkLimits (p : Params) : bool :=
  let l := decodeLimits in
  let outside x lo hi := (x <? lo) || (hi <? x) in
  if outside (MemoryKiB p) (minMemoryKiB l) (maxMemoryKiB l) then false
  else if outside (Time p) (minTime l) (maxTime l) then false
  else if outside (Parallelism p) (minParallelism l) (maxParallelism l) then false
  else if outside (SaltLength p) (minSaltLen l) (maxSaltLen l) then false
  else if outside (KeyLength p) (minKeyLen l) (maxKeyLen l) then false
  else if MemoryKiB p <? 8 * Parallelism p then false
  else true.

Definition withinDecodeLimits (p : Params) : res unit :=
  if checkLimits p then Ok tt else Err ErrMalformedHash.

Definition Params_Validate (p : Params) : res unit :=
  if checkLimits p then Ok tt else Err (ErrMessage "auth: unusable argon2id parameters").

(** ** The PHC text *)

Record decodedHash := mkDecoded { dec_params : Params; dec_salt : string; dec_key : string }.

Section argon2.
Context `{Argon2}.

Definition encode (p : Params) (salt key : string) : string :=
  ("$argon2id$v=" ++ FormatInt argon2_Version ++ "$m=" ++ FormatUint (MemoryKiB p)
   ++ ",t=" ++ FormatUint (Time p) ++ ",p=" ++ FormatUint (Parallelism p)
   ++ "$" ++ base64_encode salt ++ "$" ++ base64_encode key)%string.

(** The number of a field [prefix<n>]. *)
Definition prefixed_uint (prefix field : string) (bits : Z) : option Z :=
  rest ← strip_prefix prefix field; ParseUint rest bits.

Definition decode_fields (encoded : string) : option decodedHash :=
  match Split encoded "$" with
  | [empty; algorithm; versionField; paramField; saltField; keyField] =>
      if negb (empty =?s "") || negb (algorithm =?s "argon2id") then None else
      version ← prefixed_uint "v=" versionField 32;
      if negb (version =? argon2_Version) then None else
      match Split paramField "," with
      | [m; t; p] =>
          memory ← prefixed_uint "m=" m 32;
          time ← prefixed_uint "t=" t 32;
          parallelism ← prefixed_uint "p=" p 8;
          salt ← base64_decode saltField;
          key ← base64_decode keyField;
          Some (mkDecoded (mkParams memory time parallelism (Z.of_nat (String.length salt))
                             (Z.of_nat (String.length key))) salt key)
      | _ => None
      end
  | _ => None
  end.

Definition decode (encoded : string) : res decodedHash :=
  match decode_fields encoded with
  | None => Err ErrMalformedHash
  | Some d => _ ← withinDecodeLimits (dec_params d); Ok d
  end.

(** ** Hasher *)

Inductive ReclaimPolicy := ReclaimOSMemory | RetainOSMemory | OtherPolicy (n : Z).

Record HasherConfig := mkHasherConfig { hc_Params : Params; hc_MaxInFlight : Z; hc_Reclaim : ReclaimPolicy }.
Record Hasher := mkHasher { h_params : Params; h_slots : Z; h_reclaim : ReclaimPolicy }.

Definition DefaultMaxInFlight : Z := 1.

Definition NewHasher (cfg : HasherConfig) : res Hasher :=
  let params := if bool_decide (hc_Params cfg = mkParams 0 0 0 0 0) then DefaultParams else hc_Params cfg in
  _ ← Params_Validate params;
  let maxInFlight := if hc_MaxInFlight cfg =? 0 then DefaultMaxInFlight else hc_MaxInFlight cfg in
  if maxInFlight <? 0 then Err (ErrMessage "auth: MaxInFlight is negative") else
  match hc_Reclaim cfg with
  | OtherPolicy _ => Err (ErrMessage "auth: unknown ReclaimPolicy")
  | policy => Ok (mkHasher params maxInFlight policy)
  end.

(** [slot] is the outcome of waiting for a slot. *)
Definition derive (slot : res unit) (password salt : string) (p : Params) : res string :=
  _ ← slot;
  _ ← withinDecodeLimits p;
  Ok (IDKey password salt (Time p) (MemoryKiB p) (Parallelism p) (KeyLength p)).

(** [salt] is what [rand.Read] filled the salt with. *)
Definition Hash (h : Hasher) (slot : res unit) (salt : option string) (password : string) : res string :=
  match salt with
  | None => Err (ErrMessage "auth: cannot draw a salt")
  | Some salt =>
      key ← derive slot password salt (h_params h);
      Ok (encode (h_params h) salt key)
  end.

Definition Verify (slot : res unit) (encoded password : string) : res unit :=
  d ← decode encoded;
  key ← derive slot password (dec_salt d) (dec_params d);
  if key =?s dec_key d then Ok tt else Err ErrMismatch.

(** [decoy] is what [rand.Read] filled salt and key with. *)
Definition VerifyAbsent (h : Hasher) (slot : res unit) (decoy : option (string * string)) (password : string) :
    res unit :=
  match decoy with
  | None => Err (ErrMessage "auth: cannot draw a decoy salt")
  | Some (salt, want) =>
      key ← derive slot password salt (h_params h);
      if key =?s want then Ok tt else Err ErrMismatch
  end.

Definition NeedsRehash (h : Hasher) (encoded : string) : bool :=
  match decode encoded with
  | Err _ => true
  | Ok d => negb (bool_decide (dec_params d = h_params h))
  end.
End argon2.

(** ** Reading back what was written *)

Lemma contains_byte_app a b c : contains_byte (a ++ b) c = contains_byte a c || contains_byte b c.
Proof. induction a as [|x a IH]; [done|]. cbn [String.append contains_byte]. by rewrite IH, orb_assoc. Qed.

Lemma Split_last a sep : contains_byte a sep = false -> Split a sep = [a].
Proof.
  induction a as [|x a IH]; cbn [contains_byte Split]; [done|]. intros [Hx Ha]%orb_false_iff. by rewrite Hx, IH.
Qed.

Lemma Split_first a sep rest :
  contains_byte a sep = false -> Split (a ++ String sep rest) sep = a :: Split rest sep.
Proof.
  induction a as [|x a IH]; cbn [contains_byte String.append Split]; [by rewrite Ascii.eqb_refl|].
  intros [Hx Ha]%orb_false_iff. by rewrite Hx, IH.
Qed.

Lemma strip_prefix_app p s : strip_prefix p (p ++ s) = Some s.
Proof. induction p as [|c p IH]; [done|]. cbn [String.append strip_prefix]. by rewrite Ascii.eqb_refl. Qed.

Lemma contains_digit_not c n : digit_value c = None -> 0 <= n <= 9 -> Ascii.eqb (digit n) c = false.
Proof.
  intros Hc Hn. apply Ascii.eqb_neq. intros <-. by rewrite digit_value_digit in Hc.
Qed.

Lemma FormatUint_plain n c : digit_value c = None -> contains_byte (FormatUint n) c = false.
Proof.
  intros Hc. unfold FormatUint. assert (Hacc : contains_byte EmptyString c = false) by done.
  revert Hacc. generalize EmptyString. revert n. generalize 20%nat. intros fuel. induction fuel as [|fuel IH]; intros n acc Hacc; [done|].
  cbn [format_loop]. assert (Ha : contains_byte (String (digit (n mod 10)) acc) c = false).
  { cbn [contains_byte]. rewrite Hacc, contains_digit_not; [done|done|]. pose proof (Z.mod_pos_bound n 10). lia. }
  destruct (n <? 10); [done|by apply IH].
Qed.

Section codec.
Context `{Argon2}.

Lemma prefixed_uint_format prefix n bits :
  0 <= bits <= 64 -> 0 <= n < 2 ^ bits -> prefixed_uint prefix (prefix ++ FormatUint n) bits = Some n.
Proof. intros Hb Hn. unfold prefixed_uint. rewrite strip_prefix_app. by apply ParseUint_FormatUint. Qed.

(** What the limits say. *)
Definition limits (p : Params) : Prop :=
  8 <= MemoryKiB p <= 65536 /\ 1 <= Time p <= 64 /\ 1 <= Parallelism p <= 8 /\
  8 <= SaltLength p <= 64 /\ 16 <= KeyLength p <= 64 /\ 8 * Parallelism p <= MemoryKiB p.

Lemma checkLimits_iff p : checkLimits p = true <-> limits p.
Proof.
  unfold checkLimits, limits, decodeLimits. cbn.
  repeat match goal with |- context [if ?b then _ else _] => destruct b eqn:? end; bool_facts;
    rewrite ?orb_false_iff, ?orb_true_iff, ?Z.ltb_lt, ?Z.ltb_ge in *; split; (done || lia).
Qed.

Lemma decode_encode p salt key :
  limits p -> Z.of_nat (String.length salt) = SaltLength p -> Z.of_nat (String.length key) = KeyLength p ->
  decode (encode p salt key) = Ok (mkDecoded p salt key).
Proof.
  intros Hp Hs Hk. pose proof Hp as (Hm & Ht & Hpar & _). pose proof argon2_Version_range.
  unfold decode. replace (decode_fields (encode p salt key)) with (Some (mkDecoded p salt key)).
  { cbn [dec_params]. unfold withinDecodeLimits. by rewrite (proj2 (checkLimits_iff p) Hp). }
  unfold decode_fields, encode, FormatInt. destruct (Z.ltb_spec argon2_Version 0); [lia|].
  set (v := FormatUint argon2_Version). set (m := FormatUint (MemoryKiB p)).
  set (t := FormatUint (Time p)). set (q := FormatUint (Parallelism p)).
  assert (E : ("$argon2id$v=" ++ v ++ "$m=" ++ m ++ ",t=" ++ t ++ ",p=" ++ q ++ "$" ++ base64_encode salt ++ "$" ++ base64_encode key
    = "" ++ String "$" ("argon2id" ++ String "$" (("v=" ++ v) ++ String "$" (("m=" ++ m ++ ",t=" ++ t ++ ",p=" ++ q)
        ++ String "$" (base64_encode salt ++ String "$" (base64_encode key))))))%string)
    by (rewrite !string_app_assoc; reflexivity).
  rewrite E. clear E.
  assert (Hplain : forall n c, digit_value c = None -> contains_byte (FormatUint n) c = false) by apply FormatUint_plain.
  rewrite (Split_first "" "$"), (Split_first "argon2id" "$"), (Split_first ("v=" ++ v) "$"),
    (Split_first ("m=" ++ m ++ ",t=" ++ t ++ ",p=" ++ q) "$"), (Split_first (base64_encode salt) "$"), Split_last
    by (rewrite ?contains_byte_app; cbn [contains_byte]; rewrite ?contains_byte_app, ?base64_encode_no_dollar;
        cbn [contains_byte]; rewrite ?contains_byte_app; unfold v, m, t, q; rewrite ?Hplain by done; done).
  rewrite !string_eqb_refl. cbn [negb orb]. unfold v. rewrite prefixed_uint_format by lia. cbn [mbind option_bind].
  rewrite Z.eqb_refl. cbn [negb].
  assert (E : ("m=" ++ m ++ ",t=" ++ t ++ ",p=" ++ q = ("m=" ++ m) ++ String "," (("t=" ++ t) ++ String "," ("p=" ++ q)))%string)
    by (rewrite !string_app_assoc; reflexivity).
  rewrite E. clear E.
  rewrite (Split_first ("m=" ++ m) ","), (Split_first ("t=" ++ t) ","), Split_last
    by (rewrite ?contains_byte_app; unfold m, t, q; rewrite Hplain by done; done).
  unfold m, t, q. rewrite !prefixed_uint_format by (change (2 ^ 32) with 4294967296; change (2 ^ 8) with 256; lia).
  cbn [mbind option_bind]. rewrite !base64_decode_encode. cbn [mbind option_bind].
  rewrite Hs, Hk. by destruct p.
Qed.

(** Whatever is stored, what is handed to argon2 is within the limits. *)
Lemma decode_ok encoded d :
  decode encoded = Ok d ->
  limits (dec_params d) /\ SaltLength (dec_params d) = Z.of_nat (String.length (dec_salt d)) /\
  KeyLength (dec_params d) = Z.of_nat (String.length (dec_key d)).
Proof.
  unfold decode. destruct (decode_fields encoded) as [d'|] eqn:E; [|done]. unfold withinDecodeLimits.
  destruct (checkLimits (dec_params d')) eqn:Hl; [|done]. cbn. intros [= <-]. split; [by apply checkLimits_iff|].
  unfold decode_fields in E. cbn in E.
  repeat (case_match; try done;
    repeat match type of E with context [?o ≫= _] => destruct o; cbn in E; try done end); by simplify_eq.
Qed.
End codec.

(** ** Properties *)

Lemma NewHasher_limits cfg h : NewHasher cfg = Ok h -> limits (h_params h).
Proof.
  unfold NewHasher, Params_Validate. cbv zeta. set (p := if bool_decide _ then _ else _).
  destruct (checkLimits p) eqn:E; [|done]. cbn. destruct (_ <? 0); [done|].
  destruct (hc_Reclaim cfg); try done; intros [= <-]; by apply checkLimits_iff.
Qed.

(** C35: what [Hash] stores, [Verify] reads back.  For every hasher that
    [NewHasher] makes and every salt of its length, hashing succeeds; the text
    verifies exactly the passwords with the same argon2 key (the password
    itself among them), every other password is a mismatch and not an
    unreadable hash; and the text needs a rehash exactly when the hasher's
    parameters have changed since. *)
Theorem stored_hash_verifies `{Argon2} cfg h salt password :
  NewHasher cfg = Ok h -> Z.of_nat (String.length salt) = SaltLength (h_params h) ->
  let p := h_params h in
  let key password := IDKey password salt (Time p) (MemoryKiB p) (Parallelism p) (KeyLength p) in
  exists encoded, Hash h (Ok tt) (Some salt) password = Ok encoded /\
    (forall password', Verify (Ok tt) encoded password' = if key password' =?s key password then Ok tt else Err ErrMismatch) /\
    Verify (Ok tt) encoded password = Ok tt /\
    (forall h', NeedsRehash h' encoded = negb (bool_decide (p = h_params h'))).
Proof.
  intros Hh%NewHasher_limits Hs p key. subst p.
  exists (encode (h_params h) salt (key password)).
  assert (Hd : decode (encode (h_params h) salt (key password)) = Ok (mkDecoded (h_params h) salt (key password))).
  { apply decode_encode; [done|done|]. apply IDKey_length. destruct Hh as (_ & _ & _ & _ & ? & _). lia. }
  assert (Hw : withinDecodeLimits (h_params h) = Ok tt)
    by (unfold withinDecodeLimits; by rewrite (proj2 (checkLimits_iff _) Hh)).
  assert (Hv : forall password', Verify (Ok tt) (encode (h_params h) salt (key password)) password'
      = if key password' =?s key password then Ok tt else Err ErrMismatch).
  { intros password'. unfold Verify, derive. rewrite Hd. cbn. by rewrite Hw. }
  split_and!.
  - unfold Hash, derive. by rewrite Hw.
  - exact Hv.
  - by rewrite Hv, string_eqb_refl.
  - intros h'. unfold NeedsRehash. by rewrite Hd.
Qed.

(** Argon2 is never asked for more than the limits allow.  Two versions of
    argon2 that agree on parameters within the limits (at most 64 MiB, 64
    passes, 8 threads, a digest of at most 64 bytes) cannot be told apart:
    whatever text is stored and whatever the password, verifying and hashing
    give the same result. *)
Theorem argon2_never_beyond_limits (A1 A2 : Argon2) cfg h slot salt encoded password :
  @argon2_Version A1 = @argon2_Version A2 ->
  (forall password salt p, limits p ->
     @IDKey A1 password salt (Time p) (MemoryKiB p) (Parallelism p) (KeyLength p) =
     @IDKey A2 password salt (Time p) (MemoryKiB p) (Parallelism p) (KeyLength p)) ->
  NewHasher cfg = Ok h ->
  @Verify A1 slot encoded password = @Verify A2 slot encoded password /\
  @Hash A1 h slot salt password = @Hash A2 h slot salt password /\
  @VerifyAbsent A1 h slot ((fun s => (s, s)) <$> salt) password = @VerifyAbsent A2 h slot ((fun s => (s, s)) <$> salt) password.
Proof.
  intros Hv Hk Hh%NewHasher_limits.
  assert (Hderive : forall salt p, @derive A1 slot password salt p = @derive A2 slot password salt p).
  { intros s p. unfold derive, withinDecodeLimits. destruct slot as [[]|]; [|done]. cbn.
    destruct (checkLimits p) eqn:E; [|done]. cbn. rewrite Hk; [done|by apply checkLimits_iff]. }
  assert (Hdec : @decode A1 encoded = @decode A2 encoded). { unfold decode, decode_fields. by rewrite Hv. }
  split_and!.
  - unfold Verify. rewrite Hdec. destruct (@decode A2 encoded); cbn; [|done]. by rewrite Hderive.
  - unfold Hash. destruct salt; [|done]. rewrite Hderive. destruct (@derive A2 _ _ _ _); cbn; [|done].
    unfold encode. by rewrite Hv.
  - unfold VerifyAbsent. destruct salt; [|done]. cbn. by rewrite Hderive.
Qed.

(** *** A stand-in for argon2 *)

(** A key of the right length that shows the first byte of the password. *)
Definition toy_key (password : string) (keyLen : Z) : string :=
  string_of_list_ascii (match password with
    | String c _ => repeat c (Z.to_nat keyLen) | EmptyString => repeat "0"%char (Z.to_nat keyLen) end).

Lemma toy_key_length password keyLen : 0 <= keyLen -> Z.of_nat (String.length (toy_key password keyLen)) = keyLen.
Proof.
  intros Hk. assert (Hlen : forall l, String.length (string_of_list_ascii l) = length l)
    by (induction l as [|c l IH]; [done|]; cbn; by rewrite IH).
  unfold toy_key. rewrite Hlen. destruct password; rewrite repeat_length; lia.
Qed.

(** [toy_argon2 false] and [toy_argon2 true] differ beyond 64 MiB only. *)
#[local] Instance toy_argon2 (other : bool) : Argon2.
Proof.
  refine {| argon2_Version := 19;
            IDKey := fun password _ _ memory _ keyLen =>
              toy_key (if other && (65536 <? memory) then "huge" else password) keyLen |}; [lia|].
  intros. by apply toy_key_length.
Defined.

Definition demo_hasher_config : HasherConfig := mkHasherConfig (mkParams 0 0 0 0 0) 0 ReclaimOSMemory.
Definition demo_hasher : Hasher := mkHasher DefaultParams 1 ReclaimOSMemory.

Lemma stored_hash_verifies_witness :
  exists encoded, @Hash (toy_argon2 false) demo_hasher (Ok tt) (Some "0123456789abcdef"%string) "secret" = Ok encoded /\
    @Verify (toy_argon2 false) (Ok tt) encoded "secret" = Ok tt /\
    @Verify (toy_argon2 false) (Ok tt) encoded "public" = Err ErrMismatch.
Proof.
  destruct (@stored_hash_verifies (toy_argon2 false) demo_hasher_config demo_hasher "0123456789abcdef" "secret")
    as (encoded & Hh & Hv & Hself & _); [by vm_compute|done|].
  exists encoded. split_and!; [done|done|]. rewrite Hv. by vm_compute.
Defined.

Lemma argon2_never_beyond_limits_witness :
  @Verify (toy_argon2 false) (Ok tt) "$argon2id$v=19$m=65537,t=1,p=1$MDEyMzQ1Njc$MDEyMzQ1Njc4OWFiY2RlZg" "secret"
  = @Verify (toy_argon2 true) (Ok tt) "$argon2id$v=19$m=65537,t=1,p=1$MDEyMzQ1Njc$MDEyMzQ1Njc4OWFiY2RlZg" "secret".
Proof.
  apply (argon2_never_beyond_limits (toy_argon2 false) (toy_argon2 true) demo_hasher_config demo_hasher (Ok tt) None);
    [done| |by vm_compute].
  intros password salt p (Hm & _). cbn. by rewrite (proj2 (Z.ltb_ge 65536 (MemoryKiB p))) by lia.
Defined.
