(* ===== verification/Services.v ===== *)
(** * Login, sessions, registration and invites

    [bearertoken/bearertoken.go], [session/login.go],
    [session/authenticator.go], [devicetoken/devicetoken.go],
    [devicetoken/authenticator.go], [invite/invite.go], [invite/redeem.go],
    [groups/register.go], [groups/register_open.go],
    [groups/registration_gate.go] and the authenticator chain of
    [httpapi/middleware]: the services over the account storage.  Each of them
    runs several transactions, so that other requests can come in between;
    [Login] is written as the composition of the lookup and the rest.

    Clock readings are Unix milliseconds and arguments, and so are the outcomes
    of waiting for a hasher's slot.  A password is a value here: the code zeroes
    its buffer on return, which is why [RegistrationGate.Register] copies it. *)

From S2P Require Import Prelude GoBase Schema Sql Evolution Queries PushRepo PushCommit Exec.
From S2P Require Import Accounts Escape Strconv Csv Base64 Password.
From Stdlib Require Import Strings.Ascii.

#[local] Arguments String.append !_ _ / : simpl nomatch.

(** ** strings.TrimSpace *)

(** [s] without the first space rune; [None] if it starts with another. *)
Definition strip_space (spaces : list string) (s : string) : option string :=
  head (omap (fun p => strip_prefix p s) spaces).

(** Each round removes at least a byte. *)
Fixpoint trim_left (fuel : nat) (spaces : list string) (s : string) : string :=
  match fuel with
  | O => s
  | S fuel => match strip_space spaces s with Some s' => trim_left fuel spaces s' | None => s end
  end.

Definition string_rev (s : string) : string := string_of_list_ascii (reverse (list_ascii_of_string s)).

Definition TrimSpace (s : string) : string :=
  let s := trim_left (String.length s) space_runes s in
  string_rev (trim_left (String.length s) (string_rev <$> space_runes) (string_rev s)).

Example trim_demo : TrimSpace "  ann b "%string = "ann b"%string /\ TrimSpace " "%string = ""%string.
Proof. split; vm_compute; reflexivity. Qed.

(** ** bearertoken *)

(** [hex(sha256(s))] *)
Class Sha256 := { sha256_hex : string -> string; sha256_hex_nonempty s : sha256_hex s <> ""%string }.

Definition bearertoken_ByteLength : nat := 32.

(** The digits of [base64.RawURLEncoding]. *)
Fixpoint url_alphabet (s : string) : string :=
  match s with
  | EmptyString => EmptyString
  | String c s => String (if Ascii.eqb c "+" then "-" else if Ascii.eqb c "/" then "_" else c)%char (url_alphabet s)
  end.

Definition string_of_bytes (bs : list Z) : string := string_of_list_ascii (byte_of <$> bs).

Definition ErrInvalidCredentials : GoError := ErrMessage "session: invalid username or password".
Definition ErrUnauthenticated : GoError := ErrMessage "middleware: request carries no valid credential".

Section services.
Context `{Entropy, Argon2, Sha256}.

Definition random_bytes (n : nat) : M (option string) :=
  raw ← draw (fun k => rand_Read k n); mret (string_of_bytes <$> raw).

Definition bearertoken_New : M string :=
  raw ← random_bytes bearertoken_ByteLength;
  match raw with
  | None => throw (ErrMessage "bearertoken: draw a token")
  | Some raw => mret (url_alphabet (base64_encode raw))
  end.

Definition bearertoken_Hash (token : string) : string := sha256_hex token.

(** The hasher's calls, with what they draw. *)
Definition hasher_Hash (h : Hasher) (slot : res unit) (password : string) : M string :=
  salt ← random_bytes (Z.to_nat (SaltLength (h_params h)));
  lift (Hash h slot salt password).

Definition hasher_VerifyAbsent (h : Hasher) (slot : res unit) (password : string) : M unit :=
  let n := Z.to_nat (SaltLength (h_params h)) in
  decoy ← random_bytes (n + Z.to_nat (KeyLength (h_params h)));
  lift (VerifyAbsent h slot ((fun d => (String.substring 0 n d, String.substring n (String.length d - n) d)) <$> decoy)
          password).

(** ** session/login.go *)

Record LoginRequest := mkLoginRequest {
  lr_Username : string; lr_Password : string; lr_UserAgent : string; lr_RemoteAddr : string }.

Record LoggedIn := mkLoggedIn {
  li_GroupID : string; li_UserID : string; li_Username : string; li_Role : string;
  li_Token : string; li_ExpiresAt : Z }.

(** 30 days, in milliseconds. *)
Definition DefaultSessionTTL : Z := (30 * 24 * 3600 * 1000)%Z.

Definition declineAbsent (h : Hasher) (slot : res unit) (password : string) : M LoggedIn :=
  verr ← try (hasher_VerifyAbsent h slot password);
  match verr with
  | Err e => if bool_decide (e = ErrMismatch) then throw ErrInvalidCredentials else throw e
  | Ok _ => throw ErrInvalidCredentials
  end.

Definition mintSession (user : User) (userAgent remoteAddr : string) (now : Z) : M LoggedIn :=
  token ← bearertoken_New;
  id ← new_uuid "session: generate id";
  let expiresAt := (now + DefaultSessionTTL)%Z in
  CreateSession (mkSessionParams id (GroupID user) (ID user) (bearertoken_Hash token) expiresAt
                   userAgent remoteAddr now);;
  mret (mkLoggedIn (GroupID user) (ID user) (usr_Username (Cols user)) (usr_Role (Cols user)) token expiresAt).

(** A failure to rehash is ignored. *)
Definition rehash (h : Hasher) (slot : res unit) (user : User) (password : string) (now : Z) : M unit :=
  if NeedsRehash h (usr_PasswordHash (Cols user)) then
    newHash ← try (hasher_Hash h slot password);
    match newHash with
    | Ok newHash => _ ← try (RehashPassword (GroupID user) (ID user) newHash now); mret tt
    | Err _ => mret tt
    end
  else mret tt.

(** What [Login] does once [UserForLogin] has answered. *)
Definition login_with (h : Hasher) (slots : res unit * res unit) (req : LoginRequest) (now : Z)
    (found : res User) : M LoggedIn :=
  match found with
  | Err ErrUserNotFound => declineAbsent h slots.1 (lr_Password req)
  | Err e => throw e
  | Ok user =>
      match Verify slots.1 (usr_PasswordHash (Cols user)) (lr_Password req) with
      | Err e => if bool_decide (e = ErrMismatch) || bool_decide (e = ErrMalformedHash)
                 then throw ErrInvalidCredentials else throw e
      | Ok _ =>
          rehash h slots.2 user (lr_Password req) now;;
          mintSession user (lr_UserAgent req) (lr_RemoteAddr req) now
      end
  end.

Definition login_lookup (req : LoginRequest) : M (res User) := try (UserForLogin (TrimSpace (lr_Username req))).

Definition Login (h : Hasher) (slots : res unit * res unit) (req : LoginRequest) (now : Z) : M LoggedIn :=
  found ← login_lookup req;
  login_with h slots req now found.

(** ** Authenticators *)

Record Identity := mkIdentity { idt_Group : string; idt_UserID : string; idt_Role : string }.

(** The credentials a request carries. *)
Record Credentials := mkCredentials { req_Cookie : option string; req_Authorization : string }.

(** [session.Authenticator] *)
Definition session_Authenticate (r : Credentials) (now : Z) : M Identity :=
  match req_Cookie r with
  | None | Some ""%string => throw ErrUnauthenticated
  | Some cookie =>
      found ← try (SessionAuth (bearertoken_Hash cookie));
      match found with
      | Err ErrSessionNotFound => throw ErrUnauthenticated
      | Err e => throw e
      | Ok found =>
          if auth_Revoked found then throw ErrUnauthenticated
          else if negb (now <? auth_ExpiresAtUnixMilli found)%Z then throw ErrUnauthenticated
          else mret (mkIdentity (auth_GroupID found) (auth_UserID found) (auth_Role found))
      end
  end.

(** [strings.Cut(s, " ")] *)
Fixpoint cut_space (s : string) : option (string * string) :=
  match s with
  | EmptyString => None
  | String c s =>
      if Ascii.eqb c " " then Some (EmptyString, s)
      else match cut_space s with Some (a, b) => Some (String c a, b) | None => None end
  end.

(** [devicetoken.Authenticator] *)
Definition devicetoken_Authenticate (r : Credentials) : M Identity :=
  match cut_space (req_Authorization r) with
  | None => throw ErrUnauthenticated
  | Some (scheme, token) =>
      if negb (ToLower scheme =?s "bearer") || (token =?s "") then throw ErrUnauthenticated else
      resolved ← try (DeviceTokenAuth (bearertoken_Hash token));
      match resolved with
      | Err ErrDeviceTokenNotFound => throw ErrUnauthenticated
      | Err e => throw e
      | Ok resolved =>
          if auth_Revoked resolved then throw ErrUnauthenticated
          else mret (mkIdentity (auth_GroupID resolved) (auth_UserID resolved) (auth_Role resolved))
      end
  end.

(** [middleware.Chain] *)
Fixpoint Chain (authenticators : list (M Identity)) (last : GoError) : M Identity :=
  match authenticators with
  | [] => throw last
  | a :: authenticators =>
      identity ← try a;
      match identity with
      | Ok identity => mret identity
      | Err e => if bool_decide (e = ErrUnauthenticated) then Chain authenticators e else throw e
      end
  end.

(** [serve.go] puts the session authenticator first. *)
Definition Authenticate (r : Credentials) (now : Z) : M Identity :=
  Chain [session_Authenticate r now; devicetoken_Authenticate r] ErrUnauthenticated.

(** ** devicetoken/devicetoken.go *)

Definition maxDeviceLabelLength : nat := 200.

Definition ErrDeviceLabelRequired : GoError := ErrMessage "devicetoken: device label is required".
Definition ErrDeviceLabelTooLong : GoError := ErrMessage "devicetoken: device label is too long".

Record DeviceTokenIssued := mkDeviceTokenIssued { dti_ID : string; dti_DeviceLabel : string; dti_Token : string }.

Definition devicetoken_Issue (groupID userID deviceLabel : string) (now : Z) : M DeviceTokenIssued :=
  if (groupID =?s "") || (userID =?s "")
  then throw (ErrMessage "devicetoken: Issue needs a non-empty GroupID and UserID") else
  let label := TrimSpace deviceLabel in
  if label =?s "" then throw ErrDeviceLabelRequired else
  if (maxDeviceLabelLength <? String.length label)%nat then throw ErrDeviceLabelTooLong else
  token ← bearertoken_New;
  id ← new_uuid "devicetoken: generate id";
  CreateDeviceToken (mkDeviceTokenParams id groupID userID (bearertoken_Hash token) label now);;
  mret (mkDeviceTokenIssued id label token).

(** ** invite/invite.go, invite/redeem.go *)

(** 24 hours, in milliseconds. *)
Definition invite_DefaultTTL : Z := (24 * 3600 * 1000)%Z.

Definition ErrGroupIDRequired : GoError := ErrMessage "invite: GroupID is required".
Definition ErrCreatedByUserIDRequired : GoError := ErrMessage "invite: CreatedByUserID is required".
Definition ErrTokenRequired : GoError := ErrMessage "invite: Token is required".

Record InviteIssued := mkInviteIssued { ivi_ID : string; ivi_Token : string; ivi_ExpiresAt : Z }.

Definition invite_Issue (groupID createdByUserID : string) (now : Z) : M InviteIssued :=
  if groupID =?s "" then throw ErrGroupIDRequired else
  if createdByUserID =?s "" then throw ErrCreatedByUserIDRequired else
  token ← bearertoken_New;
  id ← new_uuid "invite: generate id";
  let expiresAt := (now + invite_DefaultTTL)%Z in
  CreateInvite (mkInviteParams id groupID createdByUserID (bearertoken_Hash token) expiresAt now);;
  mret (mkInviteIssued id token expiresAt).

(** The same limits in both packages. *)
Definition minUsernameLen : nat := 1.
Definition maxUsernameLen : nat := 64.
Definition minPasswordLen : nat := 8.
Definition maxPasswordLen : nat := 256.

Definition username_ok (username : string) : bool :=
  (minUsernameLen <=? String.length username)%nat && (String.length username <=? maxUsernameLen)%nat.
Definition password_ok (password : string) : bool :=
  (minPasswordLen <=? String.length password)%nat && (String.length password <=? maxPasswordLen)%nat.

Definition invite_ErrUsernameInvalid : GoError := ErrMessage "invite: username is invalid".
Definition invite_ErrPasswordInvalid : GoError := ErrMessage "invite: password is invalid".

Record RedeemRequest := mkRedeemRequest { rr_Token : string; rr_Username : string; rr_Password : string }.

Definition invite_Redeem (h : Hasher) (slot : res unit) (req : RedeemRequest) (now : Z) : M RedeemedInvite :=
  let token := TrimSpace (rr_Token req) in
  if token =?s "" then throw ErrTokenRequired else
  let username := TrimSpace (rr_Username req) in
  if negb (username_ok username) then throw invite_ErrUsernameInvalid else
  if negb (password_ok (rr_Password req)) then throw invite_ErrPasswordInvalid else
  let tokenHash := bearertoken_Hash token in
  redeemable ← InviteRedeemable tokenHash now;
  if negb redeemable then throw ErrInviteNotRedeemable else
  hash ← hasher_Hash h slot (rr_Password req);
  userID ← new_uuid "invite: generate id";
  RedeemInvite (mkRedeemInvite tokenHash userID username hash now).

(** ** groups/register.go, register_open.go, registration_gate.go *)

Definition DefaultGroupName : string := "Household".

Definition groups_ErrUsernameInvalid : GoError := ErrMessage "groups: username is invalid".
Definition groups_ErrPasswordInvalid : GoError := ErrMessage "groups: password is invalid".

Record RegisterRequest := mkRegisterRequest { rg_Username : string; rg_Password : string }.
Record Registered := mkRegistered { rgd_GroupID : string; rgd_UserID : string; rgd_Username : string }.

Definition groups_Register (h : Hasher) (slot : res unit) (req : RegisterRequest) (now : Z) : M Registered :=
  let username := TrimSpace (rg_Username req) in
  if negb (username_ok username) then throw groups_ErrUsernameInvalid else
  if negb (password_ok (rg_Password req)) then throw groups_ErrPasswordInvalid else
  exists_ ← HasAnyGroup;
  if exists_ : bool then throw ErrRegistrationClosed else
  groupID ← new_uuid "groups: generate id";
  userID ← new_uuid "groups: generate id";
  hash ← hasher_Hash h slot (rg_Password req);
  RegisterFirstUser (mkFirstUser groupID DefaultGroupName userID username hash now);;
  mret (mkRegistered groupID userID username).

Definition registerNewGroup (h : Hasher) (slot : res unit) (req : RegisterRequest) (now : Z) : M Registered :=
  let username := TrimSpace (rg_Username req) in
  if negb (username_ok username) then throw groups_ErrUsernameInvalid else
  if negb (password_ok (rg_Password req)) then throw groups_ErrPasswordInvalid else
  groupID ← new_uuid "groups: generate id";
  userID ← new_uuid "groups: generate id";
  hash ← hasher_Hash h slot (rg_Password req);
  RegisterNewGroup (mkFirstUser groupID DefaultGroupName userID username hash now);;
  mret (mkRegistered groupID userID username).

(** [RegistrationGate.Register]; the second slot and clock reading are those
    of the fallback. *)
Definition gate_Register (h : Hasher) (isOpen : bool) (slots : res unit * res unit) (nows : Z * Z)
    (req : RegisterRequest) : M Registered :=
  if negb isOpen then groups_Register h slots.1 req nows.1 else
  result ← try (groups_Register h slots.1 req nows.1);
  match result with
  | Ok result => mret result
  | Err ErrRegistrationClosed => registerNewGroup h slots.2 req nows.2
  | Err e => throw e
  end.
End services.
