(* ===== verification/ServiceProperties.v ===== *)
(** * Properties of login

    Who can log in, what the token it answers with stands for, that a refusal
    tells an unknown user name and a wrong password apart from nothing, and
    what a password reset in the middle of a login does. *)

From S2P Require Import Prelude GoBase Schema Sql Evolution Queries PushRepo Items Blocks Details.
From S2P Require Import Exec History Labels Locations PushFields PushHandlers PushCommit PushMerge.
From S2P Require Import Accounts ImportCommit SyncReader Demo System Integrity AccountProperties.
From S2P Require Import Escape Strconv Csv Base64 Password Services.

(** ** Lookups *)

Section lookups.
Context `{Entropy}.
Implicit Types w : World.

(** The row with a token is the one a lookup by token finds. *)
Lemma select_by_token {D} `{Credential D, !IntegTable D} w k (r : Row D) P :
  (exists ix, ix ∈ unique_indexes (D := D) /\ forall r, ix r = Some [token (Cols r)]) ->
  integ (wdb w) -> tbl (wdb w) !! k = Some r -> P r = true ->
  (forall r', P r' = true -> token (Cols r') = token (Cols r)) ->
  select_one P w = (Ok r, w).
Proof.
  intros Hix Hi Hr HP Htok. destruct (select_one P w) as [[r'|e] w'] eqn:E.
  - apply select_one_ok in E as (-> & HP' & k' & Hr').
    assert (k' = k) as -> by (eapply token_unique; [exact Hix|exact Hi|exact Hr'|exact Hr|by apply Htok]).
    rewrite Hr in Hr'. by injection Hr' as ->.
  - apply select_one_err in E as (_ & _ & Hno). by rewrite (Hno k r Hr) in HP.
Qed.

(** A live user is found by group and id. *)
Lemma select_user w k (u : User) :
  integ (wdb w) -> users (wdb w) !! k = Some u -> live u = true ->
  select_one (fun u' : User => (GroupID u' =?s GroupID u) && (ID u' =?s ID u) && live u') w = (Ok u, w).
Proof.
  intros Hi Hu Hl. set (P := fun u' : User => _). destruct (select_one P w) as [[u'|e] w'] eqn:E.
  - apply select_one_ok in E as (-> & HP & k' & Hk'). unfold P in HP. bool_facts.
    assert (k' = k) as ->; [|change (tbl (wdb w)) with (users (wdb w)) in Hk'; congruence].
    apply (int_unique _ _ (int_users _ Hi) ux_group_id k' k u' u); [by left|done|done|].
    unfold ux_group_id. simpl. apply bool_decide_eq_true. congruence.
  - apply select_one_err in E as (_ & _ & Hno). specialize (Hno k u Hu). unfold P in Hno.
    by rewrite !string_eqb_refl, Hl in Hno.
Qed.

Lemma UserForLogin_state name w : (UserForLogin name w).2 = w.
Proof.
  unfold UserForLogin, GetUserForLogin, no_rows_as, mbind, prog_bind, try.
  pose proof (select_one_state (fun u : User => (nocase (usr_Username (Cols u)) =?s nocase name) && live u) w) as Hs.
  destruct (select_one _ w) as [[u|e] w']; simpl in *; [done|]. by destruct (is_no_rows e).
Qed.

(** It finds a live user with the name, or there is none. *)
Lemma UserForLogin_cases name w :
  (exists k u, UserForLogin name w = (Ok u, w) /\ users (wdb w) !! k = Some u /\ live u = true /\
     nocase (usr_Username (Cols u)) = nocase name) \/
  (UserForLogin name w = (Err ErrUserNotFound, w) /\
     forall k u, users (wdb w) !! k = Some u -> live u = true -> nocase (usr_Username (Cols u)) <> nocase name).
Proof.
  unfold UserForLogin, GetUserForLogin, no_rows_as, mbind, prog_bind, try.
  destruct (select_one _ w) as [[u|e] w'] eqn:E.
  - left. apply select_one_ok in E as (-> & HP & k & Hk). bool_facts. by exists k, u.
  - right. apply select_one_err in E as (-> & -> & Hno). split; [done|]. intros k u Hk Hl Hn.
    specialize (Hno k u Hk). by rewrite Hn, string_eqb_refl, Hl in Hno.
Qed.
End lookups.

(** ** The run of a login *)

Section login.
Context `{Entropy, Argon2, Sha256}.
Implicit Types w : World.

(** What a rehash may change of a user. *)
Definition same_user (u u' : User) : Prop :=
  GroupID u' = GroupID u /\ ID u' = ID u /\ live u' = live u /\
  usr_Username (Cols u') = usr_Username (Cols u) /\ usr_Role (Cols u') = usr_Role (Cols u).

#[local] Instance same_user_refl : Reflexive same_user.
Proof. by intros u. Qed.

Definition users_same (a b : DB) : Prop :=
  forall k u, users a !! k = Some u -> exists u', users b !! k = Some u' /\ same_user u u'.

#[local] Instance users_same_refl : Reflexive users_same.
Proof. intros db k u Hu. by exists u. Qed.

Lemma RehashPassword_users g id hash now w : users_same (wdb w) (wdb (RehashPassword g id hash now w).2).
Proof.
  destruct (RehashPassword g id hash now w) as [[[]|e] w'] eqn:E; simpl.
  - unfold RehashPassword in E. apply writeTx_ok in E as [_ E]. unfold UpdateUserPasswordHash in E. run_inv.
    intros k u Hu. simpl. rewrite update_where_lookup, Hu. simpl. eexists. split; [done|]. by destruct (_ && _ && _).
  - unfold RehashPassword in E. by rewrite (writeTx_err _ _ _ _ _ E).
Qed.

Lemma random_bytes_db n w : wdb (random_bytes n w).2 = wdb w.
Proof. done. Qed.

Lemma hasher_Hash_db h slot pw w : wdb (hasher_Hash h slot pw w).2 = wdb w.
Proof. done. Qed.

(** A rehash never fails, keeps the references whole and changes no user but
    in the hash. *)
Lemma rehash_run h slot (u : User) pw now w :
  integ (wdb w) ->
  exists w1, rehash h slot u pw now w = (Ok tt, w1) /\ integ (wdb w1) /\ users_same (wdb w) (wdb w1).
Proof.
  intros Hi. unfold rehash. destruct (NeedsRehash h _); [|by exists w]. unfold mbind at 1, prog_bind, try at 1.
  pose proof (hasher_Hash_db h slot pw w) as Hw. destruct (hasher_Hash h slot pw w) as [r w1]. simpl in Hw.
  destruct r as [newHash|e]; [|exists w1; by rewrite Hw].
  pose proof (RehashPassword_users (GroupID u) (ID u) newHash now w1) as Hu.
  pose proof (handle_event_keeps_integ (OfAccount (Rehash (GroupID u) (ID u) newHash now)) w1) as Hk. simpl in Hk.
  unfold mbind, prog_bind, try. destruct (RehashPassword (GroupID u) (ID u) newHash now w1) as [r w2]. simpl in Hu, Hk.
  exists w2. split; [done|]. rewrite Hw in Hk, Hu. split; [by apply Hk|exact Hu].
Qed.

(** A session of the token, for the user, until the time. *)
Definition session_of (token : string) (g u : string) (expires : Z) (db : DB) : Prop :=
  exists k (s : Session), sessions db !! k = Some s /\ GroupID s = g /\ live s = true /\
    ses_TokenHash (Cols s) = bearertoken_Hash token /\ ses_UserID (Cols s) = u /\ ses_ExpiresAt (Cols s) = expires.

Lemma mintSession_ok u ua ra now w l w' :
  mintSession u ua ra now w = (Ok l, w') -> integ (wdb w) ->
  li_GroupID l = GroupID u /\ li_UserID l = ID u /\ li_Username l = usr_Username (Cols u) /\
  li_Role l = usr_Role (Cols u) /\ li_ExpiresAt l = (now + DefaultSessionTTL)%Z /\
  integ (wdb w') /\ users (wdb w') = users (wdb w) /\
  exists k s, sessions (wdb w') !! k = Some s /\ GroupID s = GroupID u /\ live s = true /\
    ses_TokenHash (Cols s) = bearertoken_Hash (li_Token l) /\ ses_UserID (Cols s) = ID u /\
    ses_ExpiresAt (Cols s) = li_ExpiresAt l /\ ses_RevokedAt (Cols s) = None.
Proof.
  intros Hm Hi. unfold mintSession in Hm. apply prog_bind_inv_ok in Hm as (token & w1 & Ht & Hm).
  assert (Hw1 : wdb w1 = wdb w).
  { unfold bearertoken_New in Ht. apply prog_bind_inv_ok in Ht as (raw & w0 & Hr & Ht).
    pose proof (random_bytes_db bearertoken_ByteLength w) as Hdb. rewrite Hr in Hdb. simpl in Hdb.
    destruct raw; [by apply ret_ok in Ht as [_ ->]|by apply throw_ok in Ht]. }
  apply prog_bind_inv_ok in Hm as (id & w2 & Hid & Hm).
  assert (Hw2 : wdb w2 = wdb w1).
  { pose proof (readonly_new_uuid "session: generate id" w1) as Hdb. by rewrite Hid in Hdb. }
  cbv zeta in Hm. set (p := mkSessionParams _ _ _ _ _ _ _ _) in Hm.
  apply prog_bind_inv_ok in Hm as ([] & w3 & Hc & Hm). apply ret_ok in Hm as [-> ->].
  pose proof (handle_event_keeps_integ (OfAccount (SessionCreate p)) w2) as Hk. simpl in Hk. rewrite Hc in Hk.
  rewrite Hw2, Hw1 in Hk. specialize (Hk Hi). unfold CreateSession in Hc. apply writeTx_ok in Hc as [_ Hc].
  unfold CreateSession_row in Hc. run_inv. simpl. rewrite Hw2, Hw1. split_and!; try done; [by rewrite Hw2, Hw1 in Hk|].
  eexists id, _. by rewrite lookup_insert_eq.
Qed.

(** Who got in, and the session it left. *)
Lemma login_ok h slots req now w l w' :
  Login h slots req now w = (Ok l, w') -> integ (wdb w) ->
  exists k u u',
    users (wdb w) !! k = Some u /\ live u = true /\ nocase (usr_Username (Cols u)) = nocase (TrimSpace (lr_Username req)) /\
    Verify slots.1 (usr_PasswordHash (Cols u)) (lr_Password req) = Ok tt /\
    li_GroupID l = GroupID u /\ li_UserID l = ID u /\ li_Username l = usr_Username (Cols u) /\
    li_Role l = usr_Role (Cols u) /\ li_ExpiresAt l = (now + DefaultSessionTTL)%Z /\
    integ (wdb w') /\ users (wdb w') !! k = Some u' /\ same_user u u' /\
    exists ks s, sessions (wdb w') !! ks = Some s /\ GroupID s = GroupID u /\ live s = true /\
      ses_TokenHash (Cols s) = bearertoken_Hash (li_Token l) /\ ses_UserID (Cols s) = ID u /\
      ses_ExpiresAt (Cols s) = li_ExpiresAt l /\ ses_RevokedAt (Cols s) = None.
Proof.
  intros Hl Hi. unfold Login, login_lookup in Hl. apply prog_bind_inv_ok in Hl as (found & w0 & Hf%try_ok & Hl).
  destruct (UserForLogin_cases (TrimSpace (lr_Username req)) w) as [(k & u & E & Hk & Hlv & Hn)|[E _]];
    rewrite E in Hf; injection Hf as <- <-; simpl in Hl.
  - destruct (Verify slots.1 _ _) as [[]|e] eqn:Hv; [|by destruct (_ || _)].
    destruct (rehash_run h slots.2 u (lr_Password req) now w Hi) as (w1 & Hr & Hi1 & Hu).
    unfold mbind, prog_bind in Hl. rewrite Hr in Hl. apply mintSession_ok in Hl; [|done].
    destruct Hl as (? & ? & ? & ? & ? & ? & Husers & Hs). destruct (Hu k u Hk) as (u' & Hu' & Hsame).
    exists k, u, u'. rewrite Husers. by split_and!.
  - unfold declineAbsent in Hl. apply prog_bind_inv_ok in Hl as (r & w2 & _ & Hl).
    destruct r; [done|]. by destruct (bool_decide _).
Qed.
End login.

(** ** Properties *)

Section properties.
Context `{Entropy, Argon2, Sha256}.

(** [rand.Read] fills the buffer. *)
Definition rand_fills : Prop := forall k n bs, rand_Read k n = Some bs -> length bs = n.

Lemma bearertoken_New_nonempty w token w' : rand_fills -> bearertoken_New w = (Ok token, w') -> token <> ""%string.
Proof.
  intros Hr Ht. unfold bearertoken_New, random_bytes, draw, mbind, prog_bind, mret, prog_ret in Ht.
  destruct (rand_Read (draws w) bearertoken_ByteLength) as [bs|] eqn:E; [|done]. apply Hr in E.
  simpl in Ht. injection Ht as <- _. destruct bs as [|b0 [|b1 [|b2 bs]]]; done.
Qed.

Lemma Login_token h slots req now w l w' : rand_fills -> Login h slots req now w = (Ok l, w') -> li_Token l <> ""%string.
Proof.
  intros Hr Hl. unfold Login, login_lookup in Hl. apply prog_bind_inv_ok in Hl as (found & w0 & _ & Hl).
  destruct found as [u|e]; simpl in Hl.
  - destruct (Verify _ _ _) as [[]|]; [|by destruct (_ || _)]. apply prog_bind_inv_ok in Hl as (x & w1 & _ & Hl).
    unfold mintSession in Hl. apply prog_bind_inv_ok in Hl as (token & w2 & Ht & Hl). run_inv. simpl.
    by eapply bearertoken_New_nonempty.
  - destruct e; try done. unfold declineAbsent in Hl. apply prog_bind_inv_ok in Hl as (r & w1 & _ & Hl).
    destruct r; [done|]. by destruct (bool_decide _).
Qed.

Lemma SessionAuth_run w ks (s : Session) k (u : User) :
  integ (wdb w) -> sessions (wdb w) !! ks = Some s -> live s = true -> users (wdb w) !! k = Some u -> live u = true ->
  GroupID u = GroupID s -> ID u = ses_UserID (Cols s) ->
  SessionAuth (ses_TokenHash (Cols s)) w =
    (Ok (mkAuth (GroupID s) (ses_UserID (Cols s)) (usr_Role (Cols u)) (ses_ExpiresAt (Cols s))
           (negb (is_null (ses_RevokedAt (Cols s))))), w).
Proof.
  intros Hi Hs Hls Hu Hlu Hg Hid. unfold SessionAuth, no_rows_as, try, GetSessionForAuth, mbind, prog_bind.
  rewrite (select_by_token (D := SessionCols) w ks s); [|token_index|done|done|by rewrite string_eqb_refl|].
  2: { intros s' HP. cbv beta in HP. bool_facts. done. }
  pose proof (select_user w k u Hi Hu Hlu) as Hsel. rewrite Hg, Hid in Hsel. by rewrite Hsel.
Qed.

(** A login lets in exactly who proved a password, and its token stands
    for that user.  If a login succeeds, a live user has the (trimmed) name,
    up to case, and the password verifies against the stored hash; the token
    authenticates as that user, with the user's group and role, from then on
    until 30 days have passed, and from then on it does not. *)
Theorem login_authenticates gs evs h slots req now l w' header now' :
  rand_fills ->
  let w := serve evs (initial gs) in
  Login h slots req now w = (Ok l, w') ->
  let cookie := mkCredentials (Some (li_Token l)) header in
  (exists k u, users (wdb w) !! k = Some u /\ live u = true /\
     nocase (usr_Username (Cols u)) = nocase (TrimSpace (lr_Username req)) /\
     Verify slots.1 (usr_PasswordHash (Cols u)) (lr_Password req) = Ok tt /\
     li_GroupID l = GroupID u /\ li_UserID l = ID u /\ li_Role l = usr_Role (Cols u)) /\
  ((now' < now + DefaultSessionTTL)%Z ->
     Authenticate cookie now' w' = (Ok (mkIdentity (li_GroupID l) (li_UserID l) (li_Role l)), w')) /\
  ((now + DefaultSessionTTL <= now')%Z -> session_Authenticate cookie now' w' = (Err ErrUnauthenticated, w')).
Proof.
  intros Hrand w Hl cookie. pose proof (serve_keeps_integ evs _ (integ_initial gs)) as Hi. fold w in Hi.
  pose proof (Login_token _ _ _ _ _ _ _ Hrand Hl) as Htok.
  destruct (login_ok _ _ _ _ _ _ _ Hl Hi) as (k & u & u' & Hu & Hlu & Hn & Hv & Hg & Hid & _ & Hrole & Hexp & Hi' & Hu'
    & (Sg & Sid & Sl & _ & Sr) & ks & s & Hs & Hsg & Hsl & Hst & Hsu & Hse & Hsr).
  split; [exists k, u; by split_and!|].
  assert (Ha : session_Authenticate cookie now' w' =
    (if (now' <? li_ExpiresAt l)%Z then Ok (mkIdentity (li_GroupID l) (li_UserID l) (li_Role l)) else Err ErrUnauthenticated, w')).
  { unfold session_Authenticate, cookie. cbn [req_Cookie]. destruct (li_Token l) as [|c t] eqn:Et; [done|].
    rewrite <- Hst. unfold mbind, prog_bind, try. rewrite (SessionAuth_run w' ks s k u') by congruence.
    cbn [auth_Revoked auth_ExpiresAtUnixMilli auth_GroupID auth_UserID auth_Role]. rewrite Hsr, Hse. cbn [is_null negb].
    rewrite Hsg, Hsu, Sr, Hg, Hid, Hrole. by destruct (now' <? li_ExpiresAt l)%Z. }
  rewrite Hexp in Ha. split; intros Hnow.
  - unfold Authenticate, Chain, mbind, prog_bind, try. rewrite Ha. by rewrite (proj2 (Z.ltb_lt _ _) Hnow).
  - rewrite Ha. by rewrite (proj2 (Z.ltb_ge _ _) Hnow).
Qed.

(** A session cookie never stands for anybody else.  Whatever the server
    serves after a login, if the token of the login authenticates, it does so
    as the user who logged in, in that user's group, and before the session's
    time is over. *)
Theorem cookie_stays_with_user gs evs0 h slots req now l w' evs now' identity w2 header :
  Login h slots req now (serve evs0 (initial gs)) = (Ok l, w') ->
  session_Authenticate (mkCredentials (Some (li_Token l)) header) now' (serve evs w') = (Ok identity, w2) ->
  idt_Group identity = li_GroupID l /\ idt_UserID identity = li_UserID l /\ (now' < now + DefaultSessionTTL)%Z.
Proof.
  intros Hl Ha. pose proof (serve_keeps_integ evs0 _ (integ_initial gs)) as Hi.
  destruct (login_ok _ _ _ _ _ _ _ Hl Hi) as (k & u & u' & _ & _ & _ & _ & Hg & Hid & _ & _ & Hexp & Hi' & _
    & _ & ks & s & Hs & Hsg & Hsl & Hst & Hsu & Hse & _).
  pose proof (serve_keeps_integ evs w' Hi') as Hi2.
  destruct (ca_sessions _ _ (serve_ages evs w') ks s Hs) as (s2 & Hs2 & [Ag _ At Ah _]). simpl in At, Ah.
  unfold session_Authenticate in Ha. cbn [req_Cookie] in Ha. destruct (li_Token l) as [|c t] eqn:Et; [done|].
  rewrite <- Hst in Ha. apply prog_bind_inv_ok in Ha as (r & w3 & Hr%try_ok & Ha).
  destruct r as [found|e]; [|by destruct e].
  unfold SessionAuth in Hr. apply prog_bind_inv_ok in Hr as ([s3 u3] & w4 & Hget%no_rows_as_ok & Hr).
  apply ret_ok in Hr as [-> ->]. unfold GetSessionForAuth in Hget.
  apply prog_bind_inv_ok in Hget as (s4 & w5 & Hsel & Hget). apply prog_bind_inv_ok in Hget as (u4 & w6 & _ & Hget).
  apply ret_ok in Hget as [[= <- <-] _]. apply select_one_ok in Hsel as (_ & HP & k3 & Hk3). bool_facts.
  assert (k3 = ks) as ->.
  { eapply (token_unique (D := SessionCols)); [token_index|exact Hi2|exact Hk3|exact Hs2|]. simpl. congruence. }
  change (sessions (wdb (serve evs w')) !! ks = Some s3) in Hk3. rewrite Hs2 in Hk3. injection Hk3 as <-.
  cbn [auth_Revoked auth_ExpiresAtUnixMilli auth_GroupID auth_UserID auth_Role] in Ha.
  destruct (negb (is_null _)); [done|]. destruct (Z.ltb_spec now' (ses_ExpiresAt (Cols s2))) as [Hlt|]; [|done].
  apply ret_ok in Ha as [-> _]. cbn. injection Ah as Hu2 He2. split_and!; [congruence..|]. rewrite <- Hexp, <- Hse. congruence.
Qed.
End properties.

(** ** Refusals *)

Section refusals.
Context `{Entropy, Argon2, Sha256}.

Lemma Verify_errors encoded password e :
  Verify (Ok tt) encoded password = Err e -> e = ErrMalformedHash \/ e = ErrMismatch.
Proof.
  unfold Verify, derive. destruct (decode encoded) as [d|e'] eqn:E; cbn.
  - apply decode_ok in E as [Hl _]. unfold withinDecodeLimits. rewrite (proj2 (checkLimits_iff _) Hl). cbn.
    destruct (_ =?s _); [done|]. intros [= <-]. by right.
  - intros [= <-]. left. unfold decode in E. destruct (decode_fields encoded); [|congruence].
    unfold withinDecodeLimits in E. destruct (checkLimits _); [done|]. cbn in E. congruence.
Qed.

Lemma declineAbsent_run h password w :
  limits (h_params h) -> (forall k n, rand_Read k n <> None) ->
  exists w', declineAbsent h (Ok tt) password w = (Err ErrInvalidCredentials, w') /\ wdb w' = wdb w.
Proof.
  intros Hl Hr. unfold declineAbsent, hasher_VerifyAbsent, random_bytes, draw, try, lift, mbind, prog_bind, mret, prog_ret.
  destruct (rand_Read (draws w) _) as [bs|] eqn:E; [|by apply Hr in E]. cbn [fmap option_fmap option_map].
  unfold VerifyAbsent, derive, withinDecodeLimits. rewrite (proj2 (checkLimits_iff _) Hl). cbn [mbind res_bind].
  destruct (_ =?s _); eexists; split; done.
Qed.

(** A refusal does not tell why.  When nobody has the name, and when the
    password does not verify, a login fails with the same error and changes
    nothing; a stored hash that cannot be read looks like a wrong password. *)
Theorem login_refuses_alike h slots req now w :
  limits (h_params h) -> slots.1 = Ok tt -> (forall k n, rand_Read k n <> None) ->
  (forall u, (UserForLogin (TrimSpace (lr_Username req)) w).1 = Ok u ->
     Verify (Ok tt) (usr_PasswordHash (Cols u)) (lr_Password req) <> Ok tt) ->
  exists w', Login h slots req now w = (Err ErrInvalidCredentials, w') /\ wdb w' = wdb w.
Proof.
  intros Hl Hs Hr Hv. unfold Login, login_lookup, try, mbind, prog_bind.
  destruct (UserForLogin_cases (TrimSpace (lr_Username req)) w) as [(k & u & E & _)|[E _]]; rewrite E.
  - rewrite E in Hv. specialize (Hv u eq_refl). cbn [login_with]. rewrite Hs.
    destruct (Verify (Ok tt) _ _) as [[]|e] eqn:He; [done|]. exists w.
    apply Verify_errors in He as [->| ->]; done.
  - cbn [login_with]. rewrite Hs. by apply declineAbsent_run.
Qed.
End refusals.

(** ** A login that races a password reset *)

#[local] Instance toy_sha256 : Sha256.
Proof. refine {| sha256_hex s := ("#" ++ s)%string |}. done. Defined.

#[local] Instance the_argon2 : Argon2 := toy_argon2 false.

(** The hash that [h] stores for a password. *)
Definition demo_hash (p : Params) (password : string) : string :=
  encode p "0123456789abcdef" (IDKey password "0123456789abcdef" (Time p) (MemoryKiB p) (Parallelism p) (KeyLength p)).

(** Alice registered when the hasher made three passes. *)
Definition demo_users : list event :=
  [OfAccount (RegisterFirst (mkFirstUser "g1" "Home" "u1" "alice" (demo_hash (mkParams 12288 3 1 16 32) "old") 100))].

Definition demo_login (password : string) : LoginRequest := mkLoginRequest " Alice" password "curl" "10.0.0.1".

(** The steps of the race: Alice's old login looks her up, the password is
    reset, and the login goes on with what it read. *)
Definition race_w0 : World := serve demo_users (initial ∅).
Definition race_found : res User * World :=
  match login_lookup (demo_login "old") race_w0 with (Ok r, w) => (r, w) | (Err e, w) => (Err e, w) end.
Definition race_reset : res ResetPasswordResult * World :=
  ResetPassword "alice" (demo_hash DefaultParams "new") 200 race_found.2.
Definition race_login : res LoggedIn * World :=
  login_with demo_hasher (Ok tt, Ok tt) (demo_login "old") 201 race_found.1 race_reset.2.


(** ** The properties hold somewhere *)

Definition demo_login_run : res LoggedIn * World := Login demo_hasher (Ok tt, Ok tt) (demo_login "old") 150 race_w0.

Definition demo_logged_in : LoggedIn :=
  match demo_login_run.1 with Ok l => l | Err _ => mkLoggedIn "" "" "" "" "" 0 end.

Lemma demo_rand_fills : rand_fills.
Proof. intros k n bs [= <-]. apply length_replicate. Qed.

Lemma demo_login_ok : Login demo_hasher (Ok tt, Ok tt) (demo_login "old") 150 race_w0 = (Ok demo_logged_in, demo_login_run.2).
Proof.
  unfold demo_logged_in, demo_login_run.
  destruct (Login _ _ _ _ _) as [[l|e] w'] eqn:E; [done|]. exfalso. apply (f_equal (fun r => is_ok r.1)) in E. vm_compute in E. done.
Qed.

Lemma login_authenticates_witness :
  Authenticate (mkCredentials (Some (li_Token demo_logged_in)) "") 151 demo_login_run.2
  = (Ok (mkIdentity (li_GroupID demo_logged_in) (li_UserID demo_logged_in) (li_Role demo_logged_in)), demo_login_run.2).
Proof.
  destruct (login_authenticates ∅ demo_users demo_hasher (Ok tt, Ok tt) (demo_login "old") 150 demo_logged_in
    demo_login_run.2 "" 151 demo_rand_fills demo_login_ok) as (_ & Hvalid & _).
  apply Hvalid. vm_compute. reflexivity.
Defined.

Lemma cookie_stays_with_user_witness :
  idt_Group (mkIdentity "g1" "u1" "owner") = li_GroupID demo_logged_in.
Proof.
  assert (Ha : session_Authenticate (mkCredentials (Some (li_Token demo_logged_in)) "") 151 (serve [] demo_login_run.2)
    = (Ok (mkIdentity "g1" "u1" "owner"), demo_login_run.2)) by (vm_compute; reflexivity).
  destruct (cookie_stays_with_user ∅ demo_users demo_hasher (Ok tt, Ok tt) (demo_login "old") 150 demo_logged_in
    demo_login_run.2 [] 151 (mkIdentity "g1" "u1" "owner") demo_login_run.2 "" demo_login_ok Ha) as [Hg _].
  exact Hg.
Defined.

Lemma login_refuses_alike_witness : exists w',
  Login demo_hasher (Ok tt, Ok tt) (demo_login "wrong") 150 race_w0 = (Err ErrInvalidCredentials, w') /\ wdb w' = wdb race_w0.
Proof.
  apply login_refuses_alike; [by apply checkLimits_iff|done|done|].
  destruct ((UserForLogin (TrimSpace (lr_Username (demo_login "wrong"))) race_w0).1) as [u|e] eqn:E; [|done].
  vm_compute in E. injection E as <-. intros u' [= <-]. vm_compute. discriminate.
Defined.
