(* ===== verification/Conflicts.v ===== *)
(** * The conflict log (storage/push.go)

    The repository behind [GET /sync/conflicts] and the methods that write one
    row of a push table in a transaction of their own: pages of the conflicts
    of a group, newest first, and the cursor between them.

    A client that follows the cursors reads every conflict there was when it
    began, each once, whatever is written while it reads. *)

From S2P Require Import Prelude GoBase Schema Sql Evolution Queries PushRepo Exec History Demo SyncReader System.
From S2P Require Import Escape Strconv Base64 Services.
From Stdlib Require Import Strings.Ascii.

#[local] Arguments String.append !_ _ / : simpl nomatch.

(** ** Parameters of the writes *)

Definition MutationOutcome_valid (o : string) : bool := bool_decide (o ∈ outcomes).

Record InsertMutationLedgerEntryParams := mkInsertMutation {
  iml_ID : string; iml_MutationID : string; iml_EntityType : string; iml_EntityID : string;
  iml_Outcome : string; iml_Now : Z }.

Definition InsertMutationLedgerEntryParams_validate (p : InsertMutationLedgerEntryParams) : res unit :=
  reject (iml_ID p =?s "") "storage: InsertMutationLedgerEntryParams: ID is empty";;
  reject (iml_MutationID p =?s "") "storage: InsertMutationLedgerEntryParams: MutationID is empty";;
  reject (iml_EntityType p =?s "") "storage: InsertMutationLedgerEntryParams: EntityType is empty";;
  reject (iml_EntityID p =?s "") "storage: InsertMutationLedgerEntryParams: EntityID is empty";;
  reject (negb (MutationOutcome_valid (iml_Outcome p))) "storage: InsertMutationLedgerEntryParams: Outcome is not one of applied/skipped_duplicate/conflict";;
  reject (iml_Now p <=? 0)%Z "storage: InsertMutationLedgerEntryParams: Now must be a positive Unix-millisecond timestamp".

Record UpsertFieldVersionParams := mkUpsertFieldVersion {
  ufv_EntityType : string; ufv_EntityID : string; ufv_FieldName : string; ufv_Version : Z; ufv_Now : Z }.

Definition UpsertFieldVersionParams_validate (p : UpsertFieldVersionParams) : res unit :=
  reject (ufv_EntityType p =?s "") "storage: UpsertFieldVersionParams: EntityType is empty";;
  reject (ufv_EntityID p =?s "") "storage: UpsertFieldVersionParams: EntityID is empty";;
  reject (ufv_FieldName p =?s "") "storage: UpsertFieldVersionParams: FieldName is empty";;
  reject (ufv_Version p <=? 0)%Z "storage: UpsertFieldVersionParams: Version must be positive";;
  reject (ufv_Now p <=? 0)%Z "storage: UpsertFieldVersionParams: Now must be a positive Unix-millisecond timestamp".

(** The snapshots are JSON texts; [None] is [""]. *)
Record InsertConflictParams := mkInsertConflict {
  icf_ID : string; icf_EntityType : string; icf_EntityID : string; icf_FieldName : string;
  icf_ServerValueSnapshot : option json; icf_LosingClientValueSnapshot : option json;
  icf_DetectedAt : Z; icf_MutationID : string; icf_Now : Z }.

Definition InsertConflictParams_validate (p : InsertConflictParams) : res unit :=
  reject (icf_ID p =?s "") "storage: InsertConflictParams: ID is empty";;
  reject (icf_EntityType p =?s "") "storage: InsertConflictParams: EntityType is empty";;
  reject (icf_EntityID p =?s "") "storage: InsertConflictParams: EntityID is empty";;
  reject (icf_FieldName p =?s "") "storage: InsertConflictParams: FieldName is empty";;
  reject (icf_DetectedAt p <=? 0)%Z "storage: InsertConflictParams: DetectedAt must be a positive Unix-millisecond timestamp";;
  reject (icf_Now p <=? 0)%Z "storage: InsertConflictParams: Now must be a positive Unix-millisecond timestamp".

(** ** One row *)

Definition Push_Lookup (group mutationID : string) : M (string * Mutation) :=
  lookupMutationLedgerEntryTx group mutationID.

Definition Push_Insert (group : string) (p : InsertMutationLedgerEntryParams) : M (string * Mutation) :=
  writeTx (InsertMutationLedgerEntryParams_validate p) (
    insertMutationLedgerEntryTx group (iml_ID p) (iml_MutationID p) (iml_EntityType p) (iml_EntityID p)
      (iml_Outcome p) (iml_Now p)).

Definition Push_LookupFieldVersions (group entityType entityID : string) : M (list (fvKey * FieldVersion)) :=
  lookupFieldVersionsTx group entityType entityID.

Definition Push_UpsertFieldVersion (group : string) (p : UpsertFieldVersionParams) : M unit :=
  writeTx (UpsertFieldVersionParams_validate p) (
    upsertFieldVersionTx group (ufv_EntityType p) (ufv_EntityID p) (ufv_FieldName p) (ufv_Version p) (ufv_Now p)).

Definition Push_InsertConflict (group : string) (p : InsertConflictParams) : M Conflict :=
  writeTx (InsertConflictParams_validate p) (
    insertConflictTx group (icf_ID p) (icf_EntityType p) (icf_EntityID p) (icf_FieldName p)
      (icf_ServerValueSnapshot p) (icf_LosingClientValueSnapshot p) (icf_DetectedAt p) (icf_MutationID p) (icf_Now p)).

(** ** Pages *)

Definition MaxConflictPageLimit : Z := 200.

Record ConflictLogEntry := mkConflictLogEntry {
  cle_ID : string; cle_MutationID : option string; cle_EntityType : string; cle_EntityID : string;
  cle_FieldName : string; cle_ServerValue : option json; cle_LosingClientValue : option json;
  cle_DetectedAt : Z }.

Record ConflictCursor := mkConflictCursor { cc_DetectedAt : Z; cc_ID : string }.

Record ConflictPage := mkConflictPage { cp_Entries : list ConflictLogEntry; cp_Next : option ConflictCursor }.

(** [(a.detected_at, a.id) < (b.detected_at, b.id)] *)
Definition cursor_lt (a b : ConflictCursor) : bool :=
  (cc_DetectedAt a <? cc_DetectedAt b)%Z
  || ((cc_DetectedAt a =? cc_DetectedAt b)%Z && String.ltb (cc_ID a) (cc_ID b)).

Definition key_of_entry (e : ConflictLogEntry) : ConflictCursor := mkConflictCursor (cle_DetectedAt e) (cle_ID e).

(** [ORDER BY detected_at DESC, id DESC] *)
Definition newer_first (a b : ConflictLogEntry) : bool :=
  (cle_DetectedAt b <? cle_DetectedAt a)%Z
  || ((cle_DetectedAt a =? cle_DetectedAt b)%Z && String.leb (cle_ID b) (cle_ID a)).

(** [LEFT JOIN mutations m ON m.id = c.mutation_id AND m.group_id = c.group_id] *)
Definition wire_mutation_id (db : DB) (group : string) (c : Conflict) : option string :=
  id ← con_MutationID c; m ← mutations db !! id;
  if mut_GroupID m =?s group then Some (mut_MutationID m) else None.

Definition log_entry (db : DB) (group : string) (kc : string * Conflict) : ConflictLogEntry :=
  mkConflictLogEntry kc.1 (wire_mutation_id db group kc.2) (con_EntityType kc.2) (con_EntityID kc.2)
    (con_FieldName kc.2) (con_ServerValueSnapshot kc.2) (con_LosingClientValueSnapshot kc.2) (con_DetectedAt kc.2).

(** The conflicts of a group. *)
Definition conflict_log (db : DB) (group : string) : list ConflictLogEntry :=
  log_entry db group <$> List.filter (fun kc => con_GroupID kc.2 =?s group) (map_to_list (conflicts db)).

Definition ListConflictsPage (group : string) (after : ConflictCursor) (page_limit : Z) :
    M (list ConflictLogEntry) := fun w =>
  (Ok (take (Z.to_nat page_limit)
         (order_by newer_first
            (List.filter (fun e => cursor_lt (key_of_entry e) after) (conflict_log (wdb w) group)))), w).

(** The page and the cursor after it: there is one if a row more than the
    limit was found. *)
Definition ListConflicts (group : string) (after : option ConflictCursor) (limit : Z) : M ConflictPage :=
  if (limit <? 1)%Z || (MaxConflictPageLimit <? limit)%Z then throw ErrInvalidConflictPage else
  let after := default (mkConflictCursor int64_max "") after in
  rows ← ListConflictsPage group after (limit + 1);
  let entries := take (Z.to_nat limit) rows in
  mret (mkConflictPage entries
          (if (limit <? Z.of_nat (length rows))%Z then key_of_entry <$> last entries else None)).

(** ** The cursor on the wire *)

(** [base64.RawURLEncoding] has its own two digits in place of the standard
    ones; ["$"] is no digit. *)
Fixpoint std_alphabet (s : string) : string :=
  match s with
  | EmptyString => EmptyString
  | String c s =>
      String (if Ascii.eqb c "-" then "+" else if Ascii.eqb c "_" then "/"
              else if Ascii.eqb c "+" || Ascii.eqb c "/" then "$" else c)%char (std_alphabet s)
  end.

Definition url_encode (s : string) : string := url_alphabet (base64_encode s).
Definition url_decode (s : string) : option string := base64_decode (std_alphabet s).

(** [strings.Cut(s, ":")] *)
Fixpoint cut_colon (s : string) : option (string * string) :=
  match s with
  | EmptyString => None
  | String c s =>
      if Ascii.eqb c ":" then Some (EmptyString, s)
      else '(before, after) ← cut_colon s; Some (String c before, after)
  end.

Definition EncodeConflictCursor (c : ConflictCursor) : string :=
  url_encode (FormatInt (cc_DetectedAt c) ++ String ":" (cc_ID c)).

(** [None] is [ErrInvalidConflictCursor]. *)
Definition DecodeConflictCursor (s : string) : option ConflictCursor :=
  raw ← url_decode s;
  '(ts, id) ← cut_colon raw;
  if id =?s "" then None else
  n ← ParseInt ts;
  Some (mkConflictCursor n id).

(** ** The cursor survives the wire *)

Lemma std_url_alphabet s : std_alphabet (url_alphabet (base64_encode s)) = base64_encode s.
Proof.
  assert (H : forallb (fun c => negb (Ascii.eqb c "-") && negb (Ascii.eqb c "_")) (list_ascii_of_string (base64_encode s)) = true).
  { apply base64_encode_all. intros n Hn.
    assert (Hall : forallb (fun k => negb (Ascii.eqb (base64_digit (Z.of_nat k)) "-")
      && negb (Ascii.eqb (base64_digit (Z.of_nat k)) "_")) (seq 0 64) = true) by by vm_compute.
    rewrite forallb_forall in Hall. rewrite <- (Z2Nat.id n) by lia. apply Hall, in_seq. lia. }
  induction (base64_encode s) as [|c t IH]; [done|]. cbn in H.
  apply andb_true_iff in H as [[H1%negb_true_iff H2%negb_true_iff]%andb_true_iff Ht].
  cbn [url_alphabet std_alphabet]. rewrite IH by done. f_equal.
  destruct (Ascii.eqb_spec c "+") as [->|Hp]; [done|]. destruct (Ascii.eqb_spec c "/") as [->|Hs]; [done|].
  rewrite H1, H2. by rewrite (proj2 (Ascii.eqb_neq _ _) Hp), (proj2 (Ascii.eqb_neq _ _) Hs).
Qed.

Lemma url_decode_encode s : url_decode (url_encode s) = Some s.
Proof. unfold url_decode, url_encode. by rewrite std_url_alphabet, base64_decode_encode. Qed.

(** The first colon. *)
Lemma cut_colon_app (s t : string) : contains_byte s ":" = false -> cut_colon (s ++ String ":" t) = Some (s, t).
Proof.
  induction s as [|c s IH]; cbn; [done|]. intros [Hc Hs]%orb_false_iff.
  by rewrite Hc, IH.
Qed.

Lemma format_loop_no_colon fuel n acc : (0 <= n)%Z -> contains_byte acc ":" = false -> contains_byte (format_loop fuel n acc) ":" = false.
Proof.
  revert n acc. induction fuel as [|fuel IH]; intros n acc Hn Ha; [done|]. cbn [format_loop].
  assert (Hd : forall d, (0 <= d <= 9)%Z -> Ascii.eqb (digit d) ":" = false).
  { intros d Hd. destruct (Ascii.eqb_spec (digit d) ":") as [E|]; [|done].
    pose proof (digit_value_digit d Hd) as Hv. by rewrite E in Hv. }
  destruct (Z.ltb_spec n 10); [|apply IH; [Z.to_euclidean_division_equations; lia|]]; cbn [contains_byte]; rewrite Ha;
    rewrite Hd; try done; Z.to_euclidean_division_equations; lia.
Qed.

Lemma FormatInt_no_colon i : contains_byte (FormatInt i) ":" = false.
Proof.
  unfold FormatInt, FormatUint. destruct (Z.ltb_spec i 0); [cbn [contains_byte Ascii.eqb Bool.eqb orb]|];
    apply format_loop_no_colon; (done || lia).
Qed.

(** A cursor comes back as it was sent. *)
Theorem conflict_cursor_round_trip c :
  (int64_min <= cc_DetectedAt c <= int64_max)%Z -> cc_ID c <> ""%string ->
  DecodeConflictCursor (EncodeConflictCursor c) = Some c.
Proof.
  intros Hd Hid. unfold DecodeConflictCursor, EncodeConflictCursor. rewrite url_decode_encode. cbn [mbind option_bind].
  rewrite cut_colon_app by apply FormatInt_no_colon. cbn [mbind option_bind].
  rewrite (proj2 (string_eqb_false _ _) Hid), ParseInt_FormatInt by done. by destruct c.
Qed.

(** ** The order of the log *)

Lemma string_ltb_leb (s t : string) : String.ltb s t = negb (String.leb t s).
Proof.
  unfold String.ltb, String.leb. rewrite (String.compare_antisym s t). by destruct (String.compare t s).
Qed.

Lemma newer_first_cursor a b : newer_first a b = negb (cursor_lt (key_of_entry a) (key_of_entry b)).
Proof.
  unfold newer_first, cursor_lt, key_of_entry. cbn [cc_DetectedAt cc_ID]. rewrite string_ltb_leb.
  destruct (Z.ltb_spec (cle_DetectedAt b) (cle_DetectedAt a)), (Z.ltb_spec (cle_DetectedAt a) (cle_DetectedAt b)),
    (Z.eqb_spec (cle_DetectedAt a) (cle_DetectedAt b)), (String.leb (cle_ID b) (cle_ID a)); (done || lia).
Qed.

Definition string_lt (s t : string) : Prop := String.ltb s t = true.

Lemma string_lt_alt s t : string_lt s t <-> String.le s t /\ s <> t.
Proof.
  unfold string_lt. rewrite string_ltb_leb, negb_true_iff. unfold String.le. split.
  - intros Hn. destruct (total String.le s t) as [Hl|Hl]; [|unfold String.le in Hl; by rewrite Hn in Hl].
    split; [done|]. intros ->. unfold String.le in Hl. by rewrite Hn in Hl.
  - intros [Hl Hne]. destruct (String.leb t s) eqn:E; [|done]. destruct Hne. apply (anti_symm String.le); [done|]. unfold String.le. by rewrite E.
Qed.

#[global] Instance string_lt_strict : StrictOrder string_lt.
Proof.
  split.
  - intros s [_ Hne]%string_lt_alt. done.
  - intros s t u [H1 N1]%string_lt_alt [H2 N2]%string_lt_alt. apply string_lt_alt. split; [by transitivity t|].
    intros ->. by apply N1, (anti_symm String.le).
Qed.

Lemma string_lt_total s t : string_lt s t \/ s = t \/ string_lt t s.
Proof.
  destruct (decide (s = t)) as [|Hne]; [by right; left|].
  destruct (total String.le s t); [left|right; right]; by apply string_lt_alt.
Qed.

(** [a] comes after [b] in the log. *)
Definition older (a b : ConflictCursor) : Prop := cursor_lt a b = true.

Lemma older_alt a b :
  older a b <-> (cc_DetectedAt a < cc_DetectedAt b)%Z \/ cc_DetectedAt a = cc_DetectedAt b /\ string_lt (cc_ID a) (cc_ID b).
Proof.
  unfold older, cursor_lt, string_lt. rewrite orb_true_iff, andb_true_iff, Z.ltb_lt, Z.eqb_eq. done.
Qed.

#[global] Instance older_strict : StrictOrder older.
Proof.
  split.
  - intros a. unfold complement. rewrite older_alt. intros [|[_ Hlt]]; [lia|]. by apply (irreflexivity string_lt) in Hlt.
  - intros a b c. rewrite !older_alt. intros [|[? H1]] [|[? H2]]; [left; lia..|].
    right. split; [congruence|]. by transitivity (cc_ID b).
Qed.

Lemma older_total a b : older a b \/ a = b \/ older b a.
Proof.
  rewrite !older_alt. destruct (Z.lt_trichotomy (cc_DetectedAt a) (cc_DetectedAt b)) as [|[E|]]; [by left; left| |by right; right; left].
  destruct (string_lt_total (cc_ID a) (cc_ID b)) as [|[Hid|]]; [by left; right| |by right; right; right].
  right; left. destruct a, b; cbn in *; congruence.
Qed.

(** ** One page *)

#[local] Instance newer_first_total : Total (fun a b => newer_first a b).
Proof.
  intros a b. rewrite !newer_first_cursor. destruct (cursor_lt (key_of_entry a) (key_of_entry b)) eqn:E; [right|by left].
  destruct (cursor_lt (key_of_entry b) (key_of_entry a)) eqn:E'; [|done].
  exfalso. apply (irreflexivity older (key_of_entry a)). by transitivity (key_of_entry b).
Qed.

#[local] Instance newer_first_trans : Transitive (fun a b => newer_first a b).
Proof.
  intros a b c. rewrite !newer_first_cursor.
  destruct (cursor_lt (key_of_entry a) (key_of_entry b)) eqn:Eab; [done|].
  destruct (cursor_lt (key_of_entry b) (key_of_entry c)) eqn:Ebc; [done|]. intros _ _.
  destruct (cursor_lt (key_of_entry a) (key_of_entry c)) eqn:Eac; [|done]. exfalso.
  destruct (older_total (key_of_entry a) (key_of_entry b)) as [Hab|[Hab|Hab]]; unfold older in *; [congruence| |].
  - rewrite Hab in Eac. congruence.
  - assert (Hbc : older (key_of_entry b) (key_of_entry c)) by (transitivity (key_of_entry a); done). unfold older in Hbc. congruence.
Qed.

Section page.
Context (g : string) (db : DB).

Lemma conflict_log_ids : NoDup (cle_ID <$> conflict_log db g).
Proof.
  unfold conflict_log. rewrite <- list_fmap_compose.
  eapply sublist_NoDup; [apply (NoDup_fst_map_to_list (conflicts db))|].
  induction (map_to_list (conflicts db)) as [|kc l IH]; cbn; [done|].
  destruct (_ =?s _); cbn; [by apply sublist_skip|by apply sublist_cons].
Qed.

Lemma elem_of_conflict_log e :
  e ∈ conflict_log db g <->
  exists id c, conflicts db !! id = Some c /\ con_GroupID c = g /\ e = log_entry db g (id, c).
Proof.
  unfold conflict_log. rewrite list_elem_of_fmap. setoid_rewrite elem_of_filter_bool. split.
  - intros ([id c] & -> & Hin%elem_of_map_to_list & Hg%string_eqb_true). by exists id, c.
  - intros (id & c & Hc & Hg & ->). exists (id, c). split; [done|]. split; [by apply elem_of_map_to_list|].
    by apply string_eqb_true.
Qed.

(** The rows of the log after a cursor, in order. *)
Definition rows_after (a : ConflictCursor) : list ConflictLogEntry :=
  order_by newer_first (List.filter (fun e => cursor_lt (key_of_entry e) a) (conflict_log db g)).

Lemma elem_of_rows_after a e : e ∈ rows_after a <-> e ∈ conflict_log db g /\ older (key_of_entry e) a.
Proof. unfold rows_after. by rewrite elem_of_order_by, elem_of_filter_bool. Qed.

(** Strictly older and older. *)
Lemma rows_after_sorted a : StronglySorted (fun x y => older (key_of_entry y) (key_of_entry x)) (rows_after a).
Proof.
  assert (Hnd : NoDup (cle_ID <$> rows_after a)).
  { unfold rows_after. rewrite order_by_Permutation. eapply sublist_NoDup; [apply conflict_log_ids|].
    induction (conflict_log db g) as [|e l IH]; cbn; [done|]. destruct (cursor_lt _ _); cbn; [by apply sublist_skip|by apply sublist_cons]. }
  assert (Hs : StronglySorted (fun x y => newer_first x y) (rows_after a)) by apply (StronglySorted_merge_sort _).
  induction Hs as [|x l Hs IH Hx]; [constructor|]. cbn [fmap list_fmap] in Hnd. apply NoDup_cons in Hnd as [Hn Hnd].
  constructor; [by apply IH|]. apply Forall_forall. intros y Hy. rewrite Forall_forall in Hx. specialize (Hx y Hy).
  rewrite newer_first_cursor in Hx. destruct (older_total (key_of_entry x) (key_of_entry y)) as [Ho|[He|Ho]]; [|exfalso|done].
  - unfold older in Ho. by rewrite Ho in Hx.
  - apply Hn. injection He as _ Hid. rewrite Hid. by apply list_elem_of_fmap_2.
Qed.
End page.

Definition first_cursor (after : option ConflictCursor) : ConflictCursor := default (mkConflictCursor int64_max "") after.

Lemma StronglySorted_take_drop {A} (R : relation A) n l x y :
  StronglySorted R l -> x ∈ take n l -> y ∈ drop n l -> R x y.
Proof.
  intros Hs. rewrite <- (take_drop n l) in Hs. revert Hs. generalize (drop n l) as l2. generalize (take n l) as l1.
  induction l1 as [|z l1 IH]; intros l2 Hs Hx Hy; [by apply not_elem_of_nil in Hx|]. cbn [app] in Hs.
  apply StronglySorted_cons in Hs as [Hz Hs]. apply elem_of_cons in Hx as [->|Hx]; [|by apply (IH l2)].
  rewrite Forall_forall in Hz. apply Hz. set_solver.
Qed.

Lemma StronglySorted_take {A} (R : relation A) n l : StronglySorted R l -> StronglySorted R (take n l).
Proof. intros Hs. rewrite <- (take_drop n l) in Hs. by apply StronglySorted_app_1_l in Hs. Qed.

Lemma ListConflicts_page g after limit w :
  (1 <= limit <= MaxConflictPageLimit)%Z ->
  let rows := rows_after g (wdb w) (first_cursor after) in
  let entries := take (Z.to_nat limit) rows in
  ListConflicts g after limit w =
    (Ok (mkConflictPage entries (if (limit <? Z.of_nat (length rows))%Z then key_of_entry <$> last entries else None)), w).
Proof.
  intros Hl rows entries. unfold ListConflicts. unfold MaxConflictPageLimit in *.
  rewrite (proj2 (Z.ltb_ge limit 1)), (proj2 (Z.ltb_ge 200 limit)) by lia. cbn [orb].
  unfold ListConflictsPage, mbind, prog_bind, mret, prog_ret. fold (first_cursor after).
  change (order_by newer_first _) with rows. rewrite length_take, take_take.
  replace (Z.to_nat limit `min` Z.to_nat (limit + 1))%nat with (Z.to_nat limit) by lia.
  fold entries. do 3 f_equal. destruct (Z.ltb_spec limit (Z.of_nat (length rows))) as [Hlt|Hge].
  - by rewrite (proj2 (Z.ltb_lt _ _)) by lia.
  - by rewrite (proj2 (Z.ltb_ge _ _)) by lia.
Qed.

(** A page holds log rows after the cursor; every other one is after the next
    cursor, and without a next cursor there is no other. *)
Lemma ListConflicts_ok g after limit w page w' :
  ListConflicts g after limit w = (Ok page, w') ->
  w' = w /\ StronglySorted (fun x y => older (key_of_entry y) (key_of_entry x)) (cp_Entries page) /\
  (forall e, e ∈ cp_Entries page -> e ∈ conflict_log (wdb w) g /\ older (key_of_entry e) (first_cursor after)) /\
  match cp_Next page with
  | None => forall e, e ∈ conflict_log (wdb w) g -> older (key_of_entry e) (first_cursor after) -> e ∈ cp_Entries page
  | Some c =>
      older c (first_cursor after) /\ (exists e, e ∈ cp_Entries page) /\
      (forall e, e ∈ cp_Entries page -> key_of_entry e = c \/ older c (key_of_entry e)) /\
      (forall e, e ∈ conflict_log (wdb w) g -> older (key_of_entry e) (first_cursor after) ->
         e ∈ cp_Entries page \/ older (key_of_entry e) c)
  end.
Proof.
  intros Hrun. destruct (Z.ltb_spec limit 1); [by unfold ListConflicts in Hrun; rewrite (proj2 (Z.ltb_lt _ _)) in Hrun|].
  destruct (Z.ltb_spec MaxConflictPageLimit limit) as [Hgt|].
  { unfold ListConflicts in Hrun. by rewrite (proj2 (Z.ltb_lt _ _) Hgt), orb_true_r in Hrun. }
  rewrite ListConflicts_page in Hrun by done. cbv zeta in Hrun. injection Hrun as <- <-. cbn [cp_Entries cp_Next].
  set (rows := rows_after g (wdb w) (first_cursor after)).
  assert (Hs : StronglySorted (fun x y => older (key_of_entry y) (key_of_entry x)) rows) by apply rows_after_sorted.
  assert (Hin : forall e, e ∈ rows <-> e ∈ conflict_log (wdb w) g /\ older (key_of_entry e) (first_cursor after))
    by (intros e; apply elem_of_rows_after).
  split_and!; [done|by apply StronglySorted_take|intros e He; apply Hin; by apply (subseteq_take (Z.to_nat limit))|].
  destruct (Z.ltb_spec limit (Z.of_nat (length rows))) as [Hlt|Hge].
  - destruct (last (take (Z.to_nat limit) rows)) as [e0|] eqn:El; cbn [fmap option_fmap option_map].
    2: { apply last_None in El. apply (f_equal length) in El. rewrite length_take in El. simpl in El. lia. }
    apply last_Some in El as [pre El]. assert (He0 : e0 ∈ take (Z.to_nat limit) rows) by (rewrite El; set_solver).
    split_and!.
    + apply Hin. by apply (subseteq_take (Z.to_nat limit)).
    + by exists e0.
    + intros e He. apply StronglySorted_take with (n := Z.to_nat limit) in Hs. rewrite El in He, Hs.
      apply elem_of_app in He as [He| ->%list_elem_of_singleton]; [right|by left].
      by apply (StronglySorted_app_1_elem_of (fun x y => older (key_of_entry y) (key_of_entry x)) pre [e0] e e0 Hs); [|left].
    + intros e He Ho. assert (Hr : e ∈ rows) by by apply Hin. rewrite <- (take_drop (Z.to_nat limit) rows) in Hr.
      apply elem_of_app in Hr as [|Hr]; [by left|right]. by apply (StronglySorted_take_drop _ _ _ _ _ Hs He0).
  - intros e He Ho. rewrite take_ge by lia. by apply Hin.
Qed.

(** ** Following the cursors *)

Section walk.
Context `{Entropy} (g : string).

(** [walk after w es]: a client that asks for the page after [after] in the
    state [w], and for the next one after any events, until there is no next
    one, reads [es]. *)
Inductive walk : option ConflictCursor -> World -> list ConflictLogEntry -> Prop :=
  | walk_last after limit w page w' :
      ListConflicts g after limit w = (Ok page, w') -> cp_Next page = None -> walk after w (cp_Entries page)
  | walk_next after limit w page w' c evs es :
      ListConflicts g after limit w = (Ok page, w') -> cp_Next page = Some c ->
      walk (Some c) (serve evs w') es -> walk after w (cp_Entries page ++ es).

Lemma conflict_kept a b k c : history a b -> conflicts a !! k = Some c -> conflicts b !! k = Some c.
Proof.
  induction 1 as [|h a b d _ IH HE]; [done|]. intros Hc. specialize (IH Hc).
  pose proof (evo_conflicts _ _ _ _ HE k) as Hk. by rewrite IH in Hk.
Qed.

(** A conflict keeps its key. *)
Lemma log_key_kept a b e e' :
  history a b -> e ∈ conflict_log a g -> e' ∈ conflict_log b g -> cle_ID e = cle_ID e' -> key_of_entry e = key_of_entry e'.
Proof.
  intros Hh (id & c & Hc & _ & ->)%elem_of_conflict_log (id' & c' & Hc' & _ & ->)%elem_of_conflict_log. cbn. intros <-.
  pose proof (conflict_kept _ _ _ _ Hh Hc). by simplify_eq.
Qed.

Lemma sorted_ids_NoDup es :
  StronglySorted (fun x y => older (key_of_entry y) (key_of_entry x)) es ->
  (forall e e', e ∈ es -> e' ∈ es -> cle_ID e = cle_ID e' -> key_of_entry e = key_of_entry e') -> NoDup (cle_ID <$> es).
Proof.
  induction 1 as [|x l Hs IH Hx]; intros Hk; [constructor|]. cbn. constructor.
  - intros (y & Hid & Hy)%list_elem_of_fmap. rewrite Forall_forall in Hx. specialize (Hx y Hy).
    rewrite (Hk x y) in Hx; [by apply (irreflexivity older) in Hx|by left|by right|done].
  - apply IH. intros e e' He He'. apply Hk; by right.
Qed.

(** Everything read is in order and after the cursor, and a row of a state the
    client passed. *)
Lemma walk_sound after w es :
  walk after w es ->
  StronglySorted (fun x y => older (key_of_entry y) (key_of_entry x)) es /\
  Forall (fun e => older (key_of_entry e) (first_cursor after)) es /\
  Forall (fun e => exists db, history (wdb w) db /\ e ∈ conflict_log db g) es /\
  (forall e e', e ∈ es -> e' ∈ es -> cle_ID e = cle_ID e' -> key_of_entry e = key_of_entry e').
Proof.
  induction 1 as [after limit w page w' Hrun Hn|after limit w page w' c evs es Hrun Hn Hw (IHs & IHa & IHl & IHk)];
    apply ListConflicts_ok in Hrun as (-> & Hs & Hin & Hnext); rewrite Hn in Hnext.
  - split_and!; [done|apply Forall_forall; intros e He; by apply Hin|..].
    + apply Forall_forall. intros e He. exists (wdb w). split; [apply history_refl|by apply Hin].
    + intros e e' He He'. apply (log_key_kept (wdb w) (wdb w)); [apply history_refl|by apply Hin..].
  - destruct Hnext as (Hc & _ & Hge & _). change (first_cursor (Some c)) with c in IHa.
    pose proof (proj1 (Forall_forall _ _) IHa) as IHa'. split_and!.
    + apply StronglySorted_app_2; [|done..]. intros x y Hx Hy. specialize (IHa' y Hy).
      destruct (Hge x Hx) as [->|Ho]; [done|]. by transitivity c.
    + apply Forall_app. split; apply Forall_forall; intros e He; [by apply Hin|]. transitivity c; [by apply IHa'|done].
    + apply Forall_app. split; apply Forall_forall; intros e He.
      * exists (wdb w). split; [apply history_refl|by apply Hin].
      * rewrite Forall_forall in IHl. destruct (IHl e He) as (db & Hh & Hl). exists db. split; [|done].
        eapply history_trans; [apply history_serve|done].
    + assert (Hcross : forall e e', e ∈ cp_Entries page -> e' ∈ es -> cle_ID e = cle_ID e' -> key_of_entry e = key_of_entry e').
      { intros e e' He He'. rewrite Forall_forall in IHl. destruct (IHl e' He') as (db & Hh & Hl).
        apply (log_key_kept (wdb w) db); [|by apply Hin|done]. eapply history_trans; [apply history_serve|done]. }
      intros e e' [He|He]%elem_of_app [He'|He']%elem_of_app Hid; [|by apply Hcross|symmetry; by apply Hcross|by apply IHk].
      apply (log_key_kept (wdb w) (wdb w)); [apply history_refl|by apply Hin..|done].
Qed.

Lemma walk_complete after w es id c :
  walk after w es -> conflicts (wdb w) !! id = Some c -> con_GroupID c = g ->
  older (mkConflictCursor (con_DetectedAt c) id) (first_cursor after) ->
  exists db, history (wdb w) db /\ log_entry db g (id, c) ∈ es.
Proof.
  induction 1 as [after limit w page w' Hrun Hn|after limit w page w' c' evs es Hrun Hn Hw IH];
    apply ListConflicts_ok in Hrun as (-> & _ & _ & Hnext); rewrite Hn in Hnext; intros Hc Hg Ho;
    assert (Hin : log_entry (wdb w) g (id, c) ∈ conflict_log (wdb w) g) by (apply elem_of_conflict_log; by exists id, c).
  - exists (wdb w). split; [apply history_refl|]. by apply Hnext.
  - destruct Hnext as (_ & _ & _ & Hall). destruct (Hall _ Hin Ho) as [He|He].
    + exists (wdb w). split; [apply history_refl|]. apply elem_of_app. by left.
    + destruct IH as (db & Hh & He'); [eapply conflict_kept; [apply history_serve|done]|done|exact He|].
      exists db. split; [eapply history_trans; [apply history_serve|done]|]. apply elem_of_app. by right.
Qed.

(** C18: a client that follows the cursors reads the conflict log without
    gaps or repeats.  Whatever events are served between two pages and
    whatever limits it asks for, it reads entries in strictly descending order
    of time and id, so none twice; each is the log entry of a conflict of its
    own group; and every conflict of the group that was there when it began is
    among them. *)
Theorem conflict_pages_exact w es :
  walk None w es ->
  NoDup (cle_ID <$> es) /\
  StronglySorted (fun x y => older (key_of_entry y) (key_of_entry x)) es /\
  (forall e, e ∈ es -> exists db id c, history (wdb w) db /\ conflicts db !! id = Some c /\ con_GroupID c = g /\
     e = log_entry db g (id, c)) /\
  (forall id c, conflicts (wdb w) !! id = Some c -> con_GroupID c = g -> (con_DetectedAt c < int64_max)%Z ->
     exists db, history (wdb w) db /\ log_entry db g (id, c) ∈ es).
Proof.
  intros Hw. destruct (walk_sound _ _ _ Hw) as (Hs & _ & Hl & Hk). rewrite Forall_forall in Hl. split_and!.
  - by apply sorted_ids_NoDup.
  - done.
  - intros e He. destruct (Hl e He) as (db & Hh & (id & c & ?)%elem_of_conflict_log). naive_solver.
  - intros id c Hc Hg Hd. eapply walk_complete; [done..|]. apply older_alt. by left.
Qed.
End walk.

Lemma filter_length_lt {A} (p q : A -> bool) l e :
  (forall x, p x = true -> q x = true) -> e ∈ l -> q e = true -> p e = false ->
  length (List.filter p l) < length (List.filter q l).
Proof.
  intros Hpq He Hq Hp.
  assert (Hle : forall l', length (List.filter p l') <= length (List.filter q l')).
  { induction l' as [|x l' IH]; cbn; [done|]. destruct (p x) eqn:E; [rewrite (Hpq _ E); cbn; lia|].
    destruct (q x); cbn; lia. }
  induction l as [|x l IH]; [by apply not_elem_of_nil in He|]. cbn. apply elem_of_cons in He as [<-|He].
  - rewrite Hq, Hp. cbn. specialize (Hle l). lia.
  - specialize (IH He). destruct (p x) eqn:E; [rewrite (Hpq _ E); cbn; lia|]. destruct (q x); cbn; lia.
Qed.

(** Following the cursors ends: with a limit in range and nothing written
    in between, some page has no next one. *)
Theorem conflict_pages_end `{Entropy} g limit w :
  (1 <= limit <= MaxConflictPageLimit)%Z -> exists es, walk g None w es.
Proof.
  intros Hl. generalize (@None ConflictCursor) as after. intros after.
  remember (length (rows_after g (wdb w) (first_cursor after))) as n eqn:Hn. revert after Hn.
  induction (lt_wf n) as [n _ IH]; intros after ->.
  pose proof (ListConflicts_page g after limit w Hl) as Hrun. cbv zeta in Hrun.
  destruct (ListConflicts_ok _ _ _ _ _ _ Hrun) as (_ & _ & Hin & Hnext). cbn [cp_Entries cp_Next] in Hin, Hnext.
  destruct (if (_ <? _)%Z then _ else None) as [c|] eqn:E; [|eexists; by eapply walk_last].
  destruct Hnext as (Hc & (e & He) & Hge & _).
  assert (Hsub : length (rows_after g (wdb w) c) < length (rows_after g (wdb w) (first_cursor after))).
  { unfold rows_after. rewrite !order_by_Permutation. apply (filter_length_lt _ _ _ e); [|by apply Hin..|].
    - intros x Hx. unfold older in Hc. assert (Ho : older (key_of_entry x) (first_cursor after)) by by transitivity c. done.
    - destruct (cursor_lt (key_of_entry e) c) eqn:Ee; [|done]. exfalso.
      assert (Ho : older (key_of_entry e) c) by done. apply (irreflexivity older c).
      destruct (Hge e He) as [<-|Hlt]; [done|]. by transitivity (key_of_entry e). }
  destruct (IH _ Hsub (Some c) eq_refl) as [es Hes]. eexists. by eapply (walk_next g after limit w _ w c []).
Qed.

(** Two stale pushes leave two conflicts. *)
Definition demo_conflicted : World :=
  serve [OfGroup "g1" (PushOne demo_rename);
         OfGroup "g1" (PushOne demo_rename2);
         OfGroup "g1" (PushOne (demo_push "m4" "item" "i1" 1 [("name"%string, JString "Candle")]))]%string demo.

Lemma conflict_pages_exact_witness : exists es,
  walk "g1" None demo_conflicted es /\ length es = 2 /\ NoDup (cle_ID <$> es).
Proof.
  destruct (ListConflicts "g1" None 1 demo_conflicted) as [[p1|] w1] eqn:E1; [|by vm_compute in E1].
  destruct (cp_Next p1) as [c|] eqn:En; [|vm_compute in E1; by injection E1 as <- _].
  destruct (ListConflicts "g1" (Some c) 1 w1) as [[p2|] w2] eqn:E2;
    [|vm_compute in E1; injection E1 as <- <-; injection En as <-; by vm_compute in E2].
  assert (Hn : cp_Next p2 = None /\ length (cp_Entries p1 ++ cp_Entries p2) = 2).
  { vm_compute in E1. injection E1 as <- <-. injection En as <-. vm_compute in E2. by injection E2 as <- _. }
  assert (Hw : walk "g1" None demo_conflicted (cp_Entries p1 ++ cp_Entries p2)).
  { eapply (walk_next "g1" None 1 _ p1 w1 c []); [done..|]. by eapply walk_last, Hn. }
  exists (cp_Entries p1 ++ cp_Entries p2). split; [done|]. split; [apply Hn|].
  apply (conflict_pages_exact "g1" demo_conflicted _ Hw).
Defined.

Lemma conflict_pages_end_witness : exists es, walk "g1" None demo_conflicted es.
Proof. by apply (conflict_pages_end "g1" 1 demo_conflicted). Defined.

Lemma conflict_cursor_round_trip_witness :
  let c := mkConflictCursor 1735689600000 "0193-a:b" in DecodeConflictCursor (EncodeConflictCursor c) = Some c.
Proof. cbv zeta. by apply conflict_cursor_round_trip. Defined.
