(* ===== verification/DomainServices.v ===== *)
(** * The domain services

    [items/], [labels/], [locations/], [customfields/] and
    [groups/visibility.go]: the checks in front of the repositories, and the
    ids, short codes and clock readings that the requests do not carry.  A
    reading of the clock is an argument.  A repository that is [nil] is not
    modelled: the handlers take them from the scope of the request. *)

From S2P Require Import Prelude GoBase Schema Sql Evolution Queries PushRepo PushHandlers PushCommit Items Blocks Details.
From S2P Require Import Labels Locations Accounts Escape Strconv Csv Export ImportParse Reads.
From Stdlib Require Import Strings.Ascii.

(** A check of the request: [if c { return err }] *)
Definition require (c : bool) (e : GoError) : res unit := if c then Ok tt else Err e.

(** ** items *)

Module ItemService.
Section service.
Context `{Entropy} (group : string).

Definition ErrNameRequired : GoError := ErrMessage "items: Name is required".
Definition ErrVersionRequired : GoError := ErrMessage "items: ExpectedVersion is required".
Definition ErrWarrantyDateInvalid : GoError :=
  ErrMessage "items: warranty dates must be ISO-8601 calendar days (YYYY-MM-DD), or empty".
Definition ErrPurchaseDateInvalid : GoError :=
  ErrMessage "items: purchase date must be an ISO-8601 calendar day (YYYY-MM-DD), or empty".
Definition ErrPurchasePriceNegative : GoError := ErrMessage "items: PurchasePriceMinor must not be negative".
Definition ErrSaleDateInvalid : GoError :=
  ErrMessage "items: sale date must be an ISO-8601 calendar day (YYYY-MM-DD), or empty".
Definition ErrSalePriceNegative : GoError := ErrMessage "items: SalePriceMinor must not be negative".
Definition ErrIdentificationKindInvalid : GoError :=
  ErrMessage "items: kind must be one of serial, model, asset_tag, barcode, other".
Definition ErrIdentificationValueRequired : GoError := ErrMessage "items: value is required".
Definition ErrCustomFieldTypeInvalid : GoError :=
  ErrMessage "items: field_type must be one of text, number, boolean, date".
Definition ErrCustomFieldNameRequired : GoError := ErrMessage "items: name is required".
Definition ErrCustomFieldValueInvalid : GoError :=
  ErrMessage "items: exactly one of text_value, number_value, bool_value, date_value must be set, matching field_type".
Definition ErrCustomFieldDefNotFound : GoError :=
  ErrMessage "items: field_def_id does not name a live custom field definition in this group".
Definition ErrCustomFieldTypeMismatch : GoError :=
  ErrMessage "items: field_type does not match the referenced custom field definition's field_type".

Definition newID : M string := new_uuid "items: generate id".

(** *** Items *)

Definition maxShortCodeAttempts : nat := 10.
Definition shortCodeAlphabet : string := "23456789ABCDEFGHJKMNPQRSTVWXYZ".
Definition shortCodeLength : nat := 8.

Definition newShortCode : M string :=
  raw ← draw (fun n => rand_Read n shortCodeLength);
  match raw with
  | None => throw (ErrMessage "items: draw a short code")
  | Some raw =>
      mret (string_of_list_ascii ((fun b => default Ascii.zero
        (String.get (Z.to_nat (b mod Z.of_nat (String.length shortCodeAlphabet))) shortCodeAlphabet)) <$> raw))
  end.

Record CreateRequest := mkCreateRequest { cr_Name : string; cr_Description : string; cr_LocationID : string; cr_Quantity : Z }.

Fixpoint create_attempts (id : string) (req : CreateRequest) (now : Z) (attempts : nat) : M Item :=
  match attempts with
  | O => throw (ErrMessage "items: create: exhausted short-code attempts")
  | S attempts =>
      code ← newShortCode;
      item ← try (Items_Create group (mkCreateItem id (cr_Name req) (cr_Description req) (cr_LocationID req)
                                        (cr_Quantity req) code now));
      match item with
      | Ok item => mret item
      | Err ErrShortCodeTaken => create_attempts id req now attempts
      | Err e => throw e
      end
  end.

Definition Create (req : CreateRequest) (now : Z) : M Item :=
  lift (require (negb (cr_Name req =?s "")) ErrNameRequired);;
  id ← newID;
  create_attempts id req now maxShortCodeAttempts.

Record UpdateRequest := mkUpdateRequest {
  ur_ItemID : string; ur_Name : string; ur_Description : string; ur_LocationID : string; ur_Quantity : Z;
  ur_ExpectedVersion : Z }.

Definition Update (req : UpdateRequest) (now : Z) : M Item :=
  lift (require (negb (ur_Name req =?s "")) ErrNameRequired);;
  lift (require (0 <? ur_ExpectedVersion req)%Z ErrVersionRequired);;
  Items_Update group (mkUpdateItem (ur_ItemID req) (ur_Name req) (ur_Description req) (ur_LocationID req)
    (ur_Quantity req) (ur_ExpectedVersion req) now).

Record CreateStockAdjustmentRequest := mkStockRequest {
  csr_ItemID : string; csr_Delta : Z; csr_Reason : string; csr_Note : string }.

Definition CreateStockAdjustment (req : CreateStockAdjustmentRequest) (now : Z) : M StockAdjustment :=
  id ← newID;
  StockAdjustments_Create group (mkCreateStock id (csr_ItemID req) (csr_Delta req) (csr_Reason req) (csr_Note req) now).

(** *** Blocks.  [parsed.Format(layout) != value] is what [parseISODate] of
    the importer checks, too. *)

Definition validateWarrantyDates (startsOn expiresOn : string) : res unit :=
  require (parseISODate startsOn && parseISODate expiresOn) ErrWarrantyDateInvalid.
Definition validateSaleDate (soldOn : string) : res unit := require (parseISODate soldOn) ErrSaleDateInvalid.
Definition validatePurchaseDate (purchasedOn : string) : res unit := require (parseISODate purchasedOn) ErrPurchaseDateInvalid.

Record CreateWarrantyRequest := mkCreateWarrantyRequest {
  cwr_ItemID : string; cwr_Holder : string; cwr_Provider : string; cwr_StartsOn : string; cwr_ExpiresOn : string;
  cwr_IsLifetime : bool; cwr_Notes : string }.

Definition CreateWarranty (req : CreateWarrantyRequest) (now : Z) : M Warranty :=
  lift (validateWarrantyDates (cwr_StartsOn req) (cwr_ExpiresOn req));;
  id ← newID;
  Warranty_Create group (mkCreateWarrantyP id (cwr_ItemID req) (cwr_Holder req) (cwr_Provider req) (cwr_StartsOn req)
    (cwr_ExpiresOn req) (cwr_IsLifetime req) (cwr_Notes req) now).

Record UpdateWarrantyRequest := mkUpdateWarrantyRequest {
  uwr_ItemID : string; uwr_Holder : string; uwr_Provider : string; uwr_StartsOn : string; uwr_ExpiresOn : string;
  uwr_IsLifetime : bool; uwr_Notes : string; uwr_ExpectedVersion : Z }.

Definition UpdateWarranty (req : UpdateWarrantyRequest) (now : Z) : M Warranty :=
  lift (require (0 <? uwr_ExpectedVersion req)%Z ErrVersionRequired);;
  lift (validateWarrantyDates (uwr_StartsOn req) (uwr_ExpiresOn req));;
  Warranty_Update group (mkUpdateWarrantyP (uwr_ItemID req) (uwr_Holder req) (uwr_Provider req) (uwr_StartsOn req)
    (uwr_ExpiresOn req) (uwr_IsLifetime req) (uwr_Notes req) (uwr_ExpectedVersion req) now).

Record CreateSaleRequest := mkCreateSaleRequest {
  csa_ItemID : string; csa_BuyerName : string; csa_SoldOn : string; csa_SalePriceMinor : Z; csa_Notes : string }.

Definition CreateSale (req : CreateSaleRequest) (now : Z) : M Sale :=
  lift (validateSaleDate (csa_SoldOn req));;
  lift (require (0 <=? csa_SalePriceMinor req)%Z ErrSalePriceNegative);;
  id ← newID;
  Sale_Create group (mkCreateSaleP id (csa_ItemID req) (csa_BuyerName req) (csa_SoldOn req) (csa_SalePriceMinor req)
    (csa_Notes req) now).

Record UpdateSaleRequest := mkUpdateSaleRequest {
  usr_ItemID : string; usr_BuyerName : string; usr_SoldOn : string; usr_SalePriceMinor : Z; usr_Notes : string;
  usr_ExpectedVersion : Z }.

Definition UpdateSale (req : UpdateSaleRequest) (now : Z) : M Sale :=
  lift (require (0 <? usr_ExpectedVersion req)%Z ErrVersionRequired);;
  lift (validateSaleDate (usr_SoldOn req));;
  lift (require (0 <=? usr_SalePriceMinor req)%Z ErrSalePriceNegative);;
  Sale_Update group (mkUpdateSaleP (usr_ItemID req) (usr_BuyerName req) (usr_SoldOn req) (usr_SalePriceMinor req)
    (usr_Notes req) (usr_ExpectedVersion req) now).

Record CreatePurchaseRequest := mkCreatePurchaseRequest {
  cpr_ItemID : string; cpr_Vendor : string; cpr_PurchasedOn : string; cpr_PurchasePriceMinor : Z;
  cpr_OrderReference : string; cpr_Notes : string }.

Definition CreatePurchase (req : CreatePurchaseRequest) (now : Z) : M Purchase :=
  lift (validatePurchaseDate (cpr_PurchasedOn req));;
  lift (require (0 <=? cpr_PurchasePriceMinor req)%Z ErrPurchasePriceNegative);;
  id ← newID;
  Purchase_Create group (mkCreatePurchaseP id (cpr_ItemID req) (cpr_Vendor req) (cpr_PurchasedOn req)
    (cpr_PurchasePriceMinor req) (cpr_OrderReference req) (cpr_Notes req) now).

Record UpdatePurchaseRequest := mkUpdatePurchaseRequest {
  upr_ItemID : string; upr_Vendor : string; upr_PurchasedOn : string; upr_PurchasePriceMinor : Z;
  upr_OrderReference : string; upr_Notes : string; upr_ExpectedVersion : Z }.

Definition UpdatePurchase (req : UpdatePurchaseRequest) (now : Z) : M Purchase :=
  lift (require (0 <? upr_ExpectedVersion req)%Z ErrVersionRequired);;
  lift (validatePurchaseDate (upr_PurchasedOn req));;
  lift (require (0 <=? upr_PurchasePriceMinor req)%Z ErrPurchasePriceNegative);;
  Purchase_Update group (mkUpdatePurchaseP (upr_ItemID req) (upr_Vendor req) (upr_PurchasedOn req)
    (upr_PurchasePriceMinor req) (upr_OrderReference req) (upr_Notes req) (upr_ExpectedVersion req) now).

(** *** Identifications *)

Definition ValidateIdentificationKind (kind : string) : res unit :=
  require (bool_decide (kind ∈ identificationKinds)) ErrIdentificationKindInvalid.

Record CreateIdentificationRequest := mkCreateIdentificationRequest { cir_ItemID : string; cir_Kind : string; cir_Value : string }.

Definition CreateIdentification (req : CreateIdentificationRequest) (now : Z) : M Identification :=
  lift (ValidateIdentificationKind (cir_Kind req));;
  lift (require (negb (cir_Value req =?s "")) ErrIdentificationValueRequired);;
  id ← newID;
  Identifications_Create group (mkCreateIdentification id (cir_ItemID req) (cir_Kind req) (cir_Value req) now).

Record UpdateIdentificationRequest := mkUpdateIdentificationRequest {
  uir_ItemID : string; uir_IdentificationID : string; uir_Kind : string; uir_Value : string; uir_ExpectedVersion : Z }.

Definition UpdateIdentification (req : UpdateIdentificationRequest) (now : Z) : M Identification :=
  lift (require (0 <? uir_ExpectedVersion req)%Z ErrVersionRequired);;
  lift (ValidateIdentificationKind (uir_Kind req));;
  lift (require (negb (uir_Value req =?s "")) ErrIdentificationValueRequired);;
  Identifications_Update group (mkUpdateIdentification (uir_ItemID req) (uir_IdentificationID req) (uir_Kind req)
    (uir_Value req) (uir_ExpectedVersion req) now).

(** *** Custom field values *)

Definition ValidateCustomFieldType (fieldType : string) : res unit :=
  require (bool_decide (fieldType ∈ customFieldTypes)) ErrCustomFieldTypeInvalid.

Definition populated {A} (v : option A) : nat := match v with Some _ => 1 | None => 0 end.

Definition validateCustomFieldValueColumns (fieldType : string) (text : option string) (number : option float64)
    (boolean : option bool) (date : option string) : res unit :=
  require (populated text + populated number + populated boolean + populated date =? 1)%nat ErrCustomFieldValueInvalid;;
  require
    (if fieldType =?s "text" then (populated text =? 1)%nat
     else if fieldType =?s "number" then (populated number =? 1)%nat
     else if fieldType =?s "boolean" then (populated boolean =? 1)%nat
     else if fieldType =?s "date" then (populated date =? 1)%nat else false) ErrCustomFieldValueInvalid.

Definition validateCustomFieldContent (name fieldType : string) (text : option string) (number : option float64)
    (boolean : option bool) (date : option string) : res unit :=
  require (negb (name =?s "")) ErrCustomFieldNameRequired;;
  ValidateCustomFieldType fieldType;;
  validateCustomFieldValueColumns fieldType text number boolean date.

Definition resolveFieldDef (fieldDefID fieldType : string) : M unit :=
  if fieldDefID =?s "" then mret tt else
  def ← try (CustomFieldDefs_Get group fieldDefID);
  match def with
  | Err ErrNotFound => throw ErrCustomFieldDefNotFound
  | Err e => throw e
  | Ok def => lift (require (cfd_FieldType (Cols def) =?s fieldType) ErrCustomFieldTypeMismatch)
  end.

Record CreateItemCustomFieldRequest := mkCreateCustomFieldRequest {
  cfr_ItemID : string; cfr_FieldDefID : string; cfr_Name : string; cfr_FieldType : string;
  cfr_TextValue : option string; cfr_NumberValue : option float64; cfr_BoolValue : option bool;
  cfr_DateValue : option string }.

Definition CreateItemCustomField (req : CreateItemCustomFieldRequest) (now : Z) : M ItemCustomField :=
  lift (validateCustomFieldContent (cfr_Name req) (cfr_FieldType req) (cfr_TextValue req) (cfr_NumberValue req)
          (cfr_BoolValue req) (cfr_DateValue req));;
  resolveFieldDef (cfr_FieldDefID req) (cfr_FieldType req);;
  id ← newID;
  ItemCustomFields_Create group (mkCreateItemCustomField id (cfr_ItemID req) (cfr_FieldDefID req) (cfr_Name req)
    (cfr_FieldType req) (cfr_TextValue req) (cfr_NumberValue req) (cfr_BoolValue req) (cfr_DateValue req) now).

Record UpdateItemCustomFieldRequest := mkUpdateCustomFieldRequest {
  ufr_ItemID : string; ufr_CustomFieldID : string; ufr_FieldDefID : string; ufr_Name : string; ufr_FieldType : string;
  ufr_TextValue : option string; ufr_NumberValue : option float64; ufr_BoolValue : option bool;
  ufr_DateValue : option string; ufr_ExpectedVersion : Z }.

Definition UpdateItemCustomField (req : UpdateItemCustomFieldRequest) (now : Z) : M ItemCustomField :=
  lift (require (0 <? ufr_ExpectedVersion req)%Z ErrVersionRequired);;
  lift (validateCustomFieldContent (ufr_Name req) (ufr_FieldType req) (ufr_TextValue req) (ufr_NumberValue req)
          (ufr_BoolValue req) (ufr_DateValue req));;
  resolveFieldDef (ufr_FieldDefID req) (ufr_FieldType req);;
  ItemCustomFields_Update group (mkUpdateItemCustomField (ufr_ItemID req) (ufr_CustomFieldID req) (ufr_FieldDefID req)
    (ufr_Name req) (ufr_FieldType req) (ufr_TextValue req) (ufr_NumberValue req) (ufr_BoolValue req) (ufr_DateValue req)
    (ufr_ExpectedVersion req) now).
End service.
End ItemService.

(** ** labels *)

Module LabelService.
Section service.
Context `{Entropy} (group : string).

Definition ErrVersionRequired : GoError := ErrMessage "labels: ExpectedVersion is required".
Definition ErrNameRequired : GoError := ErrMessage "labels: Name is required".
Definition ErrColorInvalid : GoError := ErrMessage "labels: color must be a 6-digit hex triplet, e.g. #888888".

Definition isHex (c : ascii) : bool :=
  let n := nat_of_ascii c in
  ((48 <=? n) && (n <=? 57) || (65 <=? n) && (n <=? 70) || (97 <=? n) && (n <=? 102))%nat.

(** [^#[0-9A-Fa-f]{6}$] *)
Definition colorPattern (color : string) : bool :=
  match color with
  | String "#" digits => (String.length digits =? 6)%nat && forallb isHex (list_ascii_of_string digits)
  | _ => false
  end.

Definition ValidateColor (color : string) : res unit := require (colorPattern color) ErrColorInvalid.

Definition newID : M string := new_uuid "labels: generate id".

Record CreateLabelRequest := mkCreateLabelRequest { clr_Name : string; clr_Color : string }.

Definition CreateLabel (req : CreateLabelRequest) (now : Z) : M Label :=
  lift (require (negb (clr_Name req =?s "")) ErrNameRequired);;
  lift (ValidateColor (clr_Color req));;
  id ← newID;
  Labels_Create group (mkCreateLabel id (clr_Name req) (clr_Color req) now).

Record UpdateLabelRequest := mkUpdateLabelRequest {
  ulr_LabelID : string; ulr_Name : string; ulr_Color : string; ulr_ExpectedVersion : Z }.

Definition UpdateLabel (req : UpdateLabelRequest) (now : Z) : M Label :=
  lift (require (0 <? ulr_ExpectedVersion req)%Z ErrVersionRequired);;
  lift (require (negb (ulr_Name req =?s "")) ErrNameRequired);;
  lift (ValidateColor (ulr_Color req));;
  Labels_Update group (mkUpdateLabel (ulr_LabelID req) (ulr_Name req) (ulr_Color req) (ulr_ExpectedVersion req) now).

Definition AttachLabel (itemID labelID : string) (now : Z) : M unit :=
  lift (reject (itemID =?s "") "labels: AttachLabel: itemID is empty");;
  lift (reject (labelID =?s "") "labels: AttachLabel: labelID is empty");;
  id ← newID;
  ItemLabels_Attach group (mkAttachLabel id itemID labelID now).

Definition DetachLabel (itemID labelID : string) (now : Z) : M unit :=
  lift (reject (itemID =?s "") "labels: DetachLabel: itemID is empty");;
  lift (reject (labelID =?s "") "labels: DetachLabel: labelID is empty");;
  ItemLabels_Detach group itemID labelID now.
End service.
End LabelService.

(** ** locations *)

Module LocationService.
Section service.
Context `{Entropy} (group : string).

Definition ErrNameRequired : GoError := ErrMessage "locations: Name is required".
Definition ErrVersionRequired : GoError := ErrMessage "locations: ExpectedVersion is required".

Definition newID : M string := new_uuid "locations: generate id".

Record CreateRequest := mkCreateRequest { cr_Name : string; cr_ParentID : string }.

Definition Create (req : CreateRequest) (now : Z) : M Location :=
  lift (require (negb (cr_Name req =?s "")) ErrNameRequired);;
  id ← newID;
  Locations_Create group (mkCreateLocation id (cr_Name req) (cr_ParentID req) now).

Record UpdateRequest := mkUpdateRequest {
  ur_LocationID : string; ur_Name : string; ur_ParentID : string; ur_ExpectedVersion : Z }.

Definition Update (req : UpdateRequest) (now : Z) : M Location :=
  lift (require (negb (ur_Name req =?s "")) ErrNameRequired);;
  lift (require (0 <? ur_ExpectedVersion req)%Z ErrVersionRequired);;
  Locations_Update group (mkUpdateLocation (ur_LocationID req) (ur_Name req) (ur_ParentID req) (ur_ExpectedVersion req) now).
End service.
End LocationService.

(** ** customfields *)

Module CustomFieldService.
Section service.
Context `{Entropy} (group : string).

Definition ErrVersionRequired : GoError := ErrMessage "customfields: ExpectedVersion is required".
Definition ErrNameRequired : GoError := ErrMessage "customfields: Name is required".
Definition ErrFieldTypeInvalid : GoError :=
  ErrMessage "customfields: field_type must be one of text, number, boolean, date".

Definition ValidateFieldType (fieldType : string) : res unit :=
  require (bool_decide (fieldType ∈ customFieldTypes)) ErrFieldTypeInvalid.

Definition newID : M string := new_uuid "customfields: generate id".

Record CreateCustomFieldDefRequest := mkCreateDefRequest { cdr_Name : string; cdr_FieldType : string; cdr_DisplayOrder : Z }.

Definition CreateCustomFieldDef (req : CreateCustomFieldDefRequest) (now : Z) : M CustomFieldDef :=
  lift (require (negb (cdr_Name req =?s "")) ErrNameRequired);;
  lift (ValidateFieldType (cdr_FieldType req));;
  id ← newID;
  CustomFieldDefs_Create group (Details.mkCreateCustomFieldDef id (cdr_Name req) (cdr_FieldType req) (cdr_DisplayOrder req) now).

Record UpdateCustomFieldDefRequest := mkUpdateDefRequest {
  udr_FieldDefID : string; udr_Name : string; udr_FieldType : string; udr_DisplayOrder : Z; udr_ExpectedVersion : Z }.

Definition UpdateCustomFieldDef (req : UpdateCustomFieldDefRequest) (now : Z) : M CustomFieldDef :=
  lift (require (0 <? udr_ExpectedVersion req)%Z ErrVersionRequired);;
  lift (require (negb (udr_Name req =?s "")) ErrNameRequired);;
  lift (ValidateFieldType (udr_FieldType req));;
  CustomFieldDefs_Update group (Details.mkUpdateCustomFieldDef (udr_FieldDefID req) (udr_Name req) (udr_FieldType req)
    (udr_DisplayOrder req) (udr_ExpectedVersion req) now).
End service.
End CustomFieldService.

(** ** groups/visibility.go *)

Module GroupService.
Section service.
Context (group : string).

Definition ErrVersionRequired : GoError := ErrMessage "groups: ExpectedVersion is required".

Record UpdateVisibilityRequest := mkUpdateVisibilityRequest {
  uvr_WarrantyVisible : bool; uvr_SaleVisible : bool; uvr_PurchaseVisible : bool; uvr_ExpectedVersion : Z }.

Definition UpdateVisibility (req : UpdateVisibilityRequest) (now : Z) : M Group :=
  lift (require (0 <? uvr_ExpectedVersion req)%Z ErrVersionRequired);;
  GroupVisibility_Update group (mkUpdateGroupVisibility (uvr_WarrantyVisible req) (uvr_SaleVisible req)
    (uvr_PurchaseVisible req) (uvr_ExpectedVersion req) now).
End service.
End GroupService.
