(* ===== verification/HttpCore.v ===== *)
(** * Answers of the HTTP API

    [httpapi/problem/problem.go] (the error documents), [writeJSON] of
    [httpapi/sessions.go], [httpapi/ratelimit.go] and the middleware in front
    of the handlers: the client version, the identity, the owner role.

    A handler is a program that ends in a [Response]: a status with a body, or
    a problem.  The decoded request body is an argument, [None] when the body
    is not valid JSON; the headers [Content-Type], [Cache-Control] and
    [X-Content-Type-Options], the request id and the log lines are not part of
    a response. *)

From S2P Require Import Prelude GoBase Schema Sql Escape Strconv Accounts Services.
From Stdlib Require Import Strings.Ascii.

(** ** Problems *)

(** The text of [err.Error()] is not kept, only the error it is of (the
    services add the rejected value to it). *)
Inductive Detail := NoDetail | Says (text : string) | TextOf (e : GoError).

Record Problem := mkProblem { prb_Type : string; prb_Title : string; prb_Status : Z; prb_Detail : Detail }.

Definition typePrefix : string := "urn:hho:problem:".
Definition problem_New (status : Z) (kind title : string) : Problem := mkProblem (typePrefix ++ kind) title status NoDetail.
Definition WithDetail (p : Problem) (d : Detail) : Problem := mkProblem (prb_Type p) (prb_Title p) (prb_Status p) d.

Definition NotFound : Problem := problem_New 404 "not-found" "Not Found".
Definition Unauthorized : Problem := problem_New 401 "unauthorized" "Unauthorized".
Definition Forbidden : Problem := problem_New 403 "forbidden" "Forbidden".
Definition BadRequest (d : Detail) : Problem := WithDetail (problem_New 400 "bad-request" "Bad Request") d.
Definition ProblemConflict : Problem := problem_New 409 "conflict" "Conflict".
Definition TooManyRequests : Problem := problem_New 429 "too-many-requests" "Too Many Requests".
Definition Internal : Problem := problem_New 500 "internal" "Internal Server Error".
Definition UpgradeRequired : Problem := problem_New 426 "upgrade-required" "Upgrade Required".

(** What some problems carry beyond the document: the counts of
    [locationNotEmptyBody], the version of [UpgradeRequiredProblem], the
    header [Retry-After]. *)
Inductive Extra := Plain | NotEmpty (childCount itemCount : Z) | MinimumVersion (v : string) | RetryAfter (seconds : Z).

(** ** Responses *)

Inductive Response (B : Type) := Reply (status : Z) (body : B) | NoContent | Failure (p : Problem) (x : Extra).
Arguments Reply {B} status body.
Arguments NoContent {B}.
Arguments Failure {B} p x.

Definition status_of {B} (r : Response B) : Z :=
  match r with Reply s _ => s | NoContent => 204 | Failure p _ => prb_Status p end.

Definition failed {B} (r : Response B) : bool := match r with Failure _ _ => true | _ => false end.

Definition problem_Write {B} (p : Problem) : Response B :=
  Failure (if (prb_Status p <? 100)%Z || (599 <? prb_Status p)%Z then Internal else p) Plain.

(** A problem with more than the document is written by the handler itself. *)
Definition write_problem {B} (px : Problem * Extra) : Response B :=
  match px.2 with Plain => problem_Write px.1 | x => Failure px.1 x end.

(** What [json.Marshal] accepts: every value but the infinite numbers and NaN. *)
Class Json (B : Type) := json_ok : B -> bool.

#[global] Instance json_list {B} `{Json B} : Json (list B) := fun l => forallb json_ok l.

Definition writeJSON {B} `{Json B} (status : Z) (body : B) : Response B :=
  if json_ok body then Reply status body else problem_Write Internal.

(** ** Errors *)

(** [case errors.Is(err, e1), errors.Is(err, e2): problem.Write(...)] *)
Record Case := mkCase { case_of : GoError -> bool; case_answer : GoError -> Problem * Extra }.

Definition is_one_of (es : list GoError) (e : GoError) : bool := bool_decide (e ∈ es).
Definition bad_request (es : list GoError) : Case := mkCase (is_one_of es) (fun e => (BadRequest (TextOf e), Plain)).
Definition says (e : GoError) (text : string) : Case := mkCase (is_one_of [e]) (fun _ => (BadRequest (Says text), Plain)).
Definition not_found : Case := mkCase (is_one_of [ErrNotFound]) (fun _ => (NotFound, Plain)).
Definition conflict (e : GoError) : Case := mkCase (is_one_of [e]) (fun _ => (ProblemConflict, Plain)).

(** The first case that applies; [problem.Internal()] when none does. *)
Fixpoint error_answer (cases : list Case) (e : GoError) : Problem * Extra :=
  match cases with
  | [] => (Internal, Plain)
  | c :: cases => if case_of c e then case_answer c e else error_answer cases e
  end.

(** [v, err := m(...); switch { cases...; case err != nil: 500 }; ok(v)] *)
Definition answer {S A B} (m : Prog S A) (cases : list Case) (ok : A -> Response B) : Prog S (Response B) :=
  r ← try m;
  mret (match r with Ok a => ok a | Err e => write_problem (error_answer cases e) end).

(** [json.NewDecoder(r.Body).Decode(&body)] *)
Definition decoded {S T B} (body : option T) (k : T -> Prog S (Response B)) : Prog S (Response B) :=
  match body with
  | None => mret (problem_Write (BadRequest (Says "the request body is not valid JSON")))
  | Some body => k body
  end.

(** ** Rate limits *)

Definition second : Z := 1000000000.

Definition writeRateLimited {B} (retryAfter : Z) : Response B :=
  let seconds := (wrap64 (retryAfter + second - 1) ÷ second)%Z in
  write_problem (TooManyRequests, RetryAfter (if (seconds <? 1)%Z then 1 else seconds)).

(** ** The version of the client (middleware/clientversion.go) *)

Definition isDigit (c : ascii) : bool := let n := nat_of_ascii c in ((48 <=? n) && (n <=? 57))%nat.
Definition isDigits (s : string) : bool := negb (s =?s "") && forallb isDigit (list_ascii_of_string s).

(** [strings.Split(s, ".")] *)
Fixpoint split_dots (s : string) : list string :=
  match s with
  | EmptyString => [EmptyString]
  | String c s =>
      if Ascii.eqb c "." then EmptyString :: split_dots s
      else match split_dots s with p :: ps => String c p :: ps | [] => [String c EmptyString] end
  end.

(** [strconv.Atoi] is [ParseInt] at the 64 bits of an [int]. *)
Definition version_part (part : string) : option Z := if isDigits part then ParseInt part else None.

Definition parseClientVersion (raw : string) : option (Z * Z * Z) :=
  match split_dots raw with
  | [a; b; c] =>
      major ← version_part a; minor ← version_part b; patch ← version_part c; Some (major, minor, patch)
  | _ => None
  end.

Definition versionLess (a b : Z * Z * Z) : bool :=
  let '(aMajor, aMinor, aPatch) := a in let '(bMajor, bMinor, bPatch) := b in
  if negb (aMajor =? bMajor)%Z then (aMajor <? bMajor)%Z
  else if negb (aMinor =? bMinor)%Z then (aMinor <? bMinor)%Z
  else (aPatch <? bPatch)%Z.

(** [header] is the first value of [X-HHO-Client-Version], [minimum] the
    configured text with its parts, if there is one; a configured text that
    does not parse stops the server before it serves.  The text of the 400
    goes on with the reason. *)
Definition ClientVersion {B} (minimum : option (string * (Z * Z * Z))) (header : option string)
    (next : M (Response B)) : M (Response B) :=
  match header with
  | None => next
  | Some raw =>
      match parseClientVersion raw with
      | None => mret (problem_Write (BadRequest (Says "X-HHO-Client-Version must be MAJOR.MINOR.PATCH")))
      | Some v =>
          match minimum with
          | Some (text, m) => if versionLess v m then mret (write_problem (UpgradeRequired, MinimumVersion text)) else next
          | None => next
          end
      end
  end.

(** ** Who is asking (middleware/tenantscope.go, require_owner.go) *)

Definition maxGroupIDLen : nat := 64.

Definition isGroupIDByte (b : ascii) : bool :=
  let n := nat_of_ascii b in
  ((97 <=? n) && (n <=? 122) || (65 <=? n) && (n <=? 90) || (48 <=? n) && (n <=? 57))%nat
  || Ascii.eqb b "-" || Ascii.eqb b "_".

Definition NewGroupID (raw : string) : option string :=
  if (raw =?s "") || (maxGroupIDLen <? String.length raw)%nat
     || negb (forallb isGroupIDByte (list_ascii_of_string raw))
  then None else Some raw.

(** [auth] is what the authenticator answers; [next] is served with the
    identity, and its group is the scope. *)
Definition TenantScope {B} (auth : M Identity) (next : Identity -> M (Response B)) : M (Response B) :=
  r ← try auth;
  match r with
  | Err e => mret (problem_Write (if decide (e = ErrUnauthenticated) then Unauthorized else Internal))
  | Ok identity =>
      match NewGroupID (idt_Group identity) with
      | None => mret (problem_Write Internal)
      | Some _ => next identity
      end
  end.

Definition RequireOwner {B} (next : Identity -> M (Response B)) (identity : Identity) : M (Response B) :=
  if idt_Role identity =?s role_Owner then next identity else mret (problem_Write Forbidden).
