(* ===== verification/HttpItems.v ===== *)
(** * The handlers of items and their parts

    [httpapi/items.go] without the list of items, [warranty.go], [sale.go],
    [purchase.go], [identifications.go], [item_custom_fields.go] and
    [stock.go]: what is answered for what the services and repositories
    return.  [now] is the clock of the request. *)

From S2P Require Import Prelude GoBase Schema Sql Items Blocks Details Reads DomainServices HttpCore.

(** [n.String] of a [sql.NullString] that is not valid is [""]. *)
Definition null_text (v : option string) : string := default ""%string v.

(** ** Bodies *)

Record itemBody := mkItemBody {
  ib_ID : string; ib_Name : string; ib_Description : string; ib_LocationID : string; ib_Quantity : Z;
  ib_ShortCode : string; ib_CreatedAt : Z; ib_UpdatedAt : Z; ib_Version : Z }.

Definition toItemBody (it : Item) : itemBody :=
  mkItemBody (ID it) (item_Name (Cols it)) (item_Description (Cols it)) (null_text (item_LocationID (Cols it)))
    (item_Quantity (Cols it)) (item_ShortCode (Cols it)) (CreatedAt it) (UpdatedAt it) (Version it).

Record itemUpdateRequestBody := mkItemUpdateBody {
  iub_Name : string; iub_Description : string; iub_LocationID : string; iub_Quantity : Z; iub_Version : Z }.

Record warrantyBody := mkWarrantyBody {
  wb_ItemID : string; wb_Holder : string; wb_Provider : string; wb_StartsOn : string; wb_ExpiresOn : string;
  wb_IsLifetime : bool; wb_Notes : string; wb_CreatedAt : Z; wb_UpdatedAt : Z; wb_Version : Z }.

Definition toWarrantyBody (w : Warranty) : warrantyBody :=
  mkWarrantyBody (war_ItemID (Cols w)) (war_Holder (Cols w)) (war_Provider (Cols w)) (null_text (war_StartsOn (Cols w)))
    (null_text (war_ExpiresOn (Cols w))) (negb (war_IsLifetime (Cols w) =? 0)%Z) (war_Notes (Cols w))
    (CreatedAt w) (UpdatedAt w) (Version w).

Record warrantyCreateRequestBody := mkWarrantyCreateBody {
  wcb_Holder : string; wcb_Provider : string; wcb_StartsOn : string; wcb_ExpiresOn : string; wcb_IsLifetime : bool;
  wcb_Notes : string }.
Record warrantyUpdateRequestBody := mkWarrantyUpdateBody {
  wub_Holder : string; wub_Provider : string; wub_StartsOn : string; wub_ExpiresOn : string; wub_IsLifetime : bool;
  wub_Notes : string; wub_Version : Z }.

Record saleBody := mkSaleBody {
  sb_ItemID : string; sb_BuyerName : string; sb_SoldOn : string; sb_SalePriceMinor : Z; sb_Notes : string;
  sb_CreatedAt : Z; sb_UpdatedAt : Z; sb_Version : Z }.

Definition toSaleBody (s : Sale) : saleBody :=
  mkSaleBody (sale_ItemID (Cols s)) (sale_BuyerName (Cols s)) (null_text (sale_SoldOn (Cols s))) (sale_PriceMinor (Cols s))
    (sale_Notes (Cols s)) (CreatedAt s) (UpdatedAt s) (Version s).

Record saleCreateRequestBody := mkSaleCreateBody {
  scb_BuyerName : string; scb_SoldOn : string; scb_SalePriceMinor : Z; scb_Notes : string }.
Record saleUpdateRequestBody := mkSaleUpdateBody {
  sub_BuyerName : string; sub_SoldOn : string; sub_SalePriceMinor : Z; sub_Notes : string; sub_Version : Z }.

Record purchaseBody := mkPurchaseBody {
  pb_ItemID : string; pb_Vendor : string; pb_PurchasedOn : string; pb_PurchasePriceMinor : Z; pb_OrderReference : string;
  pb_Notes : string; pb_CreatedAt : Z; pb_UpdatedAt : Z; pb_Version : Z }.

Definition toPurchaseBody (p : Purchase) : purchaseBody :=
  mkPurchaseBody (pur_ItemID (Cols p)) (pur_Vendor (Cols p)) (null_text (pur_PurchasedOn (Cols p))) (pur_PriceMinor (Cols p))
    (pur_OrderReference (Cols p)) (pur_Notes (Cols p)) (CreatedAt p) (UpdatedAt p) (Version p).

Record purchaseCreateRequestBody := mkPurchaseCreateBody {
  pcb_Vendor : string; pcb_PurchasedOn : string; pcb_PurchasePriceMinor : Z; pcb_OrderReference : string; pcb_Notes : string }.
Record purchaseUpdateRequestBody := mkPurchaseUpdateBody {
  pub_Vendor : string; pub_PurchasedOn : string; pub_PurchasePriceMinor : Z; pub_OrderReference : string;
  pub_Notes : string; pub_Version : Z }.

Record identificationBody := mkIdentificationBody {
  idb_ID : string; idb_ItemID : string; idb_Kind : string; idb_Value : string; idb_CreatedAt : Z; idb_UpdatedAt : Z;
  idb_Version : Z }.

Definition toIdentificationBody (row : Identification) : identificationBody :=
  mkIdentificationBody (ID row) (idn_ItemID (Cols row)) (idn_Kind (Cols row)) (idn_Value (Cols row))
    (CreatedAt row) (UpdatedAt row) (Version row).

Record identificationCreateRequestBody := mkIdentificationCreateBody { icb_Kind : string; icb_Value : string }.
Record identificationUpdateRequestBody := mkIdentificationUpdateBody { idu_Kind : string; idu_Value : string; idu_Version : Z }.

Record itemCustomFieldBody := mkItemCustomFieldBody {
  fb_ID : string; fb_ItemID : string; fb_FieldDefID : string; fb_Name : string; fb_FieldType : string;
  fb_TextValue : option string; fb_NumberValue : option float64; fb_BoolValue : option bool; fb_DateValue : option string;
  fb_CreatedAt : Z; fb_UpdatedAt : Z; fb_Version : Z }.

Definition nullBoolPtrOut (v : option Z) : option bool := (fun n => negb (n =? 0)%Z) <$> v.

Definition toItemCustomFieldBody (row : ItemCustomField) : itemCustomFieldBody :=
  let c := Cols row in
  mkItemCustomFieldBody (ID row) (icf_ItemID c) (null_text (icf_FieldDefID c)) (icf_Name c) (icf_FieldType c)
    (icf_TextValue c) (icf_NumberValue c) (nullBoolPtrOut (icf_BoolValue c)) (icf_DateValue c)
    (CreatedAt row) (UpdatedAt row) (Version row).

Record itemCustomFieldCreateRequestBody := mkFieldCreateBody {
  fcb_FieldDefID : string; fcb_Name : string; fcb_FieldType : string; fcb_TextValue : option string;
  fcb_NumberValue : option float64; fcb_BoolValue : option bool; fcb_DateValue : option string }.
Record itemCustomFieldUpdateRequestBody := mkFieldUpdateBody {
  fub_FieldDefID : string; fub_Name : string; fub_FieldType : string; fub_TextValue : option string;
  fub_NumberValue : option float64; fub_BoolValue : option bool; fub_DateValue : option string; fub_Version : Z }.

Record stockAdjustmentBody := mkStockBody {
  kb_ID : string; kb_ItemID : string; kb_Delta : Z; kb_Reason : string; kb_Note : string; kb_ResultingQuantity : Z;
  kb_CreatedAt : Z; kb_UpdatedAt : Z; kb_Version : Z }.

Definition toStockAdjustmentBody (row : StockAdjustment) : stockAdjustmentBody :=
  mkStockBody (ID row) (stk_ItemID (Cols row)) (stk_Delta (Cols row)) (stk_Reason (Cols row)) (stk_Note (Cols row))
    (stk_ResultingQuantity (Cols row)) (CreatedAt row) (UpdatedAt row) (Version row).

Record stockAdjustmentCreateRequestBody := mkStockCreateBody { kcb_Delta : Z; kcb_Reason : string; kcb_Note : string }.

(** Only a custom field has a number that JSON may not be able to say. *)
#[global] Instance itemBody_json : Json itemBody := fun _ => true.
#[global] Instance warrantyBody_json : Json warrantyBody := fun _ => true.
#[global] Instance saleBody_json : Json saleBody := fun _ => true.
#[global] Instance purchaseBody_json : Json purchaseBody := fun _ => true.
#[global] Instance identificationBody_json : Json identificationBody := fun _ => true.
#[global] Instance stockAdjustmentBody_json : Json stockAdjustmentBody := fun _ => true.
#[global] Instance itemCustomFieldBody_json : Json itemCustomFieldBody :=
  fun b => default true (float64_finite <$> fb_NumberValue b).

Section handlers.
Context `{Entropy} (group : string).

(** ** items.go *)

Definition itemCreateHandler (body : option itemBody) (now : Z) : M (Response itemBody) :=
  decoded body (fun body =>
    answer (ItemService.Create group
              (ItemService.mkCreateRequest (ib_Name body) (ib_Description body) (ib_LocationID body) (ib_Quantity body)) now)
      [bad_request [ItemService.ErrNameRequired]]
      (fun item => writeJSON 201 (toItemBody item))).

Definition itemGetHandler (itemID : string) : M (Response itemBody) :=
  answer (Items_Get group itemID) [not_found] (fun item => writeJSON 200 (toItemBody item)).

Definition itemUpdateHandler (itemID : string) (body : option itemUpdateRequestBody) (now : Z) : M (Response itemBody) :=
  decoded body (fun body =>
    answer (ItemService.Update group
              (ItemService.mkUpdateRequest itemID (iub_Name body) (iub_Description body) (iub_LocationID body)
                 (iub_Quantity body) (iub_Version body)) now)
      [bad_request [ItemService.ErrNameRequired; ItemService.ErrVersionRequired]; not_found; conflict ErrVersionMismatch]
      (fun item => writeJSON 200 (toItemBody item))).

Definition itemDeleteHandler (itemID : string) (now : Z) : M (Response unit) :=
  answer (Items_Delete group itemID now) [not_found] (fun _ => NoContent).

(** ** warranty.go *)

Definition warrantyGetHandler (itemID : string) : M (Response warrantyBody) :=
  answer (Warranty_Get group itemID) [not_found] (fun block => writeJSON 200 (toWarrantyBody block)).

Definition warrantyCreateHandler (itemID : string) (body : option warrantyCreateRequestBody) (now : Z) :
    M (Response warrantyBody) :=
  decoded body (fun body =>
    answer (ItemService.CreateWarranty group
              (ItemService.mkCreateWarrantyRequest itemID (wcb_Holder body) (wcb_Provider body) (wcb_StartsOn body)
                 (wcb_ExpiresOn body) (wcb_IsLifetime body) (wcb_Notes body)) now)
      [bad_request [ItemService.ErrWarrantyDateInvalid]; not_found; conflict ErrWarrantyExists]
      (fun block => writeJSON 201 (toWarrantyBody block))).

Definition warrantyUpdateHandler (itemID : string) (body : option warrantyUpdateRequestBody) (now : Z) :
    M (Response warrantyBody) :=
  decoded body (fun body =>
    answer (ItemService.UpdateWarranty group
              (ItemService.mkUpdateWarrantyRequest itemID (wub_Holder body) (wub_Provider body) (wub_StartsOn body)
                 (wub_ExpiresOn body) (wub_IsLifetime body) (wub_Notes body) (wub_Version body)) now)
      [bad_request [ItemService.ErrVersionRequired; ItemService.ErrWarrantyDateInvalid]; not_found;
       conflict ErrVersionMismatch]
      (fun block => writeJSON 200 (toWarrantyBody block))).

Definition warrantyDeleteHandler (itemID : string) (now : Z) : M (Response unit) :=
  answer (Warranty_Delete group itemID now) [not_found] (fun _ => NoContent).

(** ** sale.go *)

Definition saleGetHandler (itemID : string) : M (Response saleBody) :=
  answer (Sale_Get group itemID) [not_found] (fun block => writeJSON 200 (toSaleBody block)).

Definition saleCreateHandler (itemID : string) (body : option saleCreateRequestBody) (now : Z) : M (Response saleBody) :=
  decoded body (fun body =>
    answer (ItemService.CreateSale group
              (ItemService.mkCreateSaleRequest itemID (scb_BuyerName body) (scb_SoldOn body) (scb_SalePriceMinor body)
                 (scb_Notes body)) now)
      [bad_request [ItemService.ErrSaleDateInvalid; ItemService.ErrSalePriceNegative]; not_found; conflict ErrSaleExists]
      (fun block => writeJSON 201 (toSaleBody block))).

Definition saleUpdateHandler (itemID : string) (body : option saleUpdateRequestBody) (now : Z) : M (Response saleBody) :=
  decoded body (fun body =>
    answer (ItemService.UpdateSale group
              (ItemService.mkUpdateSaleRequest itemID (sub_BuyerName body) (sub_SoldOn body) (sub_SalePriceMinor body)
                 (sub_Notes body) (sub_Version body)) now)
      [bad_request [ItemService.ErrVersionRequired; ItemService.ErrSaleDateInvalid; ItemService.ErrSalePriceNegative];
       not_found; conflict ErrVersionMismatch]
      (fun block => writeJSON 200 (toSaleBody block))).

Definition saleDeleteHandler (itemID : string) (now : Z) : M (Response unit) :=
  answer (Sale_Delete group itemID now) [not_found] (fun _ => NoContent).

(** ** purchase.go *)

Definition purchaseGetHandler (itemID : string) : M (Response purchaseBody) :=
  answer (Purchase_Get group itemID) [not_found] (fun block => writeJSON 200 (toPurchaseBody block)).

Definition purchaseCreateHandler (itemID : string) (body : option purchaseCreateRequestBody) (now : Z) :
    M (Response purchaseBody) :=
  decoded body (fun body =>
    answer (ItemService.CreatePurchase group
              (ItemService.mkCreatePurchaseRequest itemID (pcb_Vendor body) (pcb_PurchasedOn body)
                 (pcb_PurchasePriceMinor body) (pcb_OrderReference body) (pcb_Notes body)) now)
      [bad_request [ItemService.ErrPurchaseDateInvalid; ItemService.ErrPurchasePriceNegative]; not_found;
       conflict ErrPurchaseExists]
      (fun block => writeJSON 201 (toPurchaseBody block))).

Definition purchaseUpdateHandler (itemID : string) (body : option purchaseUpdateRequestBody) (now : Z) :
    M (Response purchaseBody) :=
  decoded body (fun body =>
    answer (ItemService.UpdatePurchase group
              (ItemService.mkUpdatePurchaseRequest itemID (pub_Vendor body) (pub_PurchasedOn body)
                 (pub_PurchasePriceMinor body) (pub_OrderReference body) (pub_Notes body) (pub_Version body)) now)
      [bad_request [ItemService.ErrVersionRequired; ItemService.ErrPurchaseDateInvalid; ItemService.ErrPurchasePriceNegative];
       not_found; conflict ErrVersionMismatch]
      (fun block => writeJSON 200 (toPurchaseBody block))).

Definition purchaseDeleteHandler (itemID : string) (now : Z) : M (Response unit) :=
  answer (Purchase_Delete group itemID now) [not_found] (fun _ => NoContent).

(** ** identifications.go *)

Definition identificationListHandler (itemID : string) : M (Response (list identificationBody)) :=
  answer (Identifications_List group itemID) [not_found] (fun rows => writeJSON 200 (toIdentificationBody <$> rows)).

Definition identificationCreateHandler (itemID : string) (body : option identificationCreateRequestBody) (now : Z) :
    M (Response identificationBody) :=
  decoded body (fun body =>
    answer (ItemService.CreateIdentification group
              (ItemService.mkCreateIdentificationRequest itemID (icb_Kind body) (icb_Value body)) now)
      [bad_request [ItemService.ErrIdentificationKindInvalid; ItemService.ErrIdentificationValueRequired]; not_found]
      (fun row => writeJSON 201 (toIdentificationBody row))).

Definition identificationUpdateHandler (itemID identificationID : string) (body : option identificationUpdateRequestBody)
    (now : Z) : M (Response identificationBody) :=
  decoded body (fun body =>
    answer (ItemService.UpdateIdentification group
              (ItemService.mkUpdateIdentificationRequest itemID identificationID (idu_Kind body) (idu_Value body)
                 (idu_Version body)) now)
      [bad_request [ItemService.ErrVersionRequired; ItemService.ErrIdentificationKindInvalid;
         ItemService.ErrIdentificationValueRequired]; not_found; conflict ErrVersionMismatch]
      (fun row => writeJSON 200 (toIdentificationBody row))).

Definition identificationDeleteHandler (itemID identificationID : string) (now : Z) : M (Response unit) :=
  answer (Identifications_Delete group itemID identificationID now) [not_found] (fun _ => NoContent).

(** ** item_custom_fields.go *)

Definition custom_field_errors : list GoError :=
  [ItemService.ErrCustomFieldNameRequired; ItemService.ErrCustomFieldTypeInvalid; ItemService.ErrCustomFieldValueInvalid;
   ItemService.ErrCustomFieldDefNotFound; ItemService.ErrCustomFieldTypeMismatch].

Definition itemCustomFieldListHandler (itemID : string) : M (Response (list itemCustomFieldBody)) :=
  answer (ItemCustomFields_List group itemID) [not_found] (fun rows => writeJSON 200 (toItemCustomFieldBody <$> rows)).

Definition itemCustomFieldCreateHandler (itemID : string) (body : option itemCustomFieldCreateRequestBody) (now : Z) :
    M (Response itemCustomFieldBody) :=
  decoded body (fun body =>
    answer (ItemService.CreateItemCustomField group
              (ItemService.mkCreateCustomFieldRequest itemID (fcb_FieldDefID body) (fcb_Name body) (fcb_FieldType body)
                 (fcb_TextValue body) (fcb_NumberValue body) (fcb_BoolValue body) (fcb_DateValue body)) now)
      [bad_request custom_field_errors; not_found]
      (fun row => writeJSON 201 (toItemCustomFieldBody row))).

Definition itemCustomFieldUpdateHandler (itemID customFieldID : string) (body : option itemCustomFieldUpdateRequestBody)
    (now : Z) : M (Response itemCustomFieldBody) :=
  decoded body (fun body =>
    answer (ItemService.UpdateItemCustomField group
              (ItemService.mkUpdateCustomFieldRequest itemID customFieldID (fub_FieldDefID body) (fub_Name body)
                 (fub_FieldType body) (fub_TextValue body) (fub_NumberValue body) (fub_BoolValue body)
                 (fub_DateValue body) (fub_Version body)) now)
      [bad_request (ItemService.ErrVersionRequired :: custom_field_errors); not_found; conflict ErrVersionMismatch]
      (fun row => writeJSON 200 (toItemCustomFieldBody row))).

Definition itemCustomFieldDeleteHandler (itemID customFieldID : string) (now : Z) : M (Response unit) :=
  answer (ItemCustomFields_Delete group itemID customFieldID now) [not_found] (fun _ => NoContent).

(** ** stock.go *)

Definition stockAdjustmentListHandler (itemID : string) : M (Response (list stockAdjustmentBody)) :=
  answer (StockAdjustments_List group itemID) [not_found] (fun rows => writeJSON 200 (toStockAdjustmentBody <$> rows)).

Definition stockAdjustmentCreateHandler (itemID : string) (body : option stockAdjustmentCreateRequestBody) (now : Z) :
    M (Response stockAdjustmentBody) :=
  decoded body (fun body =>
    answer (ItemService.CreateStockAdjustment group
              (ItemService.mkStockRequest itemID (kcb_Delta body) (kcb_Reason body) (kcb_Note body)) now)
      [not_found]
      (fun row => writeJSON 201 (toStockAdjustmentBody row))).
End handlers.
