(* ===== verification/HttpGroup.v ===== *)
(** * The handlers of a group's own data

    [httpapi/labels.go], [item_labels.go], [locations.go],
    [custom_field_defs.go], [group_visibility.go], [members.go] and
    [authme.go]. *)

From S2P Require Import Prelude GoBase Schema Sql Details Labels Locations Accounts Services Reads DomainServices.
From S2P Require Import HttpCore HttpItems.

(** ** Bodies *)

Record labelBody := mkLabelBody {
  lb_ID : string; lb_Name : string; lb_Color : string; lb_CreatedAt : Z; lb_UpdatedAt : Z; lb_Version : Z }.

Definition toLabelBody (row : Label) : labelBody :=
  mkLabelBody (ID row) (lbl_Name (Cols row)) (lbl_Color (Cols row)) (CreatedAt row) (UpdatedAt row) (Version row).

Record labelCreateRequestBody := mkLabelCreateBody { lcb_Name : string; lcb_Color : string }.
Record labelUpdateRequestBody := mkLabelUpdateBody { lub_Name : string; lub_Color : string; lub_Version : Z }.

Record locationBody := mkLocationBody {
  ob_ID : string; ob_Name : string; ob_ParentID : string; ob_CreatedAt : Z; ob_UpdatedAt : Z; ob_Version : Z }.

Definition toLocationBody (loc : Location) : locationBody :=
  mkLocationBody (ID loc) (loc_Name (Cols loc)) (null_text (loc_ParentID (Cols loc)))
    (CreatedAt loc) (UpdatedAt loc) (Version loc).

Record locationCreateRequestBody := mkLocationCreateBody { ocb_Name : string; ocb_ParentID : string }.
Record locationUpdateRequestBody := mkLocationUpdateBody { oub_Name : string; oub_ParentID : string; oub_Version : Z }.

Inductive locationTreeNode := TreeNode (loc : locationBody) (ItemCount TotalItemCount : Z) (Children : list locationTreeNode).

(** The nodes are ids here; the recursion follows [Children], which ends
    where they form a forest. *)
Fixpoint toLocationTreeNodes (nodes : gmap string LocationNode) (ids : list string) (fuel : nat) :
    option (list locationTreeNode) :=
  match fuel with
  | O => None
  | S fuel =>
      mapM (fun id =>
        n ← nodes !! id;
        children ← toLocationTreeNodes nodes (node_Children n) fuel;
        Some (TreeNode (toLocationBody (node_Location n)) (node_ItemCount n) (node_TotalItemCount n) children)) ids
  end.

Record customFieldDefBody := mkCustomFieldDefBody {
  db_ID : string; db_Name : string; db_FieldType : string; db_DisplayOrder : Z; db_CreatedAt : Z; db_UpdatedAt : Z;
  db_Version : Z }.

Definition toCustomFieldDefBody (row : CustomFieldDef) : customFieldDefBody :=
  mkCustomFieldDefBody (ID row) (cfd_Name (Cols row)) (cfd_FieldType (Cols row)) (cfd_DisplayOrder (Cols row))
    (CreatedAt row) (UpdatedAt row) (Version row).

Record customFieldDefCreateRequestBody := mkDefCreateBody { dcb_Name : string; dcb_FieldType : string; dcb_DisplayOrder : Z }.
Record customFieldDefUpdateRequestBody := mkDefUpdateBody {
  dub_Name : string; dub_FieldType : string; dub_DisplayOrder : Z; dub_Version : Z }.

Record groupVisibilityBody := mkVisibilityBody {
  vb_WarrantyVisible : bool; vb_SaleVisible : bool; vb_PurchaseVisible : bool; vb_Version : Z }.

Definition is_set (flag : Z) : bool := negb (flag =? 0)%Z.

(** The storage reads the three columns as booleans. *)
Definition toGroupVisibilityBody (v : Group) : groupVisibilityBody :=
  mkVisibilityBody (is_set (grp_WarrantyVisible v)) (is_set (grp_SaleVisible v)) (is_set (grp_PurchaseVisible v))
    (grp_Version v).

Record groupVisibilityUpdateRequestBody := mkVisibilityUpdateBody {
  vub_WarrantyVisible : bool; vub_SaleVisible : bool; vub_PurchaseVisible : bool; vub_Version : Z }.

Record groupMemberListItem := mkMemberListItem { gm_ID : string; gm_Username : string; gm_Role : string; gm_JoinedAt : Z }.

Definition toGroupMemberListItem (m : Member) : groupMemberListItem :=
  mkMemberListItem (mem_ID m) (mem_Username m) (mem_Role m) (mem_JoinedAtUnixMilli m).

Record authMeResponseBody := mkAuthMe { am_GroupID : string; am_UserID : string; am_Username : string; am_Role : string }.

#[global] Instance labelBody_json : Json labelBody := fun _ => true.
#[global] Instance locationBody_json : Json locationBody := fun _ => true.
#[global] Instance locationTreeNode_json : Json locationTreeNode := fun _ => true.
#[global] Instance customFieldDefBody_json : Json customFieldDefBody := fun _ => true.
#[global] Instance groupVisibilityBody_json : Json groupVisibilityBody := fun _ => true.
#[global] Instance groupMemberListItem_json : Json groupMemberListItem := fun _ => true.
#[global] Instance authMeResponseBody_json : Json authMeResponseBody := fun _ => true.

Section handlers.
Context `{Entropy} (group : string).

(** ** labels.go, item_labels.go *)

Definition labelListHandler : M (Response (list labelBody)) :=
  answer (Labels_List group) [] (fun rows => writeJSON 200 (toLabelBody <$> rows)).

Definition labelCreateHandler (body : option labelCreateRequestBody) (now : Z) : M (Response labelBody) :=
  decoded body (fun body =>
    answer (LabelService.CreateLabel group (LabelService.mkCreateLabelRequest (lcb_Name body) (lcb_Color body)) now)
      [bad_request [LabelService.ErrNameRequired; LabelService.ErrColorInvalid]; conflict ErrLabelNameConflict]
      (fun row => writeJSON 201 (toLabelBody row))).

Definition labelUpdateHandler (labelID : string) (body : option labelUpdateRequestBody) (now : Z) : M (Response labelBody) :=
  decoded body (fun body =>
    answer (LabelService.UpdateLabel group
              (LabelService.mkUpdateLabelRequest labelID (lub_Name body) (lub_Color body) (lub_Version body)) now)
      [bad_request [LabelService.ErrVersionRequired; LabelService.ErrNameRequired; LabelService.ErrColorInvalid]; not_found;
       conflict ErrLabelNameConflict; conflict ErrVersionMismatch]
      (fun row => writeJSON 200 (toLabelBody row))).

Definition labelDeleteHandler (labelID : string) (now : Z) : M (Response unit) :=
  answer (Labels_Delete group labelID now) [not_found] (fun _ => NoContent).

Definition itemLabelListHandler (itemID : string) : M (Response (list labelBody)) :=
  answer (ItemLabels_ListForItem group itemID) [not_found] (fun rows => writeJSON 200 (toLabelBody <$> rows)).

Definition itemLabelAttachHandler (itemID labelID : string) (now : Z) : M (Response unit) :=
  answer (LabelService.AttachLabel group itemID labelID now) [not_found] (fun _ => NoContent).

Definition itemLabelDetachHandler (itemID labelID : string) (now : Z) : M (Response unit) :=
  answer (LabelService.DetachLabel group itemID labelID now) [not_found] (fun _ => NoContent).

(** ** locations.go *)

Definition locationListHandler : M (Response (list locationBody)) :=
  answer (Locations_List group) [] (fun rows => writeJSON 200 (toLocationBody <$> rows)).

Definition locationTreeHandler : M (Response (list locationTreeNode)) :=
  answer
    ('(nodes, roots) ← Locations_Tree group;
     match toLocationTreeNodes nodes roots (S (size nodes)) with
     | Some tree => mret tree
     | None => throw (ErrMessage "out of fuel")
     end)
    [] (fun tree => writeJSON 200 tree).

Definition parent_missing : Case :=
  says ErrLocationParentNotFound "parent_id does not resolve to a location in this group".

Definition locationCreateHandler (body : option locationCreateRequestBody) (now : Z) : M (Response locationBody) :=
  decoded body (fun body =>
    answer (LocationService.Create group (LocationService.mkCreateRequest (ocb_Name body) (ocb_ParentID body)) now)
      [bad_request [LocationService.ErrNameRequired]; parent_missing]
      (fun loc => writeJSON 201 (toLocationBody loc))).

Definition locationGetHandler (locationID : string) : M (Response locationBody) :=
  answer (Locations_Get group locationID) [not_found] (fun loc => writeJSON 200 (toLocationBody loc)).

Definition locationUpdateHandler (locationID : string) (body : option locationUpdateRequestBody) (now : Z) :
    M (Response locationBody) :=
  decoded body (fun body =>
    answer (LocationService.Update group
              (LocationService.mkUpdateRequest locationID (oub_Name body) (oub_ParentID body) (oub_Version body)) now)
      [bad_request [LocationService.ErrNameRequired; LocationService.ErrVersionRequired]; parent_missing;
       says ErrLocationCycle "parent_id would create a cycle in the location tree"; not_found; conflict ErrVersionMismatch]
      (fun loc => writeJSON 200 (toLocationBody loc))).

Definition writeLocationNotEmpty : Case :=
  mkCase (fun e => match e with ErrLocationNotEmpty _ _ => true | _ => false end)
    (fun e => match e with
      | ErrLocationNotEmpty childCount itemCount =>
          (WithDetail (problem_New 409 "location-not-empty" "Location Not Empty")
             (Says "this location still holds live child locations or items; pass ?reassign_to= to move them (empty value detaches them to the root)"),
           NotEmpty childCount itemCount)
      | _ => (Internal, Plain)
      end).

(** [reassign] is the query parameter [reassign_to], if it is there. *)
Definition locationDeleteHandler (locationID : string) (reassign : option string) (now : Z) : M (Response unit) :=
  answer (Locations_Delete group
            (mkDeleteLocation locationID (match reassign with Some _ => true | None => false end) (null_text reassign) now))
    [not_found; writeLocationNotEmpty;
     says ErrLocationParentNotFound "reassign_to does not resolve to a location in this group";
     says ErrLocationReassignTarget "reassign_to is the location being deleted or one of its own descendants"]
    (fun _ => NoContent).

(** ** custom_field_defs.go *)

Definition customFieldDefListHandler : M (Response (list customFieldDefBody)) :=
  answer (CustomFieldDefs_List group) [] (fun rows => writeJSON 200 (toCustomFieldDefBody <$> rows)).

Definition customFieldDefCreateHandler (body : option customFieldDefCreateRequestBody) (now : Z) :
    M (Response customFieldDefBody) :=
  decoded body (fun body =>
    answer (CustomFieldService.CreateCustomFieldDef group
              (CustomFieldService.mkCreateDefRequest (dcb_Name body) (dcb_FieldType body) (dcb_DisplayOrder body)) now)
      [bad_request [CustomFieldService.ErrNameRequired; CustomFieldService.ErrFieldTypeInvalid]]
      (fun row => writeJSON 201 (toCustomFieldDefBody row))).

Definition customFieldDefUpdateHandler (fieldDefID : string) (body : option customFieldDefUpdateRequestBody) (now : Z) :
    M (Response customFieldDefBody) :=
  decoded body (fun body =>
    answer (CustomFieldService.UpdateCustomFieldDef group
              (CustomFieldService.mkUpdateDefRequest fieldDefID (dub_Name body) (dub_FieldType body)
                 (dub_DisplayOrder body) (dub_Version body)) now)
      [bad_request [CustomFieldService.ErrVersionRequired; CustomFieldService.ErrNameRequired;
         CustomFieldService.ErrFieldTypeInvalid]; not_found; conflict ErrVersionMismatch]
      (fun row => writeJSON 200 (toCustomFieldDefBody row))).

Definition customFieldDefDeleteHandler (fieldDefID : string) (now : Z) : M (Response unit) :=
  answer (CustomFieldDefs_Delete group fieldDefID now) [not_found] (fun _ => NoContent).

(** ** group_visibility.go, members.go, authme.go *)

Definition groupVisibilityGetHandler : M (Response groupVisibilityBody) :=
  answer (GroupVisibility_Get group) [not_found] (fun state => writeJSON 200 (toGroupVisibilityBody state)).

Definition groupVisibilityUpdateHandler (body : option groupVisibilityUpdateRequestBody) (now : Z) :
    M (Response groupVisibilityBody) :=
  decoded body (fun body =>
    answer (GroupService.UpdateVisibility group
              (GroupService.mkUpdateVisibilityRequest (vub_WarrantyVisible body) (vub_SaleVisible body)
                 (vub_PurchaseVisible body) (vub_Version body)) now)
      [bad_request [GroupService.ErrVersionRequired]; not_found; conflict ErrVersionMismatch]
      (fun state => writeJSON 200 (toGroupVisibilityBody state))).

Definition memberListHandler : M (Response (list groupMemberListItem)) :=
  answer (Members_List group) [] (fun members => writeJSON 200 (toGroupMemberListItem <$> members)).

Definition usernameForCaller (members : list Member) (userID : string) : option string :=
  mem_Username <$> List.find (fun m => mem_ID m =?s userID) members.

Definition authMeHandler (identity : Identity) : M (Response authMeResponseBody) :=
  answer (Members_List group) [] (fun members =>
    match usernameForCaller members (idt_UserID identity) with
    | None => problem_Write Internal
    | Some username =>
        writeJSON 200 (mkAuthMe (idt_Group identity) (idt_UserID identity) username (idt_Role identity))
    end).
End handlers.
