(* ===== verification/HttpSync.v ===== *)
(** * The handlers of the sync API

    [httpapi/sync.go], [httpapi/sync_conflicts.go] and the body of an
    attachment ([httpapi/attachments.go]).  A pull reads the snapshots its
    queries see, as in [SyncReader]. *)

From S2P Require Import Prelude GoBase Schema Sql Evolution Queries PushFields PushHandlers PushCommit SyncReader.
From S2P Require Import Strconv Conflicts DomainServices HttpCore HttpItems HttpGroup.

(** ** Pull *)

Definition maxSyncPullLimit : Z := 500.

Record syncPullRequestBody := mkPullBody { plb_DeviceID : string; plb_Since : Z; plb_Limit : Z }.

Record attachmentBody := mkAttachmentBody {
  ab_ID : string; ab_ItemID : string; ab_Category : string; ab_OriginalFilename : string; ab_ContentType : string;
  ab_SizeBytes : Z; ab_SHA256 : string; ab_CreatedAt : Z; ab_UpdatedAt : Z; ab_Version : Z; ab_HasThumbnail : bool }.

Definition toAttachmentBody (row : Attachment) : attachmentBody :=
  let c := Cols row in
  mkAttachmentBody (ID row) (att_ItemID c) (att_Category c) (att_OriginalFilename c) (att_ContentType c) (att_SizeBytes c)
    (att_Sha256 c) (CreatedAt row) (UpdatedAt row) (Version row)
    (match att_ThumbnailPath c with Some _ => true | None => false end).

Record syncItemLabelAssignmentBody := mkAssignmentBody { asb_ItemID : string; asb_LabelID : string }.

(** The [any] of [syncChangeEnvelope.Data]. *)
Inductive ChangeData :=
  | DItem (b : itemBody) | DWarranty (b : warrantyBody) | DSale (b : saleBody) | DPurchase (b : purchaseBody)
  | DIdentification (b : identificationBody) | DCustomField (b : itemCustomFieldBody)
  | DStockAdjustment (b : stockAdjustmentBody) | DLocation (b : locationBody) | DLabel (b : labelBody)
  | DItemLabel (b : syncItemLabelAssignmentBody) | DAttachment (b : attachmentBody).

Record syncChangeEnvelope := mkEnvelope {
  sce_EntityType : string; sce_ID : string; sce_GroupChangeSeq : Z; sce_Data : ChangeData }.
Record syncTombstoneBody := mkTombstoneBody { stb_EntityType : string; stb_ID : string; stb_DeletedAt : Z }.
Record syncPullResultBody := mkPullResult {
  spr_Changes : list syncChangeEnvelope; spr_Tombstones : list syncTombstoneBody; spr_NextWatermark : Z; spr_HasMore : bool }.

(** One of the two bodies of a pull. *)
Inductive PullAnswer := PullResult (b : syncPullResultBody) | CursorTooOld.

(** Only a custom field can hold what JSON cannot say. *)
#[global] Instance PullAnswer_json : Json PullAnswer := fun a =>
  match a with
  | PullResult b => forallb (fun e => match sce_Data e with DCustomField f => json_ok f | _ => true end) (spr_Changes b)
  | CursorTooOld => true
  end.

Definition unexpected_data : GoError := ErrMessage "sync: pull: entry carries unexpected data type".

Definition toSyncChangeData (c : Change) : res ChangeData :=
  let t := ch_EntityType c in
  if t =?s EntityItem then match ch_Data c with RItem row => Ok (DItem (toItemBody row)) | _ => Err unexpected_data end
  else if t =?s EntityWarrantyBlock then
    match ch_Data c with RWarranty row => Ok (DWarranty (toWarrantyBody row)) | _ => Err unexpected_data end
  else if t =?s EntitySoldToBlock then
    match ch_Data c with RSale row => Ok (DSale (toSaleBody row)) | _ => Err unexpected_data end
  else if t =?s EntityPurchasedFromBlock then
    match ch_Data c with RPurchase row => Ok (DPurchase (toPurchaseBody row)) | _ => Err unexpected_data end
  else if t =?s EntityItemIdentification then
    match ch_Data c with RIdentification row => Ok (DIdentification (toIdentificationBody row)) | _ => Err unexpected_data end
  else if t =?s EntityItemCustomField then
    match ch_Data c with RCustomField row => Ok (DCustomField (toItemCustomFieldBody row)) | _ => Err unexpected_data end
  else if t =?s EntityStockAdjustment then
    match ch_Data c with RStockAdjustment row => Ok (DStockAdjustment (toStockAdjustmentBody row)) | _ => Err unexpected_data end
  else if t =?s EntityLocation then
    match ch_Data c with RLocation row => Ok (DLocation (toLocationBody row)) | _ => Err unexpected_data end
  else if t =?s EntityLabel then
    match ch_Data c with RLabel row => Ok (DLabel (toLabelBody row)) | _ => Err unexpected_data end
  else if t =?s EntityItemLabel then
    match ch_Data c with
    | RItemLabel row => Ok (DItemLabel (mkAssignmentBody (il_ItemID (Cols row)) (il_LabelID (Cols row))))
    | _ => Err unexpected_data
    end
  else if t =?s EntityAttachment then
    match ch_Data c with RAttachment row => Ok (DAttachment (toAttachmentBody row)) | _ => Err unexpected_data end
  else Err (ErrMessage "sync: pull: unknown entity_type").

Definition toSyncChangeEnvelope (c : Change) : res syncChangeEnvelope :=
  data ← toSyncChangeData c;
  mret (mkEnvelope (ch_EntityType c) (ch_ID c) (ch_GroupChangeSeq c) data).

Fixpoint toSyncChangeEnvelopes (cs : list Change) : res (list syncChangeEnvelope) :=
  match cs with
  | [] => mret []
  | c :: cs => envelope ← toSyncChangeEnvelope c; rest ← toSyncChangeEnvelopes cs; mret (envelope :: rest)
  end.

Definition toSyncTombstoneBody (t : Tombstone) : syncTombstoneBody :=
  mkTombstoneBody (ts_EntityType t) (ts_ID t) (ts_DeletedAt t).

Definition toSyncPullResultBody (page : Page) : res syncPullResultBody :=
  changes ← toSyncChangeEnvelopes (Changes page);
  mret (mkPullResult changes (toSyncTombstoneBody <$> Tombstones page) (NextWatermark page) (HasMore page)).

Definition says_bad {B} (text : string) : Response B := problem_Write (BadRequest (Says text)).

Section pull.
Context `{SortBy} (snapshot : nat -> DB) (group : string).

Definition syncPullHandler (body : option syncPullRequestBody) : RM (Response PullAnswer) :=
  decoded body (fun body =>
    if plb_DeviceID body =?s "" then mret (says_bad "device_id is required") else
    if (plb_Since body <? 0)%Z then mret (says_bad "since must not be negative") else
    if (plb_Limit body <=? 0)%Z || (maxSyncPullLimit <? plb_Limit body)%Z
    then mret (says_bad "limit must be an integer between 1 and 500") else
    answer
      (pulled ← PullOrTooOld snapshot group (plb_Since body) (plb_Limit body);
       match pulled with
       | None => mret CursorTooOld
       | Some page => result ← lift (toSyncPullResultBody page); mret (PullResult result)
       end)
      [] (fun a => writeJSON 200 a)).
End pull.

(** ** Push *)

Record syncPushMutationBody := mkPushMutationBody {
  spm_MutationID : string; spm_EntityType : string; spm_EntityID : string; spm_BaseVersion : Z; spm_Fields : FieldMap;
  spm_Op : string }.
Record syncPushRequestBody := mkPushBody { psb_DeviceID : string; psb_Mutations : list syncPushMutationBody }.

Record syncPushAppliedEntryBody := mkAppliedBody {
  spa_MutationID : string; spa_EntityType : string; spa_EntityID : string; spa_Version : Z }.
Record syncPushSkippedEntryBody := mkSkippedBody { sps_MutationID : string }.
Record syncPushConflictEntryBody := mkConflictBody {
  spc_MutationID : string; spc_EntityType : string; spc_EntityID : string; spc_FieldName : string }.
Record syncPushResponseBody := mkPushResponse {
  spb_Applied : list syncPushAppliedEntryBody; spb_Skipped : list syncPushSkippedEntryBody;
  spb_Conflicts : list syncPushConflictEntryBody; spb_NewWatermark : Z }.
#[global] Instance syncPushResponseBody_json : Json syncPushResponseBody := fun _ => true.

Definition toSyncPushResponseBody (result : PushResult) : syncPushResponseBody :=
  mkPushResponse
    ((fun a => mkAppliedBody (pa_MutationID a) (pa_EntityType a) (pa_EntityID a) (pa_Version a)) <$> pr_Applied result)
    (mkSkippedBody <$> pr_Skipped result)
    ((fun c => mkConflictBody (pc_MutationID c) (pc_EntityType c) (pc_EntityID c) (pc_FieldName c)) <$> pr_Conflicts result)
    (pr_NewWatermark result).

Definition syncPushFieldString (fields : FieldMap) (name : string) : res (string * bool) :=
  match fields !! name with
  | None => Ok (""%string, false)
  | Some raw =>
      match Unmarshal_string raw with
      | Some v => Ok (v, true)
      | None => Err (ErrMessage "field does not decode to a string")
      end
  end.

Section push.
Context `{Entropy} (group : string).

(** [if present { if err := validate(v); err != nil { return err } }] *)
Definition when_present (v : string * bool) (validate : string -> res unit) : res unit :=
  if v.2 then validate v.1 else Ok tt.

Definition validatePushMutationFields (m : syncPushMutationBody) : M unit :=
  let field := syncPushFieldString (spm_Fields m) in
  let t := spm_EntityType m in
  if t =?s "item_identification" then
    kind ← lift (field "kind"%string); lift (when_present kind ItemService.ValidateIdentificationKind)
  else if t =?s "warranty_block" then
    startsOn ← lift (field "starts_on"%string); expiresOn ← lift (field "expires_on"%string);
    lift (ItemService.validateWarrantyDates startsOn.1 expiresOn.1)
  else if t =?s "sold_to_block" then
    soldOn ← lift (field "sold_on"%string); lift (ItemService.validateSaleDate soldOn.1)
  else if t =?s "purchased_from_block" then
    purchasedOn ← lift (field "purchased_on"%string); lift (ItemService.validatePurchaseDate purchasedOn.1)
  else if t =?s "item_custom_field" then
    fieldType ← lift (field "field_type"%string); lift (when_present fieldType ItemService.ValidateCustomFieldType);;
    fieldDefID ← lift (field "field_def_id"%string);
    if fieldDefID.2 && negb (fieldDefID.1 =?s "") && fieldType.2
    then ItemService.resolveFieldDef group fieldDefID.1 fieldType.1 else mret tt
  else if t =?s "label" then
    color ← lift (field "color"%string); lift (when_present color LabelService.ValidateColor)
  else mret tt.

Definition batch_mutation (m : syncPushMutationBody) : BatchMutation :=
  mkBatchMutation (spm_MutationID m) (spm_EntityType m) (spm_EntityID m) (spm_BaseVersion m) (spm_Fields m) (spm_Op m).

(** The checks of one mutation; an error is the reason of the 400. *)
Definition check_mutation (m : syncPushMutationBody) : M unit :=
  lift (require (negb (spm_MutationID m =?s "")) (ErrMessage "mutation_id is required"));;
  lift (require (negb (spm_EntityType m =?s "")) (ErrMessage "entity_type is required"));;
  lift (require (negb (spm_EntityID m =?s "")) (ErrMessage "entity_id is required"));;
  lift (require (0 <=? spm_BaseVersion m)%Z (ErrMessage "base_version must not be negative"));;
  validatePushMutationFields m.

(** The text of the 400 names the index and the id of the mutation, too. *)
Definition push_failed : list Case := [mkCase IsPushStructuralError (fun e => (BadRequest (TextOf e), Plain))].

Definition syncPushHandler (body : option syncPushRequestBody) (now : Z) : M (Response syncPushResponseBody) :=
  decoded body (fun body =>
    if psb_DeviceID body =?s "" then mret (says_bad "device_id is required") else
    checked ← try (for_each (psb_Mutations body) check_mutation);
    match checked with
    | Err e => mret (problem_Write (BadRequest (TextOf e)))
    | Ok tt =>
        answer (Push group (mkPushBatch (batch_mutation <$> psb_Mutations body) now)) push_failed
          (fun result => writeJSON 200 (toSyncPushResponseBody result))
    end).

(** ** Conflicts *)

Definition defaultSyncConflictsLimit : Z := 50.

(** [syncConflictLogEntryBody] has the fields of [ConflictLogEntry]. *)
Record syncConflictLogResponseBody := mkConflictLogResponse {
  scl_Conflicts : list ConflictLogEntry; scl_NextCursor : option string }.
#[global] Instance syncConflictLogResponseBody_json : Json syncConflictLogResponseBody := fun _ => true.

(** [limit] and [after] are the query parameters, [""] when absent. *)
Definition conflict_limit (v : string) : option Z :=
  if v =?s "" then Some defaultSyncConflictsLimit else
  n ← ParseInt v;
  if (n <? 1)%Z || (MaxConflictPageLimit <? n)%Z then None else Some n.

Definition conflict_after (v : string) : option (option ConflictCursor) :=
  if v =?s "" then Some None else Some <$> DecodeConflictCursor v.

Definition syncConflictsHandler (limit after : string) : M (Response syncConflictLogResponseBody) :=
  match conflict_limit limit with
  | None => mret (says_bad "limit must be an integer between 1 and 200")
  | Some limit =>
      match conflict_after after with
      | None => mret (says_bad "after is not a valid cursor")
      | Some after =>
          answer (ListConflicts group after limit) []
            (fun page => writeJSON 200 (mkConflictLogResponse (cp_Entries page) (EncodeConflictCursor <$> cp_Next page)))
      end
  end.
End push.
