(* ===== verification/HttpAccounts.v ===== *)
(** * The handlers of accounts

    [httpapi/login.go], [register.go], [invite_redeem.go], [clientip.go],
    [logout.go], [sessions.go], [invites.go], [devicetoken.go],
    [resolve.go] and the lists of [storage/session_admin.go],
    [storage/devicetoken_admin.go] and [storage/invites_admin.go].

    The three handlers that anybody may call have a rate limiter each; their
    state is the database and the limiter, and the [n]-th reading of the
    limiter's clock in a request is [clock n]. *)

From S2P Require Import Prelude GoBase Schema Sql Accounts Items Escape Strconv Password Services SyncReader HttpCore.
From S2P Require Limiter.
From Stdlib Require Import Strings.Ascii.

(** ** Lists *)

Record SessionInfo := mkSessionInfo {
  si_ID : string; si_UserAgent : string; si_CreatedFromIP : string; si_CreatedAt : Z; si_UpdatedAt : Z;
  si_ExpiresAt : Z; si_Revoked : bool; si_RevokedAt : Z }.
Record DeviceTokenInfo := mkDeviceTokenInfo {
  di_ID : string; di_DeviceLabel : string; di_CreatedAt : Z; di_UpdatedAt : Z; di_Revoked : bool; di_RevokedAt : Z }.
Record InviteInfo := mkInviteInfo {
  ii_ID : string; ii_CreatedByUserID : string; ii_CreatedAt : Z; ii_UpdatedAt : Z; ii_ExpiresAt : Z; ii_Redeemed : bool;
  ii_RedeemedAt : Z; ii_RedeemedByUserID : string }.

Definition valid {A} (v : option A) : bool := match v with Some _ => true | None => false end.

Definition to_session_info (r : Row SessionCols) : SessionInfo :=
  mkSessionInfo (ID r) (ses_UserAgent (Cols r)) (ses_CreatedFromIp (Cols r)) (CreatedAt r) (UpdatedAt r)
    (ses_ExpiresAt (Cols r)) (valid (ses_RevokedAt (Cols r))) (default 0%Z (ses_RevokedAt (Cols r))).
Definition to_device_token_info (r : Row DeviceTokenCols) : DeviceTokenInfo :=
  mkDeviceTokenInfo (ID r) (dev_DeviceLabel (Cols r)) (CreatedAt r) (UpdatedAt r)
    (valid (dev_RevokedAt (Cols r))) (default 0%Z (dev_RevokedAt (Cols r))).
Definition to_invite_info (r : Row InviteCols) : InviteInfo :=
  mkInviteInfo (ID r) (inv_CreatedByUserID (Cols r)) (CreatedAt r) (UpdatedAt r) (inv_ExpiresAt (Cols r))
    (valid (inv_RedeemedAt (Cols r))) (default 0%Z (inv_RedeemedAt (Cols r)))
    (default ""%string (inv_RedeemedByUserID (Cols r))).

Section lists.
Context `{SortBy}.

(** [ORDER BY created_at DESC] *)
Definition newest_first {D} (rows : list (Row D)) : list (Row D) := sort_by (fun r => - CreatedAt r)%Z rows.

Definition ListSessionsForUser (group user_id : string) : M (list (Row SessionCols)) := fun w =>
  (Ok (newest_first (where_ (fun r => (GroupID r =?s group) && (ses_UserID (Cols r) =?s user_id) && live r)
                       (sessions (wdb w)))), w).
Definition ListDeviceTokensForUser (group user_id : string) : M (list (Row DeviceTokenCols)) := fun w =>
  (Ok (newest_first (where_ (fun r => (GroupID r =?s group) && (dev_UserID (Cols r) =?s user_id) && live r)
                       (device_tokens (wdb w)))), w).
Definition ListInvites_rows (group : string) : M (list (Row InviteCols)) := fun w =>
  (Ok (newest_first (where_ (fun r => (GroupID r =?s group) && live r) (invites (wdb w)))), w).

Definition ListSessions (groupID userID : string) : M (list SessionInfo) :=
  lift (reject ((groupID =?s "") || (userID =?s "")) "storage: ListSessions needs a non-empty groupID and userID");;
  rows ← ListSessionsForUser groupID userID; mret (to_session_info <$> rows).
Definition ListDeviceTokens (groupID userID : string) : M (list DeviceTokenInfo) :=
  lift (reject ((groupID =?s "") || (userID =?s "")) "storage: ListDeviceTokens needs a non-empty groupID and userID");;
  rows ← ListDeviceTokensForUser groupID userID; mret (to_device_token_info <$> rows).
Definition ListInvites (groupID : string) : M (list InviteInfo) :=
  lift (reject (groupID =?s "") "storage: ListInvites needs a non-empty groupID");;
  rows ← ListInvites_rows groupID; mret (to_invite_info <$> rows).
End lists.

(** ** Bodies *)

Record loginRequestBody := mkLoginBody { lgb_Username : string; lgb_Password : string }.
Record loginResponseBody := mkLoginResponse { lgr_GroupID : string; lgr_UserID : string; lgr_Username : string; lgr_Role : string }.
Record registerRequestBody := mkRegisterBody { rgb_Username : string; rgb_Password : string }.
Record registerResponseBody := mkRegisterResponse { rgr_GroupID : string; rgr_UserID : string; rgr_Username : string }.
Record inviteRedeemRequestBody := mkRedeemBody { irb_Token : string; irb_Username : string; irb_Password : string }.
Record inviteRedeemResponseBody := mkRedeemResponse { irr_GroupID : string; irr_UserID : string; irr_Username : string }.
Record inviteCreateResponseBody := mkInviteResponse { icr_ID : string; icr_Token : string; icr_ExpiresAt : Z }.
Record deviceTokenIssueRequestBody := mkIssueBody { dib_DeviceLabel : string }.
Record deviceTokenIssueResponseBody := mkIssueResponse { dir_ID : string; dir_DeviceLabel : string; dir_Token : string }.

Record sessionListItem := mkSessionItem {
  sli_ID : string; sli_UserAgent : string; sli_CreatedFromIP : string; sli_CreatedAt : Z; sli_ExpiresAt : Z;
  sli_Revoked : bool; sli_RevokedAt : Z }.
Definition toSessionListItem (s : SessionInfo) : sessionListItem :=
  mkSessionItem (si_ID s) (si_UserAgent s) (si_CreatedFromIP s) (si_CreatedAt s) (si_ExpiresAt s) (si_Revoked s)
    (if si_Revoked s then si_RevokedAt s else 0).

Record deviceTokenListItem := mkDeviceTokenItem {
  dli_ID : string; dli_DeviceLabel : string; dli_CreatedAt : Z; dli_Revoked : bool; dli_RevokedAt : Z }.
Definition toDeviceTokenListItem (d : DeviceTokenInfo) : deviceTokenListItem :=
  mkDeviceTokenItem (di_ID d) (di_DeviceLabel d) (di_CreatedAt d) (di_Revoked d)
    (if di_Revoked d then di_RevokedAt d else 0).

Record inviteListItem := mkInviteItem {
  ili_ID : string; ili_CreatedByUserID : string; ili_CreatedAt : Z; ili_ExpiresAt : Z; ili_Redeemed : bool;
  ili_RedeemedAt : Z; ili_RedeemedByUserID : string }.
Definition toInviteListItem (inv : InviteInfo) : inviteListItem :=
  mkInviteItem (ii_ID inv) (ii_CreatedByUserID inv) (ii_CreatedAt inv) (ii_ExpiresAt inv) (ii_Redeemed inv)
    (if ii_Redeemed inv then ii_RedeemedAt inv else 0) (if ii_Redeemed inv then ii_RedeemedByUserID inv else "").

(** The attributes of a cookie that differ between login and logout. *)
Record SetCookie := mkSetCookie { ck_Name : string; ck_Value : string; ck_Expires : option Z; ck_MaxAge : Z }.
Definition CookieName : string := "hho_session".

#[global] Instance loginResponse_json : Json (loginResponseBody * SetCookie) := fun _ => true.
#[global] Instance registerResponseBody_json : Json registerResponseBody := fun _ => true.
#[global] Instance inviteRedeemResponseBody_json : Json inviteRedeemResponseBody := fun _ => true.
#[global] Instance inviteCreateResponseBody_json : Json inviteCreateResponseBody := fun _ => true.
#[global] Instance deviceTokenIssueResponseBody_json : Json deviceTokenIssueResponseBody := fun _ => true.
#[global] Instance sessionListItem_json : Json sessionListItem := fun _ => true.
#[global] Instance deviceTokenListItem_json : Json deviceTokenListItem := fun _ => true.
#[global] Instance inviteListItem_json : Json inviteListItem := fun _ => true.

(** ** Where a request comes from *)

(** The text before and after the last [sep]. *)
Fixpoint cut_last (sep : ascii) (s : string) : option (string * string) :=
  match s with
  | EmptyString => None
  | String c s =>
      match cut_last sep s with
      | Some (before, after) => Some (String c before, after)
      | None => if Ascii.eqb c sep then Some (EmptyString, s) else None
      end
  end.

Fixpoint cut_first (sep : ascii) (s : string) : option (string * string) :=
  match s with
  | EmptyString => None
  | String c s =>
      if Ascii.eqb c sep then Some (EmptyString, s)
      else '(before, after) ← cut_first sep s; Some (String c before, after)
  end.

(** [net.SplitHostPort]: [host:port] or [[host]:port], the host. *)
Definition SplitHostPort (hostport : string) : option string :=
  match hostport with
  | String "[" s =>
      '(host, s) ← cut_first "]" s;
      match s with
      | String ":" port =>
          if contains_byte port ":" || contains_byte host "[" || contains_byte port "[" || contains_byte port "]"
          then None else Some host
      | _ => None
      end
  | _ =>
      '(host, _) ← cut_last ":" hostport;
      if contains_byte host ":" || contains_byte hostport "[" || contains_byte hostport "]" then None else Some host
  end.

(** What the handlers read of a request besides its body: [r.RemoteAddr],
    [r.UserAgent()], the first [X-Forwarded-For] header, the credentials. *)
Record Caller := mkCaller {
  cl_RemoteAddr : string; cl_UserAgent : string; cl_ForwardedFor : string; cl_Credentials : Credentials }.

Definition remoteAddr (r : Caller) : string := default (cl_RemoteAddr r) (SplitHostPort (cl_RemoteAddr r)).

Definition clientIP (r : Caller) (trustProxyHeaders : bool) : string :=
  let xff := cl_ForwardedFor r in
  let last := TrimSpace (match cut_last "," xff with Some (_, after) => after | None => xff end) in
  if trustProxyHeaders && negb (xff =?s "") && negb (last =?s "") then last else remoteAddr r.

(** ** Handlers behind a rate limiter *)

Record Server := mkServer { srv_world : World; srv_limiter : Limiter.Limiter }.

Definition on_world {A} (m : M A) : Prog Server A := fun s =>
  let '(r, w) := m (srv_world s) in (r, mkServer w (srv_limiter s)).

Definition limiter_Allow (key : string) (now : Z) : Prog Server (bool * Z) := fun s =>
  let '(ok, retryAfter, l) := Limiter.Allow key now (srv_limiter s) in (Ok (ok, retryAfter), mkServer (srv_world s) l).
Definition limiter_RecordFailure (key : string) (now : Z) : Prog Server unit := fun s =>
  (Ok tt, mkServer (srv_world s) (Limiter.RecordFailure key now (srv_limiter s))).
Definition limiter_RecordSuccess (key : string) : Prog Server unit := fun s =>
  (Ok tt, mkServer (srv_world s) (Limiter.RecordSuccess key (srv_limiter s))).

(** [if ok, retryAfter := limiter.Allow(key); !ok { 429 }] *)
Definition admitted {B} (key : string) (now : Z) (next : Prog Server (Response B)) : Prog Server (Response B) :=
  limiter_Allow key now ≫= fun allow : bool * Z =>
  if allow.1 then next else mret (writeRateLimited allow.2).

(** [to_lower] is [strings.ToLower], with the case tables of Unicode. *)
Definition loginRateLimitKeys (to_lower : string -> string) (r : Caller) (trustProxyHeaders : bool) (username : string) :
    string * string :=
  ("ip:" ++ clientIP r trustProxyHeaders, "acct:" ++ to_lower (TrimSpace username))%string.

Definition registerRateLimitKey (r : Caller) (trustProxyHeaders : bool) : string :=
  ("ip:" ++ clientIP r trustProxyHeaders)%string.

Section handlers.
Context `{Entropy, Argon2, Sha256} (h : Hasher) (trust : bool) (to_lower : string -> string) (clock : nat -> Z).

Definition inviteRedeemRateLimitKeys (r : Caller) (token : string) : string * string :=
  ("ip:" ++ clientIP r trust, "token:" ++ bearertoken_Hash token)%string.

(** [slots] and [now] are those of [Login]. *)
Definition loginHandler (r : Caller) (body : option loginRequestBody) (slots : res unit * res unit) (now : Z) :
    Prog Server (Response (loginResponseBody * SetCookie)) :=
  decoded body (fun body =>
    let '(ipKey, acctKey) := loginRateLimitKeys to_lower r trust (lgb_Username body) in
    admitted ipKey (clock 0) (
    admitted acctKey (clock 1) (
      result ← on_world (try (Login h slots
                 (mkLoginRequest (lgb_Username body) (lgb_Password body) (cl_UserAgent r) (remoteAddr r)) now));
      match result return Prog Server _ with
      | Err e =>
          if bool_decide (e = ErrInvalidCredentials) then
            limiter_RecordFailure ipKey (clock 2);; limiter_RecordFailure acctKey (clock 3);;
            mret (problem_Write Unauthorized)
          else mret (problem_Write Internal)
      | Ok result =>
          limiter_RecordSuccess ipKey;; limiter_RecordSuccess acctKey;;
          mret (writeJSON 200
            (mkLoginResponse (li_GroupID result) (li_UserID result) (li_Username result) (li_Role result),
             mkSetCookie CookieName (li_Token result) (Some (li_ExpiresAt result)) 0))
      end))).

(** [register] is the [Register] of the configured [Registrar]. *)
Definition registerRateLimitRecord (ipKey : string) (err : option GoError) : Prog Server unit :=
  if bool_decide (err = Some groups_ErrUsernameInvalid) || bool_decide (err = Some groups_ErrPasswordInvalid)
  then mret tt else limiter_RecordFailure ipKey (clock 1).

Definition error_of {A} (r : res A) : option GoError := match r with Ok _ => None | Err e => Some e end.

Definition registerHandler (register : RegisterRequest -> M Registered) (r : Caller) (body : option registerRequestBody) :
    Prog Server (Response registerResponseBody) :=
  decoded body (fun body =>
    let ipKey := registerRateLimitKey r trust in
    admitted ipKey (clock 0) (
      result ← on_world (try (register (mkRegisterRequest (rgb_Username body) (rgb_Password body))));
      registerRateLimitRecord ipKey (error_of result);;
      answer (lift result)
        [bad_request [groups_ErrUsernameInvalid; groups_ErrPasswordInvalid]; conflict ErrRegistrationClosed]
        (fun result => writeJSON 201 (mkRegisterResponse (rgd_GroupID result) (rgd_UserID result) (rgd_Username result))))).

Definition inviteRedeemRateLimitRecord (ipKey tokenKey : string) (err : option GoError) : Prog Server unit :=
  if bool_decide (err = Some ErrTokenRequired) || bool_decide (err = Some invite_ErrUsernameInvalid)
     || bool_decide (err = Some invite_ErrPasswordInvalid) then mret tt else
  if valid err && negb (bool_decide (err = Some ErrInviteNotRedeemable)) && negb (bool_decide (err = Some ErrUsernameTaken))
  then mret tt else
  limiter_RecordFailure ipKey (clock 2);; limiter_RecordFailure tokenKey (clock 3).

Definition inviteRedeemHandler (r : Caller) (body : option inviteRedeemRequestBody) (slot : res unit) (now : Z) :
    Prog Server (Response inviteRedeemResponseBody) :=
  decoded body (fun body =>
    let '(ipKey, tokenKey) := inviteRedeemRateLimitKeys r (irb_Token body) in
    admitted ipKey (clock 0) (
    admitted tokenKey (clock 1) (
      result ← on_world (try (invite_Redeem h slot
                 (mkRedeemRequest (irb_Token body) (irb_Username body) (irb_Password body)) now));
      inviteRedeemRateLimitRecord ipKey tokenKey (error_of result);;
      answer (lift result)
        [bad_request [ErrTokenRequired; invite_ErrUsernameInvalid; invite_ErrPasswordInvalid]; conflict ErrUsernameTaken;
         mkCase (is_one_of [ErrInviteNotRedeemable]) (fun _ => (NotFound, Plain))]
        (fun result => writeJSON 201 (mkRedeemResponse (rd_GroupID result) (rd_UserID result) (rd_Username result)))))).
End handlers.

(** ** Handlers with an identity *)

Section identified.
Context `{Entropy, Sha256, SortBy} (identity : Identity).

Definition sessionsListHandler : M (Response (list sessionListItem)) :=
  answer (ListSessions (idt_Group identity) (idt_UserID identity)) [] (fun l => writeJSON 200 (toSessionListItem <$> l)).

Definition sessionRevokeHandler (sessionID : string) (now : Z) : M (Response unit) :=
  answer (RevokeSession (idt_Group identity) (idt_UserID identity) sessionID now) [not_found] (fun _ => NoContent).

(** The reply of a logout is the cookie that it clears. *)
Definition clearSessionCookie : SetCookie := mkSetCookie CookieName "" None (-1).

Definition logoutHandler (r : Caller) (now : Z) : M (Response SetCookie) :=
  match req_Cookie (cl_Credentials r) with
  | None | Some ""%string => mret (problem_Write Internal)
  | Some cookie =>
      answer (RevokeCallingSession (idt_Group identity) (idt_UserID identity) (bearertoken_Hash cookie) now) []
        (fun _ => Reply 204 clearSessionCookie)
  end.

Definition deviceTokensListHandler : M (Response (list deviceTokenListItem)) :=
  answer (ListDeviceTokens (idt_Group identity) (idt_UserID identity)) []
    (fun l => writeJSON 200 (toDeviceTokenListItem <$> l)).

Definition deviceTokenIssueHandler (body : option deviceTokenIssueRequestBody) (now : Z) :
    M (Response deviceTokenIssueResponseBody) :=
  decoded body (fun body =>
    answer (devicetoken_Issue (idt_Group identity) (idt_UserID identity) (dib_DeviceLabel body) now)
      [bad_request [ErrDeviceLabelRequired; ErrDeviceLabelTooLong]]
      (fun result => writeJSON 201 (mkIssueResponse (dti_ID result) (dti_DeviceLabel result) (dti_Token result)))).

Definition deviceTokenRevokeHandler (deviceTokenID : string) (now : Z) : M (Response unit) :=
  answer (RevokeDeviceToken (idt_Group identity) (idt_UserID identity) deviceTokenID now) [not_found] (fun _ => NoContent).

Definition inviteCreateHandler (now : Z) : M (Response inviteCreateResponseBody) :=
  answer (invite_Issue (idt_Group identity) (idt_UserID identity) now) []
    (fun result => writeJSON 201 (mkInviteResponse (ivi_ID result) (ivi_Token result) (ivi_ExpiresAt result))).

Definition inviteListHandler : M (Response (list inviteListItem)) :=
  answer (ListInvites (idt_Group identity)) [] (fun l => writeJSON 200 (toInviteListItem <$> l)).

Definition inviteRevokeHandler (inviteID : string) (now : Z) : M (Response unit) :=
  answer (RevokeInvite (idt_Group identity) inviteID now) [not_found] (fun _ => NoContent).
End identified.

(** ** resolve.go *)

(** Where a scanned code leads, below the public base URL; the query of the
    login page names the path of the request. *)
Inductive Redirect := RedirectTo (path : string) | RedirectToLogin (token : string).
#[global] Instance Redirect_json : Json Redirect := fun _ => true.

(** [uuid.Parse], printed again; third-party. *)
Definition itemResolveHandler (uuid_Parse : string -> option string) (auth : M Identity) (token : string) :
    M (Response Redirect) :=
  r ← try auth;
  match r with
  | Err e =>
      mret (if bool_decide (e = ErrUnauthenticated) then Reply 302 (RedirectToLogin token) else problem_Write Internal)
  | Ok identity =>
      match uuid_Parse token with
      | Some id => mret (Reply 302 (RedirectTo ("/items/" ++ id)))
      | None =>
          match NewGroupID (idt_Group identity) with
          | None => mret (problem_Write Internal)
          | Some group =>
              answer (Items_GetByShortCode group token) [not_found]
                (fun item => Reply 302 (RedirectTo ("/items/" ++ ID item)))
          end
      end
  end.
