(* ===== verification/Api.v ===== *)
(** * The routes of the API (httpapi/router.go)

    Every route of [mountV1] that answers with what the database holds, as
    one type of request: its method and path are the constructor, the
    parameters of the path and the query and the decoded body its arguments.
    Matching a path to a route is done by a third-party router.  Not among them
    are the routes of files (in [Attachments]; backup in [Backup]; the upload
    of an import and QR codes nowhere), GET /items ([ItemFilter]), the bill of
    materials ([Bom]) and the reports ([Reports]); [/sync/pull] is
    [HttpSync.syncPullHandler], which reads the snapshots of its queries. *)

From S2P Require Import Prelude GoBase Schema Sql Accounts Strconv Password Services SyncReader Conflicts.
From S2P Require Import DomainServices HttpCore HttpItems HttpGroup HttpSync HttpAccounts.

Inductive api_request :=
  (* /auth *)
  | getSessions | deleteSession (sessionID : string)
  | getDeviceTokens | postDeviceToken (body : option deviceTokenIssueRequestBody) | deleteDeviceToken (deviceTokenID : string)
  | getMe | postLogout
  (* /invites *)
  | getInvites | postInvite | deleteInvite (inviteID : string)
  (* /groups *)
  | putDetailVisibility (body : option groupVisibilityUpdateRequestBody) | getDetailVisibility | getMembers
  (* /custom-field-defs *)
  | getCustomFieldDefs | postCustomFieldDef (body : option customFieldDefCreateRequestBody)
  | putCustomFieldDef (fieldDefID : string) (body : option customFieldDefUpdateRequestBody)
  | deleteCustomFieldDef (fieldDefID : string)
  (* /items *)
  | postItem (body : option itemBody) | getItem (itemID : string)
  | putItem (itemID : string) (body : option itemUpdateRequestBody) | deleteItem (itemID : string)
  | postWarranty (itemID : string) (body : option warrantyCreateRequestBody) | getWarranty (itemID : string)
  | putWarranty (itemID : string) (body : option warrantyUpdateRequestBody) | deleteWarranty (itemID : string)
  | postSale (itemID : string) (body : option saleCreateRequestBody) | getSale (itemID : string)
  | putSale (itemID : string) (body : option saleUpdateRequestBody) | deleteSale (itemID : string)
  | postPurchase (itemID : string) (body : option purchaseCreateRequestBody) | getPurchase (itemID : string)
  | putPurchase (itemID : string) (body : option purchaseUpdateRequestBody) | deletePurchase (itemID : string)
  | getIdentifications (itemID : string) | postIdentification (itemID : string) (body : option identificationCreateRequestBody)
  | putIdentification (itemID identificationID : string) (body : option identificationUpdateRequestBody)
  | deleteIdentification (itemID identificationID : string)
  | getCustomFields (itemID : string) | postCustomField (itemID : string) (body : option itemCustomFieldCreateRequestBody)
  | putCustomField (itemID customFieldID : string) (body : option itemCustomFieldUpdateRequestBody)
  | deleteCustomField (itemID customFieldID : string)
  | getStockAdjustments (itemID : string) | postStockAdjustment (itemID : string) (body : option stockAdjustmentCreateRequestBody)
  | getItemLabels (itemID : string) | putItemLabel (itemID labelID : string) | deleteItemLabel (itemID labelID : string)
  (* /labels *)
  | getLabels | postLabel (body : option labelCreateRequestBody)
  | putLabel (labelID : string) (body : option labelUpdateRequestBody) | deleteLabel (labelID : string)
  (* /locations *)
  | postLocation (body : option locationCreateRequestBody) | getLocations | getLocationTree | getLocation (locationID : string)
  | putLocation (locationID : string) (body : option locationUpdateRequestBody)
  | deleteLocation (locationID : string) (reassign : option string)
  (* /sync *)
  | postSyncPush (body : option syncPushRequestBody) | getSyncConflicts (limit after : string).

(** The routes inside [RequireOwner]. *)
Definition owner_only (r : api_request) : bool :=
  match r with
  | getInvites | postInvite | deleteInvite _ | putDetailVisibility _ | postCustomFieldDef _ | putCustomFieldDef _ _
  | deleteCustomFieldDef _ => true
  | _ => false
  end.

(** A response without its body: what is common to all routes. *)
Definition without_body {B} (r : Response B) : Response unit :=
  match r with Reply s _ => Reply s tt | NoContent => NoContent | Failure p x => Failure p x end.

Definition headless {B} (m : M (Response B)) : M (Response unit) := r ← m; mret (without_body r).

Section api.
Context `{Entropy, Sha256, SortBy}.

Definition route (identity : Identity) (caller : Caller) (now : Z) (r : api_request) : M (Response unit) :=
  let g := idt_Group identity in
  match r with
  | getSessions => headless (sessionsListHandler identity) | deleteSession s => headless (sessionRevokeHandler identity s now)
  | getDeviceTokens => headless (deviceTokensListHandler identity)
  | postDeviceToken b => headless (deviceTokenIssueHandler identity b now)
  | deleteDeviceToken d => headless (deviceTokenRevokeHandler identity d now)
  | getMe => headless (authMeHandler g identity) | postLogout => headless (logoutHandler identity caller now)
  | getInvites => headless (inviteListHandler identity) | postInvite => headless (inviteCreateHandler identity now)
  | deleteInvite i => headless (inviteRevokeHandler identity i now)
  | putDetailVisibility b => headless (groupVisibilityUpdateHandler g b now)
  | getDetailVisibility => headless (groupVisibilityGetHandler g) | getMembers => headless (memberListHandler g)
  | getCustomFieldDefs => headless (customFieldDefListHandler g)
  | postCustomFieldDef b => headless (customFieldDefCreateHandler g b now)
  | putCustomFieldDef d b => headless (customFieldDefUpdateHandler g d b now)
  | deleteCustomFieldDef d => headless (customFieldDefDeleteHandler g d now)
  | postItem b => headless (itemCreateHandler g b now) | getItem i => headless (itemGetHandler g i)
  | putItem i b => headless (itemUpdateHandler g i b now) | deleteItem i => headless (itemDeleteHandler g i now)
  | postWarranty i b => headless (warrantyCreateHandler g i b now) | getWarranty i => headless (warrantyGetHandler g i)
  | putWarranty i b => headless (warrantyUpdateHandler g i b now) | deleteWarranty i => headless (warrantyDeleteHandler g i now)
  | postSale i b => headless (saleCreateHandler g i b now) | getSale i => headless (saleGetHandler g i)
  | putSale i b => headless (saleUpdateHandler g i b now) | deleteSale i => headless (saleDeleteHandler g i now)
  | postPurchase i b => headless (purchaseCreateHandler g i b now) | getPurchase i => headless (purchaseGetHandler g i)
  | putPurchase i b => headless (purchaseUpdateHandler g i b now) | deletePurchase i => headless (purchaseDeleteHandler g i now)
  | getIdentifications i => headless (identificationListHandler g i)
  | postIdentification i b => headless (identificationCreateHandler g i b now)
  | putIdentification i d b => headless (identificationUpdateHandler g i d b now)
  | deleteIdentification i d => headless (identificationDeleteHandler g i d now)
  | getCustomFields i => headless (itemCustomFieldListHandler g i)
  | postCustomField i b => headless (itemCustomFieldCreateHandler g i b now)
  | putCustomField i d b => headless (itemCustomFieldUpdateHandler g i d b now)
  | deleteCustomField i d => headless (itemCustomFieldDeleteHandler g i d now)
  | getStockAdjustments i => headless (stockAdjustmentListHandler g i)
  | postStockAdjustment i b => headless (stockAdjustmentCreateHandler g i b now)
  | getItemLabels i => headless (itemLabelListHandler g i) | putItemLabel i l => headless (itemLabelAttachHandler g i l now)
  | deleteItemLabel i l => headless (itemLabelDetachHandler g i l now)
  | getLabels => headless (labelListHandler g) | postLabel b => headless (labelCreateHandler g b now)
  | putLabel l b => headless (labelUpdateHandler g l b now) | deleteLabel l => headless (labelDeleteHandler g l now)
  | postLocation b => headless (locationCreateHandler g b now) | getLocations => headless (locationListHandler g)
  | getLocationTree => headless (locationTreeHandler g) | getLocation l => headless (locationGetHandler g l)
  | putLocation l b => headless (locationUpdateHandler g l b now)
  | deleteLocation l t => headless (locationDeleteHandler g l t now)
  | postSyncPush b => headless (syncPushHandler g b now) | getSyncConflicts l a => headless (syncConflictsHandler g l a)
  end.

(** The routes for which only the cookie is accepted. *)
Definition session_only (r : api_request) : bool :=
  match r with postDeviceToken _ | postLogout => true | _ => false end.

Definition mountV1 (minimum : option (string * (Z * Z * Z))) (version : option string) (caller : Caller) (now : Z)
    (r : api_request) : M (Response unit) :=
  ClientVersion minimum version (
    TenantScope
      (if session_only r then session_Authenticate (cl_Credentials caller) now else Authenticate (cl_Credentials caller) now)
      (fun identity =>
        if owner_only r then RequireOwner (fun identity => route identity caller now r) identity
        else route identity caller now r)).
End api.
