(* ===== verification/ApiProperties.v ===== *)
(** * Serving the API

    Every route of [Api] but the push is atomic: an answer that is a problem
    has changed nothing, and any other answer stands for at most one event of
    [System], of the caller's own group.  Any sequence of API requests, the
    push included, therefore keeps what the events keep: the constraints of
    the schema, the forest of locations, the distinct names of labels, and
    the data of other groups. *)

From S2P Require Import Prelude GoBase Schema Sql Evolution Queries PushRepo Items Blocks Details.
From S2P Require Import Exec History Labels Locations LocationTree PushFields PushHandlers PushCommit PushMerge.
From S2P Require Import Accounts ImportCommit SyncReader Demo System Integrity RepositoryProperties.
From S2P Require Import Strconv Password Services Reads Conflicts DomainServices.
From S2P Require Import PullProperties HttpCore HttpItems HttpGroup HttpSync HttpAccounts Api.

(** ** What a handler does to the database *)

(** The settings of a group, its custom field definitions and its invites. *)
Definition settings_event (e : event) : bool :=
  match e with
  | OfGroup _ (CustomFieldDefsCreate _ | CustomFieldDefsUpdate _ | CustomFieldDefsDelete _ _ | GroupVisibilityUpdate _) => true
  | OfAccount (InviteCreate _ | InviteRevoke _ _ _ | InviteRedeem _) => true
  | _ => false
  end.

(** The rows of the attachments, which no route here writes. *)
Definition attachment_event (e : event) : bool :=
  match e with
  | OfGroup _ (AttachmentsCreate _ | AttachmentsSetThumbnail _ _ _ _ | AttachmentsDelete _ _ _ | AttachmentsClearThumbnail _ _ _) => true
  | _ => false
  end.

(** What a caller may do: events of its group that leave the attachments
    alone, and only the owner may change the settings. *)
Definition event_of (identity : Identity) (e : event) : Prop :=
  (forall w, event_group w e = Some (idt_Group identity)) /\ (settings_event e = true -> idt_Role identity = role_Owner) /\
  attachment_event e = false.

Section effects.
Context `{Entropy} (identity : Identity).
#[local] Abbreviation g := (idt_Group identity).

(** Every transaction that writes is an event of the caller; what was drawn
    between two of them does not matter. *)
Inductive moves : DB -> DB -> Prop :=
  | moves_refl db : moves db db
  | moves_event db n e db' :
      event_of identity e -> moves (wdb (handle_event e (mkWorld db n)).2) db' -> moves db db'.

Lemma moves_one w e : event_of identity e -> moves (wdb w) (wdb (handle_event e w).2).
Proof. intros He. destruct w as [db n]. apply (moves_event db n e); [done|apply moves_refl]. Qed.

Lemma moves_trans a b c : moves a b -> moves b c -> moves a c.
Proof. induction 1 as [|db n e db' He _ IH]; intros Hc; [done|]. apply (moves_event db n e); auto. Qed.

Lemma moves_steps (R : relation DB) `{!PreOrder R} a b :
  (forall e, event_of identity e -> steps R (handle_event e)) -> moves a b -> R a b.
Proof.
  intros HR. induction 1 as [|db n e db' He _ IH]; [reflexivity|]. etrans; [|exact IH]. by apply (HR e He (mkWorld db n)).
Qed.

Lemma moves_history a b : moves a b -> history a b.
Proof.
  induction 1 as [|db n e db' He _ IH]; [apply history_refl|]. eapply history_trans; [|exact IH].
  pose proof (evolves_event (mkWorld db n) e) as Hev. rewrite (proj1 He _) in Hev.
  by eapply history_step; [apply history_refl|exact Hev].
Qed.

Lemma moves_group_part h a b : h <> g -> moves a b -> group_part h b = group_part h a.
Proof.
  intros Hh. induction 1 as [|db n e db' He _ IH]; [done|]. rewrite IH.
  pose proof (evolves_event (mkWorld db n) e) as Hev. rewrite (proj1 He _) in Hev. by eapply group_part_evo.
Qed.

(** No event, or one. *)
Definition at_most_one (a b : DB) : Prop :=
  b = a \/ exists n e, event_of identity e /\ b = wdb (handle_event e (mkWorld a n)).2.

Lemma at_most_one_moves a b : at_most_one a b -> moves a b.
Proof. intros [->|(n & e & He & ->)]; [apply moves_refl|]. by apply (moves_one (mkWorld a n)). Qed.

Lemma discard_unit (m : M unit) w : discard m w = m w.
Proof. unfold discard, mbind, prog_bind. by destruct (m w) as [[[]|e] w']. Qed.

(** ** Operations of the services: at most one event, and none on an error;
    [Q] is what can be said of the result. *)

Definition op {A} (I : DB -> Prop) (Q : A -> Prop) (m : M A) : Prop := forall w, I (wdb w) ->
  match m w with
  | (Err _, w') => wdb w' = wdb w
  | (Ok a, w') => at_most_one (wdb w) (wdb w') /\ Q a
  end.

Definition anything {A} (a : A) : Prop := True.

Section op_rules.
Context {A B : Type} (I : DB -> Prop).
Implicit Types (m : M A) (k : A -> M B).

(** A repository method, as the event that [System] makes of it. *)
Lemma op_event (Q : A -> Prop) m e :
  event_of identity e -> (forall w, handle_event e w = discard m w) ->
  (forall w a w', I (wdb w) -> m w = (Ok a, w') -> Q a) -> op I Q m.
Proof.
  intros He Hm HQ [db n] Hw. specialize (HQ (mkWorld db n)). destruct (m (mkWorld db n)) as [[a|err] w'] eqn:E.
  - split; [right|by eapply HQ]. exists n, e. split; [exact He|].
    rewrite Hm. unfold discard, mbind, prog_bind. simpl. by rewrite E.
  - apply (handle_event_err e err (mkWorld db n) w'). rewrite Hm. unfold discard, mbind, prog_bind. by rewrite E.
Qed.

Lemma op_event_any m e :
  event_of identity e -> (forall w, handle_event e w = discard m w) -> op I anything m.
Proof. intros He Hm. eapply op_event; done. Qed.

Lemma op_readonly m : readonly m -> op I anything m.
Proof.
  intros Hm w _. specialize (Hm w). destruct (m w) as [[a|err] w']; simpl in Hm; [|done].
  split; [left; exact Hm|done].
Qed.

Lemma op_bind_readonly (Q : B -> Prop) m k : readonly m -> (forall a, op I Q (k a)) -> op I Q (m ≫= k).
Proof.
  intros Hm Hk w Hw. specialize (Hm w). unfold mbind, prog_bind. destruct (m w) as [[a|err] w'] eqn:E; simpl in Hm; [|done].
  specialize (Hk a w'). rewrite Hm in Hk. by apply Hk.
Qed.

Lemma op_throw (Q : A -> Prop) e : op I Q (throw e).
Proof. intros w _. done. Qed.

(** What is done with the value afterwards draws nothing and writes nothing. *)
Lemma op_then_ret (Q : A -> Prop) m (f : A -> B) : op I Q m -> op I anything (a ← m; mret (f a)).
Proof.
  intros Hm w Hw. specialize (Hm w Hw). unfold mbind, prog_bind. destruct (m w) as [[a|err] w']; [|done].
  split; [apply Hm|done].
Qed.
End op_rules.

(** ** Handlers *)

Definition good {B} (I : DB -> Prop) (m : M (Response B)) : Prop := forall w, I (wdb w) ->
  exists r w', m w = (Ok r, w') /\ at_most_one (wdb w) (wdb w') /\ (failed r = true -> wdb w' = wdb w).

Section good_rules.
Context {A B : Type} (I : DB -> Prop).

Lemma good_ret (r : Response B) : good I (mret r).
Proof. intros w _. exists r, w. split_and!; [done|by left|done]. Qed.

Lemma failed_write_problem px : failed (write_problem (B := B) px) = true.
Proof. by destruct px as [p []]. Qed.

Lemma good_answer (Q : A -> Prop) m cases (ok : A -> Response B) :
  op I Q m -> (forall a, Q a -> failed (ok a) = false) -> good I (HttpCore.answer m cases ok).
Proof.
  intros Hm Hok w Hw. specialize (Hm w Hw). unfold HttpCore.answer, try, mbind, prog_bind.
  destruct (m w) as [[a|err] w'].
  - eexists _, w'. split; [reflexivity|]. destruct Hm as [Hone Ha]. split; [exact Hone|]. by rewrite Hok.
  - eexists _, w'. split; [reflexivity|]. split; [by left|done].
Qed.

Lemma good_read (m : M A) cases (ok : A -> Response B) : readonly m -> good I (HttpCore.answer m cases ok).
Proof.
  intros Hm w _. specialize (Hm w). unfold HttpCore.answer, try, mbind, prog_bind.
  destruct (m w) as [[a|err] w']; simpl in Hm; (eexists _, w'; split; [reflexivity|]; split; [by left|done]).
Qed.

Lemma good_decoded {T} (body : option T) (k : T -> M (Response B)) :
  (forall b, body = Some b -> good I (k b)) -> good I (decoded body k).
Proof. intros Hk. destruct body as [b|]; [by apply Hk|apply good_ret]. Qed.

Lemma good_headless (m : M (Response B)) : good I m -> good I (headless m).
Proof.
  intros Hm w Hw. destruct (Hm w Hw) as (r & w' & E & Hone & Hf). unfold headless, mbind, prog_bind. rewrite E.
  exists (without_body r), w'. split; [reflexivity|]. split; [exact Hone|]. by destruct r.
Qed.
End good_rules.
End effects.

(** ** The services *)

(** A call of a repository, as its event. *)
Ltac op_call :=
  lazymatch goal with
  | |- op ?i _ _ ?m =>
      let g := constr:(idt_Group i) in
      let ev r := (apply (op_event_any i _ _ (OfGroup g r)); [by split_and!|done]) in
      let acc a := (apply (op_event_any i _ _ (OfAccount a)); [by split_and!|intros w; by rewrite discard_unit]) in
      lazymatch m with
      | Items_Create _ ?p => ev (ItemsCreate p)
      | Items_Update _ ?p => ev (ItemsUpdate p)
      | Items_Delete _ ?i ?now => ev (ItemsDelete i now)
      | StockAdjustments_Create _ ?p => ev (StockAdjustmentsCreate p)
      | Warranty_Create _ ?p => ev (WarrantyCreate p)
      | Warranty_Update _ ?p => ev (WarrantyUpdate p)
      | Warranty_Delete _ ?i ?now => ev (WarrantyDelete i now)
      | Sale_Create _ ?p => ev (SaleCreate p)
      | Sale_Update _ ?p => ev (SaleUpdate p)
      | Sale_Delete _ ?i ?now => ev (SaleDelete i now)
      | Purchase_Create _ ?p => ev (PurchaseCreate p)
      | Purchase_Update _ ?p => ev (PurchaseUpdate p)
      | Purchase_Delete _ ?i ?now => ev (PurchaseDelete i now)
      | Identifications_Create _ ?p => ev (IdentificationsCreate p)
      | Identifications_Update _ ?p => ev (IdentificationsUpdate p)
      | Identifications_Delete _ ?i ?d ?now => ev (IdentificationsDelete i d now)
      | ItemCustomFields_Delete _ ?i ?d ?now => ev (ItemCustomFieldsDelete i d now)
      | CustomFieldDefs_Create _ ?p => ev (CustomFieldDefsCreate p)
      | CustomFieldDefs_Update _ ?p => ev (CustomFieldDefsUpdate p)
      | CustomFieldDefs_Delete _ ?d ?now => ev (CustomFieldDefsDelete d now)
      | Labels_Create _ ?p => ev (LabelsCreate p)
      | Labels_Update _ ?p => ev (LabelsUpdate p)
      | Labels_Delete _ ?i ?now => ev (LabelsDelete i now)
      | ItemLabels_Attach _ ?p => ev (ItemLabelsAttach p)
      | ItemLabels_Detach _ ?i ?l ?now => ev (ItemLabelsDetach i l now)
      | Locations_Create _ ?p => ev (LocationsCreate p)
      | Locations_Update _ ?p => ev (LocationsUpdate p)
      | Locations_Delete _ ?p => ev (LocationsDelete p)
      | GroupVisibility_Update _ ?p => ev (GroupVisibilityUpdate p)
      | RevokeSession _ ?u ?s ?now => acc (SessionRevoke g u s now)
      | RevokeCallingSession _ ?u ?h ?now => acc (CallingSessionRevoke g u h now)
      | RevokeDeviceToken _ ?u ?d ?now => acc (DeviceTokenRevoke g u d now)
      | RevokeInvite _ ?i ?now => acc (InviteRevoke g i now)
      | CreateDeviceToken ?p => acc (DeviceTokenCreate p)
      | CreateInvite ?p => acc (InviteCreate p)
      end
  end.

Section readonly_services.
Context `{Entropy, Sha256}.

Lemma readonly_ItemService_newID : readonly ItemService.newID.
Proof. apply readonly_new_uuid. Qed.
Lemma readonly_newShortCode : readonly ItemService.newShortCode.
Proof. unfold ItemService.newShortCode. apply readonly_bind; [eauto with evo|]. intros [raw|]; eauto with evo. Qed.
Lemma readonly_LabelService_newID : readonly LabelService.newID.
Proof. apply readonly_new_uuid. Qed.
Lemma readonly_LocationService_newID : readonly LocationService.newID.
Proof. apply readonly_new_uuid. Qed.
Lemma readonly_CustomFieldService_newID : readonly CustomFieldService.newID.
Proof. apply readonly_new_uuid. Qed.
Lemma readonly_bearertoken_New : readonly bearertoken_New.
Proof.
  unfold bearertoken_New, random_bytes. apply readonly_bind; [|intros []; eauto with evo].
  apply readonly_bind; eauto with evo.
Qed.
Lemma readonly_resolveFieldDef g d t : readonly (ItemService.resolveFieldDef g d t).
Proof.
  unfold ItemService.resolveFieldDef, CustomFieldDefs_Get, GetCustomFieldDef. case_match; [eauto with evo|].
  apply readonly_bind; [eauto with evo|]. intros [|[]]; eauto with evo.
Qed.
End readonly_services.

#[export] Hint Resolve readonly_ItemService_newID readonly_newShortCode readonly_LabelService_newID
  readonly_LocationService_newID readonly_CustomFieldService_newID readonly_bearertoken_New readonly_resolveFieldDef : evo.

Ltac solve_op :=
  repeat first
    [ op_call
    | apply op_throw
    | apply op_bind_readonly; [solve [eauto with evo]|intros ?]
    | match goal with |- op _ _ _ (match ?x with _ => _ end) => destruct x end ].

Section services_ops.
Context `{Entropy, Sha256} (identity : Identity) (I : DB -> Prop).
#[local] Abbreviation g := (idt_Group identity).

Lemma op_create_attempts id req now n : op identity I anything (ItemService.create_attempts g id req now n).
Proof.
  induction n as [|n IH]; cbn [ItemService.create_attempts]; [apply op_throw|].
  apply op_bind_readonly; [eauto with evo|]. intros code w Hw.
  match goal with |- context [try (Items_Create g ?p)] =>
    assert (Hop : op identity I anything (Items_Create g p)) by op_call; specialize (Hop w Hw) end.
  unfold try, mbind, prog_bind in *. destruct (Items_Create g _ w) as [[item|err] w']; [done|].
  specialize (IH w'). rewrite Hop in IH. destruct err; try done. by apply IH.
Qed.

Lemma op_ItemService_Create req now : op identity I anything (ItemService.Create g req now).
Proof. unfold ItemService.Create. do 2 (apply op_bind_readonly; [eauto with evo|intros ?]). apply op_create_attempts. Qed.
Lemma op_ItemService_Update req now : op identity I anything (ItemService.Update g req now).
Proof. unfold ItemService.Update. solve_op. Qed.
Lemma op_CreateStockAdjustment req now : op identity I anything (ItemService.CreateStockAdjustment g req now).
Proof. unfold ItemService.CreateStockAdjustment. solve_op. Qed.
Lemma op_CreateWarranty req now : op identity I anything (ItemService.CreateWarranty g req now).
Proof. unfold ItemService.CreateWarranty. solve_op. Qed.
Lemma op_UpdateWarranty req now : op identity I anything (ItemService.UpdateWarranty g req now).
Proof. unfold ItemService.UpdateWarranty. solve_op. Qed.
Lemma op_CreateSale req now : op identity I anything (ItemService.CreateSale g req now).
Proof. unfold ItemService.CreateSale. solve_op. Qed.
Lemma op_UpdateSale req now : op identity I anything (ItemService.UpdateSale g req now).
Proof. unfold ItemService.UpdateSale. solve_op. Qed.
Lemma op_CreatePurchase req now : op identity I anything (ItemService.CreatePurchase g req now).
Proof. unfold ItemService.CreatePurchase. solve_op. Qed.
Lemma op_UpdatePurchase req now : op identity I anything (ItemService.UpdatePurchase g req now).
Proof. unfold ItemService.UpdatePurchase. solve_op. Qed.
Lemma op_CreateIdentification req now : op identity I anything (ItemService.CreateIdentification g req now).
Proof. unfold ItemService.CreateIdentification. solve_op. Qed.
Lemma op_UpdateIdentification req now : op identity I anything (ItemService.UpdateIdentification g req now).
Proof. unfold ItemService.UpdateIdentification. solve_op. Qed.
Lemma op_CreateLabel req now : op identity I anything (LabelService.CreateLabel g req now).
Proof. unfold LabelService.CreateLabel. solve_op. Qed.
Lemma op_UpdateLabel req now : op identity I anything (LabelService.UpdateLabel g req now).
Proof. unfold LabelService.UpdateLabel. solve_op. Qed.
Lemma op_AttachLabel i l now : op identity I anything (LabelService.AttachLabel g i l now).
Proof. unfold LabelService.AttachLabel. solve_op. Qed.
Lemma op_DetachLabel i l now : op identity I anything (LabelService.DetachLabel g i l now).
Proof. unfold LabelService.DetachLabel. solve_op. Qed.
Lemma op_LocationService_Create req now : op identity I anything (LocationService.Create g req now).
Proof. unfold LocationService.Create. solve_op. Qed.
Lemma op_LocationService_Update req now : op identity I anything (LocationService.Update g req now).
Proof. unfold LocationService.Update. solve_op. Qed.
Lemma op_CreateCustomFieldDef req now : idt_Role identity = role_Owner -> op identity I anything (CustomFieldService.CreateCustomFieldDef g req now).
Proof. intros Howner. unfold CustomFieldService.CreateCustomFieldDef. solve_op. Qed.
Lemma op_UpdateCustomFieldDef req now : idt_Role identity = role_Owner -> op identity I anything (CustomFieldService.UpdateCustomFieldDef g req now).
Proof. intros Howner. unfold CustomFieldService.UpdateCustomFieldDef. solve_op. Qed.
Lemma op_UpdateVisibility req now : idt_Role identity = role_Owner -> op identity I anything (GroupService.UpdateVisibility g req now).
Proof. intros Howner. unfold GroupService.UpdateVisibility. solve_op. Qed.
End services_ops.

(** ** Custom fields: the answer shows the number that was asked for *)

Definition fields_keyed (db : DB) : Prop := keyed (item_custom_fields db).
Definition finite_number (n : option float64) : Prop := default true (float64_finite <$> n) = true.
Definition finite_row (r : ItemCustomField) : Prop := finite_number (icf_NumberValue (Cols r)).

Section custom_fields.
Context `{Entropy} (g : string).

Lemma GetItemCustomField_ok i d row w w' :
  fields_keyed (wdb w) -> GetItemCustomField g i d w = (Ok row, w') ->
  w' = w /\ item_custom_fields (wdb w) !! d = Some row /\
  ((GroupID row =?s g) && (icf_ItemID (Cols row) =?s i) && (ID row =?s d) && live row)%bool = true.
Proof.
  intros Hk Hr. apply (get_row_ok _ _ _ _ d) in Hr as (-> & Hrow & HP); [done|done|intros ?; by bool_facts].
Qed.

Lemma createItemCustomFieldTx_number p w row w' :
  fields_keyed (wdb w) -> createItemCustomFieldTx g p w = (Ok row, w') ->
  icf_NumberValue (Cols row) = sqlite_real (ccf_NumberValue p).
Proof.
  intros Hk Hr. unfold createItemCustomFieldTx, GetItem, CreateItemCustomField in Hr.
  repeat (apply prog_bind_inv_ok in Hr as (? & ? & ? & Hr)). run_inv.
  apply GetItemCustomField_ok in Hr as (_ & Hrow & _); simpl in *.
  - rewrite lookup_insert_eq in Hrow. by injection Hrow as <-.
  - intros k r. simpl. destruct (decide (k = ccf_ID p)) as [->|Hne]; [rewrite lookup_insert_eq; by intros [= <-]|].
    rewrite lookup_insert_ne by done. apply Hk.
Qed.

Lemma updateItemCustomFieldTx_number p w row w' :
  fields_keyed (wdb w) -> updateItemCustomFieldTx g p w = (Ok row, w') ->
  icf_NumberValue (Cols row) = sqlite_real (ucf_NumberValue p).
Proof.
  intros Hk Hr. unfold updateItemCustomFieldTx in Hr.
  apply prog_bind_inv_ok in Hr as (cur & w1 & Hcur%no_rows_as_ok & Hr).
  apply GetItemCustomField_ok in Hcur as (-> & Hcur & HP); [|done].
  destruct (Version cur =? ucf_ExpectedVersion p)%Z eqn:Hv; [|done]. simpl in Hr. unfold UpdateItemCustomField in Hr.
  repeat (apply prog_bind_inv_ok in Hr as (? & ? & ? & Hr)). run_inv.
  apply GetItemCustomField_ok in Hr as (_ & Hrow & _); simpl in *.
  - rewrite update_where_lookup, Hcur in Hrow. simpl in Hrow.
    assert (HPc : ((GroupID cur =?s g) && (icf_ItemID (Cols cur) =?s ucf_ItemID p) && (ID cur =?s ucf_ID p)
      && (Version cur =? ucf_ExpectedVersion p)%Z && live cur)%bool = true) by (rewrite Hv; bool_facts; solve_row_test).
    rewrite HPc in Hrow. by injection Hrow as <-.
  - intros k r. simpl. rewrite update_where_lookup. destruct (item_custom_fields (wdb w) !! k) as [r0|] eqn:E; [|done].
    simpl. intros [= <-]. rewrite <- (Hk _ _ E). match goal with |- context [if ?b then _ else _] => by destruct b end.
Qed.
End custom_fields.
Create HintDb ops discriminated.

Section custom_field_ops.
Context `{Entropy} (identity : Identity).
#[local] Abbreviation g := (idt_Group identity).

Lemma sqlite_real_finite n : finite_number n -> finite_number (sqlite_real n).
Proof. by destruct n as [[]|]. Qed.

Lemma op_ItemCustomFields_Create p :
  finite_number (ccf_NumberValue p) -> op identity fields_keyed finite_row (ItemCustomFields_Create g p).
Proof.
  intros Hn. apply (op_event identity _ _ _ (OfGroup g (ItemCustomFieldsCreate p))); [by split|done|].
  intros w row w' Hk [_ Hr]%writeTx_ok. unfold finite_row. rewrite (createItemCustomFieldTx_number _ _ _ _ _ Hk Hr).
  by apply sqlite_real_finite.
Qed.

Lemma op_ItemCustomFields_Update p :
  finite_number (ucf_NumberValue p) -> op identity fields_keyed finite_row (ItemCustomFields_Update g p).
Proof.
  intros Hn. apply (op_event identity _ _ _ (OfGroup g (ItemCustomFieldsUpdate p))); [by split|done|].
  intros w row w' Hk [_ Hr]%writeTx_ok.
  apply prog_bind_inv_ok in Hr as (before & w1 & Hb%try_ok & Hr).
  assert (w1 = w) as ->.
  { unfold GetItemCustomField in Hb. match type of Hb with select_one ?P w = _ => pose proof (select_one_state P w) as Hs end.
    by rewrite Hb in Hs. }
  apply prog_bind_inv_ok in Hr as (row' & w2 & Hup%updateItemCustomFieldTx_number & Hr); [|done].
  destruct before as [before|]; [|done]. apply prog_bind_inv_ok in Hr as (u & w3 & _ & Hr). apply ret_ok in Hr as [-> ->].
  unfold finite_row. rewrite Hup. by apply sqlite_real_finite.
Qed.

Lemma op_CreateItemCustomField req now :
  finite_number (ItemService.cfr_NumberValue req) ->
  op identity fields_keyed finite_row (ItemService.CreateItemCustomField g req now).
Proof.
  intros Hn. unfold ItemService.CreateItemCustomField.
  do 3 (apply op_bind_readonly; [eauto with evo|intros ?]). by apply op_ItemCustomFields_Create.
Qed.

Lemma op_UpdateItemCustomField req now :
  finite_number (ItemService.ufr_NumberValue req) ->
  op identity fields_keyed finite_row (ItemService.UpdateItemCustomField g req now).
Proof.
  intros Hn. unfold ItemService.UpdateItemCustomField.
  do 3 (apply op_bind_readonly; [eauto with evo|intros ?]). by apply op_ItemCustomFields_Update.
Qed.
End custom_field_ops.

(** ** Reads *)

Section reads.
Context `{Entropy, SortBy}.

Lemma readonly_of_item {A} g i (m : M A) : readonly m -> readonly (of_item g i m).
Proof. intros Hm. unfold of_item, GetItem. apply readonly_bind; eauto with evo. Qed.

Lemma readonly_Locations_Tree g : readonly (Locations_Tree g).
Proof. intros w. reflexivity. Qed.

Lemma readonly_ListConflicts g after n : readonly (ListConflicts g after n).
Proof.
  unfold ListConflicts. case_match; [eauto with evo|]. apply readonly_bind; [by intros w|]. intros rows. eauto with evo.
Qed.

Ltac read_once := intros w; unfold mbind, prog_bind, lift, reject;
  repeat (match goal with |- context [if ?b then _ else _] => destruct b end; simpl); done.

Lemma readonly_ListSessions g u : readonly (ListSessions g u).
Proof. unfold ListSessions. read_once. Qed.
Lemma readonly_ListDeviceTokens g u : readonly (ListDeviceTokens g u).
Proof. unfold ListDeviceTokens. read_once. Qed.
Lemma readonly_ListInvites g : readonly (ListInvites g).
Proof. unfold ListInvites. read_once. Qed.
Lemma readonly_Members_List g : readonly (Members_List g).
Proof. unfold Members_List. read_once. Qed.
Lemma readonly_ListForItem g i : readonly (ItemLabels_ListForItem g i).
Proof.
  unfold ItemLabels_ListForItem, GetItem. do 2 (apply readonly_bind; [eauto with evo|intros ?]). by intros w.
Qed.
End reads.

Ltac solve_readonly :=
  first [ apply readonly_Locations_Tree | apply readonly_ListConflicts | apply readonly_ListSessions | apply readonly_ListDeviceTokens
        | apply readonly_ListInvites | apply readonly_Members_List | apply readonly_ListForItem
        | apply readonly_of_item; intros ?; reflexivity
        | solve [eauto with evo]
        | solve [unfold Items_Get, Warranty_Get, Sale_Get, Purchase_Get, Labels_List, ItemLabels_ListForItem, Locations_List,
            Locations_Get, CustomFieldDefs_List, GroupVisibility_Get, GetGroupVisibility, GetItem; eauto with evo] ].

Section tokens.
Context `{Entropy, Sha256} (identity : Identity) (I : DB -> Prop).
#[local] Abbreviation g := (idt_Group identity).

Lemma op_devicetoken_Issue u label now : op identity I anything (devicetoken_Issue g u label now).
Proof.
  unfold devicetoken_Issue. cbv zeta. do 3 (case_match; [apply op_throw|]).
  do 2 (apply op_bind_readonly; [eauto with evo|intros ?]).
  apply (op_then_ret identity I anything (CreateDeviceToken _) (fun _ => _)). op_call.
Qed.

Lemma op_invite_Issue u now : idt_Role identity = role_Owner -> op identity I anything (invite_Issue g u now).
Proof.
  intros Howner. unfold invite_Issue. do 2 (case_match; [apply op_throw|]).
  do 2 (apply op_bind_readonly; [eauto with evo|intros ?]). cbv zeta.
  apply (op_then_ret identity I anything (CreateInvite _) (fun _ => _)). op_call.
Qed.
End tokens.

(** ** Every route *)

(** A decoded number is finite: JSON has no other. *)
Definition finite_body (r : api_request) : Prop :=
  match r with
  | postCustomField _ (Some b) => finite_number (fcb_NumberValue b)
  | putCustomField _ _ (Some b) => finite_number (fub_NumberValue b)
  | _ => True
  end.

Ltac solve_good :=
  repeat first
    [ apply good_ret
    | apply good_decoded; intros ? ?
    | match goal with |- good _ _ (match ?x with _ => _ end) => destruct x eqn:? end
    | eapply good_answer; [solve [solve_op | eauto with ops]|done]
    | apply good_read; solve_readonly ].

#[export] Hint Resolve op_ItemService_Create op_ItemService_Update op_CreateStockAdjustment op_CreateWarranty
  op_UpdateWarranty op_CreateSale op_UpdateSale op_CreatePurchase op_UpdatePurchase op_CreateIdentification
  op_UpdateIdentification op_CreateLabel op_UpdateLabel op_AttachLabel op_DetachLabel op_LocationService_Create
  op_LocationService_Update op_CreateCustomFieldDef op_UpdateCustomFieldDef op_UpdateVisibility
  op_devicetoken_Issue op_invite_Issue : ops.

Section routes.
Context `{Entropy, Sha256, SortBy}.

Lemma good_route identity caller now r :
  (forall b, r <> postSyncPush b) -> finite_body r ->
  (owner_only r = true -> idt_Role identity = role_Owner) -> good identity fields_keyed (route identity caller now r).
Proof.
  intros Hp Hf Ho. destruct r; cbn [route]; try (specialize (Ho eq_refl)); apply good_headless;
    match goal with |- good _ _ ?m => let h := head_of m in try unfold h end; try (solve [solve_good]).
  - apply good_decoded. intros b ->. eapply good_answer; [by apply op_CreateItemCustomField|].
    intros row Hrow. unfold writeJSON, json_ok, itemCustomFieldBody_json. simpl. by rewrite Hrow.
  - apply good_decoded. intros b ->. eapply good_answer; [by apply op_UpdateItemCustomField|].
    intros row Hrow. unfold writeJSON, json_ok, itemCustomFieldBody_json. simpl. by rewrite Hrow.
  - apply good_read, readonly_bind; [apply readonly_Locations_Tree|]. intros [nodes roots]. case_match; eauto with evo.
  - by destruct (Hp body).
Qed.

(** The push is a sequence of events. *)
#[local] Instance moves_preorder identity : PreOrder (moves identity).
Proof. split; [intros db; apply moves_refl|intros a b c; apply moves_trans]. Qed.

Lemma moves_readonly identity {A} (m : M A) : readonly m -> steps (moves identity) m.
Proof. apply steps_readonly, _. Qed.

Lemma steps_push_loop identity now ms r : steps (moves identity) (push_loop (idt_Group identity) now ms r).
Proof.
  revert r. induction ms as [|m ms IH]; intros r; cbn [push_loop]; [apply moves_readonly; eauto with evo|].
  apply steps_bind; [apply _| |intros; apply IH]. intros w.
  set (g := idt_Group identity).
  replace (wdb (ApplyMutation g (to_mutation now m) w).2) with (wdb (handle_event (OfGroup g (PushOne (to_mutation now m))) w).2).
  - by apply moves_one.
  - simpl. unfold discard, mbind, prog_bind. by destruct (ApplyMutation g (to_mutation now m) w) as [[|] ?].
Qed.

Lemma readonly_check_mutation g m : readonly (check_mutation g m).
Proof.
  unfold check_mutation, validatePushMutationFields. repeat (apply readonly_bind; [eauto with evo|intros ?]).
  repeat (case_match; eauto with evo); repeat (apply readonly_bind; [eauto with evo|intros ?]); repeat case_match; eauto with evo.
Qed.

Lemma steps_syncPush identity body now : steps (moves identity) (syncPushHandler (idt_Group identity) body now).
Proof.
  unfold syncPushHandler. destruct body as [body|]; [|by apply moves_readonly]. cbn [decoded].
  case_match; [by apply moves_readonly|]. apply steps_bind; [apply _| |].
  - apply steps_try, steps_for_each; [apply _|]. intros m. apply moves_readonly, readonly_check_mutation.
  - intros [[]|e]; [|by apply moves_readonly]. unfold HttpCore.answer.
    apply steps_bind; [apply _| |intros; by apply moves_readonly]. apply steps_try.
    unfold Push. apply steps_bind; [apply _|apply steps_push_loop|]. intros result.
    apply steps_bind; [apply _| |intros; by apply moves_readonly].
    apply moves_readonly. unfold Watermark. apply readonly_bind; eauto with evo.
Qed.
End routes.

(** ** From the request to the route *)

Section mount.
Context `{Entropy, Sha256, SortBy}.

Definition authentication (caller : Caller) (now : Z) (r : api_request) : M Identity :=
  if session_only r then session_Authenticate (cl_Credentials caller) now else Authenticate (cl_Credentials caller) now.

Lemma readonly_session_Authenticate c now : readonly (session_Authenticate c now).
Proof.
  unfold session_Authenticate. repeat case_match; eauto with evo. apply readonly_bind.
  - apply readonly_try. unfold SessionAuth. apply readonly_bind; [|intros [? ?]; eauto with evo].
    apply readonly_no_rows_as. unfold GetSessionForAuth. repeat (apply readonly_bind; [eauto with evo|intros ?]). eauto with evo.
  - intros []; repeat case_match; eauto with evo.
Qed.

Lemma readonly_devicetoken_Authenticate c : readonly (devicetoken_Authenticate c).
Proof.
  unfold devicetoken_Authenticate. repeat case_match; eauto with evo. apply readonly_bind.
  - apply readonly_try. unfold DeviceTokenAuth. apply readonly_bind; [|intros [? ?]; eauto with evo].
    apply readonly_no_rows_as. unfold GetDeviceTokenForAuth. repeat (apply readonly_bind; [eauto with evo|intros ?]). eauto with evo.
  - intros []; repeat case_match; eauto with evo.
Qed.

Lemma readonly_authentication caller now r : readonly (authentication caller now r).
Proof.
  unfold authentication. case_match; [apply readonly_session_Authenticate|].
  unfold Authenticate. cbn [Chain]. apply readonly_bind; [apply readonly_try, readonly_session_Authenticate|].
  intros []; [eauto with evo|]. case_match; [|eauto with evo].
  apply readonly_bind; [apply readonly_try, readonly_devicetoken_Authenticate|]. intros []; [eauto with evo|].
  case_match; eauto with evo.
Qed.

(** What a request comes down to: a refusal that changes nothing, or a route
    with the identity of its caller, after nothing but reads. *)
Lemma mountV1_cases minimum version caller now r w :
  (exists resp w', mountV1 minimum version caller now r w = (Ok resp, w') /\ failed resp = true /\ wdb w' = wdb w) \/
  exists identity w1, authentication caller now r w = (Ok identity, w1) /\ wdb w1 = wdb w /\
    (owner_only r = true -> idt_Role identity = role_Owner) /\
    mountV1 minimum version caller now r w = route identity caller now r w1.
Proof.
  unfold mountV1, ClientVersion. fold (authentication caller now r).
  assert (Hscope : forall next, (exists resp w', TenantScope (authentication caller now r) next w = (Ok resp, w') /\ failed resp = true /\ wdb w' = wdb w) \/
    exists identity w1, authentication caller now r w = (Ok identity, w1) /\ wdb w1 = wdb w /\
      TenantScope (authentication caller now r) next w = next identity w1 :> (res (Response ()) * World)).
  { intros next. pose proof (readonly_authentication caller now r w) as Hro. unfold TenantScope, try, mbind, prog_bind.
    destruct (authentication caller now r w) as [[identity|e] w1]; simpl in Hro.
    - destruct (NewGroupID (idt_Group identity)); [right; by exists identity, w1|left]. by eexists _, w1.
    - left. by eexists _, w1. }
  assert (Hnext : forall m, (exists resp w', m w = (Ok resp, w') /\ failed resp = true /\ wdb w' = wdb w) \/
      (exists identity w1, authentication caller now r w = (Ok identity, w1) /\ wdb w1 = wdb w /\
        m w = (if owner_only r then RequireOwner (fun identity => route identity caller now r) identity
               else route identity caller now r) w1) ->
      (exists resp w', m w = (Ok resp, w') /\ failed resp = true /\ wdb w' = wdb w) \/
      exists identity w1, authentication caller now r w = (Ok identity, w1) /\ wdb w1 = wdb w /\
        (owner_only r = true -> idt_Role identity = role_Owner) /\ m w = route identity caller now r w1).
  { intros m [Hl|(identity & w1 & Ha & Hw & Hm)]; [by left|]. destruct (owner_only r); [|right; by exists identity, w1].
    unfold RequireOwner in Hm. destruct (idt_Role identity =?s role_Owner) eqn:Er; bool_facts; [right; by exists identity, w1|].
    left. by eexists _, w1. }
  destruct version as [raw|]; [|apply Hnext, Hscope].
  destruct (parseClientVersion raw) as [v|]; [|left; by eexists _, w].
  destruct minimum as [[text m]|]; [|apply Hnext, Hscope].
  destruct (versionLess v m); [left; by eexists _, w|apply Hnext, Hscope].
Qed.

End mount.

(** ** Any request, the push included *)

Section requests.
Context `{Entropy, Sha256, SortBy}.

Lemma mountV1_moves minimum version caller now r w :
  keyed (item_custom_fields (wdb w)) -> finite_body r ->
  wdb (mountV1 minimum version caller now r w).2 = wdb w \/
  exists identity, (authentication caller now r w).1 = Ok identity /\
    moves identity (wdb w) (wdb (mountV1 minimum version caller now r w).2).
Proof.
  intros Hk Hf. destruct (mountV1_cases minimum version caller now r w) as [(resp & w' & -> & _ & Hw)|(identity & w1 & Ha & Hw & Ho & ->)]; [by left|].
  right. exists identity. rewrite Ha. split; [done|].
  assert (Hpush : (exists b, r = postSyncPush b) \/ (forall b, r <> postSyncPush b)) by (destruct r; eauto).
  destruct Hpush as [[b ->]|Hp].
  - cbn [route]. unfold headless, mbind, prog_bind. pose proof (steps_syncPush identity b now w1) as Hs. rewrite Hw in Hs.
    by destruct (syncPushHandler _ b now w1) as [[a|e] w2].
  - destruct (good_route identity caller now r Hp Hf Ho w1) as (resp & w' & -> & Hone & _); [by rewrite Hw|].
    rewrite Hw in Hone. by apply at_most_one_moves.
Qed.


(** ** Runs *)

(** What the server does: events, and API requests. *)
Inductive act :=
  | Event (e : event)
  | Request (minimum : option (string * (Z * Z * Z))) (version : option string) (caller : Caller) (now : Z) (r : api_request).

Definition act_ok (a : act) : Prop := match a with Event _ => True | Request _ _ _ _ r => finite_body r end.

Definition run_act (w : World) (a : act) : World :=
  match a with
  | Event e => (handle_event e w).2
  | Request minimum version caller now r => (mountV1 minimum version caller now r w).2
  end.

Record sound (db : DB) : Prop := mkSound {
  sound_rows : db_ok db; sound_locations : loc_inv db; sound_integ : integ db; sound_labels : label_names db }.

Lemma handle_event_keeps_sound e : keeps sound (handle_event e).
Proof.
  intros w [Hr Hl Hi Hn]. split.
  - apply (db_ok_history (wdb w)); [|done]. pose proof (history_serve [e] w) as Hs. exact Hs.
  - by apply handle_event_keeps_locations.
  - by apply handle_event_keeps_integ.
  - by apply handle_event_keeps_names.
Qed.

(** C6: the API is sound.  In whatever order API requests, of anybody, and
    the other events of the server are served, every state reached satisfies
    the constraints of the schema, has its locations in a forest, its live
    labels under different names, and its rows under their ids, stamped no
    higher than the counter of their group. *)
Theorem api_runs_sound gs acts :
  Forall act_ok acts -> sound (wdb (foldl run_act (initial gs) acts)).
Proof.
  assert (Hs0 : sound (wdb (initial gs))).
  { split; [apply (served_db_ok gs [])|apply loc_ok_empty|apply integ_initial|apply (served_label_names gs [])]. }
  revert Hs0. generalize (initial gs). induction acts as [|a acts IH]; intros w Hw Hacts; [done|].
  apply Forall_cons in Hacts as [Ha Hacts]. cbn [foldl]. apply IH; [|done].
  destruct a as [e|minimum version caller now r]; cbn [run_act]; [by apply handle_event_keeps_sound|].
  assert (Hk : keyed (item_custom_fields (wdb w))) by apply (int_keyed _ _ (int_custom_fields _ (sound_integ _ Hw))).
  destruct (mountV1_moves minimum version caller now r w Hk Ha) as [->|(identity & _ & Hm)]; [done|].
  refine (moves_steps identity (fun a b => sound a -> sound b) _ _ _ Hm Hw).
  intros e _. apply handle_event_keeps_sound.
Qed.
End requests.

(** ** What only the owner changes *)

Definition visibility (G : Group) : Z * Z * Z := (grp_WarrantyVisible G, grp_SaleVisible G, grp_PurchaseVisible G).

Record settings_kept (a b : DB) : Prop := mkSettingsKept {
  kept_defs : custom_field_defs b = custom_field_defs a;
  kept_invites : invites b = invites a;
  kept_visibility : forall k G, groups a !! k = Some G -> exists G', groups b !! k = Some G' /\ visibility G' = visibility G;
}.

#[local] Instance settings_kept_preorder : PreOrder settings_kept.
Proof.
  split; [intros a; split; eauto|]. intros a b c [Hd Hi Hv] [Hd' Hi' Hv']. split; [congruence..|].
  intros k G HG. destruct (Hv k G HG) as (G' & HG' & E). destruct (Hv' k G' HG') as (G2 & HG2 & E2).
  exists G2. split; [done|congruence].
Qed.

Lemma settings_frame a b :
  custom_field_defs b = custom_field_defs a -> invites b = invites a -> groups b = groups a -> settings_kept a b.
Proof. intros Hd Hi Hg. split; [done..|]. rewrite Hg. eauto. Qed.

Lemma settings_group db g G G' :
  groups db !! g = Some G -> visibility G' = visibility G -> settings_kept db (set_groups (<[g := G']> (groups db)) db).
Proof.
  intros HG HE. split; [done..|]. simpl. intros k G0 Hk. destruct (decide (k = g)) as [->|Hne].
  - rewrite lookup_insert_eq. exists G'. split; [done|congruence].
  - rewrite lookup_insert_ne by done. eauto.
Qed.

Lemma settings_new_group db g G :
  groups db !! g = None -> settings_kept db (set_groups (<[g := G]> (groups db)) db).
Proof.
  intros HG. split; [done..|]. simpl. intros k G0 Hk. rewrite lookup_insert_ne by congruence. eauto.
Qed.

Lemma settings_AllocChangeSeq g : steps settings_kept (AllocChangeSeq g).
Proof.
  intros w. unfold AllocChangeSeq. destruct (groups (wdb w) !! g) as [G|] eqn:HG; simpl; [|reflexivity].
  by eapply settings_group.
Qed.

Lemma settings_SetLowWatermark g to : steps settings_kept (SetGroupTombstoneLowWatermark to g).
Proof.
  intros w. unfold SetGroupTombstoneLowWatermark. destruct (groups (wdb w) !! g) as [G|] eqn:HG; [|reflexivity].
  destruct (grp_DeletedAt G); simpl; [reflexivity|]. by eapply settings_group.
Qed.

Lemma settings_groups_created :
  (forall g name now, steps settings_kept (CreateGroup g name now)) /\
  (forall g name now, steps settings_kept (CreateGroupIfNone g name now)).
Proof.
  split; intros g name now w.
  - unfold CreateGroup. repeat (case_match; simpl; try reflexivity). by apply settings_new_group.
  - unfold CreateGroupIfNone. destruct (decide _) as [He|]; simpl; [|reflexivity].
    apply settings_new_group. by rewrite He.
Qed.

Ltac settings_other := intros; apply settings_frame; reflexivity.

#[local] Hint Extern 1 (steps settings_kept (insert_row _)) => (apply steps_insert_row; [apply _|settings_other]) : steps.
#[local] Hint Extern 1 (steps settings_kept (update_rows _ _)) => (apply steps_update_rows; [apply _|settings_other]) : steps.
#[local] Hint Extern 1 (steps settings_kept (CreateMutation _ _ _ _ _ _ _)) =>
  (apply steps_CreateMutation; [apply _|settings_other]) : steps.
#[local] Hint Extern 1 (steps settings_kept (CreateConflict _ _)) => (apply steps_CreateConflict; [apply _|settings_other]) : steps.
#[local] Hint Extern 1 (steps settings_kept (UpsertFieldVersion _ _ _ _ _ _)) =>
  (apply steps_UpsertFieldVersion; [apply _|settings_other]) : steps.
#[local] Hint Extern 1 (steps settings_kept _) =>
  first [apply settings_groups_created | apply steps_import_sessions; [apply _|settings_other]] : steps.
#[local] Hint Resolve settings_AllocChangeSeq settings_SetLowWatermark : steps.

Section owner.
Context `{Entropy, Sha256, SortBy}.

Lemma push_dispatch_settings g m : steps settings_kept (push_dispatch g m).
Proof. steps_dispatch. Qed.
#[local] Hint Resolve push_dispatch_settings : steps.

Lemma handle_event_settings e : settings_event e = false -> steps settings_kept (handle_event e).
Proof.
  destruct e as [g r|a]; [destruct r|destruct a]; intros Hs; try discriminate Hs;
    simpl; unfold discard, resolve_label; repeat steps_import.
Qed.

End owner.

(** ** A household *)

#[local] Instance api_sha256 : Sha256.
Proof. refine {| sha256_hex s := ("#" ++ s)%string |}. done. Defined.

(** Alice owns ["g1"], Bob has redeemed her invite; both have a session. *)
Definition household : World := Eval vm_compute in serve
  [OfAccount (RegisterFirst (mkFirstUser "g1" "Home" "u1" "alice" "hash" 100));
   OfAccount (SessionCreate (mkSessionParams "s1" "g1" "u1" "#alice" 1000 "curl" "10.0.0.1" 101));
   OfAccount (InviteCreate (mkInviteParams "v1" "g1" "u1" "#invite" 1000 102));
   OfAccount (InviteRedeem (mkRedeemInvite "#invite" "u2" "bob" "hash" 103));
   OfAccount (SessionCreate (mkSessionParams "s2" "g1" "u2" "#bob" 1000 "curl" "10.0.0.2" 104));
   OfGroup "g1" (ItemsCreate (mkCreateItem "i1" "Lamp" "" "" 3 "CODE1" 105))] (initial ∅).

Definition alice : Caller := mkCaller "10.0.0.1:80" "curl" "" (mkCredentials (Some "alice"%string) "").
Definition bob : Caller := mkCaller "10.0.0.2:80" "curl" "" (mkCredentials (Some "bob"%string) "").

Example household_roles :
  (authentication alice 200 getInvites household).1 = Ok (mkIdentity "g1" "u1" role_Owner) /\
  (authentication bob 200 getInvites household).1 = Ok (mkIdentity "g1" "u2" role_Member).
Proof. by vm_compute. Qed.

Lemma household_keyed : keyed (item_custom_fields (wdb household)).
Proof. apply keyedb_keyed. by vm_compute. Qed.



Definition household_acts : list act :=
  [Event (OfAccount (RegisterFirst (mkFirstUser "g1" "Home" "u1" "alice" "hash" 100)));
   Event (OfAccount (SessionCreate (mkSessionParams "s1" "g1" "u1" "#alice" 1000 "curl" "10.0.0.1" 101)));
   Request None None alice 200 (postLocation (Some (mkLocationCreateBody "Attic" "")));
   Request None None alice 201 postInvite].

Lemma api_runs_sound_witness :
  Forall act_ok household_acts /\ sound (wdb (foldl run_act (initial ∅) household_acts)).
Proof.
  assert (Hok : Forall act_ok household_acts) by (repeat constructor).
  split; [exact Hok|]. apply (api_runs_sound ∅ household_acts Hok).
Defined.

