(* ===== verification/ApiAnswers.v ===== *)
(** * What a login and a pull answer

    What the limiter of [Limiter] gives the handlers of [HttpAccounts]: after
    a failed login over the free attempts, logins to the account are refused
    without a look at the database until the delay is over, whoever makes
    them.

    The handler of a pull between the page of [SyncReader] and the JSON of the
    response: every row of a page has the body of its type, and the answer is
    a page, the refusal of an old cursor, or 500 for a number that JSON cannot
    say. *)

From S2P Require Import Prelude GoBase Schema Sql Evolution Queries PushRepo Items Details History Accounts Demo.
From S2P Require Import SyncReader System PullTheorems PullProperties Limiter Strconv Password Services ServiceProperties DomainServices HttpCore HttpItems.
From S2P Require Import HttpGroup HttpSync HttpAccounts.

(** ** A failure at the limiter *)

Lemma run_calls_app l cs cs' : (run_calls l (cs ++ cs')).2 = (run_calls (run_calls l cs).2 cs').2.
Proof.
  revert l. induction cs as [|c cs IH]; intros l; simpl; [done|].
  destruct (run_call l c) as [out l1]. specialize (IH l1). destruct (run_calls l1 cs), (run_calls l1 (cs ++ cs')). exact IH.
Qed.

(** The entry of the key that just failed is at the front. *)
Lemma failure_entry l s k t :
  represents l s ->
  let l1 := RecordFailure k t l in
  exists e post, represents l1 ((k, e) :: post) /\ failures_of l1 k = failures e /\ same_settings l l1 /\
    ((lim_freeAttempts l < failures e)%Z -> blockedUntil e = (t + delay_after l (failures e))%Z).
Proof.
  intros Hr. destruct (run_call_refines l s (CallFailure k t) Hr) as [_ Hr1]. simpl in Hr1.
  pose proof (rep_positive _ _ Hr) as Hp. pose proof (run_call_settings l (CallFailure k t)) as Hset. simpl in Hset.
  destruct (Z.to_nat (lim_maxEntries l)) as [|m] eqn:Em; [lia|]. simpl in Hr1.
  eexists _, _. split_and!; [exact Hr1| |exact Hset|].
  - unfold failures_of. rewrite (represents_entry _ _ _ Hr1). simpl. by rewrite string_eqb_refl.
  - unfold record_failure. case_match; simpl; [|done]. bool_facts. lia.
Qed.

Lemma refused_after_failure l s k t cs t' :
  let l1 := RecordFailure k t l in
  let n := failures_of l1 k in
  represents l s ->
  (0 < lim_base l <= int64_max)%Z -> (0 < lim_max l <= 2^62)%Z ->
  (lim_freeAttempts l < n)%Z ->
  (forall c, c ∈ cs -> call_key c <> k) ->
  (Z.of_nat (size (used_keys cs)) < lim_maxEntries l)%Z ->
  (t' < t + Z.min (lim_max l) (lim_base l * 2 ^ (n - lim_freeAttempts l - 1)))%Z ->
  (Allow k t' (run_calls l1 cs).2).1.1 = false.
Proof.
  cbv zeta. intros Hr Hb Hm Hn Hk Hsz Ht.
  destruct (failure_entry l s k t Hr) as (e & post & Hr1 & Hf & Hset & He). rewrite Hf in Hn, Ht.
  destruct (run_calls_refines _ _ _ cs (ltac:(by split) : same_settings _ _) Hr1) as (_ & Hr2 & _).
  destruct (survives_calls (RecordFailure k t l) ∅ k e ((k, e) :: post) cs Hk) as [Hfind|Hin];
    [rewrite union_empty_l_L, (proj1 Hset); done| | |by apply not_elem_of_empty in Hin].
  { exists [], post. split_and!; [done|constructor|by intros x ?%not_elem_of_nil]. }
  rewrite (Allow_ok _ _ _ e) by (by rewrite (represents_entry _ _ _ Hr2)).
  rewrite (He Hn), (delay_after_exact l) by done. apply negb_false_iff, Z.ltb_lt. exact Ht.
Qed.

Lemma used_keys_snoc cs c : size (used_keys (cs ++ [c])) <= size (used_keys cs) + 1.
Proof.
  unfold used_keys. rewrite fmap_app, list_to_set_app_L, size_union_alt. apply Nat.add_le_mono_l.
  rewrite <- (size_singleton (C := gset string) (call_key c)). apply subseteq_size. simpl. set_solver.
Qed.

(** ** Logins *)

Section login.
Context `{Entropy, Argon2, Sha256} (h : Hasher) (trust : bool) (to_lower : string -> string).

Lemma admitted_run {B} key now (next : Prog Server (Response B)) s :
  let s1 := mkServer (srv_world s) (Allow key now (srv_limiter s)).2 in
  admitted key now next s =
  if (Allow key now (srv_limiter s)).1.1 then next s1
  else (Ok (writeRateLimited (Allow key now (srv_limiter s)).1.2), s1).
Proof.
  unfold admitted, limiter_Allow, mbind, prog_bind. destruct (Allow key now (srv_limiter s)) as [[[] retry] l]; done.
Qed.

(** What a 401 did to the limiter. *)
Lemma unauthorized_calls clock r body slots now s s1 :
  let '(ipKey, acctKey) := loginRateLimitKeys to_lower r trust (lgb_Username body) in
  loginHandler h trust to_lower clock r (Some body) slots now s = (Ok (problem_Write Unauthorized), s1) ->
  srv_limiter s1 = RecordFailure acctKey (clock 3) (run_calls (srv_limiter s)
    [CallAllow ipKey (clock 0); CallAllow acctKey (clock 1); CallFailure ipKey (clock 2)]).2.
Proof.
  unfold loginHandler, decoded. set (ks := loginRateLimitKeys _ _ _ _). destruct ks as [ipKey acctKey].
  rewrite admitted_run. cbv zeta. cbn [run_calls run_call].
  destruct (Allow ipKey (clock 0) (srv_limiter s)) as [[[] ip] l1]; cbn [fst snd]; [|by intros [=]].
  rewrite admitted_run. cbn [srv_world srv_limiter].
  destruct (Allow acctKey (clock 1) l1) as [[[] ac] l2]; cbn [fst snd]; [|by intros [=]].
  unfold mbind, prog_bind, on_world, try. cbn [srv_world srv_limiter].
  destruct (Login _ _ _ _ (srv_world s)) as [[result|e] w]; [by intros [=]|].
  case_bool_decide; simpl; [|by intros [=]]. by intros [= <-].
Qed.

End login.

(** ** Alice's account *)

#[local] Existing Instance toy_sha256.
#[local] Existing Instance the_argon2.

Definition guess_config : LimiterConfig := mkLimiterConfig 5 1 10%Z 35%Z.
Definition guess_clock (n : nat) : Z := (200 + Z.of_nat n)%Z.
Definition guesser : Caller := mkCaller "10.0.0.9:80" "curl" "" (mkCredentials None "").
Definition alices_laptop : Caller := mkCaller "10.0.0.1:80" "curl" "" (mkCredentials None "").
Definition guess_s : Server := mkServer race_w0 (run_calls (New guess_config) [CallFailure "acct:alice" 100%Z]).2.
Definition guess (to_lower : string -> string) : res (Response (loginResponseBody * SetCookie)) * Server :=
  loginHandler demo_hasher false to_lower guess_clock guesser (Some (mkLoginBody "alice" "wrong")) (Ok tt, Ok tt) 150%Z guess_s.


(** A row that JSON can say. *)
Definition sayable (r : AnyRow) : bool :=
  match r with RCustomField row => json_ok (toItemCustomFieldBody row) | _ => true end.

Definition said (d : ChangeData) : bool := match d with DCustomField f => json_ok f | _ => true end.

Definition change_of (c : candidate) : Change := mkChange (c_entityType c) (c_id c) (c_changeSeq c) (c_data c).
Definition live_candidate (c : candidate) : Prop := c_deletedAt c = None.
#[global] Instance live_candidate_dec c : Decision (live_candidate c) := _.

Section answers.
Context `{SortByLaws}.

Lemma Changes_buildPage l s b : Changes (buildPage l s b) = change_of <$> filter live_candidate l.
Proof.
  unfold buildPage.
  enough (Hp : forall page, Changes (foldl add_entry page l) = Changes page ++ (change_of <$> filter live_candidate l))
    by apply Hp.
  induction l as [|c l IH]; intros page; simpl; [by rewrite app_nil_r|]. rewrite IH. unfold add_entry, change_of.
  destruct (c_deletedAt c) eqn:Ed; [by rewrite filter_cons_False by (unfold live_candidate; congruence)|].
  rewrite filter_cons_True by done. simpl. by rewrite <- app_assoc.
Qed.

Lemma candidates_of_data {D} et (any : Row D -> AnyRow) rows c :
  c ∈ candidates_of et any rows -> exists r, c_entityType c = et /\ c_data c = any r.
Proof. unfold candidates_of. intros (r & -> & _)%list_elem_of_fmap. by exists r. Qed.

(** The entity type of a row in the feed is that of its table. *)
Lemma feed_data db g c :
  c ∈ group_feed db g -> exists d, toSyncChangeData (change_of c) = Ok d /\ said d = sayable (c_data c).
Proof.
  unfold group_feed, group_tables. intros Hc. apply elem_of_concat in Hc as (l & Hc & Hl).
  repeat (apply elem_of_cons in Hl as [->|Hl];
    [apply candidates_of_data in Hc as (r & Et & Ed); unfold toSyncChangeData, change_of; simpl; rewrite Et, Ed;
     eexists; split; [vm_compute; reflexivity|reflexivity]|]).
  by apply elem_of_nil in Hl.
Qed.

Lemma envelopes_of_feed db g l :
  (forall c, c ∈ l -> c ∈ group_feed db g) ->
  exists es, toSyncChangeEnvelopes (change_of <$> l) = Ok es /\ length es = length l /\
    forallb (fun e => said (sce_Data e)) es = forallb (fun c => sayable (c_data c)) l.
Proof.
  induction l as [|c l IH]; intros Hl; [by exists []|].
  destruct (feed_data db g c) as (d & Hd & Hsaid); [apply Hl; by left|].
  destruct IH as (es & Hes & Hlen & Hall); [intros c' Hc'; apply Hl; by right|].
  cbn [fmap list_fmap toSyncChangeEnvelopes]. unfold toSyncChangeEnvelope. rewrite Hd. simpl. rewrite Hes.
  eexists. split; [reflexivity|]. simpl. by rewrite Hlen, Hall, Hsaid.
Qed.

(** What the handler makes of a page. *)
Definition page_response (page : Page) : Response PullAnswer :=
  match toSyncPullResultBody page with
  | Ok result => writeJSON 200 (PullResult result)
  | Err _ => problem_Write Internal
  end.

Lemma page_response_spec db g since limit page :
  page_spec (group_feed db g) since limit page ->
  (exists result, page_response page = Reply 200 (PullResult result) /\
     spr_NextWatermark result = NextWatermark page /\ spr_HasMore result = HasMore page /\
     length (spr_Changes result) = length (Changes page) /\
     forall c, c ∈ group_feed db g -> (since < c_changeSeq c <= NextWatermark page)%Z -> live_candidate c -> sayable (c_data c) = true) \/
  (page_response page = problem_Write Internal /\
   exists c, c ∈ group_feed db g /\ (since < c_changeSeq c <= NextWatermark page)%Z /\ live_candidate c /\
     sayable (c_data c) = false).
Proof.
  intros Hp. destruct (page_rows _ _ _ _ Hp) as (ordered & Hpage & Hperm & _).
  assert (Hin : forall c, c ∈ filter live_candidate ordered <->
    c ∈ group_feed db g /\ (since < c_changeSeq c <= NextWatermark page)%Z /\ live_candidate c).
  { intros c. rewrite list_elem_of_filter, Hperm, elem_of_upto, elem_of_beyond. tauto. }
  destruct (envelopes_of_feed db g (filter live_candidate ordered)) as (es & Hes & Hlen & Hall); [by intros c [? _]%Hin|].
  assert (Hchanges : Changes page = change_of <$> filter live_candidate ordered).
  { rewrite Hpage. apply Changes_buildPage. }
  assert (Hbody : toSyncPullResultBody page =
    Ok (mkPullResult es (toSyncTombstoneBody <$> Tombstones page) (NextWatermark page) (HasMore page))).
  { unfold toSyncPullResultBody.
    rewrite Hchanges.
    by rewrite Hes. }
  unfold page_response. rewrite Hbody. unfold writeJSON, json_ok, PullAnswer_json. cbn [spr_Changes].
  change (forallb _ es) with (forallb (fun e => said (sce_Data e)) es). rewrite Hall.
  destruct (forallb _ (filter live_candidate ordered)) eqn:E.
  - left. eexists. split; [reflexivity|]. split_and!; try done.
    + cbn. by rewrite Hlen, Hchanges, length_fmap.
    + intros c Hc Hs Hl. rewrite forallb_true_iff in E. apply E, Hin. done.
  - right. split; [done|]. apply not_true_iff_false in E. rewrite forallb_true_iff in E.
    destruct (decide (Exists (fun c => sayable (c_data c) = false) (filter live_candidate ordered))) as [(c & Hc & Hs)%Exists_exists|Hn].
    + exists c. apply Hin in Hc. tauto.
    + destruct E. intros c Hc. apply not_false_is_true. intros Hs. apply Hn, Exists_exists. eauto.
Qed.

Section static.
Context (db : DB) (g : string) (since limit : Z) (n : nat).

(** On a database that does not change: the cursor is looked at unless it is
    0, and is refused below the low watermark of the group. *)
Lemma PullOrTooOld_static :
  (0 <= since)%Z -> (1 <= limit <= 500)%Z ->
  exists page n', page_spec (group_feed db g) since limit page /\
    PullOrTooOld (fun _ => db) g since limit n =
    (if (since =? 0)%Z then Ok (Some page)
     else match low_watermark g db with
          | None => Err ErrNotFound
          | Some low => if (since <? low)%Z then Ok None else Ok (Some page)
          end, n').
Proof.
  intros Hs Hl.
  destruct (Pull_page db g since limit (if (since =? 0)%Z then n else S n)) as (page & n' & Hpull & Hp);
    [unfold int64_max; lia|done|].
  exists page. unfold PullOrTooOld, TooOld. destruct (Z.ltb_spec since 0); [lia|].
  unfold Sync_LowWatermark, query, mbind, prog_bind, mret, prog_ret, throw.
  destruct (Z.eqb_spec since 0) as [->|Hne]; [rewrite Hpull; eauto|].
  destruct (low_watermark g db) as [low|]; [|eauto].
  destruct (since <? low)%Z; [eauto|rewrite Hpull; eauto].
Qed.

Lemma static_pull_answer dev :
  dev <> ""%string -> (0 <= since)%Z -> (1 <= limit <= 500)%Z ->
  exists page n', page_spec (group_feed db g) since limit page /\
    syncPullHandler (fun _ => db) g (Some (mkPullBody dev since limit)) n =
    (Ok (if (since =? 0)%Z then page_response page
         else match low_watermark g db with
              | None => problem_Write Internal
              | Some low => if (since <? low)%Z then Reply 200 CursorTooOld else page_response page
              end), n').
Proof.
  intros Hd Hs Hl. destruct (PullOrTooOld_static Hs Hl) as (page & n' & Hp & Hpull). exists page, n'. split; [exact Hp|].
  unfold syncPullHandler, decoded. cbn [plb_DeviceID plb_Since plb_Limit].
  assert ((dev =?s "") = false) as -> by (by apply string_eqb_false).
  destruct (Z.ltb_spec since 0); [lia|]. unfold maxSyncPullLimit.
  destruct (Z.leb_spec limit 0); [lia|]. destruct (Z.ltb_spec 500 limit); [lia|]. cbn [orb].
  unfold answer, try, mbind, prog_bind. rewrite Hpull.
  unfold page_response, lift. destruct (since =? 0)%Z; [|destruct (low_watermark g db) as [low|]; [destruct (since <? low)%Z|]];
    try reflexivity; by destruct (toSyncPullResultBody page).
Qed.
End static.
End answers.

Section properties.
Context `{SortByLaws}.

Lemma feed_custom_field db g k row :
  item_custom_fields db !! k = Some row -> GroupID row = g ->
  mkCandidate EntityItemCustomField (ID row) (ChangeSeq row) (DeletedAt row) (RCustomField row) ∈ group_feed db g.
Proof.
  intros Hk Hg. unfold group_feed. apply elem_of_concat.
  exists (table_feed db g EntityItemCustomField RCustomField). split; [|unfold group_tables; set_solver].
  unfold table_feed, candidates_of. apply list_elem_of_fmap. exists row. split; [done|].
  apply elem_of_where. split; [by exists k|]. by rewrite Hg, string_eqb_refl.
Qed.

Lemma unsayable_custom_field db g c :
  c ∈ group_feed db g -> live_candidate c -> sayable (c_data c) = false ->
  exists k row, item_custom_fields db !! k = Some row /\ GroupID row = g /\ DeletedAt row = None /\
    json_ok (toItemCustomFieldBody row) = false.
Proof.
  unfold group_feed, group_tables. intros Hc Hl Hs. apply elem_of_concat in Hc as (l & Hc & Hin).
  repeat (apply elem_of_cons in Hin as [->|Hin];
    [unfold table_feed, candidates_of in Hc; apply list_elem_of_fmap in Hc as (row & -> & Hrow); try discriminate Hs|]).
  - apply elem_of_where in Hrow as [[k Hk] HP]. bool_facts. by exists k, row.
  - by apply elem_of_nil in Hin.
Qed.


(** C38: a number that JSON cannot say stops the sync of a group.  An import
    takes ["Inf"] for the number of a custom field; as long as the field is
    there, no page that a pull answers with reaches it: every client that has
    not pulled it yet, a new one for instance, gets 500 from there on,
    whatever the page size. *)
Theorem infinite_number_blocks_pull db k row dev since limit n result n' :
  item_custom_fields db !! k = Some row -> DeletedAt row = None ->
  json_ok (toItemCustomFieldBody row) = false ->
  (since < ChangeSeq row)%Z ->
  syncPullHandler (fun _ => db) (GroupID row) (Some (mkPullBody dev since limit)) n = (Ok (Reply 200 (PullResult result)), n') ->
  (spr_NextWatermark result < ChangeSeq row)%Z.
Proof.
  intros Hk Hdel Hbad Hs Hr.
  assert (Hvalid : dev <> ""%string /\ (0 <= since)%Z /\ (1 <= limit <= 500)%Z).
  { unfold syncPullHandler, decoded, maxSyncPullLimit in Hr. cbn [plb_DeviceID plb_Since plb_Limit] in Hr.
    destruct (dev =?s "") eqn:Ed; [done|]. destruct (Z.ltb_spec since 0); [done|].
    destruct (Z.leb_spec limit 0); [done|]. destruct (Z.ltb_spec 500 limit); [done|].
    bool_facts. split; [done|lia]. }
  destruct Hvalid as (Hd & Hnn & Hl).
  destruct (static_pull_answer db (GroupID row) since limit n dev Hd Hnn Hl) as (page & n2 & Hp & Ha).
  rewrite Ha in Hr. injection Hr as Hr _.
  assert (Hpage : page_response page = Reply 200 (PullResult result)).
  { destruct (since =? 0)%Z; [done|]. destruct (low_watermark _ db) as [low|]; [|done]. by destruct (since <? low)%Z. }
  destruct (page_response_spec _ _ _ _ _ Hp) as [(result' & Hr' & Hw & _ & _ & Hall)|[Hr' _]]; [|by rewrite Hr' in Hpage].
  rewrite Hpage in Hr'. injection Hr' as <-. rewrite Hw. apply Znot_ge_lt. intros Hge.
  specialize (Hall _ (feed_custom_field db _ k row Hk eq_refl)). simpl in Hall. rewrite Hall in Hbad; [done|lia|done].
Qed.
End properties.

(** ** The lamp gets an infinite wattage *)

Definition demo_infinite : World := Eval vm_compute in
  exec (ItemCustomFields_Create "g1" (mkCreateItemCustomField "f1" "i1" "" "Watts" "number" None
    (Some (SpecFloat.S754_infinity false)) None None 300)) demo.

(** The row, and its number. *)
Definition demo_infinite_row : ItemCustomField :=
  default (mkRow "" "" 0 0 0 None 0 (mkCustomField "" None "" "" None None None None))
    (item_custom_fields (wdb demo_infinite) !! "f1"%string).

(** What comes before it can be pulled; the rest cannot. *)
Lemma infinite_number_blocks_pull_witness :
  exists result n',
    syncPullHandler (fun _ => wdb demo_infinite) (GroupID demo_infinite_row) (Some (mkPullBody "phone" 0 1)) 0 =
      (Ok (Reply 200 (PullResult result)), n') /\
    (spr_NextWatermark result < ChangeSeq demo_infinite_row)%Z /\
    (syncPullHandler (fun _ => wdb demo_infinite) "g1" (Some (mkPullBody "phone" 0 500)) 0).1 = Ok (problem_Write Internal).
Proof.
  eexists _, _. split; [vm_compute; reflexivity|]. split; [|vm_compute; reflexivity].
  eapply (infinite_number_blocks_pull (wdb demo_infinite) "f1" demo_infinite_row "phone" 0 1 0); vm_compute; reflexivity.
Defined.

