(* ===== verification/Calendar.v ===== *)
(** * Days of the calendar

    What the reports use of [time]: the number of a day, the day [n] days
    later ([time.AddDate(0, 0, n)]), and the text of a date.  Days are those
    of the proleptic Gregorian calendar; Go counts seconds in an int64, which
    is wide enough for some 10^14 days.  The texts of the dates of the years 0
    to 9999 are ordered like the days. *)

From S2P Require Import Prelude GoBase Strconv.
From Stdlib Require Import Strings.Ascii.

#[local] Open Scope Z_scope.

Definition valid_date (t : Date) : bool :=
  (1 <=? date_Month t) && (date_Month t <=? 12) && (1 <=? date_Day t) && (date_Day t <=? days_in (date_Month t) (date_Year t)).

(** The years are counted from March, so that the leap day is the last. *)
Definition year_days (y : Z) : Z := 365 * y + y / 4 - y / 100 + y / 400.

Definition day_number (t : Date) : Z :=
  let y := if date_Month t <=? 2 then date_Year t - 1 else date_Year t in
  let mp := if date_Month t <=? 2 then date_Month t + 9 else date_Month t - 3 in
  year_days y + (153 * mp + 2) / 5 + date_Day t - 1.

(** The year, from March, of a day: 146097 days are 400 years, so the guess is
    off by at most one. *)
Definition year_of (z : Z) : Z :=
  let y := 400 * z / 146097 in
  if z <? year_days y then y - 1 else if year_days (y + 1) <=? z then y + 1 else y.

(** The month and day of the [doy]-th day from the first of March. *)
Definition month_day (doy : Z) : Z * Z :=
  let mp := (5 * doy + 2) / 153 in
  (if mp <? 10 then mp + 3 else mp - 9, doy - (153 * mp + 2) / 5 + 1).

Definition civil (z : Z) : Date :=
  let y := year_of z in
  let '(month, day) := month_day (z - year_days y) in
  mkDate (y + (if month <=? 2 then 1 else 0)) month day.

Definition AddDays (t : Date) (n : Z) : Date := civil (day_number t + n).

(** [t.Format("2006-01-02")] of any year. *)
Definition four_or_more (n : Z) : string := if n <=? 9999 then four_digits n else FormatInt n.
Definition format_year (y : Z) : string := if y <? 0 then String "-" (four_or_more (- y)) else four_or_more y.
Definition Format (t : Date) : string :=
  (format_year (date_Year t) ++ String "-" (two_digits (date_Month t)) ++ String "-" (two_digits (date_Day t)))%string.

(** [t.Sub(u)] of two midnights, in nanoseconds: a [time.Duration] saturates. *)
Definition day_ns : Z := 24 * 3600 * 1000000000.
Definition sub_days (t u : Date) : Z := Z.max int64_min (Z.min int64_max ((day_number t - day_number u) * day_ns)).

(** ** Days and their numbers *)

Lemma year_days_next y : year_days (y + 1) = year_days y + if is_leap (y + 1) then 366 else 365.
Proof.
  unfold year_days, is_leap.
  destruct (Z.eqb_spec ((y + 1) mod 4) 0), (Z.eqb_spec ((y + 1) mod 100) 0), (Z.eqb_spec ((y + 1) mod 400) 0);
    cbn [andb orb negb]; Z.to_euclidean_division_equations; lia.
Qed.

Lemma year_of_spec z : year_days (year_of z) <= z < year_days (year_of z + 1).
Proof.
  unfold year_of. set (y := 400 * z / 146097).
  assert (Hy : 146097 * y <= 400 * z < 146097 * (y + 1)) by (unfold y; Z.to_euclidean_division_equations; lia).
  clearbody y. destruct (Z.ltb_spec z (year_days y)); [|destruct (Z.leb_spec (year_days (y + 1)) z); [|lia]].
  - replace (y - 1 + 1) with y by lia. split; [|lia]. unfold year_days in *. Z.to_euclidean_division_equations; lia.
  - split; [lia|]. unfold year_days in *. Z.to_euclidean_division_equations; lia.
Qed.

(** The 366 days from the first of March. *)
Definition doy_of (month day : Z) : Z := (153 * (if month <=? 2 then month + 9 else month - 3) + 2) / 5 + day - 1.

Definition month_day_good (doy : Z) : bool :=
  let '(month, day) := month_day doy in
  (doy_of month day =? doy) && (1 <=? month) && (month <=? 12) && (1 <=? day) &&
  (day <=? days_in month 4) && ((doy =? 365) || (day <=? days_in month 1)) &&
  Bool.eqb (month <=? 2) (306 <=? doy).

Lemma month_day_spec doy : 0 <= doy <= 365 -> month_day_good doy = true.
Proof.
  assert (Hall : forallb (fun n => month_day_good (Z.of_nat n)) (seq 0 366) = true) by (vm_compute; reflexivity).
  rewrite forallb_forall in Hall. intros Hd. rewrite <- (Z2Nat.id doy) by lia. apply Hall, in_seq. lia.
Qed.

Lemma days_in_year month y y' : is_leap y = is_leap y' -> days_in month y = days_in month y'.
Proof. intros Hl. unfold days_in. by rewrite Hl. Qed.

(** Every number is that of a day. *)
Lemma day_number_civil z : valid_date (civil z) = true /\ day_number (civil z) = z.
Proof.
  unfold civil. pose proof (year_of_spec z) as Hy. pose proof (year_days_next (year_of z)) as Hnext.
  set (y := year_of z) in *. clearbody y. set (doy := z - year_days y).
  assert (Hdoy : 0 <= doy <= 365) by (unfold doy; destruct (is_leap (y + 1)); lia).
  pose proof (month_day_spec doy Hdoy) as Hg. unfold month_day_good in Hg. destruct (month_day doy) as [month day].
  repeat match type of Hg with (_ && _)%bool = true => apply andb_true_iff in Hg as [Hg ?] end.
  repeat match goal with H : (_ =? _) = true |- _ => apply Z.eqb_eq in H | H : (_ <=? _) = true |- _ => apply Z.leb_le in H end.
  match goal with H : Bool.eqb _ _ = true |- _ => apply Bool.eqb_prop in H; rename H into Hm end.
  unfold valid_date, day_number, doy_of in *. cbn [date_Year date_Month date_Day]. split.
  - rewrite !andb_true_iff, !Z.leb_le. split_and!; try lia.
    destruct (Z.leb_spec month 2) as [Hmonth|Hmonth].
    + destruct (is_leap (y + 1)) eqn:El; [by rewrite (days_in_year month _ 4)|].
      assert ((doy =? 365) = false) as Hne by (apply Z.eqb_neq; unfold doy; lia).
      match goal with H : ((doy =? 365) || _)%bool = true |- _ => rewrite Hne in H; apply Z.leb_le in H end.
      by rewrite (days_in_year month _ 1).
    + unfold days_in in *. by rewrite (proj2 (Z.eqb_neq month 2)) in * by lia.
  - destruct (Z.leb_spec month 2); replace (y + 1 - 1) with y by lia; rewrite ?Z.add_0_r; unfold doy in *; lia.
Qed.

(** ** The order of days *)

Definition date_compare (t u : Date) : comparison :=
  match date_Year t ?= date_Year u with
  | Eq => match date_Month t ?= date_Month u with Eq => date_Day t ?= date_Day u | c => c end
  | c => c
  end.

Lemma valid_date_bounds t :
  valid_date t = true ->
  1 <= date_Month t <= 12 /\ 1 <= date_Day t <= days_in (date_Month t) (date_Year t) /\ date_Day t <= 31.
Proof.
  unfold valid_date. rewrite !andb_true_iff, !Z.leb_le. intros [[[? ?] ?] Hd]. split_and!; try lia.
  etrans; [exact Hd|]. unfold days_in. repeat case_match; lia.
Qed.

Lemma day_in_year t :
  valid_date t = true ->
  year_days (date_Year t - 1) + 306 <= day_number t < year_days (date_Year t) + 306.
Proof.
  intros Hv. destruct (valid_date_bounds t Hv) as (Hm & Hd & Hd'). unfold day_number.
  pose proof (year_days_next (date_Year t - 1)) as Hn. replace (date_Year t - 1 + 1) with (date_Year t) in Hn by lia.
  unfold days_in in Hd. set (Y := year_days (date_Year t)) in *. set (Y1 := year_days (date_Year t - 1)) in *.
  assert (H12 : forall m, 1 <= m <= 12 -> m = 1 \/ m = 2 \/ m = 3 \/ m = 4 \/ m = 5 \/ m = 6 \/ m = 7 \/ m = 8 \/ m = 9 \/ m = 10 \/ m = 11 \/ m = 12) by lia.
  destruct (is_leap (date_Year t)); repeat (destruct (H12 _ Hm) as [->|[->|[->|[->|[->|[->|[->|[->|[->|[->|[->| ->]]]]]]]]]]]);
    cbn in *; Z.to_euclidean_division_equations; lia.
Qed.

Lemma year_days_mono y y' : y <= y' -> year_days y <= year_days y'.
Proof.
  intros Hy. replace y' with (y + (y' - y)) by lia. assert (0 <= y' - y) as Hn by lia. revert Hn.
  generalize (y' - y) as n. clear. apply (natlike_ind (fun n => year_days y <= year_days (y + n))); [by rewrite Z.add_0_r|].
  intros n Hn IH. replace (y + Z.succ n) with (y + n + 1) by lia. rewrite year_days_next. destruct (is_leap _); lia.
Qed.

Lemma day_in_month t u :
  valid_date t = true -> valid_date u = true -> date_Year t = date_Year u -> date_Month t < date_Month u ->
  day_number t < day_number u.
Proof.
  intros Ht Hu Hy Hm. destruct (valid_date_bounds t Ht) as (Hmt & Hdt & _), (valid_date_bounds u Hu) as (Hmu & Hdu & _).
  unfold day_number. rewrite <- Hy in *. pose proof (year_days_next (date_Year t - 1)) as Hn.
  replace (date_Year t - 1 + 1) with (date_Year t) in Hn by lia. clear Ht Hu Hy.
  assert (Hif : forall b : bool, forall x y, year_days (if b then x else y) = if b then year_days x else year_days y) by (by intros []).
  rewrite !Hif. clear Hif.
  destruct Hdu as [Hdu _].
  set (Y := year_days (date_Year t)) in *. set (Y1 := year_days (date_Year t - 1)) in *. clearbody Y Y1.
  unfold days_in in Hdt. set (leap := is_leap (date_Year t)) in *. clearbody leap.
  generalize dependent (date_Month t). generalize dependent (date_Month u). generalize dependent (date_Day t).
  generalize dependent (date_Day u). clear t u. intros du Hdu dt mu Hmu mt Hm Hmt Hlt.
  assert (H12 : mt = 1 \/ mt = 2 \/ mt = 3 \/ mt = 4 \/ mt = 5 \/ mt = 6 \/ mt = 7 \/ mt = 8 \/ mt = 9 \/ mt = 10 \/ mt = 11 \/ mt = 12) by lia.
  destruct leap; (destruct H12 as [->|[->|[->|[->|[->|[->|[->|[->|[->|[->|[->| ->]]]]]]]]]]]);
    cbn in *; destruct (Z.leb_spec mu 2); Z.to_euclidean_division_equations; lia.
Qed.

(** Numbers are ordered like (year, month, day). *)
Lemma day_number_compare t u :
  valid_date t = true -> valid_date u = true -> (day_number t ?= day_number u) = date_compare t u.
Proof.
  intros Ht Hu. unfold date_compare.
  assert (Hyears : forall a b, valid_date a = true -> valid_date b = true -> date_Year a < date_Year b -> day_number a < day_number b).
  { intros a b Ha Hb Hy. pose proof (day_in_year a Ha). pose proof (day_in_year b Hb).
    pose proof (year_days_mono (date_Year a) (date_Year b - 1) ltac:(lia)). lia. }
  destruct (Z.compare_spec (date_Year t) (date_Year u)) as [Ey|Ey|Ey].
  - destruct (Z.compare_spec (date_Month t) (date_Month u)) as [Em|Em|Em].
    + unfold day_number. rewrite Ey, Em. destruct (Z.compare_spec (date_Day t) (date_Day u));
        [rewrite Z.compare_eq_iff|rewrite Z.compare_lt_iff|rewrite Z.compare_gt_iff]; lia.
    + by apply Z.compare_lt_iff, day_in_month.
    + by apply Z.compare_gt_iff, day_in_month.
  - by apply Z.compare_lt_iff, Hyears.
  - by apply Z.compare_gt_iff, Hyears.
Qed.

Lemma day_number_inj t u : valid_date t = true -> valid_date u = true -> day_number t = day_number u -> t = u.
Proof.
  intros Ht Hu He. pose proof (day_number_compare t u Ht Hu) as Hc. rewrite He, Z.compare_refl in Hc. unfold date_compare in Hc.
  destruct (Z.compare_spec (date_Year t) (date_Year u)); [|done..].
  destruct (Z.compare_spec (date_Month t) (date_Month u)); [|done..].
  destruct (Z.compare_spec (date_Day t) (date_Day u)); [|done..]. destruct t, u. simpl in *. congruence.
Qed.

Lemma civil_day_number t : valid_date t = true -> civil (day_number t) = t.
Proof. intros Ht. destruct (day_number_civil (day_number t)) as [Hv Hd]. by apply day_number_inj. Qed.

(** ** The order of their texts *)

Lemma compare_cons c d s t :
  String.compare (String c s) (String d t) = match Ascii.compare c d with Eq => String.compare s t | r => r end.
Proof. reflexivity. Qed.

Lemma compare_digit x y : 0 <= x <= 9 -> 0 <= y <= 9 -> Ascii.compare (digit x) (digit y) = (x ?= y).
Proof.
  intros Hx Hy. unfold Ascii.compare, digit, Ascii.N_of_ascii. 
  assert (H10 : forall m, 0 <= m <= 9 -> m = 0 \/ m = 1 \/ m = 2 \/ m = 3 \/ m = 4 \/ m = 5 \/ m = 6 \/ m = 7 \/ m = 8 \/ m = 9) by lia.
  destruct (H10 _ Hx) as [->|[->|[->|[->|[->|[->|[->|[->|[->| ->]]]]]]]]];
    destruct (H10 _ Hy) as [->|[->|[->|[->|[->|[->|[->|[->|[->| ->]]]]]]]]]; reflexivity.
Qed.

Definition then_compare (c r : comparison) : comparison := match c with Eq => r | c => c end.

Lemma two_digits_app a s : (two_digits a ++ s)%string = String (digit (a / 10 mod 10)) (String (digit (a mod 10)) s).
Proof. reflexivity. Qed.

Lemma compare_two_digits a b s t : 0 <= a <= 99 -> 0 <= b <= 99 ->
  String.compare (two_digits a ++ s) (two_digits b ++ t) = then_compare (a ?= b) (String.compare s t).
Proof.
  intros Ha Hb. rewrite !two_digits_app, !compare_cons, !compare_digit by (Z.to_euclidean_division_equations; lia).
  unfold then_compare.
  destruct (Z.compare_spec (a / 10 mod 10) (b / 10 mod 10)), (Z.compare_spec (a mod 10) (b mod 10)), (Z.compare_spec a b);
    try done; exfalso; Z.to_euclidean_division_equations; lia.
Qed.

Lemma four_digits_two a : 0 <= a <= 9999 -> four_digits a = (two_digits (a / 100) ++ two_digits (a mod 100))%string.
Proof.
  intros Ha. rewrite two_digits_app. unfold four_digits, two_digits.
  assert (E1 : a / 100 / 10 mod 10 = a / 1000 mod 10) by (Z.to_euclidean_division_equations; lia).
  assert (E2 : a mod 100 / 10 mod 10 = a / 10 mod 10) by (Z.to_euclidean_division_equations; lia).
  assert (E3 : a mod 100 mod 10 = a mod 10) by (Z.to_euclidean_division_equations; lia).
  by rewrite E1, E2, E3.
Qed.

Lemma string_app_nil s : (s ++ "")%string = s.
Proof. induction s as [|c s IH]; [done|]. rewrite !string_cons_app. by rewrite IH. Qed.

Lemma compare_four_digits a b s t : 0 <= a <= 9999 -> 0 <= b <= 9999 ->
  String.compare (four_digits a ++ s) (four_digits b ++ t) = then_compare (a ?= b) (String.compare s t).
Proof.
  intros Ha Hb. rewrite !four_digits_two, !string_app_assoc, !compare_two_digits by (done || (Z.to_euclidean_division_equations; lia)).
  unfold then_compare.
  destruct (Z.compare_spec (a / 100) (b / 100)), (Z.compare_spec (a mod 100) (b mod 100)), (Z.compare_spec a b);
    try done; exfalso; Z.to_euclidean_division_equations; lia.
Qed.

Definition year4 (t : Date) : Prop := 0 <= date_Year t <= 9999.

Lemma Format_year4 t : year4 t -> Format t = format_date t.
Proof.
  unfold year4, Format, format_date, format_year, four_or_more. intros Hy.
  rewrite (proj2 (Z.ltb_ge _ _)) by lia. by rewrite (proj2 (Z.leb_le _ _)) by lia.
Qed.

Lemma Format_compare t u :
  valid_date t = true -> valid_date u = true -> year4 t -> year4 u ->
  String.compare (Format t) (Format u) = (day_number t ?= day_number u).
Proof.
  intros Ht Hu Hyt Hyu. rewrite !Format_year4, day_number_compare by done. unfold format_date, date_compare.
  destruct (valid_date_bounds t Ht) as (? & ? & ?), (valid_date_bounds u Hu) as (? & ? & ?).
  rewrite compare_four_digits by done. unfold then_compare. destruct (date_Year t ?= date_Year u); [|done..].
  rewrite !string_cons_app, compare_cons. change (Ascii.compare "-" "-") with Eq. cbn iota.
  rewrite compare_two_digits by lia. unfold then_compare. destruct (date_Month t ?= date_Month u); [|done..].
  rewrite compare_cons. change (Ascii.compare "-" "-") with Eq. cbn iota.
  pose proof (compare_two_digits (date_Day t) (date_Day u) EmptyString EmptyString ltac:(lia) ltac:(lia)) as Hc.
  rewrite !string_app_nil in Hc. rewrite Hc. unfold then_compare. by destruct (date_Day t ?= date_Day u).
Qed.

Lemma Format_leb t u :
  valid_date t = true -> valid_date u = true -> year4 t -> year4 u ->
  String.leb (Format t) (Format u) = (day_number t <=? day_number u).
Proof. intros Ht Hu Hyt Hyu. unfold String.leb, Z.leb. by rewrite Format_compare. Qed.
