(* ===== verification/Tree.v ===== *)
(** * The tree of the locations

    [Locations_Tree] on rows whose parent edges have no cycle: every row is in
    the tree once, under its parent if that is a row too, and the totals are
    the sums over the subtrees. *)

From S2P Require Import Prelude GoBase Schema Sql Evolution Queries PushRepo Exec Locations LocationTree.
From stdpp Require Import relations.

Definition sum_Z (l : list Z) : Z := foldr Z.add 0%Z l.

Lemma sum_Z_app l k : sum_Z (l ++ k) = (sum_Z l + sum_Z k)%Z.
Proof. induction l as [|z l IH]; simpl; [done|]. rewrite IH. lia. Qed.

Lemma sum_Z_nonneg l : Forall (fun z => 0 <= z)%Z l -> (0 <= sum_Z l)%Z.
Proof. induction 1; simpl; lia. Qed.

#[global] Instance sum_Z_Permutation : Proper (Permutation ==> eq) sum_Z.
Proof. intros l k. induction 1; simpl; lia. Qed.

Lemma sum_Z_submseteq l k : l ⊆+ k -> Forall (fun z => 0 <= z)%Z k -> (sum_Z l <= sum_Z k)%Z.
Proof.
  intros [k' ->]%submseteq_Permutation [_ Hk]%Forall_app. rewrite sum_Z_app. pose proof (sum_Z_nonneg k' Hk). lia.
Qed.

Section forest.
Context (rows : list Location) (direct : gmap string Z).
Context (Hnd : NoDup (ID <$> rows)).

Definition row_map : gmap string Location := list_to_map ((fun r => (ID r, r)) <$> rows).

Lemma row_map_lookup x r : row_map !! x = Some r <-> r ∈ rows /\ ID r = x.
Proof.
  unfold row_map. rewrite <- elem_of_list_to_map.
  - rewrite list_elem_of_fmap. split; [intros (r' & [= -> ->] & Hr); done|intros [Hr <-]; eauto].
  - rewrite <- list_fmap_compose. exact Hnd.
Qed.

Lemma row_map_row r : r ∈ rows -> row_map !! ID r = Some r.
Proof. intros Hr. by apply row_map_lookup. Qed.

(** The parent of a row, if it is a row. *)
Definition up (x : string) : option string :=
  r ← row_map !! x; p ← loc_ParentID (Cols r); _ ← row_map !! p; Some p.

(** The rows under a row, in order. *)
Definition child_of (p : option string) (r : Location) : bool := bool_decide (loc_ParentID (Cols r) = p).
Definition kids_in (l : list Location) (x : string) : list string := ID <$> List.filter (child_of (Some x)) l.
Definition kids (x : string) : list string := kids_in rows x.

Lemma elem_of_kids_in l x y : y ∈ kids_in l x <-> exists r, r ∈ l /\ ID r = y /\ loc_ParentID (Cols r) = Some x.
Proof.
  unfold kids_in. rewrite list_elem_of_fmap. split.
  - intros (r & -> & Hr). apply elem_of_filter_bool in Hr as [Hr Hp]. unfold child_of in Hp. case_bool_decide; [eauto|done].
  - intros (r & Hr & <- & Hp). exists r. split; [done|]. apply elem_of_filter_bool. split; [done|].
    unfold child_of. by rewrite bool_decide_true.
Qed.

Lemma kids_up x y : is_Some (row_map !! x) -> y ∈ kids x <-> up y = Some x.
Proof.
  intros [rx Hx]. unfold kids. rewrite elem_of_kids_in. unfold up. split.
  - intros (r & Hr & <- & Hp). rewrite (row_map_row r Hr). simpl. rewrite Hp. simpl. by rewrite Hx.
  - destruct (row_map !! y) as [r|] eqn:E; simpl; [|done]. apply row_map_lookup in E as [Hr <-].
    destruct (loc_ParentID (Cols r)) as [p|] eqn:Ep; simpl; [|done]. destruct (row_map !! p); simpl; [|done].
    intros [= ->]. eauto.
Qed.

Lemma up_row y x : up y = Some x -> is_Some (row_map !! y) /\ is_Some (row_map !! x).
Proof.
  unfold up. destruct (row_map !! y) as [r|]; simpl; [|done]. destruct (loc_ParentID (Cols r)) as [p|]; simpl; [|done].
  destruct (row_map !! p) eqn:E; simpl; [|done]. intros [= <-]. by rewrite E.
Qed.

(** ** The nodes *)

Definition cnt (x : string) : Z := default 0%Z (direct !! x).

Definition node (total : string -> Z) (ks : string -> list string) (r : Location) : LocationNode :=
  mkLocationNode r (cnt (ID r)) (total (ID r)) (ks (ID r)).

Definition nodes_are (total : string -> Z) (ks : string -> list string) (m : gmap string LocationNode) : Prop :=
  forall x, m !! x = node total ks <$> row_map !! x.

Lemma foldl_insert_nodes (l : list Location) (m : gmap string LocationNode) x (f : Location -> LocationNode) :
  NoDup (ID <$> l) ->
  foldl (fun m row => <[ID row := f row]> m) m l !! x =
  match (list_to_map ((fun r => (ID r, r)) <$> l) : gmap string Location) !! x with Some r => Some (f r) | None => m !! x end.
Proof.
  revert m. induction l as [|r l IH]; intros m Hl; [by simpl; rewrite lookup_empty|].
  apply NoDup_cons in Hl as [Hr Hl]. simpl. rewrite IH by done.
  destruct (decide (x = ID r)) as [->|Hne].
  - rewrite lookup_insert_eq. rewrite (not_elem_of_list_to_map_1 _ (ID r)); [by rewrite lookup_insert_eq|].
    by rewrite <- list_fmap_compose.
  - rewrite lookup_insert_ne by done. by rewrite lookup_insert_ne by done.
Qed.

Lemma base_nodes :
  nodes_are (fun _ => 0%Z) (fun _ => [])
    (foldl (fun m row => <[ID row := mkLocationNode row (default 0%Z (direct !! ID row)) 0 []]> m) ∅ rows).
Proof. intros x. rewrite foldl_insert_nodes by done. unfold row_map. destruct (_ !! x); [done|]. apply lookup_empty. Qed.

Lemma nodes_are_parent total ks m r : nodes_are total ks m -> r ∈ rows -> node_parent m r = up (ID r).
Proof.
  intros Hm Hr. unfold node_parent, up. rewrite row_map_row by done. simpl. destruct (loc_ParentID (Cols r)) as [p|]; simpl; [|done].
  rewrite Hm. by destruct (row_map !! p).
Qed.

Definition rootless (r : Location) : bool := bool_decide (up (ID r) = None).

Lemma kids_in_snoc l r x :
  kids_in (l ++ [r]) x = kids_in l x ++ (if decide (loc_ParentID (Cols r) = Some x) then [ID r] else []).
Proof.
  unfold kids_in. rewrite List.filter_app, fmap_app. f_equal. simpl. unfold child_of. by case_bool_decide; case_decide.
Qed.

Lemma link_nodes m0 pre :
  nodes_are (fun _ => 0%Z) (fun _ => []) m0 -> (forall r, r ∈ pre -> r ∈ rows) ->
  let '(m, roots) := foldl link_node (m0, []) pre in
  nodes_are (fun _ => 0%Z) (kids_in pre) m /\ roots = ID <$> List.filter rootless pre.
Proof.
  intros Hm0. induction pre as [|r pre IH] using rev_ind; intros Hpre; [done|].
  rewrite foldl_app. simpl. destruct (foldl link_node (m0, []) pre) as [m roots].
  destruct IH as [Hm ->]; [intros r' Hr'; apply Hpre, elem_of_app; by left|].
  assert (Hr : r ∈ rows) by (apply Hpre, elem_of_app; right; by left).
  unfold link_node. cbn [fst snd]. rewrite (nodes_are_parent _ _ _ r Hm Hr).
  assert (Hroots : ID <$> List.filter rootless (pre ++ [r]) =
    (ID <$> List.filter rootless pre) ++ (if decide (up (ID r) = None) then [ID r] else [])).
  { rewrite List.filter_app, fmap_app. f_equal. simpl. unfold rootless. by case_bool_decide; case_decide. }
  rewrite Hroots. destruct (up (ID r)) as [p|] eqn:Eup.
  - rewrite app_nil_r. split; [|done]. intros x.
    assert (Hp : loc_ParentID (Cols r) = Some p).
    { unfold up in Eup. rewrite row_map_row in Eup by done. simpl in Eup. destruct (loc_ParentID (Cols r)) as [p'|]; simpl in Eup; [|done].
      destruct (row_map !! p'); simpl in Eup; congruence. }
    destruct (decide (x = p)) as [->|Hne].
    + rewrite lookup_alter_eq, Hm. destruct (row_map !! p) as [rp|] eqn:Ep; simpl; [|done]. apply row_map_lookup in Ep as [_ Ep].
      unfold node, add_child. simpl. by rewrite Ep, kids_in_snoc, decide_True.
    + rewrite lookup_alter_ne, Hm by done. destruct (row_map !! x) as [rx|] eqn:Ex; simpl; [|done]. apply row_map_lookup in Ex as [_ Ex].
      unfold node. by rewrite Ex, kids_in_snoc, decide_False, app_nil_r by congruence.
  - split; [|done]. intros x. rewrite Hm. destruct (row_map !! x) as [rx|] eqn:Ex; simpl; [|done].
    unfold node. do 2 f_equal. apply row_map_lookup in Ex as Ex'. destruct Ex' as [_ ->].
    rewrite kids_in_snoc, decide_False; [by rewrite app_nil_r|]. intros Hp.
    unfold up in Eup. rewrite row_map_row in Eup by done. simpl in Eup. rewrite Hp in Eup. simpl in Eup. by rewrite Ex in Eup.
Qed.

(** ** Subtrees *)

Context (Hacyc : acyclic up).

(** Going down from [x] ends in fewer than [f] steps. *)
Fixpoint bounded (f : nat) (x : string) : Prop :=
  match f with O => False | S f => forall c, c ∈ kids x -> bounded f c end.

Lemma chains_bounded f x :
  is_Some (row_map !! x) -> (forall y n, nsteps (par up) n y x -> n < f) -> bounded f x.
Proof.
  revert x. induction f as [|f IH]; intros x Hx Hn; simpl.
  - pose proof (Hn x 0 (nsteps_O _ x)). lia.
  - intros c Hc%kids_up; [|done]. apply IH; [by apply up_row in Hc as [? _]|].
    intros y n Hy. assert (S n < S f); [|lia]. apply (Hn y). by eapply nsteps_r.
Qed.

Lemma chain_rows n y x : nsteps (par up) n y x ->
  exists l, length l = n /\ NoDup l /\ forall z, z ∈ l -> z ∈ ID <$> rows /\ is_Some (up z).
Proof.
  intros (l & Hl & Hndl & Hin)%chain_NoDup; [|done]. exists l. split_and!; [done..|].
  intros z [[p Hz] _]%Hin. split; [|by exists p]. apply up_row in Hz as [[r [Hr <-]%row_map_lookup] _].
  by apply list_elem_of_fmap_2.
Qed.

Lemma row_bounded x : is_Some (row_map !! x) -> bounded (S (length rows)) x.
Proof.
  intros Hx. apply chains_bounded; [done|]. intros y n (l & <- & Hl & Hin)%chain_rows.
  assert (l ⊆+ ID <$> rows) as Hsub by (apply NoDup_submseteq; [done|intros z Hz; apply Hin, Hz]).
  apply submseteq_length in Hsub. rewrite length_fmap in Hsub. lia.
Qed.

Lemma root_bounded x : is_Some (row_map !! x) -> up x = None -> bounded (length rows) x.
Proof.
  intros Hx Hup. apply chains_bounded; [done|]. intros y n (l & <- & Hl & Hin)%chain_rows.
  assert (x :: l ⊆+ ID <$> rows) as Hsub.
  { apply NoDup_submseteq; [apply NoDup_cons; split; [|done]; intros [_ Hc]%Hin; rewrite Hup in Hc; by destruct Hc|].
    intros z [->|Hz]%elem_of_cons; [|by apply Hin]. destruct Hx as [r [Hr <-]%row_map_lookup]. by apply list_elem_of_fmap_2. }
  apply submseteq_length in Hsub. rewrite length_fmap in Hsub. simpl in Hsub. lia.
Qed.

Fixpoint sub (f : nat) (x : string) : list string :=
  match f with O => [] | S f => x :: concat (sub f <$> kids x) end.

Definition subtree (x : string) : list string := sub (S (length rows)) x.

Lemma fmap_ext_in {A B} (f g : A -> B) (l : list A) : (forall x, x ∈ l -> f x = g x) -> f <$> l = g <$> l.
Proof.
  intros Hl. induction l as [|a l IH]; [done|]. simpl. f_equal; [apply Hl; by left|]. apply IH. intros x Hx. apply Hl. by right.
Qed.

Lemma sub_mono f f' x : bounded f x -> f <= f' -> sub f' x = sub f x.
Proof.
  revert f' x. induction f as [|f IH]; intros f' x Hb Hf; [done|]. destruct f' as [|f']; [lia|]. simpl. do 2 f_equal.
  apply fmap_ext_in. intros c Hc. apply IH; [by apply Hb|lia].
Qed.

Lemma sub_subtree f x : bounded f x -> f <= S (length rows) -> sub f x = subtree x.
Proof. intros Hb Hf. symmetry. by apply sub_mono. Qed.

Lemma elem_of_concat_fmap {A B} (F : A -> list B) (l : list A) y :
  y ∈ concat (F <$> l) <-> exists c, c ∈ l /\ y ∈ F c.
Proof.
  induction l as [|a l IH]; simpl; [split; [by intros ?%elem_of_nil|intros (c & ?%elem_of_nil & _); done]|].
  rewrite elem_of_app, IH. setoid_rewrite elem_of_cons. naive_solver.
Qed.

Lemma NoDup_concat_fmap {A B} (F : A -> list B) (l : list A) :
  NoDup l -> (forall c, c ∈ l -> NoDup (F c)) -> (forall c d y, c ∈ l -> d ∈ l -> y ∈ F c -> y ∈ F d -> c = d) ->
  NoDup (concat (F <$> l)).
Proof.
  induction 1 as [|a l Ha Hl IH]; intros HF Hdis; simpl; [constructor|]. apply NoDup_app. split_and!.
  - apply HF. by left.
  - intros y Hy (c & Hc & Hyc)%elem_of_concat_fmap. assert (a = c) as <-; [|done].
    by eapply (Hdis a c y); [left|right| |].
  - apply IH; [intros c Hc; apply HF; by right|]. intros c d y Hc Hd. apply Hdis; by right.
Qed.

Lemma elem_of_sub f x y : is_Some (row_map !! x) -> bounded f x -> y ∈ sub f x <-> rtc (par up) y x.
Proof.
  revert x. induction f as [|f IH]; intros x Hx Hb; [done|]. simpl. rewrite elem_of_cons, elem_of_concat_fmap. split.
  - intros [->|(c & Hc & Hy)]; [apply rtc_refl|]. pose proof (proj1 (kids_up x c Hx) Hc) as Hup.
    eapply rtc_r; [|exact Hup]. apply IH; [by apply up_row in Hup as [? _]|by apply Hb|done].
  - intros Hr. apply rtc_inv_r in Hr as [->|(c & Hr & Hup)]; [by left|right]. exists c.
    assert (c ∈ kids x) as Hc by (by apply kids_up). split; [done|].
    apply IH; [by apply up_row in Hup as [? _]|by apply Hb|done].
Qed.

Lemma ups_comparable y c d : rtc (par up) y c -> rtc (par up) y d -> rtc (par up) c d \/ rtc (par up) d c.
Proof.
  intros Hc. revert d. induction Hc as [y|y z c Hyz Hzc IH]; intros d Hd; [by left|].
  apply rtc_inv in Hd as [<-|(z' & Hyz' & Hzd)].
  - right. by eapply rtc_l.
  - rewrite (par_functional _ _ _ _ Hyz Hyz') in *. by apply IH.
Qed.

Lemma siblings_apart x c d y :
  par up c x -> par up d x -> rtc (par up) y c -> rtc (par up) y d -> c = d.
Proof.
  intros Hc Hd Hyc Hyd.
  assert (Hcd : forall a b, par up a x -> par up b x -> rtc (par up) a b -> a = b).
  { intros a b Ha Hb Hr. apply rtc_inv in Hr as [->|(z & Haz & Hzb)]; [done|].
    rewrite (par_functional _ _ _ _ Haz Ha) in Hzb. destruct (Hacyc x). eapply tc_rtc_l; [exact Hzb|by apply tc_once]. }
  destruct (ups_comparable y c d Hyc Hyd) as [Hr|Hr]; [by apply Hcd|symmetry; by apply Hcd].
Qed.

Lemma NoDup_kids x : NoDup (kids x).
Proof.
  unfold kids, kids_in. eapply sublist_NoDup; [exact Hnd|]. apply fmap_sublist.
  generalize rows as l. induction l as [|r l IH]; simpl; [constructor|].
  destruct (child_of _ r); [by apply sublist_skip|by apply sublist_cons].
Qed.

Lemma NoDup_sub f x : is_Some (row_map !! x) -> bounded f x -> NoDup (sub f x).
Proof.
  revert x. induction f as [|f IH]; intros x Hx Hb; [done|]. simpl. apply NoDup_cons. split.
  - intros (c & Hc & Hxc)%elem_of_concat_fmap. pose proof (proj1 (kids_up x c Hx) Hc) as Hup.
    apply elem_of_sub in Hxc; [|by apply up_row in Hup as [? _]|by apply Hb].
    destruct (Hacyc x). eapply tc_rtc_l; [exact Hxc|by apply tc_once].
  - apply NoDup_concat_fmap; [apply NoDup_kids| |].
    + intros c Hc. pose proof (proj1 (kids_up x c Hx) Hc) as Hup. apply IH; [by apply up_row in Hup as [? _]|by apply Hb].
    + intros c d y Hc Hd Hyc Hyd.
      pose proof (proj1 (kids_up x c Hx) Hc) as Hupc. pose proof (proj1 (kids_up x d Hx) Hd) as Hupd.
      apply elem_of_sub in Hyc; [|by apply up_row in Hupc as [? _]|by apply Hb].
      apply elem_of_sub in Hyd; [|by apply up_row in Hupd as [? _]|by apply Hb].
      by eapply siblings_apart.
Qed.

Lemma elem_of_subtree x y : is_Some (row_map !! x) -> y ∈ subtree x <-> rtc (par up) y x.
Proof. intros Hx. apply elem_of_sub; [done|by apply row_bounded]. Qed.

Lemma NoDup_subtree x : is_Some (row_map !! x) -> NoDup (subtree x).
Proof. intros Hx. apply NoDup_sub; [done|by apply row_bounded]. Qed.

Lemma kid_row x c : is_Some (row_map !! x) -> c ∈ kids x -> is_Some (row_map !! c).
Proof. intros Hx Hc%kids_up; [|done]. by apply up_row in Hc as [? _]. Qed.

Lemma subtree_unfold x : is_Some (row_map !! x) -> subtree x = x :: concat (subtree <$> kids x).
Proof.
  intros Hx. unfold subtree at 1. cbn [sub]. do 2 f_equal. apply fmap_ext_in. intros c Hc.
  apply sub_subtree; [|lia]. pose proof (row_bounded x Hx) as Hb. by apply Hb.
Qed.

Lemma subtree_row x y : is_Some (row_map !! x) -> y ∈ subtree x -> is_Some (row_map !! y).
Proof.
  intros Hx Hy. apply elem_of_subtree in Hy; [|done]. apply rtc_inv in Hy as [->|(z & Hup & _)]; [done|].
  by apply up_row in Hup as [? _].
Qed.

(** ** Totals *)

Definition total (x : string) : Z := sum_Z (cnt <$> subtree x).

Context (Hcnt : forall x, (0 <= cnt x)%Z) (Hmax : (sum_Z (cnt <$> (ID <$> rows)) <= int64_max)%Z).

Lemma cnt_nonneg l : Forall (fun z => 0 <= z)%Z (cnt <$> l).
Proof. apply Forall_forall. intros z (x & -> & _)%list_elem_of_fmap. apply Hcnt. Qed.

Lemma sum_cnt_bound l : NoDup l -> (forall x, x ∈ l -> is_Some (row_map !! x)) ->
  (0 <= sum_Z (cnt <$> l) <= int64_max)%Z.
Proof.
  intros Hl Hrow. split; [apply sum_Z_nonneg, cnt_nonneg|]. etrans; [|exact Hmax].
  apply sum_Z_submseteq; [|apply cnt_nonneg]. apply fmap_submseteq, NoDup_submseteq; [done|].
  intros x Hx. destruct (Hrow x Hx) as [r [Hr <-]%row_map_lookup]. by apply list_elem_of_fmap_2.
Qed.

Lemma sum_concat (ls : list (list string)) : sum_Z (cnt <$> concat ls) = sum_Z ((fun l => sum_Z (cnt <$> l)) <$> ls).
Proof. induction ls as [|l ls IH]; simpl; [done|]. by rewrite fmap_app, sum_Z_app, IH. Qed.

Lemma total_unfold x : is_Some (row_map !! x) -> total x = (cnt x + sum_Z (total <$> kids x))%Z.
Proof.
  intros Hx. unfold total at 1. rewrite subtree_unfold by done. simpl. f_equal. rewrite sum_concat. by rewrite <- list_fmap_compose.
Qed.

(** ** rollUp *)

Lemma total_bounds x : is_Some (row_map !! x) -> (0 <= total x <= int64_max)%Z.
Proof.
  intros Hx. apply sum_cnt_bound; [by apply NoDup_subtree|]. intros y Hy. by eapply subtree_row.
Qed.

#[local] Opaque subtree total.

(** The totals of [l] are set. *)
Definition set_totals (l : list string) (t : string -> Z) (y : string) : Z := if decide (y ∈ l) then total y else t y.

Definition roll_step (fuel : nat) (acc : Z * gmap string LocationNode * gset string) (child : string) :=
  let '(total, nodes, visited) := acc in
  let '(t, nodes, visited) := rollUp child nodes visited fuel in
  (wrap64 (total + t), nodes, visited).

Definition rolls (fuel : nat) (x : string) : Prop :=
  forall m visited t, (forall y, y ∈ subtree x -> y ∉ visited) -> nodes_are t kids m ->
  exists m', rollUp x m visited fuel = (total x, m', list_to_set (subtree x) ∪ visited) /\
    nodes_are (set_totals (subtree x) t) kids m'.

Lemma nodes_are_ext t t' ks m :
  (forall x, is_Some (row_map !! x) -> t x = t' x) -> nodes_are t ks m -> nodes_are t' ks m.
Proof.
  intros Ht Hm x. rewrite Hm. destruct (row_map !! x) as [r|] eqn:E; simpl; [|done].
  apply row_map_lookup in E as E'. destruct E' as [_ <-]. unfold node. rewrite Ht; [done|]. by eexists.
Qed.

Lemma roll_children fuel cs acc m visited t :
  (forall c, c ∈ cs -> is_Some (row_map !! c) /\ rolls fuel c) ->
  NoDup (concat (subtree <$> cs)) -> (forall y, y ∈ concat (subtree <$> cs) -> y ∉ visited) ->
  (0 <= acc)%Z -> (acc + sum_Z (total <$> cs) <= int64_max)%Z ->
  nodes_are t kids m ->
  exists m', foldl (roll_step fuel) (acc, m, visited) cs =
    ((acc + sum_Z (total <$> cs))%Z, m', list_to_set (concat (subtree <$> cs)) ∪ visited) /\
    nodes_are (set_totals (concat (subtree <$> cs)) t) kids m'.
Proof.
  revert acc m visited t. induction cs as [|c cs IH]; intros acc m visited t Hcs Hndc Hvis Hacc Hsum Hm.
  - exists m. simpl. rewrite Z.add_0_r, union_empty_l_L. split; [done|]. by eapply nodes_are_ext.
  - destruct (Hcs c) as [Hc Hroll]; [by left|]. rewrite !fmap_cons in *. cbn [concat foldl] in *.
    change (sum_Z (total c :: ?l)) with (total c + sum_Z l)%Z in *. apply NoDup_app in Hndc as (Hnd1 & Hdis & Hnd2).
    destruct (Hroll m visited t) as (m1 & Hr & Hm1); [intros y Hy; apply Hvis, elem_of_app; by left|done|].
    unfold roll_step at 2. rewrite Hr.
    pose proof (total_bounds c Hc) as Hb.
    assert (Hnn : (0 <= sum_Z (total <$> cs))%Z).
    { apply sum_Z_nonneg, Forall_forall. intros z (x & -> & Hx)%list_elem_of_fmap.
      destruct (Hcs x) as [Hxr _]; [by right|]. by apply total_bounds. }
    rewrite wrap64_id by (unfold int64_min in *; lia).
    destruct (IH (acc + total c)%Z m1 (list_to_set (subtree c) ∪ visited) (set_totals (subtree c) t)) as (m' & Hf & Hm').
    + intros c' Hc'. apply Hcs. by right.
    + done.
    + intros y Hy. rewrite elem_of_union, elem_of_list_to_set. intros [Hyc|Hyv]; [by apply (Hdis y)|].
      apply (Hvis y); [|done]. apply elem_of_app. by right.
    + lia.
    + lia.
    + done.
    + exists m'. rewrite Hf. split.
      * rewrite list_to_set_app_L. f_equal; [f_equal; lia|]. rewrite !union_assoc_L. f_equal. apply union_comm_L.
      * eapply nodes_are_ext; [|exact Hm']. intros y _. unfold set_totals.
        destruct (decide (y ∈ concat (subtree <$> cs))), (decide (y ∈ subtree c)), (decide (y ∈ _ ++ _)) as [Hin|Hin];
          try done; rewrite elem_of_app in Hin; tauto.
Qed.

Lemma rollUp_rolls fuel x : is_Some (row_map !! x) -> bounded fuel x -> rolls fuel x.
Proof.
  revert x. induction fuel as [|fuel IH]; intros x Hx Hb; [done|]. intros m visited t Hvis Hm.
  pose proof (subtree_unfold x Hx) as Hsub. pose proof (NoDup_subtree x Hx) as Hnds. rewrite Hsub in Hnds.
  apply NoDup_cons in Hnds as [Hxk Hndk].
  cbn [rollUp]. rewrite decide_False by (apply Hvis; rewrite Hsub; by left).
  destruct Hx as [r Hx]. rewrite (Hm x), Hx. cbn [fmap option_fmap option_map node_ItemCount node_Children node].
  assert (Hr : ID r = x) by (by apply row_map_lookup in Hx as [_ ?]). rewrite Hr.
  assert (Hxs : is_Some (row_map !! x)) by (by exists r).
  pose proof (total_unfold x Hxs) as Htot. pose proof (total_bounds x Hxs) as Hbnd.
  destruct (roll_children fuel (kids x) (cnt x) m ({[x]} ∪ visited) t) as (m1 & Hf & Hm1).
  - intros c Hc. pose proof (kid_row x c Hxs Hc). split; [done|]. apply IH; [done|by apply Hb].
  - done.
  - intros y Hy. rewrite elem_of_union, elem_of_singleton. intros [->|Hyv]; [done|].
    apply (Hvis y); [|done]. rewrite Hsub. by right.
  - apply Hcnt.
  - lia.
  - done.
  - fold (roll_step fuel). 
    change (foldl _ (cnt x, m, {[x]} ∪ visited) (kids x)) with (foldl (roll_step fuel) (cnt x, m, {[x]} ∪ visited) (kids x)).
    rewrite Hf, <- Htot. eexists. split; [|].
    + f_equal. rewrite Hsub. simpl. rewrite !union_assoc_L. f_equal. apply union_comm_L.
    + intros y. destruct (decide (y = x)) as [->|Hne].
      * rewrite lookup_alter_eq, (Hm1 x), Hx. simpl. unfold node, set_total. simpl. rewrite Hr. do 2 f_equal.
        unfold set_totals. rewrite decide_True; [done|]. rewrite Hsub. by left.
      * rewrite lookup_alter_ne, (Hm1 y) by done. destruct (row_map !! y) as [ry|] eqn:Ey; simpl; [|done].
        apply row_map_lookup in Ey as [_ Ey]. unfold node. rewrite Ey. do 2 f_equal. unfold set_totals.
        destruct (decide (y ∈ concat (subtree <$> kids x))) as [H1|H1], (decide (y ∈ subtree x)) as [H2|H2]; try done;
          rewrite Hsub, elem_of_cons in H2; tauto.
Qed.

(** ** The roots *)

Definition roots : list string := ID <$> List.filter rootless rows.

Lemma elem_of_roots x : x ∈ roots <-> is_Some (row_map !! x) /\ up x = None.
Proof.
  unfold roots. rewrite list_elem_of_fmap. split.
  - intros (r & -> & [Hr Hl]%elem_of_filter_bool). unfold rootless in Hl. apply bool_decide_eq_true in Hl. split; [|done].
    exists r. by apply row_map_row.
  - intros [[r Hr] Hup]. apply row_map_lookup in Hr as [Hr <-]. exists r. split; [done|]. apply elem_of_filter_bool.
    split; [done|]. unfold rootless. by apply bool_decide_eq_true.
Qed.

Lemma climb n y : is_Some (row_map !! y) ->
  (exists x, x ∈ roots /\ rtc (par up) y x) \/ exists z, nsteps (par up) n y z.
Proof.
  revert y. induction n as [|n IH]; intros y Hy; [right; eexists; constructor|].
  destruct (up y) as [p|] eqn:Hup.
  - destruct (IH p) as [(x & Hx & Hr)|[z Hz]]; [by apply up_row in Hup as [_ ?]| |].
    + left. exists x. split; [done|]. by eapply rtc_l.
    + right. exists z. by econstructor.
  - left. exists y. split; [by apply elem_of_roots|apply rtc_refl].
Qed.

Lemma every_row_rooted y : is_Some (row_map !! y) -> exists x, x ∈ roots /\ y ∈ subtree x.
Proof.
  intros Hy. destruct (climb (S (length rows)) y Hy) as [(x & Hx & Hr)|[z (l & Hlen & Hl & Hin)%chain_rows]].
  - exists x. split; [done|]. apply elem_of_subtree; [by apply elem_of_roots in Hx as [? _]|done].
  - assert (l ⊆+ ID <$> rows) as Hsub by (apply NoDup_submseteq; [done|intros w Hw; apply Hin, Hw]).
    apply submseteq_length in Hsub. rewrite length_fmap in Hsub. lia.
Qed.

Definition preorder : list string := concat (subtree <$> roots).

Lemma NoDup_preorder : NoDup preorder.
Proof.
  apply NoDup_concat_fmap.
  - unfold roots. eapply sublist_NoDup; [exact Hnd|]. apply fmap_sublist.
    generalize rows as l. induction l as [|r l IH]; simpl; [constructor|].
    destruct (rootless r); [by apply sublist_skip|by apply sublist_cons].
  - intros x [Hx _]%elem_of_roots. by apply NoDup_subtree.
  - intros x x' y [Hx Hup]%elem_of_roots [Hx' Hup']%elem_of_roots Hy Hy'.
    apply elem_of_subtree in Hy, Hy'; [|done..].
    destruct (ups_comparable y x x' Hy Hy') as [Hr|Hr]; apply rtc_inv in Hr as [->|(z & Hz & _)]; try done; unfold par in Hz; congruence.
Qed.

Lemma preorder_rows : preorder ≡ₚ ID <$> rows.
Proof.
  apply NoDup_Permutation; [apply NoDup_preorder|done|]. intros y. unfold preorder. rewrite elem_of_concat_fmap. split.
  - intros (x & [Hx _]%elem_of_roots & Hy). apply subtree_row in Hy as [r [Hr <-]%row_map_lookup]; [|done]. by apply list_elem_of_fmap_2.
  - intros (r & -> & Hr)%list_elem_of_fmap. apply every_row_rooted. exists r. by apply row_map_row.
Qed.

Lemma roll_roots l m t :
  (forall x, x ∈ l -> is_Some (row_map !! x)) -> nodes_are t kids m ->
  nodes_are (set_totals (concat (subtree <$> l)) t) kids
    (foldl (fun nodes root => (rollUp root nodes ∅ (S (length rows))).1.2) m l).
Proof.
  revert m t. induction l as [|x l IH]; intros m t Hl Hm.
  - simpl. by eapply nodes_are_ext.
  - assert (Hx : is_Some (row_map !! x)) by (apply Hl; by left).
    destruct (rollUp_rolls (S (length rows)) x Hx (row_bounded x Hx) m ∅ t) as (m1 & Hr & Hm1); [set_solver|done|].
    cbn [foldl]. rewrite Hr. cbn [fst snd]. eapply nodes_are_ext; [|apply IH; [intros y Hy; apply Hl; by right|exact Hm1]].
    intros y _. rewrite fmap_cons. cbn [concat]. unfold set_totals.
    destruct (decide (y ∈ concat (subtree <$> l))), (decide (y ∈ subtree x)), (decide (y ∈ _ ++ _)) as [Hin|Hin];
      try done; rewrite elem_of_app in Hin; tauto.
Qed.

Lemma build_tree_spec : exists m, build_tree rows direct = (m, roots) /\ nodes_are total kids m.
Proof.
  unfold build_tree. pose proof (link_nodes _ rows base_nodes (fun r Hr => Hr)) as Hlink.
  destruct (foldl link_node _ rows) as [m rs]. destruct Hlink as [Hm ->]. eexists. split; [reflexivity|].
  eapply nodes_are_ext; [|apply (roll_roots roots m (fun _ => 0%Z)); [by intros x [? _]%elem_of_roots|exact Hm]].
  intros y Hy. unfold set_totals. rewrite decide_True; [done|]. apply elem_of_concat_fmap, every_row_rooted, Hy.
Qed.

Lemma nodes_are_size t ks m : nodes_are t ks m -> size m = length rows.
Proof.
  intros Hm. assert (dom m = dom row_map) as Hd.
  { apply set_eq. intros x. rewrite !elem_of_dom, (Hm x), fmap_is_Some. done. }
  rewrite <- !size_dom, Hd, size_dom. unfold row_map. rewrite map_size_list_to_map; [by rewrite length_fmap|].
  rewrite <- list_fmap_compose. exact Hnd.
Qed.
End forest.
