(* ===== verification/Reports.v ===== *)
(** * Reports (storage/reporting.go, reporting/*.go, httpapi/reports.go)

    The aggregate queries, the reports made of them, and their handlers.  A
    LEFT JOIN gives NULL columns where nothing matches; a sum that leaves the
    64-bit integers is an error of SQLite.  The day of [time.Now()] is an
    argument. *)

From S2P Require Import Prelude GoBase Schema Sql Evolution Queries Locations Strconv Csv Calendar HttpCore.

(** ** gen/reporting.sql.go *)

(** [LEFT JOIN]: the matching rows, or NULL. *)
Definition left_join {A} (rows : list A) : list (option A) := match rows with [] => [None] | _ => Some <$> rows end.

(** NULL sorts before any text. *)
Definition null_first (a b : option string) : comparison :=
  match a, b with
  | None, None => Eq
  | None, Some _ => Lt
  | Some _, None => Gt
  | Some a, Some b => String.compare a b
  end.

(** [ORDER BY] a list of columns. *)
Fixpoint columns_leb (a b : list (option string)) : bool :=
  match a, b with
  | x :: a, y :: b => match null_first x y with Lt => true | Gt => false | Eq => columns_leb a b end
  | _, _ => true
  end.

(** [SUM]: every partial sum has to be a 64-bit integer. *)
Fixpoint sum_from (sum : Z) (prices : list Z) : res Z :=
  match prices with
  | [] => Ok sum
  | z :: prices =>
      if (int64_min <=? sum + z)%Z && (sum + z <=? int64_max)%Z then sum_from (sum + z) prices
      else Err (ErrMessage "integer overflow")
  end.
Definition sum_int64 (prices : list Z) : res Z := sum_from 0 prices.

Record ValuationByLocationRow := mkByLocationRow {
  vlr_LocationID : option string; vlr_LocationName : option string; vlr_ItemCount : Z; vlr_TotalValueMinor : Z }.
Record ValuationByLabelRow := mkByLabelRow {
  vbr_LabelID : string; vbr_LabelName : string; vbr_ItemCount : Z; vbr_TotalValueMinor : Z }.
Record ListWarrantyExpiringRow := mkExpiringRow { wer_ItemID : string; wer_ItemName : string; wer_ExpiresOn : option string }.
Record ListPurchasesInRangeRow := mkPurchasesRow {
  prr_ItemID : string; prr_ItemName : string; prr_PurchasedOn : option string; prr_Vendor : string; prr_PurchasePriceMinor : Z }.

Section queries.
Context (db : DB) (group : string).

Definition live_in {D} (r : Row D) : bool := (GroupID r =?s group) && live r.

Definition live_items : list Item := where_ live_in (items db).
Definition purchases_of (i : Item) : list Purchase :=
  where_ (fun p => live_in p && (pur_ItemID (Cols p) =?s ID i)) (item_purchase db).
Definition warranties_of (i : Item) : list Warranty :=
  where_ (fun w => live_in w && (war_ItemID (Cols w) =?s ID i)) (item_warranty db).
Definition location_name (id : option string) : list Location :=
  match id with Some id => where_ (fun l => live_in l && (ID l =?s id)) (locations db) | None => [] end.

Definition price_of (p : option Purchase) : Z := match p with Some p => pur_PriceMinor (Cols p) | None => 0 end.

(** The rows of the joins of [ValuationByLocation]. *)
Definition located : list (option string * option string * Z) :=
  flat_map (fun i =>
    flat_map (fun l =>
      (fun p => (item_LocationID (Cols i), (fun l : Location => loc_Name (Cols l)) <$> l, price_of p)) <$> left_join (purchases_of i))
    (left_join (location_name (item_LocationID (Cols i))))) live_items.

Definition rows_at (loc : option string) : list (option string * option string * Z) :=
  List.filter (fun x => bool_decide (x.1.1 = loc)) located.

Fixpoint mapM_res {A B} (f : A -> res B) (l : list A) : res (list B) :=
  match l with [] => mret [] | a :: l => b ← f a; bs ← mapM_res f l; mret (b :: bs) end.

Definition ValuationByLocation_rows : res (list ValuationByLocationRow) :=
  rows ← mapM_res (fun loc =>
    total ← sum_int64 (snd <$> rows_at loc);
    mret (mkByLocationRow loc (head (rows_at loc) ≫= (fun x => x.1.2)) (Z.of_nat (length (rows_at loc))) total))
    (remove_dups ((fun x => x.1.1) <$> located));
  mret (order_by (fun a b => columns_leb [vlr_LocationName a; vlr_LocationID a] [vlr_LocationName b; vlr_LocationID b]) rows).

(** The rows of the joins of [ValuationByLabel]. *)
Definition labelled : list (string * string * Z) :=
  flat_map (fun il =>
    flat_map (fun i =>
      flat_map (fun lb => (fun p => (ID lb, lbl_Name (Cols lb), price_of p)) <$> left_join (purchases_of i))
      (where_ (fun l => live_in l && (ID l =?s il_LabelID (Cols il))) (labels db)))
    (where_ (fun i => live_in i && (ID i =?s il_ItemID (Cols il))) (items db)))
  (where_ live_in (item_labels db)).

Definition rows_under (label : string * string) : list (string * string * Z) :=
  List.filter (fun x => bool_decide (x.1 = label)) labelled.

Definition ValuationByLabel_rows : res (list ValuationByLabelRow) :=
  rows ← mapM_res (fun label =>
    total ← sum_int64 (snd <$> rows_under label);
    mret (mkByLabelRow label.1 label.2 (Z.of_nat (length (rows_under label))) total))
    (remove_dups (fst <$> labelled));
  mret (order_by (fun a b => asc2_leb (vbr_LabelName a, vbr_LabelID a) (vbr_LabelName b, vbr_LabelID b)) rows).

(** [BETWEEN], of a text that is not NULL. *)
Definition text_between (from_date to_date : string) (v : option string) : bool :=
  match v with Some v => String.leb from_date v && String.leb v to_date | None => false end.

Definition ListWarrantyExpiring_rows (from_date to_date : string) : list ListWarrantyExpiringRow :=
  order_by (fun a b => columns_leb [wer_ExpiresOn a; Some (wer_ItemName a); Some (wer_ItemID a)]
                         [wer_ExpiresOn b; Some (wer_ItemName b); Some (wer_ItemID b)])
    (flat_map (fun i =>
       (fun w : Warranty => mkExpiringRow (ID i) (item_Name (Cols i)) (war_ExpiresOn (Cols w))) <$>
         List.filter (fun w : Warranty => (war_IsLifetime (Cols w) =? 0)%Z && text_between from_date to_date (war_ExpiresOn (Cols w)))
           (warranties_of i)) live_items).

Definition ListPurchasesInRange_rows (from_date to_date : string) : list ListPurchasesInRangeRow :=
  order_by (fun a b => columns_leb [prr_PurchasedOn a; Some (prr_ItemName a); Some (prr_ItemID a)]
                         [prr_PurchasedOn b; Some (prr_ItemName b); Some (prr_ItemID b)])
    (flat_map (fun i =>
       (fun p : Purchase =>
          mkPurchasesRow (ID i) (item_Name (Cols i)) (pur_PurchasedOn (Cols p)) (pur_Vendor (Cols p)) (pur_PriceMinor (Cols p))) <$>
         List.filter (fun p : Purchase => text_between from_date to_date (pur_PurchasedOn (Cols p))) (purchases_of i)) live_items).
End queries.

(** ** storage/reporting.go *)

Record LocationValuation := mkLocationValuation { lv_LocationID : string; lv_LocationName : string; lv_ItemCount : Z; lv_TotalValueMinor : Z }.
Record LabelValuation := mkLabelValuation { bv_LabelID : string; bv_LabelName : string; bv_ItemCount : Z; bv_TotalValueMinor : Z }.
Record WarrantyExpiringItem := mkExpiring { we_ItemID : string; we_ItemName : string; we_ExpiresOn : string }.
Record PurchaseInRange := mkInRange {
  pi_ItemID : string; pi_ItemName : string; pi_PurchasedOn : string; pi_Vendor : string; pi_PurchasePriceMinor : Z }.

Definition read_db {A} (f : DB -> res A) : M A := fun w => (f (wdb w), w).

Section reports.
Context (group : string).

Definition Reports_ValuationByLocation : M (list LocationValuation) :=
  rows ← read_db (fun db => ValuationByLocation_rows db group);
  mret ((fun r => mkLocationValuation (stringFromNull (vlr_LocationID r)) (stringFromNull (vlr_LocationName r))
                    (vlr_ItemCount r) (vlr_TotalValueMinor r)) <$> rows).

Definition Reports_ValuationByLabel : M (list LabelValuation) :=
  rows ← read_db (fun db => ValuationByLabel_rows db group);
  mret ((fun r => mkLabelValuation (vbr_LabelID r) (vbr_LabelName r) (vbr_ItemCount r) (vbr_TotalValueMinor r)) <$> rows).

Definition Reports_WarrantyExpiring (fromDate toDate : string) : M (list WarrantyExpiringItem) :=
  lift (reject ((fromDate =?s "") || (toDate =?s "")) "storage: WarrantyExpiring: fromDate and toDate are both required");;
  rows ← read_db (fun db => mret (ListWarrantyExpiring_rows db group fromDate toDate));
  mret ((fun r => mkExpiring (wer_ItemID r) (wer_ItemName r) (stringFromNull (wer_ExpiresOn r))) <$> rows).

Definition Reports_PurchasesInRange (fromDate toDate : string) : M (list PurchaseInRange) :=
  lift (reject ((fromDate =?s "") || (toDate =?s "")) "storage: PurchasesInRange: fromDate and toDate are both required");;
  rows ← read_db (fun db => mret (ListPurchasesInRange_rows db group fromDate toDate));
  mret ((fun r => mkInRange (prr_ItemID r) (prr_ItemName r) (stringFromNull (prr_PurchasedOn r)) (prr_Vendor r)
                    (prr_PurchasePriceMinor r)) <$> rows).
End reports.

(** ** reporting/valuation.go *)

Inductive GroupBy := GroupByLocation | GroupByLabel.
Definition unassignedLocationLabel : string := "Unassigned".
Definition ErrGroupByInvalid : GoError := ErrMessage "reporting: group_by must be location or label".

Definition ParseGroupBy (raw : string) : res GroupBy :=
  if raw =?s "location" then Ok GroupByLocation
  else if raw =?s "label" then Ok GroupByLabel
  else Err ErrGroupByInvalid.

Record ValuationRow := mkValuationRow { vr_GroupKey : string; vr_GroupLabel : string; vr_ItemCount : Z; vr_TotalValueMinor : Z }.

Definition Valuation (group : string) (groupBy : GroupBy) : M (list ValuationRow) :=
  match groupBy with
  | GroupByLocation =>
      rows ← Reports_ValuationByLocation group;
      mret ((fun r =>
        let label := if lv_LocationID r =?s "" then unassignedLocationLabel else lv_LocationName r in
        mkValuationRow (lv_LocationID r) label (lv_ItemCount r) (lv_TotalValueMinor r)) <$> rows)
  | GroupByLabel =>
      rows ← Reports_ValuationByLabel group;
      mret ((fun r => mkValuationRow (bv_LabelID r) (bv_LabelName r) (bv_ItemCount r) (bv_TotalValueMinor r)) <$> rows)
  end.

(** ** reporting/warranty.go *)

Definition DefaultWithinDays : Z := 30.
Definition ErrWithinDaysInvalid : GoError := ErrMessage "reporting: within_days must be zero or positive".

Record WarrantyExpiringRow := mkWarrantyRow { wr_ItemID : string; wr_ItemName : string; wr_ExpiresOn : string; wr_DaysRemaining : Z }.

(** [int(expires.Sub(asOf) / (24 * time.Hour))] *)
Definition days_remaining (expires asOf : Date) : Z := sub_days expires asOf ÷ day_ns.

(** [now] is the date of a time that is not the zero time. *)
Definition WarrantyExpiring (group : string) (now : Date) (withinDays : Z) : M (list WarrantyExpiringRow) :=
  if (withinDays <? 0)%Z then throw ErrWithinDaysInvalid else
  let asOfText := Format now in
  match parse_date asOfText with
  | None => throw (ErrMessage "reporting: WarrantyExpiring: format now as a calendar day")
  | Some asOf =>
      let toText := Format (AddDays asOf withinDays) in
      rows ← Reports_WarrantyExpiring group asOfText toText;
      lift (mapM_res (fun r =>
        match parse_date (we_ExpiresOn r) with
        | None => Err (ErrMessage "reporting: warranty expiring: expires_on is not a real ISO-8601 calendar day")
        | Some expires => Ok (mkWarrantyRow (we_ItemID r) (we_ItemName r) (we_ExpiresOn r) (days_remaining expires asOf))
        end) rows)
  end.

(** ** reporting/purchases.go *)

Definition ErrDateRangeInvalid : GoError :=
  ErrMessage "reporting: from and to must be real ISO-8601 calendar days (YYYY-MM-DD), with from no later than to".

Record PurchaseRow := mkPurchaseRow {
  pr_ItemID : string; pr_ItemName : string; pr_PurchasedOn : string; pr_Vendor : string; pr_PurchasePriceMinor : Z }.

Definition PurchasesInRange (group from to : string) : M (list PurchaseRow) :=
  match parse_date from with
  | None => throw ErrDateRangeInvalid
  | Some fromDate =>
      match parse_date to with
      | None => throw ErrDateRangeInvalid
      | Some toDate =>
          if (day_number toDate <? day_number fromDate)%Z then throw ErrDateRangeInvalid else
          rows ← Reports_PurchasesInRange group from to;
          mret ((fun r => mkPurchaseRow (pi_ItemID r) (pi_ItemName r) (pi_PurchasedOn r) (pi_Vendor r)
                            (pi_PurchasePriceMinor r)) <$> rows)
      end
  end.

(** ** reporting/locations.go *)

Record LocationItemCountRow := mkCountRow { lic_LocationID : string; lic_LocationName : string; lic_ItemCount : Z }.

(** [walk]: a node, then its children; the depth is bounded by [fuel]. *)
Fixpoint walk (nodes : gmap string LocationNode) (ids : list string) (fuel : nat) : option (list LocationItemCountRow) :=
  match fuel with
  | O => None
  | S fuel =>
      rows ← mapM (fun id =>
        n ← nodes !! id;
        children ← walk nodes (node_Children n) fuel;
        Some (mkCountRow (ID (node_Location n)) (loc_Name (Cols (node_Location n))) (node_TotalItemCount n) :: children)) ids;
      Some (concat rows)
  end.

(** A path down the tree passes every location at most once. *)
Definition ItemCountByLocation (group : string) : M (list LocationItemCountRow) :=
  '(nodes, roots) ← Locations_Tree group;
  match walk nodes roots (S (size nodes)) with
  | Some rows => mret rows
  | None => throw (ErrMessage "out of fuel")
  end.

(** ** httpapi/reports.go *)

Inductive ReportFormat := FormatJSON | FormatCSV.

Definition parseReportFormat (v : string) : option ReportFormat :=
  if v =?s "" then Some FormatJSON
  else if v =?s "json" then Some FormatJSON
  else if v =?s "csv" then Some FormatCSV
  else None.

(** The rows of the JSON, or the name and text of the CSV file. *)
Inductive ReportAnswer (A : Type) := ReportJSON (rows : list A) | ReportCSV (filename text : string).
Arguments ReportJSON {A} rows.
Arguments ReportCSV {A} filename text.
#[global] Instance ReportAnswer_json {A} : Json (ReportAnswer A) := fun _ => true.

(** [today] is the date of [now.UTC()]. *)
Definition filenameForReport (name : string) (today : Date) : string :=
  ("hho-report-" ++ name ++ "-" ++ Format today ++ ".csv")%string.

Definition writeReportCSV {A} (today : Date) (reportName : string) (header : list string) (records : list (list string)) :
    Response (ReportAnswer A) :=
  Reply 200 (ReportCSV (filenameForReport reportName today) (csv_write (header :: records))).

Definition with_format {B} (v : string) (k : ReportFormat -> M (Response B)) : M (Response B) :=
  match parseReportFormat v with
  | None => mret (problem_Write (BadRequest (Says "format must be json or csv")))
  | Some format => k format
  end.

Definition report_response {A} (format : ReportFormat) (today : Date) (name : string) (header : list string)
    (record : A -> list string) (rows : list A) : Response (ReportAnswer A) :=
  match format with
  | FormatCSV => writeReportCSV today name header (record <$> rows)
  | FormatJSON => writeJSON 200 (ReportJSON rows)
  end.

Section handlers.
Context (group : string) (format : string) (utc_today : Date).

Definition reportsValuationHandler (group_by : string) : M (Response (ReportAnswer ValuationRow)) :=
  with_format format (fun format =>
    if group_by =?s "" then
      mret (problem_Write (BadRequest (Says "group_by is required and must be location or label")))
    else
    match ParseGroupBy group_by with
    | Err e => mret (problem_Write (BadRequest (TextOf e)))
    | Ok groupBy =>
        answer (Valuation group groupBy) []
          (report_response format utc_today "valuation" ["group_key"; "group_label"; "item_count"; "total_value_minor"]%string
             (fun row => [vr_GroupKey row; vr_GroupLabel row; FormatInt (vr_ItemCount row); FormatInt (vr_TotalValueMinor row)]))
    end).

(** [now] is the local date of [time.Now()]; [strconv.Atoi] is [ParseInt]. *)
Definition reportsWarrantyExpiringHandler (now : Date) (within_days : string) : M (Response (ReportAnswer WarrantyExpiringRow)) :=
  with_format format (fun format =>
    match (if within_days =?s "" then Some DefaultWithinDays else ParseInt within_days) with
    | None => mret (problem_Write (BadRequest (Says "within_days must be an integer")))
    | Some withinDays =>
        answer (WarrantyExpiring group now withinDays) [bad_request [ErrWithinDaysInvalid]]
          (report_response format utc_today "warranty-expiring" ["item_id"; "item_name"; "expires_on"; "days_remaining"]%string
             (fun row => [wr_ItemID row; wr_ItemName row; wr_ExpiresOn row; FormatInt (wr_DaysRemaining row)]))
    end).

Definition reportsPurchasesHandler (from to : string) : M (Response (ReportAnswer PurchaseRow)) :=
  with_format format (fun format =>
    if (from =?s "") && (to =?s "") then
      mret (problem_Write (BadRequest (Says "from and to are both required (ISO-8601 YYYY-MM-DD)")))
    else if from =?s "" then mret (problem_Write (BadRequest (Says "from is required (ISO-8601 YYYY-MM-DD)")))
    else if to =?s "" then mret (problem_Write (BadRequest (Says "to is required (ISO-8601 YYYY-MM-DD)")))
    else
      answer (PurchasesInRange group from to) [bad_request [ErrDateRangeInvalid]]
        (report_response format utc_today "purchases"
           ["item_id"; "item_name"; "purchased_on"; "vendor"; "purchase_price_minor"]%string
           (fun row => [pr_ItemID row; pr_ItemName row; pr_PurchasedOn row; pr_Vendor row; FormatInt (pr_PurchasePriceMinor row)]))).

Definition reportsItemCountByLocationHandler : M (Response (ReportAnswer LocationItemCountRow)) :=
  with_format format (fun format =>
    answer (ItemCountByLocation group) []
      (report_response format utc_today "item-count-by-location" ["location_id"; "location_name"; "item_count"]%string
         (fun row => [lic_LocationID row; lic_LocationName row; FormatInt (lic_ItemCount row)]))).
End handlers.
