(* ===== verification/ReportProperties.v ===== *)
(** * What the reports show

    The valuation adds up to the purchases of the live items, the counts of
    the locations are those of the tree, and the warranty report lists exactly
    the warranties that end in the window. *)

From stdpp Require Import relations.
From S2P Require Import Prelude GoBase Schema Sql Evolution Queries PushRepo Locations LocationTree Tree Integrity.
From S2P Require Import Items Blocks Demo System Strconv Calendar HttpCore Reports.

(** ** Sums *)

Lemma sum_from_spec a l :
  match sum_from a l with
  | Ok s => s = (a + sum_Z l)%Z
  | Err _ => ~ (0 <= a /\ Forall (fun z => 0 <= z) l /\ a + sum_Z l <= int64_max)%Z
  end.
Proof.
  revert a. induction l as [|z l IH]; intros a; simpl; [lia|]. specialize (IH (a + z)%Z).
  destruct (Z.leb_spec int64_min (a + z)), (Z.leb_spec (a + z) int64_max); simpl.
  - destruct (sum_from (a + z) l); [lia|]. intros (? & [? ?]%Forall_cons & ?). apply IH. split_and!; [lia|done|lia].
  - intros (? & [? Hl]%Forall_cons & ?). pose proof (sum_Z_nonneg l Hl). lia.
  - intros (? & [? ?]%Forall_cons & ?). unfold int64_min in *. lia.
  - intros (? & [? ?]%Forall_cons & ?). unfold int64_min in *. lia.
Qed.

Lemma mapM_res_ok {A B} (f : A -> res B) l bs : mapM_res f l = Ok bs -> Forall2 (fun a b => f a = Ok b) l bs.
Proof.
  revert bs. induction l as [|a l IH]; intros bs; simpl; [intros [= <-]; constructor|].
  destruct (f a) as [b|] eqn:E; simpl; [|done]. destruct (mapM_res f l) as [bs'|]; simpl; [|done]. intros [= <-]. by constructor; [|apply IH].
Qed.

Lemma mapM_res_err {A B} (f : A -> res B) l e : mapM_res f l = Err e -> exists a, a ∈ l /\ f a = Err e.
Proof.
  induction l as [|a l IH]; simpl; [done|]. destruct (f a) as [b|] eqn:E; simpl.
  - destruct (mapM_res f l) as [bs'|] eqn:El; simpl; [done|]. intros [= ->]. destruct IH as (a' & ? & ?); [done|]. exists a'. split; [by right|done].
  - intros [= ->]. exists a. split; [by left|done].
Qed.

(** Summing group by group. *)
Lemma sum_by_key {A K} `{EqDecision K} (key : A -> K) (g : A -> Z) (l : list A) (ks : list K) :
  NoDup ks -> (forall x, x ∈ l -> key x ∈ ks) ->
  sum_Z ((fun k => sum_Z (g <$> List.filter (fun x => bool_decide (key x = k)) l)) <$> ks) = sum_Z (g <$> l).
Proof.
  intros Hnd. induction l as [|x l IH]; intros Hin.
  - clear. induction ks as [|k ks IH]; [done|exact IH].
  - cbn [List.filter]. rewrite (fmap_cons g). change (sum_Z (g x :: ?m)) with (g x + sum_Z m)%Z.
    rewrite <- IH by (intros y Hy; apply Hin; by right). assert (Hk : key x ∈ ks) by (apply Hin; by left). clear IH Hin.
    induction ks as [|k ks IHk]; [by apply elem_of_nil in Hk|]. apply NoDup_cons in Hnd as [Hnk Hnd].
    rewrite !fmap_cons. change (sum_Z (?z :: ?m)) with (z + sum_Z m)%Z.
    destruct (decide (key x = k)) as [<-|Hne].
    + rewrite bool_decide_true by done. rewrite fmap_cons. change (sum_Z (g x :: ?m)) with (g x + sum_Z m)%Z.
      assert (He : (fun k' => sum_Z (g <$> (if bool_decide (key x = k') then x :: List.filter (fun y => bool_decide (key y = k')) l
                   else List.filter (fun y => bool_decide (key y = k')) l))) <$> ks =
                   (fun k' => sum_Z (g <$> List.filter (fun y => bool_decide (key y = k')) l)) <$> ks).
      { apply fmap_ext_in. intros k' Hk'. rewrite bool_decide_false; [done|]. by intros <-. }
      rewrite He. lia.
    + rewrite bool_decide_false by done. apply elem_of_cons in Hk as [Hk|Hk]; [done|]. rewrite IHk by done. lia.
Qed.

(** ** Joins *)

Lemma at_most_one_row {A} (l : list A) : NoDup l -> (forall x y, x ∈ l -> y ∈ l -> x = y) -> length l <= 1.
Proof.
  intros Hnd Heq. destruct l as [|x [|y l]]; simpl; [lia|lia|]. apply NoDup_cons in Hnd as [Hx _].
  destruct Hx. rewrite (Heq x y); [by left|by left|right; by left].
Qed.

Lemma left_join_one {A} (l : list A) : length l <= 1 -> left_join l = [head l].
Proof. destruct l as [|x [|y l]]; simpl; [done|done|lia]. Qed.

Lemma live_in_iff {D} g (r : Row D) : live_in g r = true <-> GroupID r = g /\ live r = true.
Proof. unfold live_in. by rewrite andb_true_iff, string_eqb_true. Qed.

(** What an item is valued at: its live purchase, if it has one. *)
Definition price (db : DB) (g : string) (i : Item) : Z := price_of (head (purchases_of db g i)).
Definition place (i : Item) : option string := item_LocationID (Cols i).
Definition place_name (db : DB) (g : string) (loc : option string) : option string :=
  (fun l : Location => loc_Name (Cols l)) <$> head (location_name db g loc).
Definition items_at (db : DB) (g : string) (loc : option string) : list Item :=
  List.filter (fun i => bool_decide (place i = loc)) (live_items db g).

Section valuation.
Context (db : DB) (g : string) (Hdb : integ db).

(** A live item has one live purchase at most. *)
Lemma one_per_item {D} `{Table D} (item : D -> string) (P : Row D -> bool) i :
  table_integ D db -> ux_group_item_live item ∈ unique_indexes ->
  (forall r, P r = true -> live_in g r = true /\ item (Cols r) = i) ->
  length (where_ P (tbl db)) <= 1.
Proof.
  intros Ht Hux HP. apply at_most_one_row.
  - eapply NoDup_fmap_1, NoDup_where_ids, Ht.
  - intros x y [[kx Hx] [[Hgx Hlx]%live_in_iff Hix]%HP]%elem_of_where [[ky Hy] [[Hgy Hly]%live_in_iff Hiy]%HP]%elem_of_where.
    assert (kx = ky) as <-; [|congruence]. apply (int_unique _ _ Ht (ux_group_item_live item) kx ky x y); [done..|].
    unfold ux_group_item_live. rewrite Hlx, Hly. simpl. apply bool_decide_eq_true. congruence.
Qed.

Lemma one_purchase i : length (purchases_of db g i) <= 1.
Proof.
  unfold purchases_of. change (item_purchase db) with (tbl (D := PurchaseCols) db).
  apply (one_per_item pur_ItemID _ (ID i)); [apply Hdb|by left|]. intros r. by rewrite andb_true_iff, string_eqb_true.
Qed.

Lemma one_location loc : length (location_name db g loc) <= 1.
Proof.
  destruct loc as [id|]; [|simpl; lia]. pose proof (int_keyed _ _ (int_locations _ Hdb)) as Hk. apply at_most_one_row.
  - by eapply NoDup_fmap_1, NoDup_where_ids.
  - intros x y [[kx Hx] HPx]%elem_of_where [[ky Hy] HPy]%elem_of_where. bool_facts.
    pose proof (Hk _ _ Hx). pose proof (Hk _ _ Hy). congruence.
Qed.

(** Each live item is one row of the joins. *)
Lemma located_items : located db g = (fun i => (place i, place_name db g (place i), price db g i)) <$> live_items db g.
Proof.
  unfold located. induction (live_items db g) as [|i l IH]; [done|]. simpl. rewrite IH.
  rewrite (left_join_one (location_name _ _ _)), (left_join_one (purchases_of _ _ _)) by (apply one_location || apply one_purchase). done.
Qed.

Lemma filter_fmap_bool {A B} (f : A -> B) (P : B -> bool) l : List.filter P (f <$> l) = f <$> List.filter (fun x => P (f x)) l.
Proof. induction l as [|x l IH]; [done|]. rewrite fmap_cons. cbn [List.filter]. destruct (P (f x)); rewrite IH; done. Qed.

Lemma rows_at_items loc :
  rows_at db g loc = (fun i => (place i, place_name db g (place i), price db g i)) <$> items_at db g loc.
Proof. unfold rows_at. by rewrite located_items, filter_fmap_bool. Qed.

(** The report of one location. *)
Definition valuation_at (loc : option string) : ValuationByLocationRow :=
  mkByLocationRow loc (place_name db g loc) (Z.of_nat (length (items_at db g loc))) (sum_Z (price db g <$> items_at db g loc)).

Definition places : list (option string) := remove_dups (place <$> live_items db g).

Lemma items_at_place loc i : i ∈ items_at db g loc <-> i ∈ live_items db g /\ place i = loc.
Proof. unfold items_at. by rewrite elem_of_filter_bool, bool_decide_eq_true. Qed.

Lemma ValuationByLocation_spec :
  match ValuationByLocation_rows db g with
  | Ok rows => rows ≡ₚ valuation_at <$> places
  | Err _ => exists loc, ~ (Forall (fun z => 0 <= z)%Z (price db g <$> items_at db g loc) /\
               sum_Z (price db g <$> items_at db g loc) <= int64_max)%Z
  end.
Proof.
  unfold ValuationByLocation_rows.
  assert (Hp : remove_dups ((fun x : option string * option string * Z => x.1.1) <$> located db g) = places).
  { unfold places. by rewrite located_items, <- list_fmap_compose. }
  rewrite Hp.
  assert (Hprices : forall loc, snd <$> rows_at db g loc = price db g <$> items_at db g loc).
  { intros loc. by rewrite rows_at_items, <- list_fmap_compose. }
  match goal with |- context [mapM_res ?f places] => destruct (mapM_res f places) as [rows|e] eqn:E end; simpl.
  - apply mapM_res_ok in E. rewrite order_by_Permutation. apply reflexive_eq.
    assert (Hin : forall loc, loc ∈ places -> exists i, i ∈ items_at db g loc).
    { intros loc Hl. unfold places in Hl. apply elem_of_remove_dups, list_elem_of_fmap in Hl as (i & -> & Hi). exists i. by apply items_at_place. }
    clear Hp. induction E as [|loc row locs rows Hrow _ IH]; [done|]. rewrite fmap_cons, <- IH by (intros l Hl; apply Hin; by right).
    f_equal. pose proof (sum_from_spec 0 (snd <$> rows_at db g loc)) as Hs. unfold sum_int64 in Hrow.
    destruct (sum_from 0 _) as [s|]; simpl in Hrow; [|done]. injection Hrow as <-. unfold valuation_at. f_equal.
    + rewrite rows_at_items. destruct (Hin loc) as [i Hi]; [by left|]. destruct (items_at db g loc) as [|i' l] eqn:Ei; [by apply elem_of_nil in Hi|].
      simpl. assert (Hi' : i' ∈ items_at db g loc) by (rewrite Ei; by left). apply items_at_place in Hi' as [_ ->]. done.
    + by rewrite rows_at_items, length_fmap.
    + rewrite Hs, Hprices. lia.
  - apply mapM_res_err in E as (loc & _ & Hl). exists loc. pose proof (sum_from_spec 0 (snd <$> rows_at db g loc)) as Hs.
    unfold sum_int64 in Hl. destruct (sum_from 0 _) as [s|]; simpl in Hl; [done|]. rewrite Hprices in Hs. intros [Hn Hmax]. apply Hs.
    split_and!; [lia|done|lia].
Qed.

Lemma places_cover i : i ∈ live_items db g -> place i ∈ places.
Proof. intros Hi. unfold places. apply elem_of_remove_dups, list_elem_of_fmap. eauto. Qed.

Lemma length_sum {A} (l : list A) : sum_Z ((fun _ => 1%Z) <$> l) = Z.of_nat (length l).
Proof. induction l as [|x l IH]; [done|]. rewrite fmap_cons. change (sum_Z (1%Z :: ?m)) with (1 + sum_Z m)%Z. rewrite IH. simpl length. lia. Qed.

Lemma valuation_totals :
  sum_Z (vlr_ItemCount <$> (valuation_at <$> places)) = Z.of_nat (length (live_items db g)) /\
  sum_Z (vlr_TotalValueMinor <$> (valuation_at <$> places)) = sum_Z (price db g <$> live_items db g).
Proof.
  assert (Hnd : NoDup places) by apply NoDup_remove_dups. rewrite <- !list_fmap_compose. split.
  - rewrite <- length_sum, <- (sum_by_key place (fun _ => 1%Z) _ places Hnd places_cover). f_equal. apply fmap_ext_in. intros loc _.
    simpl. by rewrite length_sum.
  - by rewrite <- (sum_by_key place (price db g) _ places Hnd places_cover).
Qed.
End valuation.

(** C25: the valuation adds up.  The report by location has one row for every
    place of a live item, unplaced items included, with the number of items
    there and the sum of the prices of their purchases; over all rows they add
    up to all live items and all their prices.  It fails only where a sum
    does not fit 64 bits or a price is negative. *)
Theorem valuation_adds_up g w :
  integ (wdb w) ->
  let db := wdb w in
  exists r, Valuation g GroupByLocation w = (r, w) /\
  match r with
  | Ok out =>
      out ≡ₚ (fun loc => mkValuationRow (stringFromNull loc)
          (if stringFromNull loc =?s "" then unassignedLocationLabel else stringFromNull (place_name db g loc))
          (Z.of_nat (length (items_at db g loc))) (sum_Z (price db g <$> items_at db g loc)))
        <$> remove_dups (place <$> live_items db g) /\
      sum_Z (vr_ItemCount <$> out) = Z.of_nat (length (live_items db g)) /\
      sum_Z (vr_TotalValueMinor <$> out) = sum_Z (price db g <$> live_items db g)
  | Err _ => exists loc, ~ (Forall (fun z => 0 <= z)%Z (price db g <$> items_at db g loc) /\
               sum_Z (price db g <$> items_at db g loc) <= int64_max)%Z
  end.
Proof.
  intros Hdb db. pose proof (ValuationByLocation_spec db g Hdb) as Hspec. pose proof (valuation_totals db g) as [Hc Ht].
  unfold Valuation, Reports_ValuationByLocation, read_db, mbind, prog_bind. fold db.
  destruct (ValuationByLocation_rows db g) as [rows|e]; [|by exists (Err e)]. eexists. split; [reflexivity|].
  rewrite <- !list_fmap_compose. rewrite !Hspec. rewrite <- !list_fmap_compose in *. split_and!; [done|exact Hc|exact Ht].
Qed.

(** ** Reading dates *)

Lemma take_digits_range n acc s v rest :
  take_digits n acc s = Some (v, rest) -> (0 <= acc)%Z -> (acc * 10 ^ Z.of_nat n <= v < (acc + 1) * 10 ^ Z.of_nat n)%Z.
Proof.
  revert acc s. induction n as [|n IH]; intros acc s; cbn [take_digits]; [intros [= <- <-]; simpl; lia|].
  destruct s as [|c s]; [done|]. destruct (digit_value c) as [d|] eqn:Ed; [|done]. apply digit_value_inv in Ed as [Hd _].
  intros Ht Hacc. apply IH in Ht; [|lia]. rewrite Nat2Z.inj_succ, Z.pow_succ_r by lia. nia.
Qed.

Lemma parse_date_valid s t : parse_date s = Some t -> valid_date t = true /\ year4 t.
Proof.
  unfold parse_date. destruct (take_digits 4 0 s) as [[y s1]|] eqn:Ey; cbn [mbind option_bind]; [|done].
  destruct (take_dash s1) as [s2|]; cbn [mbind option_bind]; [|done]. destruct (take_digits 2 0 s2) as [[m s3]|]; cbn [mbind option_bind]; [|done].
  destruct (take_dash s3) as [s4|]; cbn [mbind option_bind]; [|done]. destruct (take_digits 2 0 s4) as [[d s5]|]; cbn [mbind option_bind]; [|done].
  destruct (negb (s5 =?s "")); [done|]. destruct ((m <=? 0) || (12 <? m))%Z eqn:Em; [done|].
  destruct ((d <? 1) || (days_in m y <? d))%Z eqn:Ed; [done|]. intros [= <-].
  apply take_digits_range in Ey; [|lia]. change (10 ^ Z.of_nat 4)%Z with 10000%Z in Ey.
  apply orb_false_iff in Em as [?%Z.leb_gt ?%Z.ltb_ge], Ed as [?%Z.ltb_ge ?%Z.ltb_ge].
  unfold valid_date, year4. cbn [date_Year date_Month date_Day]. rewrite !andb_true_iff, !Z.leb_le. lia.
Qed.

Lemma take_two n s : (0 <= n <= 99)%Z -> take_digits 2 0 (two_digits n ++ s) = Some (n, s).
Proof.
  intros Hn. rewrite two_digits_app. cbn [take_digits]. rewrite !digit_value_digit by (Z.to_euclidean_division_equations; lia).
  do 2 f_equal. Z.to_euclidean_division_equations; lia.
Qed.

Lemma take_four n s : (0 <= n <= 9999)%Z -> take_digits 4 0 (four_digits n ++ s) = Some (n, s).
Proof.
  intros Hn. unfold four_digits. rewrite !string_cons_app, two_digits_app. cbn [take_digits].
  rewrite !digit_value_digit by (Z.to_euclidean_division_equations; lia).
  do 2 f_equal. Z.to_euclidean_division_equations; lia.
Qed.

Lemma parse_Format t : valid_date t = true -> year4 t -> parse_date (Format t) = Some t.
Proof.
  intros Hv Hy. rewrite Format_year4 by done. destruct (valid_date_bounds t Hv) as (Hm & Hd & Hd').
  unfold parse_date, format_date. rewrite take_four by exact Hy. cbn [mbind option_bind].
  rewrite string_cons_app. cbn [take_dash Ascii.eqb Bool.eqb mbind option_bind].
  rewrite take_two by lia. cbn [mbind option_bind take_dash Ascii.eqb Bool.eqb].
  pose proof (take_two (date_Day t) "" ltac:(lia)) as Ht. rewrite string_app_nil in Ht. rewrite Ht. cbn [mbind option_bind].
  rewrite (proj2 (Z.leb_gt _ _)), (proj2 (Z.ltb_ge _ _)) by lia. cbn [orb negb String.eqb].
  rewrite (proj2 (Z.ltb_ge (date_Day t) 1)), (proj2 (Z.ltb_ge _ _)) by lia. by destruct t.
Qed.

(** ** Warranties *)

(** A date as [parseISODate] and the services let it in. *)
Definition iso_day (s : string) (t : Date) : Prop := parse_date s = Some t /\ format_date t = s.

Lemma iso_day_Format s t : iso_day s t -> valid_date t = true /\ year4 t /\ Format t = s.
Proof. intros [Hp Hf]. destruct (parse_date_valid s t Hp) as [Hv Hy]. split_and!; [done..|]. by rewrite Format_year4. Qed.

Lemma between_days a b s t :
  iso_day s t -> valid_date a = true -> year4 a -> valid_date b = true -> year4 b ->
  text_between (Format a) (Format b) (Some s) = ((day_number a <=? day_number t) && (day_number t <=? day_number b))%Z.
Proof.
  intros (Hv & Hy & <-)%iso_day_Format Ha Hya Hb Hyb. unfold text_between. by rewrite !Format_leb.
Qed.

Lemma days_remaining_exact t u : (Z.abs (day_number t - day_number u) <= 106751)%Z -> days_remaining t u = (day_number t - day_number u)%Z.
Proof.
  intros Hd. unfold days_remaining, sub_days.
  assert (Hr : (int64_min <= (day_number t - day_number u) * day_ns <= int64_max)%Z) by (unfold int64_min, int64_max, day_ns; lia).
  rewrite Z.min_r, Z.max_r by lia. apply Z.quot_mul. unfold day_ns. lia.
Qed.

(** A warranty of a live item that ends on a day. *)
Definition ends_on (db : DB) (g : string) (i : Item) (w : Warranty) (t : Date) : Prop :=
  i ∈ live_items db g /\ w ∈ warranties_of db g i /\ war_IsLifetime (Cols w) = 0%Z /\
  exists s, war_ExpiresOn (Cols w) = Some s /\ iso_day s t.

Lemma elem_of_expiring db g from_ to_ x :
  x ∈ ListWarrantyExpiring_rows db g from_ to_ <->
  exists i w, i ∈ live_items db g /\ w ∈ warranties_of db g i /\ war_IsLifetime (Cols w) = 0%Z /\
    text_between from_ to_ (war_ExpiresOn (Cols w)) = true /\ x = mkExpiringRow (ID i) (item_Name (Cols i)) (war_ExpiresOn (Cols w)).
Proof.
  unfold ListWarrantyExpiring_rows. rewrite elem_of_order_by, list_elem_of_In, in_flat_map. split.
  - intros (i & Hi%list_elem_of_In & Hx%list_elem_of_In). apply list_elem_of_fmap in Hx as (w & -> & Hw).
    apply elem_of_filter_bool in Hw as [Hw [Hl%Z.eqb_eq Hb]%andb_true_iff]. exists i, w. done.
  - intros (i & w & Hi & Hw & Hl & Hb & ->). exists i. split; [by apply list_elem_of_In|]. apply list_elem_of_In.
    apply list_elem_of_fmap. exists w. split; [done|]. apply elem_of_filter_bool. split; [done|]. by rewrite Hl, Hb.
Qed.

Lemma Forall2_elem {A B} (P : A -> B -> Prop) l k : Forall2 P l k ->
  forall y, y ∈ k <-> exists x, x ∈ l /\ y ∈ k /\ P x y.
Proof.
  intros HP y. split; [|by intros (x & _ & ? & _)]. intros Hy. apply list_elem_of_lookup_1 in Hy as [n Hn].
  destruct (Forall2_lookup_r _ _ _ _ _ HP Hn) as (x & Hx & Hxy). exists x.
  split_and!; [by eapply list_elem_of_lookup_2|by eapply list_elem_of_lookup_2|done].
Qed.

Lemma Forall2_elem_l {A B} (P : A -> B -> Prop) l k : Forall2 P l k -> forall x, x ∈ l -> exists y, y ∈ k /\ P x y.
Proof.
  intros HP x Hx. apply list_elem_of_lookup_1 in Hx as [n Hn]. destruct (Forall2_lookup_l _ _ _ _ _ HP Hn) as (y & Hy & Hxy).
  exists y. split; [by eapply list_elem_of_lookup_2|done].
Qed.


(** ** Item counts *)

Lemma mapM_some {A B} (f : A -> option B) (h : A -> B) (l : list A) :
  (forall x, x ∈ l -> f x = Some (h x)) -> mapM f l = Some (h <$> l).
Proof.
  intros Hl. induction l as [|x l IH]; [done|]. cbn [mapM]. rewrite Hl by (by left). cbn [mbind option_bind].
  rewrite IH; [done|]. intros y Hy. apply Hl. by right.
Qed.

Section walk.
Context (rows : list Location) (direct : gmap string Z) (Hnd : NoDup (ID <$> rows)).

Definition count_row (x : string) : option LocationItemCountRow :=
  (fun r => mkCountRow (ID r) (loc_Name (Cols r)) (total rows direct x)) <$> row_map rows !! x.

Lemma omap_concat_fmap {A B C} (f : B -> option C) (F : A -> list B) (l : list A) :
  omap f (concat (F <$> l)) = concat ((fun x => omap f (F x)) <$> l).
Proof. induction l as [|x l IH]; [done|]. rewrite !fmap_cons. cbn [concat]. by rewrite omap_app, IH. Qed.

Lemma walk_step m l f :
  walk m l (S f) =
  (rows ← mapM (fun id =>
      n ← m !! id;
      children ← walk m (node_Children n) f;
      Some (mkCountRow (ID (node_Location n)) (loc_Name (Cols (node_Location n))) (node_TotalItemCount n) :: children)) l;
   Some (concat rows)).
Proof. reflexivity. Qed.

Lemma walk_spec m f l :
  nodes_are rows direct (total rows direct) (kids rows) m ->
  (forall x, x ∈ l -> bounded rows f x /\ is_Some (row_map rows !! x)) ->
  walk m l (S f) = Some (omap count_row (concat (sub rows f <$> l))).
Proof.
  intros Hm. revert l. induction f as [|f IH]; intros l Hl.
  - destruct l as [|x l]; [done|]. by destruct (Hl x ltac:(by left)) as [[] _].
  - rewrite walk_step. rewrite (mapM_some _ (fun x => omap count_row (sub rows (S f) x))).
    + cbn [mbind option_bind]. by rewrite omap_concat_fmap.
    + intros x Hx. destruct (Hl x Hx) as [Hb Hrow]. rewrite (Hm x). destruct Hrow as [r Hr]. rewrite Hr.
      cbn [fmap option_fmap option_map mbind option_bind node node_Children node_Location node_TotalItemCount].
      pose proof (proj1 (row_map_lookup rows Hnd x r) Hr) as [_ Hid]. rewrite Hid.
      rewrite IH; [|intros c Hc; split; [by apply Hb|apply (kid_row rows Hnd x c); [by exists r|done]]].
      assert (Hcr : count_row x = Some (mkCountRow x (loc_Name (Cols r)) (total rows direct x))).
      { unfold count_row. rewrite Hr. cbn. by rewrite Hid. }
      cbn [mbind option_bind sub]. f_equal. cbn [omap list_omap]. by rewrite Hcr.
Qed.

(** The counts of the rows. *)
Definition placed_in (ys : list string) (i : Item) : bool :=
  match place i with Some y => bool_decide (y ∈ ys) | None => false end.

Lemma count_places (l : list Item) ys :
  NoDup ys ->
  sum_Z ((fun y => Z.of_nat (length (List.filter (fun i => bool_decide (place i = Some y)) l))) <$> ys) =
  Z.of_nat (length (List.filter (placed_in ys) l)).
Proof.
  intros Hys. induction l as [|i l IH].
  - clear. induction ys as [|y ys IH]; [done|exact IH].
  - cbn [List.filter]. destruct (placed_in ys i) eqn:Ei; unfold placed_in in Ei.
    + destruct (place i) as [p|]; [|done]. apply bool_decide_eq_true in Ei. cbn [length]. rewrite Nat2Z.inj_succ, <- IH. clear IH.
      induction ys as [|y ys IHy]; [by apply elem_of_nil in Ei|]. apply NoDup_cons in Hys as [Hy Hys]. rewrite !fmap_cons.
      change (sum_Z (?z :: ?m)) with (z + sum_Z m)%Z. destruct (decide (p = y)) as [->|Hne].
      * rewrite bool_decide_true by done. cbn [length]. rewrite Nat2Z.inj_succ.
        assert (He : (fun y' => Z.of_nat (length (if bool_decide (Some y = Some y')
                      then i :: List.filter (fun i => bool_decide (place i = Some y')) l
                      else List.filter (fun i => bool_decide (place i = Some y')) l))) <$> ys =
                     (fun y' => Z.of_nat (length (List.filter (fun i => bool_decide (place i = Some y')) l))) <$> ys).
        { apply fmap_ext_in. intros y' Hy'. rewrite bool_decide_false; [done|]. by intros [= ->]. }
        rewrite He. lia.
      * rewrite bool_decide_false by congruence. apply elem_of_cons in Ei as [Ei|Ei]; [done|]. rewrite IHy by done. lia.
    + rewrite <- IH. f_equal. apply fmap_ext_in. intros y Hy. rewrite bool_decide_false; [done|]. intros Hp. rewrite Hp in Ei.
      by apply bool_decide_eq_false in Ei.
Qed.
End walk.

(** A live location of the group and the live one it is in. *)
Definition live_parent (db : DB) (g : string) (y x : string) : Prop :=
  exists ly lx, locations db !! y = Some ly /\ live_in g ly = true /\ loc_ParentID (Cols ly) = Some x /\
    locations db !! x = Some lx /\ live_in g lx = true.

Section item_counts.
Context (db : DB) (g : string) (Hloc : loc_inv db) (Hsize : (Z.of_nat (size (items db)) <= int64_max)%Z).

Definition tree_rows : list Location :=
  order_by (fun a b => asc2_leb (loc_Name (Cols a), ID a) (loc_Name (Cols b), ID b))
    (where_ (fun r : Location => (GroupID r =?s g) && live r) (locations db)).

Lemma elem_of_tree_rows r : r ∈ tree_rows <-> locations db !! ID r = Some r /\ live_in g r = true.
Proof.
  unfold tree_rows. rewrite elem_of_order_by, elem_of_where_keyed by apply Hloc. by unfold live_in.
Qed.

Lemma NoDup_tree_rows : NoDup (ID <$> tree_rows).
Proof. unfold tree_rows. rewrite order_by_Permutation. apply NoDup_where_ids, Hloc. Qed.

Lemma tree_row x r : row_map tree_rows !! x = Some r <-> locations db !! x = Some r /\ live_in g r = true.
Proof.
  rewrite (row_map_lookup _ NoDup_tree_rows), elem_of_tree_rows. split; [by intros [[? ?] <-]|].
  intros [Hr Hl]. rewrite (loc_keys _ Hloc _ _ Hr). done.
Qed.

Lemma up_live_parent y x : up tree_rows y = Some x <-> live_parent db g y x.
Proof.
  unfold up. split.
  - destruct (row_map tree_rows !! y) as [ly|] eqn:Ey; cbn [mbind option_bind]; [|done].
    destruct (loc_ParentID (Cols ly)) as [p|] eqn:Ep; cbn [mbind option_bind]; [|done].
    destruct (row_map tree_rows !! p) as [lx|] eqn:Ex; cbn [mbind option_bind]; [|done]. intros [= ->].
    apply tree_row in Ey as [? ?], Ex as [? ?]. by exists ly, lx.
  - intros (ly & lx & Hy & Hly & Hp & Hx & Hlx). rewrite (proj2 (tree_row y ly)) by done. cbn [mbind option_bind]. rewrite Hp.
    cbn [mbind option_bind]. by rewrite (proj2 (tree_row x lx)) by done.
Qed.

Lemma tree_acyclic : acyclic (up tree_rows).
Proof.
  intros x Hx. apply (loc_acyclic _ Hloc x). revert Hx. generalize x at 2 4. intros z Hx.
  assert (Hstep : forall a b, par (up tree_rows) a b -> par (parent_of (locations db)) a b).
  { intros a b (la & lb & Ha & _ & Hp & _)%up_live_parent. unfold par, parent_of. by rewrite Ha. }
  induction Hx as [a b Hab|a b c Hab _ IH]; [by apply tc_once, Hstep|]. eapply tc_l; [by apply Hstep|exact IH].
Qed.

Definition direct_counts : gmap string Z :=
  let ls := omap place (live_items db g) in
  list_to_map ((fun l => (l, Z.of_nat (length (List.filter (String.eqb l) ls)))) <$> remove_dups ls).

Lemma direct_count x :
  cnt direct_counts x = Z.of_nat (length (List.filter (fun i => bool_decide (place i = Some x)) (live_items db g))).
Proof.
  assert (Hlen : forall l : list Item, length (List.filter (String.eqb x) (omap place l)) =
    length (List.filter (fun i => bool_decide (place i = Some x)) l)).
  { induction l as [|i l IH]; [done|]. cbn [omap list_omap List.filter]. destruct (place i) as [p|]; [|done]. cbn [List.filter].
    destruct (String.eqb_spec x p) as [->|Hne]; [rewrite bool_decide_true by done; cbn [length]; by rewrite IH|].
    by rewrite bool_decide_false by congruence. }
  unfold cnt, direct_counts. set (ls := omap place (live_items db g)).
  set (kvs := (fun l => (l, Z.of_nat (length (List.filter (String.eqb l) ls)))) <$> remove_dups ls).
  assert (Hk : kvs.*1 = remove_dups ls) by (unfold kvs; rewrite <- list_fmap_compose; apply list_fmap_id).
  destruct (decide (x ∈ ls)) as [Hx|Hx].
  - assert (Hin : (x, Z.of_nat (length (List.filter (String.eqb x) ls))) ∈ kvs).
    { unfold kvs. apply list_elem_of_fmap. exists x. split; [done|]. by apply elem_of_remove_dups. }
    rewrite (proj1 (elem_of_list_to_map kvs x _ ltac:(rewrite Hk; apply NoDup_remove_dups)) Hin). simpl. unfold ls. by rewrite Hlen.
  - rewrite not_elem_of_list_to_map_1 by (by rewrite Hk, elem_of_remove_dups). simpl.
    rewrite <- Hlen. fold ls. destruct (List.filter (String.eqb x) ls) as [|y l] eqn:E; [done|].
    assert (Hy : y ∈ List.filter (String.eqb x) ls) by (rewrite E; by left). apply elem_of_filter_bool in Hy as [Hy He].
    apply String.eqb_eq in He. by subst.
Qed.

Lemma filter_length_le {A} (P : A -> bool) l : length (List.filter P l) <= length l.
Proof. apply List.filter_length_le. Qed.

Lemma counts_nonneg x : (0 <= cnt direct_counts x)%Z.
Proof. rewrite direct_count. lia. Qed.

Lemma direct_counts_fmap (l : list string) :
  cnt direct_counts <$> l =
  (fun x => Z.of_nat (length (List.filter (fun i => bool_decide (place i = Some x)) (live_items db g)))) <$> l.
Proof. apply fmap_ext_in. intros x _. apply direct_count. Qed.

Lemma live_items_bound (P : Item -> bool) : (Z.of_nat (length (List.filter P (live_items db g))) <= int64_max)%Z.
Proof.
  etrans; [|exact Hsize]. apply inj_le. etrans; [apply filter_length_le|]. unfold live_items, where_.
  etrans; [apply filter_length_le|]. unfold rows_of. rewrite length_fmap. by rewrite length_map_to_list.
Qed.

Lemma counts_bounded : (sum_Z (cnt direct_counts <$> (ID <$> tree_rows)) <= int64_max)%Z.
Proof. rewrite direct_counts_fmap, count_places by apply NoDup_tree_rows. apply live_items_bound. Qed.

Lemma ItemCountByLocation_run n :
  exists out, ItemCountByLocation g (mkWorld db n) = (Ok out, mkWorld db n) /\
    out = omap (count_row tree_rows direct_counts) (preorder tree_rows).
Proof.
  destruct (build_tree_spec tree_rows direct_counts NoDup_tree_rows tree_acyclic counts_nonneg counts_bounded) as (m & Hb & Hm).
  unfold ItemCountByLocation, Locations_Tree, ListLocations, CountLiveItemsPerLocation, select_many, mbind, prog_bind.
  cbv beta iota zeta. cbn [wdb mret prog_ret].
  change (order_by _ (where_ _ (tbl db))) with tree_rows.
  change (list_to_map _) with direct_counts. unfold mret, prog_ret. rewrite Hb.
  rewrite (nodes_are_size _ _ NoDup_tree_rows _ _ _ Hm).
  rewrite (walk_spec tree_rows direct_counts NoDup_tree_rows m (length tree_rows) (roots tree_rows) Hm).
  - eexists. split; [reflexivity|]. f_equal. unfold preorder. f_equal. apply fmap_ext_in. intros x [Hx Hup]%(elem_of_roots _ NoDup_tree_rows).
    apply sub_subtree; [|lia]. by apply (root_bounded _ NoDup_tree_rows tree_acyclic).
  - intros x [Hx Hup]%(elem_of_roots _ NoDup_tree_rows). split; [|done]. by apply (root_bounded _ NoDup_tree_rows tree_acyclic).
Qed.
End item_counts.

(** C27: the item counts of the locations are exact.  Where the locations are
    a forest, as in every reachable state, the report ends, and lists every
    live location of the group once, under its name, with the number of the
    live items that are there or in a live location anywhere below. *)
Theorem item_counts_exact g w :
  loc_inv (wdb w) -> (Z.of_nat (size (items (wdb w))) <= int64_max)%Z ->
  let db := wdb w in
  exists out, ItemCountByLocation g w = (Ok out, w) /\
    lic_LocationID <$> out ≡ₚ ID <$> where_ (live_in g) (locations db) /\
    forall row, row ∈ out -> exists l below,
      locations db !! lic_LocationID row = Some l /\ lic_LocationName row = loc_Name (Cols l) /\
      NoDup below /\ (forall y, y ∈ below <-> rtc (live_parent db g) y (lic_LocationID row)) /\
      lic_ItemCount row = Z.of_nat (length (List.filter (placed_in below) (live_items db g))).
Proof.
  intros Hloc Hsize db. destruct w as [db' n]. cbn [wdb] in *. subst db.
  destruct (ItemCountByLocation_run db' g Hloc Hsize n) as (out & Hrun & ->).
  pose proof (NoDup_tree_rows db' g Hloc) as Hnd. pose proof (tree_acyclic db' g Hloc) as Hac.
  eexists. split; [exact Hrun|]. split.
  - assert (Hids : forall l : list string, (forall x, x ∈ l -> is_Some (row_map (tree_rows db' g) !! x)) ->
      lic_LocationID <$> omap (count_row (tree_rows db' g) (direct_counts db' g)) l = l).
    { induction l as [|x l IH]; intros Hl; [done|]. cbn [omap list_omap]. unfold count_row at 1.
      destruct (Hl x) as [r Hr]; [by left|]. rewrite Hr. cbn [fmap option_fmap option_map]. rewrite fmap_cons. cbn [lic_LocationID].
      rewrite IH by (intros y Hy; apply Hl; by right). f_equal. by apply (row_map_lookup _ Hnd) in Hr as [_ ?]. }
    rewrite Hids.
    + rewrite (preorder_rows _ Hnd Hac). unfold tree_rows. by rewrite order_by_Permutation.
    + intros x Hx. rewrite (preorder_rows _ Hnd Hac) in Hx. apply list_elem_of_fmap in Hx as (r & -> & Hr).
      exists r. by apply (row_map_row _ Hnd).
  - intros row Hrow. apply list_elem_of_omap in Hrow as (x & _ & Hcr). unfold count_row in Hcr.
    destruct (row_map (tree_rows db' g) !! x) as [r|] eqn:Er; [|done]. injection Hcr as <-. cbn [lic_LocationID lic_LocationName lic_ItemCount].
    pose proof (proj1 (row_map_lookup _ Hnd x r) Er) as [_ Hid]. rewrite Hid.
    assert (Hxs : is_Some (row_map (tree_rows db' g) !! x)) by (by exists r).
    exists r, (subtree (tree_rows db' g) x). split_and!.
    + by apply (tree_row db' g Hloc) in Er as [? _].
    + done.
    + by apply (NoDup_subtree _ Hnd Hac).
    + intros y. rewrite (elem_of_subtree _ Hnd Hac x y Hxs). 
      assert (Heq : forall a b, par (up (tree_rows db' g)) a b <-> live_parent db' g a b) by (intros a b; apply (up_live_parent db' g Hloc)).
      split; apply rtc_subrel; intros a b; apply Heq.
    + unfold total. rewrite direct_counts_fmap, count_places by (by apply (NoDup_subtree _ Hnd Hac)). done.
Qed.

(** ** A small household *)

(** A lamp in a room of the house, bought for 12.50, with a warranty. *)
Definition reported_events : list event :=
  [OfGroup "g1" (LocationsCreate (mkCreateLocation "house" "House" "" 102));
   OfGroup "g1" (LocationsCreate (mkCreateLocation "room" "Room" "house" 102));
   OfGroup "g1" (ItemsCreate (mkCreateItem "i1" "Lamp" "" "room" 3 "CODE1" 103));
   OfGroup "g1" (ItemsCreate (mkCreateItem "i2" "Chair" "" "" 3 "CODE2" 103));
   OfGroup "g1" (PurchaseCreate (mkCreatePurchaseP "p1" "i1" "Shop" "2024-01-31" 1250 "" "" 104));
   OfGroup "g1" (WarrantyCreate (mkCreateWarrantyP "w1" "i1" "Me" "Shop" "2024-01-31" "2024-03-01" false "" 104))]%string.
Definition reported : World := Eval vm_compute in serve reported_events (initial {[ "g1" := demo_group "Home" ]}%string).

Lemma reported_served : serve reported_events (initial {[ "g1" := demo_group "Home" ]}%string) = reported.
Proof. vm_compute. reflexivity. Qed.

Lemma reported_integ : integ (wdb reported).
Proof. rewrite <- reported_served. apply serve_keeps_integ, integ_initial. Qed.

Lemma reported_locations : loc_inv (wdb reported).
Proof. rewrite <- reported_served. apply serve_keeps_locations, loc_ok_empty. Qed.

Lemma valuation_adds_up_witness :
  integ (wdb reported) /\
  exists out, Valuation "g1" GroupByLocation reported = (Ok out, reported) /\
    sum_Z (vr_TotalValueMinor <$> out) = 1250%Z.
Proof.
  split; [apply reported_integ|]. destruct (valuation_adds_up "g1" reported reported_integ) as (r & Hr & Hspec).
  destruct r as [out|e]; [|vm_compute in Hr; discriminate]. exists out. split; [exact Hr|].
  destruct Hspec as (_ & _ & ->). vm_compute. reflexivity.
Defined.


(** The texts of dates are compared, so a window that ends after the year 9999
    is empty. *)
Example far_window_is_empty : (WarrantyExpiring "g1" (mkDate 2024 2 10) 3000000 reported).1 = Ok [].
Proof. vm_compute. reflexivity. Qed.

Lemma item_counts_exact_witness :
  loc_inv (wdb reported) /\
  exists out, ItemCountByLocation "g1" reported = (Ok out, reported) /\
    lic_LocationID <$> out ≡ₚ ID <$> where_ (live_in "g1") (locations (wdb reported)).
Proof.
  split; [apply reported_locations|].
  destruct (item_counts_exact "g1" reported reported_locations) as (out & Hr & Hp & _); [vm_compute; discriminate|].
  exists out. split; [exact Hr|exact Hp].
Defined.
