(* ===== verification/Paths.v ===== *)
(** * Paths (Go's path and path/filepath on Unix)

    [Clean], [Join] and [Base], on the segments between the slashes, and what
    a path that starts with a directory can name.  On Unix the two packages
    agree on them. *)

From S2P Require Import Prelude GoBase Escape Strconv Password.
From Stdlib Require Import Strings.Ascii.

(** [strings.HasPrefix] *)
Definition HasPrefix (s prefix : string) : bool := match strip_prefix prefix s with Some _ => true | None => false end.

(** One segment: [out] holds the segments kept so far, the last one first. *)
Definition clean_step (rooted : bool) (out : list string) (seg : string) : list string :=
  if (seg =?s "") || (seg =?s ".") then out
  else if seg =?s ".." then
    match out with
    | [] => if rooted then [] else [seg]
    | top :: rest => if top =?s ".." then seg :: out else rest
    end
  else seg :: out.

Definition clean_segments (rooted : bool) (segs : list string) : list string := foldl (clean_step rooted) [] segs.

Definition IsAbs (path : string) : bool := HasPrefix path "/".

Definition Clean (path : string) : string :=
  let rooted := IsAbs path in
  match rev (clean_segments rooted (Split path "/")) with
  | [] => if rooted then "/" else "."
  | segs => ((if rooted then "/" else "") ++ Escape.Join segs "/")%string
  end.

(** The empty elements in front are skipped; the others [Clean] takes away. *)
Fixpoint path_Join (elems : list string) : string :=
  match elems with
  | [] => ""
  | e :: rest => if e =?s "" then path_Join rest else Clean (Escape.Join elems "/")
  end.

Definition path_Base (path : string) : string :=
  match last (List.filter (fun s => negb (s =?s "")) (Split path "/")) with
  | Some name => name
  | None => if path =?s "" then "." else "/"
  end.

Example clean_1 : Clean "a//b/./c/../d/" = "a/b/d"%string. Proof. reflexivity. Qed.
Example clean_2 : Clean "/../../x" = "/x"%string. Proof. reflexivity. Qed.
Example clean_3 : Clean "a/../../x" = "../x"%string. Proof. reflexivity. Qed.
Example clean_4 : Clean "" = "."%string. Proof. reflexivity. Qed.
Example base_1 : path_Base "g/a//" = "a"%string. Proof. reflexivity. Qed.
Example join_1 : path_Join ["";"data";"";"/attachments"] = "data/attachments"%string. Proof. reflexivity. Qed.

(** ** Names and normal forms *)

(** A name that stands for itself in a path. *)
Definition plain (name : string) : bool :=
  negb (name =?s "") && negb (name =?s ".") && negb (name =?s "..") && negb (contains_byte name "/").

Lemma plain_facts n : plain n = true -> n <> ""%string /\ n <> "."%string /\ n <> ".."%string /\ contains_byte n "/" = false.
Proof. unfold plain. intros H. bool_facts. done. Qed.

Lemma Split_app a b sep : Split (a ++ String sep b) sep = Split a sep ++ Split b sep.
Proof.
  induction a as [|c a IH]; rewrite ?string_cons_app; cbn [Split].
  - change (EmptyString ++ String sep b)%string with (String sep b). cbn [Split]. by rewrite Ascii.eqb_refl.
  - rewrite IH. destruct (Ascii.eqb c sep); [done|]. destruct (Split a sep) as [|p ps] eqn:E; [|done].
    destruct a; cbn [Split] in E; repeat case_match; done.
Qed.

Lemma Split_not_nil s sep : Split s sep <> [].
Proof. destruct s; cbn [Split]; repeat case_match; done. Qed.

Lemma Split_pieces s sep : Forall (fun p => contains_byte p sep = false) (Split s sep).
Proof.
  induction s as [|c s IH]; cbn [Split]; [by constructor|]. destruct (Ascii.eqb c sep) eqn:E; [by constructor|].
  destruct (Split s sep) as [|p ps]; [|apply Forall_cons in IH as [Hp Hps]];
    (constructor; [cbn [contains_byte]; by rewrite E|done]).
Qed.

Lemma Split_Join l : l <> [] -> Forall (fun p => contains_byte p "/" = false) l -> Split (Escape.Join l "/") "/" = l.
Proof.
  induction l as [|a l IH]; [done|]. intros _ [Ha Hl]%Forall_cons. destruct l as [|b l].
  - cbn [Escape.Join]. by apply Split_last.
  - change (Escape.Join (a :: b :: l) "/") with (a ++ String "/" (Escape.Join (b :: l) "/"))%string.
    rewrite Split_first by done. by rewrite IH.
Qed.

(** The segments that cleaning leaves, the last one first: names, and above
    them the steps up that nothing cancels, of which a rooted path has none. *)
Definition normal (rooted : bool) (out : list string) : Prop :=
  exists names ups, out = names ++ replicate ups ".."%string /\ Forall (fun n => plain n = true) names /\ (rooted = true -> ups = O).

Lemma normal_step rooted out seg :
  contains_byte seg "/" = false -> normal rooted out -> normal rooted (clean_step rooted out seg).
Proof.
  intros Hs (names & ups & -> & Hn & Hu). unfold clean_step.
  destruct (seg =?s "") eqn:E0; [by exists names, ups|]. destruct (seg =?s ".") eqn:E1; [by exists names, ups|]. simpl.
  destruct (seg =?s "..") eqn:E2.
  - bool_facts. subst. destruct names as [|n names]; simpl.
    + destruct ups as [|ups]; simpl.
      * destruct rooted; [by exists [], O|]. by exists [], 1%nat.
      * exists [], (S (S ups)). split_and!; [done|done|]. intros Hr. specialize (Hu Hr). done.
    + apply Forall_cons in Hn as [Hn Hns]. destruct (plain_facts n Hn) as (_ & _ & Hd & _).
      rewrite (proj2 (string_eqb_false _ _) Hd). by exists names, ups.
  - exists (seg :: names), ups. split_and!; [done| |done]. constructor; [|done].
    unfold plain. by rewrite E0, E1, E2, Hs.
Qed.

Lemma normal_foldl rooted segs out :
  Forall (fun p => contains_byte p "/" = false) segs -> normal rooted out -> normal rooted (foldl (clean_step rooted) out segs).
Proof.
  revert out. induction segs as [|s segs IH]; intros out Hs Hn; [done|]. apply Forall_cons in Hs as [Hs Hss].
  cbn [foldl]. apply IH; [done|]. by apply normal_step.
Qed.

Lemma normal_nil rooted : normal rooted [].
Proof. by exists [], O. Qed.

Lemma foldl_plain rooted segs out :
  Forall (fun n => plain n = true) segs -> foldl (clean_step rooted) out segs = rev segs ++ out.
Proof.
  revert out. induction segs as [|s segs IH]; intros out Hs; [done|]. apply Forall_cons in Hs as [Hs Hss].
  cbn [foldl rev]. rewrite IH by done. destruct (plain_facts s Hs) as (H0 & H1 & H2 & _). unfold clean_step.
  rewrite !(proj2 (string_eqb_false _ _)) by done. simpl. by rewrite <- app_assoc.
Qed.

(** The text of the segments. *)
Definition render (rooted : bool) (segs : list string) : string :=
  match segs with
  | [] => if rooted then "/" else "."
  | _ => ((if rooted then "/" else "") ++ Escape.Join segs "/")%string
  end.

Lemma Clean_render path : Clean path = render (IsAbs path) (rev (clean_segments (IsAbs path) (Split path "/"))).
Proof. unfold Clean, render. by destruct (rev _). Qed.

Lemma normal_free rooted out : normal rooted out -> Forall (fun p => contains_byte p "/" = false) (rev out).
Proof.
  intros (names & ups & -> & Hn & _). apply Forall_rev, Forall_app. split.
  - eapply Forall_impl; [exact Hn|]. intros n Hp. apply plain_facts, Hp.
  - by apply Forall_replicate.
Qed.

Lemma Split_render rooted segs :
  segs <> [] -> Forall (fun p => contains_byte p "/" = false) segs ->
  Split (render rooted segs) "/" = (if rooted then [""%string] else []) ++ segs.
Proof.
  intros Hne Hs. destruct segs as [|s segs]; [done|]. unfold render. destruct rooted.
  - change ("/" ++ Escape.Join (s :: segs) "/")%string with (String "/" (Escape.Join (s :: segs) "/")).
    change (String "/" ?x) with ("" ++ String "/" x)%string. rewrite (Split_first ""), Split_Join by done. done.
  - change ("" ++ Escape.Join (s :: segs) "/")%string with (Escape.Join (s :: segs) "/"). by rewrite Split_Join.
Qed.

Lemma render_inj rooted a b :
  a <> [] -> b <> [] -> Forall (fun p => contains_byte p "/" = false) a -> Forall (fun p => contains_byte p "/" = false) b ->
  render rooted a = render rooted b -> a = b.
Proof.
  intros Ha Hb Fa Fb E. apply (f_equal (fun s => Split s "/")) in E. rewrite !Split_render in E by done. by simplify_eq.
Qed.

(** ** Joining a directory and what is in it *)

Definition segments (path : string) : list string := rev (clean_segments (IsAbs path) (Split path "/")).

Lemma normal_clean path : normal (IsAbs path) (clean_segments (IsAbs path) (Split path "/")).
Proof. apply normal_foldl, normal_nil. apply Split_pieces. Qed.

Lemma IsAbs_app root s : root <> ""%string -> IsAbs (root ++ s) = IsAbs root.
Proof. destruct root as [|c root]; [done|]. intros _. rewrite string_cons_app. unfold IsAbs, HasPrefix. cbn [strip_prefix]. by destruct (Ascii.eqb "/" c). Qed.

Lemma Split_Join_any l : l <> [] -> Split (Escape.Join l "/") "/" = concat ((fun s => Split s "/") <$> l).
Proof.
  induction l as [|a l IH]; [done|]. intros _. destruct l as [|b l]; [cbn; by rewrite app_nil_r|].
  change (Escape.Join (a :: b :: l) "/") with (a ++ String "/" (Escape.Join (b :: l) "/"))%string.
  rewrite Split_app, IH by done. done.
Qed.

Lemma concat_plain names : Forall (fun n => plain n = true) names -> concat ((fun s => Split s "/") <$> names) = names.
Proof.
  induction 1 as [|n names Hn _ IH]; [done|]. rewrite fmap_cons. cbn [concat].
  rewrite Split_last by apply plain_facts, Hn. by rewrite IH.
Qed.

Lemma path_Join_segments root elems :
  root <> ""%string ->
  path_Join (root :: elems) =
  render (IsAbs root) (rev (foldl (clean_step (IsAbs root)) (clean_segments (IsAbs root) (Split root "/"))
    (concat ((fun s => Split s "/") <$> elems)))).
Proof.
  intros Hr. cbn [path_Join]. rewrite (proj2 (string_eqb_false _ _) Hr), Clean_render.
  assert (IsAbs (Escape.Join (root :: elems) "/") = IsAbs root) as ->.
  { destruct elems as [|e elems]; [done|].
    change (Escape.Join (root :: e :: elems) "/") with (root ++ String "/" (Escape.Join (e :: elems) "/"))%string.
    by apply IsAbs_app. }
  rewrite Split_Join_any by done. rewrite fmap_cons. cbn [concat]. unfold clean_segments. by rewrite foldl_app.
Qed.

Lemma path_Join_plain root names :
  root <> ""%string -> Forall (fun n => plain n = true) names ->
  path_Join (root :: names) = render (IsAbs root) (segments root ++ names).
Proof.
  intros Hr Hn. rewrite path_Join_segments, concat_plain, foldl_plain by done.
  by rewrite rev_app_distr, rev_involutive.
Qed.

Lemma free_plain names : Forall (fun n => plain n = true) names -> Forall (fun p => contains_byte p "/" = false) names.
Proof. intros H. eapply Forall_impl; [exact H|]. intros n Hn. apply plain_facts, Hn. Qed.

Lemma segments_free root : Forall (fun p => contains_byte p "/" = false) (segments root).
Proof. apply (normal_free (IsAbs root)), normal_clean. Qed.

(** A text with a prefix. *)
Lemma HasPrefix_app s p : HasPrefix s p = true -> exists rest, s = (p ++ rest)%string.
Proof.
  unfold HasPrefix. revert s. induction p as [|c p IH]; intros s H; [by exists s|].
  destruct s as [|d s]; [done|]. cbn [strip_prefix] in H. destruct (Ascii.eqb c d) eqn:E; [|done].
  apply Ascii.eqb_eq in E as ->. destruct (IH s H) as [rest ->]. by exists rest.
Qed.

(** A clean path that continues the path of a named directory goes on with
    names: no step up is left in it. *)
Lemma below_named rooted out base name :
  normal rooted out -> Forall (fun p => contains_byte p "/" = false) base -> plain name = true ->
  (render rooted (rev out) = render rooted (base ++ [name]) \/
   HasPrefix (render rooted (rev out)) (render rooted (base ++ [name]) ++ "/") = true) ->
  exists rest, rev out = base ++ name :: rest /\ Forall (fun n => plain n = true) rest.
Proof.
  intros Hout Hbase Hname Hcase. destruct (plain_facts name Hname) as (H0 & H1 & H2 & H3).
  assert (Hbn : Forall (fun p => contains_byte p "/" = false) (base ++ [name])) by (apply Forall_app; split; [done|by constructor]).
  assert (Hnil : base ++ [name] <> []) by (by destruct base).
  assert (Hsplit : exists rest, Split (render rooted (rev out)) "/" = (if rooted then [""%string] else []) ++ base ++ name :: rest).
  { destruct Hcase as [->|Hp].
    - exists []. by rewrite Split_render.
    - apply HasPrefix_app in Hp as [s ->]. exists (Split s "/"). rewrite string_app_assoc. change ("/" ++ s)%string with (String "/" s).
      rewrite Split_app, Split_render by done. by rewrite <- !app_assoc. }
  destruct Hsplit as (rest & Hs).
  assert (Hrev : rev out = base ++ name :: rest).
  { destruct (decide (rev out = [])) as [E|E].
    - rewrite E in Hs. unfold render in Hs. destruct rooted.
      + destruct base as [|b base]; cbn in Hs; [|destruct base; cbn in Hs]; simplify_eq.
      + destruct base as [|b base]; cbn in Hs; [|destruct base; cbn in Hs]; simplify_eq.
    - rewrite Split_render in Hs by (done || by eapply normal_free). by simplify_eq. }
  exists rest. split; [done|].
  destruct Hout as (names & ups & -> & Hn & _). rewrite rev_app_distr in Hrev.
  (* the name is not among the steps up *)
  apply (f_equal (@rev string)) in Hrev. rewrite !rev_app_distr, !rev_involutive in Hrev. cbn [rev] in Hrev.
  rewrite <- app_assoc in Hrev. cbn [app] in Hrev.
  assert (Hpre : exists more, names = rev rest ++ name :: more).
  { revert Hrev. clear -H2. generalize (rev rest) (rev base). intros r b. revert r.
    induction names as [|x names IH]; intros r Hr.
    - exfalso. assert (name ∈ replicate ups ".."%string) by (simpl in Hr; rewrite Hr; set_solver).
      apply elem_of_replicate in H as [? _]. done.
    - destruct r as [|y r]; simpl in Hr; simplify_eq; [by exists names|].
      destruct (IH r) as [more ->]; [done|]. by exists more. }
  destruct Hpre as [more ->]. apply Forall_app in Hn as [Hn _]. apply Forall_rev in Hn. by rewrite rev_involutive in Hn.
Qed.
