(* ===== verification/Disk.v ===== *)
(** * The process and its files

    What the code uses of package os, on a machine that can fail: every call
    to the operating system or the database may succeed, fail, or be the last
    thing the process does.  [Machine] is the database together with the
    files; [io_outcome n] says what becomes of the [n]-th call, [io_clock n] is
    the time then and [io_random n] what [os.CreateTemp] draws.

    A process that has stopped does nothing any more: every later call is an
    error without effect, until [restart].  A file has its bytes and the time
    of its last change; that [Sync] forces them to the disk has no effect here,
    since it is the process that stops and not the machine.

    Then what the backup and the restore use of packages os and path/filepath
    beyond that: moving a directory, temporary directories, files that must be
    new, relative paths, and the walk through a directory. *)

From S2P Require Import Prelude GoBase Schema Sql Escape Strconv Password Paths.
From Stdlib Require Import Strings.Ascii.

Inductive Outcome := Succeeds | Fails (written : nat) | Stops.

Class IO := { io_outcome : nat -> Outcome; io_clock : nat -> Z; io_random : nat -> Z }.

Record File := mkFile { file_Bytes : string; file_ModTime : Z }.
Record Disk := mkDisk { files : gmap string File; dirs : gset string }.

Record Machine := mkMachine { mc_world : World; mc_disk : Disk; mc_up : bool; mc_calls : nat }.

Definition ErrNotExist : GoError := ErrMessage "file does not exist".
Definition ErrExist : GoError := ErrMessage "file already exists".
Definition ErrNotDir : GoError := ErrMessage "not a directory".
Definition ErrIO : GoError := ErrMessage "input/output error".
Definition ErrStopped : GoError := ErrMessage "the process has stopped".

Definition set_files (f : gmap string File) (d : Disk) : Disk := mkDisk f (dirs d).

(** What is in a directory, at any depth; an empty one has nothing. *)
Definition under (dir path : string) : bool := HasPrefix path (dir ++ "/").
Definition empty_dir (dir : string) (d : Disk) : bool :=
  forallb (fun p => negb (under dir p)) (map_to_list (files d)).*1 && forallb (fun p => negb (under dir p)) (elements (dirs d)).

(** A directory is there when it was made, and when something is in it. *)
Definition is_dir (path : string) (d : Disk) : bool :=
  bool_decide (path ∈ dirs d) || negb (empty_dir path d) || (path =?s "/") || (path =?s ".").

(** The directories on the way to a path, and the path itself. *)
Definition upto (path : string) : list string :=
  (fun k => render (IsAbs path) (take (S k) (segments path))) <$> seq 0 (length (segments path)).

Section calls.
Context `{IO}.

(** One call: [run] when it succeeds, [partial] when it fails, each given the
    number of the call. *)
Definition call {A} (run : nat -> Disk -> res A * Disk) (partial : nat -> nat -> Disk -> Disk) : Prog Machine A := fun m =>
  if mc_up m then
    let n := mc_calls m in
    match io_outcome n with
    | Succeeds => let '(r, d) := run n (mc_disk m) in (r, mkMachine (mc_world m) d true (S n))
    | Fails written => (Err ErrIO, mkMachine (mc_world m) (partial written n (mc_disk m)) true (S n))
    | Stops => (Err ErrStopped, mkMachine (mc_world m) (mc_disk m) false (S n))
    end
  else (Err ErrStopped, m).

(** A call that fails without effect. *)
Definition plain_call {A} (run : nat -> Disk -> res A * Disk) : Prog Machine A := call run (fun _ _ d => d).

(** A transaction or a query. *)
Definition database {A} (q : M A) : Prog Machine A := fun m =>
  if mc_up m then
    let n := mc_calls m in
    match io_outcome n with
    | Succeeds => let '(r, w) := q (mc_world m) in (r, mkMachine w (mc_disk m) true (S n))
    | Fails _ => (Err ErrIO, mkMachine (mc_world m) (mc_disk m) true (S n))
    | Stops => (Err ErrStopped, mkMachine (mc_world m) (mc_disk m) false (S n))
    end
  else (Err ErrStopped, m).

(** [time.Now()], in nanoseconds. *)
Definition time_Now : Prog Machine Z := plain_call (fun n d => (Ok (io_clock n), d)).
Definition UnixMilli (t : Z) : Z := t / 1000000.

(** A call that reads what is not a file of the server, or syncs or closes one
    of them. *)
Definition passing_call : Prog Machine unit := plain_call (fun _ d => (Ok tt, d)).

(** [filepath.Dir]: the path without its last segment. *)
Definition Dir (path : string) : string :=
  match rev (segments path) with
  | [] => Clean path
  | _ :: above => render (IsAbs path) (rev above)
  end.

(** [os.CreateTemp(dir, prefix+"*"+suffix)]: a name that is not taken (the
    code tries again with another number; one that is taken in the end is an
    error). *)
Definition CreateTemp (dir prefix suffix : string) : Prog Machine string := plain_call (fun n d =>
  let path := path_Join [dir; (prefix ++ FormatUint (io_random n mod 2 ^ 32) ++ suffix)%string] in
  if negb (is_dir dir d) then (Err ErrNotExist, d)
  else match files d !! path with
  | Some _ => (Err ErrExist, d)
  | None => if is_dir path d then (Err ErrExist, d) else (Ok path, set_files (<[path := mkFile "" (io_clock n)]> (files d)) d)
  end).

(** Writing to an open file at the end of it; a failure may leave a part. *)
Definition append_to (path bytes : string) (n : nat) (d : Disk) : Disk :=
  match files d !! path with
  | Some f => set_files (<[path := mkFile (file_Bytes f ++ bytes) (io_clock n)]> (files d)) d
  | None => d
  end.
Definition Write (path bytes : string) : Prog Machine unit :=
  call (fun n d => (Ok tt, append_to path bytes n d))
       (fun written n d => append_to path (String.substring 0 written bytes) n d).

(** The directory and those on the way to it, unless a file is in the way. *)
Definition MkdirAll (dir : string) : Prog Machine unit := plain_call (fun _ d =>
  if existsb (fun p => bool_decide (is_Some (files d !! p))) (upto dir) then (Err ErrNotDir, d)
  else (Ok tt, mkDisk (files d) (list_to_set (upto dir) ∪ dirs d))).

(** [os.Rename] of a file; [rename] below is of directories, too. *)
Definition rename_file (oldpath newpath : string) (d : Disk) : res unit * Disk :=
  match files d !! oldpath with
  | None => (Err ErrNotExist, d)
  | Some f =>
      if negb (is_dir (Dir newpath) d) then (Err ErrNotExist, d)
      else if is_dir newpath d then (Err ErrExist, d)
      else (Ok tt, set_files (<[newpath := f]> (delete oldpath (files d))) d)
  end.
Definition Rename (oldpath newpath : string) : Prog Machine unit := plain_call (fun _ => rename_file oldpath newpath).

(** A directory is removed only when nothing is in it. *)
Definition Remove (path : string) : Prog Machine unit := plain_call (fun _ d =>
  match files d !! path with
  | Some _ => (Ok tt, set_files (delete path (files d)) d)
  | None =>
      if is_dir path d then
        if empty_dir path d then (Ok tt, mkDisk (files d) (dirs d ∖ {[path]})) else (Err ErrExist, d)
      else (Err ErrNotExist, d)
  end).

(** [os.RemoveAll]: the file, or the directory with all that is in it; what
    is not there is no error.  One that fails may have removed a part; here it
    removes all or nothing. *)
Definition keep_outside (path p : string) : bool := negb (p =?s path) && negb (under path p).
Definition RemoveAll (path : string) : Prog Machine unit := plain_call (fun _ d =>
  (Ok tt, mkDisk (filter (fun kv => keep_outside path kv.1 = true) (files d))
                 (filter (fun p => keep_outside path p = true) (dirs d)))).

(** [os.Stat], as far as it is asked for: whether it is a directory. *)
Definition Stat (path : string) : Prog Machine bool := plain_call (fun _ d =>
  match files d !! path with
  | Some _ => (Ok false, d)
  | None => if is_dir path d then (Ok true, d) else (Err ErrNotExist, d)
  end).

(** [os.Open] and reading all of it. *)
Definition ReadFile (path : string) : Prog Machine string := plain_call (fun _ d =>
  match files d !! path with Some f => (Ok (file_Bytes f), d) | None => (Err ErrNotExist, d) end).

(** The names directly in a directory, without [.] and [..]: files, and
    directories, which are also those on the way to what is deeper in it. *)
Definition name_in (dir path : string) : option string :=
  match strip_prefix (dir ++ "/") path with
  | Some name => if plain name then Some name else None
  | None => None
  end.
Definition subdir_in (dir path : string) : option string :=
  match strip_prefix (dir ++ "/") path with
  | Some rest =>
      match Split rest "/" with name :: _ :: _ => if plain name then Some name else None | _ => None end
  | None => None
  end.
Definition subdirs (dir : string) (d : Disk) : gset string :=
  list_to_set (omap (subdir_in dir) (map_to_list (files d)).*1)
  ∪ list_to_set (omap (name_in dir) (elements (dirs d))) ∪ list_to_set (omap (subdir_in dir) (elements (dirs d))).
Record DirEntry := mkEntry { entry_Name : string; entry_IsDir : bool }.
Definition entries (dir : string) (d : Disk) : list DirEntry :=
  order_by (fun a b => String.leb (entry_Name a) (entry_Name b))
    (((fun name => mkEntry name false) <$> omap (name_in dir) (map_to_list (files d)).*1)
     ++ ((fun name => mkEntry name true) <$> elements (subdirs dir d))).
Definition ReadDir (dir : string) : Prog Machine (list DirEntry) := plain_call (fun _ d =>
  if is_dir dir d then (Ok (entries dir d), d) else (Err ErrNotExist, d)).

(** [entry.Info()] of a file: the time of its last change. *)
Definition ModTime (dir name : string) : Prog Machine Z := plain_call (fun _ d =>
  match files d !! (dir ++ "/" ++ name)%string with Some f => (Ok (file_ModTime f), d) | None => (Err ErrNotExist, d) end).
End calls.

(** ** filepath.Rel *)

Fixpoint strip_common (a b : list string) : list string * list string :=
  match a, b with
  | x :: a', y :: b' => if x =?s y then strip_common a' b' else (a, b)
  | _, _ => (a, b)
  end.

(** The way from [base] to [targ]; it is an error when the rest of [base]
    begins with a step up, and when one path is absolute and the other not. *)
Definition Rel (base targ : string) : option string :=
  if negb (Bool.eqb (IsAbs base) (IsAbs targ)) then None else
  let '(b, t) := strip_common (segments base) (segments targ) in
  match b with
  | name :: _ => if name =?s ".." then None else Some (render false (replicate (length b) ".."%string ++ t))
  | [] => Some (render false t)
  end.

Example rel_1 : Rel "a/b" "a/b/c/d" = Some "c/d"%string. Proof. reflexivity. Qed.
Example rel_2 : Rel "a/b" "a/c" = Some "../c"%string. Proof. reflexivity. Qed.
Example rel_3 : Rel "/a" "/a" = Some "."%string. Proof. reflexivity. Qed.
Example rel_4 : Rel ".." "a" = None. Proof. reflexivity. Qed.

(** ** os.Rename, os.MkdirTemp, O_EXCL *)

Definition ErrInvalid : GoError := ErrMessage "invalid argument".

(** Where something in the directory [old] goes when that becomes [new]. *)
Definition moved (old new path : string) : option string :=
  rest ← strip_prefix (old ++ "/") path; Some (new ++ "/" ++ rest)%string.

Definition move_dir (old new : string) (d : Disk) : Disk :=
  mkDisk (filter (fun kv => keep_outside old kv.1 = true) (files d)
          ∪ list_to_map (omap (fun kv => p ← moved old new kv.1; Some (p, kv.2)) (map_to_list (files d))))
         (filter (fun p => keep_outside old p = true) (dirs d) ∪ {[new]} ∪ list_to_set (omap (moved old new) (elements (dirs d)))).

(** A directory does not replace anything. *)
Definition rename (old new : string) (d : Disk) : res unit * Disk :=
  match files d !! old with
  | Some _ => rename_file old new d
  | None =>
      if negb (is_dir old d) then (Err ErrNotExist, d)
      else if is_dir new d then (Err ErrExist, d)
      else if bool_decide (is_Some (files d !! new)) then (Err ErrNotDir, d)
      else if negb (is_dir (Dir new) d) then (Err ErrNotExist, d)
      else if under old new then (Err ErrInvalid, d)
      else (Ok tt, move_dir old new d)
  end.

Section calls.
Context `{IO}.

(** [os.Rename] of a file or a directory. *)
Definition Move (old new : string) : Prog Machine unit := plain_call (fun _ => rename old new).

(** [os.MkdirTemp(dir, prefix+"*")] *)
Definition MkdirTemp (dir prefix : string) : Prog Machine string := plain_call (fun n d =>
  let path := path_Join [dir; (prefix ++ FormatUint (io_random n mod 2 ^ 32))%string] in
  if negb (is_dir dir d) then (Err ErrNotExist, d)
  else match files d !! path with
  | Some _ => (Err ErrExist, d)
  | None => if is_dir path d then (Err ErrExist, d) else (Ok path, mkDisk (files d) ({[path]} ∪ dirs d))
  end).

(** [os.OpenFile(path, O_WRONLY|O_CREATE|O_EXCL)] *)
Definition CreateNew (path : string) : Prog Machine unit := plain_call (fun n d =>
  if negb (is_dir (Dir path) d) then (Err ErrNotExist, d)
  else match files d !! path with
  | Some _ => (Err ErrExist, d)
  | None => if is_dir path d then (Err ErrExist, d) else (Ok tt, set_files (<[path := mkFile "" (io_clock n)]> (files d)) d)
  end).

(** [os.OpenFile(path, O_RDWR|O_CREATE)] *)
Definition OpenOrCreate (path : string) : Prog Machine unit := plain_call (fun n d =>
  match files d !! path with
  | Some _ => (Ok tt, d)
  | None =>
      if is_dir path d then (Err (ErrMessage "is a directory"), d)
      else if negb (is_dir (Dir path) d) then (Err ErrNotExist, d)
      else (Ok tt, set_files (<[path := mkFile "" (io_clock n)]> (files d)) d)
  end).

(** ** filepath.WalkDir *)

Section walk.
Context {A : Type}.

Fixpoint fold_each {B} (l : list B) (f : B -> A -> Prog Machine A) (a : A) : Prog Machine A :=
  match l with
  | [] => mret a
  | x :: l => a ← f x a; fold_each l f a
  end.

(** The function is called with a path, whether it is a directory, and what
    went wrong with it.  It changes [A].  A directory that cannot be read has
    no entries. *)
Context (fn : string -> bool -> option GoError -> A -> Prog Machine A).

Fixpoint walkDir (fuel : nat) (path : string) (isDir : bool) (a : A) : Prog Machine A :=
  a ← fn path isDir None a;
  if negb isDir then mret a else
  match fuel with
  | O => throw (ErrMessage "out of fuel")
  | S fuel =>
      r ← try (ReadDir path);
      match r with
      | Err e => fn path isDir (Some e) a
      | Ok found => fold_each found (fun e => walkDir fuel (path_Join [path; entry_Name e]) (entry_IsDir e)) a
      end
  end.

(** Every step down makes the path longer, and there is something at it. *)
Definition longest (d : Disk) : nat :=
  foldr (fun p n => Nat.max (String.length p) n) O ((map_to_list (files d)).*1 ++ elements (dirs d)).

Definition walk_all (root : string) (isDir : bool) (a : A) : Prog Machine A := fun m =>
  walkDir (S (longest (mc_disk m))) root isDir a m.

Definition WalkDir (root : string) (a : A) : Prog Machine A :=
  r ← try (Stat root);
  match r with
  | Err e => fn root false (Some e) a
  | Ok isDir => walk_all root isDir a
  end.
End walk.
End calls.
