(* ===== verification/Attachments.v ===== *)
(** * Attachments (attachments/*.go, httpapi/attachments.go)

    The files of attachments and the rows that stand for them: upload with its
    thumbnail, download, deletion, and the pass that reclaims what is left
    over.  Everything here runs on the [Machine] of [Disk], where every call
    can fail or be the last.

    The kind of a content ([http.DetectContentType]) and the decoding and
    drawing of images are parameters; the multipart form of an upload is
    decoded before. *)

From S2P Require Import Prelude GoBase Schema Sql Evolution Queries Items Details Reads Escape Strconv Password Services.
From S2P Require Import DomainServices HttpCore HttpItems HttpGroup HttpSync Paths Disk.
From Stdlib Require Import Strings.Ascii.

(** ** Names (datadir.go, category.go) *)

Definition AttachmentsSubdir : string := "attachments".
Definition TmpSubdir : string := "tmp".

Definition ErrCategoryInvalid : GoError :=
  ErrMessage "attachments: category must be one of image, manual, warranty, receipt, general".
Definition ErrFilenameRequired : GoError := ErrMessage "attachments: a file part with a filename is required".
Definition ErrTooLarge : GoError := ErrMessage "attachments: file exceeds the upload limit".
Definition ErrThumbnailSourceTooLarge : GoError := ErrMessage "attachments: image dimensions exceed the thumbnailing pixel ceiling".
Definition ErrNoThumbnail : GoError := ErrMessage "attachments: this attachment has no thumbnail".

Definition validCategories : list string := ["image"; "manual"; "warranty"; "receipt"; "general"]%string.
Definition ValidateCategory (category : string) : res unit :=
  if bool_decide (category ∈ validCategories) then Ok tt else Err ErrCategoryInvalid.

(** ** download.go: where a stored path leads *)

Definition resolveUnderGroup (root groupID storagePath : string) : res string :=
  reject (root =?s "") "attachments: resolveUnderGroup: root is empty";;
  reject (groupID =?s "") "attachments: resolveUnderGroup: groupID is empty";;
  reject (storagePath =?s "") "attachments: resolveUnderGroup: storagePath is empty";;
  let boundary := path_Join [root; AttachmentsSubdir; groupID] in
  let candidate := path_Join [root; AttachmentsSubdir; storagePath] in
  if negb (candidate =?s boundary) && negb (HasPrefix candidate (boundary ++ "/"))
  then Err (ErrMessage "attachments: storage path resolves outside the group's own directory")
  else Ok candidate.

Section files.
Context `{IO} (root groupID : string).

Definition openUnderGroup (storagePath : string) : Prog Machine string :=
  candidate ← lift (resolveUnderGroup root groupID storagePath); ReadFile candidate.

Definition OpenOriginal (row : Attachment) : Prog Machine string := openUnderGroup (att_StoragePath (Cols row)).

Definition OpenThumbnail (row : Attachment) : Prog Machine string :=
  match att_ThumbnailPath (Cols row) with
  | None => throw ErrNoThumbnail
  | Some path => openUnderGroup path
  end.

(** ** delete.go *)

Definition removeUnderGroup (storagePath : string) : Prog Machine unit :=
  candidate ← lift (resolveUnderGroup root groupID storagePath);
  r ← try (Remove candidate);
  match r with
  | Err e => if bool_decide (e = ErrNotExist) then mret tt else throw e
  | Ok tt => mret tt
  end.

(** The errors that are logged. *)
Definition errors_of {A} (r : res A) : list GoError := match r with Ok _ => [] | Err e => [e] end.

Definition Delete (row : Attachment) : Prog Machine (list GoError) :=
  original ← try (removeUnderGroup (att_StoragePath (Cols row)));
  match att_ThumbnailPath (Cols row) with
  | Some path => thumbnail ← try (removeUnderGroup path); mret (errors_of original ++ errors_of thumbnail)
  | None => mret (errors_of original)
  end.
End files.

(** ** thumbnail.go *)

(** [image.DecodeConfig], [image.Decode], the bounds of an image, and drawing
    it on white at a size and encoding it as a JPEG. *)
Class Imaging := {
  Image : Type;
  DecodeConfig : string -> option (Z * Z);
  Decode : string -> option Image;
  Bounds : Image -> Z * Z;
  ScaleJPEG : Image -> Z -> Z -> option string }.

Definition thumbnailContentTypes : list string := ["image/jpeg"; "image/png"; "image/webp"]%string.
Definition thumbnailFileSuffix : string := "-thumb.jpg".
Definition thumbnailMaxDimension : Z := 320.
Definition maxThumbnailSourcePixels : Z := 40000000.

(** [int(math.Round(float64(a) * 320 / float64(b)))] for sizes below 2^31: the
    product is exact, and a quotient that is not halfway between two integers
    is further from there than the rounding of the division reaches. *)
Definition scaled (a b : Z) : Z := ((2 * a * thumbnailMaxDimension + b) / (2 * b))%Z.

Definition thumbnail_size (w h : Z) : Z * Z :=
  let '(tw, th) :=
    if (thumbnailMaxDimension <? w)%Z || (thumbnailMaxDimension <? h)%Z then
      if (h <=? w)%Z then (thumbnailMaxDimension, scaled h w) else (scaled w h, thumbnailMaxDimension)
    else (w, h) in
  (if tw <? 1 then 1 else tw, if th <? 1 then 1 else th)%Z.

Definition scaleToThumbnail `{Imaging} (img : Image) : option string :=
  let '(w, h) := Bounds img in
  let '(tw, th) := thumbnail_size w h in ScaleJPEG img tw th.

Definition or_failure {A} (text : string) (o : option A) : res A := match o with Some a => Ok a | None => Err (ErrMessage text) end.

Definition decodeAndScale `{Imaging} (bytes : string) : res string :=
  '(width, height) ← or_failure "attachments: decode image header" (DecodeConfig bytes);
  require (wrap64 (width * height) <=? maxThumbnailSourcePixels)%Z ErrThumbnailSourceTooLarge;;
  img ← or_failure "attachments: decode image" (Decode bytes);
  or_failure "attachments: encode thumbnail" (scaleToThumbnail img).

Section service.
Context `{Entropy, Sha256, IO, Imaging} (DetectContentType : string -> string) (root group : string).

Definition generateThumbnail (path : string) : Prog Machine string :=
  bytes ← ReadFile path; lift (decodeAndScale bytes).

(** The file is removed when the rest fails ([defer os.Remove(tmpPath)]). *)
Definition or_remove {A} (tmpPath : string) (m : Prog Machine A) : Prog Machine A :=
  r ← try m;
  match r with
  | Ok a => mret a
  | Err e => _ ← try (Remove tmpPath); throw e
  end.

Definition fsyncDir (dir : string) : Prog Machine unit := passing_call;; passing_call.

(** No thumbnail, for whatever reason, is an error here. *)
Definition generateAndRecordThumbnail (groupID itemID id contentType : string) : Prog Machine Attachment :=
  lift (require (bool_decide (contentType ∈ thumbnailContentTypes)) ErrNoThumbnail);;
  let finalDir := path_Join [root; AttachmentsSubdir; groupID] in
  data ← generateThumbnail (path_Join [finalDir; id]);
  tmpPath ← CreateTemp (path_Join [root; TmpSubdir]) "thumbnail-" ".tmp";
  let thumbName := (id ++ thumbnailFileSuffix)%string in
  let finalThumbPath := path_Join [finalDir; thumbName] in
  or_remove tmpPath (
    Write tmpPath data;;
    passing_call;;
    passing_call;;
    Rename tmpPath finalThumbPath);;
  or_remove finalThumbPath (
    fsyncDir finalDir;;
    now ← time_Now;
    database (Attachments_SetThumbnailPath group itemID id (path_Join [groupID; thumbName]) (UnixMilli now))).

(** ** upload.go *)

Record UploadParams := mkUploadParams { up_ItemID : string; up_GroupID : string; up_Category : string; up_OriginalFilename : string }.

Definition UploadParams_validate (p : UploadParams) : res unit :=
  reject (up_ItemID p =?s "") "attachments: UploadParams: ItemID is empty";;
  reject (up_GroupID p =?s "") "attachments: UploadParams: GroupID is empty";;
  require (negb (up_OriginalFilename p =?s "")) ErrFilenameRequired;;
  ValidateCategory (up_Category p).

Definition sniffLen : nat := 512.

(** [uuid.NewV7()] is no call that can stop the process. *)
Definition newID : Prog Machine string := fun m =>
  if mc_up m then
    match draw uuid_NewV7 (mc_world m) with
    | (Ok (Some id), w) => (Ok id, mkMachine w (mc_disk m) true (mc_calls m))
    | (Ok None, w) => (Err (ErrMessage "attachments: generate id"), mkMachine w (mc_disk m) true (mc_calls m))
    | (Err e, w) => (Err e, mkMachine w (mc_disk m) true (mc_calls m))
    end
  else (Err ErrStopped, m).

(** Copy [src] to the file, at most [maxBytes], and move it to its place. *)
Definition stage (maxBytes : Z) (src tmpPath finalDir finalPath : string) : Prog Machine unit :=
  passing_call;;
  Write tmpPath (String.substring 0 (Z.to_nat (maxBytes + 1)) src);;
  lift (require (Z.of_nat (String.length src) <=? maxBytes)%Z ErrTooLarge);;
  passing_call;;
  passing_call;;
  MkdirAll finalDir;;
  Rename tmpPath finalPath.

Definition Upload (maxBytes : Z) (p : UploadParams) (src : string) : Prog Machine Attachment :=
  lift (reject (root =?s "") "attachments: Upload needs a non-empty data-directory root");;
  lift (reject (maxBytes <=? 0)%Z "attachments: Upload needs a positive maxBytes limit");;
  lift (UploadParams_validate p);;
  _ ← database (Items_Get group (up_ItemID p));
  id ← newID;
  tmpPath ← CreateTemp (path_Join [root; TmpSubdir]) "attachment-" ".tmp";
  let contentType := DetectContentType (String.substring 0 sniffLen src) in
  let finalDir := path_Join [root; AttachmentsSubdir; up_GroupID p] in
  let finalPath := path_Join [finalDir; id] in
  or_remove tmpPath (stage maxBytes src tmpPath finalDir finalPath);;
  fsyncDir finalDir;;
  now ← time_Now;
  created ← or_remove finalPath (database (Attachments_Create group
    (mkCreateAttachment id (up_ItemID p) (up_Category p) (up_OriginalFilename p) contentType
       (Z.of_nat (String.length src)) (path_Join [up_GroupID p; id]) (sha256_hex src) (UnixMilli now))));
  thumbnail ← try (generateAndRecordThumbnail (up_GroupID p) (up_ItemID p) id contentType);
  mret (match thumbnail with Ok updated => updated | Err _ => created end).
End service.

(** ** reclaim.go *)

Record Report := mkReport { FilesRemoved : Z; RowsTombstoned : Z; ThumbnailsCleared : Z; Errors : list GoError }.

Definition file_removed (r : Report) : Report := mkReport (FilesRemoved r + 1) (RowsTombstoned r) (ThumbnailsCleared r) (Errors r).
Definition row_tombstoned (r : Report) : Report := mkReport (FilesRemoved r) (RowsTombstoned r + 1) (ThumbnailsCleared r) (Errors r).
Definition thumbnail_cleared (r : Report) : Report := mkReport (FilesRemoved r) (RowsTombstoned r) (ThumbnailsCleared r + 1) (Errors r).
Definition add_error (e : GoError) (r : Report) : Report :=
  mkReport (FilesRemoved r) (RowsTombstoned r) (ThumbnailsCleared r) (Errors r ++ [e]).

(** One hour, in nanoseconds. *)
Definition minOrphanFileAge : Z := 3600000000000.

(** A loop that adds to the report. *)
Fixpoint report_each {A} (l : list A) (f : A -> Report -> Prog Machine Report) (report : Report) : Prog Machine Report :=
  match l with
  | [] => mret report
  | x :: l => report ← f x report; report_each l f report
  end.

Section reclaim.
Context `{IO} (dataDir : string).

(** Go on with the value, or report the error unless it is an expected one. *)
Definition or_report {A} (expected : list GoError) (m : Prog Machine A) (report : Report) (k : A -> Prog Machine Report) : Prog Machine Report :=
  r ← try m;
  match r with
  | Ok a => k a
  | Err e => mret (if is_one_of expected e then report else add_error e report)
  end.

Definition reclaimOrphan (groupID : string) (referenced : gset string) (entry : DirEntry) (report : Report) : Prog Machine Report :=
  let dir := path_Join [dataDir; AttachmentsSubdir; groupID] in
  let name := entry_Name entry in
  if entry_IsDir entry then mret report
  else if bool_decide (name ∈ referenced) then mret report
  else
    or_report [ErrNotExist] (ModTime dir name) report (fun modTime =>
    or_report [] time_Now report (fun now =>
    if (now - modTime <? minOrphanFileAge)%Z then mret report
    else or_report [] (removeUnderGroup dataDir groupID (path_Join [groupID; name])) report (fun _ =>
      mret (file_removed report)))).

Definition reclaimOrphanedFiles (groupID : string) (referenced : gset string) (report : Report) : Prog Machine Report :=
  let dir := path_Join [dataDir; AttachmentsSubdir; groupID] in
  or_report [ErrNotExist] (ReadDir dir) report (fun entries =>
    report_each entries (reclaimOrphan groupID referenced) report).

(** A file that is not there: the row is marked by [mark]. *)
Definition reclaimRow (groupID : string) (row : Attachment) (report : Report) : Prog Machine Report :=
  let itemID := att_ItemID (Cols row) in
  or_report [] (lift (resolveUnderGroup dataDir groupID (att_StoragePath (Cols row)))) report (fun originalPath =>
  original ← try (Stat originalPath);
  match original with
  | Err e =>
      if negb (bool_decide (e = ErrNotExist)) then mret (add_error e report) else
      or_report [] time_Now report (fun now =>
      or_report [ErrNotFound] (database (Attachments_Delete groupID itemID (ID row) (UnixMilli now))) report (fun _ =>
      mret (row_tombstoned report)))
  | Ok _ =>
      match att_ThumbnailPath (Cols row) with
      | None => mret report
      | Some path =>
          or_report [] (lift (resolveUnderGroup dataDir groupID path)) report (fun thumbnailPath =>
          thumbnail ← try (Stat thumbnailPath);
          match thumbnail with
          | Ok _ => mret report
          | Err e =>
              if negb (bool_decide (e = ErrNotExist)) then mret (add_error e report) else
              or_report [] time_Now report (fun now =>
              or_report [ErrNotFound] (database (Attachments_ClearThumbnailPath groupID itemID (ID row) (UnixMilli now))) report (fun _ =>
              mret (thumbnail_cleared report)))
          end)
      end
  end).

Definition row_names (row : Attachment) : list string :=
  path_Base (att_StoragePath (Cols row)) ::
  match att_ThumbnailPath (Cols row) with Some path => [path_Base path] | None => [] end.

Definition live_attachments (rows : list Attachment) : list Attachment := List.filter live rows.
Definition referenced_names (rows : list Attachment) : gset string := list_to_set (live_attachments rows ≫= row_names).

Definition reclaimGroup (groupID : string) (report : Report) : Prog Machine Report :=
  or_report [] (database (Attachments_ListAll groupID)) report (fun rows =>
    report ← reclaimOrphanedFiles groupID (referenced_names rows) report;
    report_each (live_attachments rows) (reclaimRow groupID) report).

(** [Storage.GroupIDs], with the query [SELECT id FROM groups]. *)
Definition GroupIDs : M (list string) := fun w =>
  let ids := (map_to_list (groups (wdb w))).*1 in
  (match mapM NewGroupID ids with Some ids => Ok ids | None => Err (ErrMessage "storage: group id read from groups.id") end, w).

Definition Reclaim : Prog Machine Report :=
  groupIDs ← database GroupIDs;
  report_each groupIDs reclaimGroup (mkReport 0 0 0 []).
End reclaim.

(** ** httpapi/attachments.go *)

Definition ContentTooLarge : Problem := problem_New 413 "content-too-large" "Content Too Large".
Definition too_large : Case := mkCase (is_one_of [ErrTooLarge]) (fun _ => (ContentTooLarge, Plain)).

Definition InlineSafeContentType (contentType : string) : bool := bool_decide (contentType ∈ thumbnailContentTypes).

(** What a download is answered with: the bytes, and the headers that say
    what they are. *)
Record Served := mkServed { srv_ContentType : string; srv_Disposition : string; srv_Filename : string; srv_Bytes : string }.
#[global] Instance Served_json : Json Served := fun _ => true.
#[global] Instance attachmentBody_json : Json attachmentBody := fun _ => true.

Definition serveAttachmentFile (bytes contentType filename : string) : Response Served :=
  Reply 200 (mkServed contentType (if InlineSafeContentType contentType then "inline" else "attachment") filename bytes).

(** The parts of the form: the file with its name, and the category. *)
Inductive UploadForm := FormTooLarge | FormInvalid | FormWithoutFile | FormFile (filename category src : string).

Section handlers.
Context `{Entropy, Sha256, IO, Imaging} (DetectContentType : string -> string) (dataDir group : string).

Definition attachmentListHandler (itemID : string) : Prog Machine (Response (list attachmentBody)) :=
  answer (database (Attachments_ListForItem group itemID)) [not_found] (fun rows => writeJSON 200 (toAttachmentBody <$> rows)).

Definition attachmentUploadHandler (maxBytes : Z) (itemID : string) (form : UploadForm) : Prog Machine (Response attachmentBody) :=
  match form with
  | FormTooLarge => mret (problem_Write ContentTooLarge)
  | FormInvalid => mret (problem_Write (BadRequest (Says "the request is not a valid multipart/form-data upload")))
  | FormWithoutFile => mret (problem_Write (BadRequest (Says "the request must include a file part")))
  | FormFile filename category src =>
      opened ← try passing_call;
      match opened with
      | Err _ => mret (problem_Write Internal)
      | Ok tt =>
      answer (Upload DetectContentType dataDir group maxBytes (mkUploadParams itemID group category filename) src)
        [bad_request [ErrFilenameRequired; ErrCategoryInvalid]; too_large; not_found]
        (fun created => writeJSON 201 (toAttachmentBody created))
      end
  end.

Definition getAttachmentOrNotFound {B} (itemID attachmentID : string) (k : Attachment -> Prog Machine (Response B)) :
    Prog Machine (Response B) :=
  r ← try (database (Attachments_Get group itemID attachmentID));
  match r with
  | Ok row => k row
  | Err e => mret (write_problem (error_answer [not_found] e))
  end.

Definition attachmentDownloadHandler (itemID attachmentID : string) : Prog Machine (Response Served) :=
  getAttachmentOrNotFound itemID attachmentID (fun row =>
    answer (OpenOriginal dataDir group row) []
      (fun bytes => serveAttachmentFile bytes (att_ContentType (Cols row)) (att_OriginalFilename (Cols row)))).

Definition attachmentThumbnailDownloadHandler (itemID attachmentID : string) : Prog Machine (Response Served) :=
  getAttachmentOrNotFound itemID attachmentID (fun row =>
    answer (OpenThumbnail dataDir group row) [mkCase (is_one_of [ErrNoThumbnail]) (fun _ => (NotFound, Plain))]
      (fun bytes => serveAttachmentFile bytes "image/jpeg" (ID row ++ "-thumb.jpg"))).

Definition attachmentDeleteHandler (itemID attachmentID : string) (now : Z) : Prog Machine (Response unit) :=
  getAttachmentOrNotFound itemID attachmentID (fun row =>
    r ← try (database (Attachments_Delete group itemID attachmentID now));
    match r with
    | Err e => mret (write_problem (error_answer [not_found] e))
    | Ok tt => _ ← Delete dataDir group row; mret NoContent
    end).
End handlers.

(** ** datadir.go: what a start of the server does to its files *)

Definition DBSubdir : string := "db".
Definition BackupsSubdir : string := "backups".

Section start.
Context `{IO} (root : string).

Definition checkWritable (dir : string) : Prog Machine unit :=
  name ← CreateTemp dir ".hho-writable-" "";
  passing_call;;
  Remove name.

Definition emptyTmp (tmp : string) : Prog Machine unit :=
  found ← ReadDir tmp;
  for_each found (fun e => RemoveAll (path_Join [tmp; entry_Name e])).

Definition Ensure : Prog Machine unit :=
  lift (reject (root =?s "") "datadir: root is empty");;
  isDir ← Stat root;
  lift (reject (negb isDir) "datadir: root exists but is not a directory");;
  for_each [DBSubdir; AttachmentsSubdir; BackupsSubdir; TmpSubdir] (fun sub => MkdirAll (path_Join [root; sub]));;
  checkWritable (path_Join [root; DBSubdir]);;
  emptyTmp (path_Join [root; TmpSubdir]).

(** The process is started again after it has stopped; when [Ensure] fails,
    it does not serve. *)
Definition restart : Prog Machine unit := fun m =>
  Ensure (mkMachine (mc_world m) (mc_disk m) true (mc_calls m)).
End start.
