(* ===== verification/Effects.v ===== *)
(** * What a program does to the machine

    Three ways to follow a program through every outcome of its calls: [does],
    the relation between the machine before and after; the frame, a relation
    that says which files stay as they are; and [hoare], what holds before and
    after. *)

From S2P Require Import Prelude GoBase Schema Sql Strconv Escape Password HttpCore Paths Disk Attachments.

(** [does R Q p]: whatever the calls do, [p] takes the machine along [R], and
    a value it ends with satisfies [Q]. *)

Section does.
Context `{IO} (R : Machine -> Machine -> Prop) `{!PreOrder R}.

Definition does {A} (Q : A -> Prop) (p : Prog Machine A) : Prop :=
  forall m, R m (p m).2 /\ forall a, (p m).1 = Ok a -> Q a.

Lemma does_weaken {A} (Q Q' : A -> Prop) p : does Q p -> (forall a, Q a -> Q' a) -> does Q' p.
Proof. intros Hp HQ m. destruct (Hp m) as [HR Hv]. eauto. Qed.

Lemma does_ret {A} (Q : A -> Prop) a : Q a -> does Q (mret a).
Proof. intros HQ m. split; [reflexivity|]. by intros ? [= <-]. Qed.

Lemma does_throw {A} (Q : A -> Prop) e : does Q (throw e).
Proof. intros m. by split. Qed.

Lemma does_lift {A} (Q : A -> Prop) r : (forall a, r = Ok a -> Q a) -> does Q (lift r).
Proof. intros HQ m. split; [reflexivity|]. done. Qed.

Lemma does_bind {A B} (Q : A -> Prop) (Q' : B -> Prop) p (k : A -> Prog Machine B) :
  does Q p -> (forall a, Q a -> does Q' (k a)) -> does Q' (p ≫= k).
Proof.
  intros Hp Hk m. destruct (Hp m) as [HR Hv]. unfold mbind, prog_bind. destruct (p m) as [[a|e] m']; simpl in *; [|by split].
  destruct (Hk a (Hv a eq_refl) m') as [HR' Hv']. split; [by etrans|done].
Qed.

Lemma does_try {A} (Q : A -> Prop) p :
  does Q p -> does (fun r => match r with Ok a => Q a | Err _ => True end) (try p).
Proof.
  intros Hp m. destruct (Hp m) as [HR Hv]. unfold try. destruct (p m) as [r m']; simpl in *. split; [done|].
  intros r' [= <-]. destruct r; [by apply Hv|done].
Qed.

Lemma does_or_remove {A} (Q : A -> Prop) path p :
  does Q p -> does (fun _ => True) (Remove path) -> does Q (or_remove path p).
Proof.
  intros Hp Hr. eapply does_bind; [by apply does_try|]. intros [a|e] HQ; [by apply does_ret|].
  eapply does_bind; [by apply does_try|]. intros _ _. apply does_throw.
Qed.

Lemma does_or_report {A} expected (p : Prog Machine A) report k (Q : A -> Prop) :
  does Q p -> (forall a, Q a -> does (fun _ => True) (k a)) -> does (fun _ => True) (or_report expected p report k).
Proof.
  intros Hp Hk. eapply does_bind; [by apply does_try|]. intros [a|e] HQ; [by apply Hk|by apply does_ret].
Qed.

Lemma does_report_each {A} (l : list A) f report :
  (forall x report, x ∈ l -> does (fun _ => True) (f x report)) -> does (fun _ => True) (report_each l f report).
Proof.
  revert report. induction l as [|x l IH]; intros report Hf; cbn [report_each]; [by apply does_ret|].
  eapply does_bind; [apply Hf; by left|]. intros r _. apply IH. intros y r' Hy. apply Hf. by right.
Qed.

Lemma does_for_each {A} (l : list A) (f : A -> Prog Machine unit) :
  (forall x, x ∈ l -> does (fun _ => True) (f x)) -> does (fun _ => True) (for_each l f).
Proof.
  induction l as [|x l IH]; intros Hf; cbn [for_each]; [by apply does_ret|].
  eapply does_bind; [apply Hf; by left|]. intros _ _. apply IH. intros y Hy. apply Hf. by right.
Qed.

Lemma does_answer {A B} (Q : A -> Prop) (Q' : Response B -> Prop) p cases ok :
  does Q p -> (forall a, Q a -> Q' (ok a)) -> (forall e, Q' (write_problem (error_answer cases e))) -> does Q' (answer p cases ok).
Proof.
  intros Hp Hok Herr. eapply does_bind; [by apply does_try|]. intros [a|e] HQ; apply does_ret; auto.
Qed.

(** A call: what it does when it succeeds, fails or is the last one. *)
Lemma does_call {A} (Q : A -> Prop) run partial :
  (forall m n, R m (mkMachine (mc_world m) (run n (mc_disk m)).2 true (S n)) /\ forall a, (run n (mc_disk m)).1 = Ok a -> Q a) ->
  (forall m k n, R m (mkMachine (mc_world m) (partial k n (mc_disk m)) true (S n))) ->
  (forall m n, R m (mkMachine (mc_world m) (mc_disk m) false n)) ->
  does Q (call (A := A) run partial).
Proof.
  intros Hrun Hpart Hstop m. unfold call. destruct (mc_up m); [|by split]. destruct (io_outcome (mc_calls m)); [|by split; [apply Hpart|]|by split; [apply Hstop|]].
  destruct (Hrun m (mc_calls m)) as [HR HQ]. destruct (run (mc_calls m) (mc_disk m)) as [r d]. by split.
Qed.

Lemma does_database {A} (Q : A -> Prop) (q : M A) :
  (forall m n, R m (mkMachine (q (mc_world m)).2 (mc_disk m) true n) /\ forall a, (q (mc_world m)).1 = Ok a -> Q a) ->
  (forall m b n, R m (mkMachine (mc_world m) (mc_disk m) b n)) ->
  does Q (database q).
Proof.
  intros Hq Hstop m. unfold database. destruct (mc_up m); [|by split]. destruct (io_outcome (mc_calls m)); [|by split; [apply Hstop|]..].
  destruct (Hq m (S (mc_calls m))) as [HR HQ]. destruct (q (mc_world m)) as [r w]. by split.
Qed.
End does.


(** ** Frames *)

Section frame.
Context `{IO} (region : string -> Prop).

(** Outside of the region every file stays as it is. *)
Definition frame (m m' : Machine) : Prop :=
  forall path, ~ region path -> files (mc_disk m') !! path = files (mc_disk m) !! path.

#[export] Instance frame_preorder : PreOrder frame.
Proof. split; [by intros m path|]. intros a b c Hab Hbc path Hp. by rewrite (Hbc path Hp), (Hab path Hp). Qed.

Lemma frame_call {A} (Q : A -> Prop) run partial :
  (forall n d path, ~ region path -> files (run n d).2 !! path = files d !! path) ->
  (forall n d a, (run n d).1 = Ok a -> Q a) ->
  (forall k n d path, ~ region path -> files (partial k n d) !! path = files d !! path) ->
  does frame Q (call (A := A) run partial).
Proof.
  intros Hrun HQ Hpart. apply does_call; [apply _| | |].
  - intros m n. split; [intros path; apply Hrun|apply HQ].
  - intros m k n path. apply Hpart.
  - by intros m n path.
Qed.

Lemma frame_looking {A} (Q : A -> Prop) run :
  (forall n d, files (run n d).2 = files d) -> (forall n d a, (run n d).1 = Ok a -> Q a) -> does frame Q (plain_call (A := A) run).
Proof. intros Hrun HQ. apply frame_call; [|done|done]. intros n d path _. by rewrite Hrun. Qed.

Lemma frame_looks {A} run : (forall n d, files (run n d).2 = files d) -> does frame (fun _ => True) (plain_call (A := A) run).
Proof. intros Hrun. by apply frame_looking. Qed.

Lemma frame_Remove path : region path -> does frame (fun _ => True) (Remove path).
Proof.
  intros Hp. apply frame_call; [|done|done]. intros n d q Hq.
  destruct (files d !! path); simpl; [|by repeat case_match]. rewrite lookup_delete_ne; [done|]. by intros ->.
Qed.

Lemma frame_append path bytes n d q : region path -> ~ region q -> files (append_to path bytes n d) !! q = files d !! q.
Proof.
  intros Hp Hq. unfold append_to. destruct (files d !! path); [|done]. simpl. rewrite lookup_insert_ne; [done|]. by intros ->.
Qed.

Lemma frame_Write path bytes : region path -> does frame (fun _ => True) (Write path bytes).
Proof. intros Hp. apply frame_call; [|done|]; intros; by apply frame_append. Qed.

Lemma frame_Rename a b : region a -> region b -> does frame (fun _ => True) (Rename a b).
Proof.
  intros Ha Hb. apply frame_call; [|done|done]. intros n d q Hq. unfold rename_file.
  repeat (case_match; simpl; try done). rewrite lookup_insert_ne by (by intros ->). rewrite lookup_delete_ne; [done|]. by intros ->.
Qed.

Lemma frame_MkdirAll dir : does frame (fun _ => True) (MkdirAll dir).
Proof. apply frame_looks. intros n d. by case_match. Qed.

Lemma frame_database {A} (q : M A) : does frame (fun _ => True) (database q).
Proof. apply does_database; [apply _| |by intros m b n path]. intros m n. split; [by intros path|done]. Qed.

Lemma frame_lift {A} (r : res A) : does frame (fun _ => True) (lift r).
Proof. by apply does_lift; [apply _|]. Qed.

Lemma frame_passing : does frame (fun _ => True) passing_call.
Proof. by apply frame_looks. Qed.

Lemma frame_fsyncDir dir : does frame (fun _ => True) (fsyncDir dir).
Proof. eapply does_bind; [apply _|apply frame_passing|]. intros _ _. apply frame_passing. Qed.

Lemma frame_ReadFile path : does frame (fun _ => True) (ReadFile path).
Proof. apply frame_looks. intros n d. by case_match. Qed.

Lemma frame_Stat path : does frame (fun _ => True) (Stat path).
Proof. apply frame_looks. intros n d. by repeat case_match. Qed.
End frame.

(** ** Assertions about the database and the files *)

Definition assertion : Type := World -> gmap string File -> Prop.
Definition holds (P : assertion) (m : Machine) : Prop := P (mc_world m) (files (mc_disk m)).

(** [hoare P p Q E]: from a state with [P], a value of [p] comes with [Q] and an
    error with [E]. *)
Definition hoare {A} (P : assertion) (p : Prog Machine A) (Q : A -> assertion) (E : assertion) : Prop :=
  forall m, holds P m -> match p m with (Ok a, m') => holds (Q a) m' | (Err _, m') => holds E m' end.

Definition entails (P Q : assertion) : Prop := forall w f, P w f -> Q w f.

Lemma entails_refl (P : assertion) : entails P P.
Proof. by intros w f. Qed.
#[export] Hint Resolve entails_refl : core.

Section hoare_rules.
Context `{IO}.

Lemma hoare_conseq {A} (P P' : assertion) (p : Prog Machine A) Q Q' E E' :
  hoare P' p Q' E' -> entails P P' -> (forall a, entails (Q' a) (Q a)) -> entails E' E -> hoare P p Q E.
Proof.
  intros Hp HP HQ HE m Hm. specialize (Hp m (HP _ _ Hm)). destruct (p m) as [[a|e] m']; [by apply HQ|by apply HE].
Qed.

Lemma hoare_ret {A} (P : assertion) (a : A) (Q : A -> assertion) E : entails P (Q a) -> hoare P (mret a) Q E.
Proof. intros HQ m Hm. by apply HQ. Qed.

Lemma hoare_throw {A} (P : assertion) e (Q : A -> assertion) (E : assertion) : entails P E -> hoare P (throw e) Q E.
Proof. intros HE m Hm. by apply HE. Qed.

Lemma hoare_lift {A} (P : assertion) r (Q : A -> assertion) (E : assertion) :
  (forall a, r = Ok a -> entails P (Q a)) -> entails P E -> hoare P (lift r) Q E.
Proof. intros HQ HE m Hm. unfold lift. destruct r as [a|e]; [by apply HQ|by apply HE]. Qed.

Lemma hoare_bind {A B} (P : assertion) (p : Prog Machine A) (k : A -> Prog Machine B) Q Q' E :
  hoare P p Q E -> (forall a, hoare (Q a) (k a) Q' E) -> hoare P (p ≫= k) Q' E.
Proof.
  intros Hp Hk m Hm. specialize (Hp m Hm). unfold mbind, prog_bind. destruct (p m) as [[a|e] m']; [|done]. by apply Hk.
Qed.

Lemma hoare_try {A} (P : assertion) (p : Prog Machine A) Q E E' :
  hoare P p Q E -> hoare P (try p) (fun r => match r with Ok a => Q a | Err _ => E end) E'.
Proof. intros Hp m Hm. specialize (Hp m Hm). unfold try. by destruct (p m) as [[a|e] m']. Qed.

Lemma hoare_or_remove {A} (P : assertion) path (p : Prog Machine A) Q E1 E :
  hoare P p Q E1 -> hoare E1 (Remove path) (fun _ => E) E -> hoare P (or_remove path p) Q E.
Proof.
  intros Hp Hr. eapply hoare_bind; [eapply hoare_try, Hp|]. intros [a|e]; cbn beta iota; [by apply hoare_ret|].
  eapply hoare_bind; [eapply hoare_try, Hr|]. intros r. cbn beta. apply hoare_throw. by destruct r.
Qed.

Lemma hoare_answer {A B} (P : assertion) (p : Prog Machine A) cases (ok : A -> Response B) (I : assertion) E :
  hoare P p (fun _ => I) I -> hoare P (answer p cases ok) (fun _ => I) E.
Proof. intros Hp. eapply hoare_bind; [eapply hoare_try, Hp|]. intros r. apply hoare_ret. by destruct r. Qed.

Lemma hoare_or_report {A} (P : assertion) expected (p : Prog Machine A) report k (Q : A -> assertion) (I : assertion) E :
  hoare P p Q I -> (forall a, hoare (Q a) (k a) (fun _ => I) E) -> hoare P (or_report expected p report k) (fun _ => I) E.
Proof.
  intros Hp Hk. eapply hoare_bind; [eapply hoare_try, Hp|]. intros [a|e]; cbn beta iota; [apply Hk|by apply hoare_ret].
Qed.

Lemma hoare_report_each {A} (I : assertion) (l : list A) f report E :
  (forall x report, x ∈ l -> hoare I (f x report) (fun _ => I) E) -> hoare I (report_each l f report) (fun _ => I) E.
Proof.
  revert report. induction l as [|x l IH]; intros report Hf; cbn [report_each]; [by apply hoare_ret|].
  eapply hoare_bind; [apply Hf; by left|]. intros r. apply IH. intros y r' Hy. apply Hf. by right.
Qed.

Lemma hoare_for_each {A} (I : assertion) (l : list A) (f : A -> Prog Machine unit) :
  (forall x, x ∈ l -> hoare I (f x) (fun _ => I) I) -> hoare I (for_each l f) (fun _ => I) I.
Proof.
  induction l as [|x l IH]; intros Hf; cbn [for_each]; [by apply hoare_ret|].
  eapply hoare_bind; [apply Hf; by left|]. intros []. apply IH. intros y Hy. apply Hf. by right.
Qed.

Lemma hoare_call {A} (P : assertion) run partial (Q : A -> assertion) (E : assertion) :
  (forall w d n, P w (files d) -> match run n d with (Ok a, d') => Q a w (files d') | (Err _, d') => E w (files d') end) ->
  (forall w d k n, P w (files d) -> E w (files (partial k n d))) -> entails P E ->
  hoare P (call run partial) Q E.
Proof.
  intros Hrun Hpart HE m Hm. unfold call. destruct (mc_up m); [|by apply HE].
  destruct (io_outcome (mc_calls m)); [|by apply Hpart|by apply HE].
  specialize (Hrun (mc_world m) (mc_disk m) (mc_calls m) Hm). destruct (run _ _) as [[a|e] d]; exact Hrun.
Qed.

(** A call that leaves the files alone. *)
Lemma hoare_looks {A} (P : assertion) (run : nat -> Disk -> res A * Disk) (E : assertion) :
  (forall n d, files (run n d).2 = files d) -> entails P E -> hoare P (plain_call run) (fun _ => P) E.
Proof.
  intros Hrun HE. apply hoare_call; [|intros w d k n; apply HE|done].
  intros w d n HP. specialize (Hrun n d). destruct (run n d) as [[a|e] d']; cbn [snd] in Hrun; rewrite Hrun; auto.
Qed.

Lemma hoare_database {A} (P : assertion) (q : M A) (Q : A -> assertion) (E : assertion) :
  (forall w f, P w f -> match q w with (Ok a, w') => Q a w' f | (Err _, w') => E w' f end) -> entails P E ->
  hoare P (database q) Q E.
Proof.
  intros Hq HE m Hm. unfold database. destruct (mc_up m); [|by apply HE].
  destruct (io_outcome (mc_calls m)); [|by apply HE..].
  specialize (Hq (mc_world m) (files (mc_disk m)) Hm). destruct (q _) as [[a|e] w']; exact Hq.
Qed.
Lemma hoare_pure {A} (phi : Prop) (P : assertion) (p : Prog Machine A) Q E :
  (phi -> hoare P p Q E) -> hoare (fun w f => phi /\ P w f) p Q E.
Proof. intros Hp m [Hphi Hm]. by apply (Hp Hphi m). Qed.

End hoare_rules.
