(* ===== verification/Backup.v ===== *)
(** * Backup archives (backup/, cmd/hho/backup.go, httpapi/backup.go)

    A compacted snapshot of the database and the files of the attachments as
    one tar.gz archive: written to a stream, to a file that appears only when
    it is complete, and on a schedule, which keeps the newest archives.

    What is not in the repository is a parameter: SQLite ([Engine]), and how
    archive/tar, compress/gzip and encoding/json write and read bytes
    ([Archives]). *)

From S2P Require Import Prelude GoBase Schema Sql SyncReader Strconv Escape Password Calendar Paths Disk Attachments.
From Stdlib Require Import Strings.Ascii.

(** ** The parameters *)

(** A tar header, as far as it is used. *)
Record Header := mkHeader { hdr_Name : string; hdr_Regular : bool; hdr_Size : Z }.
Definition Entry : Type := Header * string.

(** A regular file as an entry. *)
Definition regular (name content : string) : Entry := (mkHeader name true (Z.of_nat (String.length content)), content).

(** What a reader of an archive meets: entries, each with the content that can
    be read and whether reading it ends without an error; then the end, or an
    error. *)
Inductive TarStream := TarEnd | TarBroken | TarNext (h : Header) (content : string) (whole : bool) (rest : TarStream).

Definition ArchiveFormatVersion : Z := 1.
Record ArchiveManifest := mkManifest { FormatVersion : Z; CreatedAtUnixMillis : Z; man_SchemaVersion : Z }.

(** The bytes that come out of gzip when an entry is written after others and
    when the archive is closed; [tar_read] is [None] when the bytes do not
    start like gzip. *)
Class Archives := {
  tar_entry : list Entry -> Entry -> string;
  tar_close : list Entry -> string;
  tar_read : string -> option TarStream;
  json_Marshal : ArchiveManifest -> string;
  json_Unmarshal : string -> option ArchiveManifest
}.

(** What is in the file of a database and in those that SQLite keeps beside
    it. *)
Definition database_files (path : string) : list string := [path; path ++ "-wal"; path ++ "-shm"; path ++ "-journal"]%string.
Definition image (path : string) (f : gmap string File) : list (option string) := (fun p => file_Bytes <$> f !! p) <$> database_files path.

(** [VACUUM INTO] writes [db_vacuum]; [db_open] opens a database that has only
    its file, migrates it and closes it again: the bytes then, and the version
    of the schema; [db_probe] takes the write lock of a database and releases
    it; [db_contents] is what a server finds that opens the database. *)
Class Engine := {
  db_vacuum : DB -> string;
  db_open : string -> res (string * Z);
  db_probe : list (option string) -> res (list (option string));
  db_contents : list (option string) -> option DB;
  SchemaVersion : Z
}.

(** ** Names with a time in them *)

(** Nanoseconds since 1970, as a day and the nanoseconds in it. *)
Definition epoch_day : Z := day_number (mkDate 1970 1 1).
Definition date_at (t : Z) : Date := civil (t / day_ns + epoch_day)%Z.
Definition second_ns : Z := 1000000000.

(** [t.UTC().Format("20060102T150405Z")] *)
Definition timestamp (t : Z) : string :=
  let d := date_at t in
  let s := (t mod day_ns / second_ns)%Z in
  (format_year (date_Year d) ++ two_digits (date_Month d) ++ two_digits (date_Day d) ++ "T"
   ++ two_digits (s / 3600)%Z ++ two_digits (s / 60 mod 60)%Z ++ two_digits (s mod 60)%Z ++ "Z")%string.

Definition take_byte (c : ascii) (s : string) : option string :=
  match s with String d s => if Ascii.eqb c d then Some s else None | EmptyString => None end.

(** The digits at the front, as a number and how many there are. *)
Fixpoint digits_at (s : string) (n : Z) (len : nat) : Z * nat * string :=
  match s with
  | String c rest => match digit_value c with Some d => digits_at rest (if (len <? 9)%nat then n * 10 + d else n)%Z (S len) | None => (n, len, s) end
  | EmptyString => (n, len, s)
  end.

(** [time.Parse] takes a fraction of a second that the layout does not name;
    digits after the ninth do not count. *)
Definition take_fraction (s : string) : Z * string :=
  match s with
  | String c rest =>
      if Ascii.eqb c "." || Ascii.eqb c "," then
        match digits_at rest 0 0 with
        | (_, O, _) => (0%Z, s)
        | (n, len, rest) => ((n * 10 ^ (9 - Z.of_nat (Nat.min len 9)))%Z, rest)
        end
      else (0%Z, s)
  | EmptyString => (0%Z, s)
  end.

(** [time.Parse("20060102T150405Z", s)] *)
Definition parse_timestamp (s : string) : option Z :=
  '(year, s) ← take_digits 4 0 s;
  '(month, s) ← take_digits 2 0 s;
  '(day, s) ← take_digits 2 0 s;
  s ← take_byte "T" s;
  '(hour, s) ← take_digits 2 0 s;
  '(minute, s) ← take_digits 2 0 s;
  '(second, s) ← take_digits 2 0 s;
  let '(nanos, s) := take_fraction s in
  s ← take_byte "Z" s;
  let d := mkDate year month day in
  if negb (s =?s "") || negb (valid_date d) || (23 <? hour)%Z || (59 <? minute)%Z || (59 <? second)%Z then None
  else Some ((day_number d - epoch_day) * day_ns + ((hour * 60 + minute) * 60 + second) * second_ns + nanos)%Z.

Example timestamp_demo :
  (timestamp 1789009445000000000, parse_timestamp "20260910T030405Z", parse_timestamp "20260910T030405.25Z",
   parse_timestamp "20260230T030405Z", parse_timestamp "20260910T240405Z") =
  ("20260910T030405Z", Some 1789009445000000000, Some 1789009445250000000, None, None)%string%Z.
Proof. vm_compute. reflexivity. Qed.

(** ** snapshot.go *)

Section snapshot.
Context `{IO, Engine}.

(** Run [p], then [cleanup] whatever came of it ([defer]). *)
Definition finally {A} (cleanup : Prog Machine unit) (p : Prog Machine A) : Prog Machine A :=
  r ← try p; _ ← try cleanup; lift r.

(** A name that is free: a file is made and removed again. *)
Definition stageName (dir : string) : Prog Machine string :=
  name ← CreateTemp dir "snapshot-" ".db.tmp";
  closed ← try passing_call;
  removed ← try (Remove name);
  lift closed;; lift removed;;
  mret name.

(** [VACUUM INTO] makes the file; one that is there and not empty is an error,
    and a failure may leave a part. *)
Definition vacuum_into (dstPath bytes : string) (n : nat) (d : Disk) : res unit * Disk :=
  if negb (is_dir (Dir dstPath) d) then (Err ErrNotExist, d) else
  match files d !! dstPath with
  | Some (mkFile (String _ _) _) => (Err ErrExist, d)
  | _ => (Ok tt, set_files (<[dstPath := mkFile bytes (io_clock n)]> (files d)) d)
  end.

Definition VacuumInto (dstPath : string) : Prog Machine unit := fun m =>
  let bytes := db_vacuum (wdb (mc_world m)) in
  (lift (reject (dstPath =?s "") "storage: vacuum into: destination path is empty");;
   call (vacuum_into dstPath bytes)
        (fun written n d => (vacuum_into dstPath (String.substring 0 written bytes) n d).2)) m.

Definition Snapshot (dstPath : string) : Prog Machine unit :=
  lift (reject (dstPath =?s "") "backup: snapshot destination path is empty");;
  let dir := Dir dstPath in
  MkdirAll dir;;
  tmpPath ← stageName dir;
  or_remove tmpPath (
    VacuumInto tmpPath;;
    passing_call;;
    Rename tmpPath dstPath);;
  fsyncDir dir.
End snapshot.

(** ** archive.go *)

Definition ManifestEntryName : string := "manifest.json".
Definition DBEntryName : string := "db/hho.db".

Record ArchiveStats := mkStats { AttachmentFiles : Z; AttachmentBytes : Z; AttachmentFilesSkipped : Z }.
Definition no_stats : ArchiveStats := mkStats 0 0 0.
Definition file_added (written : Z) (s : ArchiveStats) : ArchiveStats :=
  mkStats (AttachmentFiles s + 1) (wrap64 (AttachmentBytes s + written)) (AttachmentFilesSkipped s).
Definition file_skipped (s : ArchiveStats) : ArchiveStats :=
  mkStats (AttachmentFiles s) (AttachmentBytes s) (AttachmentFilesSkipped s + 1).

Section archive.
Context `{IO, Engine, Archives} (dataDir : string).

Definition stageSnapshotForArchive : Prog Machine string :=
  let tmpDir := path_Join [dataDir; TmpSubdir] in
  MkdirAll tmpDir;;
  name ← stageName tmpDir;
  Snapshot name;;
  mret name.

(** [write] is the destination, [done] what has been written to the tar
    stream. *)
Context (write : string -> Prog Machine unit).

Definition write_entry (name content : string) (done : list Entry) : Prog Machine (list Entry) :=
  let e := regular name content in
  write (tar_entry done e);;
  mret (done ++ [e]).

Definition writeManifestEntry (done : list Entry) : Prog Machine (list Entry) :=
  now ← time_Now;
  write_entry ManifestEntryName (json_Marshal (mkManifest ArchiveFormatVersion (UnixMilli now) SchemaVersion)) done.

(** Open, and the size and the content of what is open. *)
Definition writeDBEntry (stagedDB : string) (done : list Entry) : Prog Machine (list Entry) :=
  content ← ReadFile stagedDB;
  passing_call;;
  write_entry DBEntryName content done.

Definition writeAttachmentEntry (diskPath name : string) (done : list Entry * ArchiveStats) : Prog Machine (list Entry * ArchiveStats) :=
  f ← try (ReadFile diskPath);
  match f with
  | Err e => if bool_decide (e = ErrNotExist) then mret (done.1, file_skipped done.2) else throw e
  | Ok content =>
      passing_call;;
      entries ← write_entry name content done.1;
      mret (entries, file_added (Z.of_nat (String.length content)) done.2)
  end.

(** [ctx.Err()] is a call that may fail. *)
Definition visit_attachment (root p : string) (isDir : bool) (err : option GoError) (done : list Entry * ArchiveStats) :
    Prog Machine (list Entry * ArchiveStats) :=
  match err with
  | Some e => if bool_decide (e = ErrNotExist) then mret done else throw e
  | None =>
      passing_call;;
      if isDir then mret done else
      match Rel root p with
      | None => throw (ErrMessage "backup: relativize attachment path")
      | Some rel => writeAttachmentEntry p (path_Join ["attachments"; rel]) done
      end
  end.

Definition writeAttachmentsTree (done : list Entry) : Prog Machine (list Entry * ArchiveStats) :=
  let root := path_Join [dataDir; AttachmentsSubdir] in
  there ← try (Stat root);
  match there with
  | Err e => if bool_decide (e = ErrNotExist) then mret (done, no_stats) else throw e
  | Ok _ => WalkDir (visit_attachment root) root (done, no_stats)
  end.

Definition WriteArchive : Prog Machine ArchiveStats :=
  lift (reject (dataDir =?s "") "backup: write archive: data directory is empty");;
  stagedDB ← stageSnapshotForArchive;
  finally (Remove stagedDB) (
    done ← writeManifestEntry [];
    done ← writeDBEntry stagedDB done;
    '(done, stats) ← writeAttachmentsTree done;
    write (tar_close done);;
    mret stats).
End archive.

(** The bytes of an archive. *)
Fixpoint archive_from `{Archives} (done : list Entry) (entries : list Entry) : string :=
  match entries with
  | [] => tar_close done
  | e :: entries => (tar_entry done e ++ archive_from (done ++ [e]) entries)%string
  end.
Definition archive_of `{Archives} (entries : list Entry) : string := archive_from [] entries.

(** What a reader meets of complete entries. *)
Fixpoint stream_of (entries : list Entry) : TarStream :=
  match entries with [] => TarEnd | e :: entries => TarNext e.1 e.2 true (stream_of entries) end.
Definition sized (e : Entry) : Prop := hdr_Size e.1 = Z.of_nat (String.length e.2).

(** ** Archives in files (cmd/hho/backup.go, schedule.go) *)

Section to_file.
Context `{IO, Engine, Archives} (dataDir : string).

(** Written to a temporary file next to the destination, which is moved to its
    place when it is complete. *)
Definition write_and_move (dir prefix destPath : string) : Prog Machine ArchiveStats :=
  tmpPath ← CreateTemp dir prefix ".tar.gz.tmp";
  stats ← or_remove tmpPath (
    stats ← WriteArchive dataDir (Write tmpPath);
    passing_call;;
    Rename tmpPath destPath;;
    mret stats);
  fsyncDir dir;;
  mret stats.

Definition writeArchiveToFile (destPath : string) : Prog Machine ArchiveStats :=
  let dir := Dir destPath in
  MkdirAll dir;;
  write_and_move dir ".hho-backup-" destPath.

Definition writeArchiveAtomically (destPath : string) : Prog Machine ArchiveStats :=
  write_and_move (Dir destPath) ".hho-scheduled-backup-" destPath.

Definition backupFilename (now : Z) : string := ("hho-backup-" ++ timestamp now ++ ".tar.gz")%string.

(** A directory stands for a new file in it. *)
Definition resolveOutputPath (path : string) : Prog Machine string :=
  info ← try (Stat path);
  match info with
  | Ok true => now ← time_Now; mret (path_Join [path; backupFilename now])
  | Ok false => mret path
  | Err e => if bool_decide (e = ErrNotExist) then mret path else throw e
  end.

(** ** schedule.go *)

Definition ScheduledBackupPrefix : string := "hho-scheduled-backup-".
Definition scheduledBackupSuffix : string := ".tar.gz".

Definition ScheduledBackupFilename (now : Z) : string :=
  (ScheduledBackupPrefix ++ timestamp now ++ scheduledBackupSuffix)%string.

(** The text without a suffix, if it has it. *)
Fixpoint strip_suffix (suffix s : string) : option string :=
  if s =?s suffix then Some EmptyString else
  match s with
  | EmptyString => None
  | String c s => rest ← strip_suffix suffix s; Some (String c rest)
  end.

Definition scheduledBackupTimestamp (name : string) : option Z :=
  raw ← strip_prefix ScheduledBackupPrefix name;
  raw ← strip_suffix scheduledBackupSuffix raw;
  parse_timestamp raw.

Record ScheduledResult := mkScheduled { res_Path : string; res_Stats : ArchiveStats; res_Pruned : Z; res_PruneErrors : list GoError }.

(** The archives of the schedule, with their times. *)
Definition candidates (entries : list DirEntry) : list (string * Z) :=
  omap (fun e => if entry_IsDir e then None else ts ← scheduledBackupTimestamp (entry_Name e); Some (entry_Name e, ts)) entries.

Definition prune_one (dir : string) (c : string * Z) (done : Z * list GoError) : Prog Machine (Z * list GoError) :=
  removed ← try (Remove (path_Join [dir; c.1]));
  mret (match removed with
        | Ok _ => (done.1 + 1, done.2)%Z
        | Err e => if bool_decide (e = ErrNotExist) then done else (done.1, done.2 ++ [e])
        end).

Definition pruneScheduledBackups `{SortBy} (dir : string) (retain : Z) : Prog Machine (Z * list GoError) :=
  entries ← try (ReadDir dir);
  match entries with
  | Err e => mret (0%Z, [e])
  | Ok entries =>
      let candidates := candidates entries in
      if (Z.of_nat (length candidates) <=? retain)%Z then mret (0%Z, []) else
      let excess := take (length candidates - Z.to_nat retain) (sort_by snd candidates) in
      fold_each excess (prune_one dir) (0%Z, [])
  end.

Definition RunScheduled `{SortBy} (retain : Z) : Prog Machine ScheduledResult :=
  lift (reject (dataDir =?s "") "backup: scheduled: data directory is empty");;
  lift (reject (retain <=? 0)%Z "backup: scheduled: retention count must be positive");;
  let dir := path_Join [dataDir; BackupsSubdir] in
  MkdirAll dir;;
  now ← time_Now;
  let destPath := path_Join [dir; ScheduledBackupFilename now] in
  stats ← writeArchiveAtomically destPath;
  '(pruned, pruneErrs) ← pruneScheduledBackups dir retain;
  mret (mkScheduled destPath stats pruned pruneErrs).
End to_file.
