(* ===== verification/Restore.v ===== *)
(** * Restoring an archive (cmd/hho/restore.go, serverlock/)

    The command reads an archive into a staging directory, checks it, moves
    the data that is there aside and the restored data to its place.  The
    process that restores has no database open: its database is among the
    files. *)

From S2P Require Import Prelude GoBase Schema Sql SyncReader Strconv Escape Password Paths Disk Attachments Backup.
From Stdlib Require Import Strings.Ascii.

#[local] Open Scope string_scope.

(** ** serverlock.go *)

Definition FileName : string := ".hho-serve.lock".

Definition ErrHeld : GoError := ErrMessage "serverlock: held by another process".
Definition ErrUnsupported : GoError := ErrMessage "serverlock: advisory locking is not available for this data directory".

(** What [flock] says of a file; a lock goes with its process. *)
Inductive LockState := LockFree | LockHeld | LockUnsupported.
Class Locks := flockNB : string -> LockState.

Section serverlock.
Context `{IO, Locks}.

(** The number of the holder, which is read from the file, is only in the text
    of the error. *)
Definition acquireFile (path : string) : Prog Machine unit :=
  OpenOrCreate path;;
  match flockNB path with
  | LockFree => mret tt
  | LockHeld => _ ← try (ReadFile path); throw ErrHeld
  | LockUnsupported => throw ErrUnsupported
  end.

(** What the holder writes into it. *)
Definition holder_info (pid : Z) (started : string) : string :=
  "pid=" ++ FormatInt pid ++ String "010" ("started=" ++ started ++ String "010" "").

Definition truncate (path : string) : Prog Machine unit := plain_call (fun n d =>
  match files d !! path with
  | Some _ => (Ok tt, set_files (<[path := mkFile "" (io_clock n)]> (files d)) d)
  | None => (Err ErrNotExist, d)
  end).

Definition writeHolderInfo (path : string) (pid : Z) (started : string) : Prog Machine unit :=
  truncate path;; Write path (holder_info pid started);; passing_call.

Definition Acquire (dataDir : string) (pid : Z) (started : string) : Prog Machine unit :=
  let path := path_Join [dataDir; FileName] in
  acquireFile path;; writeHolderInfo path pid started.

Definition Probe (dataDir : string) : Prog Machine unit := acquireFile (path_Join [dataDir; FileName]);; passing_call.
End serverlock.

(** ** restore.go *)

Section restore.
Context `{IO, Locks, Engine, Archives}.

Definition restoreManifestMaxBytes : Z := 64 * 1024.

(** [tr.Next]: reading goes on in the source, which may fail. *)
Definition tar_Next (tr : TarStream) : Prog Machine (option (Header * string * bool * TarStream)) :=
  passing_call;;
  match tr with
  | TarEnd => mret None
  | TarBroken => throw (ErrMessage "read archive entry")
  | TarNext h content whole rest => mret (Some (h, content, whole, rest))
  end.

Definition readManifest (tr : TarStream) : Prog Machine (ArchiveManifest * TarStream) :=
  next ← tar_Next tr;
  match next with
  | None => throw (ErrMessage "archive is empty")
  | Some (hdr, content, whole, rest) =>
      lift (reject (negb (hdr_Name hdr =?s ManifestEntryName) || negb (hdr_Regular hdr)) "archive's first entry is not the manifest");;
      lift (reject (restoreManifestMaxBytes <? hdr_Size hdr)%Z "refusing a suspiciously large manifest");;
      lift (reject (negb whole) "read manifest.json");;
      manifest ← lift (or_failure "decode manifest.json" (json_Unmarshal content));
      mret (manifest, rest)
  end.

(** [storage.Open] of a database and its [Close]: the version of the schema.
    A database that is not there is made; what a failure leaves is not said. *)
Definition open_and_close (path : string) : Prog Machine Z :=
  MkdirAll (Dir path);;
  plain_call (fun n d =>
    match db_open (match files d !! path with Some f => file_Bytes f | None => "" end) with
    | Ok (bytes, version) => (Ok version, set_files (<[path := mkFile bytes (io_clock n)]> (files d)) d)
    | Err e => (Err e, d)
    end).

Definition restoreSchemaProbeSubdir : string := "restore-schema-probe".

Definition latestSupportedSchemaVersion (scratchParent : string) : Prog Machine Z :=
  dir ← MkdirTemp scratchParent (restoreSchemaProbeSubdir ++ "-");
  finally (RemoveAll dir) (open_and_close (path_Join [dir; "probe.db"])).

Definition dataDirHasExistingData (dbPath attachmentsDir : string) : Prog Machine bool :=
  there ← try (Stat dbPath);
  match there with
  | Ok _ => mret true
  | Err e =>
      if negb (bool_decide (e = ErrNotExist)) then throw e else
      entries ← try (ReadDir attachmentsDir);
      match entries with
      | Ok entries => mret (0 <? length entries)%nat
      | Err e => if bool_decide (e = ErrNotExist) then mret false else throw e
      end
  end.

(** Whether a warning is given. *)
Definition probeServerNotRunning (dataDir : string) : Prog Machine bool :=
  lock ← try (Probe dataDir);
  match lock with
  | Ok _ => mret false
  | Err e => if bool_decide (e = ErrUnsupported) then mret true else throw e
  end.

(** SQLite takes the write lock of the database and releases it, and may change
    the files of the database meanwhile. *)
Definition put_image (path : string) (bytes : list (option string)) (n : nat) (f : gmap string File) : gmap string File :=
  foldr (fun pb f => match pb.2 with Some b => <[pb.1 := mkFile b (io_clock n)]> f | None => delete pb.1 f end) f
    (zip (database_files path) bytes).

Definition probeDatabaseNotLive (dbPath : string) : Prog Machine unit :=
  there ← try (Stat dbPath);
  match there with
  | Err e => if bool_decide (e = ErrNotExist) then mret tt else throw e
  | Ok _ =>
      plain_call (fun n d =>
        match db_probe (image dbPath (files d)) with
        | Ok after => (Ok tt, set_files (put_image dbPath after n (files d)) d)
        | Err e => (Err e, d)
        end)
  end.

(** *** The entries *)

Definition segment_good (seg : string) : bool := negb ((seg =?s ".") || (seg =?s "..") || contains_byte seg "\").

Definition safeAttachmentPath (root entryName : string) : res string :=
  let rel := match strip_prefix "attachments/" entryName with Some rel => rel | None => entryName end in
  let segs := Split rel "/" in
  reject (negb (length segs =? 2)%nat || existsb (fun seg => seg =?s "") segs) "attachment entry does not have the documented shape";;
  reject (negb (forallb segment_good segs)) "attachment entry contains a path traversal segment";;
  let joined := path_Join [root; rel] in
  match Rel root joined with
  | Some relCheck =>
      reject ((relCheck =?s "..") || HasPrefix relCheck "../" || IsAbs relCheck) "attachment entry escapes the attachments directory";;
      Ok joined
  | None => Err (ErrMessage "attachment entry escapes the attachments directory")
  end.

(** The file is closed before it is asked how the copy went. *)
Definition extractRegularFile (content : string) (whole : bool) (destPath : string) (declaredSize : Z) : Prog Machine unit :=
  CreateNew destPath;;
  copied ← try (Write destPath content);
  closed ← try passing_call;
  lift copied;;
  lift (reject (negb whole) "read archive entry");;
  lift (reject (negb (Z.of_nat (String.length content) =? declaredSize)%Z) "short read");;
  lift closed.

Record restoreSummary := mkSummary {
  sum_Files : Z; sum_Bytes : Z; sum_SchemaVersion : Z; sum_PreservedPath : string; sum_Warning : bool }.

Definition count_entry (h : Header) (counts : Z * Z) : Z * Z := (counts.1 + 1, wrap64 (counts.2 + hdr_Size h))%Z.

Fixpoint extract_loop (tr : TarStream) (stagedDBPath stagedAttachmentsRoot : string) (sawDB : bool) (counts : Z * Z) :
    Prog Machine (Z * Z) :=
  passing_call;;
  match tr with
  | TarEnd => lift (reject (negb sawDB) "archive never contained db/hho.db");; mret counts
  | TarBroken => throw (ErrMessage "read archive entry")
  | TarNext hdr content whole rest =>
      if hdr_Name hdr =?s DBEntryName then
        lift (reject sawDB "archive contains db/hho.db more than once");;
        lift (reject (negb (hdr_Regular hdr)) "db/hho.db is not a regular file entry");;
        extractRegularFile content whole stagedDBPath (hdr_Size hdr);;
        extract_loop rest stagedDBPath stagedAttachmentsRoot true counts
      else if HasPrefix (hdr_Name hdr) "attachments/" then
        lift (reject (negb (hdr_Regular hdr)) "attachment entry is not a regular file");;
        destPath ← lift (safeAttachmentPath stagedAttachmentsRoot (hdr_Name hdr));
        MkdirAll (Dir destPath);;
        extractRegularFile content whole destPath (hdr_Size hdr);;
        extract_loop rest stagedDBPath stagedAttachmentsRoot sawDB (count_entry hdr counts)
      else throw (ErrMessage "archive contains unexpected entry")
  end.

Definition extractArchiveBody (tr : TarStream) (stagedDBPath stagedAttachmentsRoot : string) : Prog Machine (Z * Z) :=
  extract_loop tr stagedDBPath stagedAttachmentsRoot false (0, 0)%Z.

(** *** The command *)

Definition preserveIfExists (src dst : string) : Prog Machine unit :=
  there ← try (Stat src);
  match there with
  | Err e => if bool_decide (e = ErrNotExist) then mret tt else throw e
  | Ok _ => Move src dst
  end.

Section command.
Context (dataDir : string).
Let dbDir := path_Join [dataDir; DBSubdir].
Let dbPath := path_Join [dbDir; "hho.db"].
Let attachmentsDir := path_Join [dataDir; AttachmentsSubdir].

(** The existing data goes into a new directory beside it; [""] when there is
    none. *)
Definition set_aside (hadExisting : bool) : Prog Machine string :=
  if negb hadExisting then mret "" else
  preserved ← MkdirTemp dataDir ".hho-pre-restore-";
  preserveIfExists dbDir (path_Join [preserved; DBSubdir]);;
  preserveIfExists attachmentsDir (path_Join [preserved; AttachmentsSubdir]);;
  mret preserved.

Definition put_in_place (stagedDBPath stagedAttachmentsRoot : string) : Prog Machine unit :=
  MkdirAll dbDir;;
  Move stagedDBPath dbPath;;
  staged ← try (Stat stagedAttachmentsRoot);
  match staged with
  | Ok _ => Move stagedAttachmentsRoot attachmentsDir
  | Err _ => MkdirAll attachmentsDir
  end;;
  for_each [dbDir; attachmentsDir; dataDir] fsyncDir.

Definition restore_staged (tr : TarStream) (hadExisting warning : bool) (stagingRoot : string) : Prog Machine restoreSummary :=
  let stagedDBPath := path_Join [stagingRoot; "hho.db"] in
  let stagedAttachmentsRoot := path_Join [stagingRoot; "attachments"] in
  counts ← extractArchiveBody tr stagedDBPath stagedAttachmentsRoot;
  version ← open_and_close stagedDBPath;
  preserved ← set_aside hadExisting;
  put_in_place stagedDBPath stagedAttachmentsRoot;;
  mret (mkSummary counts.1 counts.2 version preserved warning).

Definition restore (src : string) (force : bool) : Prog Machine restoreSummary :=
  let tmpDir := path_Join [dataDir; TmpSubdir] in
  MkdirAll tmpDir;;
  tr ← lift (or_failure "read archive: not a valid gzip stream" (tar_read src));
  '(manifest, body) ← readManifest tr;
  lift (reject (negb (FormatVersion manifest =? ArchiveFormatVersion)%Z) "archive format version is not understood");;
  latestSchema ← latestSupportedSchemaVersion tmpDir;
  lift (reject (latestSchema <? man_SchemaVersion manifest)%Z "archive database schema version is newer than supported");;
  hadExisting ← dataDirHasExistingData dbPath attachmentsDir;
  lift (reject (hadExisting && negb force) "the directory already holds a database or attachments");;
  warning ← probeServerNotRunning dataDir;
  probeDatabaseNotLive dbPath;;
  stagingRoot ← MkdirTemp tmpDir "restore-staging-";
  finally (RemoveAll stagingRoot) (restore_staged body hadExisting warning stagingRoot).
End command.
End restore.
