(* ===== verification/AttachmentFiles.v ===== *)
(** * Where the files of attachments are

    The files of a group are in a directory of its own.  Whatever a stored
    path says, resolving it under a group leads into that directory or is
    refused; and an upload, a deletion or a pass of the reclamation for a
    group changes no file of another group. *)

From S2P Require Import Prelude GoBase Schema Sql Evolution Queries Items Details Reads Escape Strconv Password Services.
From S2P Require Import HttpCore HttpSync Paths Disk Attachments Effects.
From Stdlib Require Import Strings.Ascii.

(** ** Clean paths *)

Lemma clean_normal rooted out : normal rooted out -> clean_segments rooted (rev out) = out.
Proof.
  intros (names & ups & -> & Hn & Hu). rewrite rev_app_distr. unfold clean_segments. rewrite foldl_app.
  rewrite foldl_plain by (by apply Forall_rev). rewrite rev_involutive. f_equal.
  assert (Hrev : rev (replicate ups ".."%string) = replicate ups ".."%string).
  { clear. induction ups as [|u IH]; [done|]. cbn [replicate rev]. rewrite IH. symmetry. apply (replicate_cons_app u). }
  rewrite Hrev. destruct rooted; [by rewrite (Hu eq_refl)|]. clear.
  enough (He : forall k, foldl (clean_step false) (replicate k ".."%string) (replicate ups ".."%string) = replicate (ups + k) ".."%string).
  { specialize (He O). by rewrite Nat.add_0_r in He. }
  induction ups as [|u IH]; intros k; [done|]. cbn [replicate foldl].
  assert (Hstep : clean_step false (replicate k ".."%string) ".." = replicate (S k) ".."%string) by (by destruct k).
  rewrite Hstep, IH. f_equal. lia.
Qed.

Lemma Join_snoc l n : l <> [] -> Escape.Join (l ++ [n]) "/" = (Escape.Join l "/" ++ "/" ++ n)%string.
Proof.
  induction l as [|a l IH]; [done|]. intros _. destruct l as [|b l]; [done|].
  change (Escape.Join ((a :: b :: l) ++ [n]) "/") with (a ++ String "/" (Escape.Join ((b :: l) ++ [n]) "/"))%string.
  rewrite IH by done. change (Escape.Join (a :: b :: l) "/") with (a ++ String "/" (Escape.Join (b :: l) "/"))%string.
  by rewrite string_app_assoc.
Qed.

Lemma render_snoc rooted segs n : segs <> [] -> render rooted (segs ++ [n]) = (render rooted segs ++ "/" ++ n)%string.
Proof.
  intros Hs. destruct segs as [|s segs]; [done|]. unfold render at 1.
  change ((s :: segs) ++ [n]) with (s :: (segs ++ [n])). cbn match. change (s :: (segs ++ [n])) with ((s :: segs) ++ [n]).
  rewrite Join_snoc by done. unfold render. by rewrite string_app_assoc.
Qed.

Lemma IsAbs_render rooted out : normal rooted out -> out <> [] -> IsAbs (render rooted (rev out)) = rooted.
Proof.
  intros Hn Hne. pose proof (normal_free _ _ Hn) as Hf. destruct (rev out) as [|s segs] eqn:E.
  { apply (f_equal (@rev string)) in E. rewrite rev_involutive in E. done. }
  unfold render. destruct rooted; [done|]. apply Forall_cons in Hf as [Hs _].
  assert (Hs0 : s <> ""%string).
  { intros ->. assert (Hin : ""%string ∈ out) by (apply list_elem_of_In, in_rev; rewrite E; by left).
    destruct Hn as (names & ups & -> & Hn & _). apply elem_of_app in Hin as [Hin|[? _]%elem_of_replicate]; [|done].
    by pose proof (proj1 (Forall_forall _ _) Hn _ Hin). }
  destruct s as [|c s]; [done|]. cbn [contains_byte] in Hs. apply orb_false_iff in Hs as [Hc _].
  assert (Hhead : exists t, ("" ++ Escape.Join (String c s :: segs) "/")%string = String c t) by (destruct segs; cbn; eauto).
  destruct Hhead as [t ->]. unfold IsAbs, HasPrefix. cbn [strip_prefix]. by rewrite Ascii.eqb_sym, Hc.
Qed.

Lemma segments_render rooted out : normal rooted out -> out <> [] -> segments (render rooted (rev out)) = rev out.
Proof.
  intros Hn Hne. unfold segments. rewrite IsAbs_render by done. f_equal.
  assert (rev out <> []) by (intros E; apply (f_equal (@rev string)) in E; rewrite rev_involutive in E; done).
  rewrite Split_render by (done || by eapply normal_free).
  transitivity (clean_segments rooted (rev out)); [|by apply clean_normal]. by destruct rooted.
Qed.

(** ** The directory of a group *)

Section directories.
Context (root : string).

Definition place_of (names : list string) : string := render (IsAbs root) (segments root ++ names).

Definition dir_of (g : string) : string := place_of [AttachmentsSubdir; g].
Definition file_of (g name : string) : string := place_of [AttachmentsSubdir; g; name].

(** In the directory of the group, or that directory itself. *)
Definition within (g path : string) : Prop :=
  exists rest, Forall (fun n => plain n = true) rest /\ path = place_of (AttachmentsSubdir :: g :: rest).

(** Among the temporary files. *)
Definition in_tmp (path : string) : Prop := exists name, plain name = true /\ path = place_of [TmpSubdir; name].

Context (root_given : root <> ""%string).

Lemma place_normal names : Forall (fun n => plain n = true) names ->
  normal (IsAbs root) (rev (segments root ++ names)).
Proof.
  intros Hn. unfold segments. rewrite rev_app_distr, rev_involutive, <- (foldl_plain (IsAbs root)) by done.
  apply normal_foldl; [by apply free_plain|apply normal_clean].
Qed.

Lemma place_free names : Forall (fun n => plain n = true) names ->
  Forall (fun p => contains_byte p "/" = false) (segments root ++ names).
Proof. intros Hn. apply Forall_app. split; [apply segments_free|by apply free_plain]. Qed.

Lemma path_Join_place names : Forall (fun n => plain n = true) names -> path_Join (root :: names) = place_of names.
Proof. by apply path_Join_plain. Qed.

Lemma place_not_empty names : names <> [] -> Forall (fun n => plain n = true) names -> place_of names <> ""%string.
Proof.
  intros Hne Hn E. apply (f_equal (fun s => Split s "/")) in E. unfold place_of in E.
  rewrite Split_render in E; [|by destruct (segments root), names|by apply place_free].
  destruct names as [|n names]; [done|]. apply Forall_cons in Hn as [Hn _]. apply plain_facts in Hn as (Hn & _).
  destruct (IsAbs root); cbn in E; [injection E as E; by destruct (segments root)|].
  destruct (segments root) as [|s ss]; cbn in E; [by injection E as -> _|]. injection E as _ E. by destruct ss.
Qed.

Lemma place_render names : names <> [] -> Forall (fun n => plain n = true) names ->
  IsAbs (place_of names) = IsAbs root /\ segments (place_of names) = segments root ++ names.
Proof.
  intros Hne Hn. assert (Hne' : rev (segments root ++ names) <> []).
  { intros E. apply (f_equal (@rev string)) in E. rewrite rev_involutive in E. by destruct (segments root), names. }
  pose proof (place_normal names Hn) as Hnorm.
  assert (Hr : place_of names = render (IsAbs root) (rev (rev (segments root ++ names)))) by (by rewrite rev_involutive).
  by rewrite Hr, IsAbs_render, segments_render, rev_involutive by done.
Qed.

Lemma path_Join_in names n : names <> [] -> Forall (fun n => plain n = true) names -> plain n = true ->
  path_Join [place_of names; n] = place_of (names ++ [n]).
Proof.
  intros Hne Hn Hp. rewrite path_Join_plain by (by apply place_not_empty || by constructor).
  destruct (place_render names Hne Hn) as [-> ->]. unfold place_of. by rewrite app_assoc.
Qed.

Lemma place_inj a b : a <> [] -> b <> [] -> Forall (fun n => plain n = true) a -> Forall (fun n => plain n = true) b ->
  place_of a = place_of b -> a = b.
Proof.
  intros Ha Hb Fa Fb E. apply render_inj in E; [by simplify_list_eq| | |by apply place_free..]; by destruct (segments root).
Qed.

Lemma place_prefix a n : a <> [] -> place_of (a ++ [n]) = (place_of a ++ "/" ++ n)%string.
Proof. intros Ha. unfold place_of. rewrite app_assoc. apply render_snoc. by destruct (segments root), a. Qed.
Lemma under_place a b : a <> [] -> b <> [] -> Forall (fun n => plain n = true) a -> Forall (fun n => plain n = true) b ->
  under (place_of a) (place_of b) = true -> exists c, b = a ++ c.
Proof.
  intros Ha Hb Fa Fb Hu. apply HasPrefix_app in Hu as [s Hs]. rewrite string_app_assoc in Hs.
  apply (f_equal (fun t => Split t "/")) in Hs. change ("/" ++ s)%string with (String "/" s) in Hs. rewrite Split_app in Hs.
  unfold place_of in Hs. rewrite !Split_render in Hs by (by apply place_free || by destruct (segments root), a, b).
  exists (Split s "/"). rewrite <- !app_assoc in Hs. by simplify_list_eq.
Qed.
End directories.

(** ** Where a stored path leads *)

Section resolve.
Context (root : string) (root_given : root <> ""%string).

Lemma plain_subdirs : plain AttachmentsSubdir = true /\ plain TmpSubdir = true.
Proof. done. Qed.

Lemma join_dir g : plain g = true -> path_Join [root; AttachmentsSubdir; g] = dir_of root g.
Proof. intros Hg. apply path_Join_place; [done|by repeat constructor]. Qed.

Lemma join_file g n : plain g = true -> plain n = true -> path_Join [dir_of root g; n] = file_of root g n.
Proof. intros Hg Hn. apply (path_Join_in root [AttachmentsSubdir; g]); [done|by repeat constructor|done]. Qed.

Lemma join_group_name g n : plain g = true -> plain n = true -> path_Join [g; n] = (g ++ "/" ++ n)%string.
Proof.
  intros Hg Hn. destruct (plain_facts g Hg) as (Hg0 & _ & _ & Hg3).
  rewrite path_Join_segments by done. cbn [fmap list_fmap concat].
  rewrite (Split_last n), app_nil_r by apply plain_facts, Hn. rewrite (Split_last g) by done.
  assert (IsAbs g = false) as ->.
  { destruct g as [|c g]; [done|]. cbn [contains_byte] in Hg3. apply orb_false_iff in Hg3 as [Hc _].
    unfold IsAbs, HasPrefix. cbn [strip_prefix]. by rewrite Ascii.eqb_sym, Hc. }
  unfold clean_segments. rewrite !foldl_plain by (by repeat constructor). done.
Qed.

Lemma resolve_file g n : plain g = true -> plain n = true ->
  resolveUnderGroup root g (path_Join [g; n]) = Ok (file_of root g n).
Proof.
  intros Hg Hn. destruct (plain_facts g Hg) as (Hg0 & _ & _ & Hg3).
  rewrite join_group_name by done. unfold resolveUnderGroup, reject, mbind, res_bind.
  assert (Hgn : (g ++ "/" ++ n)%string <> ""%string) by (destruct g; [done|rewrite string_cons_app; discriminate]).
  rewrite (proj2 (string_eqb_false root "")), (proj2 (string_eqb_false g "")), (proj2 (string_eqb_false _ "") Hgn) by done.
  rewrite (join_dir g) by done.
  assert (path_Join [root; AttachmentsSubdir; (g ++ "/" ++ n)%string] = file_of root g n) as ->.
  { rewrite path_Join_segments by done. cbn [fmap list_fmap concat].
    change (g ++ "/" ++ n)%string with (g ++ String "/" n)%string. rewrite Split_first by done.
    rewrite (Split_last n) by apply plain_facts, Hn. cbn [app]. rewrite (foldl_plain _ [AttachmentsSubdir; g; n]) by (by repeat constructor).
    unfold file_of, place_of, segments. by rewrite rev_app_distr. }
  assert (HasPrefix (file_of root g n) (dir_of root g ++ "/") = true) as ->.
  { unfold file_of, dir_of. change [AttachmentsSubdir; g; n] with ([AttachmentsSubdir; g] ++ [n]).
    rewrite place_prefix by done. unfold HasPrefix. by rewrite <- string_app_assoc, strip_prefix_app. }
  by rewrite andb_false_r.
Qed.

(** Whatever the stored path says. *)
Lemma resolve_within g path c : plain g = true -> resolveUnderGroup root g path = Ok c -> within root g c.
Proof.
  intros Hg. unfold resolveUnderGroup, reject, mbind, res_bind. destruct (root =?s ""); [done|].
  destruct (g =?s ""); [done|]. destruct (path =?s ""); [done|]. cbn match. cbv zeta. rewrite (join_dir g) by done.
  destruct (negb _ && negb _) eqn:E; [done|]. intros Hc.
  assert (path_Join [root; AttachmentsSubdir; path] = c) as <- by (by injection Hc). clear Hc.
  rewrite (path_Join_segments root [AttachmentsSubdir; path]) in E |- * by done.
  set (out := foldl _ _ (concat _)) in *.
  assert (Hout : normal (IsAbs root) out) by (apply normal_foldl, normal_clean; repeat (apply Forall_app; split); try apply Split_pieces; constructor).
  destruct (below_named (IsAbs root) out (segments root ++ [AttachmentsSubdir]) g) as (rest & Hrest & Hplain); [done| |done| |].
  - apply Forall_app. split; [apply segments_free|by constructor].
  - rewrite <- app_assoc. unfold dir_of, place_of in E. apply andb_false_iff in E as [E|E]; apply negb_false_iff in E; bool_facts; auto.
  - exists rest. split; [done|]. rewrite Hrest. unfold place_of. by rewrite <- app_assoc.
Qed.

Lemma within_file g n : plain n = true -> within root g (file_of root g n).
Proof. intros Hn. exists [n]. by split; [constructor|]. Qed.

Lemma within_one g h path : plain g = true -> plain h = true -> within root g path -> within root h path -> g = h.
Proof.
  intros Hg Hh (a & Ha & ->) (b & Hb & E). apply place_inj in E; [by simplify_eq|done|done|by repeat constructor..].
Qed.

Lemma file_of_inj g n h k : plain g = true -> plain h = true -> plain n = true -> plain k = true ->
  file_of root g n = file_of root h k -> g = h /\ n = k.
Proof. intros ???? E. apply place_inj in E; [by simplify_eq|done|done|by repeat constructor..]. Qed.

Lemma tmp_not_within g path : plain g = true -> in_tmp root path -> ~ within root g path.
Proof.
  intros Hg (n & Hn & ->) (rest & Hr & E). apply place_inj in E; [done|done|done|by repeat constructor..].
Qed.

Lemma Base_group_name g n : plain g = true -> plain n = true -> path_Base (path_Join [g; n]) = n.
Proof.
  intros Hg Hn. destruct (plain_facts g Hg) as (Hg0 & _ & _ & Hg3). destruct (plain_facts n Hn) as (Hn0 & _ & _ & Hn3).
  rewrite join_group_name by done. change (g ++ "/" ++ n)%string with (g ++ String "/" n)%string.
  unfold path_Base. rewrite Split_first, Split_last by done. cbn [List.filter].
  by rewrite !(proj2 (string_eqb_false _ _)) by done.
Qed.
End resolve.

(** ** The files a group's requests touch *)

(** What [uuid.NewV7().String()] looks like, as far as it matters: a name with
    neither a slash nor a dot. *)
Definition uuid_text (id : string) : bool := plain id && negb (contains_byte id ".").

Lemma uuid_plain id : uuid_text id = true -> plain id = true.
Proof. unfold uuid_text. intros H. bool_facts. done. Qed.

Lemma Ok_inj {A} (a b : A) : Ok a = Ok b -> a = b.
Proof. by injection 1. Qed.

Lemma string_length_app a b : String.length (a ++ b) = (String.length a + String.length b)%nat.
Proof. induction a as [|c a IH]; [done|]. rewrite string_cons_app. cbn [String.length]. by rewrite IH. Qed.

Lemma plain_app a b : plain a = true -> contains_byte b "/" = false -> (2 < String.length b)%nat -> plain (a ++ b) = true.
Proof.
  intros Ha Hb Hl. destruct (plain_facts a Ha) as (H0 & _ & _ & H3). unfold plain. rewrite contains_byte_app, H3, Hb.
  assert (Hlen : (2 < String.length (a ++ b))%nat) by (rewrite string_length_app; lia).
  assert (Hne : forall s, (String.length s <= 2)%nat -> ((a ++ b)%string =?s s) = false).
  { intros s Hs. apply string_eqb_false. intros E. rewrite E in Hlen. lia. }
  by rewrite !Hne by (simpl; lia).
Qed.

Lemma plain_prefix a b : plain a = true -> contains_byte b "/" = false -> (2 < String.length a)%nat -> plain (a ++ b) = true.
Proof.
  intros Ha Hb Hl. destruct (plain_facts a Ha) as (_ & _ & _ & Hsl). unfold plain. rewrite contains_byte_app, Hsl, Hb.
  assert (Hne : forall s, (String.length s <= 2)%nat -> ((a ++ b)%string =?s s) = false).
  { intros s Hs. apply string_eqb_false. intros E. apply (f_equal String.length) in E. rewrite string_length_app in E. lia. }
  by rewrite !Hne by (simpl; lia).
Qed.

Section touched.
Context `{Entropy, Sha256, IO, Imaging} (DetectContentType : string -> string).
Context (uuids : forall n id, uuid_NewV7 n = Some id -> uuid_text id = true).
Context (root : string) (root_given : root <> ""%string) (g : string) (g_plain : plain g = true).

Definition own (path : string) : Prop := within root g path \/ in_tmp root path.

#[local] Abbreviation untouched := (frame own).

Lemma tmp_path prefix suffix n :
  plain prefix = true -> contains_byte suffix "/" = false -> (2 < String.length suffix)%nat ->
  in_tmp root (path_Join [path_Join [root; TmpSubdir]; (prefix ++ FormatUint n ++ suffix)%string]).
Proof.
  intros Hp Hs Hl. exists (prefix ++ FormatUint n ++ suffix)%string.
  assert (Hname : plain (prefix ++ FormatUint n ++ suffix) = true).
  { apply plain_app; [done| |rewrite string_length_app; lia]. rewrite contains_byte_app, Hs.
    by rewrite FormatUint_plain. }
  split; [done|]. rewrite (path_Join_place root root_given [TmpSubdir]) by (by repeat constructor).
  by rewrite (path_Join_in root [TmpSubdir]) by (done || by repeat constructor).
Qed.

Lemma untouched_CreateTemp prefix suffix :
  plain prefix = true -> contains_byte suffix "/" = false -> (2 < String.length suffix)%nat ->
  does untouched (in_tmp root) (CreateTemp (path_Join [root; TmpSubdir]) prefix suffix).
Proof.
  intros Hp Hs Hl. apply frame_call; [| |done].
  - intros n d q Hq. cbv zeta. destruct (negb _); [done|]. destruct (files d !! path_Join _); [done|]. destruct (is_dir (path_Join _) d); [done|].
    cbn [set_files files snd]. rewrite lookup_insert_ne; [done|]. intros <-. apply Hq. right. by apply tmp_path.
  - intros n d path. cbv zeta. destruct (negb _); [done|]. destruct (files d !! path_Join _); [done|]. destruct (is_dir (path_Join _) d); [done|].
    intros Hok%Ok_inj. rewrite <- Hok. by apply tmp_path.
Qed.

Lemma untouched_newID : does untouched (fun id => uuid_text id = true) newID.
Proof.
  intros m. unfold newID. destruct (mc_up m); [|split; [by intros path|done]]. unfold draw.
  destruct (uuid_NewV7 _) eqn:E; simpl; (split; [by intros path|]); [|done]. intros ? [= <-]. by eapply uuids.
Qed.

(** ** The programs *)

Lemma own_dir : own (dir_of root g).
Proof. left. by exists []. Qed.

Lemma own_file n : plain n = true -> own (file_of root g n).
Proof. intros Hn. left. by apply within_file. Qed.

Lemma untouched_removeUnderGroup path : does untouched (fun _ => True) (removeUnderGroup root g path).
Proof.
  eapply does_bind; [apply _|apply (does_lift _ (within root g)); intros c; by apply resolve_within|].
  intros c Hc. eapply does_bind; [apply _|apply does_try; [apply frame_Remove; by left]|].
  intros [[]|e] _; [by apply does_ret; [apply _|]|]. case_match; [by apply does_ret; [apply _|]|apply does_throw; apply _].
Qed.

Lemma untouched_Delete row : does untouched (fun _ => True) (Delete root g row).
Proof.
  eapply does_bind; [apply _|apply does_try; [apply untouched_removeUnderGroup]|]. intros original _.
  case_match; [|by apply does_ret; [apply _|]].
  eapply does_bind; [apply _|apply does_try; [apply untouched_removeUnderGroup]|]. intros. by apply does_ret; [apply _|].
Qed.

Ltac touch :=
  repeat first
    [ eapply does_bind; [apply _| |intros ? ?]
    | apply does_ret; [apply _|done]
    | apply does_throw; apply _
    | apply frame_lift
    | apply does_try
    | apply frame_looks; done
    | apply frame_database
    | apply frame_Remove
    | apply frame_Write
    | apply frame_Rename
    | progress cbv zeta ].

Lemma untouched_generateAndRecordThumbnail i id contentType : uuid_text id = true ->
  does untouched (fun _ => True) (generateAndRecordThumbnail root g g i id contentType).
Proof.
  intros Hid%uuid_plain. unfold generateAndRecordThumbnail.
  assert (Hthumb : plain (id ++ thumbnailFileSuffix) = true) by (apply plain_app; [done|done|simpl; lia]).
  eapply does_bind; [apply _|apply frame_lift|]. intros _ _. cbv zeta.
  rewrite join_dir, !join_file by done.
  eapply does_bind; [apply _| |intros data _].
  { unfold generateThumbnail. eapply does_bind; [apply _|apply frame_ReadFile|]. intros. apply frame_lift. }
  eapply does_bind; [apply _|apply untouched_CreateTemp; [done|done|simpl; lia]|]. intros tmpPath Htmp. cbn beta in Htmp.
  assert (Htmp' : own tmpPath) by (by right).
  eapply does_bind; [apply _| |intros _ _].
  { apply does_or_remove; [apply _| |by apply frame_Remove]. unfold passing_call. touch; [done|done|by apply own_file]. }
  apply does_or_remove; [apply _| |by apply frame_Remove, own_file].
  eapply does_bind; [apply _|apply frame_fsyncDir|]. intros _ _. unfold time_Now. touch.
Qed.

Lemma untouched_Upload maxBytes p src : up_GroupID p = g ->
  does untouched (fun _ => True) (Upload DetectContentType root g maxBytes p src).
Proof.
  intros Hg. unfold Upload. do 4 (eapply does_bind; [apply _|first [apply frame_lift|apply frame_database]|intros _ _]).
  eapply does_bind; [apply _|apply untouched_newID|]. intros id Hid. cbn beta in Hid. pose proof (uuid_plain _ Hid) as Hid'.
  eapply does_bind; [apply _|apply untouched_CreateTemp; [done|done|simpl; lia]|]. intros tmpPath Htmp. cbn beta in Htmp.
  assert (Htmp' : own tmpPath) by (by right). cbv zeta. rewrite Hg, join_dir, join_file by done.
  eapply does_bind; [apply _| |intros _ _].
  { apply does_or_remove; [apply _| |by apply frame_Remove]. unfold stage, passing_call. touch; [done|apply frame_MkdirAll|done|by apply own_file]. }
  eapply does_bind; [apply _|apply frame_fsyncDir|]. intros _ _.
  eapply does_bind; [apply _|by apply frame_looks|]. intros now _.
  eapply does_bind; [apply _|apply does_or_remove; [apply _|apply frame_database|by apply frame_Remove, own_file]|].
  intros created _. eapply does_bind; [apply _|apply does_try; [by apply untouched_generateAndRecordThumbnail]|].
  intros. by apply does_ret; [apply _|].
Qed.

Lemma untouched_reclaimOrphan referenced entry report : does untouched (fun _ => True) (reclaimOrphan root g referenced entry report).
Proof.
  unfold reclaimOrphan. do 2 (case_match; [by apply does_ret; [apply _|]|]).
  eapply does_or_report; [apply _| |intros modTime _]. { apply frame_looks. intros n d. by case_match. }
  eapply does_or_report; [apply _| |intros now _]. { by apply frame_looks. }
  case_match; [by apply does_ret; [apply _|]|].
  eapply does_or_report; [apply _|apply untouched_removeUnderGroup|]. intros. by apply does_ret; [apply _|].
Qed.

Lemma untouched_reclaimRow row report : does untouched (fun _ => True) (reclaimRow root g row report).
Proof.
  unfold reclaimRow. eapply does_or_report; [apply _|apply frame_lift|]. intros originalPath _.
  eapply does_bind; [apply _|apply does_try; [apply frame_Stat]|]. intros [isDir|e] _.
  - case_match; [|by apply does_ret; [apply _|]].
    eapply does_or_report; [apply _|apply frame_lift|]. intros thumbnailPath _.
    eapply does_bind; [apply _|apply does_try; [apply frame_Stat]|]. intros [isDir'|e] _; [by apply does_ret; [apply _|]|].
    case_match; [by apply does_ret; [apply _|]|].
    eapply does_or_report; [apply _|by apply frame_looks|]. intros now _.
    eapply does_or_report; [apply _|apply frame_database|]. intros. by apply does_ret; [apply _|].
  - case_match; [by apply does_ret; [apply _|]|].
    eapply does_or_report; [apply _|by apply frame_looks|]. intros now _.
    eapply does_or_report; [apply _|apply frame_database|]. intros. by apply does_ret; [apply _|].
Qed.

Lemma untouched_reclaimGroup report : does untouched (fun _ => True) (reclaimGroup root g report).
Proof.
  unfold reclaimGroup. eapply does_or_report; [apply _|apply frame_database|]. intros rows _.
  eapply does_bind; [apply _| |].
  - unfold reclaimOrphanedFiles. cbv zeta.
    eapply (does_or_report untouched _ _ _ _ (fun _ => True)); [apply frame_looks; intros n d; by case_match|].
    intros es _. apply does_report_each; [apply _|]. intros. apply untouched_reclaimOrphan.
  - intros r _. apply does_report_each; [apply _|]. intros. apply untouched_reclaimRow.
Qed.
End touched.
