(* ===== verification/DiskTreeFacts.v ===== *)
(** * Facts about directories with what is in them

    What is under a directory, what moving one does to the files, what a
    listing shows, and which files the calls of DiskTree can change. *)

From S2P Require Import Prelude GoBase Schema Sql Strconv Escape Password HttpCore Paths Disk Attachments Effects AttachmentFiles Backup.
From Stdlib Require Import Strings.Ascii.

#[local] Open Scope string_scope.

Lemma string_app_inj_r (a b c : string) : a ++ b = a ++ c -> b = c.
Proof. induction a as [|x a IH]; [done|]. rewrite !string_cons_app. injection 1. exact IH. Qed.

Lemma under_spec dir p : under dir p = true <-> exists rest, p = dir ++ "/" ++ rest.
Proof.
  unfold under. split.
  - intros (rest & ->)%HasPrefix_app. exists rest. by rewrite string_app_assoc.
  - intros (rest & ->). unfold HasPrefix. by rewrite <- string_app_assoc, strip_prefix_app.
Qed.

Lemma under_in dir rest : under dir (dir ++ "/" ++ rest) = true.
Proof. apply under_spec. eauto. Qed.

Lemma under_trans a b c : under a b = true -> under b c = true -> under a c = true.
Proof. rewrite !under_spec. intros [r ->] [s ->]. exists (r ++ "/" ++ s). by rewrite !string_app_assoc. Qed.

(** The directory or something in it. *)
Definition at_or_under (dir p : string) : Prop := p = dir \/ under dir p = true.

Lemma keep_outside_spec dir p : keep_outside dir p = true <-> ~ at_or_under dir p.
Proof.
  unfold keep_outside, at_or_under. rewrite andb_true_iff, !negb_true_iff. split.
  - intros [H1 H2] [->|Hu]; [by rewrite string_eqb_refl in H1|congruence].
  - intros Hn. split; [apply string_eqb_false; intros ->; apply Hn; by left|]. apply not_true_is_false. intros Hu. apply Hn. by right.
Qed.

#[export] Instance at_or_under_dec dir p : Decision (at_or_under dir p).
Proof. unfold at_or_under. apply _. Defined.

Lemma at_or_under_trans a b c : at_or_under a b -> at_or_under b c -> at_or_under a c.
Proof. intros [->|Hab]; [done|]. intros [->|Hbc]; right; [done|by eapply under_trans]. Qed.

Lemma empty_dir_spec dir d : empty_dir dir d = true <-> (forall p, under dir p = true -> files d !! p = None /\ p ∉ dirs d).
Proof.
  unfold empty_dir. rewrite andb_true_iff, !forallb_forall. split.
  - intros [Hf Hd] p Hu. split.
    + destruct (files d !! p) as [x|] eqn:E; [|done]. assert (Hin : In p (map_to_list (files d)).*1).
      { apply list_elem_of_In, list_elem_of_fmap. exists (p, x). split; [done|]. by apply elem_of_map_to_list. }
      specialize (Hf p Hin). by rewrite Hu in Hf.
    + intros Hp. assert (Hin : In p (elements (dirs d))) by (by apply list_elem_of_In, elem_of_elements).
      specialize (Hd p Hin). by rewrite Hu in Hd.
  - intros Hall. split; intros p Hp; apply negb_true_iff, not_true_is_false; intros Hu; destruct (Hall p Hu) as [Hf Hd].
    + apply list_elem_of_In, list_elem_of_fmap in Hp as ([q x] & -> & Hq). apply elem_of_map_to_list in Hq. cbn in *. congruence.
    + apply Hd. by apply elem_of_elements, list_elem_of_In.
Qed.

Lemma is_dir_false dir d : is_dir dir d = false -> dir ∉ dirs d /\ forall p, under dir p = true -> files d !! p = None /\ p ∉ dirs d.
Proof.
  unfold is_dir. rewrite !orb_false_iff, negb_false_iff. intros [[[H1%bool_decide_eq_false H2] _] _]. split; [done|]. by apply empty_dir_spec.
Qed.

(** ** Moving a directory *)

Lemma moved_spec old new p q : moved old new p = Some q <-> exists rest, p = old ++ "/" ++ rest /\ q = new ++ "/" ++ rest.
Proof.
  unfold moved, mbind, option_bind. split.
  - destruct (strip_prefix (old ++ "/") p) as [rest|] eqn:E; [|done]. intros [= <-]. exists rest. split; [|done].
    assert (Hp : HasPrefix p (old ++ "/") = true) by (unfold HasPrefix; by rewrite E).
    apply HasPrefix_app in Hp as [rest' ->]. rewrite strip_prefix_app in E. injection E as ->. by rewrite string_app_assoc.
  - intros (rest & -> & ->). rewrite <- string_app_assoc, strip_prefix_app. done.
Qed.

Lemma moved_lookup (f : gmap string File) old new p x :
  (list_to_map (omap (fun kv => q ← moved old new kv.1; Some (q, kv.2)) (map_to_list f)) : gmap string File) !! p = Some x <->
  exists rest, p = new ++ "/" ++ rest /\ f !! (old ++ "/" ++ rest) = Some x.
Proof.
  rewrite <- elem_of_list_to_map.
  - rewrite list_elem_of_omap. split.
    + intros ([k y] & Hk & Hm). apply elem_of_map_to_list in Hk. cbn in Hm. destruct (moved old new k) as [q|] eqn:E; [|done].
      cbn in Hm. injection Hm as -> ->. apply moved_spec in E as (rest & -> & ->). eauto.
    + intros (rest & -> & Hf). exists (old ++ "/" ++ rest, x). split; [by apply elem_of_map_to_list|]. cbn.
      assert (moved old new (old ++ "/" ++ rest) = Some (new ++ "/" ++ rest)) as -> by (apply moved_spec; eauto). done.
  - pose proof (NoDup_fst_map_to_list f) as Hnd. induction (map_to_list f) as [|[k y] l IH]; [constructor|].
    cbn in Hnd. apply NoDup_cons in Hnd as [Hk Hnd]. cbn. destruct (moved old new k) as [q|] eqn:E; cbn; [|by apply IH].
    constructor; [|by apply IH]. intros ([q' y'] & -> & Hin)%list_elem_of_fmap. cbn in E.
    apply list_elem_of_omap in Hin as ([k' z] & Hin & Hm). cbn in Hm. destruct (moved old new k') as [q''|] eqn:E'; [|done].
    cbn in Hm. injection Hm as -> ->. apply moved_spec in E as (r & -> & ->), E' as (r' & -> & E').
    apply string_app_inj_r, string_app_inj_r in E' as <-. apply Hk, list_elem_of_fmap. by exists (old ++ "/" ++ r, y').
Qed.

Lemma move_dir_lookup old new d p x :
  files (move_dir old new d) !! p = Some x <->
  (~ at_or_under old p /\ files d !! p = Some x) \/
  ((at_or_under old p \/ files d !! p = None) /\ exists rest, p = new ++ "/" ++ rest /\ files d !! (old ++ "/" ++ rest) = Some x).
Proof.
  unfold move_dir. cbn [files]. rewrite lookup_union_Some_raw, map_lookup_filter_Some, map_lookup_filter_None. cbn [fst].
  rewrite moved_lookup, keep_outside_spec. split.
  - intros [[Hf Ho]|[Hn Hm]]; [by left|]. right. split; [|done]. destruct Hn as [Hn|Hn]; [by right|].
    destruct (files d !! p) as [y|] eqn:E; [|by right]. left. destruct (decide (at_or_under old p)) as [|Ho]; [done|].
    exfalso. eapply Hn; [done|]. by apply keep_outside_spec.
  - intros [[Ho Hf]|[Hn Hm]]; [by left|]. right. split; [|done]. destruct Hn as [Hn|Hn]; [|by left].
    right. intros y _ Hk. by apply keep_outside_spec in Hk.
Qed.

(** ** Listings *)

Lemma name_in_spec dir p n : name_in dir p = Some n <-> plain n = true /\ p = dir ++ "/" ++ n.
Proof.
  unfold name_in. split.
  - destruct (strip_prefix (dir ++ "/") p) as [rest|] eqn:E; [|done]. destruct (plain rest) eqn:Hp; [|done]. intros [= ->].
    assert (Hpre : HasPrefix p (dir ++ "/") = true) by (unfold HasPrefix; by rewrite E).
    apply HasPrefix_app in Hpre as [r ->]. rewrite strip_prefix_app in E. injection E as ->. by rewrite string_app_assoc.
  - intros [Hp ->]. by rewrite <- string_app_assoc, strip_prefix_app, Hp.
Qed.

Lemma Join_Split s sep : Escape.Join (Split s sep) (String sep "") = s.
Proof.
  induction s as [|c s IH]; [done|]. cbn [Split]. pose proof (Split_not_nil s sep) as Hn.
  destruct (Ascii.eqb c sep) eqn:E; destruct (Split s sep) as [|p ps]; try done.
  - apply Ascii.eqb_eq in E as ->. change (Escape.Join ("" :: p :: ps) (String sep "")) with (String sep (Escape.Join (p :: ps) (String sep ""))). by rewrite IH.
  - destruct ps as [|q ps]; [cbn in *; by rewrite IH|].
    change (Escape.Join (String c p :: q :: ps) (String sep "")) with (String c (Escape.Join (p :: q :: ps) (String sep ""))). by rewrite IH.
Qed.

(** The first of several segments. *)
Lemma subdir_in_spec dir p n : subdir_in dir p = Some n <-> plain n = true /\ exists rest, p = dir ++ "/" ++ n ++ "/" ++ rest.
Proof.
  unfold subdir_in. split.
  - destruct (strip_prefix (dir ++ "/") p) as [rest|] eqn:E; [|done].
    assert (Hpre : HasPrefix p (dir ++ "/") = true) by (unfold HasPrefix; by rewrite E).
    apply HasPrefix_app in Hpre as [r ->]. rewrite strip_prefix_app in E. injection E as ->.
    destruct (Split rest "/") as [|a [|b l]] eqn:Es; try done. destruct (plain a) eqn:Hp; [|done]. intros [= ->].
    split; [done|]. exists (Escape.Join (b :: l) "/"). rewrite string_app_assoc. do 2 f_equal.
    pose proof (Join_Split rest "/"%char) as Hj. rewrite Es in Hj. by rewrite <- Hj.
  - intros (Hp & rest & ->). rewrite <- string_app_assoc, strip_prefix_app.
    change (n ++ "/" ++ rest) with (n ++ String "/" rest). rewrite Split_first by apply plain_facts, Hp.
    destruct (Split rest "/") as [|b l] eqn:E; [by apply Split_not_nil in E|]. by rewrite Hp.
Qed.

Definition something_in (dir : string) (d : Disk) : Prop :=
  exists rest, is_Some (files d !! (dir ++ "/" ++ rest)) \/ (dir ++ "/" ++ rest) ∈ dirs d.

Lemma elem_subdirs dir d n : n ∈ subdirs dir d <-> plain n = true /\ ((dir ++ "/" ++ n) ∈ dirs d \/ something_in (dir ++ "/" ++ n) d).
Proof.
  unfold subdirs, something_in. rewrite !elem_of_union, !elem_of_list_to_set, !list_elem_of_omap.
  setoid_rewrite elem_of_elements. setoid_rewrite name_in_spec. setoid_rewrite subdir_in_spec. split.
  - intros [[(p & Hp & Hn & rest & ->)|(p & Hp & Hn & ->)]|(p & Hp & Hn & rest & ->)]; (split; [done|]).
    + right. exists rest. left. apply list_elem_of_fmap in Hp as ([k x] & Hkx & Hk). apply elem_of_map_to_list in Hk. cbn in Hkx. subst k.
      rewrite !string_app_assoc. by exists x.
    + by left.
    + right. exists rest. right. by rewrite !string_app_assoc.
  - intros (Hn & [Hd|(rest & [[x Hx]|Hd])]).
    + left. right. eauto.
    + left. left. exists (dir ++ "/" ++ n ++ "/" ++ rest). split; [|by eauto]. rewrite !string_app_assoc in Hx.
      apply list_elem_of_fmap. exists (dir ++ "/" ++ n ++ "/" ++ rest, x). split; [done|]. by apply elem_of_map_to_list.
    + right. exists (dir ++ "/" ++ n ++ "/" ++ rest). rewrite !string_app_assoc in Hd. by eauto.
Qed.

Lemma elem_entries dir d e : e ∈ entries dir d <->
  plain (entry_Name e) = true /\
  if entry_IsDir e then (dir ++ "/" ++ entry_Name e) ∈ dirs d \/ something_in (dir ++ "/" ++ entry_Name e) d
  else is_Some (files d !! (dir ++ "/" ++ entry_Name e)).
Proof.
  unfold entries. rewrite elem_of_order_by, elem_of_app, !list_elem_of_fmap. split.
  - intros [(n & -> & Hn)|(n & -> & Hn)]; cbn [entry_Name entry_IsDir].
    + apply list_elem_of_omap in Hn as (p & Hp & Hn). apply name_in_spec in Hn as [Hn ->]. split; [done|].
      apply list_elem_of_fmap in Hp as ([k x] & Hkx & Hk). apply elem_of_map_to_list in Hk. cbn in Hkx. subst k. by exists x.
    + apply elem_of_elements, elem_subdirs in Hn. exact Hn.
  - destruct e as [n []]; cbn [entry_Name entry_IsDir]; intros [Hn He].
    + right. exists n. split; [done|]. apply elem_of_elements, elem_subdirs. by split.
    + left. exists n. split; [done|]. destruct He as [x Hx]. apply list_elem_of_omap. exists (dir ++ "/" ++ n).
      split; [|by apply name_in_spec]. apply list_elem_of_fmap. exists (dir ++ "/" ++ n, x). split; [done|]. by apply elem_of_map_to_list.
Qed.

(** A way down that is made of names. *)
Definition real (rest : string) : Prop := Forall (fun n => plain n = true) (Split rest "/").

Lemma entries_nil dir d rest : entries dir d = [] -> real rest -> files d !! (dir ++ "/" ++ rest) = None.
Proof.
  intros He Hr. destruct (files d !! (dir ++ "/" ++ rest)) as [x|] eqn:E; [|done]. exfalso.
  pose proof (Join_Split rest "/"%char) as Hj. unfold real in Hr. destruct (Split rest "/") as [|n [|m l]] eqn:Es; [by apply Split_not_nil in Es|..];
    apply Forall_cons in Hr as [Hn Hl]; cbn in Hj.
  - subst rest. apply (not_elem_of_nil (mkEntry n false)). rewrite <- He. apply elem_entries. cbn. by eauto.
  - apply (not_elem_of_nil (mkEntry n true)). rewrite <- He. apply elem_entries. cbn [entry_Name entry_IsDir]. split; [done|]. right.
    eexists. left. exists x. rewrite !string_app_assoc. rewrite <- E, <- Hj. reflexivity.
Qed.

(** ** Which files a call can change *)

Section frames.
Context `{IO} (region : string -> Prop).

Lemma frame_MkdirTemp dir prefix :
  does (frame region) (fun path => exists n, path = path_Join [dir; prefix ++ FormatUint (n mod 2 ^ 32)]) (MkdirTemp dir prefix).
Proof.
  apply frame_looking; intros n d; cbv zeta; repeat case_match; try done. intros path [= <-]. eauto.
Qed.

Lemma frame_CreateTemp dir prefix suffix :
  (forall n, region (path_Join [dir; prefix ++ FormatUint (n mod 2 ^ 32) ++ suffix])) ->
  does (frame region) (fun path => exists n, path = path_Join [dir; prefix ++ FormatUint (n mod 2 ^ 32) ++ suffix]) (CreateTemp dir prefix suffix).
Proof.
  intros Hr. apply frame_call; [| |done].
  - intros n d q Hq. cbv zeta. repeat case_match; try done. cbn [snd set_files files]. rewrite lookup_insert_ne; [done|].
    intros <-. by apply Hq.
  - intros n d a. cbv zeta. repeat case_match; try done. intros [= <-]. eauto.
Qed.

Lemma frame_CreateNew path : region path -> does (frame region) (fun _ => True) (CreateNew path).
Proof.
  intros Hp. apply frame_call; [|done|done]. intros n d q Hq. repeat case_match; try done.
  cbn [snd set_files files]. rewrite lookup_insert_ne; [done|]. by intros <-.
Qed.

Lemma frame_OpenOrCreate path : region path -> does (frame region) (fun _ => True) (OpenOrCreate path).
Proof.
  intros Hp. apply frame_call; [|done|done]. intros n d q Hq. repeat case_match; try done.
  cbn [snd set_files files]. rewrite lookup_insert_ne; [done|]. by intros <-.
Qed.

Lemma frame_RemoveAll path : (forall p, at_or_under path p -> region p) -> does (frame region) (fun _ => True) (RemoveAll path).
Proof.
  intros Hp. apply frame_call; [|done|done]. intros n d q Hq. cbn [snd files].
  assert (Hk : keep_outside path q = true) by (apply keep_outside_spec; auto).
  destruct (files d !! q) as [x|] eqn:E; [by apply map_lookup_filter_Some|].
  apply map_lookup_filter_None. by left.
Qed.

Lemma frame_ReadDir dir : does (frame region) (fun _ => True) (ReadDir dir).
Proof. apply frame_looks. intros n d. by case_match. Qed.

Lemma frame_finally {A} (Q : A -> Prop) cleanup p :
  does (frame region) Q p -> does (frame region) (fun _ => True) cleanup -> does (frame region) Q (finally cleanup p).
Proof.
  intros Hp Hc. eapply does_bind; [apply _|apply does_try, Hp|]. intros r Hr.
  eapply does_bind; [apply _|apply does_try, Hc|]. intros _ _. apply does_lift; [apply _|]. intros a ->. exact Hr.
Qed.
End frames.
