(* ===== verification/BackupDemo.v ===== *)
(** * Examples of what the backup takes as parameters

    An archive format, a database engine and runs of the calls, simple enough
    to compute with.  The format is read back as it was written
    ([simple_tar_law]). *)

From S2P Require Import Prelude GoBase Schema Sql Demo Strconv Escape Password Paths Disk Attachments Effects AttachmentFiles Backup Restore.
From Stdlib Require Import Strings.Ascii.

#[local] Open Scope string_scope.

(** ** Archives *)

(** A text with its length in front. *)
Fixpoint ones (n : nat) : string := match n with O => "0" | S n => String "1" (ones n) end.
Definition with_length (s : string) : string := ones (String.length s) ++ s.

Fixpoint take_bytes (n : nat) (s : string) : option (string * string) :=
  match n, s with
  | O, _ => Some ("", s)
  | S n, String c s => '(a, b) ← take_bytes n s; Some (String c a, b)
  | S _, EmptyString => None
  end.
Fixpoint take_text (n : nat) (s : string) : option (string * string) :=
  match s with
  | String "1" s => take_text (S n) s
  | String "0" s => take_bytes n s
  | _ => None
  end.

Definition simple_entry (e : Entry) : string :=
  String (if hdr_Regular e.1 then "E" else "L") (with_length (hdr_Name e.1) ++ with_length e.2).

Fixpoint simple_stream (fuel : nat) (s : string) : TarStream :=
  match fuel with
  | O => TarBroken
  | S fuel =>
      match s with
      | String c s =>
          if Ascii.eqb c "." then TarEnd else
          match (a ← take_text 0 s; b ← take_text 0 a.2; Some (a.1, b.1, b.2)) with
          | Some (name, content, rest) =>
              TarNext (mkHeader name (Ascii.eqb c "E") (Z.of_nat (String.length content))) content true (simple_stream fuel rest)
          | None => TarBroken
          end
      | EmptyString => TarBroken
      end
  end.

Definition simple_Marshal (m : ArchiveManifest) : string :=
  FormatInt (FormatVersion m) ++ "," ++ FormatInt (CreatedAtUnixMillis m) ++ "," ++ FormatInt (man_SchemaVersion m).
Definition simple_Unmarshal (s : string) : option ArchiveManifest :=
  match Split s "," with
  | [a; b; c] => v ← ParseInt a; t ← ParseInt b; n ← ParseInt c; Some (mkManifest v t n)
  | _ => None
  end.

Definition simple_archives : Archives := {|
  tar_entry _ e := simple_entry e;
  tar_close _ := ".";
  tar_read s := match s with EmptyString => None | _ => Some (simple_stream (String.length s) s) end;
  json_Marshal := simple_Marshal;
  json_Unmarshal := simple_Unmarshal |}.

Fixpoint simple_text (entries : list Entry) : string :=
  match entries with [] => "." | e :: entries => simple_entry e ++ simple_text entries end.

Lemma take_bytes_app s t : take_bytes (String.length s) (s ++ t) = Some (s, t).
Proof. induction s as [|c s IH]; [done|]. rewrite string_cons_app. cbn [String.length take_bytes]. by rewrite IH. Qed.

Lemma take_text_app k s t : take_text k (ones (String.length s) ++ s ++ t) = take_bytes (k + String.length s) (s ++ t).
Proof.
  generalize (s ++ t) as u. intros u. generalize (String.length s) as n. intros n. revert k.
  induction n as [|n IH]; intros k; cbn [ones]; rewrite string_cons_app.
  - cbn [take_text]. by rewrite Nat.add_0_r.
  - cbn [take_text]. rewrite IH. f_equal. lia.
Qed.

Lemma take_with_length s t : take_text 0 (with_length s ++ t) = Some (s, t).
Proof. unfold with_length. rewrite string_app_assoc, take_text_app. apply take_bytes_app. Qed.

Lemma simple_stream_of entries fuel :
  Forall sized entries -> (length entries < fuel)%nat ->
  simple_stream fuel (simple_text entries) = stream_of entries.
Proof.
  revert fuel. induction entries as [|[[name regular size] content] es IH]; intros fuel Hs Hf; cbn [simple_text stream_of length] in *;
    (destruct fuel as [|fuel]; [lia|]); [done|].
  apply Forall_cons in Hs as [Hsize Hs]. unfold sized in Hsize. cbn in Hsize. subst size.
  unfold simple_entry. cbn [fst snd hdr_Regular hdr_Name]. rewrite string_cons_app. cbn [simple_stream].
  rewrite string_app_assoc, take_with_length. cbn [mbind option_bind fst snd]. rewrite take_with_length. cbn [fst snd].
  cbn [mbind option_bind fst snd]. rewrite IH by (done || lia). by destruct regular.
Qed.

Lemma simple_archive_text done_ entries :
  archive_from (H := simple_archives) done_ entries = simple_text entries.
Proof. revert done_. induction entries as [|e es IH]; intros done_; cbn; [done|]. by rewrite IH. Qed.

Lemma simple_length entries : (length entries < String.length (simple_text entries))%nat.
Proof.
  induction entries as [|e es IH]; cbn [simple_text length]; [cbn; lia|]. unfold simple_entry.
  rewrite string_cons_app. cbn [String.length]. rewrite string_length_app. lia.
Qed.

Lemma simple_tar_law entries : Forall sized entries ->
  tar_read (Archives := simple_archives) (archive_of (H := simple_archives) entries) = Some (stream_of entries).
Proof.
  intros Hs. unfold archive_of. rewrite simple_archive_text. pose proof (simple_length entries) as Hl.
  cbn [tar_read simple_archives]. destruct (simple_text entries) as [|c s] eqn:E; [cbn in Hl; lia|]. rewrite <- E in Hl |- *.
  by rewrite simple_stream_of.
Qed.

(** ** A database, a disk and runs *)

(** Two databases are known: the one in [image] and an older one. *)
Definition demo_engine (db : DB) : Engine := {|
  db_vacuum _ := "image";
  db_open bytes := Ok (bytes, 5%Z);
  db_probe i := Ok i;
  db_contents i := match i with [Some bytes; None; None; None] => if bytes =?s "image" then Some db else if bytes =?s "old" then Some emptyDB else None | _ => None end;
  SchemaVersion := 5 |}.

Definition seconds (n : nat) : Z := (1789009445 + Z.of_nat n) * 1000000000.
Definition all_succeed : IO := {| io_outcome _ := Succeeds; io_clock := seconds; io_random n := Z.of_nat n |}.
Definition stops_at (k : nat) : IO :=
  {| io_outcome n := if (n =? k)%nat then Stops else Succeeds; io_clock := seconds; io_random n := Z.of_nat n |}.
Definition no_server : Locks := fun _ => LockFree.

Definition file (bytes : string) : File := mkFile bytes 0.
Definition machine_with (w : World) (f : gmap string File) (d : gset string) : Machine := mkMachine w (mkDisk f d) true 0.

(** A household with one attachment, and an archive of another one. *)
Definition household : Machine := machine_with demo_w0
  {[ "data/db/hho.db" := file "old"; "data/attachments/g1/a" := file "picture" ]}
  {[ "data"; "data/db"; "data/attachments"; "data/attachments/g1"; "data/backups"; "data/tmp" ]}.

Definition other_archive : string := archive_of (H := simple_archives)
  [regular "manifest.json" (simple_Marshal (mkManifest 1 0 5)); regular "db/hho.db" "image"; regular "attachments/g2/b" "receipt"].

Definition files_of (m : Machine) : list (string * string) := (fun kv => (kv.1, file_Bytes kv.2)) <$> map_to_list (files (mc_disk m)).

#[local] Existing Instance simple_archives.
#[local] Existing Instance no_server.

Definition restored (io : IO) : Machine := (restore (H1 := demo_engine demo_db0) "data" other_archive true household).2.

Example restore_completes : files_of (restored all_succeed) =
  [("data/attachments/g2/b", "receipt"); ("data/.hho-serve.lock", ""); ("data/.hho-pre-restore-24/attachments/g1/a", "picture");
   ("data/.hho-pre-restore-24/db/hho.db", "old"); ("data/db/hho.db", "image")].
Proof. vm_compute. reflexivity. Qed.

(** Between the two moves aside. *)
Example restore_interrupted : files_of (restored (stops_at 28)) =
  [("data/attachments/g1/a", "picture"); ("data/.hho-serve.lock", ""); ("data/.hho-pre-restore-24/db/hho.db", "old");
   ("data/tmp/restore-staging-11/attachments/g2/b", "receipt"); ("data/tmp/restore-staging-11/hho.db", "image")].
Proof. vm_compute. reflexivity. Qed.

(** An attachments directory that is empty counts as no data, and is in the
    way of the restored one: the database is in place, the attachments are not. *)
Definition emptied : Machine := machine_with demo_w0 ∅ {[ "data"; "data/attachments" ]}.
Example restore_onto_empty_directory :
  let run := restore (H := all_succeed) (H1 := demo_engine demo_db0) "data" other_archive true emptied in
  run.1 = Err ErrExist /\ files_of run.2 = [("data/.hho-serve.lock", ""); ("data/db/hho.db", "image")].
Proof. vm_compute. by split. Qed.

(** Call 31 asks whether there are staged attachments.  An error is taken for
    a no: the restore reports success, without them. *)
Definition fails_at (k : nat) : IO :=
  {| io_outcome n := if (n =? k)%nat then Fails 0 else Succeeds; io_clock := seconds; io_random n := Z.of_nat n |}.
Example restore_drops_attachments :
  let run := restore (H := fails_at 31) (H1 := demo_engine demo_db0) "data" other_archive true household in
  (sum_Files <$> match run.1 with Ok s => Some s | Err _ => None end) = Some 1%Z /\
  files_of run.2 = [("data/.hho-serve.lock", ""); ("data/.hho-pre-restore-24/attachments/g1/a", "picture");
                    ("data/.hho-pre-restore-24/db/hho.db", "old"); ("data/db/hho.db", "image")].
Proof. vm_compute. by split. Qed.
