(* ===== verification/RestoreSafety.v ===== *)
(** * A restore loses nothing

    Whatever the archive, whichever calls fail and wherever the process stops:
    the attachments that were there are still there, and so is the database,
    at their place or in the directory they were moved aside to; and nothing
    outside the parts of the data directory that a restore is about changes. *)

From S2P Require Import Prelude GoBase Schema Sql Strconv Escape Password HttpCore Paths Disk Attachments Effects.
From S2P Require Import Demo AttachmentFiles Backup Restore DiskTreeFacts BackupDemo.
From Stdlib Require Import Strings.Ascii.

#[local] Open Scope string_scope.

(** ** Paths in the data directory *)

Section places.
Context (root : string) (root_given : root <> "").

(** At or in a file or directory of the data directory. *)
Definition top (name path : string) : Prop := at_or_under (place_of root [name]) path.

Lemma place_split names : names <> [] -> Forall (fun n => plain n = true) names ->
  Split (place_of root names) "/" = ((if IsAbs root then [""] else []) ++ segments root ++ names)%list.
Proof. intros Hne Hn. unfold place_of. rewrite Split_render; [done|by destruct (segments root), names|by apply place_free]. Qed.

Lemma top_split name path : plain name = true -> top name path ->
  exists more, Split path "/" = ((if IsAbs root then [""] else []) ++ segments root ++ name :: more)%list.
Proof.
  intros Hn [->|Hu].
  - exists []. by rewrite place_split by (done || by constructor).
  - apply under_spec in Hu as [rest ->]. exists (Split rest "/"). change ("/" ++ rest) with (String "/" rest).
    rewrite Split_app, place_split by (done || by constructor). by rewrite <- !app_assoc.
Qed.

Lemma top_one a b path : plain a = true -> plain b = true -> top a path -> top b path -> a = b.
Proof.
  intros Ha Hb [ma Ea]%top_split [mb Eb]%top_split; [|done..]. rewrite Ea in Eb. by simplify_list_eq.
Qed.

Lemma under_place_app a b : a <> [] -> b <> [] -> under (place_of root a) (place_of root (a ++ b)%list) = true.
Proof.
  intros Ha. induction b as [|n b IH] using rev_ind; [done|]. intros _. rewrite app_assoc, place_prefix by (by destruct a).
  destruct b as [|m b]; [rewrite app_nil_r; apply under_in|].
  eapply under_trans; [apply IH; done|apply under_in].
Qed.

Lemma top_place name names : top name (place_of root (name :: names)).
Proof. destruct names as [|n names]; [by left|]. right. by apply (under_place_app [name]). Qed.

Lemma top_in name names rest : top name (place_of root (name :: names) ++ "/" ++ rest).
Proof. eapply at_or_under_trans; [apply top_place|right; apply under_in]. Qed.

Lemma join_top name : plain name = true -> path_Join [root; name] = place_of root [name].
Proof. intros Hn. apply path_Join_place; [done|by constructor]. Qed.

Lemma join_in names n : names <> [] -> Forall (fun n => plain n = true) names -> plain n = true ->
  path_Join [place_of root names; n] = place_of root (names ++ [n])%list.
Proof. by apply path_Join_in. Qed.

Lemma join_rel names rel : names <> [] -> Forall (fun n => plain n = true) names -> real rel ->
  path_Join [place_of root names; rel] = place_of root (names ++ Split rel "/")%list.
Proof.
  intros Hne Hn Hr. rewrite path_Join_segments by (by apply place_not_empty).
  cbn [fmap list_fmap concat]. rewrite app_nil_r, foldl_plain by done.
  destruct (place_render root names Hne Hn) as [HA HS].
  rewrite rev_app_distr, rev_involutive. unfold segments in HS at 1. rewrite HS, HA. unfold place_of. by rewrite app_assoc.
Qed.

Lemma strip_common_prefix (a b : list string) : strip_common a (a ++ b)%list = ([], b).
Proof. induction a as [|x a IH]; [by destruct b|]. cbn. by rewrite string_eqb_refl. Qed.

Lemma Rel_place a b : a <> [] -> b <> [] -> Forall (fun n => plain n = true) a -> Forall (fun n => plain n = true) b ->
  Rel (place_of root a) (place_of root (a ++ b)%list) = Some (Escape.Join b "/").
Proof.
  intros Ha Hb Fa Fb. destruct (place_render root a Ha Fa) as [HA HS].
  destruct (place_render root (a ++ b)%list) as [HA' HS']; [by destruct a|by apply Forall_app|].
  unfold Rel. rewrite HA, HA', Bool.eqb_reflx. cbn [negb]. rewrite HS, HS', app_assoc, strip_common_prefix.
  unfold render. by destruct b.
Qed.

Lemma Dir_place names m : Forall (fun n => plain n = true) names -> plain m = true ->
  Dir (place_of root (names ++ [m])%list) = place_of root names.
Proof.
  intros Hn Hm. destruct (place_render root (names ++ [m])%list) as [HA HS]; [by destruct names|apply Forall_app; by repeat constructor|].
  unfold Dir. rewrite HA, HS, app_assoc, rev_app_distr. cbn [rev app]. by rewrite rev_involutive.
Qed.
End places.

(** ** The paths of entries *)

Lemma segment_good_no_backslash seg : segment_good seg = true -> seg <> "." /\ seg <> ".." /\ contains_byte seg "\" = false.
Proof. unfold segment_good. rewrite negb_true_iff, !orb_false_iff. intros [[? ?] ?]. bool_facts. done. Qed.

(** An entry that passes is two names in the directory. *)
Lemma safe_path_inv dir e p : safeAttachmentPath dir ("attachments/" ++ e) = Ok p ->
  exists g n, e = g ++ "/" ++ n /\ plain g = true /\ plain n = true /\ p = path_Join [dir; e].
Proof.
  unfold safeAttachmentPath. rewrite strip_prefix_app. unfold reject, mbind, res_bind.
  destruct (negb (length (Split e "/") =? 2)%nat || existsb _ _) eqn:E1; [done|].
  destruct (negb (forallb segment_good (Split e "/"))) eqn:E2; [done|].
  apply orb_false_iff in E1 as [E0 E1]. apply negb_false_iff, Nat.eqb_eq in E0. apply negb_false_iff in E2.
  pose proof (Join_Split e "/"%char) as Hj. pose proof (Split_pieces e "/"%char) as Hfree.
  destruct (Split e "/") as [|g [|n [|? ?]]] eqn:Es; try done. clear E0. cbn in Hj, E1, E2.
  rewrite !orb_false_iff in E1. rewrite !andb_true_iff in E2. destruct E1 as (Eg & En & _). destruct E2 as (Gg & Gn & _).
  apply segment_good_no_backslash in Gg as (? & ? & _), Gn as (? & ? & _).
  apply Forall_cons in Hfree as [Fg [Fn _]%Forall_cons]. bool_facts. intros Hp.
  exists g, n. split; [by rewrite <- Hj|]. split; [|split].
  - unfold plain. rewrite Fg, !(proj2 (string_eqb_false _ _)) by done. done.
  - unfold plain. rewrite Fn, !(proj2 (string_eqb_false _ _)) by done. done.
  - repeat case_match; by simplify_eq.
Qed.

(** ** Reading the archive *)

Section reading.
Context `{IO, Locks, Engine, Archives} (region : string -> Prop).

#[local] Abbreviation quiet p := (does (frame region) (fun _ => True) p).

Ltac next := eapply does_bind; [apply _| |intros ? ?].

Lemma quiet_finish {A} (Q : A -> Prop) p : does (frame region) Q p -> quiet p.
Proof. intros Hp. by eapply does_weaken. Qed.

Lemma quiet_ret {A} (a : A) : quiet (mret a).
Proof. by apply does_ret; [apply _|]. Qed.

Lemma quiet_throw {A} e : quiet (throw (A := A) e).
Proof. apply does_throw, _. Qed.

Lemma quiet_try {A} (p : Prog Machine A) : quiet p -> quiet (try p).
Proof. intros Hp. eapply quiet_finish, does_try, Hp. Qed.

Lemma quiet_extractRegularFile content whole path size : region path -> quiet (extractRegularFile content whole path size).
Proof.
  intros Hp. unfold extractRegularFile. next; [by apply frame_CreateNew|]. next; [by apply quiet_try, frame_Write|].
  next; [apply quiet_try, frame_passing|]. do 3 (next; [apply frame_lift|]). apply frame_lift.
Qed.

Lemma quiet_extract_loop tr db att :
  region db -> (forall e p, safeAttachmentPath att ("attachments/" ++ e) = Ok p -> region p) ->
  forall sawDB counts, quiet (extract_loop tr db att sawDB counts).
Proof.
  intros Hdb Hatt. induction tr as [| |h content whole rest IH]; intros sawDB counts; cbn [extract_loop].
  - next; [apply frame_passing|]. next; [apply frame_lift|]. apply quiet_ret.
  - next; [apply frame_passing|]. apply quiet_throw.
  - next; [apply frame_passing|]. case_match.
    + do 2 (next; [apply frame_lift|]). next; [by apply quiet_extractRegularFile|]. apply IH.
    + destruct (HasPrefix (hdr_Name h) "attachments/") eqn:Ep; [|apply quiet_throw].
      apply HasPrefix_app in Ep as [e ->]. next; [apply frame_lift|].
      eapply does_bind; [apply _|apply (does_lift _ region); intros p; apply Hatt|]. intros p Hp. cbn beta in Hp.
      next; [apply frame_MkdirAll|]. next; [by apply quiet_extractRegularFile|]. apply IH.
Qed.

Lemma quiet_open_and_close path : region path -> quiet (open_and_close path).
Proof.
  intros Hp. unfold open_and_close. next; [apply frame_MkdirAll|]. apply frame_call; [|done|done].
  intros n d q Hq. destruct (db_open _) as [[bytes version]|e]; [|done]. cbn [snd set_files files]. rewrite lookup_insert_ne; [done|]. by intros <-.
Qed.

Lemma quiet_readManifest tr : quiet (readManifest tr).
Proof.
  unfold readManifest, tar_Next. next; [next; [apply frame_passing|]; destruct tr; first [apply quiet_ret|apply quiet_throw]|].
  destruct a as [[[[hdr content] whole] rest]|]; [|apply quiet_throw].
  do 4 (next; [apply frame_lift|]). apply quiet_ret.
Qed.

Lemma quiet_latest parent :
  (forall n p, at_or_under (path_Join [parent; (restoreSchemaProbeSubdir ++ "-") ++ FormatUint (n mod 2 ^ 32)]) p -> region p) ->
  (forall n, region (path_Join [path_Join [parent; (restoreSchemaProbeSubdir ++ "-") ++ FormatUint (n mod 2 ^ 32)]; "probe.db"])) ->
  quiet (latestSupportedSchemaVersion parent).
Proof.
  intros Hdir Hdb. unfold latestSupportedSchemaVersion.
  eapply does_bind; [apply _|apply frame_MkdirTemp|]. intros dir [n ->].
  apply frame_finally; [by apply quiet_open_and_close|]. apply frame_RemoveAll. by apply Hdir.
Qed.

Lemma quiet_hasExisting db att : quiet (dataDirHasExistingData db att).
Proof.
  unfold dataDirHasExistingData. next; [apply quiet_try, frame_Stat|]. destruct a; [apply quiet_ret|].
  case_match; [apply quiet_throw|]. next; [apply quiet_try, frame_ReadDir|]. repeat case_match; first [apply quiet_ret|apply quiet_throw].
Qed.

Lemma quiet_probeServer dir : region (path_Join [dir; FileName]) -> quiet (probeServerNotRunning dir).
Proof.
  intros Hl. unfold probeServerNotRunning, Probe, acquireFile. next.
  - apply quiet_try. next; [|apply frame_passing]. next; [by apply frame_OpenOrCreate|]. case_match; [apply quiet_ret| |apply quiet_throw].
    next; [apply quiet_try, frame_ReadFile|]. apply quiet_throw.
  - repeat case_match; first [apply quiet_ret|apply quiet_throw].
Qed.

Lemma quiet_for_each {A} (l : list A) (f : A -> Prog Machine unit) : (forall x, quiet (f x)) -> quiet (for_each l f).
Proof. intros Hf. apply does_for_each; [apply _|]. auto. Qed.
End reading.

(** *** When there is nothing yet *)

Lemma plain_call_ran `{IO} {A} (run : nat -> Disk -> res A * Disk) m r m' :
  plain_call run m = (r, m') -> r <> Err ErrIO -> r <> Err ErrStopped ->
  run (mc_calls m) (mc_disk m) = (r, mc_disk m').
Proof.
  unfold plain_call, call. intros Hc Hio Hst. destruct (mc_up m); [|by simplify_eq]. destruct (io_outcome (mc_calls m)); [|by simplify_eq..].
  destruct (run _ _) as [r' d]. by simplify_eq.
Qed.

Lemma Stat_not_there `{IO} path m m' : Stat path m = (Err ErrNotExist, m') ->
  mc_disk m' = mc_disk m /\ files (mc_disk m) !! path = None /\ is_dir path (mc_disk m) = false.
Proof.
  unfold Stat. intros E. apply plain_call_ran in E; [|done..]. destruct (files _ !! path); [done|]. destruct (is_dir _ _); [done|]. by simplify_eq.
Qed.

Lemma hasExisting_false `{IO} db att m m' : dataDirHasExistingData db att m = (Ok false, m') ->
  files (mc_disk m) !! db = None /\ forall rest, real rest -> files (mc_disk m) !! (att ++ "/" ++ rest) = None.
Proof.
  unfold dataDirHasExistingData, try, mbind, prog_bind, mret, prog_ret, throw. intros E.
  destruct (Stat db m) as [[b|e] m1] eqn:Es; [done|].
  destruct (bool_decide (e = ErrNotExist)) eqn:Ee; [|done]. apply bool_decide_eq_true in Ee as ->. cbn [negb] in E.
  apply Stat_not_there in Es as (Hd & Hdb & _). rewrite <- Hd. split; [by rewrite Hd|]. intros rest Hr.
  destruct (ReadDir att m1) as [[es|e] m2] eqn:Er.
  - unfold ReadDir in Er. apply plain_call_ran in Er; [|done..]. destruct (is_dir att (mc_disk m1)); [|done]. simplify_eq.
    apply entries_nil; [|done]. destruct (entries att (mc_disk m1)); [done|]. by simplify_eq.
  - destruct (bool_decide (e = ErrNotExist)) eqn:Ee; [|done]. apply bool_decide_eq_true in Ee as ->.
    unfold ReadDir in Er. apply plain_call_ran in Er; [|done..]. destruct (is_dir att (mc_disk m1)) eqn:Ed; [done|].
    apply is_dir_false in Ed as [_ Hnone]. apply Hnone, under_in.
Qed.

(** ** What is kept *)

(** Where existing data is: at its place, or in a directory it was moved to. *)
Definition aside (name : string) : Prop := exists n, name = ".hho-pre-restore-" ++ FormatUint n.
Definition spot_dir (root : string) (spot : option string) (sub : string) : string :=
  place_of root (match spot with None => [sub] | Some name => [name; sub] end).
Definition spot_good (force : bool) (spot : option string) : Prop :=
  match spot with None => True | Some name => force = true /\ aside name end.

Section kept.
Context `{Engine} (root : string) (f0 f : gmap string File).

Definition attachments_kept (spot : option string) : Prop := forall rest file, real rest ->
  f0 !! (spot_dir root None AttachmentsSubdir ++ "/" ++ rest) = Some file ->
  f !! (spot_dir root spot AttachmentsSubdir ++ "/" ++ rest) = Some file.

Definition database_path (spot : option string) : string := spot_dir root spot DBSubdir ++ "/" ++ "hho.db".

(** The database itself is what SQLite reads from its files; what else is in
    their directory is kept byte for byte. *)
Definition database_kept (spot : option string) : Prop :=
  (forall rest file, (spot_dir root None DBSubdir ++ "/" ++ rest) ∉ database_files (database_path None) ->
     f0 !! (spot_dir root None DBSubdir ++ "/" ++ rest) = Some file -> f !! (spot_dir root spot DBSubdir ++ "/" ++ rest) = Some file) /\
  (is_Some (f0 !! database_path None) -> db_contents (image (database_path spot) f) = db_contents (image (database_path None) f0)).

(** What a restore is about. *)
Definition concerned (name : string) : Prop := name ∈ [TmpSubdir; DBSubdir; AttachmentsSubdir; FileName] \/ aside name.
Definition rest_kept : Prop := forall path, (forall name, concerned name -> ~ top root name path) -> f !! path = f0 !! path.
End kept.

Lemma aside_plain name : aside name -> plain name = true.
Proof. intros [n ->]. apply plain_prefix; [done|by apply FormatUint_plain|simpl; lia]. Qed.

Lemma concerned_plain name : concerned name -> plain name = true.
Proof. intros [Hn|Hn]; [|by apply aside_plain]. by repeat (apply elem_of_cons in Hn as [->|Hn]; [done|]); apply elem_of_nil in Hn. Qed.

Lemma aside_not name sub : aside name -> sub ∈ [TmpSubdir; DBSubdir; AttachmentsSubdir; FileName] -> name <> sub.
Proof. intros [n ->] Hs E. by repeat (apply elem_of_cons in Hs as [->|Hs]; [done|]); apply elem_of_nil in Hs. Qed.

Lemma hoare_frame {A} region (Q : A -> Prop) (P : assertion) (p : Prog Machine A) :
  does (frame region) Q p ->
  (forall w w' f f', P w f -> (forall path, ~ region path -> f' !! path = f !! path) -> P w' f') ->
  hoare P p (fun a w f => Q a /\ P w f) P.
Proof.
  intros Hp HP m Hm. destruct (Hp m) as [HR HQ]. destruct (p m) as [[a|e] m']; cbn [fst snd] in *.
  - split; [by apply HQ|]. eapply HP; [exact Hm|exact HR].
  - eapply HP; [exact Hm|exact HR].
Qed.

(** *** Images *)

Lemma database_files_in dir : Forall (fun p => exists rest, p = dir ++ "/" ++ rest) (database_files (dir ++ "/" ++ "hho.db")).
Proof. unfold database_files. repeat constructor; rewrite ?string_app_assoc; by eexists. Qed.

Lemma image_ext p q f f' : Forall2 (fun a b => f' !! b = f !! a) (database_files p) (database_files q) -> image q f' = image p f.
Proof. unfold image, database_files. intros Hf. repeat (apply Forall2_cons in Hf as [E Hf]; cbn; rewrite E; clear E). done. Qed.

Lemma image_moved dir dir' f f' : (forall rest, f' !! (dir' ++ "/" ++ rest) = f !! (dir ++ "/" ++ rest)) ->
  image (dir' ++ "/" ++ "hho.db") f' = image (dir ++ "/" ++ "hho.db") f.
Proof. intros Hf. apply image_ext. unfold database_files. rewrite !string_app_assoc. repeat constructor; apply Hf. Qed.

Lemma database_files_NoDup p : NoDup (database_files p).
Proof.
  unfold database_files. assert (Hne : forall s t, s <> t -> p ++ s <> p ++ t) by (intros s t Hst E; by apply string_app_inj_r in E).
  assert (Hne' : forall s, s <> "" -> p <> p ++ s).
  { intros s Hs E. apply (f_equal String.length) in E. rewrite string_length_app in E. destruct s; [done|cbn in E; lia]. }
  repeat (apply NoDup_cons; split; [intros Hin; repeat (apply elem_of_cons in Hin as [E|Hin];
    [revert E; first [by apply Hne|by apply Hne'|done]|]); by apply elem_of_nil in Hin|]). constructor.
Qed.

Lemma put_image_other `{IO} path bytes n f q : q ∉ database_files path -> put_image path bytes n f !! q = f !! q.
Proof.
  unfold put_image. revert bytes. induction (database_files path) as [|p ps IH]; intros bytes Hq; [done|].
  apply not_elem_of_cons in Hq as [Hqp Hq]. destruct bytes as [|[b|] bytes]; cbn; [done|..];
    rewrite ?lookup_insert_ne, ?lookup_delete_ne by done; by apply IH.
Qed.

Lemma put_image_image `{IO} path bytes n f : length bytes = 4 -> image path (put_image path bytes n f) = bytes.
Proof.
  unfold image. intros Hl. change 4 with (length (database_files path)) in Hl. revert bytes Hl. pose proof (database_files_NoDup path) as Hnd. unfold put_image.
  induction (database_files path) as [|p ps IH]; intros [|b bytes] Hl; try done. apply NoDup_cons in Hnd as [Hp Hnd].
  injection Hl as Hl. cbn. f_equal.
  - destruct b; [by rewrite lookup_insert_eq|by rewrite lookup_delete_eq].
  - etrans; [|exact (IH Hnd bytes Hl)]. apply list_fmap_ext. intros i q Hq. apply list_elem_of_lookup_2 in Hq.
    assert (p <> q) by (by intros ->). f_equal. destruct b; [by rewrite lookup_insert_ne|by rewrite lookup_delete_ne].
Qed.

(** *** Moving a directory *)

Lemma rename_dir old new d d' : files d !! old = None -> rename old new d = (Ok tt, d') ->
  (forall rest, files d' !! (new ++ "/" ++ rest) = files d !! (old ++ "/" ++ rest)) /\
  (forall p, ~ at_or_under old p -> ~ at_or_under new p -> files d' !! p = files d !! p).
Proof.
  intros Hold. unfold rename. rewrite Hold. destruct (negb (is_dir old d)); [done|]. destruct (is_dir new d) eqn:En; [done|].
  destruct (bool_decide _); [done|]. destruct (negb _); [done|]. destruct (under old new); [done|]. intros [= <-].
  apply is_dir_false in En as [_ Hnone]. split.
  - intros rest. apply option_eq. intros x. rewrite move_dir_lookup. destruct (Hnone _ (under_in new rest)) as [Hn _]. split.
    + intros [[_ Hf]|(_ & rest' & E & Hf)]; [congruence|]. by apply string_app_inj_r, string_app_inj_r in E as ->.
    + intros Hf. right. split; [by right|]. by exists rest.
  - intros p Ho Hn. apply option_eq. intros x. rewrite move_dir_lookup. split; [|by left].
    intros [[_ Hf]|(_ & rest & -> & _)]; [done|]. exfalso. apply Hn. right. apply under_in.
Qed.

Lemma rename_survives old new d p x : files d !! p = Some x -> ~ at_or_under old p -> p <> new ->
  files (rename old new d).2 !! p = Some x.
Proof.
  intros Hp Ho Hn. unfold rename, rename_file. repeat (case_match; [done|]). destruct (files d !! old) eqn:E.
  - repeat (case_match; [done|]). cbn [snd set_files files]. rewrite lookup_insert_ne by done. rewrite lookup_delete_ne; [done|].
    intros ->. apply Ho. by left.
  - repeat (case_match; [done|]). cbn [snd]. apply move_dir_lookup. by left.
Qed.

Lemma rename_elsewhere old new d p : ~ at_or_under old p -> ~ at_or_under new p -> files (rename old new d).2 !! p = files d !! p.
Proof.
  intros Ho Hn. destruct (files d !! old) as [x|] eqn:E.
  - unfold rename, rename_file. rewrite E. repeat (case_match; [done|]). cbn [snd set_files files].
    rewrite lookup_insert_ne by (intros ->; apply Hn; by left). rewrite lookup_delete_ne; [done|]. intros ->. apply Ho. by left.
  - destruct (rename old new d) as [[[]|e] d'] eqn:Er; cbn [snd]; [by eapply rename_dir|].
    unfold rename in Er. rewrite E in Er. repeat case_match; by simplify_eq.
Qed.

(** ** The phases of a restore *)

Ltac listed := solve [repeat first [by left | right]].

Section phases.
Context `{IO, Locks, Engine, Archives} (root : string) (root_given : root <> "").
(** Taking and releasing the write lock changes nothing that SQLite reads. *)
Context (probe_keeps : forall i i', db_probe i = Ok i' ->
  length i' = length i /\ db_contents i' = db_contents i /\ (i !! 0%nat <> Some None -> i' !! 0%nat <> Some None)).
Context (f0 : gmap string File) (force : bool).
(** What should be a directory is no file. *)
Context (db_no_file : f0 !! spot_dir root None DBSubdir = None) (att_no_file : f0 !! spot_dir root None AttachmentsSubdir = None).

#[local] Abbreviation att_kept f s := (attachments_kept root f0 f s).
#[local] Abbreviation db_kept f s := (database_kept root f0 f s).
#[local] Abbreviation others_kept f := (rest_kept root f0 f).

(** The staging area and the lock. *)
Definition scratch (p : string) : Prop := top root TmpSubdir p \/ top root FileName p.

Definition Untouched : assertion := fun _ f => forall p, ~ scratch p -> f !! p = f0 !! p.

Definition Kept : assertion := fun _ f => exists sd sa,
  spot_good force sd /\ spot_good force sa /\ att_kept f sa /\ db_kept f sd /\ others_kept f.

(** All is at its place. *)
Definition InPlace : assertion := fun _ f => att_kept f None /\ db_kept f None /\ others_kept f /\
  f !! spot_dir root None DBSubdir = None /\ f !! spot_dir root None AttachmentsSubdir = None /\
  (is_Some (f0 !! database_path root None) -> is_Some (f !! database_path root None)).

(** The database is aside, the attachments at their place. *)
Definition HalfAside (name : string) : assertion := fun _ f =>
  force = true /\ aside name /\ att_kept f None /\ db_kept f (Some name) /\ others_kept f /\
  f !! spot_dir root None AttachmentsSubdir = None.

(** The places are free: what was there is aside, or nothing was. *)
Definition Free : assertion := fun _ f => exists sd sa,
  spot_good force sd /\ spot_good force sa /\ att_kept f sa /\ db_kept f sd /\ others_kept f /\
  (sd = None -> f0 !! database_path root None = None) /\
  (sa = None -> forall rest, real rest -> f0 !! (spot_dir root None AttachmentsSubdir ++ "/" ++ rest) = None).

(** *** Paths that differ *)

Lemma spot_top spot sub : top root (match spot with None => sub | Some name => name end) (spot_dir root spot sub).
Proof. destruct spot; apply top_place. Qed.

Lemma spot_top_in spot sub rest : top root (match spot with None => sub | Some name => name end) (spot_dir root spot sub ++ "/" ++ rest).
Proof. eapply at_or_under_trans; [apply spot_top|right; apply under_in]. Qed.

Lemma four_plain sub : sub ∈ [TmpSubdir; DBSubdir; AttachmentsSubdir; FileName] -> plain sub = true.
Proof. intros Hs. by apply concerned_plain; left. Qed.

Lemma aside_apart name sub p : aside name -> sub ∈ [TmpSubdir; DBSubdir; AttachmentsSubdir; FileName] -> top root name p -> ~ top root sub p.
Proof.
  intros Hn Hs Hp Hp'. apply (aside_not name sub Hn Hs). eapply top_one; [by apply aside_plain|by apply four_plain|exact Hp|exact Hp'].
Qed.

(** What is at a spot is nowhere else. *)
Lemma spot_apart spot own sub p : spot_good force spot ->
  own ∈ [TmpSubdir; DBSubdir; AttachmentsSubdir; FileName] -> sub ∈ [TmpSubdir; DBSubdir; AttachmentsSubdir; FileName] ->
  (spot = None -> own <> sub) -> top root (match spot with None => own | Some name => name end) p -> ~ top root sub p.
Proof.
  intros Hs Hown Hsub Hne Hp. destruct spot as [name|]; [destruct Hs as [_ Ha]; by apply (aside_apart name)|].
  intros Hp'. apply Hne; [done|]. eapply top_one; [by apply four_plain|by apply four_plain|exact Hp|exact Hp'].
Qed.

Lemma spot_not_scratch spot sub p : spot_good force spot -> sub ∈ [DBSubdir; AttachmentsSubdir] ->
  top root (match spot with None => sub | Some name => name end) p -> ~ scratch p.
Proof.
  intros Hs Hsub Hp Hsc. assert (Hfour : sub ∈ [TmpSubdir; DBSubdir; AttachmentsSubdir; FileName]).
  { apply elem_of_cons in Hsub as [->|[->|Hsub%elem_of_nil]%elem_of_cons]; [listed..|done]. }
  assert (Hne : sub <> TmpSubdir /\ sub <> FileName) by (by apply elem_of_cons in Hsub as [->|[->|Hsub%elem_of_nil]%elem_of_cons]).
  destruct Hsc as [Hsc|Hsc]; revert Hsc; (eapply spot_apart; [exact Hs|exact Hfour|listed| |exact Hp]); tauto.
Qed.

Lemma scratch_concerned p : scratch p -> exists name, concerned name /\ top root name p.
Proof. intros [Hp|Hp]; [exists TmpSubdir|exists FileName]; (split; [left; listed|done]). Qed.

(** Two names in a directory. *)
Lemma two_tops name a b p : plain name = true -> plain a = true -> plain b = true -> a <> b ->
  at_or_under (place_of root [name; a]) p -> at_or_under (place_of root [name; b]) p -> False.
Proof.
  intros Hn Ha Hb Hne Hpa Hpb.
  assert (Hs : forall c, plain c = true -> at_or_under (place_of root [name; c]) p ->
    exists more, Split p "/" = ((if IsAbs root then [""] else []) ++ segments root ++ name :: c :: more)%list).
  { intros c Hc [->|Hu]; [exists []; by rewrite place_split by (done || by repeat constructor)|].
    apply under_spec in Hu as [rest ->]. exists (Split rest "/"). change ("/" ++ rest) with (String "/" rest).
    rewrite Split_app, place_split by (done || by repeat constructor). by rewrite <- !app_assoc. }
  destruct (Hs a Ha Hpa) as [ma Ea], (Hs b Hb Hpb) as [mb Eb]. rewrite Ea in Eb. by simplify_list_eq.
Qed.

(** *** What the staging area does not matter to *)

Lemma att_kept_scratch f f' s : spot_good force s -> (forall p, ~ scratch p -> f' !! p = f !! p) -> att_kept f s -> att_kept f' s.
Proof.
  intros Hs Hf Ha rest file Hr Hfile. rewrite Hf; [by apply Ha|].
  eapply (spot_not_scratch s AttachmentsSubdir); [done|listed|apply spot_top_in].
Qed.

Lemma image_scratch f f' s : spot_good force s -> (forall p, ~ scratch p -> f' !! p = f !! p) ->
  image (database_path root s) f' = image (database_path root s) f.
Proof.
  intros Hs Hf. apply image_moved. intros rest. apply Hf.
  eapply (spot_not_scratch s DBSubdir); [done|listed|apply spot_top_in].
Qed.

Lemma db_kept_scratch f f' s : spot_good force s -> (forall p, ~ scratch p -> f' !! p = f !! p) -> db_kept f s -> db_kept f' s.
Proof.
  intros Hs Hf [Ho Hc]. split.
  - intros rest file Hr Hfile. rewrite Hf; [by apply Ho|].
    eapply (spot_not_scratch s DBSubdir); [done|listed|apply spot_top_in].
  - intros Hsome. rewrite (image_scratch f f') by done. by apply Hc.
Qed.

Lemma others_kept_scratch f f' : (forall p, ~ scratch p -> f' !! p = f !! p) -> others_kept f -> others_kept f'.
Proof.
  intros Hf Ho p Hp. rewrite Hf; [by apply Ho|]. intros (name & Hc & Ht)%scratch_concerned. by apply (Hp name).
Qed.

Lemma Kept_scratch w w' f f' : Kept w f -> (forall p, ~ scratch p -> f' !! p = f !! p) -> Kept w' f'.
Proof.
  intros (sd & sa & Hsd & Hsa & Ha & Hd & Ho) Hf. exists sd, sa. split_and!; [done..| | |].
  - by eapply att_kept_scratch.
  - by eapply db_kept_scratch.
  - by eapply others_kept_scratch.
Qed.

Lemma data_not_scratch sub : sub ∈ [DBSubdir; AttachmentsSubdir] -> ~ scratch (spot_dir root None sub).
Proof. intros Hs. by apply (spot_not_scratch None sub); [|done|apply spot_top]. Qed.

Lemma InPlace_scratch w w' f f' : InPlace w f -> (forall p, ~ scratch p -> f' !! p = f !! p) -> InPlace w' f'.
Proof.
  intros (Ha & Hd & Ho & Hdd & Hda & Hs) Hf. split_and!.
  - by apply (att_kept_scratch f).
  - by apply (db_kept_scratch f).
  - by eapply others_kept_scratch.
  - rewrite Hf; [done|]. apply data_not_scratch. listed.
  - rewrite Hf; [done|]. apply data_not_scratch. listed.
  - intros Hsome. rewrite Hf; [by apply Hs|]. by apply (spot_not_scratch None DBSubdir); [|listed|apply spot_top_in].
Qed.

Lemma Untouched_InPlace : entails Untouched InPlace.
Proof.
  intros w f Hf. apply (InPlace_scratch w w f0 f); [|exact Hf]. split_and!; try done.
  by intros rest file _ Hfile.
Qed.

Lemma InPlace_Kept : entails InPlace Kept.
Proof. intros w f (Ha & Hd & Ho & _). exists None, None. by split_and!. Qed.

Lemma HalfAside_Kept name : entails (HalfAside name) Kept.
Proof. intros w f (Hforce & Hn & Ha & Hd & Ho & _). exists (Some name), None. by split_and!. Qed.

Lemma Free_Kept : entails Free Kept.
Proof. intros w f (sd & sa & ? & ? & ? & ? & ? & _). exists sd, sa. by split_and!. Qed.

(** *** The probe of the database *)

Lemma db_dir_path : path_Join [root; DBSubdir] = spot_dir root None DBSubdir.
Proof. by apply join_top. Qed.
Lemma att_dir_path : path_Join [root; AttachmentsSubdir] = spot_dir root None AttachmentsSubdir.
Proof. by apply join_top. Qed.
Lemma db_path : path_Join [path_Join [root; DBSubdir]; "hho.db"] = database_path root None.
Proof.
  rewrite db_dir_path. unfold database_path, spot_dir. rewrite join_in by (done || by repeat constructor).
  by apply (place_prefix root [DBSubdir]).
Qed.

Lemma database_file_top p : p ∈ database_files (database_path root None) -> top root DBSubdir p.
Proof.
  intros Hp. pose proof (database_files_in (spot_dir root None DBSubdir)) as Hall. rewrite Forall_forall in Hall.
  destruct (Hall p Hp) as [rest ->]. apply (spot_top_in None).
Qed.

Lemma top_db_att p : top root DBSubdir p -> top root AttachmentsSubdir p -> False.
Proof.
  intros Hd Ha. assert (E : DBSubdir = AttachmentsSubdir) by (eapply (top_one root); [| |exact Hd|exact Ha]; done). done.
Qed.

Lemma image_main p f : image p f !! 0%nat = Some (file_Bytes <$> f !! p).
Proof. reflexivity. Qed.

Lemma InPlace_probe w f i' n : InPlace w f -> db_probe (image (database_path root None) f) = Ok i' ->
  InPlace w (put_image (database_path root None) i' n f).
Proof.
  intros (Ha & [Hdo Hdc] & Ho & Hdd & Hda & Hs) Hp. destruct (probe_keeps _ _ Hp) as (Hlen & Hcont & Hmain). change (length (image _ _)) with 4 in Hlen.
  assert (Hother : forall p, p ∉ database_files (database_path root None) -> put_image (database_path root None) i' n f !! p = f !! p)
    by (intros; by apply put_image_other).
  split_and!.
  - intros rest file Hr Hfile. rewrite Hother; [by apply Ha|]. intros Hin%database_file_top. eapply top_db_att; [exact Hin|apply (spot_top_in None)].
  - split.
    + intros rest file Hno Hfile. rewrite Hother by done. by apply Hdo.
    + intros Hsome. rewrite put_image_image by done. rewrite Hcont. by apply Hdc.
  - intros p Hno. rewrite Hother; [by apply Ho|]. intros Hin%database_file_top. apply (Hno DBSubdir); [left; listed|done].
  - rewrite Hother; [done|]. intros Hin. pose proof (database_files_in (spot_dir root None DBSubdir)) as Hall.
    rewrite Forall_forall in Hall. destruct (Hall _ Hin) as [rest E]. apply (f_equal String.length) in E.
    rewrite !string_length_app in E. cbn in E. lia.
  - rewrite Hother; [done|]. intros Hin%database_file_top. eapply top_db_att; [exact Hin|apply (spot_top None)].
  - intros Hsome%Hs. assert (Himg : image (database_path root None) (put_image (database_path root None) i' n f) !! 0%nat <> Some None).
    { rewrite put_image_image by done. apply Hmain. cbn. destruct Hsome as [x ->]. done. }
    rewrite image_main in Himg.
    destruct (put_image _ _ _ _ !! database_path root None) as [x|]; [by exists x|done].
Qed.

Lemma hoare_probeDatabase : hoare InPlace (probeDatabaseNotLive (database_path root None)) (fun _ => InPlace) InPlace.
Proof.
  unfold probeDatabaseNotLive. eapply hoare_bind; [eapply hoare_try, hoare_looks; [|done]; intros n d; by repeat case_match|].
  intros [isDir|e]; cbn beta iota; [|case_match; [by apply hoare_ret|by apply hoare_throw]].
  apply hoare_call; [|done|done]. intros w d n Hd. destruct (db_probe _) as [i'|e] eqn:Ep; [|done]. cbn [set_files files].
  by eapply InPlace_probe.
Qed.

(** *** Moving the data aside *)

Lemma aside_db w d d' name : force = true -> aside name -> InPlace w (files d) ->
  rename (spot_dir root None DBSubdir) (spot_dir root (Some name) DBSubdir) d = (Ok tt, d') -> HalfAside name w (files d').
Proof.
  intros Hforce Hn (Ha & [Hdo Hdc] & Ho & Hdd & Hda & Hs) Hr. apply rename_dir in Hr as [Hin Hout]; [|done].
  assert (Hkeep : forall p, ~ top root DBSubdir p -> ~ top root name p -> files d' !! p = files d !! p).
  { intros p Hp1 Hp2. apply Hout; [done|]. intros Hp3. apply Hp2. eapply at_or_under_trans; [|exact Hp3]. apply (spot_top (Some name)). }
  assert (Hatt : forall p, top root AttachmentsSubdir p -> files d' !! p = files d !! p).
  { intros p Hp. apply Hkeep; [intros Hp'; by eapply top_db_att|]. intros Hp'. eapply (aside_not name AttachmentsSubdir); [done|listed|].
    eapply top_one; [| |exact Hp'|exact Hp]; [by apply aside_plain|done]. }
  unfold HalfAside. split_and!; [done|done| | | |].
  - intros rest file Hreal Hfile. rewrite Hatt by apply (spot_top_in None). by apply Ha.
  - split.
    + intros rest file Hno Hfile. rewrite Hin. by apply Hdo.
    + intros Hsome. rewrite <- (Hdc Hsome). f_equal. by apply image_moved.
  - intros p Hno. rewrite Hkeep; [by apply Ho|..]; apply Hno; [left; listed|by right].
  - rewrite Hatt by apply (spot_top None). done.
Qed.

Lemma aside_att w d d' name : HalfAside name w (files d) ->
  rename (spot_dir root None AttachmentsSubdir) (spot_dir root (Some name) AttachmentsSubdir) d = (Ok tt, d') -> Free w (files d').
Proof.
  intros (Hforce & Hn & Ha & [Hdo Hdc] & Ho & Hda) Hr. apply rename_dir in Hr as [Hin Hout]; [|done].
  assert (Hnew : forall p, at_or_under (spot_dir root (Some name) AttachmentsSubdir) p -> top root name p).
  { intros p Hp. eapply at_or_under_trans; [apply (spot_top (Some name))|exact Hp]. }
  assert (Hdb : forall rest, files d' !! (spot_dir root (Some name) DBSubdir ++ "/" ++ rest) = files d !! (spot_dir root (Some name) DBSubdir ++ "/" ++ rest)).
  { intros rest. apply Hout.
    - intros Hp. eapply (aside_not name AttachmentsSubdir); [done|listed|].
      eapply (top_one root); [by apply aside_plain|done|apply (spot_top_in (Some name))|exact Hp].
    - intros Hp. assert (Hin2 : under (spot_dir root (Some name) DBSubdir) (spot_dir root (Some name) DBSubdir ++ "/" ++ rest) = true) by apply under_in.
      apply (two_tops name DBSubdir AttachmentsSubdir (spot_dir root (Some name) DBSubdir ++ "/" ++ rest)); try done; [by apply aside_plain|by right]. }
  exists (Some name), (Some name). split_and!; [done|done| | | |done|done].
  - intros rest file Hreal Hfile. rewrite Hin. by apply Ha.
  - split.
    + intros rest file Hno Hfile. rewrite Hdb. by apply Hdo.
    + intros Hsome. rewrite <- (Hdc Hsome). f_equal. by apply image_moved.
  - intros p Hno. rewrite Hout; [by apply Ho| |].
    + apply (Hno AttachmentsSubdir). left. listed.
    + intros Hp%Hnew. revert Hp. apply Hno. by right.
Qed.

Lemma rename_error old new d e d' : rename old new d = (Err e, d') -> d' = d.
Proof. unfold rename, rename_file. repeat case_match; by intros [= _ <-]. Qed.

(** What [preserveIfExists] leaves. *)
Lemma preserve_run src dst m : files (mc_disk m) !! src = None ->
  match preserveIfExists src dst m with
  | (Ok _, m') => (mc_disk m' = mc_disk m /\ is_dir src (mc_disk m) = false) \/ rename src dst (mc_disk m) = (Ok tt, mc_disk m')
  | (Err _, m') => mc_disk m' = mc_disk m
  end.
Proof.
  intros Hsrc. unfold preserveIfExists, try, mbind, prog_bind.
  destruct (Stat src m) as [[isDir|e] m1] eqn:Es.
  - assert (Hd : mc_disk m1 = mc_disk m).
    { unfold Stat in Es. apply plain_call_ran in Es; [|done..]. repeat case_match; by simplify_eq. }
    destruct (Move src dst m1) as [[[]|e] m2] eqn:Em; unfold Move in Em.
    + right. apply plain_call_ran in Em; [|done..]. by rewrite <- Hd.
    + rewrite <- Hd. unfold plain_call, call in Em. destruct (mc_up m1); [|by simplify_eq]. destruct (io_outcome _); [|by simplify_eq..].
      destruct (rename src dst (mc_disk m1)) as [r d] eqn:Er. destruct r; [done|]. apply rename_error in Er. by simplify_eq.
  - assert (Hd : mc_disk m1 = mc_disk m).
    { unfold Stat, plain_call, call in Es. destruct (mc_up m); [|by simplify_eq]. destruct (io_outcome _); [|by simplify_eq..].
      repeat case_match; by simplify_eq. }
    destruct (bool_decide (e = ErrNotExist)) eqn:Ee; [|exact Hd]. apply bool_decide_eq_true in Ee as ->.
    left. split; [done|]. by apply Stat_not_there in Es as (_ & _ & ?).
Qed.

Lemma hoare_preserve (P Q : assertion) src dst :
  (forall w f, P w f -> f !! src = None) ->
  (forall w w' d, P w (files d) -> is_dir src d = false -> Q w' (files d)) ->
  (forall w w' d d', P w (files d) -> rename src dst d = (Ok tt, d') -> Q w' (files d')) ->
  entails P Kept -> hoare P (preserveIfExists src dst) (fun _ => Q) Kept.
Proof.
  intros Hsrc Hnone Hmove HK m Hm. pose proof (preserve_run src dst m (Hsrc _ _ Hm)) as Hrun.
  destruct (preserveIfExists src dst m) as [[[]|e] m'].
  - unfold holds in *. destruct Hrun as [[Hd Hn]|Hr].
    + rewrite Hd. by eapply Hnone.
    + by eapply Hmove.
  - unfold holds in *. rewrite Hrun. exact (HK _ _ Hm).
Qed.

Lemma InPlace_no_db w d name : force = true -> aside name -> InPlace w (files d) -> is_dir (spot_dir root None DBSubdir) d = false -> HalfAside name w (files d).
Proof.
  intros Hforce Hn (Ha & [Hdo Hdc] & Ho & Hdd & Hda & Hs) [_ Hnone]%is_dir_false. unfold HalfAside. split_and!; try done. split.
  - intros rest file Hno Hfile. specialize (Hdo rest file Hno Hfile). destruct (Hnone _ (under_in _ rest)) as [Hx _]. congruence.
  - intros Hsome. destruct (Hs Hsome) as [x Hx]. destruct (Hnone (database_path root None) (under_in _ "hho.db")) as [Hy _]. congruence.
Qed.

Lemma HalfAside_no_att w d name : HalfAside name w (files d) -> is_dir (spot_dir root None AttachmentsSubdir) d = false -> Free w (files d).
Proof.
  intros (Hforce & Hn & Ha & Hd & Ho & Hda) [_ Hnone]%is_dir_false. exists (Some name), (Some name). split_and!; try done.
  intros rest file Hr Hfile. specialize (Ha rest file Hr Hfile). destruct (Hnone _ (under_in _ rest)) as [Hx _]. congruence.
Qed.

Definition NothingThere : Prop :=
  f0 !! database_path root None = None /\ forall rest, real rest -> f0 !! (spot_dir root None AttachmentsSubdir ++ "/" ++ rest) = None.

Lemma hoare_set_aside hadExisting : (hadExisting = true -> force = true) -> (hadExisting = false -> NothingThere) ->
  hoare InPlace (set_aside root hadExisting) (fun _ => Free) Kept.
Proof.
  intros Hforce Hno. unfold set_aside. destruct hadExisting; cbn [negb].
  - specialize (Hforce eq_refl). eapply hoare_bind.
    { eapply hoare_conseq; [apply (hoare_frame scratch); [apply frame_MkdirTemp|apply InPlace_scratch]|done|done|apply InPlace_Kept]. }
    intros preserved. apply hoare_pure. intros [n ->]. set (name := (".hho-pre-restore-" ++ FormatUint (n mod 2 ^ 32))%string).
    assert (Hn : aside name) by (by eexists). pose proof (aside_plain _ Hn) as Hpl.
    rewrite join_top by done. rewrite !join_in by (done || by repeat constructor). rewrite db_dir_path, att_dir_path. cbn [app].
    eapply (hoare_bind _ _ _ (fun _ => HalfAside name)); [|intros []; eapply (hoare_bind _ _ _ (fun _ => Free)); [|intros []; by apply hoare_ret]].
    + apply hoare_preserve; [by intros w f (_ & _ & _ & ? & _)|intros w w' d Hw; exact (InPlace_no_db w d name Hforce Hn Hw)|intros w w' d d' Hw; exact (aside_db w d d' name Hforce Hn Hw)|apply InPlace_Kept].
    + apply hoare_preserve; [by intros w f (_ & _ & _ & _ & _ & ?)|intros w w' d; exact (HalfAside_no_att w d name)|intros w w' d d'; exact (aside_att w d d' name)|apply HalfAside_Kept].
  - destruct (Hno eq_refl) as [Hd Ha]. apply hoare_ret. intros w f (Hak & Hdk & Ho & _). exists None, None. by split_and!.
Qed.

(** *** Putting the restored data in place *)

(** Only free places and the staging area change. *)
Definition grows (m m' : Machine) : Prop :=
  frame (fun p => top root TmpSubdir p \/ top root DBSubdir p \/ top root AttachmentsSubdir p) m m' /\
  forall p x, files (mc_disk m) !! p = Some x -> ~ top root TmpSubdir p -> p <> database_path root None ->
    p <> spot_dir root None AttachmentsSubdir -> files (mc_disk m') !! p = Some x.

#[local] Instance grows_preorder : PreOrder grows.
Proof.
  split; [by intros m; split; [reflexivity|]|]. intros a b c [Fab Sab] [Fbc Sbc]. split; [by etrans|]. auto.
Qed.

Lemma grows_looks {A} (run : nat -> Disk -> res A * Disk) : (forall n d, files (run n d).2 = files d) -> does grows (fun _ => True) (plain_call run).
Proof.
  intros Hrun. apply does_call; [apply _| |by intros m k n; split|by intros m n; split].
  intros m n. split; [|done]. split; [intros p _|intros p x Hp _ _ _]; cbn [mc_disk]; by rewrite Hrun.
Qed.

Lemma grows_Move old new : (forall p, at_or_under old p -> top root TmpSubdir p) ->
  (new = database_path root None \/ new = spot_dir root None AttachmentsSubdir) -> does grows (fun _ => True) (Move old new).
Proof.
  intros Hold Hnew. apply does_call; [apply _| |by intros; split|by intros; split]. intros m n. split; [|done]. split.
  - intros p Hp. apply rename_elsewhere; [intros Ho; apply Hp; left; by apply Hold|].
    intros Hn. apply Hp. right. destruct Hnew as [->| ->]; [left|by right].
    eapply at_or_under_trans; [|exact Hn]. apply (spot_top_in None).
  - intros p x Hp Ht Hdb Hatt. apply rename_survives; [done|intros Ho; by apply Ht, Hold|]. by destruct Hnew as [->| ->].
Qed.

Lemma Free_grows m m' : holds Free m -> grows m m' -> holds Kept m'.
Proof.
  intros (sd & sa & Hsd & Hsa & Ha & [Hdo Hdc] & Ho & Hnd & Hna) [Hframe Hgrow]. exists sd, sa. split_and!; [done|done| | |].
  - intros rest file Hr Hfile. destruct sa as [name|]; [|by rewrite Hna in Hfile].
    pose proof (spot_top_in (Some name) AttachmentsSubdir rest) as Htop.
    assert (Hnot : forall sub, sub ∈ [TmpSubdir; DBSubdir; AttachmentsSubdir; FileName] -> ~ top root sub (spot_dir root (Some name) AttachmentsSubdir ++ "/" ++ rest))
      by (intros sub Hsub; eapply aside_apart; [apply Hsa|done|exact Htop]).
    apply Hgrow; [by apply Ha|apply Hnot; listed|intros E; apply (Hnot DBSubdir); [listed|]; rewrite E; apply (spot_top_in None)|].
    intros E. apply (Hnot AttachmentsSubdir); [listed|]. rewrite E. apply (spot_top None).
  - split.
    + intros rest file Hno Hfile. pose proof (spot_top_in sd DBSubdir rest) as Htop.
      assert (Hnot : forall sub, sub ∈ [TmpSubdir; DBSubdir; AttachmentsSubdir; FileName] -> (sd = None -> DBSubdir <> sub) ->
        ~ top root sub (spot_dir root sd DBSubdir ++ "/" ++ rest)) by (intros sub Hsub Hne; eapply spot_apart; [exact Hsd| |done|exact Hne|exact Htop]; listed).
      apply Hgrow; [by apply Hdo|apply Hnot; [listed|done]| |].
      * intros E. destruct sd as [name|]; [|apply Hno; rewrite E; by left].
        apply (Hnot DBSubdir); [listed|done|]. rewrite E. apply (spot_top_in None).
      * intros E. apply (Hnot AttachmentsSubdir); [listed|done|]. rewrite E. apply (spot_top None).
    + intros Hsome. destruct sd as [name|]; [|rewrite (Hnd eq_refl) in Hsome; by destruct Hsome].
      rewrite <- (Hdc Hsome). f_equal. apply image_moved. intros rest. apply Hframe.
      pose proof (spot_top_in (Some name) DBSubdir rest) as Htop.
      intros [Hp|[Hp|Hp]]; revert Hp; (eapply aside_apart; [apply Hsd| |exact Htop]); listed.
  - intros p Hp. rewrite Hframe; [by apply Ho|]. intros [Ht|[Ht|Ht]]; eapply Hp; try exact Ht; left; listed.
Qed.

Lemma grows_put_in_place stagedDB stagedAtt :
  (forall p, at_or_under stagedDB p -> top root TmpSubdir p) -> (forall p, at_or_under stagedAtt p -> top root TmpSubdir p) ->
  does grows (fun _ => True) (put_in_place root stagedDB stagedAtt).
Proof.
  intros Hdb Hatt. assert (Hmk : forall dir, does grows (fun _ => True) (MkdirAll dir)) by (intros; apply grows_looks; intros n d; by case_match).
  unfold put_in_place. rewrite db_path, att_dir_path.
  eapply does_bind; [apply _|apply Hmk|]. intros _ _.
  eapply does_bind; [apply _|apply grows_Move; [done|by left]|]. intros _ _.
  eapply does_bind; [apply _|apply does_try, grows_looks; intros n d; by repeat case_match|]. intros there _.
  eapply does_bind; [apply _| |intros _ _].
  - destruct there; [apply grows_Move; [done|by right]|apply Hmk].
  - apply does_for_each; [apply _|]. intros dir _. unfold fsyncDir.
    eapply does_bind; [apply _|by apply grows_looks|]. intros _ _. by apply grows_looks.
Qed.

(** *** The whole *)

Definition staging (n : Z) : string := place_of root [TmpSubdir; "restore-staging-" ++ FormatUint (n mod 2 ^ 32)].

Lemma staging_plain prefix n : plain prefix = true -> (2 < String.length prefix)%nat -> plain (prefix ++ FormatUint n) = true.
Proof. intros Hp Hl. apply plain_prefix; [done|by apply FormatUint_plain|done]. Qed.

Lemma tmp_deep names p : Forall (fun n => plain n = true) names -> at_or_under (place_of root (TmpSubdir :: names)) p -> scratch p.
Proof. intros Hn Hp. left. eapply at_or_under_trans; [apply top_place|exact Hp]. Qed.

Lemma quiet_extract tr n : does (frame scratch) (fun _ => True)
  (extractArchiveBody tr (path_Join [staging n; "hho.db"]) (path_Join [staging n; "attachments"])).
Proof.
  assert (Hpl : plain ("restore-staging-" ++ FormatUint (n mod 2 ^ 32)) = true) by (by apply staging_plain; [|simpl; lia]).
  unfold staging. rewrite !join_in by (done || by repeat constructor). cbn [app]. apply quiet_extract_loop.
  - eapply (tmp_deep [_; "hho.db"]); [by repeat constructor|by left].
  - intros e p (g & m & -> & Hg & Hm & ->)%safe_path_inv.
    assert (Hsplit : Split (g ++ "/" ++ m) "/" = [g; m]).
    { change (g ++ "/" ++ m) with (g ++ String "/" m). rewrite Split_first, Split_last by (by apply plain_facts). done. }
    rewrite join_rel by (done || by repeat constructor || (unfold real; rewrite Hsplit; by repeat constructor)).
    rewrite Hsplit. cbn [app]. eapply tmp_deep; [|by left]. by repeat constructor.
Qed.

Lemma Free_and_on m : holds Free m -> holds Kept m.
Proof. intros Hm. exact (Free_Kept _ _ Hm). Qed.

Lemma hoare_restore_staged tr hadExisting warning n :
  (hadExisting = true -> force = true) -> (hadExisting = false -> NothingThere) ->
  hoare InPlace (restore_staged root tr hadExisting warning (staging n)) (fun _ => Kept) Kept.
Proof.
  intros Hforce Hno. assert (Hpl : plain ("restore-staging-" ++ FormatUint (n mod 2 ^ 32)) = true) by (by apply staging_plain; [|simpl; lia]).
  assert (Hdb : path_Join [staging n; "hho.db"] = place_of root [TmpSubdir; "restore-staging-" ++ FormatUint (n mod 2 ^ 32); "hho.db"])
    by (unfold staging; by rewrite join_in by (done || by repeat constructor)).
  assert (Hatt : path_Join [staging n; "attachments"] = place_of root [TmpSubdir; "restore-staging-" ++ FormatUint (n mod 2 ^ 32); "attachments"])
    by (unfold staging; by rewrite join_in by (done || by repeat constructor)).
  unfold restore_staged. cbv zeta.
  eapply hoare_bind; [eapply hoare_conseq; [apply (hoare_frame scratch); [apply quiet_extract|apply InPlace_scratch]|done|done|apply InPlace_Kept]|].
  intros counts. apply hoare_pure. intros _. rewrite Hdb, Hatt.
  eapply hoare_bind; [eapply hoare_conseq; [apply (hoare_frame scratch); [apply quiet_open_and_close|apply InPlace_scratch]|done|done|apply InPlace_Kept]|].
  { eapply (tmp_deep [_; "hho.db"]); [by repeat constructor|by left]. }
  intros version. apply hoare_pure. intros _.
  eapply hoare_bind; [by apply hoare_set_aside|]. intros preserved m Hm.
  assert (Hd : forall m, grows m (put_in_place root (place_of root [TmpSubdir; "restore-staging-" ++ FormatUint (n mod 2 ^ 32); "hho.db"])
    (place_of root [TmpSubdir; "restore-staging-" ++ FormatUint (n mod 2 ^ 32); "attachments"]) m).2).
  { intros m0. apply grows_put_in_place; intros p Hp; (eapply at_or_under_trans; [apply top_place|exact Hp]). }
  unfold mbind, prog_bind. specialize (Hd m). destruct (put_in_place _ _ _ m) as [[[]|e] m']; cbn [snd] in Hd; exact (Free_grows m m' Hm Hd).
Qed.

Lemma hoare_finally {A} (P Q : assertion) cleanup (p : Prog Machine A) :
  hoare P p (fun _ => Q) Q -> hoare Q cleanup (fun _ => Q) Q -> hoare P (finally cleanup p) (fun _ => Q) Q.
Proof.
  intros Hp Hc. eapply hoare_bind; [eapply hoare_try, Hp|]. intros r.
  eapply (hoare_bind _ _ _ (fun _ => Q)).
  - eapply hoare_conseq; [eapply (hoare_try Q), Hc| |intros []; apply entails_refl|apply entails_refl]. by destruct r.
  - intros _. by apply hoare_lift.
Qed.

Lemma hoare_hasExisting :
  hoare Untouched (dataDirHasExistingData (database_path root None) (spot_dir root None AttachmentsSubdir))
    (fun b w f => (b = false -> NothingThere) /\ Untouched w f) Untouched.
Proof.
  intros m Hm. pose proof (quiet_hasExisting scratch (database_path root None) (spot_dir root None AttachmentsSubdir) m) as [Hframe _].
  assert (Hafter : Untouched (mc_world m) (files (mc_disk (dataDirHasExistingData (database_path root None) (spot_dir root None AttachmentsSubdir) m).2))).
  { intros p Hp. rewrite Hframe by done. by apply Hm. }
  destruct (dataDirHasExistingData _ _ m) as [[b|e] m'] eqn:E; cbn [snd] in Hafter; [|exact Hafter]. split; [|exact Hafter].
  intros ->. apply hasExisting_false in E as [Hdb Hatt]. split.
  - rewrite <- Hm; [done|]. apply (spot_not_scratch None DBSubdir); [done|listed|apply (spot_top_in None)].
  - intros rest Hr. rewrite <- Hm; [by apply Hatt|]. apply (spot_not_scratch None AttachmentsSubdir); [done|listed|apply (spot_top_in None)].
Qed.

Lemma Untouched_scratch w w' f f' : Untouched w f -> (forall p, ~ scratch p -> f' !! p = f !! p) -> Untouched w' f'.
Proof. intros Hu Hf p Hp. rewrite Hf by done. by apply Hu. Qed.

Lemma hoare_quiet {A} (p : Prog Machine A) : does (frame scratch) (fun _ => True) p -> hoare Untouched p (fun _ => Untouched) Kept.
Proof.
  intros Hp. eapply hoare_conseq; [apply (hoare_frame scratch); [exact Hp|apply Untouched_scratch]|done| |].
  - by intros a w f [_ Hu].
  - intros w f Hu. by apply InPlace_Kept, Untouched_InPlace.
Qed.

Lemma hoare_restore src : hoare Untouched (restore root src force) (fun _ => Kept) Kept.
Proof.
  unfold restore. cbv zeta. rewrite join_top, att_dir_path, db_path by done.
  eapply hoare_bind; [apply hoare_quiet, frame_MkdirAll|]. intros [].
  eapply hoare_bind; [apply hoare_quiet, frame_lift|]. intros tr.
  eapply hoare_bind; [apply hoare_quiet, quiet_readManifest|]. intros [manifest body].
  eapply hoare_bind; [apply hoare_quiet, frame_lift|]. intros [].
  eapply hoare_bind; [apply hoare_quiet, quiet_latest|].
  { intros n p Hp. rewrite join_in in Hp by (done || (by repeat constructor) || (by apply staging_plain; [|simpl; lia])).
    eapply (tmp_deep [_]); [|exact Hp]. constructor; [|done]. by apply staging_plain; [|simpl; lia]. }
  { intros n. assert (Hpl : plain ((restoreSchemaProbeSubdir ++ "-") ++ FormatUint (n mod 2 ^ 32)) = true) by (by apply staging_plain; [|simpl; lia]).
    rewrite !join_in by (done || by repeat constructor). cbn [app]. eapply (tmp_deep [_; "probe.db"]); [by repeat constructor|by left]. }
  intros latestSchema. eapply hoare_bind; [apply hoare_quiet, frame_lift|]. intros [].
  eapply hoare_bind.
  { eapply hoare_conseq; [apply hoare_hasExisting|done|done|]. intros w f Hu. by apply InPlace_Kept, Untouched_InPlace. }
  intros hadExisting. apply hoare_pure. intros Hno.
  eapply (hoare_bind _ _ _ (fun _ w f => (hadExisting = true -> force = true) /\ Untouched w f)).
  { apply hoare_lift; [|intros w f Hu; by apply InPlace_Kept, Untouched_InPlace]. intros [] Hok w f Hu. split; [|done].
    intros ->. unfold reject in Hok. by destruct force. }
  intros []. apply hoare_pure. intros Hforce.
  eapply hoare_bind; [apply hoare_quiet, quiet_probeServer|].
  { rewrite join_top by done. right. by left. }
  intros warning. eapply hoare_bind.
  { eapply hoare_conseq; [apply hoare_probeDatabase|apply Untouched_InPlace|done|apply InPlace_Kept]. }
  intros [].
  eapply hoare_bind; [eapply hoare_conseq; [apply (hoare_frame scratch); [apply frame_MkdirTemp|apply InPlace_scratch]|done|done|apply InPlace_Kept]|].
  intros stagingRoot. apply hoare_pure. intros [n ->].
  assert (Hpl : plain ("restore-staging-" ++ FormatUint (n mod 2 ^ 32)) = true) by (by apply staging_plain; [|simpl; lia]).
  rewrite join_in by (done || by repeat constructor). apply hoare_finally; [by apply hoare_restore_staged|].
  eapply hoare_conseq; [apply (hoare_frame scratch); [apply frame_RemoveAll|apply Kept_scratch]|done|by intros a w f [_ Hk]|done].
  intros p Hp. eapply (tmp_deep [_]); [|exact Hp]. by repeat constructor.
Qed.
End phases.

(** ** The theorem *)

(** C1: a restore loses nothing.  Whatever the archive, whichever calls fail
    and wherever the process stops, with or without [--force]: afterwards the
    attachments that were there are all at their place or all in the directory
    they were moved aside to, byte for byte; the same holds of the database,
    with the contents that SQLite reads, and of what else is in its directory;
    without [--force] they are at their place; and outside of the database,
    the attachments, the staging area and the lock file nothing changes. *)
Theorem restore_keeps_data `{IO, Locks, Engine, Archives} root src force m :
  root <> "" ->
  (forall i i', db_probe i = Ok i' -> length i' = length i /\ db_contents i' = db_contents i /\ (i !! 0%nat <> Some None -> i' !! 0%nat <> Some None)) ->
  files (mc_disk m) !! spot_dir root None DBSubdir = None -> files (mc_disk m) !! spot_dir root None AttachmentsSubdir = None ->
  let before := files (mc_disk m) in
  let after := files (mc_disk (restore root src force m).2) in
  exists db_spot att_spot,
    spot_good force db_spot /\ spot_good force att_spot /\
    attachments_kept root before after att_spot /\ database_kept root before after db_spot /\ rest_kept root before after.
Proof.
  intros Hroot Hprobe Hdb Hatt. cbv zeta.
  pose proof (hoare_restore root Hroot Hprobe (files (mc_disk m)) force Hdb Hatt src m (fun p _ => eq_refl)) as Hrun.
  destruct (restore root src force m) as [[s|e] m']; exact Hrun.
Qed.

Lemma restore_keeps_data_witness :
  let io := stops_at 28 in let engine := demo_engine demo_db0 in let archives := simple_archives in let locks := no_server in
  let after := files (mc_disk (restore "data" other_archive true household).2) in
  after !! "data/tmp/restore-staging-11/attachments/g2/b" = Some (mkFile "receipt" (seconds 19)) /\
  exists db_spot att_spot,
    attachments_kept "data" (files (mc_disk household)) after att_spot /\ database_kept "data" (files (mc_disk household)) after db_spot.
Proof.
  intros io engine archives locks after. split; [vm_compute; reflexivity|].
  destruct (restore_keeps_data "data" other_archive true household) as (sd & sa & _ & _ & Ha & Hd & _).
  - discriminate.
  - intros i i' Hp. injection Hp as <-. split; [reflexivity|split; [reflexivity|tauto]].
  - vm_compute. reflexivity.
  - vm_compute. reflexivity.
  - exists sd, sa. split; [exact Ha|exact Hd].
Defined.
