(* ===== verification/ArchiveContents.v ===== *)
(** * What an archive contains and which archives are kept

    Whichever calls fail: the file a backup makes is there as a whole or not
    at all, and holds the manifest, a snapshot of the database and every file
    of the attachments once, byte for byte.  After a scheduled backup the
    archives beyond the newest [retain] are removed, and nothing else is. *)

From S2P Require Import Prelude GoBase Schema Sql Demo SyncReader PullProperties Escape Strconv Password HttpCore Calendar.
From S2P Require Import ReportProperties Paths Disk Attachments Effects Backup Restore AttachmentFiles DiskTreeFacts BackupDemo RestoreSafety.
From Stdlib Require Import Strings.Ascii.

(** ** The text of an archive *)

Section text.
Context `{Archives}.

Fixpoint prefix_from (done entries : list Entry) : string :=
  match entries with
  | [] => ""
  | e :: entries => (tar_entry done e ++ prefix_from (done ++ [e]) entries)%string
  end.

Lemma archive_prefix done entries : archive_from done entries = (prefix_from done entries ++ tar_close (done ++ entries))%string.
Proof.
  revert done. induction entries as [|e es IH]; intros done; cbn [archive_from prefix_from]; [by rewrite app_nil_r|].
  rewrite IH, string_app_assoc. by rewrite <- app_assoc.
Qed.

Lemma prefix_snoc done entries e : prefix_from done (entries ++ [e]) = (prefix_from done entries ++ tar_entry (done ++ entries) e)%string.
Proof.
  revert done. induction entries as [|e' es IH]; intros done; cbn [prefix_from app].
  - by rewrite app_nil_r, string_app_nil_r.
  - rewrite IH, string_app_assoc. by rewrite <- app_assoc.
Qed.
End text.

(** ** Calls whose error is looked at *)

Section looking.
Context `{IO}.

(** A call that changes nothing, with what it found. *)
Lemma hoare_try_looks {A} (P : assertion) (run : nat -> Disk -> res A * Disk) E (Q : res A -> gmap string File -> Prop) :
  (forall n d, (run n d).2 = d) -> (forall n d, Q (run n d).1 (files d)) -> (forall f, Q (Err ErrIO) f /\ Q (Err ErrStopped) f) ->
  hoare P (try (plain_call run)) (fun r w f => P w f /\ Q r f) E.
Proof.
  intros Hsame HQ Hfail m Hm. unfold try, plain_call, call, holds in *. destruct (mc_up m); [|split; [done|apply Hfail]].
  destruct (io_outcome (mc_calls m)); [|split; [done|apply Hfail]..].
  specialize (Hsame (mc_calls m) (mc_disk m)). specialize (HQ (mc_calls m) (mc_disk m)).
  destruct (run (mc_calls m) (mc_disk m)) as [r d]. cbn [fst snd mc_world mc_disk] in *. by subst.
Qed.

Lemma hoare_try_Stat P path E : hoare P (try (Stat path))
  (fun r w f => P w f /\ (r = Err ErrNotExist -> f !! path = None /\ forall rest, f !! (path ++ "/" ++ rest)%string = None) /\
    (r = Ok false -> is_Some (f !! path))) E.
Proof.
  apply (hoare_try_looks P _ E (fun r f => (r = Err ErrNotExist -> _) /\ (r = Ok false -> _))); [| |done].
  - intros n d. by repeat case_match.
  - intros n d. destruct (files d !! path) as [x|]; [by split; [|exists x]|]. destruct (is_dir path d) eqn:Ed; [done|].
    split; [|done]. intros _. split; [done|]. intros rest. apply is_dir_false in Ed as [_ Hn]. apply Hn, under_in.
Qed.

Lemma hoare_try_ReadFile P path E : hoare P (try (ReadFile path))
  (fun r w f => P w f /\ match r with Ok b => file_Bytes <$> f !! path = Some b | Err e => e = ErrNotExist -> f !! path = None end) E.
Proof.
  apply (hoare_try_looks P _ E (fun r f => match r with Ok b => file_Bytes <$> f !! path = Some b | Err e => e = ErrNotExist -> f !! path = None end)); [| |done].
  - intros n d. by case_match.
  - intros n d. by destruct (files d !! path) eqn:E1.
Qed.

Lemma hoare_try_ReadDir P dir E : hoare P (try (ReadDir dir))
  (fun r w f => P w f /\ match r with
    | Ok found => exists d, files d = f /\ found = entries dir d
    | Err e => e = ErrNotExist -> forall rest, f !! (dir ++ "/" ++ rest)%string = None end) E.
Proof.
  apply (hoare_try_looks P _ E (fun r f => match r with
    | Ok found => exists d, files d = f /\ found = entries dir d
    | Err e => e = ErrNotExist -> forall rest, f !! (dir ++ "/" ++ rest)%string = None end)); [| |done].
  - intros n d. by case_match.
  - intros n d. destruct (is_dir dir d) eqn:Ed; [by exists d|]. intros _ rest. apply is_dir_false in Ed as [_ Hn]. apply Hn, under_in.
Qed.

Lemma hoare_read_file P path : hoare P (ReadFile path) (fun b w f => P w f /\ file_Bytes <$> f !! path = Some b) P.
Proof.
  apply hoare_call; [|done|done]. intros w d n Hd. destruct (files d !! path) eqn:E1; [|done]. split; [done|]. by rewrite E1.
Qed.

Lemma hoare_cleanup {A} (P : assertion) cleanup (p : Prog Machine A) Q E :
  hoare P p Q E -> (forall a, hoare (Q a) cleanup (fun _ => Q a) (Q a)) -> hoare E cleanup (fun _ => E) E ->
  hoare P (finally cleanup p) Q E.
Proof.
  intros Hp Hc He. eapply hoare_bind; [eapply hoare_try, Hp|]. intros r. destruct r as [a|e]; cbn beta iota.
  - eapply (hoare_bind _ _ _ (fun _ => Q a)).
    + eapply hoare_conseq; [eapply (hoare_try (Q a)), Hc|done|intros []; apply entails_refl|apply entails_refl].
    + intros _. by apply hoare_ret.
  - eapply (hoare_bind _ _ _ (fun _ => E)).
    + eapply hoare_conseq; [eapply (hoare_try E), He|done|intros []; apply entails_refl|apply entails_refl].
    + intros _. by apply hoare_throw.
Qed.
End looking.

(** ** Listings without repetition *)

Lemma NoDup_omap_inj {A B} (f : A -> option B) (l : list A) :
  (forall x y b, f x = Some b -> f y = Some b -> x = y) -> NoDup l -> NoDup (omap f l).
Proof.
  intros Hinj. induction l as [|x l IH]; intros Hnd; [constructor|]. apply NoDup_cons in Hnd as [Hx Hnd]. cbn.
  destruct (f x) as [b|] eqn:E; [|by apply IH]. constructor; [|by apply IH].
  intros (y & Hy & E')%list_elem_of_omap. by rewrite (Hinj x y b) in Hx.
Qed.

Lemma entries_NoDup dir d : NoDup (entries dir d).
Proof.
  unfold entries. rewrite order_by_Permutation. apply NoDup_app. split_and!.
  - apply NoDup_fmap; [intros a b E; by injection E|]. apply NoDup_omap_inj; [|apply NoDup_fst_map_to_list].
    intros x y n [_ ->]%name_in_spec [_ ->]%name_in_spec. done.
  - intros e (n & -> & _)%list_elem_of_fmap (m & E & _)%list_elem_of_fmap. done.
  - apply NoDup_fmap; [intros a b E; by injection E|]. apply NoDup_elements.
Qed.

(** ** Paths under the attachments *)

Section tree.
Context (root : string) (root_given : root <> ""%string) (f0 : gmap string File).

Definition spot_of (names : list string) : string := place_of root (AttachmentsSubdir :: names).

Lemma spot_snoc names n : spot_of (names ++ [n]) = (spot_of names ++ "/" ++ n)%string.
Proof. apply (place_prefix root (AttachmentsSubdir :: names)). done. Qed.

Lemma spot_app names more : more <> [] -> spot_of (names ++ more) = (spot_of names ++ "/" ++ Escape.Join more "/")%string.
Proof.
  induction more as [|n more IH] using rev_ind; [done|]. intros _. rewrite app_assoc, spot_snoc.
  destruct more as [|m more]; [by rewrite app_nil_r|]. rewrite IH by done. rewrite (Join_snoc (m :: more)) by done.
  by rewrite !string_app_assoc.
Qed.

Lemma spot_inj a b : Forall (fun n => plain n = true) a -> Forall (fun n => plain n = true) b -> spot_of a = spot_of b -> a = b.
Proof. intros Fa Fb E. apply place_inj in E; [by injection E|done|done|by constructor..]. Qed.

Lemma real_Join names : names <> [] -> Forall (fun n => plain n = true) names -> real (Escape.Join names "/").
Proof. intros Hne Hn. unfold real. by rewrite Split_Join by (done || by apply free_plain). Qed.

(** The entry of a file. *)
Definition entry_for (names : list string) (x : File) : Entry := regular ("attachments/" ++ Escape.Join names "/") (file_Bytes x).

Definition present (names : list string) (x : File) : Prop :=
  Forall (fun n => plain n = true) names /\ names <> [] /\ f0 !! spot_of names = Some x.

Lemma entry_for_inj a b x y : Forall (fun n => plain n = true) a -> Forall (fun n => plain n = true) b -> a <> [] -> b <> [] ->
  hdr_Name (entry_for a x).1 = hdr_Name (entry_for b y).1 -> a = b.
Proof.
  intros Fa Fb Ha Hb E. cbn in E. apply (string_app_inj_r "attachments/") in E.
  apply (f_equal (fun s => Split s "/")) in E. by rewrite !Split_Join in E by (done || by apply free_plain).
Qed.

(** The entries of the files in a directory. *)
Definition collected (names : list string) (new : list Entry) : Prop :=
  NoDup (hdr_Name <$> new.*1) /\
  forall e, e ∈ new <-> exists more x, more <> [] /\ present (names ++ more) x /\ e = entry_for (names ++ more) x.

(** The part of one entry of the listing. *)
Definition part (names : list string) (found : DirEntry) (e : Entry) : Prop :=
  let here := names ++ [entry_Name found] in
  if entry_IsDir found then exists more x, more <> [] /\ present (here ++ more) x /\ e = entry_for (here ++ more) x
  else exists x, present here x /\ e = entry_for here x.

Definition collected_of (names : list string) (listing : list DirEntry) (new : list Entry) : Prop :=
  NoDup (hdr_Name <$> new.*1) /\ forall e, e ∈ new <-> exists found, found ∈ listing /\ part names found e.

Lemma part_one names a b e e' :
  plain (entry_Name a) = true -> plain (entry_Name b) = true ->
  part names a e -> part names b e' -> hdr_Name e.1 = hdr_Name e'.1 -> a = b.
Proof.
  assert (Hshape : forall a e, part names a e -> exists more x, e = entry_for (names ++ entry_Name a :: more) x /\
    Forall (fun n => plain n = true) (names ++ entry_Name a :: more) /\ (more = [] <-> entry_IsDir a = false)).
  { intros [n []] e0; unfold part; cbn [entry_Name entry_IsDir].
    - intros (more & x & Hne & (Hp & _) & ->). exists more, x. rewrite <- app_assoc in *. split_and!; [done..|]. by split.
    - intros (x & (Hp & _) & ->). exists [], x. by split_and!. }
  intros Ha Hb (ma & x & -> & Fa & Ea)%Hshape (mb & y & -> & Fb & Eb)%Hshape E.
  apply entry_for_inj in E; [|done|done|by destruct names..]. simplify_list_eq. destruct a as [n da], b as [m db]. cbn in *. subst m.
  f_equal. destruct da, db; try done; [by rewrite (proj2 Eb eq_refl) in Ea; destruct (proj1 Ea eq_refl)|by rewrite (proj2 Ea eq_refl) in Eb; destruct (proj1 Eb eq_refl)].
Qed.

Lemma collected_of_nil names : collected_of names [] [].
Proof. split; [constructor|]. intros e. split; [by intros ?%elem_of_nil|]. by intros (found & ?%elem_of_nil & _). Qed.

Lemma collected_of_snoc names l found new more :
  found ∉ l -> (forall f, f ∈ l ++ [found] -> plain (entry_Name f) = true) -> collected_of names l new ->
  NoDup (hdr_Name <$> more.*1) -> (forall e, e ∈ more <-> part names found e) -> collected_of names (l ++ [found]) (new ++ more).
Proof.
  intros Hf Hpl [Hnd Hin] Hnd' Hin'. split.
  - rewrite !fmap_app. apply NoDup_app. split_and!; [done| |done].
    intros s Hs Hs'. apply list_elem_of_fmap in Hs as (h & -> & Hs). apply list_elem_of_fmap in Hs as (e & -> & Hs).
    apply list_elem_of_fmap in Hs' as (h & Eh & Hs'). apply list_elem_of_fmap in Hs' as (e' & -> & Hs').
    apply Hin in Hs as (a & Ha & Hpa). apply Hin' in Hs'. apply Hf.
    replace found with a; [done|]. eapply part_one; [| |exact Hpa|exact Hs'|done]; apply Hpl, elem_of_app; [by left|right; by left].
  - intros e. rewrite elem_of_app, Hin, Hin'. setoid_rewrite elem_of_app. setoid_rewrite list_elem_of_singleton. naive_solver.
Qed.

(** What a listing shows is all there is. *)
Lemma collected_entries names d new :
  Forall (fun n => plain n = true) names -> (forall rest, real rest -> files d !! (spot_of names ++ "/" ++ rest)%string = f0 !! (spot_of names ++ "/" ++ rest)%string) ->
  collected_of names (entries (spot_of names) d) new -> collected names new.
Proof.
  intros Hn Hsame [Hnd Hin]. split; [done|]. intros e. rewrite Hin. split.
  - intros ([n []] & Hf & Hp); unfold part in Hp; cbn [entry_Name entry_IsDir] in Hp.
    + destruct Hp as (more & x & Hne & Hp & ->). exists (n :: more), x. rewrite <- app_assoc in *. by split_and!.
    + destruct Hp as (x & Hp & ->). exists [n], x. by split_and!.
  - intros (more & x & Hne & Hp & ->). destruct more as [|n more]; [done|]. pose proof Hp as (Fp & _ & Hx).
    assert (Hpn : plain n = true) by (apply Forall_app in Fp as [_ Fp]; by apply Forall_cons in Fp as [? _]).
    destruct more as [|m more].
    + exists (mkEntry n false). split; [|by exists x]. apply elem_entries. cbn [entry_Name entry_IsDir]. split; [done|].
      rewrite Hsame, <- spot_snoc, Hx; [by exists x|]. apply (real_Join [n]); [done|by constructor].
    + exists (mkEntry n true). split.
      * apply elem_entries. cbn [entry_Name entry_IsDir]. split; [done|]. right. exists (Escape.Join (m :: more) "/"). left.
        exists x. rewrite <- Hx. rewrite !string_app_assoc, Hsame.
        2: { apply (real_Join (n :: m :: more)); [done|]. by apply Forall_app in Fp as [_ Fp]. }
        f_equal.
        replace (names ++ n :: m :: more) with ((names ++ [n]) ++ m :: more) by (by rewrite <- app_assoc).
        rewrite spot_app by done. rewrite spot_snoc. by rewrite !string_app_assoc.
      * unfold part. cbn [entry_Name entry_IsDir]. exists (m :: more), x. rewrite <- app_assoc. by split_and!.
Qed.
End tree.

(** ** Writing *)

Section writing.
Context `{IO, Engine, Archives} (root : string) (root_given : root <> ""%string) (db0 : DB) (f0 : gmap string File).
(** Temporary files are these. *)
Context (dir prefix : string).
Definition archive_tmp (n : Z) : string := path_Join [dir; (prefix ++ FormatUint (n mod 2 ^ 32) ++ ".tar.gz.tmp")%string].
Definition snapshot_tmp (n : Z) : string := place_of root [TmpSubdir; ("snapshot-" ++ FormatUint (n mod 2 ^ 32) ++ ".db.tmp")%string].
Definition temporary (p : string) : Prop := (exists n, p = archive_tmp n) \/ (exists n, p = snapshot_tmp n).

Context (att_apart : forall names, Forall (fun n => plain n = true) names -> ~ temporary (spot_of root names)).
Context (apart : forall n k, archive_tmp n <> snapshot_tmp k).

(** Nothing but temporary files has changed. *)
Definition Same : assertion := fun _ f => forall p, ~ temporary p -> f !! p = f0 !! p.

(** The archive so far. *)
Definition Writing (tmpPath : string) (es : list Entry) : assertion := fun w f =>
  wdb w = db0 /\ Same w f /\ exists t, f !! tmpPath = Some (mkFile (prefix_from [] es) t).

Lemma Writing_Same tmpPath es : entails (Writing tmpPath es) Same.
Proof. by intros w f (_ & Hs & _). Qed.

Lemma Same_insert w f p x : temporary p -> Same w f -> Same w (<[p := x]> f).
Proof. intros Hp Hs q Hq. rewrite lookup_insert_ne by (by intros ->). by apply Hs. Qed.
Lemma Same_delete w f p : temporary p -> Same w f -> Same w (delete p f).
Proof. intros Hp Hs q Hq. rewrite lookup_delete_ne by (by intros ->). by apply Hs. Qed.

Section to_tmp.
Context (n : Z).
#[local] Abbreviation tmpPath := (archive_tmp n).

Lemma tmp_temporary : temporary tmpPath.
Proof. left. by exists n. Qed.

Lemma hoare_write_entry name content es :
  let e := regular name content in
  hoare (Writing tmpPath es) (write_entry (Write tmpPath) name content es) (fun r w f => r = es ++ [e] /\ Writing tmpPath (es ++ [e]) w f) Same.
Proof.
  intros e. unfold write_entry. eapply (hoare_bind _ _ _ (fun _ => Writing tmpPath (es ++ [e]))); [|intros []; by apply hoare_ret].
  apply hoare_call; [| |apply Writing_Same].
  - intros w d k (Hw & Hs & t & Ht). unfold append_to. rewrite Ht. cbn [file_Bytes set_files files]. split_and!; [done| |].
    + apply Same_insert; [apply tmp_temporary|done].
    + eexists. rewrite lookup_insert_eq. by rewrite prefix_snoc.
  - intros w d k written (Hw & Hs & t & Ht). unfold append_to. rewrite Ht. cbn [set_files files]. apply Same_insert; [apply tmp_temporary|done].
Qed.

(** *** The walk *)

Lemma Rel_spot names : Forall (fun n => plain n = true) names -> names <> [] ->
  Rel (spot_of root []) (spot_of root names) = Some (Escape.Join names "/").
Proof. intros Hn Hne. by apply (Rel_place root [AttachmentsSubdir]); [|..|by repeat constructor|]. Qed.

Lemma entry_name names : Forall (fun n => plain n = true) names -> names <> [] ->
  path_Join ["attachments"%string; Escape.Join names "/"] = ("attachments/" ++ Escape.Join names "/")%string.
Proof.
  intros Hn Hne. rewrite path_Join_segments by done. cbn [fmap list_fmap concat]. rewrite app_nil_r, Split_Join by (done || by apply free_plain).
  change (IsAbs "attachments") with false. change (clean_segments false (Split "attachments" "/")) with (rev ["attachments"%string]).
  rewrite foldl_plain by done. rewrite rev_app_distr, !rev_involutive. cbn [app].
  unfold render. by destruct names.
Qed.

Lemma hoare_visit_file names x es st :
  present root f0 names x ->
  hoare (Writing tmpPath es) (visit_attachment (Write tmpPath) (spot_of root []) (spot_of root names) false None (es, st))
    (fun r w f => r.1 = es ++ [entry_for names x] /\ Writing tmpPath (es ++ [entry_for names x]) w f) Same.
Proof.
  intros (Hn & Hne & Hx). unfold visit_attachment.
  eapply hoare_bind; [by apply hoare_looks; [|apply Writing_Same]|]. intros []. rewrite Rel_spot, entry_name by done.
  unfold writeAttachmentEntry. cbn [fst snd]. eapply hoare_bind; [apply (hoare_try_ReadFile _ _ Same)|].
  assert (Hfile : forall w f, Writing tmpPath es w f -> f !! spot_of root names = Some x).
  { intros w f (_ & Hs & _). rewrite Hs; [done|]. by apply att_apart. }
  intros [content|e]; cbn beta iota.
  - intros m [Hw Hc]. rewrite (Hfile _ _ Hw) in Hc. cbn in Hc. injection Hc as <-. revert m Hw.
    change (hoare (Writing tmpPath es) (passing_call;; (entries ← write_entry (Write tmpPath) ("attachments/" ++ Escape.Join names "/") (file_Bytes x) es;
      mret (entries, file_added (Z.of_nat (String.length (file_Bytes x))) st)))
      (fun r w f => r.1 = es ++ [entry_for names x] /\ Writing tmpPath (es ++ [entry_for names x]) w f) Same).
    eapply hoare_bind; [by apply hoare_looks; [|apply Writing_Same]|]. intros [].
    eapply hoare_bind; [apply hoare_write_entry|]. intros r. apply hoare_ret. by intros w f [-> Hr].
  - destruct (bool_decide (e = ErrNotExist)) eqn:Ee.
    + apply bool_decide_eq_true in Ee as ->. intros m [Hw Hc]. rewrite (Hfile _ _ Hw) in Hc. by discriminate Hc.
    + apply hoare_throw. intros w f [Hw _]. by eapply Writing_Same.
Qed.

Lemma hoare_visit_dir names es st :
  hoare (Writing tmpPath es) (visit_attachment (Write tmpPath) (spot_of root []) (spot_of root names) true None (es, st))
    (fun r w f => r.1 = es /\ Writing tmpPath es w f) Same.
Proof.
  unfold visit_attachment. eapply hoare_bind; [by apply hoare_looks; [|apply Writing_Same]|]. intros []. by apply hoare_ret.
Qed.

Lemma hoare_walk_file fuel names x es st :
  present root f0 names x ->
  hoare (Writing tmpPath es) (walkDir (visit_attachment (Write tmpPath) (spot_of root [])) fuel (spot_of root names) false (es, st))
    (fun r w f => r.1 = es ++ [entry_for names x] /\ Writing tmpPath (es ++ [entry_for names x]) w f) Same.
Proof.
  intros Hx. destruct fuel; cbn [walkDir negb]; (eapply hoare_bind; [by apply hoare_visit_file|]; intros r; by apply hoare_ret).
Qed.

(** The entries added by a walk are those of the files in the directory. *)
Definition walked (names : list string) (es : list Entry) (r : list Entry * ArchiveStats) : assertion := fun w f =>
  exists new, r.1 = es ++ new /\ collected root f0 names new /\ Writing tmpPath (es ++ new) w f.

Lemma collected_none names : Forall (fun n => plain n = true) names ->
  (forall rest, real rest -> f0 !! (spot_of root names ++ "/" ++ rest)%string = None) -> collected root f0 names [].
Proof.
  intros Hn Hnone. split; [constructor|]. intros e. split; [by intros ?%elem_of_nil|].
  intros (more & x & Hne & (Fp & _ & Hx) & _). apply Forall_app in Fp as [_ Fp].
  rewrite spot_app, Hnone in Hx by (done || by apply real_Join). done.
Qed.

Lemma Same_spot w f names rest : Forall (fun n => plain n = true) names -> Same w f -> real rest ->
  f !! (spot_of root names ++ "/" ++ rest)%string = f0 !! (spot_of root names ++ "/" ++ rest)%string.
Proof.
  intros Hn Hs Hr. apply Hs. replace (spot_of root names ++ "/" ++ rest)%string with (spot_of root (names ++ Split rest "/")).
  - apply att_apart. apply Forall_app. by split.
  - rewrite spot_app by apply Split_not_nil. by rewrite Join_Split.
Qed.

(** One entry of a listing. *)
Lemma hoare_listed fuel names es st d found :
  (forall names es st, Forall (fun n => plain n = true) names ->
     hoare (Writing tmpPath es) (walkDir (visit_attachment (Write tmpPath) (spot_of root [])) fuel (spot_of root names) true (es, st))
       (walked names es) Same) ->
  Forall (fun n => plain n = true) names ->
  (forall rest, real rest -> files d !! (spot_of root names ++ "/" ++ rest)%string = f0 !! (spot_of root names ++ "/" ++ rest)%string) ->
  found ∈ entries (spot_of root names) d ->
  hoare (Writing tmpPath es)
    (walkDir (visit_attachment (Write tmpPath) (spot_of root [])) fuel (path_Join [spot_of root names; entry_Name found]) (entry_IsDir found) (es, st))
    (fun r w f => exists more, r.1 = es ++ more /\ NoDup (hdr_Name <$> more.*1) /\
       (forall e, e ∈ more <-> part root f0 names found e) /\ Writing tmpPath (es ++ more) w f) Same.
Proof.
  intros IH Hn Hsame Hin. apply elem_entries in Hin as [Hfp Hin].
  rewrite (join_in root (AttachmentsSubdir :: names)) by (done || by constructor).
  change (place_of root ((AttachmentsSubdir :: names) ++ [entry_Name found])) with (spot_of root (names ++ [entry_Name found])).
  assert (Hnames : Forall (fun n => plain n = true) (names ++ [entry_Name found])) by (apply Forall_app; split; [done|by constructor]).
  unfold part. destruct (entry_IsDir found).
  - eapply hoare_conseq; [by apply IH|done| |done]. intros r w f (more & Hr & [Hnd Hm] & Hwf). exists more. by split_and!.
  - assert (Hx : exists x, present root f0 (names ++ [entry_Name found]) x).
    { destruct Hin as [x Hx]. exists x. rewrite Hsame in Hx by (apply (real_Join [entry_Name found]); [done|by constructor]).
      split_and!; [done|by destruct names|by rewrite spot_snoc]. }
    destruct Hx as [x Hx]. eapply hoare_conseq; [apply hoare_walk_file, Hx|done| |done].
    intros r w f [Hr Hwf]. exists [entry_for (names ++ [entry_Name found]) x]. split_and!; [done|by repeat constructor; apply not_elem_of_nil| |done].
    intros e. rewrite list_elem_of_singleton. split; [intros ->; by exists x|].
    intros (y & (_ & _ & Hy) & ->). destruct Hx as (_ & _ & Hx). congruence.
Qed.

Lemma hoare_listing fuel names es d :
  (forall names es st, Forall (fun n => plain n = true) names ->
     hoare (Writing tmpPath es) (walkDir (visit_attachment (Write tmpPath) (spot_of root [])) fuel (spot_of root names) true (es, st))
       (walked names es) Same) ->
  Forall (fun n => plain n = true) names ->
  (forall rest, real rest -> files d !! (spot_of root names ++ "/" ++ rest)%string = f0 !! (spot_of root names ++ "/" ++ rest)%string) ->
  forall l2 l1 new st, entries (spot_of root names) d = l1 ++ l2 -> collected_of root f0 names l1 new ->
  hoare (Writing tmpPath (es ++ new)) (fold_each l2 (fun e => walkDir (visit_attachment (Write tmpPath) (spot_of root [])) fuel
    (path_Join [spot_of root names; entry_Name e]) (entry_IsDir e)) (es ++ new, st)) (walked names es) Same.
Proof.
  intros IH Hn Hsame. induction l2 as [|found l2 IHl]; intros l1 new st0 Hl Hc; cbn [fold_each].
  { apply hoare_ret. intros w f Hwf. exists new. split_and!; [done| |done]. rewrite app_nil_r in Hl. subst l1. by eapply collected_entries. }
  assert (Hall : forall f, f ∈ l1 ++ [found] -> f ∈ entries (spot_of root names) d).
  { intros f Hf. rewrite Hl. apply elem_of_app in Hf as [Hf| ->%list_elem_of_singleton]; apply elem_of_app; [by left|right; by left]. }
  assert (Hnew : found ∉ l1).
  { pose proof (entries_NoDup (spot_of root names) d) as Hnd. rewrite Hl in Hnd. apply NoDup_app in Hnd as (_ & Hnd & _).
    intros Hin. apply (Hnd _ Hin). by left. }
  eapply hoare_bind; [apply (hoare_listed fuel names _ _ d); [done..|apply Hall, elem_of_app; right; by left]|].
  intros [r1 r2] m0 (more & Hr & Hnd & Hin & Hwf). cbn in Hr. subst r1. rewrite <- app_assoc in Hwf |- *.
  revert m0 Hwf. apply (IHl (l1 ++ [found]) (new ++ more)); [by rewrite <- app_assoc|]. apply collected_of_snoc; [done| |done..].
  intros f Hf%Hall. by apply elem_entries in Hf as [? _].
Qed.

Lemma hoare_walkDir fuel : forall names es st, Forall (fun n => plain n = true) names ->
  hoare (Writing tmpPath es) (walkDir (visit_attachment (Write tmpPath) (spot_of root [])) fuel (spot_of root names) true (es, st))
    (walked names es) Same.
Proof.
  induction fuel as [|fuel IH]; intros names es st Hn; cbn [walkDir negb].
  { eapply hoare_bind; [apply hoare_visit_dir|]. intros r. apply hoare_throw. intros w f [_ Hw]. by eapply Writing_Same. }
  eapply hoare_bind; [apply hoare_visit_dir|]. intros [es' st']. apply hoare_pure. cbn [fst]. intros ->.
  eapply hoare_bind; [apply (hoare_try_ReadDir _ _ Same)|]. intros [found|e]; cbn beta iota.
  - intros m (Hw & d & Hd & ->). unfold holds in Hw. rewrite <- Hd in Hw.
    assert (Hsame : forall rest, real rest -> files d !! (spot_of root names ++ "/" ++ rest)%string = f0 !! (spot_of root names ++ "/" ++ rest)%string).
    { intros rest Hr. destruct Hw as (_ & Hs & _). by eapply Same_spot. }
    pose proof (hoare_listing fuel names es d IH Hn Hsame (entries (spot_of root names) d) [] [] st' eq_refl (collected_of_nil root f0 names)) as Hloop.
    rewrite app_nil_r in Hloop. apply Hloop. unfold holds. by rewrite <- Hd.
  - intros m [Hw Hnone]. unfold visit_attachment. destruct (bool_decide (e = ErrNotExist)) eqn:Ee.
    + apply bool_decide_eq_true in Ee as ->. exists []. rewrite app_nil_r. split_and!; [done| |done]. apply collected_none; [done|].
      intros rest Hr. destruct Hw as (Hw & Hs & Ht). rewrite <- (Same_spot (mc_world m) (files (mc_disk m))) by done. by apply Hnone.
    + destruct Hw as (_ & Hs & _). exact Hs.
Qed.

Lemma hoare_writeAttachmentsTree es : f0 !! spot_of root [] = None ->
  hoare (Writing tmpPath es) (writeAttachmentsTree root (Write tmpPath) es) (walked [] es) Same.
Proof.
  intros Hroot. unfold writeAttachmentsTree. cbv zeta. rewrite join_top by done. change (place_of root [AttachmentsSubdir]) with (spot_of root []).
  assert (Hnil : Forall (fun n => plain n = true) []) by constructor.
  assert (Hempty : forall st, entails (fun w f => Writing tmpPath es w f /\ forall rest, f !! (spot_of root [] ++ "/" ++ rest)%string = None) (walked [] es (es, st))).
  { intros st w f [Hw Hnone]. exists []. rewrite app_nil_r. split_and!; [done| |done]. apply collected_none; [done|].
    intros rest Hr. destruct Hw as (_ & Hs & _). by rewrite <- (Same_spot w f). }
  eapply hoare_bind; [apply (hoare_try_Stat _ _ Same)|]. intros [isDir|e]; cbn beta iota.
  - unfold WalkDir. eapply hoare_conseq with (P' := Writing tmpPath es); [|by intros w f [Hw _]|done|done].
    eapply hoare_bind; [apply (hoare_try_Stat _ _ Same)|]. intros [isDir'|e]; cbn beta iota.
    + intros m (Hw & _ & Hfile). destruct isDir'; [|exfalso].
      * unfold walk_all. by apply hoare_walkDir.
      * destruct (Hfile eq_refl) as [x Hx]. destruct Hw as (_ & Hs & _). rewrite Hs in Hx by (by apply (att_apart [])). congruence.
    + unfold visit_attachment. destruct (bool_decide (e = ErrNotExist)) eqn:Ee.
      * apply bool_decide_eq_true in Ee as ->. apply hoare_ret. intros w f (Hw & Hnone & _). apply Hempty. split; [done|by apply Hnone].
      * apply hoare_throw. intros w f [Hw _]. by eapply Writing_Same.
  - destruct (bool_decide (e = ErrNotExist)) eqn:Ee.
    + apply bool_decide_eq_true in Ee as ->. apply hoare_ret. intros w f (Hw & Hnone & _). apply Hempty. split; [done|by apply Hnone].
    + apply hoare_throw. intros w f [Hw _]. by eapply Writing_Same.
Qed.

(** *** The snapshot *)

Lemma Writing_snapshot w f f' es k : Writing tmpPath es w f -> (forall p, p <> snapshot_tmp k -> f' !! p = f !! p) -> Writing tmpPath es w f'.
Proof.
  intros (Hw & Hs & t & Ht) Hf. split_and!; [done| |].
  - intros p Hp. rewrite Hf; [by apply Hs|]. intros ->. apply Hp. right. by exists k.
  - exists t. rewrite Hf; [done|]. apply apart.
Qed.

Lemma snapshot_plain k : plain ("snapshot-" ++ FormatUint (k mod 2 ^ 32) ++ ".db.tmp") = true.
Proof.
  apply plain_prefix; [done| |simpl; lia]. by rewrite contains_byte_app, FormatUint_plain.
Qed.

Lemma hoare_Remove_snapshot (P : assertion) k :
  (forall w f f', P w f -> (forall p, p <> snapshot_tmp k -> f' !! p = f !! p) -> P w f') ->
  hoare P (Remove (snapshot_tmp k)) (fun _ => P) P.
Proof.
  intros HP. apply hoare_call; [|done|done]. intros w d n' Hd.
  destruct (files d !! snapshot_tmp k); [|destruct (is_dir _ _); [destruct (empty_dir _ _)|]; exact Hd].
  eapply HP; [exact Hd|]. intros p Hp. cbn [set_files files]. by rewrite lookup_delete_ne.
Qed.

Lemma Same_snapshot w f f' k : Same w f -> (forall p, p <> snapshot_tmp k -> f' !! p = f !! p) -> Same w f'.
Proof. intros Hs Hf p Hp. rewrite Hf; [by apply Hs|]. intros ->. apply Hp. right. by exists k. Qed.

Lemma hoare_stageName es : hoare (Writing tmpPath es) (stageName (place_of root [TmpSubdir]))
  (fun name w f => (exists k, name = snapshot_tmp k) /\ Writing tmpPath es w f) Same.
Proof.
  unfold stageName.
  eapply (hoare_bind _ _ _ (fun name w f => (exists k, name = snapshot_tmp k) /\ Writing tmpPath es w f)).
  - apply hoare_call; [|intros w d k' n' Hd; by eapply Writing_Same|apply Writing_Same]. intros w d k Hd. cbv zeta.
    assert (Hpath : path_Join [place_of root [TmpSubdir]; ("snapshot-" ++ FormatUint (io_random k mod 2 ^ 32) ++ ".db.tmp")%string] = snapshot_tmp (io_random k)).
    { apply (join_in root [TmpSubdir]); [done|by repeat constructor|apply snapshot_plain]. }
    rewrite Hpath. destruct (negb _); [by eapply Writing_Same|]. destruct (files d !! _); [by eapply Writing_Same|].
    destruct (is_dir _ _); [by eapply Writing_Same|]. split; [by eexists|]. eapply Writing_snapshot; [exact Hd|].
    intros p Hp. cbn [set_files files]. by rewrite lookup_insert_ne.
  - intros name. apply hoare_pure. intros [k ->].
    eapply (hoare_bind _ _ _ (fun _ => Writing tmpPath es)); [|intros closed].
    { eapply hoare_conseq; [apply (hoare_try (Writing tmpPath es) _ (fun _ => Writing tmpPath es)), hoare_looks; [done|apply entails_refl]|done|intros []; apply entails_refl|apply entails_refl]. }
    eapply (hoare_bind _ _ _ (fun _ => Writing tmpPath es)); [|intros removed].
    { eapply hoare_conseq; [apply (hoare_try (Writing tmpPath es) _ (fun _ => Writing tmpPath es)), (hoare_Remove_snapshot _ k)| |intros []; apply entails_refl|apply entails_refl]; [|done].
      intros w f f'. apply Writing_snapshot. }
    eapply hoare_bind; [apply (hoare_lift _ _ (fun _ => Writing tmpPath es)); [done|apply Writing_Same]|]. intros [].
    eapply hoare_bind; [apply (hoare_lift _ _ (fun _ => Writing tmpPath es)); [done|apply Writing_Same]|]. intros [].
    apply hoare_ret. intros w f Hw. split; [by exists k|done].
Qed.

(** The archive so far, and the snapshot under a name. *)
Definition Snapped (es : list Entry) (name : string) : assertion := fun w f =>
  Writing tmpPath es w f /\ file_Bytes <$> f !! name = Some (db_vacuum db0).

Lemma Snapped_Same es name : entails (Snapped es name) Same.
Proof. intros w f [Hw _]. by eapply Writing_Same. Qed.

Lemma hoare_VacuumInto es k : hoare (Writing tmpPath es) (VacuumInto (snapshot_tmp k)) (fun _ => Snapped es (snapshot_tmp k)) Same.
Proof.
  intros m Hm. unfold VacuumInto. pose proof Hm as (Hdb & _). rewrite Hdb. revert m Hm Hdb.
  enough (Hh : hoare (Writing tmpPath es) (lift (reject (snapshot_tmp k =?s "") "storage: vacuum into: destination path is empty");;
     call (vacuum_into (snapshot_tmp k) (db_vacuum db0)) (fun written n d => (vacuum_into (snapshot_tmp k) (String.substring 0 written (db_vacuum db0)) n d).2))
     (fun _ => Snapped es (snapshot_tmp k)) Same) by (intros m Hm _; apply Hh, Hm).
  eapply hoare_bind; [apply (hoare_lift _ _ (fun _ => Writing tmpPath es)); [done|apply Writing_Same]|]. intros [].
  assert (Hput : forall w d b t, Writing tmpPath es w (files d) -> Writing tmpPath es w (<[snapshot_tmp k := mkFile b t]> (files d))).
  { intros w d b t Hd. eapply Writing_snapshot; [exact Hd|]. intros p Hp. by rewrite lookup_insert_ne. }
  apply hoare_call; [| |apply Writing_Same].
  - intros w d n' Hd. unfold vacuum_into. destruct (negb _); [by eapply Writing_Same|].
    destruct (files d !! snapshot_tmp k) as [[[|c b] t]|]; [|by eapply Writing_Same|];
      (split; cbn [set_files files]; [by apply Hput|by rewrite lookup_insert_eq]).
  - intros w d written n' Hd. unfold vacuum_into. destruct (negb _); [by eapply Writing_Same|].
    destruct (files d !! snapshot_tmp k) as [[[|c b] t]|]; cbn [snd set_files files]; [|by eapply Writing_Same|];
      eapply Writing_Same, Hput, Hd.
Qed.

Lemma hoare_Rename_snapshot es j k : hoare (Snapped es (snapshot_tmp j)) (Rename (snapshot_tmp j) (snapshot_tmp k)) (fun _ => Snapped es (snapshot_tmp k)) Same.
Proof.
  apply hoare_call; [|intros w d k' n' Hd; by eapply Snapped_Same|apply Snapped_Same].
  intros w d n' [Hw Hb]. unfold rename_file. destruct (files d !! snapshot_tmp j) as [x|]; [|done]. cbn in Hb. injection Hb as Hb.
  destruct (negb _); [by eapply Writing_Same|]. destruct (is_dir _ d); [by eapply Writing_Same|].
  split; cbn [set_files files]; [|rewrite lookup_insert_eq; cbn; by rewrite Hb].
  eapply (Writing_snapshot w (delete (snapshot_tmp j) (files d)) _ _ k); [|intros p Hp; by rewrite lookup_insert_ne].
  eapply Writing_snapshot; [exact Hw|]. intros p Hp. by rewrite lookup_delete_ne.
Qed.

Lemma hoare_keeps {A} (P : assertion) (run : nat -> Disk -> res A * Disk) : (forall n d, files (run n d).2 = files d) -> entails P Same ->
  hoare P (plain_call run) (fun _ => P) Same.
Proof. intros Hr HP. by apply hoare_looks. Qed.

Lemma hoare_Snapshot es k : hoare (Writing tmpPath es) (Snapshot (snapshot_tmp k)) (fun _ => Snapped es (snapshot_tmp k)) Same.
Proof.
  unfold Snapshot. eapply hoare_bind; [apply (hoare_lift _ _ (fun _ => Writing tmpPath es)); [done|apply Writing_Same]|]. intros [].
  assert (HD : Dir (snapshot_tmp k) = place_of root [TmpSubdir]).
  { apply (Dir_place root [TmpSubdir]); [by repeat constructor|apply snapshot_plain]. }
  cbv zeta. rewrite HD.
  eapply hoare_bind; [apply hoare_keeps; [intros n' d; by case_match|apply Writing_Same]|]. intros [].
  eapply hoare_bind; [apply hoare_stageName|]. intros name. apply hoare_pure. intros [j ->].
  eapply (hoare_bind _ _ _ (fun _ => Snapped es (snapshot_tmp k))).
  - apply (hoare_or_remove _ _ _ _ Same).
    + eapply hoare_bind; [apply hoare_VacuumInto|]. intros [].
      eapply hoare_bind; [apply hoare_keeps; [done|apply Snapped_Same]|]. intros []. apply hoare_Rename_snapshot.
    + apply hoare_Remove_snapshot. intros w f f'. apply Same_snapshot.
  - intros []. unfold fsyncDir. eapply hoare_bind; [apply hoare_keeps; [done|apply Snapped_Same]|]. intros [].
    apply hoare_keeps; [done|apply Snapped_Same].
Qed.

Lemma hoare_stageSnapshot es : hoare (Writing tmpPath es) (stageSnapshotForArchive root)
  (fun name w f => (exists k, name = snapshot_tmp k) /\ Snapped es name w f) Same.
Proof.
  unfold stageSnapshotForArchive. rewrite join_top by done. cbv zeta.
  eapply hoare_bind; [apply hoare_keeps; [intros n' d; by case_match|apply Writing_Same]|]. intros [].
  eapply hoare_bind; [apply hoare_stageName|]. intros name. apply hoare_pure. intros [k ->].
  eapply hoare_bind; [apply hoare_Snapshot|]. intros []. apply hoare_ret. intros w f Hs. split; [by exists k|done].
Qed.

(** *** The archive *)

(** Written at the time of a call. *)
Definition manifest_at (call : nat) : ArchiveManifest := mkManifest ArchiveFormatVersion (UnixMilli (io_clock call)) SchemaVersion.
Definition manifest_entry (call : nat) : Entry := regular ManifestEntryName (json_Marshal (manifest_at call)).
Definition database_entry : Entry := regular DBEntryName (db_vacuum db0).

(** The entries of a backup. *)
Definition archived (es : list Entry) : Prop :=
  exists t new, es = manifest_entry t :: database_entry :: new /\ collected root f0 [] new.

Definition Complete : assertion := fun w f => exists es t, archived es /\ Same w f /\ f !! tmpPath = Some (mkFile (archive_of es) t).

Lemma Complete_snapshot w f f' k : Complete w f -> (forall p, p <> snapshot_tmp k -> f' !! p = f !! p) -> Complete w f'.
Proof.
  intros (es & t & Ha & Hs & Ht) Hf. exists es, t. split_and!; [done|by eapply Same_snapshot|]. rewrite Hf; [done|]. apply apart.
Qed.

Lemma Snapped_write name content es k :
  hoare (Snapped es (snapshot_tmp k)) (write_entry (Write tmpPath) name content es)
    (fun r w f => r = es ++ [regular name content] /\ Snapped (es ++ [regular name content]) (snapshot_tmp k) w f) Same.
Proof.
  unfold write_entry. eapply (hoare_bind _ _ _ (fun _ => Snapped (es ++ [regular name content]) (snapshot_tmp k))); [|intros []; by apply hoare_ret].
  assert (Hne : snapshot_tmp k <> tmpPath) by (intros E; by eapply apart).
  apply hoare_call; [| |apply Snapped_Same].
  - intros w d n' [(Hw & Hs & t & Ht) Hb]. unfold append_to. rewrite Ht. cbn [file_Bytes set_files files]. split; [split_and!; [done| |]|].
    + apply Same_insert; [apply tmp_temporary|done].
    + eexists. rewrite lookup_insert_eq. by rewrite prefix_snoc.
    + by rewrite lookup_insert_ne.
  - intros w d written n' [(Hw & Hs & t & Ht) Hb]. unfold append_to. rewrite Ht. cbn [set_files files]. apply Same_insert; [apply tmp_temporary|done].
Qed.

Lemma hoare_WriteArchive : f0 !! spot_of root [] = None ->
  hoare (Writing tmpPath []) (WriteArchive root (Write tmpPath)) (fun _ => Complete) Same.
Proof.
  intros Hroot. unfold WriteArchive. eapply hoare_bind; [apply (hoare_lift _ _ (fun _ => Writing tmpPath [])); [done|apply Writing_Same]|]. intros [].
  eapply hoare_bind; [apply hoare_stageSnapshot|]. intros name. apply hoare_pure. intros [k ->].
  apply hoare_cleanup; [|intros stats; apply hoare_Remove_snapshot; intros w f f'; apply Complete_snapshot|apply hoare_Remove_snapshot; intros w f f'; apply Same_snapshot].
  eapply (hoare_bind _ _ _ (fun r w f => exists t, r = [manifest_entry t] /\ Snapped [manifest_entry t] (snapshot_tmp k) w f)).
  { unfold writeManifestEntry. eapply (hoare_bind _ _ _ (fun now w f => (exists call, now = io_clock call) /\ Snapped [] (snapshot_tmp k) w f)).
    { apply hoare_call; [|intros w d k' n'; apply Snapped_Same|apply Snapped_Same]. intros w d n' Hs. split; [by exists n'|exact Hs]. }
    intros now. apply hoare_pure. intros [call ->].
    eapply hoare_conseq; [apply Snapped_write|done| |done]. intros r w f [-> Hs]. by exists call. }
  intros done1 m (t & -> & Hm). revert m Hm.
  change (hoare (Snapped [manifest_entry t] (snapshot_tmp k)) (done ← writeDBEntry (Write tmpPath) (snapshot_tmp k) [manifest_entry t];
    '(done, stats) ← writeAttachmentsTree root (Write tmpPath) done; Write tmpPath (tar_close done);; mret stats) (fun _ => Complete) Same).
  eapply (hoare_bind _ _ _ (fun r w f => r = [manifest_entry t; database_entry] /\ Writing tmpPath [manifest_entry t; database_entry] w f)).
  { unfold writeDBEntry. eapply hoare_bind; [eapply hoare_conseq; [apply hoare_read_file|done|done|apply Snapped_Same]|]. intros content.
    intros m [[Hw Hb] Hc]. rewrite Hb in Hc. injection Hc as <-. revert m Hw Hb.
    enough (Hh : hoare (Snapped [manifest_entry t] (snapshot_tmp k)) (passing_call;; write_entry (Write tmpPath) DBEntryName (db_vacuum db0) [manifest_entry t])
      (fun r w f => r = [manifest_entry t; database_entry] /\ Writing tmpPath [manifest_entry t; database_entry] w f) Same)
      by (intros m Hw Hb; apply Hh; by split).
    eapply hoare_bind; [apply hoare_keeps; [done|apply Snapped_Same]|]. intros [].
    eapply hoare_conseq; [apply Snapped_write|done| |done]. intros r w f [-> [Hs _]]. by split. }
  intros done2. apply hoare_pure. intros ->.
  eapply hoare_bind; [by apply hoare_writeAttachmentsTree|]. intros [es stats] m (new & Hes & Hc & Hw). cbn in Hes. subst es. revert m Hw.
  enough (Hh : hoare (Writing tmpPath ([manifest_entry t; database_entry] ++ new))
    (Write tmpPath (tar_close ([manifest_entry t; database_entry] ++ new));; mret stats) (fun _ => Complete) Same) by exact Hh.
  eapply (hoare_bind _ _ _ (fun _ => Complete)); [|intros []; by apply hoare_ret].
  apply hoare_call; [| |apply Writing_Same].
  - intros w d n' (Hw & Hs & t' & Ht). unfold append_to. rewrite Ht. cbn [file_Bytes set_files files].
    exists ([manifest_entry t; database_entry] ++ new), (io_clock n'). split_and!; [by exists t, new|apply Same_insert; [apply tmp_temporary|done]|].
    rewrite lookup_insert_eq. unfold archive_of. by rewrite archive_prefix.
  - intros w d written n' (Hw & Hs & t' & Ht). unfold append_to. rewrite Ht. cbn [set_files files]. apply Same_insert; [apply tmp_temporary|done].
Qed.
End to_tmp.

(** ** The move to its place *)

Context (dest : string) (att_dir : f0 !! spot_of root [] = None).

(** The archive is there, and nothing else has changed. *)
Definition Done : assertion := fun _ f => exists es t, archived es /\ f !! dest = Some (mkFile (archive_of es) t) /\
  forall p, ~ temporary p -> p <> dest -> f !! p = f0 !! p.

Definition SameOrDone : assertion := fun w f => Same w f \/ Done w f.

Lemma hoare_move n : hoare (Complete n) (Rename (archive_tmp n) dest) (fun _ => Done) Same.
Proof.
  apply hoare_call; [|intros w d k' n' (es & t & _ & Hs & _); exact Hs|intros w f (es & t & _ & Hs & _); exact Hs].
  intros w d n' (es & t & Ha & Hs & Ht). unfold rename_file. rewrite Ht. destruct (negb _); [done|]. destruct (is_dir dest d); [done|].
  exists es, t. cbn [set_files files]. split_and!; [done|by rewrite lookup_insert_eq|]. intros p Hp Hd.
  rewrite lookup_insert_ne by done. rewrite lookup_delete_ne; [by apply Hs|]. intros <-. apply Hp. apply tmp_temporary.
Qed.

Lemma hoare_write_and_move :
  hoare (fun w f => wdb w = db0 /\ Same w f) (write_and_move root dir prefix dest) (fun _ => Done) SameOrDone.
Proof.
  assert (Hleft : entails Same SameOrDone) by (intros w f Hs; by left).
  unfold write_and_move.
  eapply (hoare_bind _ _ _ (fun tmpPath w f => exists n, tmpPath = archive_tmp n /\ Writing (archive_tmp n) [] w f)).
  { apply hoare_call; [|intros w d k' n' [_ Hs]; by left|intros w f [_ Hs]; by left]. intros w d k [Hw Hs]. cbv zeta.
    change (path_Join [dir; (prefix ++ FormatUint (io_random k mod 2 ^ 32) ++ ".tar.gz.tmp")%string]) with (archive_tmp (io_random k)).
    destruct (negb _); [by left|]. destruct (files d !! _); [by left|]. destruct (is_dir _ _); [by left|].
    exists (io_random k). split; [done|]. cbn [set_files files]. split_and!; [done|apply Same_insert; [apply tmp_temporary|done]|].
    exists (io_clock k). by rewrite lookup_insert_eq. }
  intros tmpPath m (n & -> & Hm). revert m Hm.
  change (hoare (Writing (archive_tmp n) []) (stats ← or_remove (archive_tmp n) (stats ← WriteArchive root (Write (archive_tmp n)); passing_call;;
    Rename (archive_tmp n) dest;; mret stats); fsyncDir dir;; mret stats) (fun _ => Done) SameOrDone).
  eapply (hoare_bind _ _ _ (fun _ => Done)).
  - eapply hoare_conseq; [apply (hoare_or_remove _ _ _ (fun _ => Done) Same)|done|done|exact Hleft].
    + eapply hoare_bind; [by apply hoare_WriteArchive|]. intros stats.
      assert (HC : entails (Complete n) Same) by (intros w f (es & t & _ & Hs & _); exact Hs).
      eapply hoare_bind; [by apply hoare_looks|]. intros [].
      eapply hoare_bind; [apply hoare_move|]. intros []. by apply hoare_ret.
    + apply hoare_call; [|done|done]. intros w d n' Hd.
      destruct (files d !! archive_tmp n); [|destruct (is_dir _ _); [destruct (empty_dir _ _)|]; exact Hd].
      cbn [set_files files]. apply Same_delete; [apply tmp_temporary|done].
  - intros stats. assert (HD : entails Done SameOrDone) by (intros w f Hd; by right).
    unfold fsyncDir. eapply (hoare_bind _ _ _ (fun _ => Done)).
    + eapply hoare_bind; [by apply hoare_looks|]. intros []. by apply hoare_looks.
    + intros []. by apply hoare_ret.
Qed.
End writing.

(** ** The theorem *)

Lemma join_last dir name : dir <> ""%string -> plain name = true -> last (Split (path_Join [dir; name]) "/") = Some name.
Proof.
  intros Hd Hn. rewrite path_Join_plain by (done || by constructor). rewrite Split_render.
  - rewrite app_assoc. apply last_snoc.
  - by destruct (segments dir).
  - apply Forall_app. split; [apply segments_free|by apply free_plain; constructor].
Qed.

Lemma render_ne rooted out : normal rooted out -> render rooted (rev out) <> ""%string.
Proof.
  intros (names & ups & -> & Hn & _) E.
  assert (Hne : Forall (fun s => s <> ""%string) (rev (names ++ replicate ups ".."%string))).
  { apply Forall_rev, Forall_app. split; [eapply Forall_impl; [exact Hn|]; intros s Hs; apply plain_facts in Hs; tauto|by apply Forall_replicate]. }
  destruct (rev _) as [|s segs]; [by destruct rooted|]. apply Forall_cons in Hne as [Hs _]. unfold render in E.
  destruct rooted; [done|]. destruct segs as [|s' segs]; cbn in E; [done|]. by destruct s.
Qed.

Lemma Dir_ne path : Dir path <> ""%string.
Proof.
  unfold Dir. pose proof (normal_clean path) as Hn. unfold segments. rewrite rev_involutive.
  destruct (clean_segments (IsAbs path) (Split path "/")) as [|name above] eqn:E.
  - rewrite Clean_render, E. apply (render_ne _ []), normal_nil.
  - apply render_ne. destruct Hn as (names & ups & Eq & Hp & Hu). destruct names as [|x names]; cbn in Eq.
    + destruct ups as [|ups]; [done|]. cbn in Eq. injection Eq as _ ->. exists [], ups. split_and!; [done|done|]. intros Hr. by specialize (Hu Hr).
    + injection Eq as _ ->. exists names, ups. apply Forall_cons in Hp as [_ Hp]. by split_and!.
Qed.

Definition archive_prefix_of (scheduled : bool) : string := if scheduled then ".hho-scheduled-backup-" else ".hho-backup-".
Definition write_to_file `{IO, Engine, Archives} (scheduled : bool) (root dest : string) : Prog Machine ArchiveStats :=
  if scheduled then writeArchiveAtomically root dest else writeArchiveToFile root dest.

Lemma tmp_name_plain scheduled n : plain (archive_prefix_of scheduled ++ FormatUint n ++ ".tar.gz.tmp") = true.
Proof. destruct scheduled; (apply plain_prefix; [done| |simpl; lia]); by rewrite contains_byte_app, FormatUint_plain. Qed.

Lemma tmp_apart scheduled root dest n k : archive_tmp (Dir dest) (archive_prefix_of scheduled) n <> snapshot_tmp root k.
Proof.
  intros E. apply (f_equal (fun s => last (Split s "/"))) in E. unfold archive_tmp, snapshot_tmp in E.
  rewrite join_last in E; [|apply Dir_ne|apply tmp_name_plain].
  rewrite (place_split root [_; _]) in E; [|done|]; [|by repeat constructor; apply snapshot_plain].
  rewrite app_assoc in E. change [TmpSubdir; ?x] with ([TmpSubdir] ++ [x]) in E. rewrite app_assoc, last_snoc in E.
  by destruct scheduled.
Qed.

Lemma att_apart_of scheduled root dest :
  (forall names n, Forall (fun n => plain n = true) names -> archive_tmp (Dir dest) (archive_prefix_of scheduled) n <> spot_of root names) ->
  forall names, Forall (fun n => plain n = true) names -> ~ temporary root (Dir dest) (archive_prefix_of scheduled) (spot_of root names).
Proof.
  intros Ha names Hn [[n E]|[n E]]; [by apply (Ha names n)|].
  assert (Ht : top root TmpSubdir (spot_of root names)) by (rewrite E; apply top_place).
  assert (Hx : TmpSubdir = AttachmentsSubdir) by (eapply (top_one root); [| |exact Ht|apply top_place]; done). done.
Qed.

(** What a run of either leaves. *)
Lemma write_to_file_hoare `{IO, Engine, Archives} scheduled root dest m :
  root <> ""%string -> files (mc_disk m) !! spot_of root [] = None ->
  (forall names n, Forall (fun n => plain n = true) names -> archive_tmp (Dir dest) (archive_prefix_of scheduled) n <> spot_of root names) ->
  match write_to_file scheduled root dest m with
  | (Ok _, m') => holds (Done root (wdb (mc_world m)) (files (mc_disk m)) (Dir dest) (archive_prefix_of scheduled) dest) m'
  | (Err _, m') => holds (SameOrDone root (wdb (mc_world m)) (files (mc_disk m)) (Dir dest) (archive_prefix_of scheduled) dest) m'
  end.
Proof.
  intros Hroot Hatt Hapart.
  pose proof (hoare_write_and_move root Hroot (wdb (mc_world m)) (files (mc_disk m)) (Dir dest) (archive_prefix_of scheduled)
    (att_apart_of scheduled root dest Hapart) (tmp_apart scheduled root dest) dest Hatt) as Hmove.
  assert (Hrun : hoare (fun w f => wdb w = wdb (mc_world m) /\ Same root (files (mc_disk m)) (Dir dest) (archive_prefix_of scheduled) w f)
    (write_to_file scheduled root dest)
    (fun _ => Done root (wdb (mc_world m)) (files (mc_disk m)) (Dir dest) (archive_prefix_of scheduled) dest)
    (SameOrDone root (wdb (mc_world m)) (files (mc_disk m)) (Dir dest) (archive_prefix_of scheduled) dest)).
  { destruct scheduled; [exact Hmove|]. unfold write_to_file, writeArchiveToFile.
    eapply (hoare_bind _ _ _ (fun _ w f => wdb w = wdb (mc_world m) /\ Same root (files (mc_disk m)) (Dir dest) (archive_prefix_of false) w f)); [|intros []; exact Hmove].
    apply hoare_looks; [intros n d; by case_match|]. intros w f [_ Hs]. by left. }
  exact (Hrun m (conj eq_refl (fun p _ => eq_refl))).
Qed.

(** C12: an archive in a file is whole.  Whichever calls fail and wherever the
    process stops, on a schedule or by the command: the file of the archive is
    as it was before, or it is the archive with the manifest, the snapshot of
    the database and one entry for every file of the attachments with its
    bytes; when the backup reports success it is the latter.  No file changes
    but this one and the temporary ones. *)
Theorem archives_written_whole `{IO, Engine, Archives} scheduled root dest m :
  root <> ""%string -> files (mc_disk m) !! spot_of root [] = None ->
  ~ temporary root (Dir dest) (archive_prefix_of scheduled) dest ->
  (forall names n, Forall (fun n => plain n = true) names -> archive_tmp (Dir dest) (archive_prefix_of scheduled) n <> spot_of root names) ->
  let before := files (mc_disk m) in
  let run := write_to_file scheduled root dest m in
  let after := files (mc_disk run.2) in
  (forall p, ~ temporary root (Dir dest) (archive_prefix_of scheduled) p -> p <> dest -> after !! p = before !! p) /\
  ((exists entries t, archived root (wdb (mc_world m)) before entries /\ after !! dest = Some (mkFile (archive_of entries) t)) \/
   after !! dest = before !! dest /\ exists e, run.1 = Err e).
Proof.
  intros Hroot Hatt Hdest Hapart. cbv zeta. pose proof (write_to_file_hoare scheduled root dest m Hroot Hatt Hapart) as Hrun.
  destruct (write_to_file scheduled root dest m) as [[stats|e] m']; cbn [fst snd].
  - destruct Hrun as (es & t & Ha & Ht & Hs). split; [done|]. left. by exists es, t.
  - destruct Hrun as [Hs|(es & t & Ha & Ht & Hs)]; (split; [intros p Hp Hd|]); [by apply Hs|right; split; [by apply Hs|by exists e]|by apply Hs|left; by exists es, t].
Qed.

(** ** An example *)

Lemma head_char x a b c rest : (String x a ++ b)%string = String c rest -> c = x.
Proof. intros E. by injection E. Qed.

Lemma not_temporary scheduled root dest c rest :
  last (Split dest "/") = Some (String c rest) -> c <> "."%char -> c <> "s"%char ->
  ~ temporary root (Dir dest) (archive_prefix_of scheduled) dest.
Proof.
  intros Hlast Hdot Hs [[n E]|[n E]]; rewrite E in Hlast.
  - unfold archive_tmp in Hlast. rewrite join_last in Hlast; [|apply Dir_ne|apply tmp_name_plain].
    injection Hlast as Hname. apply Hdot. destruct scheduled; exact (head_char _ _ _ _ _ Hname).
  - unfold snapshot_tmp in Hlast. rewrite (place_split root [_; _]) in Hlast; [|done|by repeat constructor; apply snapshot_plain].
    rewrite app_assoc in Hlast. change [TmpSubdir; ?x] with ([TmpSubdir] ++ [x]) in Hlast. rewrite app_assoc, last_snoc in Hlast.
    injection Hlast as Hname _. by apply Hs.
Qed.

Lemma archives_in_backups root n names : root <> ""%string -> Forall (fun n => plain n = true) names ->
  archive_tmp (place_of root [BackupsSubdir]) (archive_prefix_of true) n <> spot_of root names.
Proof.
  intros Hroot Hn E. unfold archive_tmp in E. rewrite (join_in root [BackupsSubdir]) in E; [|done|by repeat constructor|apply tmp_name_plain].
  assert (Ht : top root BackupsSubdir (spot_of root names)) by (rewrite <- E; apply top_place).
  assert (Hx : BackupsSubdir = AttachmentsSubdir) by (eapply (top_one root); [| |exact Ht|apply top_place]; done). done.
Qed.

Lemma archives_written_whole_witness :
  let io := all_succeed in let engine := demo_engine demo_db0 in let archives := simple_archives in
  let run := writeArchiveAtomically "data" "data/backups/b.tar.gz" household in
  run.1 = Ok (mkStats 1 7 0) /\
  exists entries t, archived "data" demo_db0 (files (mc_disk household)) entries /\
     files (mc_disk run.2) !! "data/backups/b.tar.gz"%string = Some (mkFile (archive_of entries) t).
Proof.
  intros io engine archives run. assert (Hok : run.1 = Ok (mkStats 1 7 0)) by (vm_compute; reflexivity). split; [exact Hok|].
  destruct (archives_written_whole true "data" "data/backups/b.tar.gz" household) as [_ [Hdone|[_ [e He]]]].
  - discriminate.
  - vm_compute. reflexivity.
  - by apply (not_temporary true "data" _ "b" ".tar.gz").
  - intros names n Hn. by apply (archives_in_backups "data").
  - exact Hdone.
  - exfalso. change (run.1 = Err e) in He. rewrite Hok in He. discriminate He.
Defined.

(** The bytes of one. *)
Example archive_made :
  let io := all_succeed in let engine := demo_engine demo_db0 in let archives := simple_archives in
  file_Bytes <$> files (mc_disk (writeArchiveAtomically "data" "data/backups/b.tar.gz" household).2) !! "data/backups/b.tar.gz"%string =
  Some (archive_of [regular "manifest.json" (simple_Marshal (mkManifest 1 1789009459000 5)); regular "db/hho.db" "image";
                    regular "attachments/g1/a" "picture"]).
Proof. vm_compute. reflexivity. Qed.

#[local] Open Scope string_scope.

(** A file of the schedule, with the time in its name. *)
Definition archive_in (dir : string) (f : gmap string File) (c : string * Z) : Prop :=
  plain c.1 = true /\ scheduledBackupTimestamp c.1 = Some c.2 /\ is_Some (f !! (dir ++ "/" ++ c.1)).

Lemma elem_candidates dir d c : c ∈ candidates (entries dir d) <-> archive_in dir (files d) c.
Proof.
  unfold candidates, archive_in. rewrite list_elem_of_omap. destruct c as [n t]. cbn [fst snd]. split.
  - intros ([name isDir] & He%elem_entries & Hc). cbn [entry_Name entry_IsDir] in He, Hc. destruct isDir; [done|].
    destruct (scheduledBackupTimestamp name) eqn:E; cbn [mbind option_bind] in Hc; [|done]. injection Hc as -> ->. tauto.
  - intros (Hp & Ht & Hf). exists (mkEntry n false). split; [by apply elem_entries|]. cbn [entry_Name entry_IsDir]. by rewrite Ht.
Qed.

Lemma candidates_NoDup dir d : NoDup (candidates (entries dir d)).
Proof.
  unfold candidates. apply NoDup_omap_inj; [|apply entries_NoDup]. intros [n b] [n' b'] c. cbn [entry_Name entry_IsDir].
  destruct b; [done|]. destruct b'; [done|]. destruct (scheduledBackupTimestamp n); cbn [mbind option_bind]; [|done]. intros [= <-].
  destruct (scheduledBackupTimestamp n'); cbn [mbind option_bind]; [|done]. by intros [= -> _].
Qed.

(** ** The time in the name *)

Lemma clock_range t : let s := (t mod day_ns / second_ns)%Z in
  (0 <= s / 3600 <= 23)%Z /\ (0 <= s / 60 mod 60 <= 59)%Z /\ (0 <= s mod 60 <= 59)%Z /\
  ((s / 3600 * 60 + s / 60 mod 60) * 60 + s mod 60 = s)%Z.
Proof. unfold day_ns, second_ns. Z.to_euclidean_division_equations. lia. Qed.

Lemma whole_seconds t : (t / day_ns * day_ns + t mod day_ns / second_ns * second_ns = t - t mod second_ns)%Z.
Proof. unfold day_ns, second_ns. Z.to_euclidean_division_equations. lia. Qed.

Lemma parse_timestamp_of t : year4 (date_at t) -> parse_timestamp (timestamp t) = Some (t - t mod second_ns)%Z.
Proof.
  intros Hy. unfold timestamp. destruct (day_number_civil (t / day_ns + epoch_day)) as [Hv Hn]. fold (date_at t) in Hv, Hn.
  destruct (valid_date_bounds _ Hv) as (Hm & Hd & Hd'). destruct (clock_range t) as (Hh & Hmin & Hsec & Hs).
  set (s := (t mod day_ns / second_ns)%Z) in *.
  assert (Hf : format_year (date_Year (date_at t)) = four_digits (date_Year (date_at t))).
  { unfold format_year, four_or_more. unfold year4 in Hy. by rewrite (proj2 (Z.ltb_ge _ _)), (proj2 (Z.leb_le _ _)) by lia. }
  rewrite Hf. unfold parse_timestamp. rewrite take_four by exact Hy. cbn [mbind option_bind].
  rewrite take_two by lia. cbn [mbind option_bind]. rewrite take_two by lia. cbn [mbind option_bind].
  rewrite string_cons_app. cbn [take_byte Ascii.eqb Bool.eqb mbind option_bind].
  do 3 (change ("" ++ ?x) with x; rewrite take_two by lia; cbn [mbind option_bind]).
  cbn [take_fraction Ascii.eqb Bool.eqb orb take_byte mbind option_bind String.eqb negb].
  replace (mkDate _ _ _) with (date_at t) by (by destruct (date_at t)). rewrite Hv, Hn, Hs. cbn [negb orb].
  rewrite !(proj2 (Z.ltb_ge _ _)) by lia. cbn [orb]. f_equal. rewrite <- (whole_seconds t). fold s. lia.
Qed.

Lemma strip_suffix_app suffix a : strip_suffix suffix (a ++ suffix) = Some a.
Proof.
  assert (Hlen : forall s, String.length s <> String.length suffix -> (s =?s suffix) = false).
  { intros s Hs. apply string_eqb_false. intros ->. done. }
  induction a as [|c a IH].
  - change ("" ++ suffix) with suffix. destruct suffix; cbn [strip_suffix]; by rewrite string_eqb_refl.
  - rewrite string_cons_app. cbn [strip_suffix]. rewrite Hlen, IH; [done|].
    cbn [String.length]. rewrite string_length_app. lia.
Qed.

Lemma archive_name_time t : year4 (date_at t) -> scheduledBackupTimestamp (ScheduledBackupFilename t) = Some (t - t mod second_ns)%Z.
Proof.
  intros Hy. unfold scheduledBackupTimestamp, ScheduledBackupFilename. rewrite strip_prefix_app. cbn [mbind option_bind].
  rewrite strip_suffix_app. cbn [mbind option_bind]. by apply parse_timestamp_of.
Qed.

(** ** Sorted lists cut in two *)

Lemma Sorted_cut {A} (f : A -> Z) l k x y :
  Sorted (fun a b => f a <= f b)%Z l -> x ∈ take k l -> y ∈ drop k l -> (f x <= f y)%Z.
Proof.
  intros Hs%Sorted_StronglySorted; [|intros a b c; lia]. rewrite <- (take_drop k l) in Hs. apply StronglySorted_app in Hs as (Hs & _ & _).
  intros Hx Hy. by apply (Hs x y).
Qed.

(** ** What a removal does *)

Section removing.
Context `{IO} (dir : string).

(** Files go, and no others than these. *)
Definition loses (paths : list string) (m m' : Machine) : Prop := forall p,
  files (mc_disk m') !! p = files (mc_disk m) !! p \/ p ∈ paths /\ files (mc_disk m') !! p = None.

#[export] Instance loses_preorder paths : PreOrder (loses paths).
Proof.
  split; [by left|]. intros a b c Hab Hbc p. destruct (Hbc p) as [->|Hp]; [|by right]. apply Hab.
Qed.

Lemma loses_looks {A} paths (run : nat -> Disk -> res A * Disk) : (forall n d, files (run n d).2 = files d) ->
  does (loses paths) (fun _ => True) (plain_call run).
Proof. intros Hr. apply does_call; [apply _| |by left|by left]. intros m n. split; [|done]. left. cbn [mc_disk]. by rewrite Hr. Qed.

Lemma loses_Remove paths path : path ∈ paths -> does (loses paths) (fun _ => True) (Remove path).
Proof.
  intros Hp. apply does_call; [apply _| |by left|by left]. intros m n. split; [|done]. intros p. cbn [mc_disk].
  destruct (files (mc_disk m) !! path) as [x|]; [|left; by repeat case_match]. cbn [snd set_files files].
  destruct (decide (p = path)) as [->|Hne]; [right; by rewrite lookup_delete_eq|left; by rewrite lookup_delete_ne].
Qed.

Lemma loses_fold_each {A B} paths (f : B -> A -> Prog Machine A) l a :
  (forall x a, x ∈ l -> does (loses paths) (fun _ => True) (f x a)) -> does (loses paths) (fun _ => True) (fold_each l f a).
Proof.
  revert a. induction l as [|x l IH]; intros a Hf; cbn [fold_each]; [apply does_ret; [apply _|done]|].
  eapply does_bind; [apply _|apply Hf; by left|]. intros a' _. apply IH. intros y b Hy. apply Hf. by right.
Qed.

Lemma loses_prune (l : list (string * Z)) acc : does (loses ((fun c => path_Join [dir; c.1]) <$> l)) (fun _ => True) (fold_each l (prune_one dir) acc).
Proof.
  apply loses_fold_each. intros c a Hc. unfold prune_one.
  eapply does_bind; [apply _|apply does_try, loses_Remove; apply list_elem_of_fmap; by exists c|]. intros r _. apply does_ret; [apply _|done].
Qed.

Lemma prune_one_removes (succeeds : forall n, io_outcome n = Succeeds) c acc m x :
  mc_up m = true -> files (mc_disk m) !! path_Join [dir; c.1] = Some x ->
  exists m', prune_one dir c acc m = (Ok ((acc.1 + 1)%Z, acc.2), m') /\ mc_up m' = true /\
    files (mc_disk m') = delete (path_Join [dir; c.1]) (files (mc_disk m)).
Proof.
  intros Hup Hx. unfold prune_one. cbv [try mret prog_ret mbind prog_bind Remove plain_call call].
  rewrite Hup, succeeds, Hx. by eexists.
Qed.

(** When no call fails, all of them go. *)
Lemma prune_all (succeeds : forall n, io_outcome n = Succeeds) (l : list (string * Z)) acc m :
  mc_up m = true -> NoDup ((fun c => path_Join [dir; c.1]) <$> l) ->
  Forall (fun c => is_Some (files (mc_disk m) !! path_Join [dir; c.1])) l ->
  let run := fold_each l (prune_one dir) acc m in
  run.1 = Ok ((acc.1 + Z.of_nat (length l))%Z, acc.2) /\
  Forall (fun c => files (mc_disk run.2) !! path_Join [dir; c.1] = None) l.
Proof.
  revert acc m. induction l as [|c l IH]; intros acc m Hup Hnd Hl; cbn [fold_each].
  { split; [|constructor]. cbn. rewrite Z.add_0_r. by destruct acc. }
  apply Forall_cons in Hl as [[x Hx] Hl]. apply NoDup_cons in Hnd as [Hc Hnd].
  destruct (prune_one_removes succeeds c acc m x Hup Hx) as (m1 & E & Hup1 & Hf). cbv zeta. unfold mbind, prog_bind. rewrite E.
  assert (Hl1 : Forall (fun c => is_Some (files (mc_disk m1) !! path_Join [dir; c.1])) l).
  { rewrite Hf. apply Forall_forall. intros c' Hc'. rewrite Forall_forall in Hl. rewrite lookup_delete_ne; [by apply Hl|].
    intros Ec. apply Hc. rewrite Ec. apply list_elem_of_fmap. by exists c'. }
  destruct (IH ((acc.1 + 1)%Z, acc.2) m1 Hup1 Hnd Hl1) as [Hr Hgone]. split.
  - rewrite Hr. cbn [fst snd length]. do 2 f_equal. lia.
  - constructor; [|exact Hgone].
    destruct (loses_prune l ((acc.1 + 1)%Z, acc.2) m1) as [Hloses _]. destruct (Hloses (path_Join [dir; c.1])) as [->|[_ Hn]]; [|done].
    by rewrite Hf, lookup_delete_eq.
Qed.
End removing.

(** ** The schedule *)

Section schedule.
Context `{IO, SortByLaws} (root : string) (root_given : root <> "").

Let dir := place_of root [BackupsSubdir].

Lemma backups_dir : path_Join [root; BackupsSubdir] = dir.
Proof. by apply join_top. Qed.

Lemma archive_path n : plain n = true -> path_Join [dir; n] = dir ++ "/" ++ n.
Proof. intros Hn. rewrite (join_in root [BackupsSubdir]) by (done || by repeat constructor). by apply (place_prefix root [BackupsSubdir]). Qed.

Lemma archive_paths f (l : list (string * Z)) : (forall c, c ∈ l -> archive_in dir f c) ->
  (fun c => path_Join [dir; c.1]) <$> l = (fun c => dir ++ "/" ++ c.1) <$> l.
Proof. intros Hl. apply list_fmap_ext. intros i c Hc. apply archive_path. by apply list_elem_of_lookup_2, Hl in Hc as [? _]. Qed.

Lemma archive_names f l : NoDup l -> (forall c, c ∈ l -> archive_in dir f c) -> NoDup ((fun c => path_Join [dir; c.1]) <$> l).
Proof.
  intros Hnd Hl. rewrite (archive_paths f l Hl). clear - Hnd Hl. induction l as [|c l IH]; [constructor|].
  apply NoDup_cons in Hnd as [Hc Hnd]. cbn. constructor; [|apply IH; [done|intros c' Hc'; apply Hl; by right]].
  intros (c' & E & Hc')%list_elem_of_fmap. do 2 apply string_app_inj_r in E. apply Hc.
  destruct (Hl c ltac:(by left)) as (_ & Ht & _), (Hl c' ltac:(by right)) as (_ & Ht' & _).
  rewrite E, Ht' in Ht. injection Ht as Ht. destruct c, c'. cbn in E, Ht. by subst.
Qed.

(** The archives that go. *)
Definition excess (retain : Z) (d : Disk) : list (string * Z) :=
  let cs := candidates (entries dir d) in take (length cs - Z.to_nat retain) (sort_by snd cs).

Lemma excess_in retain d c : c ∈ excess retain d -> archive_in dir (files d) c.
Proof.
  unfold excess. intros Hc. apply elem_candidates. rewrite <- (sort_by_Permutation snd).
  rewrite <- (take_drop (length (candidates (entries dir d)) - Z.to_nat retain)). apply elem_of_app. by left.
Qed.

Lemma few_excess retain d : (0 < retain)%Z ->
  (Z.of_nat (length (candidates (entries dir d))) <=? retain)%Z = true -> excess retain d = [].
Proof.
  intros Hr Hle%Z.leb_le. unfold excess. by replace (length _ - Z.to_nat retain)%nat with 0%nat by lia.
Qed.

Lemma prune_loses retain m :
  loses ((fun c => path_Join [dir; c.1]) <$> excess retain (mc_disk m)) m (pruneScheduledBackups (path_Join [root; BackupsSubdir]) retain m).2.
Proof.
  rewrite backups_dir. set (paths := fmap _ _). unfold pruneScheduledBackups, try, mbind, prog_bind.
  assert (Hlook : loses paths m (ReadDir dir m).2) by (apply (loses_looks paths); intros n d; by case_match).
  destruct (ReadDir dir m) as [[es|e] m1] eqn:E; [|exact Hlook]. cbn [snd] in Hlook.
  unfold ReadDir in E. apply plain_call_ran in E; [|done..]. destruct (is_dir dir (mc_disk m)); [|done]. injection E as <- Hd.
  destruct (_ <=? retain)%Z; [exact Hlook|]. etrans; [exact Hlook|]. apply loses_prune.
Qed.

Lemma prune_runs (succeeds : forall n, io_outcome n = Succeeds) retain m :
  (0 < retain)%Z -> mc_up m = true -> is_dir dir (mc_disk m) = true ->
  let run := pruneScheduledBackups (path_Join [root; BackupsSubdir]) retain m in
  run.1 = Ok (Z.of_nat (length (excess retain (mc_disk m))), []) /\
  Forall (fun c => files (mc_disk run.2) !! path_Join [dir; c.1] = None) (excess retain (mc_disk m)).
Proof.
  intros Hr Hup Hdir. rewrite backups_dir. unfold pruneScheduledBackups, try, mbind, prog_bind.
  assert (E : ReadDir dir m = (Ok (entries dir (mc_disk m)), mkMachine (mc_world m) (mc_disk m) true (S (mc_calls m)))).
  { cbv [ReadDir plain_call call]. by rewrite Hup, succeeds, Hdir. }
  rewrite E. destruct (_ <=? retain)%Z eqn:El; [by rewrite few_excess|].
  apply (prune_all dir succeeds (excess retain (mc_disk m)) (0%Z, [])); [done| |].
  - apply (archive_names (files (mc_disk m))); [|by apply excess_in].
    pose proof (candidates_NoDup dir (mc_disk m)) as Hnd. rewrite <- (sort_by_Permutation snd) in Hnd.
    rewrite <- (take_drop (length (candidates (entries dir (mc_disk m))) - Z.to_nat retain)) in Hnd. by apply NoDup_app in Hnd as [Hnd _].
  - apply Forall_forall. intros c (Hp & _ & Hf)%excess_in. cbn [mc_disk]. by rewrite archive_path.
Qed.

(** C13: what the schedule keeps.  The archives of the schedule are cut into
    older and newer ones, where [retain] are newer, or all when there are not
    more.  Whichever calls fail, only the older ones can go: every other file,
    the newer archives among them, stays as it is.  When no call fails all the
    older ones go, and that is what is reported.  An archive is dated by the
    time, to the second, at which the schedule named it. *)
Theorem newest_archives_kept retain m :
  (0 < retain)%Z ->
  let run := pruneScheduledBackups (path_Join [root; BackupsSubdir]) retain m in
  let before := files (mc_disk m) in
  let after := files (mc_disk run.2) in
  exists older newer archives : list (string * Z),
    archives = (older ++ newer)%list /\ NoDup archives /\ (forall c, c ∈ archives <-> archive_in dir before c) /\
    Z.of_nat (length newer) = Z.min retain (Z.of_nat (length archives)) /\
    (forall o n, o ∈ older -> n ∈ newer -> (o.2 <= n.2)%Z) /\
    (forall p, after !! p = before !! p \/ (exists o, o ∈ older /\ p = dir ++ "/" ++ o.1) /\ after !! p = None) /\
    ((forall n, io_outcome n = Succeeds) -> mc_up m = true -> is_dir dir (mc_disk m) = true ->
       run.1 = Ok (Z.of_nat (length older), []) /\ forall o, o ∈ older -> after !! (dir ++ "/" ++ o.1) = None) /\
    (forall now, year4 (date_at now) -> scheduledBackupTimestamp (ScheduledBackupFilename now) = Some (now - now mod second_ns)%Z).
Proof.
  intros Hretain run before after. set (cs := candidates (entries dir (mc_disk m))).
  set (k := (length cs - Z.to_nat retain)%nat). pose proof (sort_by_Permutation snd cs) as Hperm. pose proof (sort_by_Sorted snd cs) as Hsort.
  exists (excess retain (mc_disk m)), (drop k (sort_by snd cs)), (sort_by snd cs). split_and!.
  - unfold excess. by rewrite take_drop.
  - rewrite Hperm. apply candidates_NoDup.
  - intros c. rewrite Hperm. apply elem_candidates.
  - rewrite length_drop, Hperm. lia.
  - intros o n. by apply Sorted_cut.
  - intros p. destruct (prune_loses retain m p) as [Hp|[Hp Hnone]]; [by left|]. right. split; [|done].
    rewrite (archive_paths before) in Hp by apply excess_in. apply list_elem_of_fmap in Hp as (o & -> & Ho). by exists o.
  - intros Hsucc Hup Hdir. destruct (prune_runs Hsucc retain m Hretain Hup Hdir) as [Hr Hgone]. split; [done|].
    intros o Ho. rewrite <- archive_path by (by apply excess_in in Ho as [? _]). rewrite Forall_forall in Hgone. by apply Hgone.
  - apply archive_name_time.
Qed.
End schedule.

(** ** An example *)

(** Three archives and two other files. *)
Definition backups : Machine := machine_with demo_w0
  {[ "data/backups/hho-scheduled-backup-20260101T000000Z.tar.gz" := file "1";
     "data/backups/hho-scheduled-backup-20251231T235959Z.tar.gz" := file "2";
     "data/backups/hho-scheduled-backup-20260102T000000Z.tar.gz" := file "3";
     "data/backups/hho-scheduled-backup-20260230T000000Z.tar.gz" := file "4";
     "data/backups/keep.tar.gz" := file "5" ]} {[ "data"; "data/backups" ]}.

Lemma newest_archives_kept_witness :
  let io := all_succeed in
  let run := pruneScheduledBackups (path_Join ["data"; BackupsSubdir]) 1 backups in
  files_of run.2 =
    [("data/backups/keep.tar.gz", "5"); ("data/backups/hho-scheduled-backup-20260102T000000Z.tar.gz", "3");
     ("data/backups/hho-scheduled-backup-20260230T000000Z.tar.gz", "4")] /\
  exists older newer archives : list (string * Z),
    archives = (older ++ newer)%list /\ length newer = 1%nat /\ run.1 = Ok (Z.of_nat (length older), []) /\
    forall o, o ∈ older -> files (mc_disk run.2) !! ("data/backups/" ++ o.1) = None.
Proof.
  intros io run. split; [vm_compute; reflexivity|].
  destruct (newest_archives_kept "data" ltac:(done) 1 backups ltac:(done)) as (older & newer & archives & Hc & Hnd & Hin & Hlen & _ & _ & Hrun & _).
  destruct Hrun as [Hr Hgone]; [done|done|vm_compute; reflexivity|].
  exists older, newer, archives. split_and!; [exact Hc| |exact Hr|exact Hgone].
  assert (Hne : (length archives <> 0)%nat).
  { intros Hz%length_zero_iff_nil. apply (not_elem_of_nil (A := string * Z) ("hho-scheduled-backup-20260102T000000Z.tar.gz", 1767312000000000000%Z)).
    rewrite <- Hz. apply Hin. split_and!; [done|vm_compute; reflexivity|]. vm_compute. by eexists. }
  lia.
Defined.
