(* ===== verification/BackupRoundTrip.v ===== *)
(** * A backup that is restored

    When no call fails, an archive that a backup made is restored into an
    empty data directory: the database reads the same, and every file of the
    attachments has the bytes it had. *)

From S2P Require Import Prelude GoBase Schema Sql Demo Strconv Escape Password HttpCore Paths Disk Attachments Effects.
From S2P Require Import AttachmentFiles Backup Restore DiskTreeFacts BackupDemo RestoreSafety ArchiveContents.
From Stdlib Require Import Strings.Ascii.

#[local] Open Scope string_scope.

(** ** When no call fails

    [yields P p Q]: from a disk with [P] the program ends with a value, and
    the disk is as [Q] says. *)

Section yields.
Context `{IO} (succeeds : forall n, io_outcome n = Succeeds).

Definition yields {A} (P : Disk -> Prop) (p : Prog Machine A) (Q : A -> Disk -> Prop) : Prop :=
  forall m, mc_up m = true -> P (mc_disk m) -> exists a m', p m = (Ok a, m') /\ mc_up m' = true /\ Q a (mc_disk m').

Lemma yields_conseq {A} (P P' : Disk -> Prop) (p : Prog Machine A) (Q Q' : A -> Disk -> Prop) :
  yields P' p Q' -> (forall d, P d -> P' d) -> (forall a d, Q' a d -> Q a d) -> yields P p Q.
Proof. intros Hp HP HQ m Hup Hm. destruct (Hp m Hup (HP _ Hm)) as (a & m' & E & Hup' & Hq). exists a, m'. eauto. Qed.

Lemma yields_ret {A} (P : Disk -> Prop) (a : A) (Q : A -> Disk -> Prop) : (forall d, P d -> Q a d) -> yields P (mret a) Q.
Proof. intros HQ m Hup Hm. exists a, m. eauto. Qed.

Lemma yields_lift {A} (P : Disk -> Prop) (a : A) r (Q : A -> Disk -> Prop) : r = Ok a -> (forall d, P d -> Q a d) -> yields P (lift r) Q.
Proof. intros -> HQ m Hup Hm. exists a, m. eauto. Qed.

Lemma yields_bind {A B} (P : Disk -> Prop) (p : Prog Machine A) (k : A -> Prog Machine B) Q Q' :
  yields P p Q -> (forall a, yields (Q a) (k a) Q') -> yields P (p ≫= k) Q'.
Proof.
  intros Hp Hk m Hup Hm. destruct (Hp m Hup Hm) as (a & m1 & E & Hup1 & Hq). unfold mbind, prog_bind. rewrite E. by apply Hk.
Qed.

Lemma yields_pure {A} (phi : Prop) (P : Disk -> Prop) (p : Prog Machine A) Q :
  (phi -> yields P p Q) -> yields (fun d => phi /\ P d) p Q.
Proof. intros Hp m Hup [Hphi Hm]. by apply Hp. Qed.

Lemma yields_call {A} (P : Disk -> Prop) run partial (Q : A -> Disk -> Prop) :
  (forall n d, P d -> exists a d', run n d = (Ok a, d') /\ Q a d') -> yields P (call run partial) Q.
Proof.
  intros Hrun m Hup Hm. unfold call. rewrite Hup, succeeds. destruct (Hrun (mc_calls m) (mc_disk m) Hm) as (a & d' & E & Hq).
  rewrite E. eexists a, _. split_and!; [done|done|exact Hq].
Qed.

Lemma yields_assoc {A B C} (P : Disk -> Prop) (p : Prog Machine A) (f : A -> Prog Machine B) (k : B -> Prog Machine C) Q :
  yields P ((p ≫= f) ≫= k) Q -> yields P (p ≫= fun a => f a ≫= k) Q.
Proof.
  intros Hp m Hup Hm. specialize (Hp m Hup Hm). unfold mbind, prog_bind in *. by destruct (p m) as [[a|e] m'].
Qed.

(** A call whose error is looked at. *)
Lemma yields_try_call {A} (P : Disk -> Prop) run partial (Q : res A -> Disk -> Prop) :
  (forall n d, P d -> Q (run n d).1 (run n d).2) -> yields P (try (call run partial)) Q.
Proof.
  intros Hrun m Hup Hm. unfold try, call. rewrite Hup, succeeds. specialize (Hrun (mc_calls m) (mc_disk m) Hm).
  destruct (run _ _) as [r d]. eexists r, _. split_and!; [done|done|exact Hrun].
Qed.

Lemma yields_try {A} (P : Disk -> Prop) (p : Prog Machine A) Q :
  yields P p Q -> yields P (try p) (fun r d => exists a, r = Ok a /\ Q a d).
Proof.
  intros Hp m Hup Hm. destruct (Hp m Hup Hm) as (a & m1 & E & Hup1 & Hq). unfold try. rewrite E. exists (Ok a), m1. eauto.
Qed.

Lemma yields_ok {A B} (r : res A) (P : A -> Disk -> Prop) (k : res A -> Prog Machine B) Q :
  (forall a, yields (P a) (k (Ok a)) Q) -> yields (fun d => exists a, r = Ok a /\ P a d) (k r) Q.
Proof. intros Hk m Hup (a & -> & Hd). by apply Hk. Qed.

Lemma yields_passing (P : Disk -> Prop) : yields P passing_call (fun _ => P).
Proof. apply yields_call. intros n d Hd. by exists tt, d. Qed.

Lemma yields_fsyncDir (P : Disk -> Prop) dir : yields P (fsyncDir dir) (fun _ => P).
Proof. eapply yields_bind; [apply yields_passing|]. intros []. apply yields_passing. Qed.

Lemma yields_finally {A} (P : Disk -> Prop) cleanup (p : Prog Machine A) Q Q' :
  yields P p Q -> (forall a, yields (Q a) cleanup (fun _ => Q' a)) -> yields P (finally cleanup p) Q'.
Proof.
  intros Hp Hc. eapply yields_bind; [by eapply yields_try|]. intros r m Hup (a & -> & Hm).
  eapply (yields_bind (Q a)); [eapply yields_try, Hc| |done|done].
  intros r'. apply (yields_lift _ a); [done|]. by intros d (u & _ & Hd).
Qed.
End yields.

(** ** What is in the data directory *)

Section view.
Context (root : string) (root_given : root <> "").

Definition good (names : list string) : Prop := names <> [] /\ Forall (fun n => plain n = true) names.
Definition inside (p : string) : Prop := exists n, plain n = true /\ top root n p.

(** The bytes of a file and whether a directory was made, by names. *)
Definition at_ (d : Disk) (names : list string) : option string := file_Bytes <$> files d !! place_of root names.
Definition made (d : Disk) (names : list string) : Prop := place_of root names ∈ dirs d.
#[export] Instance made_dec d names : Decision (made d names).
Proof. unfold made. apply _. Defined.

(** The directories on the way to the root. *)
Definition root_steps : list string := (fun k => render (IsAbs root) (take (S k) (segments root))) <$> seq 0 (length (segments root)).

(** What is there is there under names, and no file is in the way. *)
Record tidy (d : Disk) : Prop := mkTidy {
  tidy_place : forall p, inside p -> is_Some (files d !! p) \/ p ∈ dirs d -> exists names, good names /\ p = place_of root names;
  tidy_root : forall p, p ∈ root_steps -> files d !! p = None
}.

Lemma good_one n : plain n = true -> good [n].
Proof. intros Hn. split; [done|by constructor]. Qed.

Lemma good_app a b : good a -> Forall (fun n => plain n = true) b -> good (a ++ b)%list.
Proof. intros [Ha Fa] Fb. split; [by destruct a|by apply Forall_app]. Qed.

Lemma inside_place names : good names -> inside (place_of root names).
Proof. intros [Hne Hn]. destruct names as [|n names]; [done|]. apply Forall_cons in Hn as [Hn _]. exists n. split; [done|apply top_place]. Qed.

Lemma inside_under p q : inside p -> under p q = true -> inside q.
Proof. intros (n & Hn & Ht) Hu. exists n. split; [done|]. eapply at_or_under_trans; [exact Ht|by right]. Qed.

Lemma root_step_outside p : p ∈ root_steps -> ~ inside p.
Proof.
  unfold root_steps. intros (k & -> & Hk)%list_elem_of_fmap (n & Hn & Ht). apply elem_of_seq in Hk as [_ Hk]. cbn in Hk.
  apply top_split in Ht as [more E]; [|done..].
  rewrite Split_render in E; [|intros Hz; apply (f_equal length) in Hz; rewrite length_take in Hz; change (length []) with 0%nat in Hz; lia|].
  - apply app_inv_head in E. apply (f_equal length) in E. rewrite length_take, length_app in E. cbn [length] in E. lia.
  - apply Forall_take, segments_free.
Qed.

Lemma place_named names : good names -> exists n, plain n = true /\ last (Split (place_of root names) "/") = Some n.
Proof.
  intros [Hne Hn]. destruct names as [|n names] using rev_ind; [done|]. apply Forall_app in Hn as [Hn Hl].
  apply Forall_cons in Hl as [Hl _]. exists n. split; [done|].
  rewrite place_split by (done || (apply Forall_app; split; [done|by repeat constructor])). by rewrite !app_assoc, last_snoc.
Qed.

Lemma is_dir_made names d : made d names -> is_dir (place_of root names) d = true.
Proof. intros Hm. unfold is_dir. by rewrite bool_decide_eq_true_2. Qed.

Lemma under_good a b : good a -> good b -> under (place_of root a) (place_of root b) = true ->
  exists more, more <> [] /\ Forall (fun n => plain n = true) more /\ b = (a ++ more)%list.
Proof.
  intros [Ha Fa] [Hb Fb] Hu. destruct (under_place root a b Ha Hb Fa Fb Hu) as [more ->]. apply Forall_app in Fb as [_ Fm].
  exists more. split_and!; [|done|done]. intros ->. rewrite app_nil_r in Hu. apply under_spec in Hu as [rest E].
  apply (f_equal String.length) in E. rewrite !string_length_app in E. cbn in E. lia.
Qed.

(** Nothing is there. *)
Definition nothing_at (d : Disk) (names : list string) : Prop :=
  ~ made d names /\ forall more, more <> [] -> Forall (fun n => plain n = true) more ->
    at_ d (names ++ more)%list = None /\ ~ made d (names ++ more)%list.

Lemma is_dir_nothing names d : good names -> tidy d -> nothing_at d names -> is_dir (place_of root names) d = false.
Proof.
  intros Hg Ht [Hm Hno]. unfold is_dir. rewrite bool_decide_eq_false_2 by done.
  assert (He : empty_dir (place_of root names) d = true).
  { apply empty_dir_spec. intros p Hu. assert (Hi : inside p) by (eapply inside_under; [by apply inside_place|done]).
    destruct (decide (is_Some (files d !! p) \/ p ∈ dirs d)) as [Hp|Hp].
    - destruct (tidy_place d Ht p Hi Hp) as (names' & Hg' & ->). destruct (under_good names names') as (more & Hne & Hmore & ->); [done..|].
      destruct (Hno more Hne Hmore) as [Hf Hd]. split; [|exact Hd]. by apply fmap_None in Hf.
    - split; [|by intros ?; apply Hp; right]. destruct (files d !! p); [|done]. exfalso. apply Hp. left. by eexists. }
  rewrite He. cbn [negb orb]. apply orb_false_iff. destruct (place_named names Hg) as (n & Hn & Hlast).
  split; apply string_eqb_false; intros E; rewrite E in Hlast; by injection Hlast as <-.
Qed.

Lemma at_none_file d names : at_ d names = None <-> files d !! place_of root names = None.
Proof. unfold at_. apply fmap_None. Qed.

Lemma under_root names : segments root <> [] -> names <> [] -> under (place_of root []) (place_of root names) = true.
Proof.
  intros Hs. induction names as [|n names IH] using rev_ind; [done|]. intros _. destruct names as [|m names].
  - unfold place_of. rewrite app_nil_r. cbn [app]. rewrite render_snoc by done. apply under_in.
  - rewrite place_prefix by done. eapply under_trans; [by apply IH|apply under_in].
Qed.

(** The directory of the data itself. *)
Lemma root_is_dir d names : good names -> made d names -> is_dir (place_of root []) d = true.
Proof.
  intros [Hne Hn] Hm. unfold is_dir. destruct (segments root) as [|s segs] eqn:Es.
  - unfold place_of. rewrite Es. cbn [app render]. destruct (IsAbs root); by rewrite ?orb_true_r.
  - assert (Hu : under (place_of root []) (place_of root names) = true) by (apply under_root; [by rewrite Es|done]).
    assert (He : empty_dir (place_of root []) d = false).
    { apply not_true_is_false. intros He. rewrite empty_dir_spec in He. by apply He in Hu as [_ Hd]. }
    rewrite He. cbn [negb]. by rewrite orb_true_r.
Qed.

(** ** What the calls do to it *)

Definition steps (names : list string) : list (list string) := (fun k => take (S k) names) <$> seq 0 (length names).

Lemma elem_steps names x : x ∈ steps names <-> x <> [] /\ x `prefix_of` names.
Proof.
  unfold steps. rewrite list_elem_of_fmap. split.
  - intros (k & -> & Hk%elem_of_seq). split; [by destruct names; cbn in Hk; [lia|]|]. apply prefix_take.
  - intros [Hx [more ->]]. exists (length x - 1)%nat. replace (S (length x - 1)) with (length x) by (destruct x; cbn; [done|lia]).
    rewrite take_app_length. split; [done|]. apply elem_of_seq. rewrite length_app. destruct x; cbn [length]; [done|lia].
Qed.

Lemma good_step names x : good names -> x ∈ steps names -> good x.
Proof. intros [Hne Hn] [Hx [more ->]]%elem_steps. apply Forall_app in Hn as [Hn _]. done. Qed.

Lemma elem_upto names p : good names -> p ∈ upto (place_of root names) <-> p ∈ root_steps \/ exists x, x ∈ steps names /\ p = place_of root x.
Proof.
  intros [Hne Hn]. destruct (place_render root names Hne Hn) as [HA HS]. unfold upto, root_steps. rewrite HA, HS.
  rewrite !list_elem_of_fmap. setoid_rewrite elem_of_seq. rewrite length_app. split.
  - intros (k & -> & _ & Hk). destruct (decide (k < length (segments root))%nat) as [Hl|Hl].
    + left. exists k. rewrite take_app_le by lia. split; [done|lia].
    + right. exists (take (S (k - length (segments root))) names). split.
      * apply list_elem_of_fmap. exists (k - length (segments root))%nat. split; [done|]. apply elem_of_seq. lia.
      * unfold place_of. rewrite take_app_ge by lia. do 3 f_equal. lia.
  - intros [(k & -> & _ & Hk)|(x & (k & -> & Hk)%list_elem_of_fmap & ->)].
    + exists k. rewrite take_app_le by lia. split; [done|lia].
    + apply elem_of_seq in Hk. exists (k + length (segments root))%nat. unfold place_of. rewrite take_app_ge by lia.
      split; [do 3 f_equal; lia|lia].
Qed.

Section rules.
Context `{IO} (succeeds : forall n, io_outcome n = Succeeds).

Lemma yields_MkdirAll P Q names : good names ->
  (forall d, P d -> tidy d /\ forall x, x ∈ steps names -> at_ d x = None) ->
  (forall d d', P d -> tidy d' -> files d' = files d -> (forall x, good x -> made d' x <-> made d x \/ x ∈ steps names) -> Q tt d') ->
  yields P (MkdirAll (place_of root names)) Q.
Proof.
  intros Hg Hpre Hpost. apply yields_call; [done|]. intros n d Hd. destruct (Hpre d Hd) as [Ht Hno].
  assert (Hex : existsb (fun p => bool_decide (is_Some (files d !! p))) (upto (place_of root names)) = false).
  { apply not_true_is_false. intros (p & Hp & Hs)%existsb_exists. apply bool_decide_eq_true in Hs as [x Hx].
    apply list_elem_of_In, elem_upto in Hp as [Hp|(y & Hy & ->)]; [|by rewrite (proj1 (at_none_file d y) (Hno y Hy)) in Hx|done].
    by rewrite (tidy_root d Ht p Hp) in Hx. }
  rewrite Hex. eexists tt, _. split; [done|]. apply (Hpost d); [done| |done|].
  - constructor; cbn [files dirs]; [|apply Ht]. intros p Hi Hp. rewrite elem_of_union, elem_of_list_to_set, elem_upto in Hp by done.
    destruct Hp as [Hp|[[Hp|(x & Hx & ->)]|Hp]]; [by apply (tidy_place d Ht); [|left]|by destruct (root_step_outside p Hp)| |by apply (tidy_place d Ht); [|right]].
    exists x. split; [by apply (good_step names)|done].
  - intros x Hx. unfold made. cbn [dirs]. rewrite elem_of_union, elem_of_list_to_set, elem_upto by done. split.
    + intros [[Hp|(y & Hy & E)]|Hp]; [by destruct (root_step_outside _ Hp (inside_place x Hx))| |by left].
      right. pose proof (good_step names y Hg Hy) as [Hy1 Hy2]. destruct Hx. by apply place_inj in E as ->.
    + intros [Hp|Hp]; [by right|]. left. right. by exists x.
Qed.

(** One file changes. *)
Definition puts (d : Disk) (x : list string) (b : option string) (d' : Disk) : Prop :=
  tidy d' /\ (forall y, good y -> made d' y <-> made d y) /\ forall y, good y -> at_ d' y = if decide (y = x) then b else at_ d y.

Lemma puts_insert d x f : tidy d -> good x -> puts d x (Some (file_Bytes f)) (set_files (<[place_of root x := f]> (files d)) d).
Proof.
  intros Ht Hx. split_and!; [constructor| |].
  - intros p Hi Hp. cbn [set_files files dirs] in Hp. destruct (decide (p = place_of root x)) as [->|Hne]; [by exists x|].
    rewrite lookup_insert_ne in Hp by done. by apply (tidy_place d Ht).
  - intros p Hp. cbn [set_files files]. rewrite lookup_insert_ne; [by apply (tidy_root d Ht)|].
    intros <-. by destruct (root_step_outside _ Hp (inside_place x Hx)).
  - done.
  - intros y Hy. unfold at_. cbn [set_files files]. destruct (decide (y = x)) as [->|Hne]; [by rewrite lookup_insert_eq|].
    rewrite lookup_insert_ne; [done|]. intros E. apply place_inj in E; [done|apply Hx|apply Hy|apply Hx|apply Hy].
Qed.

Lemma puts_delete d x : tidy d -> good x -> puts d x None (set_files (delete (place_of root x) (files d)) d).
Proof.
  intros Ht Hx. split_and!; [constructor| |].
  - intros p Hi Hp. cbn [set_files files dirs] in Hp. destruct (decide (p = place_of root x)) as [->|Hne]; [by exists x|].
    rewrite lookup_delete_ne in Hp by done. by apply (tidy_place d Ht).
  - intros p Hp. cbn [set_files files]. apply lookup_delete_None. right. by apply (tidy_root d Ht).
  - done.
  - intros y Hy. unfold at_. cbn [set_files files]. destruct (decide (y = x)) as [->|Hne]; [by rewrite lookup_delete_eq|].
    rewrite lookup_delete_ne; [done|]. intros E. apply place_inj in E; [done|apply Hx|apply Hy|apply Hx|apply Hy].
Qed.

Definition vacant (d : Disk) (x : list string) : Prop := at_ d x = None /\ nothing_at d x.

Lemma vacant_looks d x : good x -> tidy d -> vacant d x -> files d !! place_of root x = None /\ is_dir (place_of root x) d = false.
Proof. intros Hg Ht [Hf Hn]. split; [by apply at_none_file|by apply is_dir_nothing]. Qed.

Lemma yields_CreateNew P Q up n : Forall (fun n => plain n = true) up -> plain n = true ->
  (forall d, P d -> tidy d /\ is_dir (place_of root up) d = true /\ vacant d (up ++ [n])%list) ->
  (forall d d', P d -> puts d (up ++ [n])%list (Some "") d' -> Q tt d') ->
  yields P (CreateNew (place_of root (up ++ [n])%list)) Q.
Proof.
  intros Hup Hn Hpre Hpost. apply yields_call; [done|]. intros k d Hd. destruct (Hpre d Hd) as (Ht & Hdir & Hv).
  assert (Hg : good (up ++ [n])%list) by (split; [by destruct up|apply Forall_app; by repeat constructor]).
  destruct (vacant_looks d _ Hg Ht Hv) as [Hf Hnd]. rewrite Dir_place, Hdir, Hf, Hnd by done. cbn [negb].
  eexists tt, _. split; [done|]. apply (Hpost d); [done|]. by apply (puts_insert d _ (mkFile "" (io_clock k))).
Qed.

Lemma yields_OpenOrCreate P Q up n : Forall (fun n => plain n = true) up -> plain n = true ->
  (forall d, P d -> tidy d /\ is_dir (place_of root up) d = true /\ vacant d (up ++ [n])%list) ->
  (forall d d', P d -> puts d (up ++ [n])%list (Some "") d' -> Q tt d') ->
  yields P (OpenOrCreate (place_of root (up ++ [n])%list)) Q.
Proof.
  intros Hup Hn Hpre Hpost. apply yields_call; [done|]. intros k d Hd. destruct (Hpre d Hd) as (Ht & Hdir & Hv).
  assert (Hg : good (up ++ [n])%list) by (split; [by destruct up|apply Forall_app; by repeat constructor]).
  destruct (vacant_looks d _ Hg Ht Hv) as [Hf Hnd]. rewrite Hf, Hnd, Dir_place, Hdir by done. cbn [negb].
  eexists tt, _. split; [done|]. apply (Hpost d); [done|]. by apply (puts_insert d _ (mkFile "" (io_clock k))).
Qed.

Lemma yields_Write P Q x bytes b : good x ->
  (forall d, P d -> tidy d /\ at_ d x = Some b) -> (forall d d', P d -> puts d x (Some (b ++ bytes)) d' -> Q tt d') ->
  yields P (Write (place_of root x) bytes) Q.
Proof.
  intros Hg Hpre Hpost. apply yields_call; [done|]. intros k d Hd. destruct (Hpre d Hd) as [Ht Hb]. unfold at_ in Hb.
  apply fmap_Some in Hb as (f & Hf & ->). unfold append_to. rewrite Hf. eexists tt, _. split; [done|].
  apply (Hpost d); [done|]. by apply (puts_insert d x (mkFile _ (io_clock k))).
Qed.

Definition numbered (prefix : string) (k : Z) : string := prefix ++ FormatUint k.

Lemma yields_MkdirTemp P Q up prefix : (forall k, plain (numbered prefix k) = true) -> good up ->
  (forall d, P d -> tidy d /\ is_dir (place_of root up) d = true /\ forall k, vacant d (up ++ [numbered prefix k])%list) ->
  (forall d d' k, let x := (up ++ [numbered prefix k])%list in
     P d -> tidy d' -> files d' = files d -> (forall y, good y -> made d' y <-> made d y \/ y = x) -> Q (place_of root x) d') ->
  yields P (MkdirTemp (place_of root up) prefix) Q.
Proof.
  intros Hplain Hup Hpre Hpost. apply yields_call; [done|]. intros n d Hd. destruct (Hpre d Hd) as (Ht & Hdir & Hv).
  set (k := (io_random n mod 2 ^ 32)%Z). specialize (Hv k). specialize (Hplain k). cbv zeta. fold (numbered prefix k).
  rewrite join_in by (done || apply Hup). set (x := (up ++ [numbered prefix k])%list) in *.
  assert (Hg : good x) by (apply good_app; [done|by repeat constructor]).
  destruct (vacant_looks d _ Hg Ht Hv) as [Hf Hnd]. rewrite Hdir, Hf, Hnd. cbn [negb]. eexists _, _. split; [done|].
  apply (Hpost d); [done| |done|].
  - constructor; cbn [files dirs]; [|apply Ht]. intros p Hi [Hp|Hp]; [by apply (tidy_place d Ht); [|left]|].
    apply elem_of_union in Hp as [->%elem_of_singleton|Hp]; [by exists x|]. by apply (tidy_place d Ht); [|right].
  - intros y Hy. unfold made. cbn [dirs]. rewrite elem_of_union, elem_of_singleton. split.
    + intros [E|Hm]; [right|by left]. apply place_inj in E; [done|apply Hy|apply Hg|apply Hy|apply Hg].
    + intros [Hm|E]; [by right|left]. by rewrite E.
Qed.

(** What is at or below some names. *)
Lemma at_or_under_good a b : good a -> good b -> at_or_under (place_of root a) (place_of root b) <-> a `prefix_of` b.
Proof.
  intros Ha Hb. split.
  - intros [E|Hu]; [apply place_inj in E as ->; [done|apply Hb|apply Ha|apply Hb|apply Ha]|].
    destruct (under_good a b Ha Hb Hu) as (more & _ & _ & ->). by exists more.
  - intros [more ->]. destruct more as [|n more]; [left; by rewrite app_nil_r|]. right. apply under_place_app; [apply Ha|done].
Qed.

Lemma yields_RemoveAll P Q x : good x ->
  (forall d d', P d -> (tidy d -> tidy d') ->
     (forall y, good y -> at_ d' y = if decide (x `prefix_of` y) then None else at_ d y) ->
     (forall y, good y -> made d' y <-> made d y /\ ~ x `prefix_of` y) -> Q tt d') ->
  yields P (RemoveAll (place_of root x)) Q.
Proof.
  intros Hg Hpost. apply yields_call; [done|]. intros n d Hd. eexists tt, _. split; [done|].
  assert (Hkeep : forall y, good y -> keep_outside (place_of root x) (place_of root y) = true <-> ~ x `prefix_of` y).
  { intros y Hy. by rewrite keep_outside_spec, at_or_under_good. }
  apply (Hpost d); [done| | |].
  - intros Ht. constructor; cbn [files dirs].
    + intros p Hi Hp. apply (tidy_place d Ht p Hi). destruct Hp as [[f Hf]|Hp].
      * apply map_lookup_filter_Some in Hf as [Hf _]. left. by exists f.
      * apply elem_of_filter in Hp as [_ Hp]. by right.
    + intros p Hp. apply map_lookup_filter_None. left. by apply (tidy_root d Ht).
  - intros y Hy. unfold at_. cbn [files]. destruct (decide (x `prefix_of` y)) as [Hx|Hx].
    + rewrite (proj2 (map_lookup_filter_None _ _ _)); [done|]. right. intros f _ Hk. by apply Hkeep in Hk.
    + f_equal. apply option_eq. intros f. rewrite map_lookup_filter_Some. cbn [fst]. rewrite Hkeep by done. tauto.
  - intros y Hy. unfold made. cbn [dirs]. rewrite elem_of_filter, Hkeep by done. tauto.
Qed.

(** Nothing is found. *)
Lemma yields_Stat_vacant P Q x : good x -> (forall d, P d -> tidy d /\ vacant d x) -> (forall d, P d -> Q (Err ErrNotExist) d) ->
  yields P (try (Stat (place_of root x))) Q.
Proof.
  intros Hg Hpre Hpost. apply yields_try_call; [done|]. intros n d Hd. destruct (Hpre d Hd) as [Ht Hv].
  destruct (vacant_looks d x Hg Ht Hv) as [-> ->]. by apply Hpost.
Qed.

Lemma yields_Stat_dir P Q x : good x -> (forall d, P d -> at_ d x = None /\ made d x) -> (forall d, P d -> Q (Ok true) d) ->
  yields P (try (Stat (place_of root x))) Q.
Proof.
  intros Hg Hpre Hpost. apply yields_try_call; [done|]. intros n d Hd. destruct (Hpre d Hd) as [Hf%at_none_file Hm].
  rewrite Hf, is_dir_made by done. by apply Hpost.
Qed.

Lemma yields_ReadDir_vacant P Q x : good x -> (forall d, P d -> tidy d /\ vacant d x) -> (forall d, P d -> Q (Err ErrNotExist) d) ->
  yields P (try (ReadDir (place_of root x))) Q.
Proof.
  intros Hg Hpre Hpost. apply yields_try_call; [done|]. intros n d Hd. destruct (Hpre d Hd) as [Ht Hv].
  destruct (vacant_looks d x Hg Ht Hv) as [_ ->]. by apply Hpost.
Qed.

Context `{Engine}.

(** Opening a database that has the bytes [b], or is not there. *)
Lemma yields_open_and_close P Q up n b b' v : good up -> plain n = true -> db_open (default "" b) = Ok (b', v) ->
  (forall d, P d -> tidy d /\ at_ d (up ++ [n])%list = b /\ (forall x, x ∈ steps up -> at_ d x = None /\ made d x)) ->
  (forall d d', P d -> tidy d' -> (forall y, good y -> made d' y <-> made d y) ->
     (forall y, good y -> at_ d' y = if decide (y = (up ++ [n])%list) then Some b' else at_ d y) -> Q v d') ->
  yields P (open_and_close (place_of root (up ++ [n])%list)) Q.
Proof.
  intros Hup Hn Hopen Hpre Hpost. unfold open_and_close. rewrite Dir_place by (done || apply Hup).
  assert (Hg : good (up ++ [n])%list) by (apply good_app; [done|by repeat constructor]).
  eapply (yields_bind _ _ _ (fun _ d => tidy d /\ exists d0, P d0 /\ files d = files d0 /\ forall y, good y -> made d y <-> made d0 y)).
  - apply yields_MkdirAll; [done|intros d Hd; split; [apply (Hpre d Hd)|intros x Hx; by apply (Hpre d Hd)]|].
    intros d d' Hd Ht Hf Hm. split; [done|]. exists d. split_and!; [done..|]. intros y Hy. rewrite Hm by done.
    split; [|by left]. intros [?|Hs]; [done|]. by apply (Hpre d Hd).
  - intros []. apply yields_call; [done|]. intros k d (Ht & d0 & Hd0 & Hf & Hm). destruct (Hpre d0 Hd0) as (_ & Hb & _).
    assert (Hb' : match files d !! place_of root (up ++ [n])%list with Some f => file_Bytes f | None => "" end = default "" b).
    { rewrite Hf, <- Hb. unfold at_. by destruct (files d0 !! _). }
    rewrite Hb', Hopen. eexists v, _. split; [done|].
    destruct (puts_insert d (up ++ [n])%list (mkFile b' (io_clock k)) Ht Hg) as (Ht' & Hm' & Ha').
    apply (Hpost d0); [done|done| |].
    + intros y Hy. by rewrite Hm', Hm.
    + intros y Hy. rewrite Ha' by done. destruct (decide _); [done|]. unfold at_. by rewrite Hf.
Qed.

(** *** Moving *)

Lemma place_app a more : a <> [] -> more <> [] -> place_of root (a ++ more)%list = place_of root a ++ "/" ++ Escape.Join more "/".
Proof.
  intros Ha. induction more as [|n more IH] using rev_ind; [done|]. intros _. rewrite app_assoc, place_prefix by (by destruct a).
  destruct more as [|m more]; [by rewrite app_nil_r|]. rewrite IH by done. rewrite (Join_snoc (m :: more)) by done.
  by rewrite !string_app_assoc.
Qed.

Lemma yields_Move_file P Q a up n c : good a -> Forall (fun n => plain n = true) up -> plain n = true -> a <> (up ++ [n])%list ->
  (forall d, P d -> tidy d /\ at_ d a = Some c /\ is_dir (place_of root up) d = true /\ vacant d (up ++ [n])%list) ->
  (forall d d', P d -> tidy d' -> (forall y, made d' y <-> made d y) ->
     (forall y, good y -> at_ d' y = if decide (y = (up ++ [n])%list) then Some c else if decide (y = a) then None else at_ d y) -> Q tt d') ->
  yields P (Move (place_of root a) (place_of root (up ++ [n])%list)) Q.
Proof.
  intros Ha Hup Hn Hne Hpre Hpost. apply yields_call; [done|]. intros k d Hd. destruct (Hpre d Hd) as (Ht & Hc & Hdir & Hv).
  assert (Hg : good (up ++ [n])%list) by (split; [by destruct up|apply Forall_app; by repeat constructor]).
  destruct (vacant_looks d _ Hg Ht Hv) as [Hf Hnd]. unfold at_ in Hc. apply fmap_Some in Hc as (f & Hfa & ->).
  unfold rename, rename_file. rewrite Hfa, Dir_place, Hdir, Hnd by done. cbn [negb]. eexists tt, _. split; [done|].
  destruct (puts_delete d a Ht Ha) as (Ht1 & Hm1 & Ha1). destruct (puts_insert _ (up ++ [n])%list f Ht1 Hg) as (Ht2 & Hm2 & Ha2).
  apply (Hpost d); [done|exact Ht2|done|].
  intros y Hy. change (mkDisk _ (dirs d)) with (set_files (<[place_of root (up ++ [n])%list := f]> (files (set_files (delete (place_of root a) (files d)) d))) (set_files (delete (place_of root a) (files d)) d)).
  rewrite Ha2 by done. destruct (decide _); [done|]. by apply Ha1.
Qed.

Lemma yields_Move_dir P Q a up n : good a -> Forall (fun n => plain n = true) up -> plain n = true -> ~ a `prefix_of` (up ++ [n])%list ->
  (forall d, P d -> tidy d /\ at_ d a = None /\ made d a /\ is_dir (place_of root up) d = true /\ vacant d (up ++ [n])%list) ->
  (forall d d', P d ->
     (forall more, good more -> at_ d' ((up ++ [n]) ++ more)%list = at_ d (a ++ more)%list) ->
     (forall y, good y -> ~ a `prefix_of` y -> ~ (up ++ [n])%list `prefix_of` y -> at_ d' y = at_ d y) -> Q tt d') ->
  yields P (Move (place_of root a) (place_of root (up ++ [n])%list)) Q.
Proof.
  intros Ha Hup Hn Hne Hpre Hpost. apply yields_call; [done|]. intros k d Hd. destruct (Hpre d Hd) as (Ht & Hfa%at_none_file & Hma & Hdir & Hv).
  assert (Hg : good (up ++ [n])%list) by (split; [by destruct up|apply Forall_app; by repeat constructor]).
  destruct (vacant_looks d _ Hg Ht Hv) as [Hf Hnd].
  assert (Hr : rename (place_of root a) (place_of root (up ++ [n])%list) d = (Ok tt, move_dir (place_of root a) (place_of root (up ++ [n])%list) d)).
  { unfold rename. rewrite Hfa, is_dir_made, Hnd, Hf, Dir_place, Hdir by done. cbn [negb bool_decide].
    rewrite bool_decide_eq_false_2 by (by intros [? ?]).
    destruct (under (place_of root a) (place_of root (up ++ [n])%list)) eqn:Eu; [|done].
    destruct (under_good a (up ++ [n])%list Ha Hg Eu) as (more & _ & _ & E). exfalso. apply Hne. by exists more. }
  rewrite Hr. eexists tt, _. split; [done|]. apply rename_dir in Hr as [Hin Hout]; [|done]. apply (Hpost d); [done| |].
  - intros more [Hmore Hpl]. unfold at_. rewrite (place_app (up ++ [n])%list more), (place_app a more) by (done || apply Ha || apply Hg). by rewrite Hin.
  - intros y Hy Hya Hyb. unfold at_. f_equal. apply Hout; by rewrite at_or_under_good.
Qed.

(** *** One file of the archive *)

Lemma puts_puts d d1 d2 x b1 b2 : puts d x b1 d1 -> puts d1 x b2 d2 -> puts d x b2 d2.
Proof.
  intros (_ & Hm1 & Ha1) (Ht & Hm2 & Ha2). split_and!; [done| |].
  - intros y Hy. by rewrite Hm2, Hm1.
  - intros y Hy. rewrite Ha2 by done. destruct (decide (y = x)); [done|]. rewrite Ha1 by done. by rewrite decide_False.
Qed.

Lemma yields_extractRegularFile P Q up n content : Forall (fun n => plain n = true) up -> plain n = true ->
  (forall d, P d -> tidy d /\ is_dir (place_of root up) d = true /\ vacant d (up ++ [n])%list) ->
  (forall d d', P d -> puts d (up ++ [n])%list (Some content) d' -> Q tt d') ->
  yields P (extractRegularFile content true (place_of root (up ++ [n])%list) (Z.of_nat (String.length content))) Q.
Proof.
  intros Hup Hn Hpre Hpost. assert (Hg : good (up ++ [n])%list) by (split; [by destruct up|apply Forall_app; by repeat constructor]).
  unfold extractRegularFile. set (Mid := fun d' => exists d, P d /\ puts d (up ++ [n])%list (Some content) d').
  eapply (yields_bind _ _ _ (fun _ d' => exists d, P d /\ puts d (up ++ [n])%list (Some "") d')).
  { apply yields_CreateNew; [done..|]. intros d d' Hd Hp. by exists d. }
  intros []. eapply (yields_bind _ _ _ (fun r d' => exists u, r = Ok u /\ Mid d')).
  { apply yields_try. apply (yields_Write _ _ _ _ ""); [done| |].
    - intros d (d0 & _ & Ht & _ & Ha). split; [done|]. rewrite Ha by done. by rewrite decide_True.
    - intros d d' (d0 & Hd0 & Hp) Hp'. exists d0. split; [done|]. by eapply puts_puts. }
  intros copied. eapply (yields_bind _ _ _ (fun r d' => r = Ok tt /\ exists u, copied = Ok u /\ Mid d')).
  { eapply yields_conseq; [apply (yields_try _ _ (fun _ d' => exists u, copied = Ok u /\ Mid d')), yields_passing; done|done|].
    intros r d ([] & -> & Hd). done. }
  intros closed. apply yields_pure. intros ->.
  apply (yields_ok copied (fun _ d' => Mid d')
    (fun r => lift r;; lift (reject (negb true) "read archive entry");; lift (reject (negb (Z.of_nat (String.length content) =? Z.of_nat (String.length content))%Z) "short read");; lift (Ok tt))). intros u.
  eapply (yields_bind _ _ _ (fun _ => Mid)); [by apply (yields_lift _ u)|]. intros _.
  eapply (yields_bind _ _ _ (fun _ => Mid)); [by apply (yields_lift _ tt)|]. intros _.
  eapply (yields_bind _ _ _ (fun _ => Mid)); [apply (yields_lift _ tt); [by rewrite Z.eqb_refl|done]|]. intros _.
  apply (yields_lift _ tt); [done|]. intros d (d0 & Hd0 & Hp). by apply (Hpost d0).
Qed.

(** *** Paths of entries *)

Lemma safe_path a g n : good a -> plain g = true -> plain n = true -> contains_byte g "\" = false -> contains_byte n "\" = false ->
  safeAttachmentPath (place_of root a) ("attachments/" ++ g ++ "/" ++ n) = Ok (place_of root (a ++ [g; n])%list).
Proof.
  intros Ha Hg Hn Bg Bn. destruct (plain_facts g Hg) as (G0 & G1 & G2 & G3), (plain_facts n Hn) as (N0 & N1 & N2 & N3).
  assert (Hsplit : forall rest, Split (g ++ "/" ++ rest) "/" = g :: Split rest "/") by (intros rest; by apply Split_first).
  assert (Hn1 : Split n "/" = [n]) by (by apply Split_last).
  assert (Hs : Split (g ++ "/" ++ n) "/" = [g; n]) by (by rewrite Hsplit, Hn1).
  unfold safeAttachmentPath. rewrite strip_prefix_app, Hs. cbn [length existsb forallb Nat.eqb negb orb].
  rewrite !(proj2 (string_eqb_false _ _)) by done. unfold segment_good. rewrite Bg, Bn, !(proj2 (string_eqb_false _ _)) by done.
  cbn [negb orb andb reject mbind res_bind].
  rewrite join_rel by (done || apply Ha || (unfold real; rewrite Hs; by repeat constructor)). rewrite Hs.
  rewrite Rel_place by (done || apply Ha || by repeat constructor). cbn [Escape.Join].
  assert (Hpre : forall p, HasPrefix (g ++ "/" ++ n) (p ++ "/") = true -> p = g \/ contains_byte p "/" = true).
  { intros p (rest & E)%HasPrefix_app. destruct (contains_byte p "/") eqn:Ep; [by right|left]. rewrite string_app_assoc in E.
    apply (f_equal (fun s => Split s "/")) in E. rewrite Hsplit in E. change ("/" ++ rest) with (String "/" rest) in E.
    rewrite Split_first in E by done. by injection E as ->. }
  assert (E1 : (g ++ "/" ++ n =?s "..") = false).
  { apply string_eqb_false. intros E. rewrite E in Hs. done. }
  assert (E2 : HasPrefix (g ++ "/" ++ n) "../" = false).
  { apply not_true_is_false. intros E. by destruct (Hpre ".." E). }
  assert (E3 : IsAbs (g ++ "/" ++ n) = false).
  { apply not_true_is_false. intros E. destruct (Hpre "" E); [by subst|done]. }
  by rewrite E1, E2, E3.
Qed.

(** *** The staging area *)

(** An attachment: its group, its name and its bytes. *)
Definition att_entry (t : string * string * string) : Entry := regular ("attachments/" ++ t.1.1 ++ "/" ++ t.1.2) t.2.
Definition restorable (t : string * string * string) : Prop :=
  plain t.1.1 = true /\ plain t.1.2 = true /\ contains_byte t.1.1 "\" = false /\ contains_byte t.1.2 "\" = false.

Section staging.
Context (st : string) (st_plain : plain st = true).

#[local] Abbreviation staged_att := [TmpSubdir; st; "attachments"].

Lemma good_list names : names <> [] -> forallb plain names = true -> good names.
Proof. intros Hne Hn. split; [done|]. apply Forall_forall. intros n Hin%list_elem_of_In. rewrite forallb_forall in Hn. by apply Hn. Qed.

(** What is there while the archive is read: the lock, the database and the
    attachments so far. *)
Definition file_shape (y : list string) : Prop :=
  y = [FileName] \/ y = [TmpSubdir; st; "hho.db"] \/ exists g n, y = (staged_att ++ [g; n])%list.
Definition dir_shape (y : list string) : Prop :=
  y = [TmpSubdir] \/ y = [TmpSubdir; st] \/ y = staged_att \/ exists g, y = (staged_att ++ [g])%list.

Record Staged (db : option string) (atts : gmap (string * string) string) (d : Disk) : Prop := mkStaged {
  sg_tidy : tidy d;
  sg_tmp : made d [TmpSubdir];
  sg_st : made d [TmpSubdir; st];
  sg_db : at_ d [TmpSubdir; st; "hho.db"] = db;
  sg_atts : forall g n, plain g = true -> plain n = true -> at_ d (staged_att ++ [g; n])%list = atts !! (g, n);
  sg_files : forall y, good y -> at_ d y <> None -> file_shape y;
  sg_dirs : forall y, good y -> made d y -> dir_shape y;
  sg_root : atts <> ∅ -> made d staged_att;
  sg_up : forall g, plain g = true -> made d (staged_att ++ [g])%list -> made d staged_att
}.

Lemma shape_length y : file_shape y \/ dir_shape y -> (length y <= 5)%nat.
Proof. intros [[->|[->|(g & n & ->)]]|[->|[->|[->|(g & ->)]]]]; cbn; lia. Qed.

(** What is deep enough, or of no shape, is vacant. *)
Lemma Staged_vacant db atts d x : Staged db atts d -> good x -> ~ dir_shape x -> at_ d x = None ->
  (forall more, more <> [] -> ~ file_shape (x ++ more)%list /\ ~ dir_shape (x ++ more)%list) -> vacant d x.
Proof.
  intros Hs Hx Hd Hf Hno. split; [done|]. split; [by intros Hm%(sg_dirs _ _ _ Hs)|]. intros more Hne Hp.
  assert (Hg : good (x ++ more)%list) by (by apply good_app). destruct (Hno more Hne) as [Hnf Hnd]. split.
  - destruct (at_ d (x ++ more)%list) eqn:E; [|done]. destruct Hnf. apply (sg_files _ _ _ Hs); [done|by rewrite E].
  - by intros Hm%(sg_dirs _ _ _ Hs).
Qed.

Lemma att_steps g x : x ∈ steps (staged_att ++ [g])%list -> x ∈ [[TmpSubdir]; [TmpSubdir; st]; staged_att; (staged_att ++ [g])%list].
Proof. exact id. Qed.

Lemma att_step_shape g x : x ∈ steps (staged_att ++ [g])%list -> ~ file_shape x /\ dir_shape x.
Proof.
  intros Hx%att_steps. unfold file_shape, dir_shape. repeat (apply elem_of_cons in Hx as [->|Hx]); [..|by apply elem_of_nil in Hx];
    (split; [intros [E|[E|(g' & n' & E)]]; discriminate E|]); [by left|by right; left|by do 2 right; left|by do 3 right; exists g].
Qed.

Lemma Staged_mkdir db atts d d' g : plain g = true -> Staged db atts d -> tidy d' -> files d' = files d ->
  (forall x, good x -> made d' x <-> made d x \/ x ∈ steps (staged_att ++ [g])%list) ->
  Staged db atts d' /\ made d' (staged_att ++ [g])%list /\ made d' staged_att.
Proof.
  intros Hg Hs Ht Hf Hm.
  assert (Hat : forall y, at_ d' y = at_ d y) by (intros y; unfold at_; by rewrite Hf).
  assert (Hstep : forall x, x ∈ steps (staged_att ++ [g])%list -> made d' x).
  { intros x Hx. apply Hm; [|by right]. apply (good_step (staged_att ++ [g])%list); [|done]. apply good_list; [done|]. cbn. by rewrite st_plain, Hg. }
  assert (Hatt : made d' staged_att) by (apply Hstep; by do 2 right; left).
  split; [|split; [apply Hstep; by do 3 right; left|exact Hatt]].
  constructor; rewrite ?Hat.
  - done.
  - apply Hstep. by left.
  - apply Hstep. by right; left.
  - apply (sg_db _ _ _ Hs).
  - intros g' n' Hg' Hn'. rewrite Hat. by apply (sg_atts _ _ _ Hs).
  - intros y Hy. rewrite Hat. by apply (sg_files _ _ _ Hs).
  - intros y Hy Hmy. apply Hm in Hmy as [Hmy|Hmy]; [by apply (sg_dirs _ _ _ Hs)|by apply att_step_shape in Hmy as [_ ?]|done].
  - done.
  - done.
Qed.

Lemma Staged_put db atts d d' g n c : Staged db atts d -> made d staged_att -> plain g = true -> plain n = true ->
  puts d (staged_att ++ [g; n])%list (Some c) d' -> Staged db (<[(g, n) := c]> atts) d'.
Proof.
  intros Hs Hatt Hg Hn (Ht & Hm & Ha).
  assert (Hgood : good (staged_att ++ [g; n])%list) by (apply good_list; [done|]; cbn; by rewrite st_plain, Hg, Hn).
  constructor.
  - done.
  - apply Hm; [by apply good_list|apply Hs].
  - apply Hm; [by apply good_list; [|cbn; by rewrite st_plain]|apply Hs].
  - rewrite Ha by (apply good_list; [done|]; cbn; by rewrite st_plain). rewrite decide_False by done. apply Hs.
  - intros g' n' Hg' Hn'. rewrite Ha by (apply good_list; [done|]; cbn; by rewrite st_plain, Hg', Hn').
    destruct (decide _) as [E|E].
    + injection E as -> ->. by rewrite lookup_insert_eq.
    + rewrite lookup_insert_ne by congruence. by apply (sg_atts _ _ _ Hs).
  - intros y Hy. rewrite Ha by done. destruct (decide _) as [->|E]; [|by apply (sg_files _ _ _ Hs)]. intros _. do 2 right. by exists g, n.
  - intros y Hy Hmy%Hm; [|done]. by apply (sg_dirs _ _ _ Hs).
  - intros _. apply Hm; [by apply good_list; [|cbn; by rewrite st_plain]|done].
  - intros _ _ _. apply Hm; [by apply good_list; [|cbn; by rewrite st_plain]|done].
Qed.

Lemma yields_attachment db atts t : restorable t -> atts !! t.1 = None ->
  let p := place_of root (staged_att ++ [t.1.1; t.1.2])%list in
  yields (Staged db atts) (MkdirAll (Dir p);; extractRegularFile t.2 true p (Z.of_nat (String.length t.2)))
    (fun _ => Staged db (<[t.1 := t.2]> atts)).
Proof.
  destruct t as [[g n] c]. intros (Hg & Hn & _) Hnone p. cbn [fst snd] in *.
  assert (Hup : Forall (fun n => plain n = true) (staged_att ++ [g])%list) by (apply good_list; [done|]; cbn; by rewrite st_plain, Hg).
  change p with (place_of root ((staged_att ++ [g]) ++ [n])%list). rewrite Dir_place by done.
  eapply (yields_bind _ _ _ (fun _ d => Staged db atts d /\ made d (staged_att ++ [g])%list /\ made d staged_att)).
  - apply yields_MkdirAll; [by split| |].
    + intros d Hd. split; [apply Hd|]. intros x Hx. destruct (at_ d x) eqn:E; [|done]. exfalso.
      apply (att_step_shape g) in Hx as Hsh. destruct Hsh as [Hsh _]. apply Hsh, (sg_files _ _ _ Hd); [|by rewrite E].
      by eapply good_step; [|exact Hx].
    + intros d d' Hd Ht Hf Hm. by eapply Staged_mkdir.
  - intros []. apply yields_extractRegularFile; [done|done| |].
    + intros d (Hd & Hmg & Hma). split; [apply Hd|]. split; [by apply is_dir_made|].
      apply (Staged_vacant db atts); [done|by apply good_app; [|by repeat constructor]| | |].
      * intros [E|[E|[E|(g' & E)]]]; discriminate E.
      * rewrite <- Hnone. by apply (sg_atts _ _ _ Hd).
      * intros more Hne. split; intros Hsh; (assert (Hl : (length (((staged_att ++ [g]) ++ [n]) ++ more)%list <= 5)%nat) by (apply shape_length; tauto));
          rewrite !length_app in Hl; destruct more; [done|cbn in Hl; lia|done|cbn in Hl; lia].
    + intros d d' (Hd & Hmg & Hma) Hp. by apply (Staged_put db atts d).
Qed.

Context `{Archives}.

Lemma yields_loop b ts : forall atts counts, Forall restorable ts -> NoDup ts.*1 -> (forall t, t ∈ ts -> atts !! t.1 = None) ->
  yields (Staged (Some b) atts)
    (extract_loop (stream_of (att_entry <$> ts)) (place_of root [TmpSubdir; st; "hho.db"]) (place_of root staged_att) true counts)
    (fun r d => r.1 = (counts.1 + Z.of_nat (length ts))%Z /\ Staged (Some b) (list_to_map ts ∪ atts) d).
Proof.
  induction ts as [|t ts IH]; intros atts counts Hr Hnd Hnone; cbn [fmap list_fmap stream_of extract_loop].
  - eapply yields_bind; [by apply yields_passing|]. intros [].
    eapply (yields_bind _ _ _ (fun _ => Staged (Some b) atts)); [by apply (yields_lift _ tt)|]. intros _.
    apply yields_ret. intros d Hd. change (list_to_map []) with (∅ : gmap (string * string) string). rewrite (left_id_L ∅ (∪)). split; [cbn; lia|done].
  - apply Forall_cons in Hr as [Ht Hr]. apply NoDup_cons in Hnd as [Hnew Hnd]. destruct t as [[g n] c].
    pose proof Ht as (Hg & Hn & Bg & Bn). cbn [fst snd] in Hg, Hn, Bg, Bn.
    eapply yields_bind; [by apply yields_passing|]. intros [].
    change (hdr_Name (att_entry (g, n, c)).1) with ("attachments/" ++ g ++ "/" ++ n).
    change ("attachments/" ++ g ++ "/" ++ n =?s DBEntryName) with false. cbn iota.
    assert (Hpre : HasPrefix ("attachments/" ++ g ++ "/" ++ n) "attachments/" = true) by (unfold HasPrefix; by rewrite strip_prefix_app).
    rewrite Hpre. eapply (yields_bind _ _ _ (fun _ => Staged (Some b) atts)); [by apply (yields_lift _ tt)|]. intros _.
    eapply (yields_bind _ _ _ (fun p d => p = place_of root (staged_att ++ [g; n])%list /\ Staged (Some b) atts d)).
    { apply (yields_lift _ (place_of root (staged_att ++ [g; n])%list)); [|done]. apply safe_path; try done. apply good_list; [done|]. cbn. by rewrite st_plain. }
    intros p. apply yields_pure. intros ->. apply yields_assoc.
    eapply yields_bind; [apply (yields_attachment (Some b) atts (g, n, c) Ht); apply Hnone; by left|]. intros [].
    eapply yields_conseq; [apply (IH (<[(g, n) := c]> atts)); [done|done|]|done|].
    + intros t Hin. rewrite lookup_insert_ne; [apply Hnone; by right|]. intros E. apply Hnew. cbn [fst]. rewrite E. apply list_elem_of_fmap. by exists t.
    + intros r d [Hlen Hd]. split; [rewrite Hlen; cbn [count_entry fst length]; lia|]. cbn [list_to_map foldr fst snd].
      rewrite <- insert_union_l, insert_union_r; [done|]. by apply not_elem_of_list_to_map_1.
Qed.

Lemma Staged_put_db b b' atts d d' : Staged b atts d -> puts d [TmpSubdir; st; "hho.db"] (Some b') d' -> Staged (Some b') atts d'.
Proof.
  intros Hs (Ht & Hm & Ha). constructor.
  - done.
  - apply Hm; [by apply good_list|apply Hs].
  - apply Hm; [by apply good_list; [|cbn; by rewrite st_plain]|apply Hs].
  - rewrite Ha by (apply good_list; [done|]; cbn; by rewrite st_plain). by rewrite decide_True.
  - intros g n Hg Hn. rewrite Ha by (apply good_list; [done|]; cbn; by rewrite st_plain, Hg, Hn). rewrite decide_False by done.
    by apply (sg_atts _ _ _ Hs).
  - intros y Hy. rewrite Ha by done. destruct (decide _) as [->|E]; [by right; left|by apply (sg_files _ _ _ Hs)].
  - intros y Hy Hmy%Hm; [|done]. by apply (sg_dirs _ _ _ Hs).
  - intros Hne%(sg_root _ _ _ Hs). apply Hm; [by apply good_list; [|cbn; by rewrite st_plain]|done].
  - intros g Hg Hmg. apply Hm; [by apply good_list; [|cbn; by rewrite st_plain]|]. apply (sg_up _ _ _ Hs g), Hm; [done| |done].
    apply good_list; [done|]. cbn. by rewrite st_plain, Hg.
Qed.

Lemma Staged_db_vacant atts d : Staged None atts d -> vacant d [TmpSubdir; st; "hho.db"].
Proof.
  intros Hs. eapply Staged_vacant; [done|apply good_list; [done|]; cbn; by rewrite st_plain| |apply Hs|].
  - intros [E|[E|[E|(g' & E)]]]; discriminate E.
  - intros more Hne. split.
    + intros [E|[E|(g & n & E)]]; [discriminate E| |discriminate E]. cbn in E. injection E as E. by subst.
    + intros [E|[E|[E|(g & E)]]]; discriminate E.
Qed.

Lemma yields_extract b ts : Forall restorable ts -> NoDup ts.*1 ->
  yields (Staged None ∅)
    (extractArchiveBody (stream_of (regular DBEntryName b :: (att_entry <$> ts))) (place_of root [TmpSubdir; st; "hho.db"]) (place_of root staged_att))
    (fun r d => r.1 = Z.of_nat (length ts) /\ Staged (Some b) (list_to_map ts) d).
Proof.
  intros Hr Hnd. unfold extractArchiveBody. cbn [stream_of extract_loop].
  eapply yields_bind; [by apply yields_passing|]. intros [].
  change (hdr_Name (regular DBEntryName b).1 =?s DBEntryName) with true. cbn iota.
  eapply (yields_bind _ _ _ (fun _ => Staged None ∅)); [by apply (yields_lift _ tt)|]. intros _.
  eapply (yields_bind _ _ _ (fun _ => Staged None ∅)); [by apply (yields_lift _ tt)|]. intros _.
  eapply (yields_bind _ _ _ (fun _ => Staged (Some b) ∅)).
  - apply (yields_extractRegularFile _ _ [TmpSubdir; st] "hho.db"); [by repeat constructor|done| |].
    + intros d Hd. split_and!; [apply Hd|by apply is_dir_made, Hd|by eapply Staged_db_vacant].
    + intros d d' Hd Hp. by eapply Staged_put_db.
  - intros _. eapply yields_conseq; [apply (yields_loop b ts ∅); [done|done|intros t _; apply lookup_empty]|done|].
    intros r d [Hlen Hd]. cbn [fst] in Hlen. rewrite (right_id_L ∅ (∪)) in Hd. split; [by rewrite Hlen|done].
Qed.

(** *** Moving it to its place *)

Record Restored (b : string) (atts : gmap (string * string) string) (d : Disk) : Prop := mkRestored {
  rs_db : at_ d [DBSubdir; "hho.db"] = Some b;
  rs_beside : forall n, plain n = true -> n <> "hho.db" -> at_ d [DBSubdir; n] = None;
  rs_atts : forall names, good names -> at_ d ([AttachmentsSubdir] ++ names)%list = match names with [g; n] => atts !! (g, n) | _ => None end
}.

Lemma Staged_below b atts d names : Staged b atts d -> good names ->
  at_ d (staged_att ++ names)%list = match names with [g; n] => atts !! (g, n) | _ => None end.
Proof.
  intros Hs Hg. assert (Hgood : good (staged_att ++ names)%list).
  { apply (good_app staged_att); [apply good_list; [done|]; cbn; by rewrite st_plain|apply Hg]. }
  assert (Hshape : at_ d (staged_att ++ names)%list <> None -> exists g n, names = [g; n]).
  { intros [E|[E|(g & n & E)]]%(sg_files _ _ _ Hs); [discriminate E| | |done].
    - destruct names; discriminate E.
    - exists g, n. by apply app_inv_head in E. }
  destruct names as [|g [|n [|? ?]]].
  4: destruct (at_ d _) eqn:E; [by destruct Hshape as (? & ? & ?); [|]|done].
  3: { destruct Hg as [_ Hg]. apply Forall_cons in Hg as [Hg Hn]. apply Forall_cons in Hn as [Hn _]. by apply (sg_atts _ _ _ Hs). }
  all: destruct (at_ d _) eqn:E; [by destruct Hshape as (? & ? & ?)|done].
Qed.

(** The directory of the database is made and the database in it. *)
Definition Half (b : string) (atts : gmap (string * string) string) (d : Disk) : Prop := exists d0, Staged (Some b) atts d0 /\ tidy d /\
  (forall y, good y -> made d y <-> made d0 y \/ y = [DBSubdir]) /\
  forall y, good y -> at_ d y = if decide (y = [DBSubdir; "hho.db"]) then Some b else if decide (y = [TmpSubdir; st; "hho.db"]) then None else at_ d0 y.

Lemma Staged_no b atts d y : Staged b atts d -> good y -> ~ file_shape y -> at_ d y = None.
Proof. intros Hs Hy Hn. destruct (at_ d y) eqn:E; [|done]. destruct Hn. apply (sg_files _ _ _ Hs); [done|by rewrite E]. Qed.

Lemma other_not_file sub more : sub <> FileName -> sub <> TmpSubdir -> ~ file_shape (sub :: more).
Proof. intros Hl Ht [E|[E|(g & n & E)]]; injection E as E; by subst. Qed.

Lemma other_not_dir sub more : sub <> TmpSubdir -> ~ dir_shape (sub :: more).
Proof. intros Ht [E|[E|[E|(g & E)]]]; injection E as E; by subst. Qed.

Lemma yields_database b atts :
  yields (Staged (Some b) atts)
    (MkdirAll (place_of root [DBSubdir]);; Move (place_of root [TmpSubdir; st; "hho.db"]) (place_of root [DBSubdir; "hho.db"]))
    (fun _ => Half b atts).
Proof.
  assert (Hdb : good [DBSubdir]) by (by apply good_list).
  assert (Hdbf : good [DBSubdir; "hho.db"]) by (by apply good_list).
  assert (Hstf : good [TmpSubdir; st; "hho.db"]) by (apply good_list; [done|]; cbn; by rewrite st_plain).
  eapply (yields_bind _ _ _ (fun _ d => exists d0, Staged (Some b) atts d0 /\ tidy d /\ files d = files d0 /\ forall y, good y -> made d y <-> made d0 y \/ y = [DBSubdir])).
  - apply yields_MkdirAll; [done| |].
    + intros d Hd. split; [apply Hd|]. intros x ->%list_elem_of_singleton. apply (Staged_no _ _ _ _ Hd Hdb). by apply other_not_file.
    + intros d d' Hd Ht Hf Hm. exists d. split_and!; [done..|]. intros y Hy. rewrite Hm by done.
      change (steps [DBSubdir]) with [[DBSubdir]]. by rewrite list_elem_of_singleton.
  - intros []. apply (yields_Move_file _ _ [TmpSubdir; st; "hho.db"] [DBSubdir] "hho.db" b); [done|by repeat constructor|done|done| |].
    + intros d (d0 & Hs & Ht & Hf & Hm).
      assert (Hat : forall y, at_ d y = at_ d0 y) by (intros y; unfold at_; by rewrite Hf).
      split_and!; [done|rewrite Hat; apply Hs|apply is_dir_made, Hm; [done|by right]|].
      split; [rewrite Hat; apply (Staged_no _ _ _ _ Hs Hdbf); by apply other_not_file|]. split.
      * intros [Hmd|E]%Hm; [|discriminate E|done]. apply (sg_dirs _ _ _ Hs) in Hmd; [|done]. by apply other_not_dir in Hmd.
      * intros more Hne Hpl. assert (Hg : good ([DBSubdir; "hho.db"] ++ more)%list) by (by apply good_app). split.
        { rewrite Hat. apply (Staged_no _ _ _ _ Hs Hg). by apply other_not_file. }
        intros [Hmd|E]%Hm; [|discriminate E|done]. apply (sg_dirs _ _ _ Hs) in Hmd; [|done]. by apply other_not_dir in Hmd.
    + intros d d' (d0 & Hs & Ht & Hf & Hm) Ht' Hm' Ha. exists d0. split_and!; [done|done| |].
      * intros y Hy. by rewrite Hm', Hm.
      * intros y Hy. rewrite Ha by done. change ([DBSubdir] ++ ["hho.db"])%list with [DBSubdir; "hho.db"].
        repeat (destruct (decide _); [done|]). unfold at_. by rewrite Hf.
Qed.

Lemma Half_db b atts d y : Half b atts d -> good y -> at_ d (DBSubdir :: y) = if decide (y = ["hho.db"]) then Some b else None.
Proof.
  intros (d0 & Hs & Ht & Hm & Ha) Hy. assert (Hg : good (DBSubdir :: y)) by (split; [done|constructor; [done|apply Hy]]).
  rewrite Ha by done. destruct (decide (y = ["hho.db"])) as [->|Hne].
  - by rewrite decide_True.
  - rewrite !decide_False; [|intros E; discriminate E|intros E; injection E as E; done].
    apply (Staged_no _ _ _ _ Hs Hg). by apply other_not_file.
Qed.

Lemma Half_atts b atts d y : Half b atts d -> good y ->
  at_ d (staged_att ++ y)%list = match y with [g; n] => atts !! (g, n) | _ => None end.
Proof.
  intros (d0 & Hs & Ht & Hm & Ha) Hy. rewrite Ha, decide_False, decide_False; [by apply (Staged_below (Some b))|done|done|].
  apply (good_app staged_att); [apply good_list; [done|]; cbn; by rewrite st_plain|apply Hy].
Qed.

Lemma Half_no_atts b atts d y : Half b atts d -> Forall (fun n => plain n = true) y -> at_ d (AttachmentsSubdir :: y) = None /\ ~ made d (AttachmentsSubdir :: y).
Proof.
  intros (d0 & Hs & Ht & Hm & Ha) Hy. assert (Hg : good (AttachmentsSubdir :: y)) by (split; [done|by constructor]). split.
  - rewrite Ha, decide_False, decide_False by done. apply (Staged_no _ _ _ _ Hs Hg). by apply other_not_file.
  - intros [Hmd|E]%Hm; [|discriminate E|done]. apply (sg_dirs _ _ _ Hs) in Hmd; [|done]. by apply other_not_dir in Hmd.
Qed.

Lemma Half_vacant b atts d : Half b atts d -> vacant d [AttachmentsSubdir].
Proof.
  intros Hh. destruct (Half_no_atts b atts d [] Hh) as [Hf Hd]; [done|]. split; [done|]. split; [done|].
  intros more _ Hp. by apply (Half_no_atts b atts).
Qed.

Lemma db_place : path_Join [path_Join [root; DBSubdir]; "hho.db"] = place_of root [DBSubdir; "hho.db"].
Proof. rewrite (join_top root) by done. by apply (join_in root [DBSubdir]); [|by repeat constructor|]. Qed.

Lemma Half_restored b atts d d' : Half b atts d ->
  (forall y, good y -> at_ d' ([AttachmentsSubdir] ++ y)%list = at_ d (staged_att ++ y)%list) ->
  (forall n, plain n = true -> at_ d' [DBSubdir; n] = at_ d [DBSubdir; n]) -> Restored b atts d'.
Proof.
  intros Hh Ha Hd. constructor.
  - rewrite Hd by done. rewrite (Half_db b atts d ["hho.db"] Hh); [by rewrite decide_True|by apply good_list].
  - intros n Hn Hne. rewrite Hd by done. rewrite (Half_db b atts d [n] Hh); [rewrite decide_False; [done|congruence]|by apply good_one].
  - intros y Hy. rewrite Ha by done. by apply (Half_atts b).
Qed.

(** No attachments have been staged. *)
Lemma Half_unmade b atts d : Half b atts d -> ~ made d staged_att -> atts = ∅ /\ nothing_at d staged_att.
Proof.
  intros Hh Hmd. pose proof Hh as (d0 & Hs & Ht & Hm & Ha).
  assert (Hga : good staged_att) by (apply good_list; [done|]; cbn; by rewrite st_plain).
  assert (Hn0 : ~ made d0 staged_att) by (intros Hmd0; apply Hmd, Hm; [done|by left]).
  assert (Hae : atts = ∅) by (destruct (decide (atts = ∅)) as [|Hne]; [done|]; by destruct Hn0; apply (sg_root _ _ _ Hs)).
  split; [done|]. split; [done|]. intros more Hne Hp. assert (Hg : good (staged_att ++ more)%list) by (by apply good_app).
  split; [rewrite (Half_atts b atts d more), Hae by done; destruct more as [|? [|? [|? ?]]]; try done; by rewrite lookup_empty|].
  intros [Hx|E]%Hm; [|discriminate E|done]. destruct (sg_dirs _ _ _ Hs _ Hg Hx) as [E|[E|[E|(g & E)]]]; [discriminate E..| |].
  - destruct more; [done|discriminate E].
  - apply app_inv_head in E as ->. apply Forall_cons in Hp as [Hp _]. by apply (sg_up _ _ _ Hs) in Hx.
Qed.

Lemma yields_Stat_att b atts : yields (Half b atts) (try (Stat (place_of root staged_att)))
  (fun r d => Half b atts d /\ (r = Ok true /\ at_ d staged_att = None /\ made d staged_att \/ r = Err ErrNotExist /\ atts = ∅)).
Proof.
  assert (Hga : good staged_att) by (apply good_list; [done|]; cbn; by rewrite st_plain).
  apply yields_try_call; [done|]. intros n d Hh. pose proof Hh as (d0 & Hs & Ht & Hm & Ha).
  assert (Hf : at_ d staged_att = None).
  { rewrite Ha, decide_False, decide_False by done. apply (Staged_no _ _ _ _ Hs Hga). intros [E|[E|(g & n' & E)]]; discriminate E. }
  rewrite (proj1 (at_none_file d staged_att) Hf). destruct (decide (made d staged_att)) as [Hmd|Hmd].
  - rewrite is_dir_made by done. split; [done|]. by left.
  - destruct (Half_unmade b atts d Hh Hmd) as [Hae Hno]. rewrite is_dir_nothing by done. split; [done|]. by right.
Qed.

Lemma yields_Move_att b atts : yields (fun d => Half b atts d /\ at_ d staged_att = None /\ made d staged_att)
  (Move (place_of root staged_att) (place_of root [AttachmentsSubdir])) (fun _ => Restored b atts).
Proof.
  assert (Hga : good staged_att) by (apply good_list; [done|]; cbn; by rewrite st_plain).
  apply (yields_Move_dir _ _ staged_att [] AttachmentsSubdir); [done|constructor|done| | |].
  - intros [more E]. discriminate E.
  - intros d (Hh & Hf & Hmd). pose proof Hh as (d0 & Hs & Ht & Hm & Ha). split_and!; [done..| |by apply (Half_vacant b atts)].
    by apply (root_is_dir d staged_att).
  - intros d d' (Hh & Hf & Hmd) Hin Hout. apply (Half_restored b atts d); [done|exact Hin|].
    intros n Hn. apply Hout; [by apply good_list; [|cbn; by rewrite Hn]| |]; intros [more E]; discriminate E.
Qed.

Lemma yields_Mkdir_att b : yields (Half b ∅) (MkdirAll (place_of root [AttachmentsSubdir])) (fun _ => Restored b ∅).
Proof.
  apply yields_MkdirAll; [by apply good_list| |].
  - intros d Hh. pose proof Hh as (d0 & Hs & Ht & Hm & Ha). split; [done|]. intros x ->%list_elem_of_singleton. by apply (Half_no_atts b ∅).
  - intros d d' Hh Ht Hf Hm. assert (Hat : forall y, at_ d' y = at_ d y) by (intros y; unfold at_; by rewrite Hf).
    apply (Half_restored b ∅ d); [done| |intros n _; apply Hat].
    intros y Hy. change ([AttachmentsSubdir] ++ y)%list with (AttachmentsSubdir :: y). rewrite Hat, (Half_atts b ∅ d y) by done.
    rewrite (proj1 (Half_no_atts b ∅ d y Hh (proj2 Hy))). destruct y as [|? [|? [|? ?]]]; try done; by rewrite lookup_empty.
Qed.

Lemma yields_attachments b atts :
  yields (Half b atts) (staged ← try (Stat (place_of root staged_att));
            match staged with
            | Ok _ => Move (place_of root staged_att) (place_of root [AttachmentsSubdir])
            | Err _ => MkdirAll (place_of root [AttachmentsSubdir])
            end) (fun _ => Restored b atts).
Proof.
  eapply yields_bind; [apply yields_Stat_att|]. intros r m Hup [Hh [(-> & Hf & Hmd)|(-> & ->)]]; [by apply (yields_Move_att b atts)|by apply (yields_Mkdir_att b)].
Qed.

Lemma yields_put_in_place b atts :
  yields (Staged (Some b) atts) (put_in_place root (place_of root [TmpSubdir; st; "hho.db"]) (place_of root staged_att)) (fun _ => Restored b atts).
Proof.
  unfold put_in_place. rewrite db_place, !(join_top root) by done. apply yields_assoc.
  eapply yields_bind; [apply yields_database|]. intros [].
  apply yields_assoc. eapply yields_bind; [by apply yields_attachments|]. intros [].
  cbn [for_each]. do 3 (eapply yields_bind; [by apply yields_fsyncDir|]; intros []). by apply yields_ret.
Qed.

Lemma yields_restore_staged b b' v ts warning : db_open b = Ok (b', v) -> Forall restorable ts -> NoDup ts.*1 ->
  yields (Staged None ∅)
    (restore_staged root (stream_of (regular DBEntryName b :: (att_entry <$> ts))) false warning (place_of root [TmpSubdir; st]))
    (fun s d => sum_Files s = Z.of_nat (length ts) /\ Restored b' (list_to_map ts) d).
Proof.
  intros Hopen Hr Hnd. unfold restore_staged. rewrite !(join_in root [TmpSubdir; st]) by (done || by repeat constructor).
  change ([TmpSubdir; st] ++ ["hho.db"])%list with [TmpSubdir; st; "hho.db"]. change ([TmpSubdir; st] ++ ["attachments"])%list with staged_att.
  eapply yields_bind; [by apply yields_extract|]. intros counts. apply yields_pure. intros Hlen.
  eapply (yields_bind _ _ _ (fun _ => Staged (Some b') (list_to_map ts))).
  - apply (yields_open_and_close _ _ [TmpSubdir; st] "hho.db" (Some b) b' v); [by apply good_list; [|cbn; by rewrite st_plain]|done|done| |].
    + intros d Hd. split; [apply Hd|]. split; [apply Hd|]. intros x Hx. change (steps [TmpSubdir; st]) with [[TmpSubdir]; [TmpSubdir; st]] in Hx.
      apply elem_of_cons in Hx as [->| ->%list_elem_of_singleton]; (split; [|apply Hd]); (eapply Staged_no; [exact Hd|by apply good_list; [|cbn; by rewrite ?st_plain]|]);
        intros [E|[E|(g & n & E)]]; discriminate E.
    + intros d d' Hd Ht Hm Ha. eapply Staged_put_db; [exact Hd|]. by split.
  - intros version. eapply (yields_bind _ _ _ (fun _ => Staged (Some b') (list_to_map ts))); [by apply yields_ret|]. intros preserved.
    eapply yields_bind; [apply yields_put_in_place|]. intros []. by apply yields_ret.
Qed.
End staging.

(** *** An empty data directory *)

(** Nothing is in it, and no file is in the way of it. *)
Definition empty_data (d : Disk) : Prop :=
  (forall p, inside p -> files d !! p = None /\ p ∉ dirs d) /\ forall p, p ∈ root_steps -> files d !! p = None.

(** The directory for temporary files is there, and some files. *)
Record Ready (fs : list (list string)) (d : Disk) : Prop := mkReady {
  rd_tidy : tidy d;
  rd_tmp : made d [TmpSubdir];
  rd_files : forall y, good y -> at_ d y <> None -> y ∈ fs;
  rd_dirs : forall y, good y -> made d y -> y = [TmpSubdir]
}.

Lemma Ready_vacant fs d x : Ready fs d -> good x -> x <> [TmpSubdir] -> (forall f, f ∈ fs -> ~ x `prefix_of` f) -> vacant d x.
Proof.
  intros Hr Hx Hne Hno. split; [|split].
  - destruct (at_ d x) eqn:E; [|done]. destruct (Hno x); [|done]. apply (rd_files _ _ Hr); [done|by rewrite E].
  - by intros Hm%(rd_dirs _ _ Hr).
  - intros more Hmore Hp. assert (Hg : good (x ++ more)%list) by (by apply good_app). split.
    + destruct (at_ d (x ++ more)%list) eqn:E; [|done]. destruct (Hno (x ++ more)%list); [|by exists more].
      apply (rd_files _ _ Hr); [done|by rewrite E].
    + intros Hm%(rd_dirs _ _ Hr); [|done]. destruct Hx as [Hx _]. destruct x as [|a x]; [done|]. injection Hm as -> E. by destruct x, more.
Qed.

Lemma yields_first : yields empty_data (MkdirAll (place_of root [TmpSubdir])) (fun _ => Ready []).
Proof.
  assert (Hg : good [TmpSubdir]) by (by apply good_list).
  assert (Hno : forall d y, empty_data d -> good y -> at_ d y = None /\ ~ made d y).
  { intros d y [He _] Hy. destruct (He _ (inside_place y Hy)) as [Hf Hd]. by split; [apply at_none_file|]. }
  apply yields_MkdirAll; [done| |].
  - intros d Hd. split; [|intros x ->%list_elem_of_singleton; by apply (Hno d)].
    destruct Hd as [He Hr]. constructor; [|done]. intros p Hi [Hp|Hp]; destruct (He p Hi) as [Hf Hd]; [by rewrite Hf in Hp; destruct Hp|done].
  - intros d d' Hd Ht Hf Hm. change (steps [TmpSubdir]) with [[TmpSubdir]] in Hm. setoid_rewrite list_elem_of_singleton in Hm. constructor.
    + done.
    + apply Hm; [done|by right].
    + intros y Hy Hn. exfalso. apply Hn. unfold at_. rewrite Hf. by apply (Hno d).
    + intros y Hy [Hmd|?]%Hm; [|done..]. by destruct (Hno d y Hd Hy).
Qed.

Lemma numbered_plain prefix k : plain prefix = true -> (2 < String.length prefix)%nat -> plain (numbered prefix k) = true.
Proof. intros Hp Hl. apply plain_prefix; [done|by apply FormatUint_plain|done]. Qed.

(** While the version of the schema is found out. *)
Definition Probing (x : list string) (d : Disk) : Prop :=
  tidy d /\ made d [TmpSubdir] /\ (forall y, good y -> at_ d y = None) /\ made d x /\
  forall y, good y -> made d y -> y = [TmpSubdir] \/ y = x.

Lemma yields_probe name bytes v : plain name = true -> db_open "" = Ok (bytes, v) ->
  yields (Probing [TmpSubdir; name])
    (finally (RemoveAll (place_of root [TmpSubdir; name])) (open_and_close (path_Join [place_of root [TmpSubdir; name]; "probe.db"])))
    (fun r d => r = v /\ Ready [] d).
Proof.
  intros Hn Hopen. assert (Hg : good [TmpSubdir; name]) by (apply good_list; [done|]; cbn; by rewrite Hn).
  rewrite (join_in root [TmpSubdir; name]) by (done || apply Hg).
  eapply yields_finally with (Q := fun r d => r = v /\ exists d0, Probing [TmpSubdir; name] d0 /\ tidy d /\ (forall y, good y -> made d y <-> made d0 y) /\
    forall y, good y -> at_ d y = if decide (y = ([TmpSubdir; name] ++ ["probe.db"])%list) then Some bytes else at_ d0 y).
  - apply (yields_open_and_close _ _ [TmpSubdir; name] "probe.db" None bytes v); [done|done|done| |].
    + intros d (Ht & Hm1 & Hf & Hm2 & Hm). split; [done|]. split; [apply Hf; by apply good_app; [|repeat constructor]|].
      intros x Hx. change (steps [TmpSubdir; name]) with [[TmpSubdir]; [TmpSubdir; name]] in Hx.
      apply elem_of_cons in Hx as [->| ->%list_elem_of_singleton]; split; try done; apply Hf; first [done|by apply good_list].
    + intros d d' Hd Ht Hm Ha. split; [done|]. by exists d.
  - intros r. apply yields_RemoveAll; [done|]. intros d d' (-> & d0 & (Ht0 & Hm1 & Hf & Hm2 & Hm) & Ht & Hmd & Ha) Ht' Ha' Hmd'. split; [done|]. constructor.
    + by apply Ht'.
    + apply Hmd'; [by apply good_list|]. split; [by apply Hmd; [apply good_list|]|]. intros [more E]. discriminate E.
    + intros y Hy Hne. exfalso. apply Hne. rewrite Ha' by done. destruct (decide _) as [|Hp]; [done|]. rewrite Ha by done.
      destruct (decide _) as [->|]; [|by apply Hf]. destruct Hp. by exists ["probe.db"].
    + intros y Hy Hmy. apply Hmd' in Hmy as [Hmy Hp]; [|done]. apply Hmd, Hm in Hmy as [->| ->]; [done| |done..]. by destruct Hp.
Qed.

Lemma yields_latest bytes v : db_open "" = Ok (bytes, v) ->
  yields (Ready []) (latestSupportedSchemaVersion (place_of root [TmpSubdir])) (fun r d => r = v /\ Ready [] d).
Proof.
  intros Hopen. set (prefix := restoreSchemaProbeSubdir ++ "-").
  assert (Hpl : forall k, plain (numbered prefix k) = true) by (intros k; by apply numbered_plain; [|apply Nat.ltb_lt]).
  unfold latestSupportedSchemaVersion.
  eapply (yields_bind _ _ _ (fun path d => exists k, path = place_of root [TmpSubdir; numbered prefix k] /\ Probing [TmpSubdir; numbered prefix k] d)).
  - apply (yields_MkdirTemp _ _ [TmpSubdir] prefix); [exact Hpl|by apply good_list| |].
    + intros d Hd. split_and!; [apply Hd|by apply is_dir_made, Hd|]. intros k.
      apply (Ready_vacant [] d); [done|by apply good_list; [|cbn; rewrite Hpl]|done|by intros f ?%elem_of_nil].
    + intros d d' k x Hd Ht Hf Hm. exists k. split; [done|]. assert (Hx : good x) by (by apply good_list; [|cbn; rewrite Hpl]). split_and!; [done|apply Hm; [by apply good_list|left; apply Hd]| | |].
      * intros y Hy. unfold at_. rewrite Hf. change (at_ d y = None). destruct (at_ d y) eqn:E; [|done]. exfalso. apply (not_elem_of_nil y), (rd_files _ _ Hd); [done|by rewrite E].
      * apply Hm; [done|by right].
      * intros y Hy [Hmd|?]%Hm; [left; by apply (rd_dirs _ _ Hd)|by right|done].
  - intros path m Hup (k & -> & Hm). by apply (yields_probe (numbered prefix k) bytes v).
Qed.

Lemma Ready_nothing d sub more : Ready [] d -> sub <> TmpSubdir -> good (sub :: more) -> vacant d (sub :: more).
Proof.
  intros Hr Hs Hg. apply (Ready_vacant [] d); [done|done|intros E; by injection E as -> _|by intros f ?%elem_of_nil].
Qed.

Lemma yields_hasExisting :
  yields (Ready []) (dataDirHasExistingData (place_of root [DBSubdir; "hho.db"]) (place_of root [AttachmentsSubdir])) (fun r d => r = false /\ Ready [] d).
Proof.
  unfold dataDirHasExistingData.
  eapply (yields_bind _ _ _ (fun r d => r = Err ErrNotExist /\ Ready [] d)).
  { apply yields_Stat_vacant; [by apply good_list| |done]. intros d Hd. split; [apply Hd|]. apply (Ready_nothing d DBSubdir); [done|done|by apply good_list]. }
  intros r. apply yields_pure. intros ->. cbn iota. rewrite bool_decide_eq_true_2 by done. cbn [negb].
  eapply (yields_bind _ _ _ (fun r d => r = Err ErrNotExist /\ Ready [] d)).
  { apply yields_ReadDir_vacant; [by apply good_list| |done]. intros d Hd. split; [apply Hd|]. apply (Ready_nothing d AttachmentsSubdir); [done|done|by apply good_list]. }
  intros r. apply yields_pure. intros ->. cbn iota. rewrite bool_decide_eq_true_2 by done. by apply yields_ret.
Qed.

Context `{Locks}.

Lemma yields_probeServer : flockNB (path_Join [root; FileName]) = LockFree ->
  yields (Ready []) (probeServerNotRunning root) (fun _ => Ready [[FileName]]).
Proof.
  intros Hfree. unfold probeServerNotRunning.
  eapply (yields_bind _ _ _ (fun r d => exists u, r = Ok u /\ Ready [[FileName]] d)).
  - apply yields_try. unfold Probe, acquireFile. rewrite Hfree, (join_top root) by done.
    eapply (yields_bind _ _ _ (fun _ => Ready [[FileName]])); [|intros []; by apply yields_passing].
    eapply (yields_bind _ _ _ (fun _ => Ready [[FileName]])); [|intros []; by apply yields_ret].
    apply (yields_OpenOrCreate _ _ [] FileName); [constructor|done| |].
    + intros d Hd. split_and!; [apply Hd| |apply (Ready_nothing d FileName []); [done|done|by apply good_list]].
      apply (root_is_dir d [TmpSubdir]); [by apply good_list|apply Hd].
    + intros d d' Hd (Ht & Hm & Ha). constructor.
      * done.
      * apply Hm; [by apply good_list|apply Hd].
      * intros y Hy. rewrite Ha by done. destruct (decide _) as [->|Hne]; [by left|]. intros Hn. by apply (rd_files _ _ Hd), elem_of_nil in Hn.
      * intros y Hy Hmy%Hm; [|done]. by apply (rd_dirs _ _ Hd).
  - intros r m Hup (u & -> & Hd). revert m Hup Hd.
    enough (Hy : yields (Ready [[FileName]]) (mret false) (fun _ => Ready [[FileName]])) by exact Hy. by apply yields_ret.
Qed.

Lemma yields_probeDatabase :
  yields (Ready [[FileName]]) (probeDatabaseNotLive (place_of root [DBSubdir; "hho.db"])) (fun _ => Ready [[FileName]]).
Proof.
  unfold probeDatabaseNotLive. eapply (yields_bind _ _ _ (fun r d => r = Err ErrNotExist /\ Ready [[FileName]] d)).
  { apply yields_Stat_vacant; [by apply good_list| |done]. intros d Hd. split; [apply Hd|]. apply (Ready_vacant [[FileName]] d); [done|by apply good_list|done|].
    intros f ->%list_elem_of_singleton [more E]. discriminate E. }
  intros r. apply yields_pure. intros ->. cbn iota. rewrite bool_decide_eq_true_2 by done. by apply yields_ret.
Qed.

Lemma yields_staging_root :
  yields (Ready [[FileName]]) (MkdirTemp (place_of root [TmpSubdir]) "restore-staging-")
    (fun path d => exists st, plain st = true /\ path = place_of root [TmpSubdir; st] /\ Staged st None ∅ d).
Proof.
  assert (Hpl : forall k, plain (numbered "restore-staging-" k) = true) by (intros k; by apply numbered_plain; [|apply Nat.ltb_lt]).
  apply (yields_MkdirTemp _ _ [TmpSubdir] "restore-staging-"); [exact Hpl|by apply good_list| |].
  - intros d Hd. split_and!; [apply Hd|by apply is_dir_made, Hd|]. intros k.
    apply (Ready_vacant [[FileName]] d); [done|by apply good_list; [|cbn; rewrite Hpl]|done|]. intros f ->%list_elem_of_singleton [more E]. discriminate E.
  - intros d d' k x Hd Ht Hf Hm. exists (numbered "restore-staging-" k). split; [done|]. split; [done|].
    assert (Hx : good x) by (by apply good_list; [|cbn; rewrite Hpl]).
    assert (Hat : forall y, good y -> y <> [FileName] -> at_ d' y = None).
    { intros y Hy Hne. unfold at_. rewrite Hf. change (at_ d y = None). destruct (at_ d y) eqn:E; [|done]. exfalso.
      apply Hne. assert (Hin : y ∈ [[FileName]]) by (apply (rd_files _ _ Hd); [done|by rewrite E]). by apply list_elem_of_singleton in Hin. }
    constructor.
    + done.
    + apply Hm; [by apply good_list|left; apply Hd].
    + apply Hm; [done|by right].
    + apply Hat; [by apply good_list; [|cbn; rewrite Hpl]|done].
    + intros g n Hg Hn. rewrite lookup_empty. apply Hat; [|done]. apply good_list; [done|]. cbn. by rewrite Hpl, Hg, Hn.
    + intros y Hy Hne. destruct (decide (y = [FileName])) as [->|Hl]; [by left|]. by rewrite Hat in Hne.
    + intros y Hy [Hmd| ->]%Hm; [left; by apply (rd_dirs _ _ Hd)|by right; left|done].
    + done.
    + intros g Hg [Hmd|E]%Hm; [apply (rd_dirs _ _ Hd) in Hmd; [discriminate Hmd|]|discriminate E|]; (apply good_list; [done|]; cbn; by rewrite Hpl, Hg).
Qed.

Context `{Archives}.

Lemma yields_readManifest P text mf rest : json_Unmarshal text = Some mf -> (Z.of_nat (String.length text) <= restoreManifestMaxBytes)%Z ->
  yields P (readManifest (stream_of (regular ManifestEntryName text :: rest))) (fun r d => r = (mf, stream_of rest) /\ P d).
Proof.
  intros Hj Hl. unfold readManifest, tar_Next. cbn [stream_of].
  eapply (yields_bind _ _ _ (fun r d => r = Some ((regular ManifestEntryName text).1, text, true, stream_of rest) /\ P d)).
  { eapply yields_bind; [by apply yields_passing|]. intros []. by apply yields_ret. }
  intros next. apply yields_pure. intros ->.
  eapply (yields_bind _ _ _ (fun _ => P)); [by apply (yields_lift _ tt)|]. intros _.
  eapply (yields_bind _ _ _ (fun _ => P)); [apply (yields_lift _ tt); [|done]|].
  { change (hdr_Size (regular ManifestEntryName text).1) with (Z.of_nat (String.length text)). by rewrite (proj2 (Z.ltb_ge _ _)). }
  intros _. eapply (yields_bind _ _ _ (fun _ => P)); [by apply (yields_lift _ tt)|]. intros _.
  eapply (yields_bind _ _ _ (fun r d => r = mf /\ P d)); [apply (yields_lift _ mf); [by rewrite Hj|done]|].
  intros r. apply yields_pure. intros ->. by apply yields_ret.
Qed.

Lemma yields_restore src force text mf b b' v probe latest ts :
  tar_read src = Some (stream_of (regular ManifestEntryName text :: regular DBEntryName b :: (att_entry <$> ts))) ->
  json_Unmarshal text = Some mf -> (Z.of_nat (String.length text) <= restoreManifestMaxBytes)%Z ->
  FormatVersion mf = ArchiveFormatVersion -> db_open "" = Ok (probe, latest) -> (man_SchemaVersion mf <= latest)%Z ->
  flockNB (path_Join [root; FileName]) = LockFree -> db_open b = Ok (b', v) -> Forall restorable ts -> NoDup ts.*1 ->
  yields empty_data (restore root src force) (fun s d => sum_Files s = Z.of_nat (length ts) /\ Restored b' (list_to_map ts) d).
Proof.
  intros Hread Hj Hl Hf Hprobe Hv Hfree Hopen Hr Hnd. unfold restore. rewrite db_place, !(join_top root) by done.
  eapply yields_bind; [apply yields_first|]. intros [].
  rewrite Hread. eapply (yields_bind _ _ _ (fun r d => r = stream_of (regular ManifestEntryName text :: regular DBEntryName b :: (att_entry <$> ts)) /\ Ready [] d));
    [by apply (yields_lift _ (stream_of (regular ManifestEntryName text :: regular DBEntryName b :: (att_entry <$> ts))))|].
  intros r. apply yields_pure. intros ->.
  eapply yields_bind; [by apply yields_readManifest|]. intros [manifest body]. apply yields_pure. intros [= -> ->].
  eapply (yields_bind _ _ _ (fun _ => Ready [])); [apply (yields_lift _ tt); [by rewrite Hf, Z.eqb_refl|done]|]. intros _.
  eapply yields_bind; [by eapply yields_latest|]. intros r. apply yields_pure. intros ->.
  eapply (yields_bind _ _ _ (fun _ => Ready [])); [apply (yields_lift _ tt); [by rewrite (proj2 (Z.ltb_ge _ _))|done]|]. intros _.
  eapply yields_bind; [apply yields_hasExisting|]. intros r. apply yields_pure. intros ->.
  eapply (yields_bind _ _ _ (fun _ => Ready [])); [by apply (yields_lift _ tt)|]. intros _.
  eapply yields_bind; [by apply yields_probeServer|]. intros warning.
  eapply yields_bind; [apply yields_probeDatabase|]. intros [].
  eapply yields_bind; [apply yields_staging_root|]. intros path m Hup (st & Hst & -> & Hm). revert m Hup Hm.
  enough (Hy : yields (Staged st None ∅) (finally (RemoveAll (place_of root [TmpSubdir; st]))
    (restore_staged root (stream_of (regular DBEntryName b :: (att_entry <$> ts))) false warning (place_of root [TmpSubdir; st])))
    (fun s d => sum_Files s = Z.of_nat (length ts) /\ Restored b' (list_to_map ts) d)) by exact Hy.
  eapply yields_finally; [by eapply yields_restore_staged|]. intros s.
  apply yields_RemoveAll; [by apply good_list; [|cbn; rewrite Hst]|].
  intros d d' [Hlen Hd] _ Ha _. split; [done|]. constructor.
  - rewrite Ha by (by apply good_list). rewrite decide_False by (intros [more E]; discriminate E). apply Hd.
  - intros n Hn Hne. rewrite Ha by (by apply good_list; [|cbn; rewrite Hn]). rewrite decide_False by (intros [more E]; discriminate E). by apply Hd.
  - intros y Hy. assert (Hg : good ([AttachmentsSubdir] ++ y)%list) by (by apply good_app; [apply good_list|apply Hy]).
    rewrite Ha by done. rewrite decide_False by (intros [more E]; discriminate E). by apply Hd.
Qed.
End rules.
End view.

(** ** The archive of a backup *)

Section archive.
Context (root : string) (root_given : root <> "") (f : gmap string File).

(** Every attachment is where the server puts them: a file in the directory of
    a group. *)
Definition stored : Prop := forall names x, present root f names x ->
  exists g n, names = [g; n] /\ contains_byte g "\" = false /\ contains_byte n "\" = false.

Lemma entries_listed new : stored -> (forall e, e ∈ new -> exists names x, present root f names x /\ e = entry_for names x) ->
  exists ts, new = att_entry <$> ts /\ Forall (fun t => restorable t /\ exists x, present root f [t.1.1; t.1.2] x /\ file_Bytes x = t.2) ts.
Proof.
  intros Hs. induction new as [|e new IH]; intros Hnew; [by exists []|].
  destruct IH as (ts & -> & Hts); [intros e' He'; apply Hnew; by right|].
  destruct (Hnew e ltac:(by left)) as (names & x & Hp & ->). destruct (Hs names x Hp) as (g & n & -> & Bg & Bn).
  exists ((g, n, file_Bytes x) :: ts). split; [done|]. constructor; [|done]. split; [|by exists x].
  destruct Hp as (Hn & _). apply Forall_cons in Hn as [Hg Hn]. apply Forall_cons in Hn as [Hn _]. done.
Qed.

Lemma collected_listed new : stored -> collected root f [] new ->
  exists ts, new = att_entry <$> ts /\ Forall restorable ts /\ NoDup ts.*1 /\
    forall g n c, (g, n, c) ∈ ts <-> exists x, present root f [g; n] x /\ file_Bytes x = c.
Proof.
  intros Hs [Hnd Hin]. destruct (entries_listed new Hs) as (ts & -> & Hts).
  { intros e (more & x & _ & Hp & ->)%Hin. by exists more, x. }
  exists ts. split; [done|]. split; [by eapply Forall_impl; [exact Hts|]; intros t [? _]|]. split.
  - apply (NoDup_fmap_1 (fun k => "attachments/" ++ k.1 ++ "/" ++ k.2)). rewrite <- !list_fmap_compose in *. exact Hnd.
  - intros g n c. rewrite Forall_forall in Hts. split.
    + intros Ht. destruct (Hts _ Ht) as [_ (x & Hp & Hc)]. by exists x.
    + intros (x & Hp & <-). assert (He : entry_for [g; n] x ∈ att_entry <$> ts) by (apply Hin; by exists [g; n], x).
      apply list_elem_of_fmap in He as (t & E & Ht). destruct t as [[g' n'] c'].
      assert (En : g ++ "/" ++ n = g' ++ "/" ++ n') by (exact (string_app_inj_r "attachments/" _ _ (f_equal (fun e => hdr_Name e.1) E))).
      apply (f_equal snd) in E. change (file_Bytes x = c') in E. subst c'. destruct (Hts _ Ht) as [(Hg' & Hn' & _) _]. cbn in Hg', Hn'.
      destruct Hp as (Hp & _). apply Forall_cons in Hp as [Hg Hp]. apply Forall_cons in Hp as [Hn _].
      apply (f_equal (fun s => Split s "/")) in En. change (Split (g ++ String "/" n) "/" = Split (g' ++ String "/" n') "/") in En.
      rewrite !Split_first, !Split_last in En by (by apply plain_facts). by injection En as -> ->.
Qed.
End archive.

(** ** From one data directory to another *)

Lemma spot_rest root rest : spot_of root [] ++ "/" ++ rest = place_of root ([AttachmentsSubdir] ++ Split rest "/")%list.
Proof.
  rewrite (place_app root [AttachmentsSubdir] (Split rest "/")) by (done || apply Split_not_nil). by rewrite Join_Split.
Qed.

Lemma restored_files root1 root2 f1 b ts d rest : root1 <> "" -> stored root1 f1 -> Restored root2 b (list_to_map ts) d -> NoDup ts.*1 ->
  (forall g n c, (g, n, c) ∈ ts <-> exists x, present root1 f1 [g; n] x /\ file_Bytes x = c) -> real rest ->
  file_Bytes <$> files d !! (spot_of root2 [] ++ "/" ++ rest) = file_Bytes <$> f1 !! (spot_of root1 [] ++ "/" ++ rest).
Proof.
  intros Hroot Hs Hd Hnd Hts Hr. assert (Hg : good (Split rest "/")) by (split; [apply Split_not_nil|exact Hr]).
  rewrite (spot_rest root2). fold (at_ root2 d ([AttachmentsSubdir] ++ Split rest "/")%list). rewrite (rs_atts _ _ _ _ Hd) by done.
  rewrite (spot_rest root1). change (place_of root1 ([AttachmentsSubdir] ++ Split rest "/")%list) with (spot_of root1 (Split rest "/")).
  destruct (f1 !! spot_of root1 (Split rest "/")) as [x|] eqn:E.
  - assert (Hp : present root1 f1 (Split rest "/") x) by (split; [apply Hg|split; [apply Hg|done]]).
    destruct (Hs _ _ Hp) as (g & n & Egn & _). rewrite Egn in Hp |- *. cbn [fmap option_fmap option_map].
    apply elem_of_list_to_map; [done|]. apply Hts. by exists x.
  - destruct (Split rest "/") as [|g [|n [|? ?]]] eqn:Egn; try done. cbn [fmap option_fmap option_map].
    apply not_elem_of_list_to_map. intros ([[g' n'] c] & Ek & Ht)%list_elem_of_fmap. cbn in Ek. injection Ek as <- <-.
    apply Hts in Ht as (x & (_ & _ & Hx) & _). congruence.
Qed.

Lemma restored_database root `{Engine} b atts d : root <> "" -> Restored root b atts d ->
  image (database_path root None) (files d) = [Some b; None; None; None].
Proof.
  intros Hroot Hd. assert (Hp : forall n, spot_dir root None DBSubdir ++ "/" ++ n = place_of root [DBSubdir; n]) by (intros n; symmetry; by apply (place_prefix root [DBSubdir])).
  assert (Hn : forall n, plain n = true -> n <> "hho.db" -> file_Bytes <$> files d !! (spot_dir root None DBSubdir ++ "/" ++ n) = None).
  { intros n Hpl Hne. rewrite Hp. by apply (rs_beside _ _ _ _ Hd). }
  unfold image, database_files, database_path. cbn [fmap list_fmap]. rewrite !string_app_assoc.
  change ("/" ++ "hho.db" ++ "-wal") with ("/" ++ "hho.db-wal"). change ("/" ++ "hho.db" ++ "-shm") with ("/" ++ "hho.db-shm").
  change ("/" ++ "hho.db" ++ "-journal") with ("/" ++ "hho.db-journal"). rewrite (Hn "hho.db-wal"), (Hn "hho.db-shm"), (Hn "hho.db-journal") by done.
  rewrite Hp. pose proof (rs_db _ _ _ _ Hd) as Hdb. unfold at_ in Hdb. by rewrite Hdb.
Qed.

(** C1: a backup can be restored.  Whatever calls failed meanwhile, when a
    backup reports success its file, restored into an empty data directory
    with no call failing and no server running there, is accepted: the
    database reads as that of the server did when it was backed up, and every
    file of the attachments has the bytes it had, and there are no others. *)
Theorem backup_restores (io1 io2 : IO) `{Engine, Archives, Locks} scheduled root1 dest m1 stats root2 force m2 probe b' v :
  (* archives are read as they are written *)
  (forall es, Forall sized es -> tar_read (archive_of es) = Some (stream_of es)) ->
  (forall call, let text := json_Marshal (manifest_at (H := io1) call) in
     json_Unmarshal text = Some (manifest_at (H := io1) call) /\ (Z.of_nat (String.length text) <= restoreManifestMaxBytes)%Z) ->
  (* a new database has the version of the schema, and the snapshot of one can be opened and reads the same *)
  db_open "" = Ok (probe, SchemaVersion) ->
  db_open (db_vacuum (wdb (mc_world m1))) = Ok (b', v) -> db_contents [Some b'; None; None; None] = Some (wdb (mc_world m1)) ->
  (* the data that is backed up *)
  root1 <> "" -> files (mc_disk m1) !! spot_of root1 [] = None -> stored root1 (files (mc_disk m1)) ->
  ~ temporary root1 (Dir dest) (archive_prefix_of scheduled) dest ->
  (forall names n, Forall (fun n => plain n = true) names -> archive_tmp (Dir dest) (archive_prefix_of scheduled) n <> spot_of root1 names) ->
  (* the backup reports success *)
  (write_to_file (H := io1) scheduled root1 dest m1).1 = Ok stats ->
  (* an empty data directory *)
  root2 <> "" -> empty_data root2 (mc_disk m2) -> (forall n, io_outcome (IO := io2) n = Succeeds) -> mc_up m2 = true ->
  flockNB (path_Join [root2; FileName]) = LockFree ->
  exists archive t summary m2',
    files (mc_disk (write_to_file (H := io1) scheduled root1 dest m1).2) !! dest = Some (mkFile archive t) /\
    restore (H := io2) root2 archive force m2 = (Ok summary, m2') /\
    db_contents (image (database_path root2 None) (files (mc_disk m2'))) = Some (wdb (mc_world m1)) /\
    forall rest, real rest ->
      file_Bytes <$> files (mc_disk m2') !! (spot_of root2 [] ++ "/" ++ rest) =
      file_Bytes <$> files (mc_disk m1) !! (spot_of root1 [] ++ "/" ++ rest).
Proof.
  intros Htar Hjson Hprobe Hopen Hcont Hroot1 Hatt Hstored Hdest Hapart Hok Hroot2 Hempty Hsucc Hup Hfree.
  pose proof (write_to_file_hoare (H := io1) scheduled root1 dest m1 Hroot1 Hatt Hapart) as Hrun.
  destruct (write_to_file scheduled root1 dest m1) as [r m1']. cbn [fst snd] in *. subst r. destruct Hrun as (es & t & (tm & new & -> & Hc) & Hfile & _).
  destruct (collected_listed root1 (files (mc_disk m1)) new Hstored Hc) as (ts & -> & Hr & Hnd & Hts).
  destruct (Hjson tm) as [Hj Hl].
  assert (Hsized : Forall sized (manifest_entry (H := io1) tm :: database_entry (wdb (mc_world m1)) :: (att_entry <$> ts))).
  { do 2 (constructor; [done|]). apply Forall_fmap, Forall_forall. done. }
  destruct (yields_restore root2 Hroot2 (H := io2) Hsucc _ force (json_Marshal (manifest_at (H := io1) tm)) (manifest_at (H := io1) tm) _ b' v probe SchemaVersion ts (Htar _ Hsized) Hj Hl
    eq_refl Hprobe ltac:(done) Hfree Hopen Hr Hnd m2 Hup Hempty) as (summary & m2' & Hrestore & _ & _ & Hd).
  eexists _, t, summary, m2'. split_and!; [exact Hfile|exact Hrestore| |].
  - by rewrite (restored_database root2 b' (list_to_map ts)).
  - intros rest Hrest. by apply (restored_files root1 root2 (files (mc_disk m1)) b' ts).
Qed.

(** *** An example *)

(** The household that is backed up has one attachment. *)
Lemma household_stored : stored "data" (files (mc_disk household)).
Proof.
  intros names x (Hn & Hne & Hx). unfold household, machine_with in Hx. cbn [mc_disk files] in Hx.
  assert (Hkey : "data/db/hho.db" = spot_of "data" names \/ "data/attachments/g1/a" = spot_of "data" names).
  { apply lookup_insert_Some in Hx as [[E _]|[_ Hx]]; [by left|right]. by apply lookup_singleton_Some in Hx as [E _]. }
  destruct Hkey as [E|E].
  - exfalso. pose proof (spot_app "data" [] names Hne) as Es. cbn [app] in Es. rewrite Es in E. discriminate E.
  - exists "g1", "a". change "data/attachments/g1/a" with (spot_of "data" ["g1"; "a"]) in E.
    apply (spot_inj "data") in E; [by subst|by repeat constructor|done].
Qed.

(** The clock stands still, so that the manifest can be computed. *)
Definition at_noon : IO := {| io_outcome _ := Succeeds; io_clock _ := seconds 0; io_random n := Z.of_nat n |}.

Lemma backup_restores_witness :
  let engine := demo_engine demo_db0 in let archives := simple_archives in let locks := no_server in
  let backup := write_to_file (H := at_noon) true "data" "data/backups/b.tar.gz" household in
  backup.1 = Ok (mkStats 1 7 0) /\
  exists archive t summary m2',
    files (mc_disk backup.2) !! "data/backups/b.tar.gz" = Some (mkFile archive t) /\
    restore (H := all_succeed) "other" archive false (machine_with demo_w0 ∅ ∅) = (Ok summary, m2') /\
    db_contents (image (database_path "other" None) (files (mc_disk m2'))) = Some demo_db0 /\
    file_Bytes <$> files (mc_disk m2') !! "other/attachments/g1/a" = Some "picture".
Proof.
  intros engine archives locks backup. assert (Hok : backup.1 = Ok (mkStats 1 7 0)) by (vm_compute; reflexivity). split; [exact Hok|].
  destruct (backup_restores at_noon all_succeed true "data" "data/backups/b.tar.gz" household (mkStats 1 7 0) "other" false
    (machine_with demo_w0 ∅ ∅) "" "image" 5) as (archive & t & summary & m2' & Hfile & Hrestore & Hcont & Hrest).
  - exact simple_tar_law.
  - intros call. split; vm_compute; [reflexivity|discriminate].
  - reflexivity.
  - reflexivity.
  - vm_compute. reflexivity.
  - discriminate.
  - vm_compute. reflexivity.
  - exact household_stored.
  - by apply (not_temporary true "data" _ "b" ".tar.gz").
  - intros names n Hn. by apply (archives_in_backups "data").
  - exact Hok.
  - discriminate.
  - split; [intros p _; split; [apply lookup_empty|apply not_elem_of_empty]|intros p _; apply lookup_empty].
  - done.
  - done.
  - done.
  - exists archive, t, summary, m2'. split; [exact Hfile|]. split; [exact Hrestore|]. split.
    + exact Hcont.
    + etrans; [exact (Hrest "g1/a" ltac:(by repeat constructor))|]. vm_compute. reflexivity.
Defined.
