(* ===== verification/AttachmentProperties.v ===== *)
(** * Properties of attachments

    Files stay in the directory of their group; the original of every live
    attachment is on the disk, byte for byte as its row says, and so is its
    thumbnail if it has one.  The invariant is kept by every request about
    files and by everything else the server does, whichever calls fail and
    wherever the process stops. *)

From stdpp Require Import pretty.
From S2P Require Import Prelude GoBase Schema Sql Evolution Queries PushRepo Items Blocks Details Exec History.
From S2P Require Import Labels Locations LocationTree PushFields PushHandlers PushCommit Accounts ImportCommit PushMerge Demo SyncReader System.
From S2P Require Import Integrity RepositoryProperties PullTheorems PullProperties Escape Strconv Reads Password Services DomainServices HttpCore HttpSync.
From S2P Require Import Api ApiProperties Paths Disk Attachments Effects AttachmentFiles.
From Stdlib Require Import Strings.Ascii.

(** ** The requests about files *)

(** The routes under [/items/{itemID}/attachments], and the pass of the
    reclamation for the group. *)
Inductive file_request :=
  | getAttachments (itemID : string)
  | postAttachment (maxBytes : Z) (itemID : string) (form : UploadForm)
  | getAttachment (itemID attachmentID : string)
  | getThumbnail (itemID attachmentID : string)
  | deleteAttachment (itemID attachmentID : string) (now : Z)
  | reclaimAttachments.

Definition served_of (r : Response Served) : option Served := match r with Reply _ s => Some s | _ => None end.

(** What a request serves of the files. *)
Definition serve_file `{Entropy, Sha256, IO, Imaging} (DetectContentType : string -> string) (root g : string) (r : file_request) :
    Prog Machine (option Served) :=
  match r with
  | getAttachments i => _ ← attachmentListHandler g i; mret None
  | postAttachment maxBytes i form => _ ← attachmentUploadHandler DetectContentType root g maxBytes i form; mret None
  | getAttachment i a => r ← attachmentDownloadHandler root g i a; mret (served_of r)
  | getThumbnail i a => r ← attachmentThumbnailDownloadHandler root g i a; mret (served_of r)
  | deleteAttachment i a now => _ ← attachmentDeleteHandler root g i a now; mret None
  | reclaimAttachments => _ ← reclaimGroup root g (mkReport 0 0 0 []); mret None
  end.

Section footprint.
Context `{Entropy, Sha256, IO, Imaging} (DetectContentType : string -> string).
Context (uuids : forall n id, uuid_NewV7 n = Some id -> uuid_text id = true).
Context (root : string) (root_given : root <> ""%string) (g : string) (g_plain : plain g = true).

#[local] Abbreviation untouched := (frame (own root g)).


Lemma untouched_getAttachmentOrNotFound {B} i a (k : Attachment -> Prog Machine (Response B)) :
  (forall row, does untouched (fun _ => True) (k row)) -> does untouched (fun _ => True) (getAttachmentOrNotFound g i a k).
Proof.
  intros Hk. eapply does_bind; [apply _|apply does_try, frame_database|]. intros [row|e] _; [apply Hk|by apply does_ret; [apply _|]].
Qed.

Lemma untouched_serve r : does untouched (fun _ => True) (serve_file DetectContentType root g r).
Proof.
  destruct r; cbn [serve_file]; (apply (does_bind _ (fun _ => True)); [|intros; by apply does_ret; [apply _|]]).
  - eapply does_answer; [apply _|apply frame_database|done|done].
  - unfold attachmentUploadHandler. destruct form; try (by apply does_ret; [apply _|]).
    eapply does_bind; [apply _|apply does_try; by apply frame_looks|]. intros [[]|e] _; [|by apply does_ret; [apply _|]].
    eapply does_answer; [apply _|by apply untouched_Upload|done|done].
  - apply untouched_getAttachmentOrNotFound. intros row. eapply (does_answer _ (fun _ => True)); [|done|done].
    eapply does_bind; [apply _|apply frame_lift|]. intros. apply frame_ReadFile.
  - apply untouched_getAttachmentOrNotFound. intros row. eapply (does_answer _ (fun _ => True)); [|done|done].
    unfold OpenThumbnail. case_match; [|apply does_throw; apply _].
    eapply does_bind; [apply _|apply frame_lift|]. intros. apply frame_ReadFile.
  - apply untouched_getAttachmentOrNotFound. intros row.
    eapply does_bind; [apply _|apply does_try, frame_database|]. intros [[]|e] _; [|by apply does_ret; [apply _|]].
    eapply does_bind; [apply _|by apply untouched_Delete|]. intros. by apply does_ret; [apply _|].
  - by apply untouched_reclaimGroup.
Qed.

(** ** What a download serves *)

Lemma call_disk {A} (run : nat -> Disk -> res A * Disk) m :
  (forall n d, (run n d).2 = d) -> mc_disk (plain_call run m).2 = mc_disk m.
Proof.
  intros Hrun. unfold plain_call, call. destruct (mc_up m); [|done]. destruct (io_outcome _); [|done..].
  specialize (Hrun (mc_calls m) (mc_disk m)). destruct (run _ _) as [r d]. done.
Qed.

Lemma database_disk {A} (q : M A) m : mc_disk (database q m).2 = mc_disk m.
Proof. unfold database. destruct (mc_up m); [|done]. destruct (io_outcome _); [|done..]. by destruct (q _). Qed.

Lemma ReadFile_ok path m bytes m' : ReadFile path m = (Ok bytes, m') ->
  exists f, files (mc_disk m) !! path = Some f /\ bytes = file_Bytes f.
Proof.
  unfold ReadFile, plain_call, call. destruct (mc_up m); [|done]. destruct (io_outcome _); [|done..].
  destruct (files (mc_disk m) !! path) as [f|]; [|done]. intros [= <- _]. eauto.
Qed.

Lemma try_eq {S A} (p : Prog S A) s : try p s = (Ok (p s).1, (p s).2).
Proof. unfold try. by destruct (p s). Qed.

Lemma openUnderGroup_ok path m bytes m' : openUnderGroup root g path m = (Ok bytes, m') ->
  exists p f, within root g p /\ files (mc_disk m) !! p = Some f /\ bytes = file_Bytes f.
Proof.
  unfold openUnderGroup. intros Ho. apply prog_bind_inv_ok in Ho as (c & m1 & Hc & Ho).
  unfold lift in Hc. injection Hc as Hc ->. apply ReadFile_ok in Ho as (f & Hf & ->).
  exists c, f. split; [by eapply resolve_within|done].
Qed.

(** A served answer comes from a file of the group. *)
Lemma served_own i a (open : Attachment -> Prog Machine string) cases ok m s m' :
  (forall row m bytes m', open row m = (Ok bytes, m') ->
     exists p f, within root g p /\ files (mc_disk m) !! p = Some f /\ bytes = file_Bytes f) ->
  (forall row bytes, served_of (ok row bytes) = Some s -> srv_Bytes s = bytes) ->
  (r ← getAttachmentOrNotFound g i a (fun row => answer (open row) cases (ok row)); mret (served_of r)) m = (Ok (Some s), m') ->
  exists p f, within root g p /\ files (mc_disk m) !! p = Some f /\ srv_Bytes s = file_Bytes f.
Proof.
  intros Hopen Hok Hr. apply prog_bind_inv_ok in Hr as (r & m1 & Hr & [= Hs <-]).
  unfold getAttachmentOrNotFound in Hr. apply prog_bind_inv_ok in Hr as (row & m2 & Hrow & Hr).
  rewrite try_eq in Hrow. injection Hrow as <- <-. pose proof (database_disk (Attachments_Get g i a) m) as Hd.
  destruct (database _ m) as [[row|e] m2]; cbn [fst snd] in *; [|injection Hr as <- _; unfold write_problem in Hs; by repeat case_match].
  unfold answer in Hr. apply prog_bind_inv_ok in Hr as (out & m3 & Hout & Hr). rewrite try_eq in Hout. injection Hout as <- <-.
  destruct (open row m2) as [[bytes|e] m3] eqn:E; cbn [fst snd] in *; [|injection Hr as <- _; unfold write_problem in Hs; by repeat case_match].
  injection Hr as <- _. destruct (Hopen _ _ _ _ E) as (p & f & Hp & Hf & ->). exists p, f.
  rewrite Hd in Hf. split_and!; [done|done|]. by eapply Hok.
Qed.

Lemma serve_file_own r m s m' : serve_file DetectContentType root g r m = (Ok (Some s), m') ->
  exists p f, within root g p /\ files (mc_disk m) !! p = Some f /\ srv_Bytes s = file_Bytes f.
Proof.
  assert (Hnone : forall A (p : Prog Machine A), (_ ← p; mret None) m = (Ok (Some s), m') -> False).
  { intros A p Hr. by apply prog_bind_inv_ok in Hr as (? & ? & _ & [=]). }
  destruct r; cbn [serve_file]; intros Hr; try (by apply Hnone in Hr).
  - eapply served_own; [|..|exact Hr]; [intros; by eapply openUnderGroup_ok|]. by intros row bytes [= <-].
  - eapply (served_own itemID attachmentID (OpenThumbnail root g)); [|..|exact Hr]; [|by intros row bytes [= <-]].
    intros row m0 bytes m1. unfold OpenThumbnail. case_match; [|done]. apply openUnderGroup_ok.
Qed.
End footprint.

(** C1: the files of a group stay its own.  Whatever a request about files asks
    for, whatever the stored paths say and whichever calls fail, no file in
    the directory of another group is changed, made or removed; and what a
    download serves is the content of a file in the directory of the group
    that asks.  (Group ids are plain names, by [NewGroupID], and UUIDs have
    neither slashes nor dots.) *)
Theorem files_stay_in_group `{Entropy, Sha256, IO, Imaging} DetectContentType root g r m :
  (forall n id, uuid_NewV7 n = Some id -> uuid_text id = true) -> root <> ""%string -> plain g = true ->
  let out := serve_file DetectContentType root g r m in
  (forall h path, plain h = true -> h <> g -> within root h path ->
     files (mc_disk out.2) !! path = files (mc_disk m) !! path) /\
  (forall served, out.1 = Ok (Some served) ->
     exists path f, within root g path /\ files (mc_disk m) !! path = Some f /\ srv_Bytes served = file_Bytes f).
Proof.
  intros Hu Hroot Hg. cbv zeta. split.
  - intros h path Hh Hne Hp. apply (untouched_serve DetectContentType Hu root Hroot g Hg r m).
    intros [Hown|Htmp]; [by eapply Hne, within_one|]. by eapply tmp_not_within.
  - intros served Hs. eapply serve_file_own; [done..|]. rewrite <- Hs. apply surjective_pairing.
Qed.

(** ** A machine *)

(** Digits are neither slashes nor dots. *)
Lemma pretty_free x s c : contains_byte s c = false -> (forall d, Ascii.eqb (pretty_N_char d) c = false) ->
  contains_byte (pretty_N_go x s) c = false.
Proof.
  intros Hs Hc. revert s Hs. induction (N.lt_wf_0 x) as [x _ IH]. intros s Hs.
  destruct (decide (x = 0)%N) as [->|]; [by rewrite pretty_N_go_0|].
  rewrite pretty_N_go_step by lia. apply IH; [apply N.div_lt; lia|].
  cbn [contains_byte]. by rewrite Hc.
Qed.

Lemma demo_uuid n id : uuid_NewV7 n = Some id -> uuid_text id = true.
Proof.
  intros [= <-].
  assert (Hfree : forall c, (forall d, Ascii.eqb (pretty_N_char d) c = false) -> contains_byte (pretty n) c = false).
  { intros c Hc. unfold pretty, pretty_nat, pretty, pretty_N. destruct (decide _); [|by apply pretty_free].
    cbn [contains_byte]. pose proof (Hc 0%N : Ascii.eqb "0"%char c = false) as H0. by rewrite H0. }
  unfold uuid_text, plain. rewrite !contains_byte_app, !Hfree; [done|..]; intros d; unfold pretty_N_char; by repeat case_match.
Qed.

#[local] Instance files_sha256 : Sha256.
Proof. refine {| sha256_hex s := ("#" ++ s)%string |}. done. Defined.

(** Calls succeed, a second apart. *)
#[local] Instance calm : IO := {| io_outcome _ := Succeeds; io_clock n := (10 ^ 18 + Z.of_nat n * 10 ^ 9)%Z; io_random n := Z.of_nat n |}.
(** An image is its text. *)
#[local] Instance text_images : Imaging :=
  {| Image := string; DecodeConfig _ := Some (640, 480)%Z; Decode s := Some s; Bounds _ := (640, 480)%Z;
     ScaleJPEG s w h := Some (FormatUint w ++ "x" ++ FormatUint h ++ " of " ++ s)%string |}.
Definition always_png (_ : string) : string := "image/png".

(** The household has a photo of its lamp, and another group has a file. *)
Definition photographed : Machine := Eval vm_compute in
  (serve_file always_png "/data" "g1" (postAttachment 100 "i1" (FormFile "lamp.png" "image" "a lamp"))
     (mkMachine household (mkDisk {["/data/attachments/g2/other" := mkFile "theirs" 5]} {["/data"; "/data/tmp"; "/data/attachments"]}) true 0)).2.

(** It has been given its place and a thumbnail. *)
Example photographed_files :
  (fun path => file_Bytes <$> files (mc_disk photographed) !! path) <$>
    ["/data/attachments/g2/other"; "/data/attachments/g1/uuid-0"; "/data/attachments/g1/uuid-0-thumb.jpg"]%string =
  [Some "theirs"; Some "a lamp"; Some "320x240 of a lamp"]%string.
Proof. vm_compute. reflexivity. Qed.

Lemma files_stay_in_group_witness :
  (forall n id, uuid_NewV7 n = Some id -> uuid_text id = true) /\ "/data"%string <> ""%string /\ plain "g1" = true /\
  let out := serve_file always_png "/data" "g1" (getThumbnail "i1" "uuid-0") photographed in
  (forall h path, plain h = true -> h <> "g1"%string -> within "/data" h path ->
     files (mc_disk out.2) !! path = files (mc_disk photographed) !! path) /\
  (forall served, out.1 = Ok (Some served) ->
     exists path f, within "/data" "g1" path /\ files (mc_disk photographed) !! path = Some f /\ srv_Bytes served = file_Bytes f).
Proof.
  split_and!; [exact demo_uuid|done|done|].
  apply (files_stay_in_group always_png "/data" "g1" (getThumbnail "i1" "uuid-0") photographed); [exact demo_uuid|done|done].
Defined.

Example photographed_served :
  match (serve_file always_png "/data" "g1" (getThumbnail "i1" "uuid-0") photographed).1 with
  | Ok (Some s) => srv_Bytes s = "320x240 of a lamp"%string
  | _ => False
  end.
Proof. vm_compute. reflexivity. Qed.

(** ** The invariant *)

Section invariant.
Context `{Entropy, Sha256, IO, Imaging} (DetectContentType : string -> string).
Context (root : string) (root_given : root <> ""%string).
(** What was uploaded under each id. *)
Context (log : gmap string string).

Definition thumb_name (id : string) : string := (id ++ thumbnailFileSuffix)%string.

(** The bytes are those the row speaks of. *)
Definition described (c : AttachmentCols) (bytes : string) : Prop :=
  att_SizeBytes c = Z.of_nat (String.length bytes) /\ att_Sha256 c = sha256_hex bytes /\
  att_ContentType c = DetectContentType (String.substring 0 sniffLen bytes).

Record row_on_disk (f : gmap string File) (row : Attachment) : Prop := mkRowOnDisk {
  rod_group : plain (GroupID row) = true;
  rod_id : uuid_text (ID row) = true;
  rod_path : att_StoragePath (Cols row) = path_Join [GroupID row; ID row];
  rod_original : exists file, f !! file_of root (GroupID row) (ID row) = Some file /\ described (Cols row) (file_Bytes file) /\ log !! ID row = Some (file_Bytes file);
  rod_thumbnail : forall path, att_ThumbnailPath (Cols row) = Some path ->
    path = path_Join [GroupID row; thumb_name (ID row)] /\
    is_Some (f !! file_of root (GroupID row) (thumb_name (ID row)))
}.

Definition on_disk (db : DB) (f : gmap string File) : Prop :=
  forall id row, attachments db !! id = Some row -> live row = true -> row_on_disk f row.

Definition Inv : assertion := fun w f => sound (wdb w) /\ on_disk (wdb w) f.

Lemma sound_keyed db : sound db -> keyed (attachments db).
Proof. intros Hs. apply (int_keyed _ _ (int_attachments _ (sound_integ _ Hs))). Qed.

(** A path that no live row needs. *)
Definition spare (db : DB) (path : string) : Prop :=
  forall id row, attachments db !! id = Some row -> live row = true -> plain (GroupID row) = true -> uuid_text (ID row) = true ->
    path <> file_of root (GroupID row) (ID row) /\
    (att_ThumbnailPath (Cols row) <> None -> path <> file_of root (GroupID row) (thumb_name (ID row))).

Lemma thumb_plain id : uuid_text id = true -> plain (thumb_name id) = true.
Proof. intros Hid%uuid_plain. apply plain_app; [done|done|simpl; lia]. Qed.

Lemma on_disk_files db f f' : on_disk db f -> (forall path, ~ spare db path -> f' !! path = f !! path) -> on_disk db f'.
Proof.
  intros Hd Hf id row Hrow Hl. destruct (Hd id row Hrow Hl) as [Hg Hid Hp Ho Ht]. split; try done.
  - rewrite Hf; [done|]. intros Hs. by destruct (Hs id row Hrow Hl Hg Hid).
  - intros path Hpath. destruct (Ht path Hpath) as [-> Hsome]. split; [done|]. rewrite Hf; [done|]. intros Hs.
    destruct (Hs id row Hrow Hl Hg Hid) as [_ Hne]. apply Hne; [by rewrite Hpath|done].
Qed.

Lemma spare_tmp db path : in_tmp root path -> spare db path.
Proof.
  intros Htmp id row _ _ Hg Hid. split; [intros ->|intros _ ->]; eapply tmp_not_within; [exact Hg|exact Htmp| |exact Hg|exact Htmp|];
    apply within_file; [by apply uuid_plain|by apply thumb_plain].
Qed.

Lemma thumb_not_uuid id id' : uuid_text id = true -> id <> thumb_name id'.
Proof.
  intros Hid ->. unfold uuid_text, thumb_name, thumbnailFileSuffix in Hid. rewrite contains_byte_app in Hid. simpl in Hid.
  by rewrite !orb_true_r, andb_false_r in Hid.
Qed.

Lemma thumb_name_inj id id' : thumb_name id = thumb_name id' -> id = id'.
Proof.
  unfold thumb_name. revert id'. induction id as [|c id IH]; intros [|c' id'] E; [done| | |].
  - apply (f_equal String.length) in E. rewrite !string_length_app in E. cbn [String.length] in E. lia.
  - apply (f_equal String.length) in E. rewrite !string_length_app in E. cbn [String.length] in E. lia.
  - rewrite !string_cons_app in E. injection E as -> E. f_equal. by apply IH.
Qed.

(** The names of an id that no live row has. *)
Definition unused (id : string) (db : DB) : Prop := forall row, attachments db !! id = Some row -> live row = false.

Lemma spare_unused db g id : sound db -> plain g = true -> uuid_text id = true -> unused id db -> spare db (file_of root g id).
Proof.
  intros Hs Hg Hid Hun id' row Hrow Hl Hg' Hid'. pose proof (sound_keyed db Hs id' row Hrow) as Hk.
  pose proof (uuid_plain _ Hid). pose proof (uuid_plain _ Hid'). pose proof (thumb_plain _ Hid').
  split; [|intros _]; intros E; apply file_of_inj in E as [_ E]; try done.
  - subst. by rewrite (Hun row Hrow) in Hl.
  - by apply (thumb_not_uuid id (ID row)).
Qed.

(** The name of the thumbnail of a row that has none. *)
Definition no_thumb (id : string) (db : DB) : Prop := forall row, attachments db !! id = Some row -> live row = true -> att_ThumbnailPath (Cols row) = None.

Lemma spare_thumb db g id : sound db -> plain g = true -> uuid_text id = true -> no_thumb id db -> spare db (file_of root g (thumb_name id)).
Proof.
  intros Hs Hg Hid Hno id' row Hrow Hl Hg' Hid'. pose proof (sound_keyed db Hs id' row Hrow) as Hk.
  pose proof (uuid_plain _ Hid). pose proof (uuid_plain _ Hid'). pose proof (thumb_plain _ Hid'). pose proof (thumb_plain _ Hid).
  split; [|intros Ht]; intros E; apply file_of_inj in E as [_ E]; try done.
  - by apply (thumb_not_uuid (ID row) id).
  - apply thumb_name_inj in E. apply Ht, (Hno row); [|done]. by rewrite E, Hk.
Qed.

(** ** What the repository does to the table *)

Lemma discard_world {A} (m : M A) w : wdb (discard m w).2 = wdb (m w).2.
Proof. unfold discard, mbind, prog_bind. by destruct (m w) as [[a|e] w']. Qed.

Lemma sound_event {A} (m : M A) e w : (forall w, handle_event e w = discard m w) -> sound (wdb w) -> sound (wdb (m w).2).
Proof. intros Hm Hs. rewrite <- discard_world, <- Hm. by apply handle_event_keeps_sound. Qed.

Lemma Create_run g p w row w' : Attachments_Create g p w = (Ok row, w') ->
  attachments (wdb w) !! ca_ID p = None /\ exists seq,
  attachments (wdb w') = <[ca_ID p := newRow (ca_ID p) g (ca_Now p) seq
    (mkAttachment (ca_ItemID p) (ca_Category p) (ca_OriginalFilename p) (ca_ContentType p) (ca_SizeBytes p) (ca_StoragePath p) None (ca_SHA256 p))]>
    (attachments (wdb w)).
Proof.
  intros Hr. unfold Attachments_Create in Hr. apply writeTx_ok in Hr as [_ Hr].
  unfold GetItem, CreateAttachment, Queries.GetAttachment in Hr. run_inv. simpl in *. split; [done|]. by eexists.
Qed.

(** The rows an UPDATE of one attachment leaves. *)
Definition one_changed (more : Attachment -> bool) (g i id : string) (change : Attachment -> Attachment) (t t' : gmap string Attachment) : Prop :=
  t' = update_where (fun r => (GroupID r =?s g) && (att_ItemID (Cols r) =?s i) && (ID r =?s id) && live r && more r) change t.

Lemma SetThumbnail_run g i id path now w row w' : Attachments_SetThumbnailPath g i id path now w = (Ok row, w') ->
  exists seq, one_changed (fun _ => true) g i id (touch now seq (set_thumbnail (Some path))) (attachments (wdb w)) (attachments (wdb w')).
Proof.
  intros Hr. unfold Attachments_SetThumbnailPath in Hr. apply writeTx_ok in Hr as [_ Hr].
  unfold SetAttachmentThumbnailPath, Queries.GetAttachment in Hr. run_inv. simpl in *. eexists. unfold one_changed, update_where. apply map_fmap_ext. intros k r _. by rewrite andb_true_r.
Qed.


Lemma Delete_run g i id now w u w' : Attachments_Delete g i id now w = (Ok u, w') ->
  exists seq, one_changed (fun _ => true) g i id (tombstone now seq) (attachments (wdb w)) (attachments (wdb w')).
Proof.
  intros Hr. unfold Attachments_Delete in Hr. apply writeTx_ok in Hr as [_ Hr].
  unfold DeleteAttachment in Hr. run_inv. simpl in *. eexists. unfold one_changed, update_where. apply map_fmap_ext. intros k r _. by rewrite andb_true_r.
Qed.

Lemma ClearThumbnail_run g i id now w u w' : Attachments_ClearThumbnailPath g i id now w = (Ok u, w') ->
  exists seq, one_changed (fun r => has_thumbnail (Cols r)) g i id (touch now seq (set_thumbnail None)) (attachments (wdb w)) (attachments (wdb w')).
Proof.
  intros Hr. unfold Attachments_ClearThumbnailPath in Hr. apply writeTx_ok in Hr as [_ Hr].
  unfold ClearAttachmentThumbnailPath in Hr. run_inv. simpl in *. eexists. reflexivity.
Qed.

Lemma one_changed_lookup more g i id change t t' k row' : one_changed more g i id change t t' -> t' !! k = Some row' ->
  exists row, t !! k = Some row /\
    (row' = row \/ row' = change row /\ GroupID row = g /\ att_ItemID (Cols row) = i /\ ID row = id /\ live row = true).
Proof.
  intros -> Hk. rewrite update_where_lookup in Hk. destruct (t !! k) as [row|]; [|done]. injection Hk as <-.
  exists row. split; [done|]. destruct (_ && _) eqn:E; [right|by left]. by bool_facts.
Qed.

(** ** Calls on paths that nothing needs *)

(** [P] does not depend on what is at [path]. *)
Definition indifferent (P : assertion) (path : string) : Prop :=
  forall w f f', P w f -> (forall p, p <> path -> f' !! p = f !! p) -> P w f'.

(** The invariant, and something about the database. *)
Definition with_db (J : DB -> Prop) : assertion := fun w f => Inv w f /\ J (wdb w).

Definition and_file (P : assertion) (path bytes : string) : assertion :=
  fun w f => P w f /\ exists t, f !! path = Some (mkFile bytes t).

Lemma indifferent_with_db J path : (forall db, sound db -> J db -> spare db path) -> indifferent (with_db J) path.
Proof.
  intros Hspare w f f' [[Hs Hd] HJ] Hf. split; [split|]; [done| |done].
  eapply on_disk_files; [exact Hd|]. intros p Hp. apply Hf. intros ->. by apply Hp, Hspare.
Qed.

Lemma indifferent_tmp J path : in_tmp root path -> indifferent (with_db J) path.
Proof. intros Ht. apply indifferent_with_db. intros. by apply spare_tmp. Qed.

Lemma indifferent_and_file P path q bytes : indifferent P path -> q <> path -> indifferent (and_file P q bytes) path.
Proof.
  intros HP Hq w f f' [HPw [t Ht]] Hf. split; [by eapply HP|]. exists t. by rewrite Hf.
Qed.

Lemma and_file_left P path bytes : entails (and_file P path bytes) P.
Proof. by intros w f [HP _]. Qed.

Lemma hoare_Remove P path : indifferent P path -> hoare P (Remove path) (fun _ => P) P.
Proof.
  intros HP. apply hoare_call; [|done|done]. intros w d n Hd.
  destruct (files d !! path); [|destruct (is_dir _ _); [destruct (empty_dir _ _)|]; exact Hd]. cbn [set_files files].
  eapply HP; [exact Hd|]. intros p Hp. by rewrite lookup_delete_ne.
Qed.

Lemma append_keeps P path bytes n w d : indifferent P path -> P w (files d) -> P w (files (append_to path bytes n d)).
Proof.
  intros HP Hd. unfold append_to. destruct (files d !! path); [|done]. cbn [set_files files].
  eapply HP; [exact Hd|]. intros p Hp. by rewrite lookup_insert_ne.
Qed.

Lemma hoare_Write P path b bytes : indifferent P path ->
  hoare (and_file P path b) (Write path bytes) (fun _ => and_file P path (b ++ bytes)) P.
Proof.
  intros HP. apply hoare_call; [| |apply and_file_left].
  - intros w d n [Hd [t Ht]]. split; [by apply append_keeps|]. unfold append_to. rewrite Ht. cbn [set_files files file_Bytes].
    exists (io_clock n). by rewrite lookup_insert_eq.
  - intros w d k n [Hd _]. by apply append_keeps.
Qed.

Lemma hoare_Rename P a b bytes : indifferent P a -> indifferent P b ->
  hoare (and_file P a bytes) (Rename a b) (fun _ => and_file P b bytes) P.
Proof.
  intros Ha Hb. apply hoare_call; [|by intros w d k n [Hd _]|apply and_file_left].
  intros w d n [Hd [t Ht]]. unfold rename_file. rewrite Ht. destruct (negb _); [exact Hd|]. destruct (is_dir b d); [exact Hd|].
  cbn [set_files files]. split; [|exists t; by rewrite lookup_insert_eq].
  eapply Hb; [|intros p Hp; by rewrite lookup_insert_ne]. eapply Ha; [exact Hd|]. intros p Hp. by rewrite lookup_delete_ne.
Qed.

Lemma hoare_CreateTemp J prefix suffix :
  plain prefix = true -> contains_byte suffix "/" = false -> (2 < String.length suffix)%nat ->
  hoare (with_db J) (CreateTemp (path_Join [root; TmpSubdir]) prefix suffix)
    (fun tmp w f => in_tmp root tmp /\ and_file (with_db J) tmp "" w f) (with_db J).
Proof.
  intros Hp Hs Hl. apply hoare_call; [|done|done]. intros w d n Hd. cbv zeta.
  assert (Htmp := tmp_path root root_given prefix suffix (io_random n mod 2 ^ 32) Hp Hs Hl).
  set (path := path_Join [path_Join _; _]) in *. destruct (negb _); [exact Hd|]. destruct (files d !! path); [exact Hd|]. destruct (is_dir path d); [exact Hd|].
  split; [done|]. split; [|exists (io_clock n); cbn [set_files files]; by rewrite lookup_insert_eq].
  eapply indifferent_tmp; [exact Htmp|exact Hd|]. intros p Hne. cbn [set_files files]. by rewrite lookup_insert_ne.
Qed.

(** A query changes nothing. *)
Lemma hoare_query {A} (q : M A) J : readonly q -> hoare (with_db J) (database q) (fun _ => with_db J) (with_db J).
Proof.
  intros Hq. apply hoare_database; [|done]. intros w f Hw. specialize (Hq w).
  destruct (q w) as [[a|e] w']; cbn [snd] in Hq; unfold with_db, Inv in *; by rewrite Hq.
Qed.

(** A row that is good stays good next to a changed one. *)
Lemma on_disk_changed f more g i id change db db' :
  on_disk db f -> one_changed more g i id change (attachments db) (attachments db') ->
  (forall row, attachments db !! id = Some row -> GroupID row = g -> ID row = id -> live (change row) = true ->
     row_on_disk f row -> row_on_disk f (change row)) ->
  keyed (attachments db) -> on_disk db' f.
Proof.
  intros Hd Hch Hgood Hk k row' Hrow' Hl'.
  destruct (one_changed_lookup _ _ _ _ _ _ _ _ _ Hch Hrow') as (row & Hrow & [->|(-> & Hg & Hi & Hid & Hl)]); [by eapply Hd|].
  pose proof (Hk _ _ Hrow) as Hkk. rewrite Hid in Hkk. subst k. apply Hgood; [done..|by eapply Hd].
Qed.

(** ** Thumbnails *)

Lemma with_db_inv J : entails (with_db J) Inv.
Proof. by intros w f [HI _]. Qed.

Lemma indifferent_thumb g id : plain g = true -> uuid_text id = true -> indifferent (with_db (no_thumb id)) (file_of root g (thumb_name id)).
Proof. intros Hg Hid. apply indifferent_with_db. intros. by apply spare_thumb. Qed.

Lemma indifferent_file g id : plain g = true -> uuid_text id = true -> indifferent (with_db (unused id)) (file_of root g id).
Proof. intros Hg Hid. apply indifferent_with_db. intros. by apply spare_unused. Qed.

Lemma tmp_ne g path n : plain g = true -> plain n = true -> in_tmp root path -> file_of root g n <> path.
Proof. intros Hg Hn Ht <-. eapply tmp_not_within; [exact Hg|exact Ht|]. by apply within_file. Qed.

Lemma hoare_passing P E : entails P E -> hoare P passing_call (fun _ => P) E.
Proof. intros HE. by apply hoare_looks. Qed.

Lemma hoare_MkdirAll P dir E : entails P E -> hoare P (MkdirAll dir) (fun _ => P) E.
Proof. intros HE. apply hoare_looks; [|done]. intros n d. by case_match. Qed.

Lemma hoare_fsyncDir P dir E : entails P E -> hoare P (fsyncDir dir) (fun _ => P) E.
Proof. intros HE. eapply hoare_bind; [by apply hoare_passing|]. intros []. by apply hoare_passing. Qed.

(** Write a temporary file and move it to its place. *)
Lemma hoare_SetThumbnail g i id now : plain g = true -> uuid_text id = true ->
  let path := path_Join [g; thumb_name id] in
  forall data, hoare (and_file (with_db (no_thumb id)) (file_of root g (thumb_name id)) data)
    (database (Attachments_SetThumbnailPath g i id path now)) (fun _ => Inv) (with_db (no_thumb id)).
Proof.
  intros Hg Hid path data. apply hoare_database; [|apply and_file_left].
  intros w f [[[Hs Hd] Hno] [t Ht]].
  pose proof (sound_event (Attachments_SetThumbnailPath g i id path now) (OfGroup g (AttachmentsSetThumbnail i id path now)) w (fun _ => eq_refl) Hs) as Hs'.
  destruct (Attachments_SetThumbnailPath g i id path now w) as [[row|e] w'] eqn:E; cbn [snd] in Hs'.
  - apply SetThumbnail_run in E as [seq Hch]. split; [done|].
    eapply on_disk_changed; [exact Hd|exact Hch| |by apply sound_keyed].
    intros r Hr Hrg Hrid Hl [Hrg' Hrid' Hrp Hro Hrt]. split; try done. intros p [= <-]. cbn.
    rewrite Hrg, Hrid. split; [done|]. by eexists.
  - apply writeTx_err in E. unfold with_db, Inv. by rewrite E.
Qed.

Lemma hoare_generateAndRecordThumbnail g i id contentType : plain g = true -> uuid_text id = true ->
  hoare (with_db (no_thumb id)) (generateAndRecordThumbnail root g g i id contentType) (fun _ => Inv) Inv.
Proof.
  intros Hg Hid. pose proof (uuid_plain _ Hid) as Hid'. pose proof (thumb_plain _ Hid) as Hth.
  assert (Hleave : entails (with_db (no_thumb id)) Inv) by apply with_db_inv.
  unfold generateAndRecordThumbnail. fold (thumb_name id).
  eapply hoare_bind; [by apply (hoare_lift _ _ (fun _ => with_db (no_thumb id)))|]. intros []. cbv zeta. rewrite join_dir, !join_file by done.
  eapply hoare_bind; [|intros data].
  { unfold generateThumbnail. eapply hoare_bind; [apply hoare_looks; [|done]; intros n d; by case_match|].
    intros bytes. apply (hoare_lift _ _ (fun _ => with_db (no_thumb id))); [done|done]. }
  eapply hoare_bind; [eapply hoare_conseq; [by apply (hoare_CreateTemp (no_thumb id)); [..|simpl; lia]|done|done|done]|].
  intros tmp. apply hoare_pure. intros Htmp.
  pose proof (indifferent_tmp (no_thumb id) tmp Htmp) as Hitmp. pose proof (indifferent_thumb g id Hg Hid) as Hith.
  eapply hoare_bind; [|intros []].
  { eapply (hoare_or_remove _ _ _ (fun _ => and_file (with_db (no_thumb id)) (file_of root g (thumb_name id)) data) (with_db (no_thumb id)));
      [|eapply hoare_conseq; [by apply hoare_Remove|done|done|done]].
    eapply hoare_bind; [by apply hoare_Write|]. intros [].
    do 2 (eapply hoare_bind; [apply hoare_passing, and_file_left|]; intros []). by apply hoare_Rename. }
  eapply hoare_or_remove; [|eapply hoare_conseq; [by apply (hoare_Remove (with_db (no_thumb id)))|done|done|done]].
  eapply hoare_bind; [apply hoare_fsyncDir, and_file_left|]. intros [].
  eapply hoare_bind; [apply hoare_looks; [done|apply and_file_left]|]. intros now.
  by apply hoare_SetThumbnail.
Qed.

(** ** Uploads *)

(** No UUID that is still to be drawn is taken. *)
Definition fresh (w : World) : Prop := forall n id, (draws w <= n)%nat -> uuid_NewV7 n = Some id -> attachments (wdb w) !! id = None.

Definition absent (id : string) (db : DB) : Prop := attachments db !! id = None.

Lemma absent_unused id db : absent id db -> unused id db.
Proof. unfold absent. intros Ha row. by rewrite Ha. Qed.

Lemma indifferent_absent g id : plain g = true -> uuid_text id = true -> indifferent (with_db (absent id)) (file_of root g id).
Proof. intros Hg Hid. apply indifferent_with_db. intros db Hs Ha. apply spare_unused; try done. by apply absent_unused. Qed.

Lemma substring_all s : forall n, (String.length s <= n)%nat -> String.substring 0 n s = s.
Proof.
  induction s as [|c s IH]; intros n Hn; [by destruct n|]. destruct n as [|n]; cbn [String.length] in Hn; [lia|].
  cbn [String.substring]. rewrite IH by lia. done.
Qed.

Lemma hoare_stage P maxBytes src tmp dir final : indifferent P tmp -> indifferent P final ->
  hoare (and_file P tmp "") (stage maxBytes src tmp dir final) (fun _ => and_file P final src) P.
Proof.
  intros Ht Hf. unfold stage. pose proof and_file_left as Hleft.
  eapply hoare_bind; [by apply hoare_passing|]. intros [].
  eapply hoare_bind; [by apply hoare_Write|]. intros [].
  eapply hoare_bind; [apply (hoare_lift _ _ (fun _ => and_file P tmp src))|intros []].
  - intros [] Hle. unfold require in Hle. destruct (Z.leb_spec (Z.of_nat (String.length src)) maxBytes); [|done].
    rewrite substring_all by lia. done.
  - done.
  - do 2 (eapply hoare_bind; [by apply hoare_passing|]; intros []).
    eapply hoare_bind; [by apply hoare_MkdirAll|]. intros []. by apply hoare_Rename.
Qed.

Lemma hoare_Create g i id cat filename contentType src now : plain g = true -> uuid_text id = true -> log !! id = Some src ->
  contentType = DetectContentType (String.substring 0 sniffLen src) ->
  hoare (and_file (with_db (absent id)) (file_of root g id) src)
    (database (Attachments_Create g (mkCreateAttachment id i cat filename contentType (Z.of_nat (String.length src))
       (path_Join [g; id]) (sha256_hex src) now)))
    (fun _ => with_db (no_thumb id)) (with_db (absent id)).
Proof.
  intros Hg Hid Hlog Hct. set (p := mkCreateAttachment _ _ _ _ _ _ _ _ _).
  apply hoare_database; [|apply and_file_left]. intros w f [[[Hs Hd] Ha] [t Ht]].
  pose proof (sound_event (Attachments_Create g p) (OfGroup g (AttachmentsCreate p)) w (fun _ => eq_refl) Hs) as Hs'.
  destruct (Attachments_Create g p w) as [[row|e] w'] eqn:E; cbn [snd] in Hs'.
  - apply Create_run in E as (_ & seq & E). cbn in E. split; [split; [done|]|].
    + intros k r. rewrite E. destruct (decide (k = id)) as [->|Hne].
      * rewrite lookup_insert_eq. intros [= <-] _. split; cbn; try done. eexists. split; [exact Ht|]. by split_and!.
      * rewrite lookup_insert_ne by done. apply Hd.
    + intros r. rewrite E, lookup_insert_eq. by intros [= <-].
  - apply writeTx_err in E. unfold with_db, Inv. by rewrite E.
Qed.

Lemma Items_Get_state g i w : (Items_Get g i w).2 = w.
Proof.
  unfold Items_Get, no_rows_as, GetItem, mbind, prog_bind, try.
  match goal with |- context [select_one ?P w] => pose proof (select_one_state P w) as Hs; destruct (select_one P w) as [[r|e] w'] end;
    cbn in *; [done|]. by destruct (is_no_rows e).
Qed.

Context (uuids : forall n id, uuid_NewV7 n = Some id -> uuid_text id = true).

(** The next id is not taken, and [src] is to be uploaded under it. *)
Definition ready (src : string) : assertion := fun w f =>
  Inv w f /\ fresh w /\ forall id, uuid_NewV7 (draws w) = Some id -> log !! id = Some src.

Lemma hoare_Upload g maxBytes p src : plain g = true -> up_GroupID p = g ->
  hoare (ready src) (Upload DetectContentType root g maxBytes p src) (fun _ => Inv) Inv.
Proof.
  intros Hg Hpg. unfold Upload.
  assert (Hready : entails (ready src) Inv) by (by intros w f [HI _]).
  do 3 (eapply hoare_bind; [by apply (hoare_lift _ _ (fun _ => ready src))|intros []]).
  eapply (hoare_bind _ _ _ (fun _ => ready src)); [|intros item].
  { apply hoare_database; [|done]. intros w f Hw. pose proof (Items_Get_state g (up_ItemID p) w) as Hst.
    destruct (Items_Get g _ w) as [[r|e] w']; cbn [snd] in Hst; subst; [done|by apply Hready]. }
  eapply (hoare_bind _ _ _ (fun id w f => (uuid_text id = true /\ log !! id = Some src) /\ with_db (absent id) w f)); [|intros id; apply hoare_pure; intros [Hid Hlog]].
  { intros m (HI & Hfresh & Hlog). unfold newID. destruct (mc_up m); [|exact HI]. unfold draw.
    destruct (uuid_NewV7 (draws (mc_world m))) as [id|] eqn:E; [|exact HI].
    split; [split; [by eapply uuids|by apply Hlog]|]. split; [exact HI|]. by eapply Hfresh. }
  pose proof (uuid_plain _ Hid) as Hid'.
  assert (Hleave : entails (with_db (absent id)) Inv) by apply with_db_inv.
  eapply hoare_bind; [eapply hoare_conseq; [by apply (hoare_CreateTemp (absent id)); [..|simpl; lia]|done|done|done]|].
  intros tmp. apply hoare_pure. intros Htmp. cbv zeta. rewrite Hpg, join_dir, join_file by done.
  pose proof (indifferent_tmp (absent id) tmp Htmp) as Hitmp. pose proof (indifferent_absent g id Hg Hid) as Hifile.
  eapply hoare_bind; [|intros []].
  { eapply hoare_or_remove; [by apply (hoare_stage (with_db (absent id)))|]. eapply hoare_conseq; [by apply hoare_Remove|done|done|done]. }
  assert (Hleave' : entails (and_file (with_db (absent id)) (file_of root g id) src) Inv) by (intros w f [Hw _]; by apply Hleave).
  eapply hoare_bind; [by apply hoare_fsyncDir|]. intros [].
  eapply hoare_bind; [by apply hoare_looks|]. intros now.
  eapply hoare_bind; [|intros created].
  { eapply hoare_or_remove; [by apply hoare_Create|]. eapply hoare_conseq; [by apply (hoare_Remove (with_db (absent id)))|done|done|done]. }
  eapply hoare_bind; [eapply hoare_try; by apply hoare_generateAndRecordThumbnail|].
  intros r. apply hoare_ret. by destruct r.
Qed.

(** ** Deletions *)

Lemma unused_no_thumb id db : unused id db -> no_thumb id db.
Proof. intros Hu row Hrow Hl. by rewrite (Hu row Hrow) in Hl. Qed.

Lemma indifferent_unused_thumb g id : plain g = true -> uuid_text id = true -> indifferent (with_db (unused id)) (file_of root g (thumb_name id)).
Proof. intros Hg Hid. apply indifferent_with_db. intros. apply spare_thumb; try done. by apply unused_no_thumb. Qed.

Lemma hoare_removeUnderGroup g P path : (forall c, resolveUnderGroup root g path = Ok c -> indifferent P c) ->
  hoare P (removeUnderGroup root g path) (fun _ => P) P.
Proof.
  intros HP. unfold removeUnderGroup.
  apply (hoare_bind _ _ _ (fun c w f => resolveUnderGroup root g path = Ok c /\ P w f)); [by apply hoare_lift|].
  intros c. apply hoare_pure. intros Hc. eapply hoare_bind; [eapply hoare_try, hoare_Remove, HP, Hc|].
  intros [[]|e]; [by apply hoare_ret|]. cbn beta iota. case_match; [by apply hoare_ret|by apply hoare_throw].
Qed.

(** What a live row says about its paths. *)
Definition well_placed (g id : string) (row : Attachment) : Prop :=
  att_StoragePath (Cols row) = path_Join [g; id] /\
  forall path, att_ThumbnailPath (Cols row) = Some path -> path = path_Join [g; thumb_name id].

Lemma hoare_Delete g id row : plain g = true -> uuid_text id = true -> well_placed g id row ->
  hoare (with_db (unused id)) (Delete root g row) (fun _ => with_db (unused id)) (with_db (unused id)).
Proof.
  intros Hg Hid [Hp Ht]. pose proof (uuid_plain _ Hid) as Hid'. pose proof (thumb_plain _ Hid) as Hth.
  unfold Delete. eapply hoare_bind; [eapply hoare_try, hoare_removeUnderGroup|].
  { intros c. rewrite Hp, resolve_file by done. intros Hc%Ok_inj. rewrite <- Hc. by apply indifferent_file. }
  intros original. destruct (att_ThumbnailPath (Cols row)) as [path|]; [|apply hoare_ret; by destruct original].
  rewrite (Ht path) by done.
  apply (hoare_conseq _ (with_db (unused id)) _ _ (fun _ => with_db (unused id)) _ (with_db (unused id))); [|by destruct original|done|done].
  eapply hoare_bind; [eapply hoare_try, hoare_removeUnderGroup|].
  { intros c. rewrite resolve_file by done. intros Hc%Ok_inj. rewrite <- Hc. by apply indifferent_unused_thumb. }
  intros thumbnail. apply hoare_ret. by destruct thumbnail.
Qed.

(** The live row of an id. *)
Definition found (g i a : string) (row : Attachment) (db : DB) : Prop :=
  attachments db !! a = Some row /\ GroupID row = g /\ att_ItemID (Cols row) = i /\ ID row = a /\ live row = true.

Lemma Get_run g i a w : keyed (attachments (wdb w)) ->
  (Attachments_Get g i a w).2 = w /\ forall row, (Attachments_Get g i a w).1 = Ok row -> found g i a row (wdb w).
Proof.
  intros Hk. unfold Attachments_Get, Queries.GetAttachment, no_rows_as, lift, reject, try, mbind, prog_bind.
  destruct (i =?s ""); [done|]. destruct (a =?s ""); [done|].
  match goal with |- context [select_one ?P w] => destruct (select_one P w) as [[row|e] w'] eqn:E end; cbn.
  - apply select_one_ok in E as (-> & HP & k & Hrow). split; [done|]. intros ? [= <-].
    bool_facts. pose proof (Hk _ _ Hrow). subst. by split.
  - apply select_one_err in E as (-> & _ & _). by destruct (is_no_rows e).
Qed.

Lemma found_Get g i a w row : keyed (attachments (wdb w)) -> found g i a row (wdb w) -> i <> ""%string -> a <> ""%string ->
  Attachments_Get g i a w = (Ok row, w).
Proof.
  intros Hk (Hrow & Hg & Hi & Hid & Hl) Hi0%string_eqb_false Ha0%string_eqb_false.
  unfold Attachments_Get, no_rows_as, lift, reject, try, mbind, prog_bind. rewrite Hi0, Ha0.
  assert (E : Queries.GetAttachment g i a w = (Ok row, w)).
  { apply (select_one_hit _ _ a row); [done|done|by rewrite Hg, Hi, Hid, !string_eqb_refl|]. intros r' HP'. bool_facts. by subst. }
  by rewrite E.
Qed.

Lemma hoare_Get g i a :
  hoare Inv (database (Attachments_Get g i a))
    (fun row w f => (plain g = true /\ uuid_text a = true /\ well_placed g a row) /\ with_db (found g i a row) w f) Inv.
Proof.
  apply hoare_database; [|done]. intros w f [Hs Hd]. destruct (Get_run g i a w (sound_keyed _ Hs)) as [Hw Hrun].
  destruct (Attachments_Get g i a w) as [[row|e] w']; cbn [fst snd] in *; subst w'; [|done].
  destruct (Hrun row eq_refl) as (Hrow & Hg & Hi & Hid & Hl).
  destruct (Hd a row Hrow Hl) as [Hpg Hu Hpath _ Ht]. rewrite Hg, Hid in *.
  split; [split_and!; [done..|split; [done|intros p Hp; by apply Ht]]|by split].
Qed.

Lemma hoare_deleteRow g i a row now :
  hoare (with_db (found g i a row)) (database (Attachments_Delete g i a now)) (fun _ => with_db (unused a)) Inv.
Proof.
  apply hoare_database; [|apply with_db_inv]. intros w f [[Hs Hd] (Hrow & Hg & Hi & Hid & Hl)].
  pose proof (sound_event (Attachments_Delete g i a now) (OfGroup g (AttachmentsDelete i a now)) w (fun _ => eq_refl) Hs) as Hs'.
  destruct (Attachments_Delete g i a now w) as [[u|e] w'] eqn:E; cbn [snd] in Hs'.
  - apply Delete_run in E as [seq Hch]. split; [split; [done|]|].
    + eapply on_disk_changed; [exact Hd|exact Hch| |by apply sound_keyed]. by intros r _ _ _ Hdead.
    + intros r Hr. unfold one_changed in Hch. rewrite Hch, update_where_lookup, Hrow in Hr. injection Hr as <-.
      by rewrite Hg, Hi, Hid, !string_eqb_refl, Hl.
  - apply writeTx_err in E. unfold Inv. by rewrite E.
Qed.

Lemma hoare_found {B} g i a (k : Attachment -> Prog Machine (Response B)) E :
  (forall row, plain g = true -> uuid_text a = true -> well_placed g a row -> hoare (with_db (found g i a row)) (k row) (fun _ => Inv) E) ->
  hoare Inv (getAttachmentOrNotFound g i a k) (fun _ => Inv) E.
Proof.
  intros Hk. eapply hoare_bind; [eapply hoare_try, hoare_Get|].
  intros [row|e]; cbn beta iota; [|by apply hoare_ret]. apply hoare_pure. intros (Hg & Ha & Hw). by apply Hk.
Qed.

(** ** The reclamation *)

(** The names that the live rows of the group need are referenced. *)
Definition covered (g : string) (referenced : gset string) (db : DB) : Prop :=
  forall id row, attachments db !! id = Some row -> live row = true -> GroupID row = g ->
    ID row ∈ referenced /\ (att_ThumbnailPath (Cols row) <> None -> thumb_name (ID row) ∈ referenced).

Lemma covered_listing g w f rows : plain g = true -> Inv w f -> rows = where_ (fun r : Attachment => GroupID r =?s g) (attachments (wdb w)) ->
  covered g (referenced_names rows) (wdb w).
Proof.
  intros Hg [Hs Hd] -> id row Hrow Hl Hrg. destruct (Hd id row Hrow Hl) as [_ Hid Hp _ Ht].
  pose proof (uuid_plain _ Hid) as Hid'. pose proof (thumb_plain _ Hid) as Hth.
  assert (Hin : row ∈ live_attachments (where_ (fun r : Attachment => GroupID r =?s g) (attachments (wdb w)))).
  { apply elem_of_filter_bool. split; [|done]. apply elem_of_where. split; [by exists id|]. by apply string_eqb_true. }
  assert (Hname : forall n, n ∈ row_names row -> n ∈ referenced_names (where_ (fun r : Attachment => GroupID r =?s g) (attachments (wdb w)))).
  { intros n Hn. apply elem_of_list_to_set, list_elem_of_bind. by exists row. }
  split.
  - apply Hname. unfold row_names. rewrite Hp, Base_group_name by (done || by rewrite Hrg). by left.
  - intros Hsome. apply Hname. unfold row_names. destruct (att_ThumbnailPath (Cols row)) as [path|]; [|done].
    destruct (Ht path eq_refl) as [-> _]. rewrite (Base_group_name _ (thumb_name (ID row))) by (done || by rewrite Hrg). right. by left.
Qed.

Lemma spare_unreferenced g referenced db name : plain g = true -> plain name = true -> name ∉ referenced -> covered g referenced db ->
  spare db (file_of root g name).
Proof.
  intros Hg Hn Hnot Hcov id row Hrow Hl Hrg Hid. pose proof (uuid_plain _ Hid). pose proof (thumb_plain _ Hid).
  split; [|intros Ht]; intros E; apply file_of_inj in E as [Eg E]; try done; destruct (Hcov id row Hrow Hl (eq_sym Eg)); subst name; auto.
Qed.

Lemma name_in_plain dir path name : name_in dir path = Some name -> plain name = true.
Proof. unfold name_in. destruct (strip_prefix _ _); [|done]. destruct (plain _) eqn:E; [|done]. by intros [= <-]. Qed.

Lemma subdir_in_plain dir path name : subdir_in dir path = Some name -> plain name = true.
Proof. unfold subdir_in. repeat case_match; try done. by intros [= <-]. Qed.

Lemma entries_plain dir d e : e ∈ entries dir d -> plain (entry_Name e) = true.
Proof.
  unfold entries, subdirs. rewrite elem_of_order_by, elem_of_app, !list_elem_of_fmap.
  intros [(n & -> & Hn)|(n & -> & Hn)]; [apply list_elem_of_omap in Hn as (p & _ & Hn); by apply name_in_plain in Hn|].
  rewrite elem_of_elements, !elem_of_union, !elem_of_list_to_set, !list_elem_of_omap in Hn.
  destruct Hn as [[(p & _ & Hp)|(p & _ & Hp)]|(p & _ & Hp)]; by first [apply name_in_plain in Hp|apply subdir_in_plain in Hp].
Qed.

Lemma hoare_reclaimOrphan g referenced e report : plain g = true -> plain (entry_Name e) = true ->
  hoare (with_db (covered g referenced)) (reclaimOrphan root g referenced e report) (fun _ => with_db (covered g referenced)) Inv.
Proof.
  intros Hg He. unfold reclaimOrphan. destruct (entry_IsDir e); [by apply hoare_ret|].
  destruct (bool_decide (entry_Name e ∈ referenced)) eqn:Hnot; [by apply hoare_ret|]. apply bool_decide_eq_false in Hnot.
  eapply hoare_or_report; [apply hoare_looks; [|done]; intros n d; by case_match|]. intros modTime.
  eapply hoare_or_report; [by apply hoare_looks|]. intros now. cbn beta. case_match; [by apply hoare_ret|].
  eapply hoare_or_report; [apply hoare_removeUnderGroup|intros; by apply hoare_ret].
  intros c Hc. apply indifferent_with_db. intros db Hs Hcov.
  rewrite resolve_file in Hc by done. apply Ok_inj in Hc. rewrite <- Hc. by eapply spare_unreferenced.
Qed.

Lemma hoare_reclaimRow g row report : plain g = true -> hoare Inv (reclaimRow root g row report) (fun _ => Inv) Inv.
Proof.
  intros Hg. unfold reclaimRow.
  assert (Hlook : forall path, hoare Inv (Stat path) (fun _ => Inv) Inv).
  { intros path. apply hoare_looks; [|done]. intros n d. by repeat case_match. }
  assert (Hlift : forall path, hoare Inv (lift (resolveUnderGroup root g path)) (fun _ => Inv) Inv) by (intros; by apply hoare_lift).
  eapply hoare_or_report; [apply Hlift|]. intros originalPath.
  eapply hoare_bind; [eapply hoare_try, Hlook|]. intros [isDir|e]; cbn beta iota.
  - destruct (att_ThumbnailPath (Cols row)) as [path|]; [|by apply hoare_ret].
    eapply hoare_or_report; [apply Hlift|]. intros thumbnailPath.
    eapply hoare_bind; [eapply hoare_try, Hlook|]. intros [isDir'|e]; cbn beta iota; [by apply hoare_ret|].
    case_match; [by apply hoare_ret|]. eapply hoare_or_report; [by apply hoare_looks|]. intros now.
    eapply (hoare_or_report _ _ _ _ _ (fun _ => Inv)); [|intros; by apply hoare_ret].
    apply hoare_database; [|done]. intros w f [Hs Hd].
    set (q := Attachments_ClearThumbnailPath g _ (ID row) _).
    pose proof (sound_event q (OfGroup g (AttachmentsClearThumbnail (att_ItemID (Cols row)) (ID row) (UnixMilli now))) w (fun _ => eq_refl) Hs) as Hs'.
    destruct (q w) as [[u|err] w'] eqn:E; cbn [snd] in Hs'; [|apply writeTx_err in E; unfold Inv; by rewrite E].
    apply ClearThumbnail_run in E as [seq Hch]. split; [done|].
    eapply on_disk_changed; [exact Hd|exact Hch| |by apply sound_keyed].
    intros r Hr _ _ _ [? ? ? ? ?]. by split.
  - case_match; [by apply hoare_ret|]. eapply hoare_or_report; [by apply hoare_looks|]. intros now.
    eapply (hoare_or_report _ _ _ _ _ (fun _ => Inv)); [|intros; by apply hoare_ret].
    apply hoare_database; [|done]. intros w f [Hs Hd].
    set (q := Attachments_Delete g _ (ID row) _).
    pose proof (sound_event q (OfGroup g (AttachmentsDelete (att_ItemID (Cols row)) (ID row) (UnixMilli now))) w (fun _ => eq_refl) Hs) as Hs'.
    destruct (q w) as [[u|err] w'] eqn:E; cbn [snd] in Hs'; [|apply writeTx_err in E; unfold Inv; by rewrite E].
    apply Delete_run in E as [seq Hch]. split; [done|].
    eapply on_disk_changed; [exact Hd|exact Hch| |by apply sound_keyed]. by intros r _ _ _ Hdead.
Qed.

Lemma hoare_reclaimGroup g report : plain g = true -> hoare Inv (reclaimGroup root g report) (fun _ => Inv) Inv.
Proof.
  intros Hg. unfold reclaimGroup.
  apply (hoare_or_report _ _ _ _ _ (fun rows => with_db (covered g (referenced_names rows)))).
  { apply hoare_database; [|done]. intros w f HI. unfold Attachments_ListAll, ListAttachmentsForGroup, select_many.
    split; [done|]. by eapply covered_listing. }
  intros rows. eapply (hoare_bind _ _ _ (fun _ => Inv)); [|intros r; apply hoare_report_each; intros; by apply hoare_reclaimRow].
  unfold reclaimOrphanedFiles. cbv zeta. apply (hoare_conseq _ (with_db (covered g (referenced_names rows))) _ _ (fun _ => with_db (covered g (referenced_names rows))) _ Inv);
    [|done|intros; apply with_db_inv|done].
  apply (hoare_or_report _ _ _ _ _ (fun es w f => (forall e, e ∈ es -> plain (entry_Name e) = true) /\ with_db (covered g (referenced_names rows)) w f)).
  { apply hoare_call; [|done|done]. intros w d n Hd. destruct (is_dir _ _); [|done]. split; [|done]. intros e. by apply entries_plain. }
  intros es. apply hoare_pure. intros Hes. apply hoare_report_each. intros e r He. apply hoare_reclaimOrphan; auto.
Qed.

(** ** Every request about files *)

Definition may_serve (r : file_request) : assertion := match r with postAttachment _ _ (FormFile _ _ src) => ready src | _ => Inv end.

Lemma hoare_seq {A B} (P : assertion) (p : Prog Machine A) (b : B) (I : assertion) :
  hoare P p (fun _ => I) I -> hoare P (_ ← p; mret b) (fun _ => I) I.
Proof. intros Hp. eapply hoare_bind; [exact Hp|]. intros a. by apply hoare_ret. Qed.

Lemma hoare_ReadFile (P : assertion) path E : entails P E -> hoare P (ReadFile path) (fun _ => P) E.
Proof. intros HE. apply hoare_looks; [|done]. intros n d. by case_match. Qed.

Lemma hoare_openUnderGroup g (P : assertion) path : hoare P (openUnderGroup root g path) (fun _ => P) P.
Proof. eapply hoare_bind; [by apply (hoare_lift _ _ (fun _ => P))|]. intros c. by apply hoare_ReadFile. Qed.

Lemma hoare_serve g r : plain g = true -> hoare (may_serve r) (serve_file DetectContentType root g r) (fun _ => Inv) Inv.
Proof.
  intros Hg. destruct r as [i|maxBytes i form|i a|i a|i a now| ]; cbn [serve_file may_serve];
    [apply hoare_seq|apply hoare_seq|idtac|idtac|apply hoare_seq|apply hoare_seq].
  - apply hoare_answer. apply hoare_database; [|done]. intros w f Hw.
    assert (Hro : readonly (Attachments_ListForItem g i)).
    { unfold Attachments_ListForItem, of_item, GetItem. apply readonly_bind; [eauto with evo|]. by intros ? ?. }
    specialize (Hro w). destruct (Attachments_ListForItem g i w) as [[x|e] w']; cbn [snd] in Hro; unfold Inv in *; by rewrite Hro.
  - unfold attachmentUploadHandler. destruct form as [| | |filename category src]; try by apply hoare_ret.
    assert (Hready : entails (ready src) Inv) by (by intros w f [HI _]).
    eapply hoare_bind; [eapply hoare_try, (hoare_passing (ready src) Inv), Hready|]. intros [[]|e]; cbn beta iota; [|by apply hoare_ret].
    apply hoare_answer. by apply hoare_Upload.
  - eapply hoare_bind; [|intros resp; by apply (hoare_ret Inv)]. apply hoare_found. intros row _ _ _.
    apply hoare_answer. eapply hoare_conseq; [apply (hoare_openUnderGroup g (with_db (found g i a row)))|done|intros; apply with_db_inv|apply with_db_inv].
  - eapply hoare_bind; [|intros resp; by apply (hoare_ret Inv)]. apply hoare_found. intros row _ _ _.
    apply hoare_answer. unfold OpenThumbnail. destruct (att_ThumbnailPath (Cols row)); [|apply hoare_throw, with_db_inv].
    eapply hoare_conseq; [apply (hoare_openUnderGroup g (with_db (found g i a row)))|done|intros; apply with_db_inv|apply with_db_inv].
  - apply hoare_found. intros row _ Ha Hw. eapply hoare_bind; [eapply hoare_try, hoare_deleteRow|].
    intros [[]|e]; cbn beta iota; [|by apply hoare_ret].
    eapply hoare_bind; [eapply hoare_conseq; [by apply (hoare_Delete g a row)|done|intros; apply with_db_inv|apply with_db_inv]|].
    intros errs. by apply hoare_ret.
  - by apply hoare_reclaimGroup.
Qed.

(** ** A start of the server *)

Lemma spare_elsewhere db path : (forall g n, plain g = true -> plain n = true -> path <> file_of root g n) -> spare db path.
Proof.
  intros Hp id row _ _ Hg Hid. split; [|intros _]; apply Hp; try done; [by apply uuid_plain|by apply thumb_plain].
Qed.

Lemma hoare_checkWritable : hoare Inv (checkWritable (path_Join [root; DBSubdir])) (fun _ => Inv) Inv.
Proof.
  unfold checkWritable.
  apply (hoare_bind _ _ _ (fun name w f => (exists n, plain n = true /\ name = place_of root [DBSubdir; n]) /\ Inv w f)).
  - apply hoare_call; [|done|done]. intros w d n [Hs Hd]. cbv zeta.
    set (name := (".hho-writable-" ++ _ ++ "")%string).
    assert (Hname : plain name = true).
    { apply plain_prefix; [done| |simpl; lia]. by rewrite contains_byte_app, FormatUint_plain. }
    assert (Hpath : path_Join [path_Join [root; DBSubdir]; name] = place_of root [DBSubdir; name]).
    { rewrite (path_Join_place root root_given [DBSubdir]) by (by repeat constructor).
      by rewrite (path_Join_in root [DBSubdir]) by (done || by repeat constructor). }
    rewrite Hpath. destruct (negb _); [done|]. destruct (files d !! _); [done|]. destruct (is_dir (place_of _ _) d); [done|].
    split; [by exists name|]. split; [done|]. eapply on_disk_files; [exact Hd|]. intros p Hp. cbn [set_files files].
    rewrite lookup_insert_ne; [done|]. intros <-. apply Hp, spare_elsewhere. intros g m Hg Hm E.
    apply place_inj in E; [done|done|done|by repeat constructor..].
  - intros name. apply hoare_pure. intros (n & Hn & ->). eapply hoare_bind; [by apply hoare_passing|]. intros [].
    apply hoare_Remove. intros w f f' [Hs Hd] Hf. split; [done|]. eapply on_disk_files; [exact Hd|]. intros p Hp. apply Hf.
    intros ->. apply Hp, spare_elsewhere. intros g m Hg Hm E. apply place_inj in E; [done|done|done|by repeat constructor..].
Qed.

Lemma hoare_emptyTmp : hoare Inv (emptyTmp (path_Join [root; TmpSubdir])) (fun _ => Inv) Inv.
Proof.
  unfold emptyTmp. rewrite (path_Join_place root root_given [TmpSubdir]) by (by repeat constructor).
  apply (hoare_bind _ _ _ (fun es w f => (forall e, e ∈ es -> plain (entry_Name e) = true) /\ Inv w f)).
  - apply hoare_call; [|done|done]. intros w d n Hd. destruct (is_dir _ _); [|done]. split; [|done]. intros e. by apply entries_plain.
  - intros es. apply hoare_pure. intros Hes. apply hoare_for_each. intros e He. pose proof (Hes e He) as Hn.
    rewrite (path_Join_in root [TmpSubdir]) by (done || by repeat constructor).
    apply hoare_call; [|done|done]. intros w d n [Hs Hd]. split; [done|]. cbn [files].
    eapply on_disk_files; [exact Hd|]. intros p Hp. destruct (files d !! p) as [x|] eqn:E.
    + apply map_lookup_filter_Some. split; [done|]. cbn [fst]. unfold keep_outside. apply andb_true_iff.
      split; apply negb_true_iff; apply not_true_is_false; intros Hbad; apply Hp, spare_elsewhere; intros g m Hg Hm ->.
      * bool_facts. apply place_inj in Hbad; [done|done|done|by repeat constructor..].
      * apply under_place in Hbad as [c Hc]; [done|done|done|by repeat constructor..].
    + apply map_lookup_filter_None. by left.
Qed.

Lemma hoare_Ensure : hoare Inv (Ensure root) (fun _ => Inv) Inv.
Proof.
  unfold Ensure. eapply hoare_bind; [by apply (hoare_lift _ _ (fun _ => Inv))|]. intros [].
  eapply hoare_bind; [apply hoare_looks; [|done]; intros n d; by repeat case_match|]. intros isDir.
  eapply hoare_bind; [by apply (hoare_lift _ _ (fun _ => Inv))|]. intros [].
  eapply hoare_bind; [apply hoare_for_each; intros sub _; by apply hoare_MkdirAll|]. intros [].
  eapply hoare_bind; [apply hoare_checkWritable|]. intros []. apply hoare_emptyTmp.
Qed.
End invariant.

(** ** What the rest of the server does to the rows *)

Definition rows_kept (a b : DB) : Prop := attachments b = attachments a.

#[local] Instance rows_kept_preorder : PreOrder rows_kept.
Proof. split; [by intros a|]. intros a b c Hab Hbc. unfold rows_kept in *. congruence. Qed.

Lemma rows_kept_AllocChangeSeq g : steps rows_kept (AllocChangeSeq g).
Proof. intros w. unfold AllocChangeSeq. by destruct (groups (wdb w) !! g). Qed.

Lemma rows_kept_SetLowWatermark g to : steps rows_kept (SetGroupTombstoneLowWatermark to g).
Proof. intros w. unfold SetGroupTombstoneLowWatermark. destruct (groups (wdb w) !! g) as [G|]; [|done]. by destruct (grp_DeletedAt G). Qed.

Lemma rows_kept_groups :
  (forall g name now, steps rows_kept (CreateGroup g name now)) /\ (forall g name now, steps rows_kept (CreateGroupIfNone g name now)).
Proof.
  split; intros g name now w.
  - unfold CreateGroup. by repeat (case_match; simpl).
  - unfold CreateGroupIfNone. by destruct (decide _).
Qed.

Ltac rows_other := intros; reflexivity.

#[local] Hint Extern 1 (steps rows_kept (insert_row _)) => (apply steps_insert_row; [apply _|rows_other]) : steps.
#[local] Hint Extern 1 (steps rows_kept (update_rows _ _)) => (apply steps_update_rows; [apply _|rows_other]) : steps.
#[local] Hint Extern 1 (steps rows_kept (CreateMutation _ _ _ _ _ _ _)) => (apply steps_CreateMutation; [apply _|rows_other]) : steps.
#[local] Hint Extern 1 (steps rows_kept (CreateConflict _ _)) => (apply steps_CreateConflict; [apply _|rows_other]) : steps.
#[local] Hint Extern 1 (steps rows_kept (UpsertFieldVersion _ _ _ _ _ _)) => (apply steps_UpsertFieldVersion; [apply _|rows_other]) : steps.
#[local] Hint Extern 1 (steps rows_kept _) =>
  first [apply rows_kept_groups | apply steps_import_sessions; [apply _|rows_other]] : steps.
#[local] Hint Resolve rows_kept_AllocChangeSeq rows_kept_SetLowWatermark : steps.

Section rest.
Context `{Entropy, Sha256, SortBy}.

Lemma push_dispatch_rows g m : steps rows_kept (push_dispatch g m).
Proof. steps_dispatch. Qed.
#[local] Hint Resolve push_dispatch_rows : steps.

Lemma handle_event_rows e : attachment_event e = false -> steps rows_kept (handle_event e).
Proof.
  destruct e as [g r|a]; [destruct r|destruct a]; intros Hs; try discriminate Hs;
    simpl; unfold discard, resolve_label; repeat steps_import.
Qed.

(** Anything else the server does: API requests and other events. *)
Definition other_act (a : act) : Prop := act_ok a /\ match a with Event e => attachment_event e = false | Request _ _ _ _ _ => True end.

Lemma run_act_keeps a w : other_act a -> sound (wdb w) -> sound (wdb (run_act w a)) /\ rows_kept (wdb w) (wdb (run_act w a)).
Proof.
  intros [Hok Ha] Hs. destruct a as [e|minimum version caller now r]; cbn [run_act].
  - split; [by apply handle_event_keeps_sound|by apply handle_event_rows].
  - assert (Hk : keyed (item_custom_fields (wdb w))) by apply (int_keyed _ _ (int_custom_fields _ (sound_integ _ Hs))).
    destruct (mountV1_moves minimum version caller now r w Hk Hok) as [->|(identity & _ & Hm)]; [done|]. split.
    + refine (moves_steps identity (fun a b => sound a -> sound b) _ _ _ Hm Hs). intros e _. apply handle_event_keeps_sound.
    + refine (moves_steps identity rows_kept _ _ _ Hm). intros e (_ & _ & He). by apply handle_event_rows.
Qed.
End rest.

(** ** Runs *)

Section runs.
Context `{Entropy, Sha256, SortBy, IO, Imaging} (DetectContentType : string -> string) (root : string).

(** The bytes that come under the next id, if they get there. *)
Definition logged (r : file_request) (w : World) (log : gmap string string) : gmap string string :=
  match r, uuid_NewV7 (draws w) with
  | postAttachment _ _ (FormFile _ _ src), Some id => <[id := src]> log
  | _, _ => log
  end.

(** A run of the server: file requests of any group, anything else it serves,
    and starts after a stop, with the bytes of the last upload that was to get
    each id.  A UUID that is still to be drawn for an upload is not the id of an
    attachment. *)
Inductive reached : gmap string string -> Machine -> Prop :=
  | reached_start gs d n : reached ∅ (mkMachine (initial gs) d true n)
  | reached_file g r log m :
      reached log m -> plain g = true ->
      match r with postAttachment _ _ _ => fresh (mc_world m) | _ => True end ->
      reached (logged r (mc_world m) log) (serve_file DetectContentType root g r m).2
  | reached_other a log m :
      reached log m -> other_act a -> mc_up m = true -> reached log (mkMachine (run_act (mc_world m) a) (mc_disk m) true (mc_calls m))
  | reached_restart log m : reached log m -> reached log (restart root m).2.

(** The bytes of an id that is not taken are not looked at. *)
Lemma on_disk_logged db f id src log : on_disk DetectContentType root log db f -> keyed (attachments db) -> absent id db ->
  on_disk DetectContentType root (<[id := src]> log) db f.
Proof.
  intros Hd Hk Ha k row Hrow Hl. destruct (Hd k row Hrow Hl) as [Hg Hid Hp (file & Hf & Hdesc & Hlog) Ht]. split; try done.
  exists file. split_and!; [done..|]. rewrite lookup_insert_ne; [done|].
  intros ->. rewrite (Hk _ _ Hrow) in Ha. unfold absent in Ha. by rewrite Hrow in Ha.
Qed.

Lemma logged_ready r m log : holds (Inv DetectContentType root log) m ->
  match r with postAttachment _ _ _ => fresh (mc_world m) | _ => True end ->
  holds (may_serve DetectContentType root (logged r (mc_world m) log) r) m.
Proof.
  intros [Hs Hd] Hf. destruct r as [i|maxBytes i form|i a|i a|i a now| ]; try done. destruct form as [| | |filename category src]; try done.
  unfold logged. cbn [may_serve]. destruct (uuid_NewV7 (draws (mc_world m))) as [id|] eqn:E.
  - split; [split; [done|]|split; [done|]].
    + apply on_disk_logged; [done|by apply sound_keyed|]. exact (Hf _ _ (le_n _) E).
    + rewrite E. intros ? [= <-]. apply lookup_insert_eq.
  - split; [by split|]. split; [done|]. by rewrite E.
Qed.

Lemma reached_inv log m : (forall n id, uuid_NewV7 n = Some id -> uuid_text id = true) -> root <> ""%string ->
  reached log m -> holds (Inv DetectContentType root log) m.
Proof.
  intros Hu Hroot Hm. induction Hm as [gs d n|g r log m _ IH Hg Hf|a log m _ IH Ha Hup|log m _ IH].
  - split; [|done]. split; [apply (served_db_ok gs [])|apply loc_ok_empty|apply integ_initial|apply (served_label_names gs [])].
  - pose proof (hoare_serve DetectContentType root Hroot _ Hu g r Hg m (logged_ready r m log IH Hf)) as Hs.
    by destruct (serve_file _ _ _ _ m) as [[]].
  - destruct IH as [Hs Hd]. destruct (run_act_keeps a (mc_world m) Ha Hs) as [Hs' Hk]. split; [done|].
    intros id row. cbn [mc_world mc_disk]. rewrite Hk. apply Hd.
  - unfold restart.
    pose proof (hoare_Ensure DetectContentType root Hroot log (mkMachine (mc_world m) (mc_disk m) true (mc_calls m)) IH) as Hs.
    by destruct (Ensure root _) as [[]].
Qed.
End runs.

(** C8: every live attachment has its file.  Whatever is served, whichever
    calls fail and wherever the process stops and is started again: for every
    live attachment the file under the directory of its group holds exactly
    the bytes that were uploaded for it, with the length, the digest and the
    kind that the row says, and the thumbnail is there if the row has one. *)
Theorem attachments_on_disk `{Entropy, Sha256, SortBy, IO, Imaging} DetectContentType root log m id row :
  (forall n id, uuid_NewV7 n = Some id -> uuid_text id = true) -> root <> ""%string ->
  reached DetectContentType root log m ->
  attachments (wdb (mc_world m)) !! id = Some row -> live row = true ->
  (exists file, files (mc_disk m) !! file_of root (GroupID row) id = Some file /\
     log !! id = Some (file_Bytes file) /\
     att_SizeBytes (Cols row) = Z.of_nat (String.length (file_Bytes file)) /\
     att_Sha256 (Cols row) = sha256_hex (file_Bytes file) /\
     att_ContentType (Cols row) = DetectContentType (String.substring 0 sniffLen (file_Bytes file))) /\
  (att_ThumbnailPath (Cols row) <> None -> is_Some (files (mc_disk m) !! file_of root (GroupID row) (thumb_name id))).
Proof.
  intros Hu Hroot Hm Hrow Hl. destruct (reached_inv DetectContentType root log m Hu Hroot Hm) as [Hs Hd].
  pose proof (sound_keyed _ Hs _ _ Hrow) as <-. destruct (Hd _ row Hrow Hl) as [_ _ _ (file & Hf & (Hn & Hh & Hc) & Hlog) Ht].
  split; [by exists file|]. intros Hsome. destruct (att_ThumbnailPath (Cols row)) as [path|]; [|done]. by apply (Ht path).
Qed.

Section downloads.
Context `{Entropy, Sha256, IO, Imaging} (DetectContentType : string -> string).

Lemma database_result {A} (q : M A) m a : (database q m).1 = Ok a -> (q (mc_world m)).1 = Ok a.
Proof. unfold database. destruct (mc_up m); [|done]. destruct (io_outcome _); [|done..]. by destruct (q _). Qed.

Lemma database_succeeds {A} (q : M A) m : mc_up m = true -> io_outcome (mc_calls m) = Succeeds ->
  database q m = ((q (mc_world m)).1, mkMachine (q (mc_world m)).2 (mc_disk m) true (S (mc_calls m))).
Proof. intros Hup Ho. unfold database. rewrite Hup, Ho. by destruct (q _). Qed.

Lemma found_file root log g i a row db f : on_disk DetectContentType root log db f -> found g i a row db ->
  plain g = true /\ uuid_text a = true /\ att_StoragePath (Cols row) = path_Join [g; a] /\
  exists file, f !! file_of root g a = Some file /\ log !! a = Some (file_Bytes file).
Proof.
  intros Hd (Hrow & Hg & _ & Hid & Hl). destruct (Hd a row Hrow Hl) as [Hpg Hu Hpath (file & Hf & _ & Hlog) _].
  rewrite Hg, Hid in *. split_and!; [done..|]. by exists file.
Qed.

Lemma OpenOriginal_file root g a row m : root <> ""%string -> plain g = true -> uuid_text a = true ->
  att_StoragePath (Cols row) = path_Join [g; a] -> OpenOriginal root g row m = ReadFile (file_of root g a) m.
Proof.
  intros Hroot Hg Ha Hp. unfold OpenOriginal, openUnderGroup. rewrite Hp, resolve_file by (done || by apply uuid_plain). done.
Qed.
End downloads.

(** C9: what is downloaded is what was uploaded.  In every state that is
    reached, whatever failed before: when the file of an attachment is served,
    there is a live row of the group for it, what is served are the bytes that
    were uploaded under its id, and its kind and name are those of the row; and
    when the calls of the download succeed, the file of every live attachment
    is served. *)
Theorem download_returns_upload `{Entropy, Sha256, SortBy, IO, Imaging} DetectContentType root log m g i a :
  (forall n id, uuid_NewV7 n = Some id -> uuid_text id = true) -> root <> ""%string ->
  reached DetectContentType root log m ->
  (forall resp served m', attachmentDownloadHandler root g i a m = (Ok resp, m') -> served_of resp = Some served ->
     exists row, found g i a row (wdb (mc_world m)) /\ log !! a = Some (srv_Bytes served) /\
       srv_ContentType served = att_ContentType (Cols row) /\ srv_Filename served = att_OriginalFilename (Cols row)) /\
  (forall row, found g i a row (wdb (mc_world m)) -> i <> ""%string -> mc_up m = true ->
     io_outcome (mc_calls m) = Succeeds -> io_outcome (S (mc_calls m)) = Succeeds ->
     exists bytes m', attachmentDownloadHandler root g i a m =
       (Ok (serveAttachmentFile bytes (att_ContentType (Cols row)) (att_OriginalFilename (Cols row))), m') /\ log !! a = Some bytes).
Proof.
  intros Hu Hroot Hm. destruct (reached_inv DetectContentType root log m Hu Hroot Hm) as [Hs Hd].
  pose proof (sound_keyed _ Hs) as Hk. split.
  - intros resp served m' Hr Hsv. unfold attachmentDownloadHandler, getAttachmentOrNotFound in Hr.
    apply prog_bind_inv_ok in Hr as (r & m1 & Hget & Hr). rewrite try_eq in Hget. injection Hget as Hget <-.
    destruct r as [row|e]; [|injection Hr as <- _; unfold write_problem in Hsv; by repeat case_match].
    apply database_result in Hget. destruct (Get_run g i a (mc_world m) Hk) as [_ Hrun]. specialize (Hrun row Hget).
    destruct (found_file _ root log g i a row _ _ Hd Hrun) as (Hg & Ha & Hp & file & Hf & Hlog).
    unfold answer in Hr. apply prog_bind_inv_ok in Hr as (out & m2 & Hout & Hr). rewrite try_eq, (OpenOriginal_file root g a) in Hout by done.
    injection Hout as <- <-. rewrite <- (database_disk (Attachments_Get g i a) m) in Hf. set (m1 := (database _ m).2) in *.
    destruct (ReadFile (file_of root g a) m1) as [[bytes|e] m2] eqn:E; cbn [fst] in Hr;
      [|injection Hr as <- _; unfold write_problem in Hsv; by repeat case_match].
    apply ReadFile_ok in E as (file' & Hf' & ->). injection Hr as <- _. injection Hsv as <-.
    exists row. split; [done|]. rewrite Hf in Hf'. injection Hf' as <-. done.
  - intros row Hfound Hi Hup Ho0 Ho1. destruct (found_file _ root log g i a row _ _ Hd Hfound) as (Hg & Ha & Hp & file & Hf & Hlog).
    destruct (plain_facts a (uuid_plain _ Ha)) as (Ha0 & _).
    exists (file_Bytes file), (mkMachine (mc_world m) (mc_disk m) true (S (S (mc_calls m)))). split; [|done].
    unfold attachmentDownloadHandler, getAttachmentOrNotFound, answer. unfold mbind, prog_bind.
    rewrite try_eq, database_succeeds, (found_Get g i a (mc_world m) row) by done. cbn [fst snd].
    rewrite try_eq, (OpenOriginal_file root g a) by done. unfold ReadFile, plain_call, call. cbn [mc_up mc_calls mc_disk mc_world].
    by rewrite Ho1, Hf.
Qed.

(** ** A run with faults *)

(** The process stops when it is about to write the row of the first photo;
    after its start a photo is uploaded again, and its thumbnail cannot be
    written. *)
Definition faulty : IO := {|
  io_outcome n := if Nat.eqb n 21 then Stops else if Nat.eqb n 46 then Fails 3 else Succeeds;
  io_clock n := (10 ^ 18 + Z.of_nat n * 10 ^ 9)%Z; io_random n := Z.of_nat n |}.

#[local] Existing Instance files_sha256.
#[local] Existing Instance text_images.

Definition lamp_photo : file_request := postAttachment 100 "i1" (FormFile "lamp.png" "image" "a lamp").
Definition household_events : list act :=
  [Event (OfAccount (RegisterFirst (mkFirstUser "g1" "Home" "u1" "alice" "hash" 100)));
   Event (OfGroup "g1" (ItemsCreate (mkCreateItem "i1" "Lamp" "" "" 3 "CODE1" 105)))].

Definition furnished : Machine := mkMachine (initial ∅) (mkDisk ∅ {["/data"]}) true 0.
Definition serve_act (m : Machine) (a : act) : Machine := mkMachine (run_act (mc_world m) a) (mc_disk m) true (mc_calls m).
Definition begun : Machine := Eval vm_compute in foldl serve_act (@restart faulty "/data" furnished).2 household_events.
Definition upload_lamp (m : Machine) : Machine := (@serve_file _ _ faulty _ always_png "/data" "g1" lamp_photo m).2.
Definition stopped : Machine := Eval vm_compute in upload_lamp begun.
Definition restarted : Machine := Eval vm_compute in (@restart faulty "/data" stopped).2.
Definition uploaded : Machine := Eval vm_compute in upload_lamp restarted.

(** The file of the first upload is left over, the second has its row, and no
    thumbnail. *)
Example uploaded_state :
  (fst <$> map_to_list (files (mc_disk stopped)) = ["/data/attachments/g1/uuid-0"] /\ mc_up stopped = false /\
   attachments (wdb (mc_world stopped)) = ∅ /\
   fst <$> map_to_list (files (mc_disk uploaded)) = ["/data/attachments/g1/uuid-1"; "/data/attachments/g1/uuid-0"] /\
   mc_calls uploaded = 48 /\ (fun row => att_ThumbnailPath (Cols row)) <$> attachments (wdb (mc_world uploaded)) !! "uuid-1" = Some None)%string.
Proof. vm_compute. split_and!; reflexivity. Qed.

(** Both uploads sent the same photo. *)
Definition lamp_log : gmap string string := <["uuid-1" := "a lamp"]> {["uuid-0" := "a lamp"]}%string.

Lemma uploaded_reached : @reached _ _ _ faulty _ always_png "/data" lamp_log uploaded.
Proof.
  assert (E1 : begun = foldl serve_act (@restart faulty "/data" furnished).2 household_events) by (vm_compute; reflexivity).
  assert (E2 : stopped = upload_lamp begun) by (vm_compute; reflexivity).
  assert (E3 : restarted = (@restart faulty "/data" stopped).2) by (vm_compute; reflexivity).
  assert (E4 : uploaded = upload_lamp restarted) by (vm_compute; reflexivity).
  assert (F1 : attachments (wdb (mc_world begun)) = ∅) by (vm_compute; reflexivity).
  assert (F2 : attachments (wdb (mc_world restarted)) = ∅) by (vm_compute; reflexivity).
  assert (L1 : logged lamp_photo (mc_world begun) ∅ = {["uuid-0" := "a lamp"]}%string) by (vm_compute; reflexivity).
  assert (L2 : logged lamp_photo (mc_world restarted) {["uuid-0" := "a lamp"]}%string = lamp_log) by (vm_compute; reflexivity).
  assert (Hbegun : @reached _ _ _ faulty _ always_png "/data" ∅ begun).
  { rewrite E1. cbn [foldl household_events]. unfold serve_act.
    apply reached_other; [apply reached_other; [apply reached_restart, reached_start|by split|by vm_compute]|by split|done]. }
  rewrite E4, <- L2. apply reached_file; [|done|intros n id _ _; by rewrite F2].
  rewrite E3, <- L1. apply reached_restart. rewrite E2. apply reached_file; [done..|intros n id _ _; by rewrite F1].
Qed.

Lemma attachments_on_disk_witness :
  exists row, (forall n id, uuid_NewV7 n = Some id -> uuid_text id = true) /\ "/data"%string <> ""%string /\
  @reached _ _ _ faulty _ always_png "/data" lamp_log uploaded /\
  attachments (wdb (mc_world uploaded)) !! "uuid-1"%string = Some row /\ live row = true /\
  (exists file, files (mc_disk uploaded) !! file_of "/data" (GroupID row) "uuid-1" = Some file /\
     lamp_log !! "uuid-1"%string = Some (file_Bytes file) /\
     att_SizeBytes (Cols row) = Z.of_nat (String.length (file_Bytes file)) /\
     att_Sha256 (Cols row) = sha256_hex (file_Bytes file) /\
     att_ContentType (Cols row) = always_png (String.substring 0 sniffLen (file_Bytes file))) /\
  (att_ThumbnailPath (Cols row) <> None -> is_Some (files (mc_disk uploaded) !! file_of "/data" (GroupID row) (thumb_name "uuid-1"))).
Proof.
  destruct (attachments (wdb (mc_world uploaded)) !! "uuid-1"%string) as [row|] eqn:Hrow; [|discriminate Hrow].
  assert (Hl : live row = true) by (vm_compute in Hrow; injection Hrow as <-; reflexivity).
  exists row. split_and!; [exact demo_uuid|done|exact uploaded_reached|done|exact Hl|..];
    apply (@attachments_on_disk _ _ _ faulty _ always_png "/data" lamp_log uploaded "uuid-1" row demo_uuid);
    [done|exact uploaded_reached|exact Hrow|exact Hl|done|exact uploaded_reached|exact Hrow|exact Hl].
Defined.

(** The photo is served. *)
Example uploaded_served :
  match (@attachmentDownloadHandler faulty "/data" "g1" "i1" "uuid-1" uploaded).1 with
  | Ok (Reply 200 s) => s = mkServed "image/png" "inline" "lamp.png" "a lamp"
  | _ => False
  end.
Proof. vm_compute. reflexivity. Qed.

Lemma download_returns_upload_witness :
  (forall n id, uuid_NewV7 n = Some id -> uuid_text id = true) /\ "/data"%string <> ""%string /\
  @reached _ _ _ faulty _ always_png "/data" lamp_log uploaded /\
  forall resp served m', @attachmentDownloadHandler faulty "/data" "g1" "i1" "uuid-1" uploaded = (Ok resp, m') ->
    served_of resp = Some served -> lamp_log !! "uuid-1"%string = Some (srv_Bytes served).
Proof.
  split_and!; [exact demo_uuid|done|exact uploaded_reached|]. intros resp served m' Hr Hsv.
  destruct (@download_returns_upload _ _ _ faulty _ always_png "/data" lamp_log uploaded "g1" "i1" "uuid-1" demo_uuid) as [Hown _];
    [done|exact uploaded_reached|]. destruct (Hown resp served m' Hr Hsv) as (row & _ & Hlog & _). exact Hlog.
Defined.
