(* ===== verification/ItemFilter.v ===== *)
(** * The list of items (storage/items_filter.go, httpapi/items.go)

    The filter of an item list, the SQL text and arguments that are built from
    it, what that query selects, and the handler of [GET /items].

    A query is built from [Predicate]s.  [render] is the text and the
    arguments that the code writes for one, [satisfied] is what SQLite makes of
    that text.  The full text index is a parameter ([FullText]): SQLite keeps
    it by triggers. *)

From S2P Require Import Prelude GoBase Schema Sql Evolution Queries Items Details Reads.
From S2P Require Import Strconv Escape Csv Export Locations HttpCore HttpItems.
From Stdlib Require Import Strings.Ascii.

#[local] Open Scope string_scope.

(** ** What the code uses of package strings and strconv *)

(** [strings.Fields]: the parts between white space, none of them empty. *)
Definition space_at (s : string) : option nat :=
  String.length <$> List.find (fun p => match strip_prefix p s with Some _ => true | None => false end) space_runes.

Definition flush (field : string) : list string := if field =?s "" then [] else [field].

(** [skip] bytes are left of a space. *)
Fixpoint fields_loop (skip : nat) (field s : string) : list string :=
  match s with
  | EmptyString => flush field
  | String c rest =>
      match skip with
      | S skip => fields_loop skip field rest
      | O => match space_at s with
             | Some n => (flush field ++ fields_loop (n - 1) "" rest)%list
             | None => fields_loop 0 (field ++ String c "") rest
             end
      end
  end.
Definition Fields (s : string) : list string := fields_loop 0 "" s.

Definition ParseBool (s : string) : option bool :=
  if bool_decide (s ∈ ["1"; "t"; "T"; "TRUE"; "true"; "True"]%string) then Some true
  else if bool_decide (s ∈ ["0"; "f"; "F"; "FALSE"; "false"; "False"]%string) then Some false
  else None.

(** [strings.Index(s, c)] and the parts before and after. *)
Fixpoint cut_at (s : string) (c : ascii) : option (string * string) :=
  match s with
  | EmptyString => None
  | String d s =>
      if Ascii.eqb d c then Some (EmptyString, s)
      else match cut_at s c with Some (before, after) => Some (String d before, after) | None => None end
  end.

(** ** The filter (items_filter.go) *)

Inductive ItemSortField := ItemSortName | ItemSortQuantity | ItemSortCreatedAt | ItemSortUpdatedAt.
Record ItemSort := mkItemSort { sort_Field : option ItemSortField; sort_Descending : bool }.
Record CustomFieldMatch := mkMatch { cfm_Name : string; cfm_Value : string }.

Definition WarrantyStatusNone : string := "none".
Definition WarrantyStatusAny : string := "any".
Definition WarrantyStatusActive : string := "active".
Definition WarrantyStatusExpired : string := "expired".
Definition WarrantyStatusLifetime : string := "lifetime".

Record ItemFilter := mkItemFilter {
  fil_Query : string; fil_LocationIDs : list string; fil_LabelIDs : list string; fil_CustomFields : list CustomFieldMatch;
  fil_WarrantyStatus : string;
  fil_CreatedFrom : option Z; fil_CreatedTo : option Z; fil_UpdatedFrom : option Z; fil_UpdatedTo : option Z;
  fil_Sort : ItemSort }.

Definition nonempty {A} (l : list A) : bool := match l with [] => false | _ => true end.
Definition given {A} (o : option A) : bool := match o with Some _ => true | None => false end.

Definition active (f : ItemFilter) : bool :=
  negb (fil_Query f =?s "") || nonempty (fil_LocationIDs f) || nonempty (fil_LabelIDs f)
  || nonempty (fil_CustomFields f) || negb (fil_WarrantyStatus f =?s "")
  || given (fil_CreatedFrom f) || given (fil_CreatedTo f) || given (fil_UpdatedFrom f) || given (fil_UpdatedTo f)
  || given (sort_Field (fil_Sort f)).

(** *** Full text search *)

Definition quoted (field : string) : string := String QUOTE (double_quotes field ++ String QUOTE "").

(** [quoted[len(quoted)-1] += "*"], then [strings.Join(quoted, " ")]. *)
Fixpoint join_starred (qs : list string) : string :=
  match qs with
  | [] => ""
  | [q] => q ++ "*"
  | q :: qs => q ++ " " ++ join_starred qs
  end.

Definition ftsMatchExpression (raw : string) : string :=
  match Fields raw with [] => "" | fields => join_starred (quoted <$> fields) end.

(** The items of the index that match an expression, by their ids; an error
    when it is no expression. *)
Class FullText := fts_match : DB -> string -> option (string -> bool).

Definition searchItemIDs `{FullText} (group expression : string) : M (list string) := fun w =>
  match fts_match (wdb w) expression with
  | Some matches =>
      (Ok (ID <$> where_ (D := ItemCols) (fun i => matches (ID i) && (GroupID i =?s group) && live i) (items (wdb w))), w)
  | None => (Err (ErrMessage "storage: search items"), w)
  end.

(** *** The query *)

Inductive Arg := ArgText (s : string) | ArgInt (n : Z) | ArgFloat (f : float64).

Definition nl : string := String "010" "".

Definition itemColumns : string :=
  "items.id, items.group_id, items.name, items.description, items.location_id, " ++
  "items.quantity, items.short_code, items.created_at, items.updated_at, items.version, " ++
  "items.deleted_at, items.change_seq".

(** [strings.TrimSuffix(strings.Repeat("?, ", n), ", ")] *)
Fixpoint idPlaceholders (n : nat) : string :=
  match n with O => "" | 1 => "?" | S n => "?, " ++ idPlaceholders n end.

Fixpoint dedupe_loop (seen : gset string) (ids : list string) : list string :=
  match ids with
  | [] => []
  | id :: ids => if bool_decide (id ∈ seen) then dedupe_loop seen ids else id :: dedupe_loop ({[id]} ∪ seen) ids
  end.
Definition dedupe (ids : list string) : list string := if (length ids <? 2)%nat then ids else dedupe_loop ∅ ids.

Definition boolToSQLiteInt (b : bool) : Z := if b then 1 else 0.

Inductive Predicate :=
  | InMatched (ids : list string)
  | InLocations (ids : list string)
  | HasLabels (labels : list string)
  | HasCustomField (name value : string) (number : option float64) (truth : option bool)
  | WarrantyIs (status today : string)
  | CreatedAtLeast (n : Z) | CreatedAtMost (n : Z) | UpdatedAtLeast (n : Z) | UpdatedAtMost (n : Z).

Section query.
Context `{FloatText} (groupID : string).

Definition buildCustomFieldPredicate (name value : string) : Predicate :=
  HasCustomField name value (ParseFloat value) (ParseBool value).

(** A status that is none of these gives no predicate. *)
Definition buildWarrantyStatusPredicate (status today : string) : option Predicate :=
  if bool_decide (status ∈ [WarrantyStatusNone; WarrantyStatusAny; WarrantyStatusLifetime; WarrantyStatusActive; WarrantyStatusExpired])
  then Some (WarrantyIs status today) else None.

Definition when {A} (o : option A) (p : A -> Predicate) : list Predicate :=
  match o with Some a => [p a] | None => [] end.
Definition unless_empty {A} (l : list A) (p : Predicate) : list Predicate := if nonempty l then [p] else [].

Definition filter_predicates (matchedIDs : option (list string)) (f : ItemFilter) (today : string) : list Predicate :=
  (when matchedIDs InMatched
  ++ unless_empty (fil_LocationIDs f) (InLocations (fil_LocationIDs f))
  ++ unless_empty (dedupe (fil_LabelIDs f)) (HasLabels (dedupe (fil_LabelIDs f)))
  ++ ((fun cf => buildCustomFieldPredicate (cfm_Name cf) (cfm_Value cf)) <$> fil_CustomFields f)
  ++ when (buildWarrantyStatusPredicate (fil_WarrantyStatus f) today) id
  ++ when (fil_CreatedFrom f) CreatedAtLeast ++ when (fil_CreatedTo f) CreatedAtMost
  ++ when (fil_UpdatedFrom f) UpdatedAtLeast ++ when (fil_UpdatedTo f) UpdatedAtMost)%list.

(** The text of a predicate with its arguments. *)
Definition warranty_exists : string :=
  "EXISTS (SELECT 1 FROM item_warranty w" ++ nl ++ "                WHERE w.group_id = ?"
  ++ nl ++ "                  AND w.item_id = items.id"
  ++ nl ++ "                  AND w.deleted_at IS NULL".

Definition render_warranty (status today : string) : string * list Arg :=
  if status =?s WarrantyStatusNone then ("NOT " ++ warranty_exists ++ ")", [ArgText groupID])
  else if status =?s WarrantyStatusAny then (warranty_exists ++ ")", [ArgText groupID])
  else if status =?s WarrantyStatusLifetime then
    (warranty_exists ++ nl ++ "                  AND w.is_lifetime = 1)", [ArgText groupID])
  else if status =?s WarrantyStatusActive then
    (warranty_exists ++ nl ++ "                  AND (w.is_lifetime = 1"
     ++ nl ++ "                       OR (w.expires_on IS NOT NULL AND w.expires_on >= ?"
     ++ nl ++ "                           AND (w.starts_on IS NULL OR w.starts_on <= ?))))",
     [ArgText groupID; ArgText today; ArgText today])
  else
    (warranty_exists ++ nl ++ "                  AND w.is_lifetime = 0"
     ++ nl ++ "                  AND w.expires_on IS NOT NULL AND w.expires_on < ?)", [ArgText groupID; ArgText today]).

Definition render (p : Predicate) : string * list Arg :=
  match p with
  | InMatched ids => ("items.id IN (" ++ idPlaceholders (length ids) ++ ")", ArgText <$> ids)
  | InLocations ids => ("items.location_id IN (" ++ idPlaceholders (length ids) ++ ")", ArgText <$> ids)
  | HasLabels labels =>
      ("(SELECT COUNT(DISTINCT il.label_id) FROM item_labels il"
       ++ nl ++ "        WHERE il.group_id = ?"
       ++ nl ++ "          AND il.item_id = items.id"
       ++ nl ++ "          AND il.deleted_at IS NULL"
       ++ nl ++ "          AND il.label_id IN (" ++ idPlaceholders (length labels) ++ ")) = ?",
       (ArgText groupID :: (ArgText <$> labels) ++ [ArgInt (Z.of_nat (length labels))])%list)
  | HasCustomField name value number truth =>
      ("EXISTS (SELECT 1 FROM item_custom_fields cf"
       ++ nl ++ "                WHERE cf.group_id = ?"
       ++ nl ++ "                  AND cf.item_id = items.id"
       ++ nl ++ "                  AND cf.deleted_at IS NULL"
       ++ nl ++ "                  AND cf.name = ?"
       ++ nl ++ "                  AND (cf.text_value = ? OR cf.date_value = ?"
       ++ (if given number then " OR cf.number_value = ?" else "")
       ++ (if given truth then " OR cf.bool_value = ?" else "") ++ "))",
       ([ArgText groupID; ArgText name; ArgText value; ArgText value]
        ++ match number with Some n => [ArgFloat n] | None => [] end
        ++ match truth with Some b => [ArgInt (boolToSQLiteInt b)] | None => [] end)%list)
  | WarrantyIs status today => render_warranty status today
  | CreatedAtLeast n => ("items.created_at >= ?", [ArgInt n])
  | CreatedAtMost n => ("items.created_at <= ?", [ArgInt n])
  | UpdatedAtLeast n => ("items.updated_at >= ?", [ArgInt n])
  | UpdatedAtMost n => ("items.updated_at <= ?", [ArgInt n])
  end.

Definition sort_column (field : ItemSortField) : string :=
  match field with
  | ItemSortName => "items.name" | ItemSortQuantity => "items.quantity"
  | ItemSortCreatedAt => "items.created_at" | ItemSortUpdatedAt => "items.updated_at"
  end.

Definition resolveItemSort (s : ItemSort) : string * string :=
  match sort_Field s with
  | None => ("items.updated_at", "DESC")
  | Some field => (sort_column field, if sort_Descending s then "DESC" else "ASC")
  end.

Definition and_text (p : Predicate) : string := nl ++ "  AND " ++ (render p).1.

Definition buildFilteredItemsQuery (matchedIDs : option (list string)) (f : ItemFilter) (page : Page) (today : string) :
    string * list Arg :=
  let predicates := filter_predicates matchedIDs f today in
  let '(column, direction) := resolveItemSort (fil_Sort f) in
  ("SELECT " ++ itemColumns ++ " FROM items" ++ nl ++ "WHERE items.group_id = ?" ++ nl ++ "  AND items.deleted_at IS NULL"
   ++ foldr (fun p text => and_text p ++ text) "" predicates
   ++ nl ++ "ORDER BY " ++ column ++ " " ++ direction ++ ", items.id ASC" ++ nl ++ "LIMIT ? OFFSET ?",
   ([ArgText groupID] ++ (predicates ≫= fun p => (render p).2) ++ [ArgInt (page_Limit page); ArgInt (page_Offset page)])%list).

(** *** What it selects *)

Definition warranty_satisfied (status today : string) (ws : list Warranty) : bool :=
  let lifetime w := (war_IsLifetime (Cols w) =? 1)%Z in
  let active w :=
    match war_ExpiresOn (Cols w) with
    | Some expires => String.leb today expires && match war_StartsOn (Cols w) with Some starts => String.leb starts today | None => true end
    | None => false
    end in
  let expired w :=
    (war_IsLifetime (Cols w) =? 0)%Z && match war_ExpiresOn (Cols w) with Some expires => String.ltb expires today | None => false end in
  if status =?s WarrantyStatusNone then negb (nonempty ws)
  else if status =?s WarrantyStatusAny then nonempty ws
  else if status =?s WarrantyStatusLifetime then existsb lifetime ws
  else if status =?s WarrantyStatusActive then existsb (fun w => lifetime w || active w) ws
  else existsb expired ws.

(** A comparison with NULL does not hold. *)
Definition equals {A} (eqb : A -> A -> bool) (v : option A) (a : A) : bool :=
  match v with Some b => eqb b a | None => false end.

Definition field_is (value : string) (number : option float64) (truth : option bool) (cf : ItemCustomField) : bool :=
  equals String.eqb (icf_TextValue (Cols cf)) value || equals String.eqb (icf_DateValue (Cols cf)) value
  || match number with Some n => equals float64_eqb (icf_NumberValue (Cols cf)) n | None => false end
  || match truth with Some b => equals Z.eqb (icf_BoolValue (Cols cf)) (boolToSQLiteInt b) | None => false end.

Definition satisfied (db : DB) (p : Predicate) (i : Item) : bool :=
  match p with
  | InMatched ids => bool_decide (ID i ∈ ids)
  | InLocations ids => match item_LocationID (Cols i) with Some l => bool_decide (l ∈ ids) | None => false end
  | HasLabels labels =>
      let edges := where_ (fun e : ItemLabel => (GroupID e =?s groupID) && (il_ItemID (Cols e) =?s ID i) && live e
                             && bool_decide (il_LabelID (Cols e) ∈ labels)) (item_labels db) in
      (length (remove_dups ((fun e => il_LabelID (Cols e)) <$> edges)) =? length labels)%nat
  | HasCustomField name value number truth =>
      nonempty (where_ (fun cf : ItemCustomField => (GroupID cf =?s groupID) && (icf_ItemID (Cols cf) =?s ID i) && live cf
                          && (icf_Name (Cols cf) =?s name) && field_is value number truth cf) (item_custom_fields db))
  | WarrantyIs status today =>
      warranty_satisfied status today
        (where_ (fun w : Warranty => (GroupID w =?s groupID) && (war_ItemID (Cols w) =?s ID i) && live w) (item_warranty db))
  | CreatedAtLeast n => (n <=? CreatedAt i)%Z
  | CreatedAtMost n => (CreatedAt i <=? n)%Z
  | UpdatedAtLeast n => (n <=? UpdatedAt i)%Z
  | UpdatedAtMost n => (UpdatedAt i <=? n)%Z
  end.

(** [column ASC|DESC, items.id ASC] *)
Definition sort_compare (field : ItemSortField) (a b : Item) : comparison :=
  match field with
  | ItemSortName => String.compare (item_Name (Cols a)) (item_Name (Cols b))
  | ItemSortQuantity => (item_Quantity (Cols a) ?= item_Quantity (Cols b))%Z
  | ItemSortCreatedAt => (CreatedAt a ?= CreatedAt b)%Z
  | ItemSortUpdatedAt => (UpdatedAt a ?= UpdatedAt b)%Z
  end.
Definition sort_leb (s : ItemSort) (a b : Item) : bool :=
  let '(field, descending) := match sort_Field s with Some field => (field, sort_Descending s) | None => (ItemSortUpdatedAt, true) end in
  match sort_compare field (if descending then b else a) (if descending then a else b) with
  | Lt => true | Gt => false | Eq => by_id a b
  end.

(** A negative LIMIT is none. *)
Definition sql_limit_offset {A} (row_limit row_offset : Z) (l : list A) : list A :=
  if (row_limit <? 0)%Z then drop (Z.to_nat row_offset) l else limit_offset row_limit row_offset l.

Definition run_filtered_query (matchedIDs : option (list string)) (f : ItemFilter) (page : Page) (today : string) (db : DB) : list Item :=
  let predicates := filter_predicates matchedIDs f today in
  sql_limit_offset (page_Limit page) (page_Offset page) (order_by (sort_leb (fil_Sort f))
    (where_ (fun i => (GroupID i =?s groupID) && live i && forallb (fun p => satisfied db p i) predicates) (items db))).

(** [today] is the date of [time.Now().UTC()]. *)
Definition ListFiltered `{FullText} (f : ItemFilter) (page : Page) (today : string) : M (list Item) :=
  if negb (active f) then Items_List groupID page else
  let expression := ftsMatchExpression (fil_Query f) in
  matched ← (if expression =?s "" then mret None else ids ← searchItemIDs groupID expression; mret (Some ids));
  match matched with
  | Some [] => mret []
  | _ => db ← get_db; mret (run_filtered_query matched f page today db)
  end.
End query.

(** ** httpapi/items.go *)

Definition defaultItemListLimit : Z := 50.
Definition maxItemListLimit : Z := 200.

(** The parameters of the query; [""] when one is not there. *)
Record ItemQuery := mkItemQuery {
  iq_limit : string; iq_offset : string; iq_sort : string; iq_q : string; iq_location_id : string; iq_descendants : string;
  iq_label_id : list string; iq_custom_field : list string; iq_warranty_status : string;
  iq_created_from : string; iq_created_to : string; iq_updated_from : string; iq_updated_to : string }.

Definition ErrItemLimit : string := "limit must be an integer between 1 and 200".
Definition ErrItemOffset : string := "offset must be a non-negative integer".
Definition ErrItemSort : string :=
  "sort must be one of name, quantity, created_at, updated_at, optionally prefixed with '-' for descending order".

Definition parseItemPage (q : ItemQuery) : string + Page :=
  match (if iq_limit q =?s "" then Some defaultItemListLimit
         else n ← ParseInt (iq_limit q); if (n <=? 0)%Z || (maxItemListLimit <? n)%Z then None else Some n) with
  | None => inl ErrItemLimit
  | Some limit =>
      match (if iq_offset q =?s "" then Some 0%Z else n ← ParseInt (iq_offset q); if (n <? 0)%Z then None else Some n) with
      | None => inl ErrItemOffset
      | Some offset => inr (mkPage limit offset)
      end
  end.

Definition itemSortTokens (token : string) : option ItemSortField :=
  if token =?s "name" then Some ItemSortName else if token =?s "quantity" then Some ItemSortQuantity
  else if token =?s "created_at" then Some ItemSortCreatedAt else if token =?s "updated_at" then Some ItemSortUpdatedAt
  else None.

Definition parseItemSort (raw : string) : option ItemSort :=
  if raw =?s "" then Some (mkItemSort None false) else
  let '(token, descending) := match raw with String "-" rest => (rest, true) | _ => (raw, false) end in
  field ← itemSortTokens token; Some (mkItemSort (Some field) descending).

Definition parseItemCustomFieldFilters (raw : list string) : list CustomFieldMatch :=
  omap (fun entry => match cut_at entry ":" with
                     | Some (EmptyString, _) | None => None
                     | Some (name, value) => Some (mkMatch name value)
                     end) raw.

Definition parseItemFilterEpochMillis (raw : string) : option Z := if raw =?s "" then None else ParseInt raw.

Definition with_locations (ids : list string) (f : ItemFilter) : ItemFilter :=
  mkItemFilter (fil_Query f) ids (fil_LabelIDs f) (fil_CustomFields f) (fil_WarrantyStatus f)
    (fil_CreatedFrom f) (fil_CreatedTo f) (fil_UpdatedFrom f) (fil_UpdatedTo f) (fil_Sort f).
Definition with_sort (s : ItemSort) (f : ItemFilter) : ItemFilter :=
  mkItemFilter (fil_Query f) (fil_LocationIDs f) (fil_LabelIDs f) (fil_CustomFields f) (fil_WarrantyStatus f)
    (fil_CreatedFrom f) (fil_CreatedTo f) (fil_UpdatedFrom f) (fil_UpdatedTo f) s.

Definition parseItemFilter (group : string) (q : ItemQuery) : M ItemFilter :=
  let filter := mkItemFilter (iq_q q) [] (iq_label_id q) (parseItemCustomFieldFilters (iq_custom_field q)) (iq_warranty_status q)
    (parseItemFilterEpochMillis (iq_created_from q)) (parseItemFilterEpochMillis (iq_created_to q))
    (parseItemFilterEpochMillis (iq_updated_from q)) (parseItemFilterEpochMillis (iq_updated_to q)) (mkItemSort None false) in
  let locationID := iq_location_id q in
  if locationID =?s "" then mret filter
  else match ParseBool (iq_descendants q) with
  | Some true =>
      ids ← Locations_Descendants group locationID;
      mret (with_locations (if nonempty ids then ids else [locationID]) filter)
  | _ => mret (with_locations [locationID] filter)
  end.

Definition itemListHandler `{FloatText, FullText} (group : string) (q : ItemQuery) (today : string) : M (Response (list itemBody)) :=
  match parseItemPage q, parseItemSort (iq_sort q) with
  | inl detail, _ => mret (problem_Write (BadRequest (Says detail)))
  | inr _, None => mret (problem_Write (BadRequest (Says ErrItemSort)))
  | inr page, Some sort =>
      answer (filter ← parseItemFilter group q; ListFiltered group (with_sort sort filter) page today) []
        (fun list => writeJSON 200 (toItemBody <$> list))
  end.
