(* ===== verification/ItemListProperties.v ===== *)
(** * Properties of the list of items

    What a filter selects and in which order, that the pages of a list make up
    the whole, and that what a client sends gets into the text of a query only
    as the number of its placeholders. *)

From S2P Require Import Prelude GoBase Schema Sql Evolution Queries Items Details Reads History Demo.
From S2P Require Import Strconv Escape Csv Export Locations LocationTree LocationProperties System HttpCore HttpItems Paths Exchange ItemFilter.
From stdpp Require Import relations.
From Stdlib Require Import Strings.Ascii.

(** ** The order of a list *)

Section lex.
Context {K : Type} (le : relation K) `{!PartialOrder le, !Total le, !EqDecision K} (key : Item -> K).

(** By [key], then by the id. *)
Definition lex (a b : Item) : Prop := le (key a) (key b) /\ (key a = key b -> String.le (ID a) (ID b)).

#[local] Instance lex_trans : Transitive lex.
Proof.
  intros a b c [Hab Ha] [Hbc Hb]. split; [by transitivity (key b)|]. intros Hac.
  assert (key a = key b) by (apply (anti_symm le); [done|by rewrite Hac]). transitivity (ID b); [auto|]. apply Hb. congruence.
Qed.

#[local] Instance lex_total : Total lex.
Proof.
  intros a b. unfold lex. destruct (decide (key a = key b)) as [E|Hne].
  - rewrite E. destruct (total String.le (ID a) (ID b)); [left|right]; done.
  - destruct (total le (key a) (key b)); [left|right]; (split; [done|congruence]).
Qed.
End lex.

(** The order of a sort is one of these. *)
Definition sort_order (s : ItemSort) : relation Item :=
  let '(field, descending) := match sort_Field s with Some field => (field, sort_Descending s) | None => (ItemSortUpdatedAt, true) end in
  match field with
  | ItemSortName => lex (if descending then flip String.le else String.le) (fun i => item_Name (Cols i))
  | ItemSortQuantity => lex (if descending then Z.ge else Z.le) (fun i => item_Quantity (Cols i))
  | ItemSortCreatedAt => lex (if descending then Z.ge else Z.le) CreatedAt
  | ItemSortUpdatedAt => lex (if descending then Z.ge else Z.le) UpdatedAt
  end.

#[local] Instance flip_string_le_order : PartialOrder (flip String.le).
Proof.
  split; [split; [by intros s; unfold flip|intros s t u; unfold flip; intros; by transitivity t]|].
  intros s t Hs Ht. by apply (anti_symm String.le).
Qed.
#[local] Instance flip_string_le_total : Total (flip String.le).
Proof. intros s t. apply (total String.le). Qed.
#[local] Instance ge_order : PartialOrder Z.ge.
Proof. split; [split|]; intros ?; intros; lia. Qed.
#[local] Instance ge_total : Total Z.ge.
Proof. intros a b. lia. Qed.

Lemma sort_order_good s : Transitive (sort_order s) /\ Total (sort_order s).
Proof.
  unfold sort_order. destruct (match sort_Field s with Some _ => _ | None => _ end) as [field descending].
  destruct field, descending; split; first [apply lex_trans|apply lex_total]; apply _.
Qed.

Lemma by_id_le (a b : Item) : by_id a b = true <-> String.le (ID a) (ID b).
Proof. unfold by_id, String.le. by rewrite Is_true_true. Qed.

Lemma compare_lex {K} (le : relation K) (key : Item -> K) (cmp : K -> K -> comparison) a b :
  (forall x y, match cmp x y with Lt => le x y /\ x <> y | Eq => x = y | Gt => ~ le x y end) -> Reflexive le ->
  match cmp (key a) (key b) with Lt => true | Gt => false | Eq => by_id a b end = true <-> lex le key a b.
Proof.
  intros Hcmp Hrefl. specialize (Hcmp (key a) (key b)). unfold lex. destruct (cmp (key a) (key b)).
  - rewrite by_id_le. split; [intros Hi; split; [by rewrite Hcmp|intros _; done]|intros [_ Hi]; by apply Hi].
  - destruct Hcmp. split; [intros _; by split|done].
  - split; [done|]. by intros [Hle _].
Qed.

Lemma string_compare_spec x y : match String.compare x y with Lt => String.le x y /\ x <> y | Eq => x = y | Gt => ~ String.le x y end.
Proof.
  unfold String.le, String.leb. destruct (String.compare x y) eqn:E; [by apply String.compare_eq_iff| |by intros []].
  split; [done|]. intros ->. pose proof (String.compare_antisym y y) as Ha. rewrite E in Ha. discriminate Ha.
Qed.

Lemma string_compare_flip x y :
  match String.compare y x with Lt => flip String.le x y /\ x <> y | Eq => x = y | Gt => ~ flip String.le x y end.
Proof.
  pose proof (string_compare_spec y x) as Hc. unfold flip. destruct (String.compare y x); [done| |done].
  destruct Hc. split; congruence.
Qed.
Lemma Z_compare_spec x y : match (x ?= y)%Z with Lt => (x <= y)%Z /\ x <> y | Eq => x = y | Gt => ~ (x <= y)%Z end.
Proof. destruct (Z.compare_spec x y); lia. Qed.
Lemma Z_compare_flip x y : match (y ?= x)%Z with Lt => (x >= y)%Z /\ x <> y | Eq => x = y | Gt => ~ (x >= y)%Z end.
Proof. destruct (Z.compare_spec y x); lia. Qed.

Lemma sort_leb_order s a b : sort_leb s a b = true <-> sort_order s a b.
Proof.
  unfold sort_leb, sort_order.
  destruct (match sort_Field s with Some _ => _ | None => _ end) as [[| | |] []]; cbn [sort_compare].
  - apply (compare_lex (flip String.le) (fun i => item_Name (Cols i)) (fun x y => String.compare y x)); [apply string_compare_flip|by intros ?].
  - apply (compare_lex String.le (fun i => item_Name (Cols i)) String.compare); [apply string_compare_spec|by intros ?].
  - apply (compare_lex Z.ge (fun i => item_Quantity (Cols i)) (fun x y => y ?= x)%Z); [apply Z_compare_flip|intros ?; lia].
  - apply (compare_lex Z.le (fun i => item_Quantity (Cols i)) Z.compare); [apply Z_compare_spec|intros ?; lia].
  - apply (compare_lex Z.ge CreatedAt (fun x y => y ?= x)%Z); [apply Z_compare_flip|intros ?; lia].
  - apply (compare_lex Z.le CreatedAt Z.compare); [apply Z_compare_spec|intros ?; lia].
  - apply (compare_lex Z.ge UpdatedAt (fun x y => y ?= x)%Z); [apply Z_compare_flip|intros ?; lia].
  - apply (compare_lex Z.le UpdatedAt Z.compare); [apply Z_compare_spec|intros ?; lia].
Qed.

(** ** What is selected *)

Section selected.
Context `{FloatText, FullText} (g today : string) (db : DB).

(** A live row of the group about the item. *)
Definition part_of {D} `{Table D} (item_of : D -> string) (i : Item) (r : Row D) : Prop :=
  (exists k, tbl db !! k = Some r) /\ GroupID r = g /\ item_of (Cols r) = ID i /\ live r = true.

Definition has_label (i : Item) (l : string) : Prop := exists e, part_of il_ItemID i e /\ il_LabelID (Cols e) = l.

Definition has_field (i : Item) (m : CustomFieldMatch) : Prop :=
  exists cf, part_of icf_ItemID i cf /\ icf_Name (Cols cf) = cfm_Name m /\
    (icf_TextValue (Cols cf) = Some (cfm_Value m) \/ icf_DateValue (Cols cf) = Some (cfm_Value m) \/
     (exists n v, ParseFloat (cfm_Value m) = Some n /\ icf_NumberValue (Cols cf) = Some v /\ float64_eqb v n = true) \/
     (exists b, ParseBool (cfm_Value m) = Some b /\ icf_BoolValue (Cols cf) = Some (boolToSQLiteInt b))).

Definition lifetime (w : Warranty) : Prop := war_IsLifetime (Cols w) = 1%Z.
Definition covers (w : Warranty) : Prop :=
  exists expires, war_ExpiresOn (Cols w) = Some expires /\ String.le today expires /\
    forall starts, war_StartsOn (Cols w) = Some starts -> String.le starts today.
Definition over (w : Warranty) : Prop :=
  war_IsLifetime (Cols w) = 0%Z /\ exists expires, war_ExpiresOn (Cols w) = Some expires /\ ~ String.le today expires.

Definition warranty_matches (i : Item) (status : string) : Prop :=
  (status = WarrantyStatusNone -> ~ exists w, part_of war_ItemID i w) /\
  (status = WarrantyStatusAny -> exists w, part_of war_ItemID i w) /\
  (status = WarrantyStatusLifetime -> exists w, part_of war_ItemID i w /\ lifetime w) /\
  (status = WarrantyStatusActive -> exists w, part_of war_ItemID i w /\ (lifetime w \/ covers w)) /\
  (status = WarrantyStatusExpired -> exists w, part_of war_ItemID i w /\ over w).

(** What a filter promises of an item that it lets through. *)
Record selected (f : ItemFilter) (i : Item) : Prop := mkSelected {
  sel_group : GroupID i = g;
  sel_live : live i = true;
  sel_query : Fields (fil_Query f) <> [] -> exists matches, fts_match db (ftsMatchExpression (fil_Query f)) = Some matches /\ matches (ID i) = true;
  sel_location : fil_LocationIDs f <> [] -> exists l, item_LocationID (Cols i) = Some l /\ l ∈ fil_LocationIDs f;
  sel_labels : forall l, l ∈ fil_LabelIDs f -> has_label i l;
  sel_fields : forall m, m ∈ fil_CustomFields f -> has_field i m;
  sel_warranty : warranty_matches i (fil_WarrantyStatus f);
  sel_created : (forall n, fil_CreatedFrom f = Some n -> (n <= CreatedAt i)%Z) /\ (forall n, fil_CreatedTo f = Some n -> (CreatedAt i <= n)%Z);
  sel_updated : (forall n, fil_UpdatedFrom f = Some n -> (n <= UpdatedAt i)%Z) /\ (forall n, fil_UpdatedTo f = Some n -> (UpdatedAt i <= n)%Z) }.

(** *** Predicates *)

Lemma nonempty_where {D} `{Table D} (P : Row D -> bool) t : nonempty (where_ P t) = true <-> exists r, (exists k, t !! k = Some r) /\ P r = true.
Proof.
  destruct (where_ P t) as [|r l] eqn:E; cbn.
  - split; [done|]. intros (r & Hr). assert (Hin : r ∈ where_ P t) by by apply elem_of_where. rewrite E in Hin. set_solver.
  - split; [|done]. intros _. exists r. apply elem_of_where. rewrite E. by left.
Qed.

Lemma dedupe_loop_spec ids : forall seen, NoDup (dedupe_loop seen ids) /\ forall x, x ∈ dedupe_loop seen ids <-> x ∈ ids /\ x ∉ seen.
Proof.
  induction ids as [|id ids IH]; intros seen; cbn [dedupe_loop]; [split; [constructor|set_solver]|].
  case_bool_decide as Hin.
  - destruct (IH seen) as [Hn Hx]. split; [done|]. intros x. rewrite Hx. set_solver.
  - destruct (IH ({[id]} ∪ seen)) as [Hn Hx]. split; [constructor; [rewrite Hx; set_solver|done]|]. intros x.
    rewrite elem_of_cons, Hx. destruct (decide (x = id)); set_solver.
Qed.

Lemma dedupe_spec ids : NoDup (dedupe ids) /\ forall x, x ∈ dedupe ids <-> x ∈ ids.
Proof.
  unfold dedupe. destruct (Nat.ltb_spec (length ids) 2).
  - split; [|done]. destruct ids as [|x [|y ids]]; [constructor|by apply NoDup_singleton|simpl in *; lia].
  - destruct (dedupe_loop_spec ids ∅) as [Hn Hx]. split; [done|]. intros x. rewrite Hx. set_solver.
Qed.

(** As many distinct labels as asked for: all of them. *)
Lemma counts_all (found labels : list string) : NoDup labels -> (forall l, l ∈ found -> l ∈ labels) ->
  length (remove_dups found) = length labels <-> forall l, l ∈ labels -> l ∈ found.
Proof.
  intros Hnd Hsub.
  assert (Hs : remove_dups found ⊆+ labels).
  { apply NoDup_submseteq; [apply NoDup_remove_dups|]. intros l. rewrite elem_of_remove_dups. apply Hsub. }
  split.
  - intros Hl l Hin. apply elem_of_remove_dups. apply submseteq_length_Permutation in Hs; [by rewrite Hs|lia].
  - intros Hall. apply Nat.le_antisymm; [by apply submseteq_length|]. apply submseteq_length, NoDup_submseteq; [done|].
    intros l Hin. by apply elem_of_remove_dups, Hall.
Qed.

Lemma labels_satisfied i labels : NoDup labels -> satisfied g db (HasLabels labels) i = true <-> forall l, l ∈ labels -> has_label i l.
Proof.
  intros Hnd. cbn [satisfied]. rewrite Nat.eqb_eq, counts_all; [|done|].
  - apply forall_proper. intros l. split; intros Hl Hin; specialize (Hl Hin).
    + apply list_elem_of_fmap in Hl as (e & -> & (Hk & Hb)%elem_of_where). bool_facts. by exists e.
    + destruct Hl as (e & (Hk & Hg & Hi & Hl) & <-). apply list_elem_of_fmap. exists e. split; [done|]. apply elem_of_where.
      split; [done|]. rewrite Hg, Hi, Hl, !string_eqb_refl. by apply bool_decide_eq_true.
  - intros l (e & -> & (_ & Hb)%elem_of_where)%list_elem_of_fmap. by bool_facts.
Qed.

Lemma equals_true {A} (eqb : A -> A -> bool) v a : equals eqb v a = true <-> exists b, v = Some b /\ eqb b a = true.
Proof. destruct v as [b|]; cbn; split; [by exists b|by intros (? & [= <-] & ?)|done|by intros (? & ? & _)]. Qed.

Lemma field_is_true m cf : field_is (cfm_Value m) (ParseFloat (cfm_Value m)) (ParseBool (cfm_Value m)) cf = true <->
  (icf_TextValue (Cols cf) = Some (cfm_Value m) \/ icf_DateValue (Cols cf) = Some (cfm_Value m) \/
   (exists n v, ParseFloat (cfm_Value m) = Some n /\ icf_NumberValue (Cols cf) = Some v /\ float64_eqb v n = true) \/
   (exists b, ParseBool (cfm_Value m) = Some b /\ icf_BoolValue (Cols cf) = Some (boolToSQLiteInt b))).
Proof.
  unfold field_is. rewrite !orb_true_iff, !equals_true.
  assert (Ht : forall o, (exists b, o = Some b /\ (b =?s cfm_Value m) = true) <-> o = Some (cfm_Value m)).
  { intros o. split; [by intros (b & -> & ->%string_eqb_true)|intros ->; exists (cfm_Value m); by rewrite string_eqb_refl]. }
  assert (Hn : match ParseFloat (cfm_Value m) with Some n => equals float64_eqb (icf_NumberValue (Cols cf)) n | None => false end = true <->
    exists n v, ParseFloat (cfm_Value m) = Some n /\ icf_NumberValue (Cols cf) = Some v /\ float64_eqb v n = true).
  { destruct (ParseFloat (cfm_Value m)) as [n|]; [|split; [done|by intros (? & ? & ? & _)]].
    rewrite equals_true. split; [intros (v & ? & ?); by exists n, v|intros (? & v & [= <-] & ? & ?); by exists v]. }
  assert (Hb : match ParseBool (cfm_Value m) with Some b => equals Z.eqb (icf_BoolValue (Cols cf)) (boolToSQLiteInt b) | None => false end = true <->
    exists b, ParseBool (cfm_Value m) = Some b /\ icf_BoolValue (Cols cf) = Some (boolToSQLiteInt b)).
  { destruct (ParseBool (cfm_Value m)) as [b|]; [|split; [done|by intros (? & ? & _)]].
    rewrite equals_true. split; [intros (v & -> & ->%Z.eqb_eq); by exists b|intros (? & [= <-] & ->)].
    exists (boolToSQLiteInt b). by rewrite Z.eqb_refl. }
  rewrite !Ht, Hn, Hb. tauto.
Qed.

Lemma custom_field_satisfied i m :
  satisfied g db (buildCustomFieldPredicate (cfm_Name m) (cfm_Value m)) i = true <-> has_field i m.
Proof.
  cbn [satisfied buildCustomFieldPredicate]. rewrite nonempty_where. split.
  - intros (cf & Hk & Hb). rewrite andb_true_iff, field_is_true in Hb. destruct Hb as [Hb Hf]. bool_facts. by exists cf.
  - intros (cf & (Hk & Hg & Hi & Hl) & Hn & Hf). exists cf. split; [done|].
    rewrite Hg, Hi, Hl, Hn, !string_eqb_refl. by apply field_is_true.
Qed.

#[local] Abbreviation warranties i :=
  (where_ (fun w : Warranty => (GroupID w =?s g) && (war_ItemID (Cols w) =?s ID i) && live w) (item_warranty db)).

Lemma elem_of_warranties i w : w ∈ warranties i <-> part_of war_ItemID i w.
Proof.
  rewrite elem_of_where. unfold part_of. split; [intros (Hk & Hb); by bool_facts|].
  intros (Hk & Hg & Hi & Hl). split; [done|]. by rewrite Hg, Hi, Hl, !string_eqb_refl.
Qed.

Lemma some_warranty i : nonempty (warranties i) = true <-> exists w, part_of war_ItemID i w.
Proof.
  rewrite nonempty_where. apply exist_proper. intros w. rewrite <- elem_of_warranties, elem_of_where. done.
Qed.

Lemma exists_warranty i (p : Warranty -> bool) (P : Warranty -> Prop) : (forall w, p w = true <-> P w) ->
  existsb p (warranties i) = true <-> exists w, part_of war_ItemID i w /\ P w.
Proof.
  intros Hp. rewrite List.existsb_exists. apply exist_proper. intros w.
  by rewrite <- elem_of_warranties, <- Hp, list_elem_of_In.
Qed.

Lemma leb_le (s t : string) : String.leb s t = true <-> String.le s t.
Proof. unfold String.le. by rewrite Is_true_true. Qed.
Lemma ltb_not_le (s t : string) : String.ltb s t = true <-> ~ String.le t s.
Proof.
  rewrite <- leb_le. unfold String.ltb, String.leb. rewrite (String.compare_antisym s t).
  by destruct (String.compare t s); cbn; split; intros; try done; exfalso; auto.
Qed.

Lemma covers_iff w :
  match war_ExpiresOn (Cols w) with
  | Some expires => String.leb today expires && match war_StartsOn (Cols w) with Some starts => String.leb starts today | None => true end
  | None => false
  end = true <-> covers w.
Proof.
  unfold covers. destruct (war_ExpiresOn (Cols w)) as [expires|]; [|split; [done|by intros (? & ? & _)]].
  rewrite andb_true_iff, leb_le. split.
  - intros [He Hs]. exists expires. split_and!; [done..|]. intros starts Hst. rewrite Hst in Hs. by apply leb_le.
  - intros (? & [= <-] & He & Hs). split; [done|]. destruct (war_StartsOn (Cols w)) as [starts|]; [|done]. by apply leb_le, Hs.
Qed.

Lemma over_iff w :
  (war_IsLifetime (Cols w) =? 0)%Z && match war_ExpiresOn (Cols w) with Some expires => String.ltb expires today | None => false end = true <-> over w.
Proof.
  unfold over. rewrite andb_true_iff, Z.eqb_eq. apply Morphisms_Prop.and_iff_morphism; [done|].
  destruct (war_ExpiresOn (Cols w)) as [expires|]; [|split; [done|by intros (? & ? & _)]].
  rewrite ltb_not_le. split; [intros ?; by exists expires|by intros (? & [= <-] & ?)].
Qed.

Lemma status_satisfied i status :
  forallb (fun p => satisfied g db p i) (when (buildWarrantyStatusPredicate status today) id) = true <-> warranty_matches i status.
Proof.
  unfold warranty_matches, buildWarrantyStatusPredicate. case_bool_decide as Hin; cbn [when forallb].
  - rewrite andb_true_r. unfold id. cbn [satisfied]. unfold warranty_satisfied.
    repeat (apply elem_of_cons in Hin as [->|Hin]); [..|by apply elem_of_nil in Hin]; cbn [String.eqb Ascii.eqb Bool.eqb WarrantyStatusNone WarrantyStatusAny WarrantyStatusLifetime WarrantyStatusActive WarrantyStatusExpired].
    + rewrite negb_true_iff. split; [|intros (Hno & _); apply not_true_iff_false; rewrite (some_warranty i); by apply Hno].
      intros Hno. split_and!; try done. intros _ Hex. apply (some_warranty i) in Hex. by rewrite Hno in Hex.
    + rewrite (some_warranty i). split; [intros Hex; by split_and!|intros (_ & Hex & _); by apply Hex].
    + rewrite (exists_warranty i _ lifetime) by (intros w; apply Z.eqb_eq). split; [intros Hex; by split_and!|intros (_ & _ & Hex & _); by apply Hex].
    + rewrite (exists_warranty i _ (fun w => lifetime w \/ covers w)).
      * split; [intros Hex; by split_and!|intros (_ & _ & _ & Hex & _); by apply Hex].
      * intros w. rewrite orb_true_iff, covers_iff. unfold lifetime. by rewrite Z.eqb_eq.
    + rewrite (exists_warranty i _ over) by apply over_iff. split; [intros Hex; by split_and!|intros (_ & _ & _ & _ & Hex); by apply Hex].
  - split; [|done]. intros _. split_and!; intros ->; destruct Hin; set_solver.
Qed.
End selected.

(** ** The list *)

Section list.
Context `{FloatText, FullText} (g today : string).

Lemma forallb_when {A} (p : Predicate -> bool) (o : option A) (q : A -> Predicate) :
  forallb p (when o q) = true <-> forall a, o = Some a -> p (q a) = true.
Proof.
  destruct o as [a|]; cbn; [|by split]. rewrite andb_true_r. split; [by intros Hp ? [= <-]|intros Hp; by apply Hp].
Qed.

Lemma forallb_unless_empty {A} (p : Predicate -> bool) (l : list A) q :
  forallb p (unless_empty l q) = true <-> (l <> [] -> p q = true).
Proof. destruct l; cbn; [by split|]. rewrite andb_true_r. split; [done|intros Hp; by apply Hp]. Qed.

Lemma predicates_satisfied db matched f i :
  forallb (fun p => satisfied g db p i) (filter_predicates matched f today) = true <->
  (forall ids, matched = Some ids -> ID i ∈ ids) /\
  (fil_LocationIDs f <> [] -> exists l, item_LocationID (Cols i) = Some l /\ l ∈ fil_LocationIDs f) /\
  (forall l, l ∈ fil_LabelIDs f -> has_label g db i l) /\
  (forall m, m ∈ fil_CustomFields f -> has_field g db i m) /\
  warranty_matches g today db i (fil_WarrantyStatus f) /\
  ((forall n, fil_CreatedFrom f = Some n -> (n <= CreatedAt i)%Z) /\ (forall n, fil_CreatedTo f = Some n -> (CreatedAt i <= n)%Z)) /\
  ((forall n, fil_UpdatedFrom f = Some n -> (n <= UpdatedAt i)%Z) /\ (forall n, fil_UpdatedTo f = Some n -> (UpdatedAt i <= n)%Z)).
Proof.
  unfold filter_predicates. rewrite !forallb_app, !andb_true_iff, status_satisfied, !forallb_when, !forallb_unless_empty.
  cbn [satisfied]. setoid_rewrite bool_decide_eq_true. setoid_rewrite Z.leb_le.
  destruct (dedupe_spec (fil_LabelIDs f)) as [Hnd Hin].
  assert (Hlab : (dedupe (fil_LabelIDs f) <> [] -> satisfied g db (HasLabels (dedupe (fil_LabelIDs f))) i = true) <->
    forall l, l ∈ fil_LabelIDs f -> has_label g db i l).
  { rewrite labels_satisfied by done. setoid_rewrite Hin. split; [|by auto].
    intros Hl l Hx. apply Hl; [|done]. intros E. apply Hin in Hx. rewrite E in Hx. by apply elem_of_nil in Hx. }
  assert (Hloc : (fil_LocationIDs f <> [] -> match item_LocationID (Cols i) with Some l => bool_decide (l ∈ fil_LocationIDs f) | None => false end = true) <->
    (fil_LocationIDs f <> [] -> exists l, item_LocationID (Cols i) = Some l /\ l ∈ fil_LocationIDs f)).
  { destruct (item_LocationID (Cols i)) as [l|]; split; intros Hl Hne; specialize (Hl Hne).
    - exists l. by bool_facts.
    - destruct Hl as (? & [= <-] & Hl). by apply bool_decide_eq_true.
    - done.
    - by destruct Hl as (? & ? & _). }
  assert (Hcf : forallb (fun p => satisfied g db p i) ((fun cf => buildCustomFieldPredicate (cfm_Name cf) (cfm_Value cf)) <$> fil_CustomFields f) = true <->
    forall m, m ∈ fil_CustomFields f -> has_field g db i m).
  { rewrite forallb_true_iff. setoid_rewrite list_elem_of_fmap. split.
    - intros Hall m Hm. apply custom_field_satisfied, Hall. by exists m.
    - intros Hall p (m & -> & Hm). by apply custom_field_satisfied, Hall. }
  rewrite Hcf. cbn [satisfied] in Hlab. rewrite Hlab, Hloc. tauto.
Qed.

Lemma expression_empty raw : (ftsMatchExpression raw =?s "") = true <-> Fields raw = [].
Proof.
  unfold ftsMatchExpression. destruct (Fields raw) as [|a fs]; [done|]. split; [|done]. by destruct fs.
Qed.

(** The rows that come back, in the order of the query. *)
Definition filtered_rows (matched : option (list string)) (f : ItemFilter) (db : DB) : list Item :=
  order_by (sort_leb (fil_Sort f))
    (where_ (fun i => (GroupID i =?s g) && live i && forallb (fun p => satisfied g db p i) (filter_predicates matched f today)) (items db)).

Lemma page_of_rows {A} limit offset (l : list A) : (0 < limit)%Z -> sql_limit_offset limit offset l = take (Z.to_nat limit) (drop (Z.to_nat offset) l).
Proof. intros Hl. unfold sql_limit_offset. by rewrite (proj2 (Z.ltb_ge limit 0)) by lia. Qed.

Lemma filtered_rows_nothing f db : filtered_rows (Some []) f db = [].
Proof.
  unfold filtered_rows. destruct (where_ _ (items db)) as [|i l] eqn:E; [done|]. exfalso.
  assert (Hin : i ∈ where_ (fun i => (GroupID i =?s g) && live i && forallb (fun p => satisfied g db p i) (filter_predicates (Some []) f today)) (items db))
    by (rewrite E; by left).
  apply elem_of_where in Hin as [_ Hb]. rewrite andb_true_iff, predicates_satisfied in Hb. destruct Hb as (_ & Hm & _).
  specialize (Hm [] eq_refl). by apply elem_of_nil in Hm.
Qed.

Lemma ListFiltered_rows f limit offset w matched :
  active f = true -> (0 < limit)%Z ->
  (if ftsMatchExpression (fil_Query f) =?s "" then mret None else ids ← searchItemIDs g (ftsMatchExpression (fil_Query f)); mret (Some ids)) w = (Ok matched, w) ->
  ListFiltered g f (mkPage limit offset) today w =
    (Ok (take (Z.to_nat limit) (drop (Z.to_nat offset) (filtered_rows matched f (wdb w)))), w).
Proof.
  intros Ha Hl Hm. unfold ListFiltered. rewrite Ha. cbv zeta. cbn [negb]. rewrite (prog_bind_ok _ _ _ _ _ Hm).
  destruct matched as [[|id ids]|]; [by rewrite filtered_rows_nothing, drop_nil, take_nil|..];
    unfold get_db, mbind, prog_bind, run_filtered_query, mret, prog_ret; by rewrite <- page_of_rows.
Qed.

(** *** Without a filter *)

Lemma inactive_selects f db i : active f = false -> selected g today db f i <-> GroupID i = g /\ live i = true.
Proof.
  unfold active, given, nonempty. rewrite !orb_false_iff, !negb_false_iff. intros Ha.
  destruct_and!. bool_facts.
  destruct f as [q locs labels cfs st cf ct uf ut s]; cbn in *. repeat case_match; try done; subst.
  split; [by intros []|]. intros [Hg Hl]. split; cbn; try done; try by split_and!.
  all: intros l Hin; by apply elem_of_nil in Hin.
Qed.

Lemma and_iff_compat (P Q R : Prop) : (P -> Q <-> R) -> P /\ Q <-> P /\ R.
Proof. tauto. Qed.

Lemma where_ext {D} (P Q : Row D -> bool) (t : gmap string (Row D)) : (forall r, P r = Q r) -> where_ P t = where_ Q t.
Proof. intros HP. unfold where_. apply List.filter_ext. exact HP. Qed.

Lemma default_order a b : asc_then (fun r : Item => - UpdatedAt r)%Z by_id a b = true <-> sort_order (mkItemSort None false) a b.
Proof.
  unfold asc_then, sort_order, lex. cbn [sort_Field]. rewrite orb_true_iff, andb_true_iff, Z.ltb_lt, Z.eqb_eq, by_id_le.
  split; [intros [|[? ?]]; split; try lia; done|]. intros [Hge Hid]. destruct (decide (UpdatedAt a = UpdatedAt b)); [right; split; [lia|auto]|left; lia].
Qed.

Lemma StronglySorted_order_by (leb : Item -> Item -> bool) (R : relation Item) l :
  Transitive R -> Total R -> (forall a b, leb a b = true <-> R a b) -> StronglySorted R (order_by leb l).
Proof.
  intros Htr Htot Hleb.
  assert (Ht : Transitive (fun a b => leb a b)).
  { intros a b c. rewrite !Is_true_true, !Hleb. apply Htr. }
  assert (Hl : Total (fun a b => leb a b)).
  { intros a b. rewrite !Is_true_true, !Hleb. apply Htot. }
  assert (Hs : StronglySorted (fun a b => leb a b) (order_by leb l)) by apply (StronglySorted_merge_sort _).
  induction Hs as [|x l' _ IH Hx]; constructor; [done|]. eapply Forall_impl; [exact Hx|]. intros y. cbn. by rewrite Is_true_true, Hleb.
Qed.
End list.

(** A list of items is what its filter asks for.  There is a list of
    exactly the live items of the group that the filter lets through (that
    match the search, are in one of the locations, have every label, every
    custom field and the warranty asked for, and were made and changed in
    time), each once and in the order of the sort, such that every page is the
    part of it at the offset, so that the pages one after the other are all of
    it. *)
Lemma list_filtered `{FloatText, FullText} g f today w :
  keyed (items (wdb w)) ->
  (Fields (fil_Query f) <> [] -> is_Some (fts_match (wdb w) (ftsMatchExpression (fil_Query f)))) ->
  exists l,
    (forall i, i ∈ l <-> items (wdb w) !! ID i = Some i /\ selected g today (wdb w) f i) /\
    NoDup (ID <$> l) /\ StronglySorted (sort_order (fil_Sort f)) l /\
    forall limit offset, (0 < limit)%Z -> (0 <= offset)%Z ->
      ListFiltered g f (mkPage limit offset) today w = (Ok (take (Z.to_nat limit) (drop (Z.to_nat offset) l)), w).
Proof.
  intros Hk Hfts. destruct (active f) eqn:Ha.
  - assert (Hm : exists matched,
      (if ftsMatchExpression (fil_Query f) =?s "" then mret None else ids ← searchItemIDs g (ftsMatchExpression (fil_Query f)); mret (Some ids)) w = (Ok matched, w) /\
      forall i, items (wdb w) !! ID i = Some i -> GroupID i = g -> live i = true -> (forall ids, matched = Some ids -> ID i ∈ ids) <->
        (Fields (fil_Query f) <> [] -> exists matches, fts_match (wdb w) (ftsMatchExpression (fil_Query f)) = Some matches /\ matches (ID i) = true)).
    { destruct (ftsMatchExpression (fil_Query f) =?s "") eqn:E.
      - exists None. split; [done|]. intros i _ _ _. apply expression_empty in E. by split.
      - destruct Hfts as [matches Hmatch]; [intros Hf; apply expression_empty in Hf; congruence|].
        eexists. split; [unfold searchItemIDs, mbind, prog_bind; by rewrite Hmatch|].
        intros i Hi Hg Hl. split.
        + intros Hin _. exists matches. split; [done|]. specialize (Hin _ eq_refl).
          apply list_elem_of_fmap in Hin as (i' & Hid & Hin). apply elem_of_where_keyed in Hin as [Hi' Hb]; [|done].
          rewrite <- Hid in Hi'. rewrite Hi in Hi'. injection Hi' as <-. by bool_facts.
        + intros Hq ? [= <-]. destruct Hq as (m & Hm & Hmi); [intros Hf; apply expression_empty in Hf; congruence|].
          rewrite Hmatch in Hm. injection Hm as <-. apply list_elem_of_fmap. exists i. split; [done|].
          apply elem_of_where_keyed; [done|]. split; [done|]. by rewrite Hmi, Hg, string_eqb_refl, Hl. }
    destruct Hm as (matched & Hm & Hids). exists (filtered_rows g today matched f (wdb w)). split_and!.
    + intros i. unfold filtered_rows. rewrite elem_of_order_by, elem_of_where_keyed by done.
      apply and_iff_compat. intros Hi. rewrite !andb_true_iff, string_eqb_true, predicates_satisfied. split.
      * intros ([Hg Hl] & Hq & Hrest). rewrite Hids in Hq by done. destruct_and!. split; try done; by split_and!.
      * intros [Hg Hl Hq ? ? ? ? ? ?]. split; [done|]. rewrite Hids by done. split_and!; try done; naive_solver.
    + unfold filtered_rows. rewrite order_by_Permutation. by apply NoDup_where_ids.
    + apply StronglySorted_order_by; [apply sort_order_good..|apply sort_leb_order].
    + intros limit offset Hl _. by apply ListFiltered_rows.
  - exists (order_by (asc_then (fun r : Item => - UpdatedAt r)%Z by_id) (where_ (fun r : Item => (GroupID r =?s g) && live r) (items (wdb w)))).
    split_and!.
    + intros i. rewrite elem_of_order_by, elem_of_where_keyed, inactive_selects by done.
      apply and_iff_compat. intros _. by rewrite andb_true_iff, string_eqb_true.
    + rewrite order_by_Permutation. by apply NoDup_where_ids.
    + apply StronglySorted_order_by; [apply sort_order_good..|]. intros a b. rewrite default_order. unfold sort_order.
      unfold active, given in Ha. rewrite !orb_false_iff in Ha. destruct Ha as [_ Hs]. by destruct (sort_Field (fil_Sort f)).
    + intros limit offset Hl Ho. unfold ListFiltered. rewrite Ha. cbn [negb]. unfold Items_List. cbn [page_Limit page_Offset].
      by rewrite (proj2 (Z.leb_gt limit 0) Hl), (proj2 (Z.ltb_ge offset 0) Ho).
Qed.

(** ** What a client sends is data *)

Fixpoint placeholders (s : string) : nat :=
  match s with EmptyString => 0 | String c s => (if Ascii.eqb c "?" then 1 else 0) + placeholders s end.

Lemma placeholders_app s t : placeholders (s ++ t)%string = (placeholders s + placeholders t)%nat.
Proof. induction s as [|c s IH]; [done|]. rewrite string_cons_app. cbn [placeholders]. rewrite IH. lia. Qed.

Lemma placeholders_ids n : placeholders (idPlaceholders n) = n.
Proof.
  induction n as [|n IH]; [done|]. destruct n as [|n]; [done|].
  change (idPlaceholders (S (S n))) with ("?, " ++ idPlaceholders (S n))%string. by rewrite placeholders_app, IH.
Qed.

Section text.
Context `{FloatText} (g : string).

Ltac count := rewrite ?placeholders_app, ?placeholders_ids, ?length_app, ?length_fmap; cbn [placeholders length]; simpl; lia.

Lemma render_placeholders p : placeholders (render g p).1 = length (render g p).2.
Proof.
  destruct p as [ids|ids|labels|name value number truth|status today|n|n|n|n]; try done; cbn [render fst snd].
  - count.
  - count.
  - repeat (rewrite placeholders_app || rewrite placeholders_ids). cbn [length]. rewrite length_app, length_fmap. simpl. lia.
  - repeat rewrite placeholders_app. rewrite !length_app. destruct number, truth; done.
  - unfold render_warranty. by repeat case_match.
Qed.

Lemma query_placeholders matched f page today :
  placeholders (buildFilteredItemsQuery g matched f page today).1 = length (buildFilteredItemsQuery g matched f page today).2.
Proof.
  unfold buildFilteredItemsQuery. destruct (resolveItemSort (fil_Sort f)) as [column direction] eqn:E. cbn [fst snd].
  assert (Hcol : placeholders column = 0%nat /\ placeholders direction = 0%nat).
  { unfold resolveItemSort, sort_column in E. by repeat case_match; injection E as <- <-. }
  rewrite !length_app. repeat rewrite placeholders_app. destruct Hcol as [-> ->].
  assert (Hp : forall ps, placeholders (foldr (fun p text => and_text g p ++ text)%string "" ps) = length (ps ≫= fun p => (render g p).2)).
  { induction ps as [|p ps IH]; [done|]. cbn [foldr mbind list_bind]. rewrite placeholders_app, IH, length_app. unfold and_text.
    rewrite !placeholders_app, render_placeholders. done. }
  rewrite Hp. simpl. lia.
Qed.

(** What of a predicate gets into the text. *)
Definition alike (p q : Predicate) : Prop :=
  match p, q with
  | InMatched a, InMatched b | InLocations a, InLocations b | HasLabels a, HasLabels b => length a = length b
  | HasCustomField _ _ n t, HasCustomField _ _ n' t' => given n = given n' /\ given t = given t'
  | WarrantyIs s _, WarrantyIs s' _ => s = s'
  | CreatedAtLeast _, CreatedAtLeast _ | CreatedAtMost _, CreatedAtMost _
  | UpdatedAtLeast _, UpdatedAtLeast _ | UpdatedAtMost _, UpdatedAtMost _ => True
  | _, _ => False
  end.

Lemma alike_text h p q : alike p q -> (render g p).1 = (render h q).1.
Proof.
  destruct p, q; cbn [alike]; try done; cbn [render fst].
  - by intros ->.
  - by intros ->.
  - by intros ->.
  - by intros [-> ->].
  - intros ->. unfold render_warranty. by repeat case_match.
Qed.
End text.

(** Two filters of one shape ask the same questions with other values. *)
Record same_shape `{FloatText} (m m' : option (list string)) (f f' : ItemFilter) : Prop := mkSameShape {
  ss_matched : length <$> m = length <$> m';
  ss_locations : length (fil_LocationIDs f) = length (fil_LocationIDs f');
  ss_labels : length (dedupe (fil_LabelIDs f)) = length (dedupe (fil_LabelIDs f'));
  ss_fields : Forall2 (fun a b => given (ParseFloat (cfm_Value a)) = given (ParseFloat (cfm_Value b)) /\
    given (ParseBool (cfm_Value a)) = given (ParseBool (cfm_Value b))) (fil_CustomFields f) (fil_CustomFields f');
  ss_status : fil_WarrantyStatus f = fil_WarrantyStatus f';
  ss_bounds : given (fil_CreatedFrom f) = given (fil_CreatedFrom f') /\ given (fil_CreatedTo f) = given (fil_CreatedTo f') /\
    given (fil_UpdatedFrom f) = given (fil_UpdatedFrom f') /\ given (fil_UpdatedTo f) = given (fil_UpdatedTo f');
  ss_sort : fil_Sort f = fil_Sort f' }.

Section shapes.
Context `{FloatText}.

Lemma alike_when {A} (o o' : option A) (p : A -> Predicate) :
  given o = given o' -> (forall a b, o = Some a -> o' = Some b -> alike (p a) (p b)) -> Forall2 alike (when o p) (when o' p).
Proof. destruct o, o'; try done; cbn; intros _ Hp; repeat constructor; by apply Hp. Qed.

Lemma alike_unless {A} (l l' : list A) p q : length l = length l' -> alike p q -> Forall2 alike (unless_empty l p) (unless_empty l' q).
Proof. destruct l, l'; try done; cbn; intros _ Hp; by repeat constructor. Qed.

Lemma alike_predicates m m' f f' today today' :
  same_shape m m' f f' -> Forall2 alike (filter_predicates m f today) (filter_predicates m' f' today').
Proof.
  intros [Hm Hloc Hlab Hcf Hst (Hc & Hc' & Hu & Hu') _]. unfold filter_predicates. repeat apply Forall2_app.
  - destruct m, m'; try done. injection Hm as Hm. by repeat constructor.
  - by apply alike_unless.
  - by apply alike_unless.
  - apply Forall2_fmap. eapply Forall2_impl; [exact Hcf|]. by intros a b.
  - rewrite <- Hst. unfold buildWarrantyStatusPredicate. case_bool_decide; by repeat constructor.
  - by apply alike_when.
  - by apply alike_when.
  - by apply alike_when.
  - by apply alike_when.
Qed.

Lemma shape_text g h m m' f f' page page' today today' : same_shape m m' f f' ->
  (buildFilteredItemsQuery g m f page today).1 = (buildFilteredItemsQuery h m' f' page' today').1.
Proof.
  intros Hs. pose proof (alike_predicates m m' f f' today today' Hs) as Ha. unfold buildFilteredItemsQuery.
  rewrite (ss_sort _ _ _ _ Hs). destruct (resolveItemSort (fil_Sort f')) as [column direction]. cbn [fst].
  assert (E : foldr (fun p text => and_text g p ++ text)%string "" (filter_predicates m f today)
              = foldr (fun p text => and_text h p ++ text)%string "" (filter_predicates m' f' today')).
  { induction Ha as [|p q ps qs Hp _ IH]; [done|]. cbn [foldr]. unfold and_text at 1 3. by rewrite IH, (alike_text g h p q Hp). }
  by rewrite E.
Qed.
End shapes.

(** *** The search *)

(** How the index reads an expression of phrases: the text between quotes,
    where two quotes stand for one, and whether a star follows. *)
Inductive fts_state := BetweenPhrases | InPhrase (text : string) | AfterQuote (text : string).

Fixpoint read_phrases (st : fts_state) (s : string) : option (list (string * bool)) :=
  match s with
  | EmptyString => match st with BetweenPhrases => Some [] | InPhrase _ => None | AfterQuote t => Some [(t, false)] end
  | String c s =>
      match st with
      | BetweenPhrases => if Ascii.eqb c QUOTE then read_phrases (InPhrase "") s else if Ascii.eqb c " " then read_phrases BetweenPhrases s else None
      | InPhrase t => if Ascii.eqb c QUOTE then read_phrases (AfterQuote t) s else read_phrases (InPhrase (t ++ String c "")) s
      | AfterQuote t =>
          if Ascii.eqb c QUOTE then read_phrases (InPhrase (t ++ String QUOTE "")) s
          else if Ascii.eqb c "*" then (cons (t, true)) <$> read_phrases BetweenPhrases s
          else if Ascii.eqb c " " then (cons (t, false)) <$> read_phrases BetweenPhrases s
          else None
      end
  end.

(** The fields as phrases, the last one as a prefix. *)
Fixpoint last_starred (fields : list string) : list (string * bool) :=
  match fields with [] => [] | [f] => [(f, true)] | f :: fields => (f, false) :: last_starred fields end.

Lemma read_quoted_text f : forall t rest, read_phrases (InPhrase t) (double_quotes f ++ String QUOTE rest) = read_phrases (AfterQuote (t ++ f)) rest.
Proof.
  induction f as [|c f IH]; intros t rest.
  - cbn [double_quotes]. change (EmptyString ++ String QUOTE rest)%string with (String QUOTE rest). cbn [read_phrases]. by rewrite Ascii.eqb_refl, string_app_nil_r.
  - cbn [double_quotes]. destruct (Ascii.eqb_spec c QUOTE) as [->|Hc]; rewrite ?string_cons_app; cbn [read_phrases].
    + rewrite !Ascii.eqb_refl, IH. by rewrite string_app_assoc, string_cons_app.
    + apply Ascii.eqb_neq in Hc. rewrite Hc, IH. by rewrite string_app_assoc, string_cons_app.
Qed.

Lemma read_joined fields : read_phrases BetweenPhrases (join_starred (quoted <$> fields)) = Some (last_starred fields).
Proof.
  assert (Hq : forall f rest, read_phrases BetweenPhrases (quoted f ++ rest) = read_phrases (AfterQuote f) rest).
  { intros f rest. unfold quoted. rewrite string_cons_app. cbn [read_phrases]. rewrite Ascii.eqb_refl, string_app_assoc, string_cons_app.
    apply read_quoted_text. }
  induction fields as [|f [|f' fields] IH]; [done|..].
  - cbn [fmap list_fmap join_starred]. by rewrite Hq.
  - change (join_starred (quoted <$> f :: f' :: fields)) with (quoted f ++ " " ++ join_starred (quoted <$> f' :: fields))%string.
    rewrite Hq. cbn [read_phrases]. change (" " ++ ?t)%string with (String " " t). cbn [read_phrases].
    rewrite IH. done.
Qed.

(** C1: what a client sends with a list is data.  The text of a query has as
    many placeholders as it has arguments; it depends on the number of the
    values and on what is asked, and never on a value; and the search is read
    by the index as phrases, one for each word, whatever signs are in them. *)
Theorem client_text_is_data `{FloatText} g matched f page today :
  placeholders (buildFilteredItemsQuery g matched f page today).1 = length (buildFilteredItemsQuery g matched f page today).2 /\
  (forall g' matched' f' page' today', same_shape matched matched' f f' ->
     (buildFilteredItemsQuery g' matched' f' page' today').1 = (buildFilteredItemsQuery g matched f page today).1) /\
  (Fields (fil_Query f) <> [] ->
     read_phrases BetweenPhrases (ftsMatchExpression (fil_Query f)) = Some (last_starred (Fields (fil_Query f)))).
Proof.
  split_and!; [apply query_placeholders|intros; symmetry; by apply shape_text|].
  unfold ftsMatchExpression. destruct (Fields (fil_Query f)) as [|a fields]; [done|]. intros _. apply read_joined.
Qed.

(** ** GET /items *)

(** The locations that a query asks for. *)
Definition asked_locations (g : string) (q : ItemQuery) (db : DB) (ids : list string) : Prop :=
  let below x := beneath db (iq_location_id q) x /\ exists r, locations db !! x = Some r /\ GroupID r = g /\ live r = true in
  if iq_location_id q =?s "" then ids = []
  else if bool_decide (ParseBool (iq_descendants q) = Some true) then
    (forall x, x ∈ ids <-> below x) \/ (forall x, ~ below x) /\ ids = [iq_location_id q]
  else ids = [iq_location_id q].

(** The filter of a query, but for its locations. *)
Definition asked_filter (q : ItemQuery) (ids : list string) (sort : ItemSort) : ItemFilter :=
  mkItemFilter (iq_q q) ids (iq_label_id q) (parseItemCustomFieldFilters (iq_custom_field q)) (iq_warranty_status q)
    (parseItemFilterEpochMillis (iq_created_from q)) (parseItemFilterEpochMillis (iq_created_to q))
    (parseItemFilterEpochMillis (iq_updated_from q)) (parseItemFilterEpochMillis (iq_updated_to q)) sort.

Lemma parseItemPage_range q page : parseItemPage q = inr page -> (1 <= page_Limit page <= 200)%Z /\ (0 <= page_Offset page)%Z.
Proof.
  unfold parseItemPage, defaultItemListLimit, maxItemListLimit. intros Hp.
  destruct (if iq_limit q =?s "" then _ else _) as [limit|] eqn:El; [|done].
  destruct (if iq_offset q =?s "" then _ else _) as [offset|] eqn:Eo; [|done]. injection Hp as <-. cbn. split.
  - destruct (iq_limit q =?s ""); [injection El as <-; lia|]. destruct (ParseInt (iq_limit q)) as [n|]; [|done]. cbn in El.
    destruct ((n <=? 0)%Z || (200 <? n)%Z) eqn:E; [done|]. injection El as <-. apply orb_false_iff in E as [?%Z.leb_gt ?%Z.ltb_ge]. lia.
  - destruct (iq_offset q =?s ""); [injection Eo as <-; lia|]. destruct (ParseInt (iq_offset q)) as [n|]; [|done]. cbn in Eo.
    destruct (n <? 0)%Z eqn:E; [done|]. injection Eo as <-. apply Z.ltb_ge in E. lia.
Qed.

Lemma parseItemFilter_run g q w : loc_ok (locations (wdb w)) ->
  exists ids, asked_locations g q (wdb w) ids /\ forall sort, exists f, parseItemFilter g q w = (Ok f, w) /\ with_sort sort f = asked_filter q ids sort.
Proof.
  intros Ht. unfold parseItemFilter, asked_locations. destruct (iq_location_id q =?s "") eqn:E.
  { exists []. split; [done|]. intros sort. eexists. split; reflexivity. }
  apply string_eqb_false in E. case_bool_decide as Hd.
  - rewrite Hd. destruct (Descendants_run w g (iq_location_id q) Ht E) as (out & Hrun & _ & Hin).
    exists (if nonempty out then out else [iq_location_id q]). split.
    + destruct out as [|x out]; [right|by left]. split; [|done]. intros x Hx. apply Hin in Hx. by apply elem_of_nil in Hx.
    + intros sort. rewrite (prog_bind_ok _ _ _ _ _ Hrun). eexists; split; reflexivity.
  - exists [iq_location_id q]. split; [done|]. intros sort. destruct (ParseBool (iq_descendants q)) as [[]|]; [done|(eexists; split; reflexivity)..].
Qed.

(** C1: [GET /items] answers with the items that are asked for.  A limit, an
    offset or a sort that is not allowed is a bad request; otherwise the answer
    is, for every page, the part at the offset of one list: the live items of
    the group, each once, in the order of the sort, that pass the filter of
    the query, where a location with [descendants] stands for the live
    locations at and below it. *)
Theorem item_list_exact `{FloatText, FullText} g q today w :
  keyed (items (wdb w)) -> loc_ok (locations (wdb w)) ->
  (Fields (iq_q q) <> [] -> is_Some (fts_match (wdb w) (ftsMatchExpression (iq_q q)))) ->
  match parseItemPage q, parseItemSort (iq_sort q) with
  | inr page, Some sort =>
      (1 <= page_Limit page <= 200)%Z /\ (0 <= page_Offset page)%Z /\
      exists ids l, asked_locations g q (wdb w) ids /\
        (forall i, i ∈ l <-> items (wdb w) !! ID i = Some i /\ selected g today (wdb w) (asked_filter q ids sort) i) /\
        NoDup (ID <$> l) /\ StronglySorted (sort_order sort) l /\
        itemListHandler g q today w =
          (Ok (Reply 200 (toItemBody <$> take (Z.to_nat (page_Limit page)) (drop (Z.to_nat (page_Offset page)) l))), w)
  | _, _ => exists detail, itemListHandler g q today w = (Ok (problem_Write (BadRequest (Says detail))), w)
  end.
Proof.
  intros Hk Ht Hfts. unfold itemListHandler.
  destruct (parseItemPage q) as [detail|page] eqn:Ep; [by eexists|].
  destruct (parseItemSort (iq_sort q)) as [sort|]; [|by eexists].
  destruct (parseItemPage_range q page Ep) as [Hl Ho]. split_and!; [lia..|].
  destruct (parseItemFilter_run g q w Ht) as (ids & Hids & Hrun). destruct (Hrun sort) as (f & Hf & Hs).
  destruct (list_filtered g (asked_filter q ids sort) today w Hk Hfts) as (l & Hin & Hnd & Hsort & Hpage).
  exists ids, l. split_and!; [done..|]. specialize (Hpage (page_Limit page) (page_Offset page)).
  destruct page as [limit offset]. cbn [page_Limit page_Offset] in *.
  assert (E : (filter ← parseItemFilter g q; ListFiltered g (with_sort sort filter) (mkPage limit offset) today) w =
    (Ok (take (Z.to_nat limit) (drop (Z.to_nat offset) l)), w)) by (rewrite (prog_bind_ok _ _ _ _ _ Hf), Hs; apply Hpage; lia).
  assert (Et : try (filter ← parseItemFilter g q; ListFiltered g (with_sort sort filter) (mkPage limit offset) today) w =
    (Ok (Ok (take (Z.to_nat limit) (drop (Z.to_nat offset) l))), w)) by (unfold try; by rewrite E).
  unfold answer. rewrite (prog_bind_ok _ _ _ _ _ Et). unfold writeJSON.
  assert (Hj : forall its : list itemBody, json_ok its = true) by (intros its; by apply forallb_true_iff). by rewrite Hj.
Qed.

(** ** A search *)

(** An index that finds the names that begin with every phrase. *)
#[local] Existing Instance BinaryText.
#[local] Instance names_index : FullText := fun db expression =>
  phrases ← read_phrases BetweenPhrases expression;
  Some (fun id => match items db !! id with
                  | Some i => forallb (fun p => HasPrefix (item_Name (Cols i)) p.1) phrases
                  | None => false
                  end).

Definition lamp_query : ItemQuery := mkItemQuery "10" "" "-name" " La " "" "" [] [] "none" "" "" "" "".
Definition lamp_filter : ItemFilter := asked_filter lamp_query [] (mkItemSort (Some ItemSortName) true).

Example lamp_found :
  (itemListHandler "g1" lamp_query "2024-05-01" demo).1 = Ok (Reply 200 (toItemBody <$> option_list (items (wdb demo) !! "i1"))).
Proof. vm_compute. reflexivity. Qed.

Lemma item_list_exact_witness :
  keyed (items (wdb demo)) /\ loc_ok (locations (wdb demo)) /\
  (Fields (iq_q lamp_query) <> [] -> is_Some (fts_match (wdb demo) (ftsMatchExpression (iq_q lamp_query)))) /\
  exists ids l, asked_locations "g1" lamp_query (wdb demo) ids /\
    (forall i, i ∈ l <-> items (wdb demo) !! ID i = Some i /\
       selected "g1" "2024-05-01" (wdb demo) (asked_filter lamp_query ids (mkItemSort (Some ItemSortName) true)) i) /\
    itemListHandler "g1" lamp_query "2024-05-01" demo = (Ok (Reply 200 (toItemBody <$> take 10 (drop 0 l))), demo).
Proof.
  assert (Hk : keyed (items (wdb demo))) by (apply items_keyed, demo_ok).
  assert (Ht : loc_ok (locations (wdb demo))) by (rewrite <- demo_served; apply serve_keeps_locations, loc_ok_empty).
  assert (Hf : Fields (iq_q lamp_query) <> [] -> is_Some (fts_match (wdb demo) (ftsMatchExpression (iq_q lamp_query)))) by (intros _; by eexists).
  split_and!; [exact Hk|exact Ht|exact Hf|].
  destruct (item_list_exact "g1" lamp_query "2024-05-01" demo Hk Ht Hf) as (_ & _ & ids & l & Hids & Hin & _ & _ & Hrun).
  exists ids, l. split; [exact Hids|split; [exact Hin|exact Hrun]].
Defined.

Lemma client_text_is_data_witness :
  Fields (fil_Query lamp_filter) <> [] /\
  read_phrases BetweenPhrases (ftsMatchExpression (fil_Query lamp_filter)) = Some (last_starred (Fields (fil_Query lamp_filter))).
Proof.
  assert (Hf : Fields (fil_Query lamp_filter) <> []) by (vm_compute; discriminate).
  split; [exact Hf|]. apply (client_text_is_data "g1" None lamp_filter (mkPage 10 0) "2024-05-01"). exact Hf.
Defined.
