(* ===== verification/Bom.v ===== *)
(** * The bill of materials (httpapi/bom.go)

    [GET /export/bom]: the items in some locations, under any of some labels or
    from a list of ids, with their prices and the running total, as a CSV
    file.

    It has one record for every selected item, in the order of the ids, and
    the last column is the sum of the prices so far. *)

From stdpp Require Import relations.
From S2P Require Import Prelude GoBase Schema Sql Evolution Queries Items Blocks Details History Locations LocationTree.
From S2P Require Import PushMerge Demo System LocationProperties Escape Strconv Csv Export Exchange Reads ImportFlow HttpCore.
From S2P Require Import HttpItems Calendar Tree Reports ItemFilter ItemListProperties.
From Stdlib Require Import Strings.Ascii.

#[local] Open Scope string_scope.

(** The parameters of the query. *)
Record BomQuery := mkBomQuery { bq_location_id : list string; bq_label_id : list string; bq_item_id : list string }.

Definition bomCSVHeader : list string :=
  ["item_id"; "item_name"; "location_id"; "location_name"; "quantity"; "value_minor"; "identifications"; "running_total_minor"].

Definition dedupeNonEmptyStrings (values : list string) : list string :=
  dedupe_loop ∅ (List.filter (fun v => negb (v =?s "")) values).

Definition ErrBoMSelection : string :=
  "location_id, label_id and item_id are mutually exclusive selection modes; supply values for exactly one (or none, for an empty export)".

Definition parseBoMSelection (q : BomQuery) : option (list string * list string * list string) :=
  let locationIDs := dedupeNonEmptyStrings (bq_location_id q) in
  let labelIDs := dedupeNonEmptyStrings (bq_label_id q) in
  let itemIDs := dedupeNonEmptyStrings (bq_item_id q) in
  let kinds := length (List.filter id [nonempty locationIDs; nonempty labelIDs; nonempty itemIDs]) in
  if (1 <? kinds)%nat then None else Some (locationIDs, labelIDs, itemIDs).

Section bom.
Context `{FloatText, FullText} (group today : string).

(** [today] is only read for a warranty status, which no filter here has. *)
Definition bom_page (filter : ItemFilter) (offset : Z) : M (list Item) :=
  ListFiltered group filter (mkPage exportItemPageSize offset) today.

Fixpoint list_bom_loop (filter : ItemFilter) (fuel : nat) (offset : Z) : M (list Item) :=
  match fuel with
  | O => throw (ErrMessage "out of fuel")
  | S fuel =>
      page ← bom_page filter offset;
      if (Z.of_nat (length page) <? exportItemPageSize)%Z then mret page else
      rest ← list_bom_loop filter fuel (offset + exportItemPageSize)%Z;
      mret (page ++ rest)%list
  end.

(** A full page has 200 items, so the number of items bounds the pages. *)
Definition listAllBoMItems (filter : ItemFilter) : M (list Item) :=
  db ← get_db; list_bom_loop filter (S (size (items db))) 0.

Definition no_filter : ItemFilter := mkItemFilter "" [] [] [] "" None None None None (mkItemSort None false).
Definition of_locations (locationIDs : list string) : ItemFilter := with_locations locationIDs no_filter.
Definition of_label (labelID : string) : ItemFilter := mkItemFilter "" [] [labelID] [] "" None None None None (mkItemSort None false).

Definition add_items (its : list Item) (seen : gmap string Item) : gmap string Item :=
  foldl (fun seen it => <[ID it := it]> seen) seen its.

(** In no known order; the handler sorts them. *)
Definition found_items (seen : gmap string Item) : list Item := (map_to_list seen).*2.

Fixpoint items_by_label (labelIDs : list string) (seen : gmap string Item) : M (gmap string Item) :=
  match labelIDs with
  | [] => mret seen
  | labelID :: labelIDs =>
      matched ← listAllBoMItems (of_label labelID);
      items_by_label labelIDs (add_items matched seen)
  end.
Definition selectItemsByAnyLabel (labelIDs : list string) : M (list Item) :=
  seen ← items_by_label labelIDs ∅; mret (found_items seen).

Fixpoint items_by_id (itemIDs : list string) (seen : gmap string Item) : M (gmap string Item) :=
  match itemIDs with
  | [] => mret seen
  | id :: itemIDs =>
      it ← try (Items_Get group id);
      match it with
      | Ok it => items_by_id itemIDs (<[ID it := it]> seen)
      | Err e => if bool_decide (e = ErrNotFound) then items_by_id itemIDs seen else throw e
      end
  end.
Definition selectItemsByID (itemIDs : list string) : M (list Item) :=
  seen ← items_by_id itemIDs ∅; mret (found_items seen).

Definition selectBoMItems (locationIDs labelIDs itemIDs : list string) : M (list Item) :=
  if nonempty locationIDs then listAllBoMItems (of_locations locationIDs)
  else if nonempty labelIDs then selectItemsByAnyLabel labelIDs
  else if nonempty itemIDs then selectItemsByID itemIDs
  else mret [].

Definition bomItemValueMinor (itemID : string) : M Z :=
  p ← try (Purchase_Get group itemID);
  match p with
  | Ok p => mret (pur_PriceMinor (Cols p))
  | Err e => if bool_decide (e = ErrNotFound) then mret 0%Z else throw e
  end.

Definition bomEncodeIdentifications (ids : list Identification) : string :=
  Join ((fun id => EscapeSubValue (idn_Kind (Cols id)) ++ ":" ++ EscapeSubValue (idn_Value (Cols id))) <$> ids) "|".

Definition location_names (locations : list Location) : gmap string string :=
  foldl (fun names l => <[ID l := loc_Name (Cols l)]> names) ∅ locations.

Definition bom_record (locationNames : gmap string string) (item : Item) (valueMinor : Z) (idents : list Identification)
    (runningTotal : Z) : list string :=
  let locationID := default "" (item_LocationID (Cols item)) in
  let locationName := match item_LocationID (Cols item) with Some l => default "" (locationNames !! l) | None => "" end in
  [ID item; item_Name (Cols item); locationID; locationName; FormatInt (item_Quantity (Cols item)); FormatInt valueMinor;
   bomEncodeIdentifications idents; FormatInt runningTotal].

Fixpoint bom_records (locationNames : gmap string string) (items : list Item) (runningTotal : Z) : M (list (list string)) :=
  match items with
  | [] => mret []
  | item :: items =>
      valueMinor ← bomItemValueMinor (ID item);
      idents ← Identifications_List group (ID item);
      let runningTotal := wrap64 (runningTotal + valueMinor) in
      rest ← bom_records locationNames items runningTotal;
      mret (bom_record locationNames item valueMinor idents runningTotal :: rest)
  end.

(** [utc_today] is the date in the name of the file. *)
Definition bomHandler (q : BomQuery) (utc_today : Date) : M (Response (ReportAnswer unit)) :=
  match parseBoMSelection q with
  | None => mret (problem_Write (BadRequest (Says ErrBoMSelection)))
  | Some (locationIDs, labelIDs, itemIDs) =>
      answer (items ← selectBoMItems locationIDs labelIDs itemIDs;
              let items := order_by by_id items in
              locations ← Locations_List group;
              bom_records (location_names locations) items 0) []
        (fun records => writeReportCSV utc_today "bom" bomCSVHeader records)
  end.
End bom.

#[local] Close Scope string_scope.

Lemma wrap64_add a b : wrap64 (wrap64 a + b) = wrap64 (a + b).
Proof.
  unfold wrap64. replace ((a + 2 ^ 63) mod 2 ^ 64 - 2 ^ 63 + b + 2 ^ 63)%Z with ((a + 2 ^ 63) mod 2 ^ 64 + b)%Z by lia.
  rewrite Z.add_mod_idemp_l by lia. do 2 f_equal. lia.
Qed.

(** ** The items *)

Section items.
Context `{FloatText, FullText} (g today : string) (w : World) (items_keyed : keyed (items (wdb w))).

(** A live item of the group. *)
Definition owned (i : Item) : Prop := items (wdb w) !! ID i = Some i /\ GroupID i = g /\ live i = true.

(** The pages of a list, read one after the other. *)
Lemma list_bom_loop_rest filter l fuel off :
  (forall offset, (0 <= offset)%Z -> bom_page g today filter offset w = (Ok (take 200 (drop (Z.to_nat offset) l)), w)) ->
  (0 <= off)%Z -> (Z.of_nat (length l) < off + 200 * Z.of_nat fuel)%Z ->
  list_bom_loop g today filter fuel off w = (Ok (drop (Z.to_nat off) l), w) \/ fuel = O.
Proof.
  intros Hpage. revert off. induction fuel as [|fuel IH]; intros off Hoff Hlen; [by right|left].
  cbn [list_bom_loop]. rewrite (prog_bind_ok _ _ _ _ _ (Hpage off Hoff)). rewrite length_take, length_drop.
  unfold exportItemPageSize in *. destruct (Z.ltb_spec (Z.of_nat (200 `min` (length l - Z.to_nat off))) 200) as [Hlt|Hge].
  - rewrite take_ge; [done|]. rewrite length_drop. lia.
  - destruct (IH (off + 200)%Z) as [Hr| ->]; [lia|lia| |exfalso; lia]. rewrite (prog_bind_ok _ _ _ _ _ Hr).
    replace (Z.to_nat (off + 200)) with (Z.to_nat off + 200)%nat by lia. by rewrite <- drop_drop, take_drop.
Qed.

Lemma owned_length l : NoDup (ID <$> l) -> (forall i, i ∈ l -> items (wdb w) !! ID i = Some i) -> (length l <= size (items (wdb w)))%nat.
Proof.
  intros Hnd Hin. rewrite <- (length_fmap ID l), <- length_map_to_list, <- (length_fmap fst (map_to_list _)).
  apply submseteq_length, NoDup_submseteq; [done|]. intros id (i & -> & Hi)%list_elem_of_fmap.
  apply list_elem_of_fmap. exists (ID i, i). split; [done|]. by apply elem_of_map_to_list, Hin.
Qed.

Lemma listAllBoMItems_all filter : fil_Query filter = ""%string ->
  exists l, listAllBoMItems g today filter w = (Ok l, w) /\ NoDup (ID <$> l) /\
    forall i, i ∈ l <-> items (wdb w) !! ID i = Some i /\ selected g today (wdb w) filter i.
Proof.
  intros Hq. destruct (list_filtered g filter today w items_keyed) as (l & Hin & Hnd & _ & Hpage); [by rewrite Hq|].
  exists l. split_and!; [|done..]. unfold listAllBoMItems, get_db, mbind, prog_bind.
  pose proof (owned_length l Hnd (fun i Hi => proj1 (proj1 (Hin i) Hi))).
  destruct (list_bom_loop_rest filter l (S (size (items (wdb w)))) 0) as [Hr|]; [|lia|lia|by rewrite Hr|done].
  intros offset Ho. by apply Hpage.
Qed.

(** *** Maps of items *)

(** [seen] holds the items with [P]. *)
Definition holds_items (seen : gmap string Item) (P : Item -> Prop) : Prop :=
  forall k i, seen !! k = Some i <-> k = ID i /\ owned i /\ P i.

Lemma holds_insert seen P it : owned it -> holds_items seen P -> holds_items (<[ID it := it]> seen) (fun i => P i \/ i = it).
Proof.
  intros Ho Hs k i. destruct (decide (k = ID it)) as [->|Hne].
  - rewrite lookup_insert_eq. split; [intros [= <-]; by auto|]. intros (Hid & [Hi _] & _). destruct Ho as [Ho _]. rewrite Hid in Ho. congruence.
  - rewrite lookup_insert_ne by done. rewrite (Hs k i). split; [intros (-> & ? & ?); by auto|].
    intros (-> & ? & [HP| ->]); [by auto|done].
Qed.

Lemma holds_ext seen P Q : (forall i, owned i -> P i <-> Q i) -> holds_items seen P -> holds_items seen Q.
Proof. intros HPQ Hs k i. rewrite (Hs k i). split; intros (? & Ho & ?); (split_and!; [done..|]); by apply HPQ. Qed.

Lemma holds_add its seen P : (forall i, i ∈ its -> owned i) -> holds_items seen P -> holds_items (add_items its seen) (fun i => P i \/ i ∈ its).
Proof.
  unfold add_items. revert seen P. induction its as [|it its IH]; intros seen P Ho Hs; cbn [foldl].
  - eapply holds_ext; [|exact Hs]. intros i _. rewrite elem_of_nil. tauto.
  - eapply holds_ext; [|apply IH; [|apply (holds_insert seen P it); [|exact Hs]]].
    + intros i _. cbn. rewrite elem_of_cons. tauto.
    + intros i Hi. apply Ho. by right.
    + apply Ho. by left.
Qed.

Lemma holds_values seen P : holds_items seen P -> NoDup (ID <$> found_items seen) /\ forall i, i ∈ found_items seen <-> owned i /\ P i.
Proof.
  intros Hs. unfold found_items. split.
  - rewrite <- list_fmap_compose. replace (compose ID snd <$> map_to_list seen) with (fst <$> map_to_list seen); [apply NoDup_fst_map_to_list|].
    apply list_fmap_ext. intros n [k i] Hn. apply list_elem_of_lookup_2, elem_of_map_to_list, Hs in Hn. by destruct Hn as (-> & _).
  - intros i. rewrite list_elem_of_fmap. split.
    + intros ([k i'] & -> & Hin%elem_of_map_to_list). apply Hs in Hin. by destruct Hin as (_ & ? & ?).
    + intros [Ho HP]. exists (ID i, i). split; [done|]. apply elem_of_map_to_list. by apply Hs.
Qed.

Lemma holds_nothing : holds_items ∅ (fun _ => False).
Proof. intros k i. rewrite lookup_empty. split; [done|tauto]. Qed.
End items.

(** ** The selection *)

Section selection.
Context `{FloatText, FullText} (g today : string) (w : World) (items_keyed : keyed (items (wdb w))).

Definition bom_selected (locationIDs labelIDs itemIDs : list string) (i : Item) : Prop :=
  if nonempty locationIDs then exists l, item_LocationID (Cols i) = Some l /\ l ∈ locationIDs
  else if nonempty labelIDs then exists l, l ∈ labelIDs /\ has_label g (wdb w) i l
  else if nonempty itemIDs then ID i ∈ itemIDs
  else False.

Lemma selected_locations locationIDs i : locationIDs <> [] ->
  selected g today (wdb w) (of_locations locationIDs) i <->
  GroupID i = g /\ live i = true /\ exists l, item_LocationID (Cols i) = Some l /\ l ∈ locationIDs.
Proof.
  intros Hne. split.
  - intros [Hg Hl _ Hloc _ _ _ _ _]. split_and!; [done..|]. by apply Hloc.
  - intros (Hg & Hl & Hloc). split; cbn; try done; try by split_and!; try by intros ? ?%elem_of_nil.
    all: intros ? Hx; by apply elem_of_nil in Hx.
Qed.

Lemma selected_label labelID i :
  selected g today (wdb w) (of_label labelID) i <-> GroupID i = g /\ live i = true /\ has_label g (wdb w) i labelID.
Proof.
  split.
  - intros [Hg Hl _ _ Hlab _ _ _ _]. split_and!; [done..|]. apply Hlab. cbn. by left.
  - intros (Hg & Hl & Hlab). split; cbn; try done; try by split_and!.
    + by intros l ->%list_elem_of_singleton.
    + intros m Hm. by apply elem_of_nil in Hm.
Qed.

Lemma items_by_label_run labelIDs : forall seen P, holds_items g w seen P ->
  exists seen', items_by_label g today labelIDs seen w = (Ok seen', w) /\
    holds_items g w seen' (fun i => P i \/ exists l, l ∈ labelIDs /\ has_label g (wdb w) i l).
Proof.
  induction labelIDs as [|labelID labelIDs IH]; intros seen P Hs; cbn [items_by_label].
  - exists seen. split; [done|]. eapply holds_ext; [|exact Hs]. intros i _. split; [by left|].
    intros [|(l & Hl & _)]; [done|]. by apply elem_of_nil in Hl.
  - destruct (listAllBoMItems_all g today w items_keyed (of_label labelID) eq_refl) as (l & Hrun & _ & Hin).
    rewrite (prog_bind_ok _ _ _ _ _ Hrun).
    destruct (IH (add_items l seen) (fun i => P i \/ i ∈ l)) as (seen' & Hrun' & Hs').
    { apply holds_add; [|done]. intros i Hi. apply Hin in Hi as [Hi (Hg & Hl & _)%selected_label]. by split. }
    exists seen'. split; [done|]. eapply holds_ext; [|exact Hs']. intros i (Hi & Hg & Hl). cbn.
    rewrite Hin, selected_label. setoid_rewrite elem_of_cons. naive_solver.
Qed.

Lemma Items_Get_cases id :
  (exists i, Items_Get g id w = (Ok i, w) /\ owned g w i /\ ID i = id) \/
  (Items_Get g id w = (Err ErrNotFound, w) /\ forall i, owned g w i -> ID i <> id).
Proof.
  unfold Items_Get, no_rows_as. destruct (GetItem g id w) as [[i|e] w'] eqn:E; unfold try, mbind, prog_bind; rewrite E.
  - left. unfold GetItem in E. apply select_one_ok in E as (-> & HP & k & Hk). bool_facts. pose proof (items_keyed _ _ Hk) as Hkk.
    exists i. split_and!; [done| |done]. unfold owned. rewrite Hkk. by split_and!.
  - right. unfold GetItem in E. apply select_one_err in E as (-> & -> & Hno). split; [done|].
    intros i (Hi & Hg & Hl) Hid. specialize (Hno _ _ Hi). cbn beta in Hno. by rewrite Hg, Hid, Hl, !string_eqb_refl in Hno.
Qed.

Lemma items_by_id_run itemIDs : forall seen P, holds_items g w seen P ->
  exists seen', items_by_id g itemIDs seen w = (Ok seen', w) /\ holds_items g w seen' (fun i => P i \/ ID i ∈ itemIDs).
Proof.
  induction itemIDs as [|id itemIDs IH]; intros seen P Hs; cbn [items_by_id].
  - exists seen. split; [done|]. eapply holds_ext; [|exact Hs]. intros i _. rewrite elem_of_nil. tauto.
  - destruct (Items_Get_cases id) as [(it & Hrun & Ho & Hid)|[Hrun Hno]].
    + rewrite (prog_bind_ok _ _ _ (Ok it) w) by (unfold try; by rewrite Hrun).
      destruct (IH (<[ID it := it]> seen) (fun i => P i \/ i = it)) as (seen' & Hrun' & Hs'); [by apply holds_insert|].
      exists seen'. split; [done|]. eapply holds_ext; [|exact Hs']. intros i (Hi & _ & _). cbn. rewrite elem_of_cons.
      assert (i = it <-> ID i = id); [|tauto]. split; [by intros ->|]. intros Hii. destruct Ho as [Hit _].
      rewrite Hid in Hit. rewrite Hii in Hi. congruence.
    + rewrite (prog_bind_ok _ _ _ (Err ErrNotFound) w) by (unfold try; by rewrite Hrun).
      rewrite bool_decide_eq_true_2 by done. destruct (IH seen P Hs) as (seen' & Hrun' & Hs').
      exists seen'. split; [done|]. eapply holds_ext; [|exact Hs']. intros i Ho. cbn. rewrite elem_of_cons.
      specialize (Hno i Ho). tauto.
Qed.

Lemma selectBoMItems_run locationIDs labelIDs itemIDs :
  exists its, selectBoMItems g today locationIDs labelIDs itemIDs w = (Ok its, w) /\ NoDup (ID <$> its) /\
    forall i, i ∈ its <-> owned g w i /\ bom_selected locationIDs labelIDs itemIDs i.
Proof.
  unfold selectBoMItems, bom_selected. destruct (nonempty locationIDs) eqn:E1; [|destruct (nonempty labelIDs); [|destruct (nonempty itemIDs)]].
  - destruct (listAllBoMItems_all g today w items_keyed (of_locations locationIDs) eq_refl) as (l & Hrun & Hnd & Hin).
    exists l. split_and!; [done..|]. intros i. rewrite Hin, selected_locations by by destruct locationIDs. unfold owned. tauto.
  - destruct (items_by_label_run labelIDs ∅ _ (holds_nothing g w)) as (seen & Hrun & Hs).
    unfold selectItemsByAnyLabel. exists (found_items seen). rewrite (prog_bind_ok _ _ _ _ _ Hrun).
    destruct (holds_values _ _ _ _ Hs) as [Hnd Hin]. split_and!; [done..|]. intros i. rewrite Hin. tauto.
  - destruct (items_by_id_run itemIDs ∅ _ (holds_nothing g w)) as (seen & Hrun & Hs).
    unfold selectItemsByID. exists (found_items seen). rewrite (prog_bind_ok _ _ _ _ _ Hrun).
    destruct (holds_values _ _ _ _ Hs) as [Hnd Hin]. split_and!; [done..|]. intros i. rewrite Hin. tauto.
  - exists []. split_and!; [done|constructor|]. intros i. rewrite elem_of_nil. tauto.
Qed.
End selection.

(** ** The records *)

Section records.
Context `{FloatText, FullText} (g : string) (w : World) (items_keyed : keyed (items (wdb w))).

(** The price of an item: that of its purchase, and zero if it has none. *)
Definition price_of_item (i : Item) (v : Z) : Prop :=
  (exists p, part_of g (wdb w) pur_ItemID i p /\ v = pur_PriceMinor (Cols p)) \/
  (~ exists p, part_of g (wdb w) pur_ItemID i p) /\ v = 0%Z.

Definition identifications_of (i : Item) : list Identification :=
  order_by (fun a b => CreatedAt a <=? CreatedAt b)%Z
    (where_ (fun r => (GroupID r =?s g) && (idn_ItemID (Cols r) =?s ID i) && live r) (item_identifications (wdb w))).

Lemma bomItemValueMinor_run i : exists v, bomItemValueMinor g (ID i) w = (Ok v, w) /\ price_of_item i v.
Proof.
  unfold bomItemValueMinor, Purchase_Get, no_rows_as, GetItemPurchase, price_of_item, part_of, try, mbind, prog_bind.
  match goal with |- context [select_one ?P w] => destruct (select_one P w) as [[p|e] w'] eqn:E end.
  - apply select_one_ok in E as (-> & HP & Hk). bool_facts. eexists. split; [done|]. left. exists p. by split_and!.
  - apply select_one_err in E as (-> & -> & Hno). cbn. rewrite bool_decide_eq_true_2 by done. eexists. split; [done|]. right. split; [|done].
    intros (p & (k & Hk) & Hg & Hi & Hl). specialize (Hno _ _ Hk). cbn beta in Hno. by rewrite Hg, Hi, Hl, !string_eqb_refl in Hno.
Qed.

Lemma Identifications_List_run i : owned g w i -> Identifications_List g (ID i) w = (Ok (identifications_of i), w).
Proof.
  intros (Hi & Hg & Hl). unfold Identifications_List, of_item.
  assert (Ht : try (GetItem g (ID i)) w = (Ok (Ok i), w)) by (unfold try; rewrite (GetItem_hit w g (ID i) i items_keyed Hi Hg Hl); reflexivity).
  assert (E : no_rows_as ErrNotFound (GetItem g (ID i)) w = (Ok i, w)) by (unfold no_rows_as; rewrite (prog_bind_ok _ _ _ _ _ Ht); reflexivity).
  rewrite (prog_bind_ok _ _ _ _ _ E). reflexivity.
Qed.

Lemma bom_records_run names its total : (forall i, i ∈ its -> owned g w i) ->
  exists prices, Forall2 price_of_item its prices /\
  exists records, bom_records g names its total w = (Ok records, w) /\ length records = length its /\
    forall n i v, its !! n = Some i -> prices !! n = Some v ->
      records !! n = Some (bom_record names i v (identifications_of i) (wrap64 (total + sum_Z (take (S n) prices)))).
Proof.
  revert total. induction its as [|i its IH]; intros total Ho; cbn [bom_records].
  { exists []. split; [constructor|]. by exists []. }
  destruct (bomItemValueMinor_run i) as (v & Hv & Hprice). rewrite (prog_bind_ok _ _ _ _ _ Hv).
  rewrite (prog_bind_ok _ _ _ _ _ (Identifications_List_run i (Ho i ltac:(by left)))). cbv zeta.
  destruct (IH (wrap64 (total + v))) as (prices & Hps & records & Hr & Hlen & Hn); [intros j Hj; apply Ho; by right|].
  exists (v :: prices). split; [by constructor|]. rewrite (prog_bind_ok _ _ _ _ _ Hr).
  eexists. split; [done|]. split; [cbn [length]; by rewrite Hlen|]. intros [|n] j u Hj Hu.
  - injection Hj as <-. injection Hu as <-. replace (sum_Z (take 1 (v :: prices))) with v by (rewrite firstn_cons, take_0; unfold sum_Z; cbn [foldr]; lia). reflexivity.
  - etrans; [exact (Hn n j u Hj Hu)|]. rewrite wrap64_add, firstn_cons.
    replace (sum_Z (v :: take (S n) prices)) with (v + sum_Z (take (S n) prices))%Z by reflexivity. by rewrite Z.add_assoc.
Qed.

Lemma location_names_lookup ls : NoDup (ID <$> ls) -> forall l n, location_names ls !! l = Some n <-> exists r, r ∈ ls /\ ID r = l /\ loc_Name (Cols r) = n.
Proof.
  unfold location_names. intros Hnd l n.
  assert (Hgen : forall m : gmap string string, foldl (fun names (r : Location) => <[ID r := loc_Name (Cols r)]> names) m ls !! l = Some n <->
    (exists r, r ∈ ls /\ ID r = l /\ loc_Name (Cols r) = n) \/ (l ∉ ID <$> ls) /\ m !! l = Some n).
  { induction ls as [|r ls IH]; intros m; cbn [foldl].
    - split; [intros ?; right; split; [by apply not_elem_of_nil|done]|intros [(? & Hx & _)|[_ ?]]; [by apply elem_of_nil in Hx|done]].
    - cbn in Hnd. apply NoDup_cons in Hnd as [Hr Hnd]. rewrite IH by done. rewrite fmap_cons, not_elem_of_cons.
      destruct (decide (ID r = l)) as [<-|Hne].
      + rewrite lookup_insert_eq. split.
        * intros [(s & Hs & Hid & Hn)|[_ [= <-]]]; left; [exists s; split; [by right|done]|exists r; split; [by left|done]].
        * intros [(s & Hs & Hid & Hn)|[[Hc _] _]]; [|done]. apply elem_of_cons in Hs as [->|Hs]; [right; split; [done|by rewrite Hn]|].
          left. by exists s.
      + rewrite lookup_insert_ne by done. split.
        * intros [(s & Hs & Hid & Hn)|[Hno Hm]]; [left; exists s; split; [by right|done]|right; split; [split; [congruence|done]|done]].
        * intros [(s & Hs & Hid & Hn)|[[_ Hno] Hm]]; [|by right]. apply elem_of_cons in Hs as [->|Hs]; [done|]. left. by exists s. }
  rewrite Hgen, lookup_empty. split; [intros [|[_ [=]]]; done|by left].
Qed.
End records.

(** By ids. *)
Definition id_order (a b : Item) : Prop := String.le (ID a) (ID b).
#[local] Instance id_order_trans : Transitive id_order.
Proof. intros a b c. unfold id_order. intros. by transitivity (ID b). Qed.
#[local] Instance id_order_total : Total id_order.
Proof. intros a b. apply (base.total String.le). Qed.

(** C1: the bill of materials.  More than one way of selecting is a bad
    request; otherwise the answer is a CSV file with the header and one record
    for every live item of the group that is selected (in one of the
    locations, or under any of the labels, or listed), each once, in the order
    of the ids: with the name of its live location, its price, and as running
    total the sum of the prices up to it, in 64 bits. *)
Theorem bom_exact `{FloatText, FullText} g today q utc_today w :
  keyed (items (wdb w)) -> keyed (locations (wdb w)) ->
  match parseBoMSelection q with
  | None => bomHandler g today q utc_today w = (Ok (problem_Write (BadRequest (Says ErrBoMSelection))), w)
  | Some (locationIDs, labelIDs, itemIDs) =>
      exists its prices names records,
        (forall i, i ∈ its <-> owned g w i /\ bom_selected g w locationIDs labelIDs itemIDs i) /\
        NoDup (ID <$> its) /\ StronglySorted id_order its /\ Forall2 (price_of_item g w) its prices /\
        (forall l n, names !! l = Some n <-> exists r, locations (wdb w) !! l = Some r /\ GroupID r = g /\ live r = true /\ loc_Name (Cols r) = n) /\
        length records = length its /\
        (forall n i v, its !! n = Some i -> prices !! n = Some v ->
           records !! n = Some (bom_record names i v (identifications_of g w i) (wrap64 (sum_Z (take (S n) prices))))) /\
        bomHandler g today q utc_today w =
          (Ok (Reply 200 (ReportCSV (filenameForReport "bom" utc_today) (csv_write (bomCSVHeader :: records)))), w)
  end.
Proof.
  intros Hk Hkl. unfold bomHandler. destruct (parseBoMSelection q) as [[[locationIDs labelIDs] itemIDs]|]; [|done].
  destruct (selectBoMItems_run g today w Hk locationIDs labelIDs itemIDs) as (sel & Hsel & Hnd & Hin).
  set (its := order_by by_id sel).
  assert (Hits : forall i, i ∈ its <-> owned g w i /\ bom_selected g w locationIDs labelIDs itemIDs i) by (intros i; unfold its; by rewrite elem_of_order_by).
  set (ls := order_by (fun a b => asc2_leb (loc_Name (Cols a), ID a) (loc_Name (Cols b), ID b)) (where_ (fun r : Location => (GroupID r =?s g) && live r) (locations (wdb w)))).
  assert (Hls : Locations_List g w = (Ok ls, w)) by reflexivity.
  destruct (bom_records_run g w Hk (location_names ls) its 0) as (prices & Hps & records & Hrec & Hlen & Hn); [intros i Hi; by apply Hits|].
  exists its, prices, (location_names ls), records. split_and!; [done| |by apply StronglySorted_order_by; [apply _..|apply by_id_le]|done| |done| |].
  - unfold its. by rewrite order_by_Permutation.
  - intros l n. rewrite location_names_lookup by (unfold ls; rewrite order_by_Permutation; by apply NoDup_where_ids).
    unfold ls. setoid_rewrite elem_of_order_by. setoid_rewrite elem_of_where_keyed; [|done]. split.
    + intros (r & [Hr Hb] & <- & Hname). bool_facts. by exists r.
    + intros (r & Hr & Hg & Hl & Hname). exists r. rewrite (Hkl _ _ Hr), Hr, Hg, Hl, string_eqb_refl. done.
  - intros n i v Hi Hv. by rewrite (Hn n i v Hi Hv), Z.add_0_l.
  - unfold answer, try. rewrite (prog_bind_ok _ _ _ (Ok records) w); [done|].
    rewrite (prog_bind_ok _ _ _ _ _ Hsel). cbv zeta. fold its. by rewrite (prog_bind_ok _ _ _ _ _ Hls), Hrec.
Qed.

#[local] Existing Instance BinaryText.
#[local] Instance no_index : FullText := fun _ _ => None.

(** The lamp, as the household has bought it. *)
Definition purchased : World := Eval vm_compute in
  exec (Purchase_Create "g1" (mkCreatePurchaseP "p1" "i1" "Shop" "2024-01-02" 1250 "" "" 200)) demo.

Definition lamp_bom : BomQuery := mkBomQuery [] [] ["i1"; "i1"; "gone"; ""].

Example lamp_listed : exists name,
  (bomHandler "g1" "" lamp_bom (mkDate 2024 5 1) purchased).1 =
    Ok (Reply 200 (ReportCSV name (csv_write [bomCSVHeader; ["i1"; "Lamp"; ""; ""; "3"; "1250"; ""; "1250"]])))%string.
Proof. vm_compute. by eexists. Qed.

Lemma bom_exact_witness :
  keyed (items (wdb purchased)) /\ keyed (locations (wdb purchased)) /\
  exists its prices records,
    (forall i, i ∈ its <-> owned "g1" purchased i /\ bom_selected "g1" purchased [] [] ["i1"; "gone"]%string i) /\
    Forall2 (price_of_item "g1" purchased) its prices /\
    bomHandler "g1" "" lamp_bom (mkDate 2024 5 1) purchased =
      (Ok (Reply 200 (ReportCSV (filenameForReport "bom" (mkDate 2024 5 1)) (csv_write (bomCSVHeader :: records)))), purchased).
Proof.
  assert (Hk : keyed (items (wdb purchased))) by (apply keyedb_keyed; vm_compute; reflexivity).
  assert (Hl : keyed (locations (wdb purchased))) by (apply keyedb_keyed; vm_compute; reflexivity).
  split; [exact Hk|split; [exact Hl|]].
  destruct (bom_exact "g1" "" lamp_bom (mkDate 2024 5 1) purchased Hk Hl) as (its & prices & names & records & Hin & _ & _ & Hp & _ & _ & _ & Hrun).
  exists its, prices, records. split; [exact Hin|split; [exact Hp|exact Hrun]].
Defined.
